(* ===== verification/_CoqProject ===== *)
-Q . S2P
Prelude.v
Inst.v
VM.v
VMFacts.v
Verifier.v
VMProps.v
Fsm.v
PolicyCache.v
PolicyExec.v
Mempool.v
MempoolList.v
Mbuf.v
MbufHeap.v
MbufEdit.v
MbufLogic.v
MbufChain.v
MbufAppend.v
MbufDup.v
MbufTrim.v
MbufFront.v
MbufJoin.v
MbufRead.v
MbufInto.v
MbufWiden.v
MbufPacket.v
MbufQueue.v
MbufProps.v
Patch.v
GattSvr.v
ZephyrFsm.v
ZephyrPolicies.v
ZephyrCache.v
ZephyrParser.v
ZephyrSpec.v
ZephyrL2cap.v
MynewtFsm.v
MynewtPolicies.v
MynewtParser.v
PatchRuns.v
Thumb2.v
Arm.v
Jit.v
Thumb2Facts.v
ArmFacts.v
JitLogic.v
JitEmit.v
JitOps.v
JitPasses.v
JitLayout.v
JitFlow.v
JitEntry.v
JitBranch.v
JitCheck.v
JitSim.v
JitCorrect.v
JitOverflow.v
JitEnv.v
JitHooks.v
Device.v
JitZephyr.v
JitProps.v
Maps.v
MapsProps.v
HashMap.v
HashMapProps.v
ProgList.v
