(* ===== verification/Prelude.v ===== *)
(** * BlueSWAT: a verification development of its eBPF firewall

    BlueSWAT puts a firewall into a Bluetooth Low Energy stack. Hooks in the link
    layer and the host see each packet before the stack does; they write what the
    packet says into a finite state record ([struct FsmState]) and ask the policies
    registered for the slot they wrote. A policy is a small eBPF program that reads
    the record and returns PASS or REJECT. Policies are compiled in, or sent over
    the air to a GATT service (the patch service), which verifies and installs them.
    The program exists twice: in a fork of Zephyr ([src/ZephyrOS/zephyr/firewall],
    [src/ZephyrOS/peripheral]) and in a fork of Apache Mynewt's NimBLE
    ([src/Mynewt/repos/apache-mynewt-nimble/firewall] and its patch service under
    [nimble/host/services]). The ports share the design and the text of the virtual
    machine and of most of the cache; they differ in slots, policies and hooks.

    ** From source to model

    - C integers are [Z] with the conversions [u8] ... [s64] written where the code
      converts; memory is a list of bytes. Code that can fail is in the monad [res]:
      [Ok], [Crash] with the kind of fault (a null, wild or misaligned access, a
      division by zero, a signed overflow), or [Timeout] when fuel runs out.
    - [Inst]: [libebpf/include/ebpf_inst.h], [ebpf_types.h]. The instruction word,
      every opcode, the byte swaps.
    - [VM]: [libebpf/src/ebpf_vm.c]. Creation, loading, helper tables, destruction,
      [bounds_check] and the interpreter [ebpf_vm_exec] with all its cases, its
      irregular ones included (a logical [&&] for AND, the scaled limit of
      [bounds_check], unchecked immediate divisors). Its loads and stores fault at an
      address that is not a multiple of their size ([cload], [cstore]); [placed] says
      where a region lies and how it is aligned. [VMFacts] has its lemmas and [VMProps] its properties.
    - [Verifier]: [ifw_verify_policy] of [policy/src/fsm_policy_cache.c].
    - [Fsm]: [struct FsmState] and its byte layout, common to the ports.
      [ZephyrFsm] and [MynewtFsm]: [fsm_core.c] with the slots of each port, the
      canonical and the staging state, [ifw_fsm_check_update].
    - [PolicyCache]: the tables of compiled-in and runtime policies, the list of
      policies of each slot, registration, removal, installation, and the check
      [run_fsm_check_policy]; generic in a port. [ZephyrCache] is the instance with
      what differs in Zephyr. The state of the interpreter is passed as bytes of
      the record, as the code passes a pointer to it.
    - [PolicyExec]: symbolic execution of a fixed bytecode on an arbitrary state.
      [ZephyrPolicies] and [MynewtPolicies]: each shipped policy as its C source
      ([*.ebpf.c]) and as its bytecode, byte by byte.
    - [ZephyrParser]: [core/fsm_ll_pkt_parser.c], over raw PDUs. [ZephyrL2cap]:
      [core/fsm_l2cap_pkt_parser.c] with the lookups of the host it calls, over a memory
      of bytes, since it takes a [struct net_buf] for a [struct net_buf_simple].
      [MynewtParser]: [src/fsm_ll_parser.c], [fsm_tx_parser.c],
      [fsm_l2cap_parser.c], [fsm_smp_parser.c].
    - [Mbuf]: the buffer chains of NimBLE that its hooks and patch service read, as
      lists of fragments.
    - [Mempool] and [MempoolList]: [porting/nimble/src/os_mempool.c], the pools of blocks
      under the buffers and the list of all pools. A pool is generic in what its blocks
      hold; the class [MemBlock] asks for the link of a free block.
    - [MbufHeap], [MbufEdit] and [MbufQueue]: all of [porting/nimble/src/os_mbuf.c] on a memory
      of blocks, in a state monad over [mheap]: buffers with their data areas and headers
      in the same block, chains through [om_next], pools, and queues of packets.
      [MbufLogic] has weakest preconditions and the assertion [own], a separating
      view of the memory; [MbufChain], [MbufAppend], [MbufDup], [MbufTrim],
      [MbufFront], [MbufJoin], [MbufRead], [MbufInto] and [MbufWiden] have the specification of each
      operation on an owned chain; [MbufPacket] composes them to programs on packets;
      [MbufProps] has the properties.
    - [GattSvr]: [apps/bleprph/src/gatt_svr.c], the services of the Mynewt application.
    - [Patch]: [peripheral/src/firewall_patch.c] and NimBLE's
      [ble_svc_firewall_patch.c]; [PatchRuns] runs them on the shipped caches.
    - [ZephyrSpec]: the abstract firewall that the Zephyr hook implements.
    - [Thumb2]: [libebpf/include/jit_thumb2.h], the encoders. [Jit]:
      [libebpf/src/jit_thumb2.c], [jit.c], [jit.h]: the register map, the code for
      each opcode, the two passes of [jit_compile], the buffers, [gen_jit_code].
      An emitter reads the state of the compiler and returns the halfwords it
      appends; what it emits is written to the buffer with its bounds checked.
    - [Arm]: the processor that runs the code, which is not part of the program: a
      decoder and a step function for the Thumb-2 instructions that correct code
      consists of (ARMv7-M), with flags, IT blocks left out, and two memory areas,
      the monitor state and the stack. Anything else is a fault.
    - The proof of the compiler: [Thumb2Facts] (encoders against the decoder),
      [ArmFacts] (the processor), [JitLogic] (a Hoare logic for emitters), [JitEmit],
      [JitOps] (one lemma for each emitter that is correct), [JitPasses], [JitLayout]
      (the two passes agree), [JitFlow], [JitCheck] (abstract types of registers and
      the checker of programs), [JitEntry] (prologue and epilogue), [JitBranch],
      [JitSim] (one instruction simulates one instruction), [JitCorrect],
      [JitProps], and [JitOverflow] (code that is longer than its buffer). [JitEnv] puts compiler and processor under the policy cache;
      [JitHooks] and [JitZephyr] compose it with the ports, and [Device] with the
      patch service of the Mynewt port as well.
    - [Maps]: the growing array and the sorted map of [libebpf/src/map.c], with
      [ebpf_realloc]; [MapsProps] has their properties. [HashMap], [HashMapProps]: the
      dynamic array and the hash map of [ebpf_map.c]. [ProgList]: the program list of
      [ebpf_env.c]. No firewall code calls these three.

    ** What the theorems show

    - Machine and verifier. Instructions encode and decode one to one; the
      interpreter is type safe on any code. [ifw_verify_policy] decides its
      declarative rules, and an accepted policy that is also closed, has legal
      arithmetic and aligned loads ends in an EXIT and leaves the state alone. The extra
      conditions are needed: accepted programs without them may loop, write or fault
      ([accepted_may_diverge], [accepted_may_write], [accepted_may_fault]).
    - Policies. Each Zephyr bytecode computes its C source on every state, and
      passes the verifier. The Mynewt bytecodes were compiled for another layout of
      the record: [mynewt_bytecode_actual] says what they compute instead.
    - Cache. A check is the disjunction of the policies of the slot; installation
      has exactly the effect of [installed], fails with one code for each guard and
      without effect, and succeeds as often as there is room; an installed policy is
      enforced from the next check.
    - Monitor and hooks. The Zephyr receive hook refines a firewall of three
      variables on every sequence of packets; the Mynewt update is atomic. The
      verdicts of the other hooks are computed for every input, with the inputs that
      are a fault ([event_ok], [l2cap_hook_verdict], [l2cap_headers_not_read]).
    - Patch services. Both refine one abstract session on every sequence of writes,
      and a transfer in any chunks, in any state of the service, amounts to one
      installation.
    - Buffers. A pool hands out distinct blocks and loses none ([mempool_refines]). Every program of
      calls of seventeen operations on packets returns without a fault what strings of bytes under
      the same operations allow, failed allocations included; the headers stay right and no block
      leaks ([packets_refine]). Queues are first in, first out, the list of pools is a
      list. [copyinto_result] and [widen_result] say what the two operations do that do not keep
      the contract, [msys_first_fit] which pool is chosen. The callbacks of the application
      answer every allowed access ([gatt_svr_access]).
    - JIT. A program that the checker [jit_ok] accepts (values whose high words are
      known where an instruction depends on them, loads from the state, the opcodes
      that are translated correctly, code shorter than 256 bytes) computes in machine
      code what the interpreter computes ([jit_correct]); the encoders round-trip
      through the decoder, the passes agree, the loop over the instructions ends.
      The checker accepts the three Mynewt policies and eight of the ten of Zephyr,
      so [mynewt_hooks_native] and [zephyr_native_correct] carry the theorems on
      interpreted policies over to compiled ones. [mynewt_device_patched] puts the
      parts together: a patch that arrives over the air is interpreted beside the
      compiled policies, and a check rejects when either does. [jit_loses_jumps] and
      [jit_buffer_overflow] show that the conditions are needed: jumps on less are never
      taken, and code may not fit into its buffer.
    - Data structures. On the calls that they support, both maps refine finite maps
      ([arraymap_refines], [hashmap_refines]) and added programs form a list; the
      searches end on every array ([searches_terminate]). [arraymap_first_key], [arraymap_cannot_grow], [hashmap_limits] and
      [prog_list_dangling] say what happens on the other calls.
    - Deviations. Theorems on second requests, wrapping counters, lost policies,
      aliased table entries and misplaced reads state what the code does where it
      differs from its comments.

    ** Bounds and fuel

    The interpreter takes fuel, one unit for each instruction executed. A policy
    has forward jumps only, so as many units as it has instructions (at most 64 for
    a runtime policy, at most 19 for a shipped one) are enough: totality theorems
    conclude [Ok] at that fuel and more, and divergence is stated for all fuel. The
    processor takes fuel, too, one unit for each machine instruction; code shorter
    than 256 bytes without backward branches ends within 256. The loop of [build_body]
    gets as many rounds as there are instructions, which is enough
    ([build_body_terminates]). The loop of [ifw_count_one] clears a bit per round and
    gets eight rounds per octet; the searches of the sorted map halve an array of at most
    2^30 pointers, all that the address space has room for, and get 32 rounds
    ([searches_terminate]). The loops over chains and
    free lists get one round more than the memory has blocks, which is enough for any list without
    a cycle, and the theorems on them conclude [Ok]. All other recursion is structural, on packets, lists or instructions. The
    constants (64 instructions, 256 bytes of staging, the numbers of runtime slots)
    are those of the source.

    ** What is a parameter

    Outcomes of allocations and the addresses of the state, of the frame and of the
    code buffer are arguments; code is taken to be aligned as [struct ebpf_inst] is. The
    strings that the keys of the hash map point to are an argument of each call. The policy cache takes [gen_jit_code] and the call of
    the code as fields of its environment, which [JitEnv] fills. The configuration
    [OS_MEMPOOL_CHECK] and the callbacks of extended pools are the class [MempoolConf]. The order in which the
    stack calls the hooks is an arbitrary sequence.

    ** What is not modelled

    The functions of libebpf that only free memory, the porting macros, locks, tracing and debug
    output, the poisoning and guard words of memory pools (which are configured out), the main functions of the demo applications, the vendored stacks beyond the functions
    named above, and the test drivers, benchmarks and tools. They are input and output, wrappers of the operating
    system, or code that the firewall does not touch. *)
From stdpp Require Import base tactics numbers list.
From Stdlib Require Import ZArith Lia.
Local Open Scope Z_scope.

(** ** Machine integers

    A C object of [w] bits is a [Z]; an unsigned conversion keeps the residue
    modulo [2^w], a signed conversion the representative in
    [[-2^(w-1), 2^(w-1))]. *)
Definition u8 (z : Z) : Z := z mod 2 ^ 8.
Definition u16 (z : Z) : Z := z mod 2 ^ 16.
Definition u32 (z : Z) : Z := z mod 2 ^ 32.
Definition u64 (z : Z) : Z := z mod 2 ^ 64.
Definition s8 (z : Z) : Z := (z + 2 ^ 7) mod 2 ^ 8 - 2 ^ 7.
Definition s16 (z : Z) : Z := (z + 2 ^ 15) mod 2 ^ 16 - 2 ^ 15.
Definition s32 (z : Z) : Z := (z + 2 ^ 31) mod 2 ^ 32 - 2 ^ 31.
Definition s64 (z : Z) : Z := (z + 2 ^ 63) mod 2 ^ 64 - 2 ^ 63.

(** Bit operations, written as in C. *)
Declare Scope bits_scope.
Delimit Scope bits_scope with bits.
Notation "a .| b" := (Z.lor a b) (at level 50, left associativity) : bits_scope.
Notation "a .& b" := (Z.land a b) (at level 48, left associativity) : bits_scope.
Notation "a << n" := (Z.shiftl a n) (at level 46, left associativity) : bits_scope.
Notation "a >> n" := (Z.shiftr a n) (at level 46, left associativity) : bits_scope.

(** Little-endian byte strings, as the Cortex-M target and the host test
    harness lay integers out in memory. *)
Fixpoint le_bytes (n : nat) (z : Z) : list Z :=
  match n with
  | O => []
  | S n => z mod 256 :: le_bytes n (z / 256)
  end.

Fixpoint le_val (bs : list Z) : Z :=
  match bs with
  | [] => 0
  | b :: bs => b + 256 * le_val bs
  end.

(** [slice off n l] is the [n] elements of [l] from [off] on. *)
Definition slice {A} (off n : nat) (l : list A) : list A := take n (drop off l).

(** A C array of ints as consecutive 4-byte words. *)
Definition words_bytes (ws : list Z) : list Z := flat_map (le_bytes 4) ws.

Fixpoint bytes_words (n : nat) (bs : list Z) : list Z :=
  match n with
  | O => []
  | S n => s32 (le_val (take 4 bs)) :: bytes_words n (drop 4 bs)
  end.

Definition is_byte (b : Z) : bool := (0 <=? b) && (b <? 256).

(** [arr_get] and [arr_set] are the accesses [a[i]] and [a[i] = v] to a C
    array; [None] is an access outside of the array. *)
Definition arr_get {A} (l : list A) (i : Z) : option A :=
  if (0 <=? i) && (i <? Z.of_nat (length l)) then l !! Z.to_nat i else None.

Definition arr_set {A} (l : list A) (i : Z) (v : A) : option (list A) :=
  if (0 <=? i) && (i <? Z.of_nat (length l))
  then Some (<[Z.to_nat i := v]> l) else None.

(** ** Outcomes of a C computation

    [Ok] is a normal return. [Crash] is an execution that C leaves undefined or
    the hardware faults on; [Timeout] says that the fuel of a loop ran out. *)
Inductive fault :=
| FetchOOB          (* instruction fetch outside of the code buffer *)
| RegOOB            (* index outside of [reg[MAX_BPF_EXT_REG]] *)
| MemFault          (* load or store outside of the mapped objects *)
| Misaligned        (* access through a pointer that is not aligned for its type *)
| SignedOverflow    (* overflow of signed arithmetic *)
| DivByZero         (* C division by zero *)
| ShiftUB           (* shift by a negative amount or by the width or more *)
| BadHelper         (* call through a missing or out-of-range helper *)
| ArrayOOB          (* index outside of a C array *)
| NullDeref         (* null pointer dereference *)
| UseAfterFree      (* access to a freed object *)
| UndefInst         (* machine code that the processor does not define *)
| AssertFail.       (* a failed [assert] *)

Inductive res (A : Type) :=
| Ok (a : A)
| Crash (f : fault)
| Timeout.
Arguments Ok {A} _.
Arguments Crash {A} _.
Arguments Timeout {A}.

#[export] Instance res_ret : MRet res := fun A a => Ok a.
#[export] Instance res_bind : MBind res := fun A B f m =>
  match m with Ok a => f a | Crash e => Crash e | Timeout => Timeout end.

#[export] Instance res_fmap : FMap res := fun A B f m =>
  match m with Ok a => Ok (f a) | Crash e => Crash e | Timeout => Timeout end.

#[export] Instance fault_eq_dec : EqDecision fault.
Proof. solve_decision. Defined.

Definition of_option {A} (e : fault) (o : option A) : res A :=
  match o with Some a => Ok a | None => Crash e end.

(** ** Automation *)
Ltac pow_cst :=
  repeat match goal with
  | |- context [ 2 ^ Zpos ?p ] =>
      let v := eval vm_compute in (2 ^ Zpos p) in change (2 ^ Zpos p) with v
  | H : context [ 2 ^ Zpos ?p ] |- _ =>
      let v := eval vm_compute in (2 ^ Zpos p) in change (2 ^ Zpos p) with v in H
  end.

(** Succeeds on the numerals of [Z]. *)
Ltac zcst t := lazymatch t with Z0 => idtac | Zpos _ => idtac | Zneg _ => idtac end.

(** Linear arithmetic with the conversions unfolded to [mod]. *)
Ltac clia :=
  unfold u8, u16, u32, u64, s8, s16, s32, s64 in *; pow_cst;
  Z.div_mod_to_equations; lia.

(** Case split on every boolean comparison in the goal. *)
Ltac zbool :=
  repeat match goal with
  | |- context [?a =? ?b] => destruct (Z.eqb_spec a b)
  | |- context [?a <? ?b] => destruct (Z.ltb_spec a b)
  | |- context [?a <=? ?b] => destruct (Z.leb_spec a b)
  end.

Create HintDb cint.
Create Rewrite HintDb cwrap.

(** ** Facts on conversions *)
Lemma u8_range z : 0 <= u8 z < 256.
Proof. clia. Qed.
Lemma u16_range z : 0 <= u16 z < 2 ^ 16.
Proof. clia. Qed.
Lemma u32_range z : 0 <= u32 z < 2 ^ 32.
Proof. clia. Qed.
Lemma u64_range z : 0 <= u64 z < 2 ^ 64.
Proof. clia. Qed.
Lemma s16_range z : - 2 ^ 15 <= s16 z < 2 ^ 15.
Proof. clia. Qed.
Lemma s32_range z : - 2 ^ 31 <= s32 z < 2 ^ 31.
Proof. clia. Qed.
Lemma s64_range z : - 2 ^ 63 <= s64 z < 2 ^ 63.
Proof. clia. Qed.

Lemma u8_small z : 0 <= z < 2 ^ 8 -> u8 z = z.
Proof. clia. Qed.
Lemma u16_small z : 0 <= z < 2 ^ 16 -> u16 z = z.
Proof. clia. Qed.
Lemma u32_small z : 0 <= z < 2 ^ 32 -> u32 z = z.
Proof. clia. Qed.
Lemma u64_small z : 0 <= z < 2 ^ 64 -> u64 z = z.
Proof. clia. Qed.
Lemma s32_small z : - 2 ^ 31 <= z < 2 ^ 31 -> s32 z = z.
Proof. clia. Qed.
Lemma s64_small z : - 2 ^ 63 <= z < 2 ^ 63 -> s64 z = z.
Proof. clia. Qed.
Lemma s16_small z : - 2 ^ 15 <= z < 2 ^ 15 -> s16 z = z.
Proof. clia. Qed.

Lemma s32_u32 z : s32 (u32 z) = s32 z.
Proof. clia. Qed.
Lemma u32_s32 z : u32 (s32 z) = u32 z.
Proof. clia. Qed.
Lemma s64_u64 z : s64 (u64 z) = s64 z.
Proof. clia. Qed.
Lemma u32_u64 z : u32 (u64 z) = u32 z.
Proof. clia. Qed.
Lemma u64_u64 z : u64 (u64 z) = u64 z.
Proof. clia. Qed.
Lemma u32_u32 z : u32 (u32 z) = u32 z.
Proof. clia. Qed.

#[export] Hint Resolve u8_range u16_range u32_range u64_range s16_range s32_range s64_range : cint.
#[export] Hint Rewrite s32_u32 u32_s32 s64_u64 u32_u64 u64_u64 u32_u32 : cwrap.

(** Two shift pairs of the policy bytecode: the compiler narrows a 64-bit
    register to a signed or an unsigned 32-bit value with them. *)
Lemma shl32_ashr32 x :
  u64 (Z.shiftr (s64 (u64 (Z.shiftl x 32))) 32) = u64 (s32 x).
Proof.
  rewrite s64_u64, Z.shiftl_mul_pow2, Z.shiftr_div_pow2 by lia.
  f_equal. unfold s64, s32. pow_cst.
  replace (x * 4294967296 + 9223372036854775808)
    with ((x + 2147483648) * 4294967296) by lia.
  change 18446744073709551616 with (4294967296 * 4294967296).
  rewrite Z.mul_mod_distr_r by lia.
  replace ((x + 2147483648) mod 4294967296 * 4294967296 - 9223372036854775808)
    with (((x + 2147483648) mod 4294967296 - 2147483648) * 4294967296) by lia.
  now rewrite Z.div_mul by lia.
Qed.

Lemma shl32_shr32 x :
  Z.shiftr (u64 (Z.shiftl x 32)) 32 = u32 x.
Proof.
  rewrite Z.shiftl_mul_pow2, Z.shiftr_div_pow2 by lia.
  unfold u64, u32. pow_cst.
  change 18446744073709551616 with (4294967296 * 4294967296).
  rewrite Z.mul_mod_distr_r by lia. now rewrite Z.div_mul by lia.
Qed.

(** ** Facts on byte strings *)
Lemma length_le_bytes n z : length (le_bytes n z) = n.
Proof. revert z. induction n; intros z; simpl; auto. Qed.

Lemma le_val_le_bytes n z : le_val (le_bytes n z) = z mod 2 ^ (8 * Z.of_nat n).
Proof.
  revert z. induction n as [|n IH]; intros z.
  { simpl. now rewrite Z.mod_1_r. }
  cbn [le_bytes le_val]. rewrite IH.
  replace (8 * Z.of_nat (S n)) with (8 + 8 * Z.of_nat n) by lia.
  rewrite Z.pow_add_r by lia. change (2 ^ 8) with 256.
  rewrite Z.rem_mul_r; [lia | lia |].
  apply Z.pow_pos_nonneg; lia.
Qed.

Lemma le_bytes_is_byte n z : Forall (fun b => is_byte b = true) (le_bytes n z).
Proof.
  revert z. induction n; intros z; simpl; constructor; auto.
  unfold is_byte. pose proof (Z.mod_pos_bound z 256 ltac:(lia)). lia.
Qed.

Lemma le_bytes_le_val bs :
  Forall (fun b => is_byte b = true) bs -> le_bytes (length bs) (le_val bs) = bs.
Proof.
  induction 1 as [|b bs Hb _ IH]; [done|].
  cbn [length le_bytes le_val]. unfold is_byte in Hb.
  replace ((b + 256 * le_val bs) mod 256) with b
    by (Z.div_mod_to_equations; lia).
  replace ((b + 256 * le_val bs) / 256) with (le_val bs)
    by (Z.div_mod_to_equations; lia).
  now rewrite IH.
Qed.

Lemma le_val_bound bs :
  Forall (fun b => is_byte b = true) bs ->
  0 <= le_val bs < 2 ^ (8 * Z.of_nat (length bs)).
Proof.
  intros H. rewrite <- (le_bytes_le_val bs H), le_val_le_bytes, length_le_bytes.
  apply Z.mod_pos_bound, Z.pow_pos_nonneg; lia.
Qed.

Lemma le_bytes_mod n z : le_bytes n (z mod 2 ^ (8 * Z.of_nat n)) = le_bytes n z.
Proof.
  rewrite <- le_val_le_bytes.
  rewrite <- (length_le_bytes n z) at 1.
  apply le_bytes_le_val, le_bytes_is_byte.
Qed.

Lemma slice_app_r {A} (l1 l2 : list A) off n :
  (length l1 <= off)%nat ->
  slice off n (l1 ++ l2) = slice (off - length l1) n l2.
Proof. intros H. unfold slice. now rewrite drop_app_ge by lia. Qed.

Lemma slice_app_l {A} (l1 l2 : list A) off n :
  (off + n <= length l1)%nat -> slice off n (l1 ++ l2) = slice off n l1.
Proof.
  intros H. unfold slice. rewrite drop_app_le by lia.
  now rewrite take_app_le by (rewrite length_drop; lia).
Qed.

Lemma length_slice {A} off n (l : list A) :
  (off + n <= length l)%nat -> length (slice off n l) = n.
Proof. intros H. unfold slice. rewrite length_take, length_drop. lia. Qed.

Lemma length_words_bytes ws : length (words_bytes ws) = (4 * length ws)%nat.
Proof.
  unfold words_bytes. induction ws as [|w ws IH]; [done|].
  cbn [flat_map]. rewrite length_app, length_le_bytes, IH. simpl. lia.
Qed.

Lemma words_bytes_slice ws i w :
  ws !! i = Some w -> slice (4 * i) 4 (words_bytes ws) = le_bytes 4 w.
Proof.
  revert i. induction ws as [|w' ws IH]; intros [|i] H; try done.
  - simpl in H. injection H as ->. unfold slice, words_bytes.
    cbn [flat_map]. rewrite drop_0, take_app_le by (rewrite length_le_bytes; lia).
    now rewrite take_ge by (rewrite length_le_bytes; lia).
  - change (words_bytes (w' :: ws)) with (le_bytes 4 w' ++ words_bytes ws).
    rewrite slice_app_r; rewrite length_le_bytes; [|lia].
    replace (4 * S i - 4)%nat with (4 * i)%nat by lia. now apply IH.
Qed.

Lemma bytes_words_bytes ws :
  Forall (fun w => - 2 ^ 31 <= w < 2 ^ 31) ws ->
  bytes_words (length ws) (words_bytes ws) = ws.
Proof.
  induction 1 as [|w ws Hw _ IH]; [done|].
  change (words_bytes (w :: ws)) with (le_bytes 4 w ++ words_bytes ws).
  cbn [length bytes_words].
  rewrite take_app_le, take_ge, drop_app_ge by (rewrite length_le_bytes; lia).
  rewrite length_le_bytes, drop_0, IH, le_val_le_bytes.
  change (2 ^ (8 * Z.of_nat 4)) with (2 ^ 32). fold (u32 w).
  now rewrite s32_u32, s32_small by lia.
Qed.

(** ** Facts on arrays *)
Lemma arr_get_Some {A} (l : list A) i v :
  arr_get l i = Some v <-> 0 <= i /\ l !! Z.to_nat i = Some v.
Proof.
  unfold arr_get. destruct (Z.leb_spec 0 i); cbn [andb].
  - destruct (Z.ltb_spec i (Z.of_nat (length l))).
    + naive_solver.
    + split; [done|]. intros [_ Hl%lookup_lt_Some]. lia.
  - split; [done|]. lia.
Qed.

Lemma arr_get_None {A} (l : list A) i :
  arr_get l i = None <-> i < 0 \/ Z.of_nat (length l) <= i.
Proof.
  unfold arr_get. destruct (Z.leb_spec 0 i); cbn [andb].
  - destruct (Z.ltb_spec i (Z.of_nat (length l))).
    + rewrite lookup_ge_None. lia.
    + split; auto.
  - split; auto.
Qed.

Lemma arr_set_Some {A} (l l' : list A) i v :
  arr_set l i v = Some l' ->
  0 <= i < Z.of_nat (length l) /\ l' = <[Z.to_nat i := v]> l.
Proof. unfold arr_set. destruct (_ && _) eqn:E; [|done]. intros [= <-]. split; [lia|done]. Qed.

Lemma arr_set_in {A} (l : list A) i v :
  0 <= i < Z.of_nat (length l) -> arr_set l i v = Some (<[Z.to_nat i := v]> l).
Proof. intros H. unfold arr_set. now replace (_ && _) with true by lia. Qed.

Lemma arr_get_set_eq {A} (l l' : list A) i v :
  arr_set l i v = Some l' -> arr_get l' i = Some v.
Proof.
  intros [H ->]%arr_set_Some. apply arr_get_Some. split; [lia|].
  apply list_lookup_insert_eq. lia.
Qed.

Lemma arr_get_set_ne {A} (l l' : list A) i j v :
  arr_set l i v = Some l' -> i <> j -> arr_get l' j = arr_get l j.
Proof.
  intros [H ->]%arr_set_Some Hne. unfold arr_get. rewrite length_insert.
  destruct (_ && _) eqn:E; [|done]. apply list_lookup_insert_ne. lia.
Qed.

Lemma arr_set_length {A} (l l' : list A) i v :
  arr_set l i v = Some l' -> length l' = length l.
Proof. intros [_ ->]%arr_set_Some. apply length_insert. Qed.

(** ** Facts on outcomes *)
Lemma bind_Ok {A B} (m : res A) (f : A -> res B) b :
  mbind f m = Ok b <-> exists a, m = Ok a /\ f a = Ok b.
Proof. destruct m; cbn; naive_solver. Qed.
