(* ===== verification/Inst.v ===== *)
(** * eBPF instructions

    The instruction format and opcode space of [libebpf/include/ebpf_inst.h],
    and the byte swaps of [libebpf/include/ebpf_types.h]: the [ebpf_inst]
    bit-field struct with its decoding from the 8 bytes of a program, the
    opcode enumeration with the codes the macros compute, and the proofs that
    decoding is a bijection on well-formed instructions, that no two opcodes
    share a code and that the swaps reverse byte strings. *)
From stdpp Require Import base tactics numbers list.
From Stdlib Require Import ZArith Lia.
From S2P Require Import Prelude.
Local Open Scope Z_scope.
Local Open Scope bits_scope.

(** ** The instruction struct *)
Record ebpf_inst := EbpfInst {
  opcode : Z;    (* u8 *)
  dst : Z;       (* u8 : 4 *)
  src : Z;       (* u8 : 4 *)
  offset : Z;    (* s16 *)
  imm : Z;       (* s32 *)
}.

(** Reading the struct through a [uint8_t *] cast: little-endian fields, [dst]
    in the low nibble of the second byte. *)
Definition inst_of_bytes (bs : list Z) : option ebpf_inst :=
  match bs with
  | [b0; b1; b2; b3; b4; b5; b6; b7] =>
      Some (EbpfInst b0 (Z.land b1 0xf) (Z.shiftr b1 4)
              (s16 (le_val [b2; b3])) (s32 (le_val [b4; b5; b6; b7])))
  | _ => None
  end.

Definition inst_bytes (i : ebpf_inst) : list Z :=
  opcode i :: (dst i .| Z.shiftl (src i) 4) :: le_bytes 2 (offset i) ++ le_bytes 4 (imm i).

Definition inst_wf (i : ebpf_inst) : bool :=
  is_byte (opcode i) && (0 <=? dst i) && (dst i <? 16) &&
  (0 <=? src i) && (src i <? 16) &&
  (- 2 ^ 15 <=? offset i) && (offset i <? 2 ^ 15) &&
  (- 2 ^ 31 <=? imm i) && (imm i <? 2 ^ 31).

(** [insts[pc]] of a program given as its bytes. *)
Definition inst_at (code : list Z) (pc : Z) : option ebpf_inst :=
  if pc <? 0 then None else inst_of_bytes (slice (8 * Z.to_nat pc) 8 code).

(** ** Registers *)
Definition MAX_BPF_REG : Z := 11.
Definition MAX_BPF_EXT_REG : Z := MAX_BPF_REG + 1.

(** ** Opcode fields *)
Abbreviation EBPF_CLS_MASK := 0x07 (only parsing).
Abbreviation EBPF_CLS_LD := 0x00 (only parsing).
Abbreviation EBPF_CLS_LDX := 0x01 (only parsing).
Abbreviation EBPF_CLS_ST := 0x02 (only parsing).
Abbreviation EBPF_CLS_STX := 0x03 (only parsing).
Abbreviation EBPF_CLS_ALU := 0x04 (only parsing).
Abbreviation EBPF_CLS_JMP := 0x05 (only parsing).
Abbreviation EBPF_CLS_ALU64 := 0x07 (only parsing).
Abbreviation EBPF_SRC_IMM := 0x00 (only parsing).
Abbreviation EBPF_SRC_REG := 0x08 (only parsing).
Abbreviation EBPF_SIZE_W := 0x00 (only parsing).
Abbreviation EBPF_SIZE_H := 0x08 (only parsing).
Abbreviation EBPF_SIZE_B := 0x10 (only parsing).
Abbreviation EBPF_SIZE_DW := 0x18 (only parsing).
Abbreviation EBPF_MODE_IMM := 0x00 (only parsing).
Abbreviation EBPF_MODE_MEM := 0x60 (only parsing).
Abbreviation EBPF_ALU_ADD := 0x00 (only parsing).
Abbreviation EBPF_ALU_SUB := 0x10 (only parsing).

(** ** Opcodes *)
Inductive ebpf_op :=
| EBPF_OP_ADD_IMM | EBPF_OP_ADD_REG | EBPF_OP_SUB_IMM | EBPF_OP_SUB_REG
| EBPF_OP_MUL_IMM | EBPF_OP_MUL_REG | EBPF_OP_DIV_IMM | EBPF_OP_DIV_REG
| EBPF_OP_OR_IMM | EBPF_OP_OR_REG | EBPF_OP_AND_IMM | EBPF_OP_AND_REG
| EBPF_OP_LSH_IMM | EBPF_OP_LSH_REG | EBPF_OP_RSH_IMM | EBPF_OP_RSH_REG
| EBPF_OP_NEG | EBPF_OP_MOD_IMM | EBPF_OP_MOD_REG | EBPF_OP_XOR_IMM
| EBPF_OP_XOR_REG | EBPF_OP_MOV_IMM | EBPF_OP_MOV_REG | EBPF_OP_ARSH_IMM
| EBPF_OP_ARSH_REG | EBPF_OP_LE | EBPF_OP_BE | EBPF_OP_ADD64_IMM
| EBPF_OP_ADD64_REG | EBPF_OP_SUB64_IMM | EBPF_OP_SUB64_REG
| EBPF_OP_MUL64_IMM | EBPF_OP_MUL64_REG | EBPF_OP_DIV64_IMM
| EBPF_OP_DIV64_REG | EBPF_OP_OR64_IMM | EBPF_OP_OR64_REG | EBPF_OP_AND64_IMM
| EBPF_OP_AND64_REG | EBPF_OP_LSH64_IMM | EBPF_OP_LSH64_REG
| EBPF_OP_RSH64_IMM | EBPF_OP_RSH64_REG | EBPF_OP_NEG64 | EBPF_OP_MOD64_IMM
| EBPF_OP_MOD64_REG | EBPF_OP_XOR64_IMM | EBPF_OP_XOR64_REG
| EBPF_OP_MOV64_IMM | EBPF_OP_MOV64_REG | EBPF_OP_ARSH64_IMM
| EBPF_OP_ARSH64_REG | EBPF_OP_LDXW | EBPF_OP_LDXH | EBPF_OP_LDXB
| EBPF_OP_LDXDW | EBPF_OP_STW | EBPF_OP_STH | EBPF_OP_STB | EBPF_OP_STDW
| EBPF_OP_STXW | EBPF_OP_STXH | EBPF_OP_STXB | EBPF_OP_STXDW | EBPF_OP_LDDW
| EBPF_OP_JA | EBPF_OP_JEQ_IMM | EBPF_OP_JEQ_REG | EBPF_OP_JGT_IMM
| EBPF_OP_JGT_REG | EBPF_OP_JGE_IMM | EBPF_OP_JGE_REG | EBPF_OP_JSET_REG
| EBPF_OP_JSET_IMM | EBPF_OP_JNE_IMM | EBPF_OP_JNE_REG | EBPF_OP_JSGT_IMM
| EBPF_OP_JSGT_REG | EBPF_OP_JSGE_IMM | EBPF_OP_JSGE_REG | EBPF_OP_CALL
| EBPF_OP_EXIT | EBPF_OP_JLT_IMM | EBPF_OP_JLT_REG | EBPF_OP_JLE_IMM
| EBPF_OP_JLE_REG | EBPF_OP_JSLT_IMM | EBPF_OP_JSLT_REG | EBPF_OP_JSLE_IMM
| EBPF_OP_JSLE_REG.

Definition opcode_code (o : ebpf_op) : Z :=
  match o with
  | EBPF_OP_ADD_IMM => EBPF_CLS_ALU .| EBPF_SRC_IMM .| EBPF_ALU_ADD
  | EBPF_OP_ADD_REG => EBPF_CLS_ALU .| EBPF_SRC_REG .| EBPF_ALU_ADD
  | EBPF_OP_SUB_IMM => EBPF_CLS_ALU .| EBPF_SRC_IMM .| EBPF_ALU_SUB
  | EBPF_OP_SUB_REG => EBPF_CLS_ALU .| EBPF_SRC_REG .| EBPF_ALU_SUB
  | EBPF_OP_MUL_IMM => EBPF_CLS_ALU .| EBPF_SRC_IMM .| 0x20
  | EBPF_OP_MUL_REG => EBPF_CLS_ALU .| EBPF_SRC_REG .| 0x20
  | EBPF_OP_DIV_IMM => EBPF_CLS_ALU .| EBPF_SRC_IMM .| 0x30
  | EBPF_OP_DIV_REG => EBPF_CLS_ALU .| EBPF_SRC_REG .| 0x30
  | EBPF_OP_OR_IMM => EBPF_CLS_ALU .| EBPF_SRC_IMM .| 0x40
  | EBPF_OP_OR_REG => EBPF_CLS_ALU .| EBPF_SRC_REG .| 0x40
  | EBPF_OP_AND_IMM => EBPF_CLS_ALU .| EBPF_SRC_IMM .| 0x50
  | EBPF_OP_AND_REG => EBPF_CLS_ALU .| EBPF_SRC_REG .| 0x50
  | EBPF_OP_LSH_IMM => EBPF_CLS_ALU .| EBPF_SRC_IMM .| 0x60
  | EBPF_OP_LSH_REG => EBPF_CLS_ALU .| EBPF_SRC_REG .| 0x60
  | EBPF_OP_RSH_IMM => EBPF_CLS_ALU .| EBPF_SRC_IMM .| 0x70
  | EBPF_OP_RSH_REG => EBPF_CLS_ALU .| EBPF_SRC_REG .| 0x70
  | EBPF_OP_NEG => EBPF_CLS_ALU .| 0x80
  | EBPF_OP_MOD_IMM => EBPF_CLS_ALU .| EBPF_SRC_IMM .| 0x90
  | EBPF_OP_MOD_REG => EBPF_CLS_ALU .| EBPF_SRC_REG .| 0x90
  | EBPF_OP_XOR_IMM => EBPF_CLS_ALU .| EBPF_SRC_IMM .| 0xa0
  | EBPF_OP_XOR_REG => EBPF_CLS_ALU .| EBPF_SRC_REG .| 0xa0
  | EBPF_OP_MOV_IMM => EBPF_CLS_ALU .| EBPF_SRC_IMM .| 0xb0
  | EBPF_OP_MOV_REG => EBPF_CLS_ALU .| EBPF_SRC_REG .| 0xb0
  | EBPF_OP_ARSH_IMM => EBPF_CLS_ALU .| EBPF_SRC_IMM .| 0xc0
  | EBPF_OP_ARSH_REG => EBPF_CLS_ALU .| EBPF_SRC_REG .| 0xc0
  | EBPF_OP_LE => EBPF_CLS_ALU .| EBPF_SRC_IMM .| 0xd0
  | EBPF_OP_BE => EBPF_CLS_ALU .| EBPF_SRC_REG .| 0xd0
  | EBPF_OP_ADD64_IMM => EBPF_CLS_ALU64 .| EBPF_SRC_IMM .| 0x00
  | EBPF_OP_ADD64_REG => EBPF_CLS_ALU64 .| EBPF_SRC_REG .| 0x00
  | EBPF_OP_SUB64_IMM => EBPF_CLS_ALU64 .| EBPF_SRC_IMM .| 0x10
  | EBPF_OP_SUB64_REG => EBPF_CLS_ALU64 .| EBPF_SRC_REG .| 0x10
  | EBPF_OP_MUL64_IMM => EBPF_CLS_ALU64 .| EBPF_SRC_IMM .| 0x20
  | EBPF_OP_MUL64_REG => EBPF_CLS_ALU64 .| EBPF_SRC_REG .| 0x20
  | EBPF_OP_DIV64_IMM => EBPF_CLS_ALU64 .| EBPF_SRC_IMM .| 0x30
  | EBPF_OP_DIV64_REG => EBPF_CLS_ALU64 .| EBPF_SRC_REG .| 0x30
  | EBPF_OP_OR64_IMM => EBPF_CLS_ALU64 .| EBPF_SRC_IMM .| 0x40
  | EBPF_OP_OR64_REG => EBPF_CLS_ALU64 .| EBPF_SRC_REG .| 0x40
  | EBPF_OP_AND64_IMM => EBPF_CLS_ALU64 .| EBPF_SRC_IMM .| 0x50
  | EBPF_OP_AND64_REG => EBPF_CLS_ALU64 .| EBPF_SRC_REG .| 0x50
  | EBPF_OP_LSH64_IMM => EBPF_CLS_ALU64 .| EBPF_SRC_IMM .| 0x60
  | EBPF_OP_LSH64_REG => EBPF_CLS_ALU64 .| EBPF_SRC_REG .| 0x60
  | EBPF_OP_RSH64_IMM => EBPF_CLS_ALU64 .| EBPF_SRC_IMM .| 0x70
  | EBPF_OP_RSH64_REG => EBPF_CLS_ALU64 .| EBPF_SRC_REG .| 0x70
  | EBPF_OP_NEG64 => EBPF_CLS_ALU64 .| 0x80
  | EBPF_OP_MOD64_IMM => EBPF_CLS_ALU64 .| EBPF_SRC_IMM .| 0x90
  | EBPF_OP_MOD64_REG => EBPF_CLS_ALU64 .| EBPF_SRC_REG .| 0x90
  | EBPF_OP_XOR64_IMM => EBPF_CLS_ALU64 .| EBPF_SRC_IMM .| 0xa0
  | EBPF_OP_XOR64_REG => EBPF_CLS_ALU64 .| EBPF_SRC_REG .| 0xa0
  | EBPF_OP_MOV64_IMM => EBPF_CLS_ALU64 .| EBPF_SRC_IMM .| 0xb0
  | EBPF_OP_MOV64_REG => EBPF_CLS_ALU64 .| EBPF_SRC_REG .| 0xb0
  | EBPF_OP_ARSH64_IMM => EBPF_CLS_ALU64 .| EBPF_SRC_IMM .| 0xc0
  | EBPF_OP_ARSH64_REG => EBPF_CLS_ALU64 .| EBPF_SRC_REG .| 0xc0
  | EBPF_OP_LDXW => EBPF_CLS_LDX .| EBPF_MODE_MEM .| EBPF_SIZE_W
  | EBPF_OP_LDXH => EBPF_CLS_LDX .| EBPF_MODE_MEM .| EBPF_SIZE_H
  | EBPF_OP_LDXB => EBPF_CLS_LDX .| EBPF_MODE_MEM .| EBPF_SIZE_B
  | EBPF_OP_LDXDW => EBPF_CLS_LDX .| EBPF_MODE_MEM .| EBPF_SIZE_DW
  | EBPF_OP_STW => EBPF_CLS_ST .| EBPF_MODE_MEM .| EBPF_SIZE_W
  | EBPF_OP_STH => EBPF_CLS_ST .| EBPF_MODE_MEM .| EBPF_SIZE_H
  | EBPF_OP_STB => EBPF_CLS_ST .| EBPF_MODE_MEM .| EBPF_SIZE_B
  | EBPF_OP_STDW => EBPF_CLS_ST .| EBPF_MODE_MEM .| EBPF_SIZE_DW
  | EBPF_OP_STXW => EBPF_CLS_STX .| EBPF_MODE_MEM .| EBPF_SIZE_W
  | EBPF_OP_STXH => EBPF_CLS_STX .| EBPF_MODE_MEM .| EBPF_SIZE_H
  | EBPF_OP_STXB => EBPF_CLS_STX .| EBPF_MODE_MEM .| EBPF_SIZE_B
  | EBPF_OP_STXDW => EBPF_CLS_STX .| EBPF_MODE_MEM .| EBPF_SIZE_DW
  | EBPF_OP_LDDW => EBPF_CLS_LD .| EBPF_MODE_IMM .| EBPF_SIZE_DW
  | EBPF_OP_JA => EBPF_CLS_JMP .| 0x00
  | EBPF_OP_JEQ_IMM => EBPF_CLS_JMP .| EBPF_SRC_IMM .| 0x10
  | EBPF_OP_JEQ_REG => EBPF_CLS_JMP .| EBPF_SRC_REG .| 0x10
  | EBPF_OP_JGT_IMM => EBPF_CLS_JMP .| EBPF_SRC_IMM .| 0x20
  | EBPF_OP_JGT_REG => EBPF_CLS_JMP .| EBPF_SRC_REG .| 0x20
  | EBPF_OP_JGE_IMM => EBPF_CLS_JMP .| EBPF_SRC_IMM .| 0x30
  | EBPF_OP_JGE_REG => EBPF_CLS_JMP .| EBPF_SRC_REG .| 0x30
  | EBPF_OP_JSET_REG => EBPF_CLS_JMP .| EBPF_SRC_REG .| 0x40
  | EBPF_OP_JSET_IMM => EBPF_CLS_JMP .| EBPF_SRC_IMM .| 0x40
  | EBPF_OP_JNE_IMM => EBPF_CLS_JMP .| EBPF_SRC_IMM .| 0x50
  | EBPF_OP_JNE_REG => EBPF_CLS_JMP .| EBPF_SRC_REG .| 0x50
  | EBPF_OP_JSGT_IMM => EBPF_CLS_JMP .| EBPF_SRC_IMM .| 0x60
  | EBPF_OP_JSGT_REG => EBPF_CLS_JMP .| EBPF_SRC_REG .| 0x60
  | EBPF_OP_JSGE_IMM => EBPF_CLS_JMP .| EBPF_SRC_IMM .| 0x70
  | EBPF_OP_JSGE_REG => EBPF_CLS_JMP .| EBPF_SRC_REG .| 0x70
  | EBPF_OP_CALL => EBPF_CLS_JMP .| 0x80
  | EBPF_OP_EXIT => EBPF_CLS_JMP .| 0x90
  | EBPF_OP_JLT_IMM => EBPF_CLS_JMP .| EBPF_SRC_IMM .| 0xa0
  | EBPF_OP_JLT_REG => EBPF_CLS_JMP .| EBPF_SRC_REG .| 0xa0
  | EBPF_OP_JLE_IMM => EBPF_CLS_JMP .| EBPF_SRC_IMM .| 0xb0
  | EBPF_OP_JLE_REG => EBPF_CLS_JMP .| EBPF_SRC_REG .| 0xb0
  | EBPF_OP_JSLT_IMM => EBPF_CLS_JMP .| EBPF_SRC_IMM .| 0xc0
  | EBPF_OP_JSLT_REG => EBPF_CLS_JMP .| EBPF_SRC_REG .| 0xc0
  | EBPF_OP_JSLE_IMM => EBPF_CLS_JMP .| EBPF_SRC_IMM .| 0xd0
  | EBPF_OP_JSLE_REG => EBPF_CLS_JMP .| EBPF_SRC_REG .| 0xd0
  end.

Definition all_opcodes : list ebpf_op :=
  [EBPF_OP_ADD_IMM; EBPF_OP_ADD_REG; EBPF_OP_SUB_IMM; EBPF_OP_SUB_REG;
   EBPF_OP_MUL_IMM; EBPF_OP_MUL_REG; EBPF_OP_DIV_IMM; EBPF_OP_DIV_REG;
   EBPF_OP_OR_IMM; EBPF_OP_OR_REG; EBPF_OP_AND_IMM; EBPF_OP_AND_REG;
   EBPF_OP_LSH_IMM; EBPF_OP_LSH_REG; EBPF_OP_RSH_IMM; EBPF_OP_RSH_REG;
   EBPF_OP_NEG; EBPF_OP_MOD_IMM; EBPF_OP_MOD_REG; EBPF_OP_XOR_IMM;
   EBPF_OP_XOR_REG; EBPF_OP_MOV_IMM; EBPF_OP_MOV_REG; EBPF_OP_ARSH_IMM;
   EBPF_OP_ARSH_REG; EBPF_OP_LE; EBPF_OP_BE; EBPF_OP_ADD64_IMM;
   EBPF_OP_ADD64_REG; EBPF_OP_SUB64_IMM; EBPF_OP_SUB64_REG;
   EBPF_OP_MUL64_IMM; EBPF_OP_MUL64_REG; EBPF_OP_DIV64_IMM;
   EBPF_OP_DIV64_REG; EBPF_OP_OR64_IMM; EBPF_OP_OR64_REG; EBPF_OP_AND64_IMM;
   EBPF_OP_AND64_REG; EBPF_OP_LSH64_IMM; EBPF_OP_LSH64_REG;
   EBPF_OP_RSH64_IMM; EBPF_OP_RSH64_REG; EBPF_OP_NEG64; EBPF_OP_MOD64_IMM;
   EBPF_OP_MOD64_REG; EBPF_OP_XOR64_IMM; EBPF_OP_XOR64_REG;
   EBPF_OP_MOV64_IMM; EBPF_OP_MOV64_REG; EBPF_OP_ARSH64_IMM;
   EBPF_OP_ARSH64_REG; EBPF_OP_LDXW; EBPF_OP_LDXH; EBPF_OP_LDXB;
   EBPF_OP_LDXDW; EBPF_OP_STW; EBPF_OP_STH; EBPF_OP_STB; EBPF_OP_STDW;
   EBPF_OP_STXW; EBPF_OP_STXH; EBPF_OP_STXB; EBPF_OP_STXDW; EBPF_OP_LDDW;
   EBPF_OP_JA; EBPF_OP_JEQ_IMM; EBPF_OP_JEQ_REG; EBPF_OP_JGT_IMM;
   EBPF_OP_JGT_REG; EBPF_OP_JGE_IMM; EBPF_OP_JGE_REG; EBPF_OP_JSET_REG;
   EBPF_OP_JSET_IMM; EBPF_OP_JNE_IMM; EBPF_OP_JNE_REG; EBPF_OP_JSGT_IMM;
   EBPF_OP_JSGT_REG; EBPF_OP_JSGE_IMM; EBPF_OP_JSGE_REG; EBPF_OP_CALL;
   EBPF_OP_EXIT; EBPF_OP_JLT_IMM; EBPF_OP_JLT_REG; EBPF_OP_JLE_IMM;
   EBPF_OP_JLE_REG; EBPF_OP_JSLT_IMM; EBPF_OP_JSLT_REG; EBPF_OP_JSLE_IMM;
   EBPF_OP_JSLE_REG].

(** The dispatch of [switch (inst->opcode)]: the case of a code, if any. *)
Definition opcode_of (c : Z) : option ebpf_op :=
  List.find (fun o => opcode_code o =? c) all_opcodes.

#[global] Arguments opcode_of c : simpl never.

Definition opcode_is (o : ebpf_op) (i : ebpf_inst) : bool := opcode i =? opcode_code o.

(** ** Byte swaps ([__swap16], [__swap32], [__swap64]) *)
Definition swap16 (x : Z) : Z :=
  let x := u16 x in
  u16 (Z.shiftl (Z.land x 0x00ff) 8 .| Z.shiftr (Z.land x 0xff00) 8).

Definition swap32 (x : Z) : Z :=
  let x := u32 x in
  u32 (Z.shiftl (Z.land x 0x000000ff) 24 .|
       Z.shiftl (Z.land x 0x0000ff00) 8 .|
       Z.shiftr (Z.land x 0x00ff0000) 8 .|
       Z.shiftr (Z.land x 0xff000000) 24).

Definition swap64 (x : Z) : Z :=
  let x := u64 x in
  u64 (Z.shiftl (Z.land x 0x00000000000000ff) 56 .|
       Z.shiftl (Z.land x 0x000000000000ff00) 40 .|
       Z.shiftl (Z.land x 0x0000000000ff0000) 24 .|
       Z.shiftl (Z.land x 0x00000000ff000000) 8 .|
       Z.shiftr (Z.land x 0x000000ff00000000) 8 .|
       Z.shiftr (Z.land x 0x0000ff0000000000) 24 .|
       Z.shiftr (Z.land x 0x00ff000000000000) 40 .|
       Z.shiftr (Z.land x 0xff00000000000000) 56).

(** [my_htole*] and [my_htobe*] of a little-endian target. The macros of the
    first group are the identity and do not truncate their argument. *)
Definition my_htole16 (x : Z) : Z := x.
Definition my_htole32 (x : Z) : Z := x.
Definition my_htole64 (x : Z) : Z := x.
Definition my_htobe16 (x : Z) : Z := swap16 x.
Definition my_htobe32 (x : Z) : Z := swap32 x.
Definition my_htobe64 (x : Z) : Z := swap64 x.

#[export] Instance ebpf_op_eq_dec : EqDecision ebpf_op.
Proof. solve_decision. Defined.

(** ** Bit-field arithmetic *)
Lemma lor_shiftl_add a b k :
  0 <= k -> 0 <= a < 2 ^ k -> a .| Z.shiftl b k = a + b * 2 ^ k.
Proof.
  intros Hk Ha. rewrite Z.shiftl_mul_pow2 by lia.
  symmetry. apply Z.add_nocarry_lor. apply Z.bits_inj'. intros n Hn.
  rewrite Z.land_spec, Z.bits_0, andb_false_iff.
  destruct (Z.ltb_spec n k) as [H|H].
  - right. now apply Z.mul_pow2_bits_low.
  - left. rewrite <- (Z.mod_small a (2 ^ k)) by lia.
    now apply Z.mod_pow2_bits_high.
Qed.

Lemma land_ff_shift x k :
  0 <= k -> Z.land x (Z.shiftl 255 k) = Z.shiftl ((x / 2 ^ k) mod 256) k.
Proof.
  intros Hk. change 255 with (Z.ones 8). change 256 with (2 ^ 8).
  rewrite <- Z.land_ones, <- Z.shiftr_div_pow2 by lia.
  apply Z.bits_inj'. intros n Hn.
  rewrite Z.land_spec, !Z.shiftl_spec by lia.
  destruct (Z.ltb_spec n k).
  - rewrite !(Z.testbit_neg_r _ (n - k)) by lia. apply andb_false_r.
  - rewrite Z.land_spec, Z.shiftr_spec by lia.
    now replace (n - k + k) with n by lia.
Qed.

Lemma inst_of_bytes_bytes i : inst_wf i = true -> inst_of_bytes (inst_bytes i) = Some i.
Proof.
  destruct i as [op d s off im]. unfold inst_wf, is_byte. cbn [opcode dst src offset imm].
  rewrite !andb_true_iff, !Z.leb_le, !Z.ltb_lt. intros H. destruct_and? H.
  unfold inst_bytes. cbn [opcode dst src offset imm le_bytes app].
  cbn [inst_of_bytes].
  rewrite lor_shiftl_add by (change (2 ^ 4) with 16; lia).
  f_equal. f_equal.
  - change 0xf with (Z.ones 4). rewrite Z.land_ones by lia. clia.
  - rewrite Z.shiftr_div_pow2 by lia. clia.
  - change (s16 (le_val (le_bytes 2 off)) = off).
    rewrite le_val_le_bytes. change (2 ^ (8 * Z.of_nat 2)) with (2 ^ 16). clia.
  - change (s32 (le_val (le_bytes 4 im)) = im).
    rewrite le_val_le_bytes. change (2 ^ (8 * Z.of_nat 4)) with (2 ^ 32). clia.
Qed.

Lemma inst_bytes_of_bytes bs i :
  Forall (fun b => is_byte b = true) bs -> inst_of_bytes bs = Some i ->
  inst_wf i = true /\ inst_bytes i = bs.
Proof.
  intros Hbs Hi.
  destruct bs as [|b0 [|b1 [|b2 [|b3 [|b4 [|b5 [|b6 [|b7 [|]]]]]]]]]; try discriminate Hi.
  injection Hi as <-. rewrite !Forall_cons in Hbs. destruct_and! Hbs.
  assert (Ho : le_bytes 2 (s16 (le_val [b2; b3])) = [b2; b3]).
  { rewrite <- le_bytes_mod. change (2 ^ (8 * Z.of_nat 2)) with (2 ^ 16).
    replace (s16 (le_val [b2; b3]) mod 2 ^ 16) with (le_val [b2; b3] mod 2 ^ 16) by clia.
    change (2 ^ 16) with (2 ^ (8 * Z.of_nat 2)). rewrite le_bytes_mod.
    apply (le_bytes_le_val [b2; b3]). auto. }
  assert (Hm : le_bytes 4 (s32 (le_val [b4; b5; b6; b7])) = [b4; b5; b6; b7]).
  { rewrite <- le_bytes_mod. change (2 ^ (8 * Z.of_nat 4)) with (2 ^ 32).
    fold (u32 (s32 (le_val [b4; b5; b6; b7]))). rewrite u32_s32. unfold u32.
    change (2 ^ 32) with (2 ^ (8 * Z.of_nat 4)). rewrite le_bytes_mod.
    apply (le_bytes_le_val [b4; b5; b6; b7]). auto. }
  cbn [le_val] in Ho, Hm. unfold is_byte in *.
  assert (Hd : Z.land b1 0xf = b1 mod 16) by now change 0xf with (Z.ones 4); rewrite Z.land_ones by lia.
  assert (Hs : Z.shiftr b1 4 = b1 / 16) by now rewrite Z.shiftr_div_pow2 by lia.
  split.
  - unfold inst_wf, is_byte. cbn [opcode dst src offset imm]. rewrite Hd, Hs.
    pose proof (s32_range (le_val [b4; b5; b6; b7])).
    pose proof (s16_range (le_val [b2; b3])).
    assert (0 <= b1 mod 16 < 16 /\ 0 <= b1 / 16 < 16) by (Z.div_mod_to_equations; lia).
    cbn [le_val] in *. rewrite !andb_true_iff, !Z.leb_le, !Z.ltb_lt. lia.
  - unfold inst_bytes. cbn [opcode dst src offset imm]. rewrite Ho, Hm, Hd, Hs.
    cbn [app]. f_equal. f_equal.
    rewrite lor_shiftl_add by (change (2 ^ 4) with 16; Z.div_mod_to_equations; lia).
    Z.div_mod_to_equations; lia.
Qed.

(** ** The opcode table is a partial bijection *)
Lemma opcode_of_code o : opcode_of (opcode_code o) = Some o.
Proof. destruct o; reflexivity. Qed.

Lemma opcode_of_Some c o : opcode_of c = Some o <-> c = opcode_code o.
Proof.
  split.
  - unfold opcode_of. intros [_ H]%List.find_some. lia.
  - intros ->. apply opcode_of_code.
Qed.

Lemma opcode_code_inj o1 o2 : opcode_code o1 = opcode_code o2 -> o1 = o2.
Proof.
  intros H. enough (Some o1 = Some o2) by congruence.
  now rewrite <- !opcode_of_code, H.
Qed.

(** ** Swaps reverse the byte string *)
Lemma byte_ext a b :
  (forall j, 0 <= j < 8 -> Z.testbit a j = Z.testbit b j) -> a mod 256 = b mod 256.
Proof.
  intros H. change 256 with (2 ^ 8). rewrite <- !Z.land_ones by lia.
  apply Z.bits_inj'. intros n Hn. rewrite !Z.land_spec.
  destruct (Z.ltb_spec n 8).
  - now rewrite H by lia.
  - now rewrite Z.ones_spec_high, !andb_false_r by lia.
Qed.

(** Splits a bit index below 8 into its values and evaluates the masks. *)
Ltac bit_cases :=
  intros j Hj;
  assert (j = 0 \/ j = 1 \/ j = 2 \/ j = 3 \/ j = 4 \/ j = 5 \/ j = 6 \/ j = 7)
    as Hc by lia;
  destruct_or! Hc; subst j; clear Hj.

Ltac bits :=
  repeat first
    [ rewrite Z.lor_spec | rewrite Z.land_spec
    | rewrite Z.shiftr_spec by lia | rewrite Z.shiftl_spec by lia
    | rewrite Z.mod_pow2_bits_low by lia ];
  cbn -[Z.testbit Z.modulo Z.pow];
  repeat match goal with
  | |- context [Z.testbit (Zpos ?m) ?j] =>
      let v := eval vm_compute in (Z.testbit (Zpos m) j) in
      change (Z.testbit (Zpos m) j) with v
  | |- context [Z.testbit ?a (Zneg ?j)] => rewrite (Z.testbit_neg_r a (Zneg j)) by lia
  end;
  rewrite ?andb_true_r, ?andb_false_r, ?orb_false_r, ?orb_false_l;
  rewrite ?Z.mod_pow2_bits_low by lia; try reflexivity.

Ltac swap_rev :=
  cbn [le_bytes rev app];
  change 256 with (2 ^ 8); rewrite <- !Z.shiftr_div_pow2, ?Z.shiftr_shiftr by lia;
  change (2 ^ 8) with 256; cbn [Z.add Pos.add Pos.succ];
  repeat (apply (f_equal2 cons); [apply byte_ext; bit_cases; bits |]); reflexivity.

Lemma swap16_rev x : le_bytes 2 (swap16 x) = rev (le_bytes 2 x).
Proof. unfold swap16, u16. swap_rev. Qed.

Lemma swap32_rev x : le_bytes 4 (swap32 x) = rev (le_bytes 4 x).
Proof. unfold swap32, u32. swap_rev. Qed.

Lemma swap64_rev x : le_bytes 8 (swap64 x) = rev (le_bytes 8 x).
Proof. unfold swap64, u64. swap_rev. Qed.
