(* ===== verification/VM.v ===== *)
(** * The eBPF interpreter

    [libebpf/src/ebpf_vm.c] with the types of [libebpf/include/ebpf_vm.h]: the
    virtual machine object and the functions that create, load and destroy it,
    the shared helper table with its reference count, the bounds check, and
    [ebpf_vm_exec] as a step function over the program counter, the register
    file and the memory the program can address.

    The target is a 32-bit Cortex-M: [uintptr] is 32 bits wide, registers are
    64 bits wide, and an address is a register plus an offset truncated to 32
    bits. The memory has the two objects the C function hands to a program, the
    buffer [mem] and the frame [stack]; an access outside of both is a
    [MemFault], one at an address that is not aligned for its type is
    [Misaligned]. *)
From stdpp Require Import base tactics numbers list.
From Stdlib Require Import ZArith Lia.
From S2P Require Import Prelude Inst.
Local Open Scope Z_scope.

Definition STACK_SIZE : Z := 128.
Definition MAX_EXT_FUNCS : Z := 12.

(** A helper takes five [u32] arguments and returns a [u32]. *)
Definition ext_func := Z -> Z -> Z -> Z -> Z -> Z.

(** ** Objects *)
Record ebpf_helper_func := HelperFunc {
  ext_funcs : option (list (option ext_func));   (* a pointer, which may be null *)
  refcnt : Z;
}.

(** The code of a machine is the byte string behind [insts]; [helper_func] is
    the address of a helper table (an index of [hf_heap] below); [jit_func] is
    the machine code that the function pointer refers to. *)
Record ebpf_vm := EbpfVm {
  insts : option (list Z);
  num_insts : Z;
  bounds_check_enabled : bool;
  helper_func : option nat;
  jit_func : option (list Z);
  use_jit : bool;
}.

(** The helper tables ever allocated, a freed one being [None], and the global
    pointer [g_helepr_func]. *)
Record helper_heap := HelperHeap {
  hf_heap : list (option ebpf_helper_func);
  g_helepr_func : option nat;
}.

(** ** Construction *)

(** [malloc] does not clear the block: the fields the function does not assign
    keep the block's old contents [old]. *)
Definition init_ebpf_vm (old : option ebpf_vm) (code : list Z) (code_len : Z)
    : option ebpf_vm :=
  match old with
  | None => None
  | Some vm =>
      Some (EbpfVm (Some code) (u16 code_len / 8) (bounds_check_enabled vm)
              None (jit_func vm) (use_jit vm))
  end.

(** [calloc] clears the block; [ok] says that it succeeded. *)
Definition ebpf_create (ok : bool) : option ebpf_vm :=
  if ok then Some (EbpfVm None 0 false None None false) else None.

Definition ebpf_vm_set_inst (vm : ebpf_vm) (code : list Z) (code_len : Z) : ebpf_vm :=
  EbpfVm (Some code) (u16 code_len / 8) (bounds_check_enabled vm)
    (helper_func vm) (jit_func vm) (use_jit vm).

(** Copies [code_len] bytes; refused when the machine already has code or the
    allocation fails ([ok = false]). *)
Definition ebpf_vm_load (ok : bool) (vm : ebpf_vm) (code : list Z) (code_len : Z)
    : ebpf_vm * Z :=
  match insts vm with
  | Some _ => (vm, -1)
  | None =>
      if negb ok then (vm, -1)
      else (EbpfVm (Some (take (Z.to_nat code_len) code)) (u16 code_len / 8)
              (bounds_check_enabled vm) (helper_func vm) (jit_func vm) (use_jit vm), 0)
  end.

(** ** Helper registration *)
Definition hf_deref (h : helper_heap) (p : nat) : res ebpf_helper_func :=
  match hf_heap h !! p with
  | Some (Some t) => Ok t
  | _ => Crash UseAfterFree
  end.

Definition hf_put (h : helper_heap) (p : nat) (t : option ebpf_helper_func) : helper_heap :=
  HelperHeap (<[p := t]> (hf_heap h)) (g_helepr_func h).

Definition set_helper_func (vm : ebpf_vm) (p : nat) : ebpf_vm :=
  EbpfVm (insts vm) (num_insts vm) (bounds_check_enabled vm) (Some p)
    (jit_func vm) (use_jit vm).

(** The table shared by all machines is created by the first registration; [ok_table] and
    [ok_funcs] say that its two allocations succeed, which the code does not test. *)
Definition ebpf_register (ok_table ok_funcs : bool) (h : helper_heap) (vm : ebpf_vm) (idx : Z)
    (fn : ext_func) : res (helper_heap * ebpf_vm * Z) :=
  '(h, vm, p) ←
    match helper_func vm with
    | Some p => Ok (h, vm, p)
    | None =>
        '(h, p) ←
          match g_helepr_func h with
          | Some p => Ok (h, p)
          | None =>
              if ok_table then
                let p := length (hf_heap h) in
                let funcs := if ok_funcs then Some (replicate (Z.to_nat MAX_EXT_FUNCS) None) else None in
                Ok (HelperHeap (hf_heap h ++ [Some (HelperFunc funcs 0)]) (Some p), p)
              else Crash NullDeref
          end;
        t ← hf_deref h p;
        Ok (hf_put h p (Some (HelperFunc (ext_funcs t) (refcnt t + 1))),
            set_helper_func vm p, p)
    end;
  if MAX_EXT_FUNCS <=? idx then Ok (h, vm, -1)
  else
    t ← hf_deref h p;
    fs ← of_option NullDeref (ext_funcs t);
    fs ← of_option ArrayOOB (arr_set fs idx (Some fn));
    Ok (hf_put h p (Some (HelperFunc (Some fs) (refcnt t))), vm, 0).

(** Destroying any machine drops one reference of the shared table, whether or
    not that machine registered a helper. *)
Definition ebpf_vm_destroy (h : helper_heap) : res helper_heap :=
  match g_helepr_func h with
  | None => Ok h
  | Some p =>
      t ← hf_deref h p;
      let n := refcnt t - 1 in
      if n =? 0
      then Ok (HelperHeap (<[p := None]> (hf_heap h)) None)
      else Ok (hf_put h p (Some (HelperFunc (ext_funcs t) n)))
  end.

(** ** Memory *)
Record memory := Memory {
  mem_base : Z;  mem_bytes : list Z;
  stk_base : Z;  stk_bytes : list Z;
}.

Definition in_region (base : Z) (bytes : list Z) (addr n : Z) : bool :=
  (base <=? addr) && (addr + n <=? base + Z.of_nat (length bytes)).

(** The bytes at an address. *)
Definition mload (m : memory) (addr n : Z) : res Z :=
  if in_region (mem_base m) (mem_bytes m) addr n
  then Ok (le_val (slice (Z.to_nat (addr - mem_base m)) (Z.to_nat n) (mem_bytes m)))
  else if in_region (stk_base m) (stk_bytes m) addr n
  then Ok (le_val (slice (Z.to_nat (addr - stk_base m)) (Z.to_nat n) (stk_bytes m)))
  else Crash MemFault.

Definition splice {A} (off : nat) (xs l : list A) : list A :=
  take off l ++ xs ++ drop (off + length xs) l.

Definition mstore (m : memory) (addr n v : Z) : res memory :=
  let bs := le_bytes (Z.to_nat n) v in
  if in_region (mem_base m) (mem_bytes m) addr n
  then Ok (Memory (mem_base m)
             (splice (Z.to_nat (addr - mem_base m)) bs (mem_bytes m))
             (stk_base m) (stk_bytes m))
  else if in_region (stk_base m) (stk_bytes m) addr n
  then Ok (Memory (mem_base m) (mem_bytes m) (stk_base m)
             (splice (Z.to_nat (addr - stk_base m)) bs (stk_bytes m)))
  else Crash MemFault.

(** [*(uN * )addr] and [*(uN * )addr = v], [n] bytes wide. A pointer has to be aligned for
    its type; a [u64] is aligned to eight bytes. *)
Definition cload (m : memory) (addr n : Z) : res Z :=
  if addr mod n =? 0 then mload m addr n else Crash Misaligned.

Definition cstore (m : memory) (addr n v : Z) : res memory :=
  if addr mod n =? 0 then mstore m addr n v else Crash Misaligned.

(** The pointer arithmetic of the checks is on [u64 *], so it scales by 8. *)
Definition bounds_check (enabled : bool) (addr size mem mem_len stack : Z) : bool :=
  if negb enabled then true
  else if negb (mem =? 0) &&
          ((mem <=? addr) && (u32 (addr + 8 * size) <=? u32 (mem + 8 * mem_len)))
  then true
  else if (stack <=? addr) && (u32 (addr + 8 * size) <=? u32 (stack + 8 * STACK_SIZE))
  then true
  else false.

(** ** The interpreter *)
Record cpu := Cpu { pc : Z; regs : list Z; cmem : memory }.

(** What one iteration of the loop does: go on, or return from the function. *)
Inductive signal :=
| Continue (c : cpu)
| Return (v : Z) (m : memory).

Definition get_reg (c : cpu) (r : Z) : res Z := of_option RegOOB (arr_get (regs c) r).

Definition set_reg (c : cpu) (r v : Z) : res signal :=
  rs ← of_option RegOOB (arr_set (regs c) r v);
  Ok (Continue (Cpu (pc c) rs (cmem c))).

(** [return -1] of a [u64] function. *)
Definition return_m1 (c : cpu) : res signal := Ok (Return (u64 (-1)) (cmem c)).

Definition div_c (a b : Z) : res Z := if b =? 0 then Crash DivByZero else Ok (a / b).
Definition mod_c (a b : Z) : res Z := if b =? 0 then Crash DivByZero else Ok (a mod b).

(** [a << n] and [a >> n] on a type of [w] bits. *)
Definition shl_c (w a n : Z) : res Z :=
  if (n <? 0) || (w <=? n) then Crash ShiftUB else Ok (Z.shiftl a n).
Definition shr_c (w a n : Z) : res Z :=
  if (n <? 0) || (w <=? n) then Crash ShiftUB else Ok (Z.shiftr a n).

Section Exec.
  Variable code : list Z.
  Variable checked : bool.                          (* bounds_check_enabled *)
  Variable helpers : option (list (option ext_func)). (* *vm->helper_func *)
  Variable mem_len : Z.

(** The cases of the 32-bit operations. *)
Definition step_alu32 (c : cpu) (i : ebpf_inst) (o : ebpf_op) : option (res signal) :=
  let DST := get_reg c (dst i) in
  let SRC := get_reg c (src i) in
  let IMM := imm i in
  let set v := set_reg c (dst i) v in
  match o with
  | EBPF_OP_ADD_IMM => Some (d ← DST; set (u32 (u32 d + u32 IMM)))
  | EBPF_OP_ADD_REG => Some (d ← DST; s ← SRC; set (u32 (u32 d + u32 s)))
  | EBPF_OP_SUB_IMM => Some (d ← DST; set (u32 (u32 d - u32 IMM)))
  | EBPF_OP_SUB_REG => Some (d ← DST; s ← SRC; set (u32 (u32 d - u32 s)))
  | EBPF_OP_MUL_IMM => Some (d ← DST; set (u32 (u32 d * u32 IMM)))
  | EBPF_OP_MUL_REG => Some (d ← DST; s ← SRC; set (u32 (u32 d * u32 s)))
  | EBPF_OP_DIV_IMM => Some (d ← DST; q ← div_c (u32 d) (u32 IMM); set q)
  | EBPF_OP_DIV_REG =>
      Some (s ← SRC;
            if s =? 0 then return_m1 c
            else d ← DST; q ← div_c (u32 d) (u32 s); set q)
  | EBPF_OP_OR_IMM => Some (d ← DST; set (Z.lor (u32 d) (u32 IMM)))
  | EBPF_OP_OR_REG => Some (d ← DST; s ← SRC; set (Z.lor (u32 d) (u32 s)))
  | EBPF_OP_AND_IMM =>
      Some (d ← DST; set (Z.b2z (negb (u32 d =? 0) && negb (u32 IMM =? 0))))
  | EBPF_OP_AND_REG =>
      Some (d ← DST; s ← SRC;
            set (Z.b2z (negb (u32 d =? 0) && negb (u32 s =? 0))))
  | EBPF_OP_LSH_IMM => Some (d ← DST; v ← shl_c 32 (u32 d) (u32 IMM); set (u32 v))
  | EBPF_OP_LSH_REG => Some (d ← DST; s ← SRC; v ← shl_c 32 (u32 d) (u32 s); set (u32 v))
  | EBPF_OP_RSH_IMM => Some (d ← DST; v ← shr_c 32 (u32 d) (u32 IMM); set v)
  | EBPF_OP_RSH_REG => Some (d ← DST; s ← SRC; v ← shr_c 32 (u32 d) (u32 s); set v)
  | EBPF_OP_NEG => Some (d ← DST; set (u32 (u64 (- d))))
  | EBPF_OP_MOD_IMM => Some (d ← DST; r ← mod_c (u32 d) (u32 IMM); set r)
  | EBPF_OP_MOD_REG =>
      Some (s ← SRC;
            if s =? 0 then return_m1 c
            else d ← DST; r ← mod_c (u32 d) (u32 s); set r)
  | EBPF_OP_XOR_IMM => Some (d ← DST; set (Z.lxor (u32 d) (u32 IMM)))
  | EBPF_OP_XOR_REG => Some (d ← DST; s ← SRC; set (Z.lxor (u32 d) (u32 s)))
  | EBPF_OP_MOV_IMM => Some (set (u32 IMM))
  | EBPF_OP_MOV_REG => Some (s ← SRC; set (u32 s))
  | EBPF_OP_ARSH_IMM => Some (d ← DST; v ← shr_c 32 (s32 d) IMM; set (u32 v))
  | EBPF_OP_ARSH_REG => Some (d ← DST; s ← SRC; v ← shr_c 32 (s32 d) s; set (u32 v))
  | EBPF_OP_LE =>
      Some (if IMM =? 16 then d ← DST; set (my_htole16 d)
            else if IMM =? 32 then d ← DST; set (my_htole32 d)
            else if IMM =? 64 then d ← DST; set (my_htole64 d)
            else Ok (Continue c))
  | EBPF_OP_BE =>
      Some (if IMM =? 16 then d ← DST; set (my_htobe16 d)
            else if IMM =? 32 then d ← DST; set (my_htobe32 d)
            else if IMM =? 64 then d ← DST; set (my_htobe64 d)
            else Ok (Continue c))
  | _ => None
  end.

(** The cases of the 64-bit operations; an [s32] immediate converts to [u64]
    by sign extension. *)
Definition step_alu64 (c : cpu) (i : ebpf_inst) (o : ebpf_op) : option (res signal) :=
  let DST := get_reg c (dst i) in
  let SRC := get_reg c (src i) in
  let IMM := imm i in
  let set v := set_reg c (dst i) v in
  match o with
  | EBPF_OP_ADD64_IMM => Some (d ← DST; set (u64 (d + u64 IMM)))
  | EBPF_OP_ADD64_REG => Some (d ← DST; s ← SRC; set (u64 (d + s)))
  | EBPF_OP_SUB64_IMM => Some (d ← DST; set (u64 (d - u64 IMM)))
  | EBPF_OP_SUB64_REG => Some (d ← DST; s ← SRC; set (u64 (d - s)))
  | EBPF_OP_MUL64_IMM => Some (d ← DST; set (u64 (d * u64 IMM)))
  | EBPF_OP_MUL64_REG => Some (d ← DST; s ← SRC; set (u64 (d * s)))
  | EBPF_OP_DIV64_IMM => Some (d ← DST; q ← div_c d (u64 IMM); set q)
  | EBPF_OP_DIV64_REG =>
      Some (s ← SRC;
            if s =? 0 then return_m1 c
            else d ← DST; q ← div_c d (u64 IMM); set q)
  | EBPF_OP_OR64_IMM => Some (d ← DST; set (Z.lor d (u64 IMM)))
  | EBPF_OP_OR64_REG => Some (d ← DST; s ← SRC; set (Z.lor d s))
  | EBPF_OP_AND64_IMM => Some (d ← DST; set (Z.land d (u64 IMM)))
  | EBPF_OP_AND64_REG => Some (d ← DST; s ← SRC; set (Z.land d s))
  | EBPF_OP_LSH64_IMM => Some (d ← DST; v ← shl_c 64 d IMM; set (u64 v))
  | EBPF_OP_LSH64_REG => Some (d ← DST; s ← SRC; v ← shl_c 64 d s; set (u64 v))
  | EBPF_OP_RSH64_IMM => Some (d ← DST; v ← shr_c 64 d IMM; set v)
  | EBPF_OP_RSH64_REG => Some (d ← DST; s ← SRC; v ← shr_c 64 d s; set v)
  | EBPF_OP_NEG64 => Some (d ← DST; set (u64 (- d)))
  | EBPF_OP_MOD64_IMM => Some (d ← DST; r ← mod_c d (u64 IMM); set r)
  | EBPF_OP_MOD64_REG =>
      Some (s ← SRC;
            if s =? 0 then return_m1 c
            else d ← DST; r ← mod_c d s; set r)
  | EBPF_OP_XOR64_IMM => Some (d ← DST; set (Z.lxor d (u64 IMM)))
  | EBPF_OP_XOR64_REG => Some (d ← DST; s ← SRC; set (Z.lxor d s))
  | EBPF_OP_MOV64_IMM => Some (set (u64 IMM))
  | EBPF_OP_MOV64_REG => Some (s ← SRC; set s)
  | EBPF_OP_ARSH64_IMM => Some (d ← DST; v ← shr_c 64 (s64 d) IMM; set (u64 v))
  | EBPF_OP_ARSH64_REG => Some (d ← DST; s ← SRC; v ← shr_c 64 (s64 d) s; set (u64 v))
  | _ => None
  end.

(** [BOUNDS_CHECK_LOAD] and [BOUNDS_CHECK_STORE] are the same text: both test
    the address in the source register, also for a store, whose address is in
    the destination register. *)
Definition BOUNDS_CHECK (c : cpu) (i : ebpf_inst) (size : Z) : res bool :=
  s ← get_reg c (src i);
  Ok (bounds_check checked (u32 (s + offset i)) size
        (mem_base (cmem c)) mem_len (stk_base (cmem c))).

Definition step_load (c : cpu) (i : ebpf_inst) (size : Z) : res signal :=
  ok ← BOUNDS_CHECK c i size;
  if negb ok then return_m1 c
  else
    s ← get_reg c (src i);
    v ← cload (cmem c) (u32 (s + offset i)) size;
    set_reg c (dst i) v.

Definition step_store (c : cpu) (i : ebpf_inst) (size : Z) (v : res Z) : res signal :=
  ok ← BOUNDS_CHECK c i size;
  if negb ok then return_m1 c
  else
    d ← get_reg c (dst i);
    x ← v;
    m ← cstore (cmem c) (u32 (d + offset i)) size x;
    Ok (Continue (Cpu (pc c) (regs c) m)).

(** The loads, the stores and the two-slot load of a 64-bit immediate. *)
Definition step_mem (c : cpu) (i : ebpf_inst) (o : ebpf_op) : option (res signal) :=
  match o with
  | EBPF_OP_LDXDW => Some (step_load c i 8)
  | EBPF_OP_LDXW => Some (step_load c i 4)
  | EBPF_OP_LDXH => Some (step_load c i 2)
  | EBPF_OP_LDXB => Some (step_load c i 1)
  | EBPF_OP_STDW => Some (step_store c i 8 (Ok (imm i)))
  | EBPF_OP_STW => Some (step_store c i 4 (Ok (imm i)))
  | EBPF_OP_STH => Some (step_store c i 2 (Ok (imm i)))
  | EBPF_OP_STB => Some (step_store c i 1 (Ok (imm i)))
  | EBPF_OP_STXDW => Some (step_store c i 8 (get_reg c (src i)))
  | EBPF_OP_STXW => Some (step_store c i 4 (get_reg c (src i)))
  | EBPF_OP_STXH => Some (step_store c i 2 (get_reg c (src i)))
  | EBPF_OP_STXB => Some (step_store c i 1 (get_reg c (src i)))
  | EBPF_OP_LDDW =>
      Some (hi ← of_option FetchOOB (inst_at code (pc c));
            let c := Cpu (u16 (pc c + 1)) (regs c) (cmem c) in
            set_reg c (dst i) (Z.lor (u32 (imm i)) (Z.shiftl (u32 (imm hi)) 32)))
  | _ => None
  end.

Definition jump (c : cpu) (i : ebpf_inst) (taken : bool) : res signal :=
  Ok (Continue (if taken then Cpu (u16 (pc c + offset i)) (regs c) (cmem c) else c)).

(** The jumps. The unsigned comparisons with an immediate zero-extend it, the
    other ones sign-extend it. *)
Definition step_jmp (c : cpu) (i : ebpf_inst) (o : ebpf_op) : option (res signal) :=
  let DST := get_reg c (dst i) in
  let SRC := get_reg c (src i) in
  let IMM := imm i in
  match o with
  | EBPF_OP_JA => Some (jump c i true)
  | EBPF_OP_JEQ_REG => Some (d ← DST; s ← SRC; jump c i (d =? s))
  | EBPF_OP_JEQ_IMM => Some (d ← DST; jump c i (d =? u64 IMM))
  | EBPF_OP_JGT_IMM => Some (d ← DST; jump c i (u32 IMM <? d))
  | EBPF_OP_JGT_REG => Some (d ← DST; s ← SRC; jump c i (s <? d))
  | EBPF_OP_JGE_IMM => Some (d ← DST; jump c i (u32 IMM <=? d))
  | EBPF_OP_JGE_REG => Some (d ← DST; s ← SRC; jump c i (s <=? d))
  | EBPF_OP_JLT_IMM => Some (d ← DST; jump c i (d <? u32 IMM))
  | EBPF_OP_JLT_REG => Some (d ← DST; s ← SRC; jump c i (d <? s))
  | EBPF_OP_JLE_IMM => Some (d ← DST; jump c i (d <=? u32 IMM))
  | EBPF_OP_JLE_REG => Some (d ← DST; s ← SRC; jump c i (d <=? s))
  | EBPF_OP_JSET_IMM => Some (d ← DST; jump c i (negb (Z.land d (u64 IMM) =? 0)))
  | EBPF_OP_JSET_REG => Some (d ← DST; s ← SRC; jump c i (negb (Z.land d s =? 0)))
  | EBPF_OP_JNE_IMM => Some (d ← DST; jump c i (negb (d =? u64 IMM)))
  | EBPF_OP_JNE_REG => Some (d ← DST; s ← SRC; jump c i (negb (d =? s)))
  | EBPF_OP_JSGT_IMM => Some (d ← DST; jump c i (IMM <? s64 d))
  | EBPF_OP_JSGT_REG => Some (d ← DST; s ← SRC; jump c i (s64 s <? s64 d))
  | EBPF_OP_JSGE_IMM => Some (d ← DST; jump c i (IMM <=? s64 d))
  | EBPF_OP_JSGE_REG => Some (d ← DST; s ← SRC; jump c i (s64 s <=? s64 d))
  | EBPF_OP_JSLT_IMM => Some (d ← DST; jump c i (s64 d <? IMM))
  | EBPF_OP_JSLT_REG => Some (d ← DST; s ← SRC; jump c i (s64 d <? s64 s))
  | EBPF_OP_JSLE_IMM => Some (d ← DST; jump c i (s64 d <=? IMM))
  | EBPF_OP_JSLE_REG => Some (d ← DST; s ← SRC; jump c i (s64 d <=? s64 s))
  | _ => None
  end.

Definition call_helper (c : cpu) (i : ebpf_inst) : res signal :=
  fs ← of_option BadHelper helpers;
  f ← of_option BadHelper (arr_get fs (imm i));
  f ← of_option BadHelper f;
  r1 ← get_reg c 1; r2 ← get_reg c 2; r3 ← get_reg c 3;
  r4 ← get_reg c 4; r5 ← get_reg c 5;
  set_reg c 0 (u32 (f (u32 r1) (u32 r2) (u32 r3) (u32 r4) (u32 r5))).

Definition step_misc (c : cpu) (i : ebpf_inst) (o : ebpf_op) : option (res signal) :=
  match o with
  | EBPF_OP_CALL => Some (call_helper c i)
  | EBPF_OP_EXIT => Some (r0 ← get_reg c 0; Ok (Return r0 (cmem c)))
  | _ => None
  end.

(** One iteration of [while (true)]: fetch, [pc++], dispatch. The [switch] has
    no default case: an unknown opcode falls through to the next iteration. *)
Definition dispatch (c : cpu) (i : ebpf_inst) (o : ebpf_op) : res signal :=
  match step_alu32 c i o with Some r => r | None =>
  match step_alu64 c i o with Some r => r | None =>
  match step_mem c i o with Some r => r | None =>
  match step_jmp c i o with Some r => r | None =>
  match step_misc c i o with Some r => r | None => Ok (Continue c) end end end end end.

Definition step (c : cpu) : res signal :=
  i ← of_option FetchOOB (inst_at code (pc c));
  let c := Cpu (u16 (pc c + 1)) (regs c) (cmem c) in
  match opcode_of (opcode i) with
  | Some o => dispatch c i o
  | None => Ok (Continue c)
  end.

(** The loop, bounded by fuel. *)
Fixpoint run (fuel : nat) (c : cpu) : res (Z * memory) :=
  match fuel with
  | O => Timeout
  | S fuel =>
      s ← step c;
      match s with
      | Continue c' => run fuel c'
      | Return v m => Ok (v, m)
      end
  end.

(** The register file and the frame at entry. *)
Definition init_cpu (mem stack : Z) (bytes : list Z) : cpu :=
  Cpu 0 [0; mem; 0; 0; 0; 0; 0; 0; 0; 0; u32 (stack + STACK_SIZE); 0]
    (Memory mem bytes stack (replicate (Z.to_nat STACK_SIZE) 0)).
End Exec.

(** [ebpf_vm_exec(vm, mem, mem_len)] with the buffer at address [mem] holding
    [bytes] and the frame at address [stack]. *)
Definition ebpf_vm_exec (h : helper_heap) (vm : ebpf_vm) (mem stack : Z)
    (bytes : list Z) (mem_len : Z) (fuel : nat) : res (Z * memory) :=
  code ← of_option NullDeref (insts vm);
  let helpers :=
    p ← helper_func vm; t ← hf_heap h !! p; t ← t; ext_funcs t in
  run code (bounds_check_enabled vm) helpers mem_len fuel (init_cpu mem stack bytes).
