(* ===== verification/VMFacts.v ===== *)
(** * Facts about the interpreter

    Fuel, the kinds of opcodes, what each kind of instruction does to the
    register file, the memory and the program counter, and the type invariant of
    the machine. The lemmas here carry the proofs about the verifier and about
    the policies. *)
From stdpp Require Import base tactics numbers list.
From Stdlib Require Import ZArith Lia.
From S2P Require Import Prelude Inst VM.
Local Open Scope Z_scope.

(** ** Kinds of opcodes *)
Inductive op_kind :=
| KAlu | KLoad (size : Z) | KStore | KLddw | KJump | KCall | KExit.

Definition kind_of (o : ebpf_op) : op_kind :=
  match o with
  | EBPF_OP_LDXDW => KLoad 8 | EBPF_OP_LDXW => KLoad 4
  | EBPF_OP_LDXH => KLoad 2 | EBPF_OP_LDXB => KLoad 1
  | EBPF_OP_STW | EBPF_OP_STH | EBPF_OP_STB | EBPF_OP_STDW
  | EBPF_OP_STXW | EBPF_OP_STXH | EBPF_OP_STXB | EBPF_OP_STXDW => KStore
  | EBPF_OP_LDDW => KLddw
  | EBPF_OP_CALL => KCall
  | EBPF_OP_EXIT => KExit
  | EBPF_OP_JA | EBPF_OP_JEQ_IMM | EBPF_OP_JEQ_REG | EBPF_OP_JGT_IMM
  | EBPF_OP_JGT_REG | EBPF_OP_JGE_IMM | EBPF_OP_JGE_REG | EBPF_OP_JSET_REG
  | EBPF_OP_JSET_IMM | EBPF_OP_JNE_IMM | EBPF_OP_JNE_REG | EBPF_OP_JSGT_IMM
  | EBPF_OP_JSGT_REG | EBPF_OP_JSGE_IMM | EBPF_OP_JSGE_REG
  | EBPF_OP_JLT_IMM | EBPF_OP_JLT_REG | EBPF_OP_JLE_IMM
  | EBPF_OP_JLE_REG | EBPF_OP_JSLT_IMM | EBPF_OP_JSLT_REG | EBPF_OP_JSLE_IMM
  | EBPF_OP_JSLE_REG => KJump
  | _ => KAlu
  end.

(** Does the operation avoid the C operations that can be undefined, whatever
    the registers hold? *)
Definition arith_total (i : ebpf_inst) (o : ebpf_op) : bool :=
  match o with
  | EBPF_OP_DIV_IMM | EBPF_OP_MOD_IMM => negb (u32 (imm i) =? 0)
  | EBPF_OP_DIV64_IMM | EBPF_OP_DIV64_REG | EBPF_OP_MOD64_IMM => negb (u64 (imm i) =? 0)
  | EBPF_OP_DIV_REG | EBPF_OP_MOD_REG => false
  | EBPF_OP_LSH_IMM | EBPF_OP_RSH_IMM => u32 (imm i) <? 32
  | EBPF_OP_ARSH_IMM => (0 <=? imm i) && (imm i <? 32)
  | EBPF_OP_LSH64_IMM | EBPF_OP_RSH64_IMM | EBPF_OP_ARSH64_IMM =>
      (0 <=? imm i) && (imm i <? 64)
  | EBPF_OP_LSH_REG | EBPF_OP_RSH_REG | EBPF_OP_ARSH_REG
  | EBPF_OP_LSH64_REG | EBPF_OP_RSH64_REG | EBPF_OP_ARSH64_REG => false
  | _ => true
  end.

(** ** The type of a machine state *)
Definition mem_wf (m : memory) : Prop :=
  Forall (fun b => is_byte b = true) (mem_bytes m) /\
  Forall (fun b => is_byte b = true) (stk_bytes m).

Definition cpu_wf (c : cpu) : Prop :=
  0 <= pc c < 2 ^ 16 /\
  length (regs c) = 12%nat /\
  Forall (fun r => 0 <= r < 2 ^ 64) (regs c) /\
  mem_wf (cmem c).

Definition signal_wf (s : signal) : Prop :=
  match s with
  | Continue c => cpu_wf c
  | Return v m => 0 <= v < 2 ^ 64 /\ mem_wf m
  end.

(** ** Registers *)
Lemma get_reg_ok c r :
  length (regs c) = 12%nat -> 0 <= r < 12 -> exists v, get_reg c r = Ok v.
Proof.
  intros Hl Hr. unfold get_reg, of_option.
  destruct (arr_get (regs c) r) eqn:E; [eauto|].
  apply arr_get_None in E. lia.
Qed.

Lemma set_reg_ok c r v :
  length (regs c) = 12%nat -> 0 <= r < 12 ->
  set_reg c r v = Ok (Continue (Cpu (pc c) (<[Z.to_nat r := v]> (regs c)) (cmem c))).
Proof. intros Hl Hr. unfold set_reg. rewrite arr_set_in by lia. reflexivity. Qed.

Lemma set_reg_inv c r v s :
  set_reg c r v = Ok s ->
  0 <= r < Z.of_nat (length (regs c)) /\
  s = Continue (Cpu (pc c) (<[Z.to_nat r := v]> (regs c)) (cmem c)).
Proof.
  unfold set_reg. destruct (arr_set (regs c) r v) eqn:E; cbn; [|done].
  apply arr_set_Some in E as [? ->]. intros [= <-]. auto.
Qed.

Lemma get_reg_range c r v :
  cpu_wf c -> get_reg c r = Ok v -> 0 <= v < 2 ^ 64.
Proof.
  intros (_ & _ & Hr & _). unfold get_reg, of_option.
  destruct (arr_get (regs c) r) eqn:E; [|done]. intros [= <-].
  apply arr_get_Some in E as [_ E].
  now apply (proj1 (Forall_lookup _ _) Hr _ _ E).
Qed.

(** ** What the kinds of instructions do *)
Ltac opcases o := destruct o; try discriminate.

Section Kinds.
  Context (code : list Z) (checked : bool)
          (helpers : option (list (option ext_func))) (mem_len : Z).
  Context (c : cpu) (i : ebpf_inst) (o : ebpf_op).
  Context (Hlen : length (regs c) = 12%nat)
          (Hdst : 0 <= dst i < 12) (Hsrc : 0 <= src i < 12).

Abbreviation disp := (dispatch code checked helpers mem_len c i o).

(** The outcomes of an arithmetic instruction. *)
Inductive alu_outcome : res signal -> Prop :=
| alu_set v : alu_outcome (Ok (Continue
    (Cpu (pc c) (<[Z.to_nat (dst i) := v]> (regs c)) (cmem c))))
| alu_same : alu_outcome (Ok (Continue c))
| alu_ret : alu_outcome (Ok (Return (u64 (-1)) (cmem c)))
| alu_div : alu_outcome (Crash DivByZero)
| alu_shift : alu_outcome (Crash ShiftUB).

Hint Constructors alu_outcome : core.

Lemma dispatch_alu :
  kind_of o = KAlu ->
  alu_outcome disp /\
  (arith_total i o = true -> disp <> Crash DivByZero /\ disp <> Crash ShiftUB).
Proof.
  intros Hk.
  destruct (get_reg_ok c (dst i) Hlen Hdst) as [d Ed].
  destruct (get_reg_ok c (src i) Hlen Hsrc) as [s Es].
  assert (Hset : forall v, set_reg c (dst i) v = Ok (Continue
    (Cpu (pc c) (<[Z.to_nat (dst i) := v]> (regs c)) (cmem c))))
    by (intros; now apply set_reg_ok).
  pose proof (u32_range (imm i)).
  opcases o; cbn; rewrite ?Ed, ?Es; cbn; unfold div_c, mod_c, shl_c, shr_c, return_m1;
    repeat (case_match; cbn); rewrite ?Hset; split; auto;
    intros Ht; cbn in Ht; split; try congruence; lia.
Qed.

Lemma dispatch_jump :
  kind_of o = KJump -> exists b, disp = jump c i b.
Proof.
  intros Hk.
  destruct (get_reg_ok c (dst i) Hlen Hdst) as [d Ed].
  destruct (get_reg_ok c (src i) Hlen Hsrc) as [s Es].
  opcases o; cbn; rewrite ?Ed, ?Es; cbn; eauto.
Qed.
End Kinds.

Section Kinds2.
  Context (code : list Z) (checked : bool)
          (helpers : option (list (option ext_func))) (mem_len : Z).
  Context (c : cpu) (i : ebpf_inst) (o : ebpf_op).

Abbreviation disp := (dispatch code checked helpers mem_len c i o).

Lemma dispatch_load size :
  kind_of o = KLoad size -> disp = step_load checked mem_len c i size.
Proof. intros Hk. opcases o; injection Hk as <-; reflexivity. Qed.

Lemma dispatch_lddw :
  kind_of o = KLddw -> o = EBPF_OP_LDDW.
Proof. opcases o; reflexivity. Qed.

Lemma dispatch_exit :
  kind_of o = KExit -> disp = (r0 ← get_reg c 0; Ok (Return r0 (cmem c))).
Proof. intros Hk. opcases o; reflexivity. Qed.
End Kinds2.

(** ** Fuel *)
Section Fuel.
  Context (code : list Z) (checked : bool)
          (helpers : option (list (option ext_func))) (mem_len : Z).

Abbreviation run := (run code checked helpers mem_len).

Lemma run_mono n m c :
  (n <= m)%nat -> run n c <> Timeout -> run m c = run n c.
Proof.
  revert m c. induction n as [|n IH]; intros m c Hle Hn; [done|].
  destruct m as [|m]; [lia|]. cbn in Hn |- *.
  destruct (step code checked helpers mem_len c) as [[c'|v mm]| |]; cbn in *; try done.
  apply IH; [lia|done].
Qed.
End Fuel.

(** ** Bytes after the code *)
Lemma inst_of_bytes_length bs i : inst_of_bytes bs = Some i -> length bs = 8%nat.
Proof. destruct bs as [|? [|? [|? [|? [|? [|? [|? [|? [|]]]]]]]]]; now cbn. Qed.

Lemma inst_at_app code tail p i : inst_at code p = Some i -> inst_at (code ++ tail) p = Some i.
Proof.
  unfold inst_at. destruct (p <? 0); [done|]. intros H. rewrite <- H. f_equal.
  apply inst_of_bytes_length in H. unfold slice in H. rewrite length_take, length_drop in H.
  apply slice_app_l. lia.
Qed.

Section Tail.
  Variables (code tail : list Z) (checked : bool) (helpers : option (list (option ext_func))).
  Variable mem_len : Z.

Lemma step_app c s :
  step code checked helpers mem_len c = Ok s -> step (code ++ tail) checked helpers mem_len c = Ok s.
Proof.
  unfold step. destruct (inst_at code (pc c)) as [i|] eqn:Ei; [|done].
  rewrite (inst_at_app _ tail _ _ Ei). cbn [mbind res_bind of_option].
  destruct (opcode_of (opcode i)) as [o|]; [|done]. destruct o; try exact (fun H => H).
  cbn. destruct (inst_at code (u16 (pc c + 1))) as [hi|] eqn:Eh; [|done].
  now rewrite (inst_at_app _ tail _ _ Eh).
Qed.

(** A run that returns does not see what follows the code. *)
Lemma run_app n c v m :
  run code checked helpers mem_len n c = Ok (v, m) -> run (code ++ tail) checked helpers mem_len n c = Ok (v, m).
Proof.
  revert c. induction n as [|n IH]; intros c; [done|]. cbn.
  destruct (step code checked helpers mem_len c) as [s| |] eqn:Es; cbn; [|done..].
  rewrite (step_app _ _ Es). cbn. destruct s; [apply IH|done].
Qed.
End Tail.

(** ** The type invariant *)
Lemma bits_bound x n :
  0 <= n -> (forall k, n <= k -> Z.testbit x k = false) -> 0 <= x < 2 ^ n.
Proof.
  intros Hn H. replace x with (x mod 2 ^ n).
  { apply Z.mod_pos_bound, Z.pow_pos_nonneg; lia. }
  rewrite <- Z.land_ones by lia. apply Z.bits_inj'. intros k Hk.
  rewrite Z.land_spec. destruct (Z.ltb_spec k n).
  - now rewrite Z.ones_spec_low, andb_true_r by lia.
  - now rewrite (H k), andb_false_l by lia.
Qed.

Lemma testbit_above x n k : 0 <= x < 2 ^ n -> 0 <= n <= k -> Z.testbit x k = false.
Proof.
  intros Hx Hk. rewrite <- (Z.mod_small x (2 ^ n)) by lia.
  now apply Z.mod_pow2_bits_high.
Qed.

Lemma lor_bound a b n :
  0 <= n -> 0 <= a < 2 ^ n -> 0 <= b < 2 ^ n -> 0 <= Z.lor a b < 2 ^ n.
Proof.
  intros. apply bits_bound; [lia|]. intros k Hk.
  now rewrite Z.lor_spec, (testbit_above a n k), (testbit_above b n k) by lia.
Qed.

Lemma lxor_bound a b n :
  0 <= n -> 0 <= a < 2 ^ n -> 0 <= b < 2 ^ n -> 0 <= Z.lxor a b < 2 ^ n.
Proof.
  intros. apply bits_bound; [lia|]. intros k Hk.
  now rewrite Z.lxor_spec, (testbit_above a n k), (testbit_above b n k) by lia.
Qed.

Lemma land_bound a b n :
  0 <= n -> 0 <= a < 2 ^ n -> 0 <= Z.land a b < 2 ^ n.
Proof.
  intros. apply bits_bound; [lia|]. intros k Hk.
  now rewrite Z.land_spec, (testbit_above a n k) by lia.
Qed.

Lemma shiftr_bound a k n :
  0 <= k -> 0 <= a < 2 ^ n -> 0 <= Z.shiftr a k < 2 ^ n.
Proof.
  intros Hk Ha. rewrite Z.shiftr_div_pow2 by lia.
  assert (0 < 2 ^ k) by (apply Z.pow_pos_nonneg; lia).
  split; [apply Z.div_pos; lia|].
  apply Z.le_lt_trans with a; [|lia]. apply Z.div_le_upper_bound; nia.
Qed.

Lemma div_bound a b n : 0 <= a < n -> 0 <= b -> b <> 0 -> 0 <= a / b < n.
Proof.
  intros. split; [apply Z.div_pos; lia|].
  apply Z.le_lt_trans with a; [|lia]. apply Z.div_le_upper_bound; nia.
Qed.

Lemma mod_bound a b n : 0 <= a < n -> 0 <= b -> b <> 0 -> 0 <= a mod b < n.
Proof.
  intros. pose proof (Z.mod_pos_bound a b ltac:(lia)).
  pose proof (Z.mod_le a b ltac:(lia) ltac:(lia)). lia.
Qed.

Lemma u32_range64 z : 0 <= u32 z < 2 ^ 64.
Proof. clia. Qed.
Lemma u16_range64 z : 0 <= u16 z < 2 ^ 64.
Proof. clia. Qed.
Lemma b2z_range64 b : 0 <= Z.b2z b < 2 ^ 64.
Proof. destruct b; cbn; lia. Qed.

Lemma my_htobe16_range x : 0 <= my_htobe16 x < 2 ^ 64.
Proof. apply u16_range64. Qed.
Lemma my_htobe32_range x : 0 <= my_htobe32 x < 2 ^ 64.
Proof. apply u32_range64. Qed.
Lemma my_htobe64_range x : 0 <= my_htobe64 x < 2 ^ 64.
Proof. apply u64_range. Qed.

#[export] Hint Resolve u32_range64 u16_range64 b2z_range64
  my_htobe16_range my_htobe32_range my_htobe64_range : cint.

Lemma cpu_wf_set c r v :
  cpu_wf c -> 0 <= v < 2 ^ 64 ->
  cpu_wf (Cpu (pc c) (<[Z.to_nat r := v]> (regs c)) (cmem c)).
Proof.
  intros (Hp & Hl & Hr & Hm) Hv. repeat split; try apply Hp; try apply Hm; cbn.
  - now rewrite length_insert.
  - now apply Forall_insert.
Qed.

Lemma cpu_wf_pc c p : cpu_wf c -> cpu_wf (Cpu (u16 p) (regs c) (cmem c)).
Proof. intros (Hp & Hl & Hr & Hm). split; [apply u16_range|]. auto. Qed.

Lemma set_reg_wf c r v s :
  cpu_wf c -> 0 <= v < 2 ^ 64 -> set_reg c r v = Ok s -> signal_wf s.
Proof. intros Hc Hv [_ ->]%set_reg_inv. now apply cpu_wf_set. Qed.

(** Inverts the binds of [H : ... = Ok _] down to the register write. *)
Ltac inv_binds H :=
  repeat match type of H with
  | mbind _ _ = Ok _ =>
      let x := fresh "x" in let Hx := fresh "Hx" in
      apply bind_Ok in H as (x & Hx & H)
  end.

Ltac reg_ranges Hc :=
  repeat match goal with
  | H : get_reg ?c ?r = Ok ?v |- _ =>
      apply (get_reg_range c r v Hc) in H
  end.

Lemma alu_wf c i o code checked helpers mem_len s :
  cpu_wf c -> kind_of o = KAlu ->
  dispatch code checked helpers mem_len c i o = Ok s -> signal_wf s.
Proof.
  intros Hc Hk H.
  opcases o; cbn in H; inv_binds H;
    repeat (case_match; try discriminate); inv_binds H;
    try (apply set_reg_wf in H; [exact H | exact Hc |]); reg_ranges Hc;
    unfold div_c, mod_c, shl_c, shr_c in *;
    repeat (case_match; try discriminate); simplify_eq;
    try (unfold return_m1 in H; simplify_eq; split; [apply u64_range|apply Hc]);
    try exact Hc;
    try (injection H as <-; exact Hc);
    auto 3 with cint;
    first
      [ apply lor_bound; solve [lia | auto with cint]
      | apply lxor_bound; solve [lia | auto with cint]
      | apply land_bound; solve [lia | auto with cint]
      | apply shiftr_bound; solve [lia | auto with cint | pose proof (u32_range (imm i)); lia]
      | apply div_bound; [auto with cint; lia | pose proof (u32_range (imm i)); pose proof (u64_range (imm i)); try lia; apply u32_range | lia]
      | apply mod_bound; [auto with cint; lia | pose proof (u32_range (imm i)); pose proof (u64_range (imm i)); try lia; apply u32_range | lia] ].
Qed.

Lemma slice_bytes off n (l : list Z) :
  Forall (fun b => is_byte b = true) l -> Forall (fun b => is_byte b = true) (slice off n l).
Proof. intros H. now apply Forall_take, Forall_drop. Qed.

Lemma le_val_slice_bound off n (l : list Z) :
  Forall (fun b => is_byte b = true) l -> (n <= 8)%nat -> 0 <= le_val (slice off n l) < 2 ^ 64.
Proof.
  intros H Hn. pose proof (le_val_bound _ (slice_bytes off n l H)) as Hb.
  assert (length (slice off n l) <= 8)%nat by (unfold slice; rewrite length_take; lia).
  split; [lia|]. eapply Z.lt_le_trans; [apply Hb|]. apply Z.pow_le_mono_r; lia.
Qed.

Lemma mload_range m addr n v :
  mem_wf m -> n <= 8 -> mload m addr n = Ok v -> 0 <= v < 2 ^ 64.
Proof.
  intros [Hm Hs] Hn. unfold mload. repeat case_match; intros [= <-];
    apply le_val_slice_bound; auto; lia.
Qed.

Lemma cload_Ok m addr n v : cload m addr n = Ok v -> mload m addr n = Ok v.
Proof. unfold cload. now case_match. Qed.

Lemma cstore_Ok m addr n v m' : cstore m addr n v = Ok m' -> mstore m addr n v = Ok m'.
Proof. unfold cstore. now case_match. Qed.

Lemma cload_aligned m addr n : addr mod n = 0 -> cload m addr n = mload m addr n.
Proof. intros H. unfold cload. now rewrite H. Qed.

Lemma cstore_aligned m addr n v : addr mod n = 0 -> cstore m addr n v = mstore m addr n v.
Proof. intros H. unfold cstore. now rewrite H. Qed.

(** An aligned offset from an aligned address. *)
Lemma aligned_access al base off sz :
  base mod al = 0 -> sz = 1 \/ sz = 2 \/ sz = 4 \/ sz = 8 -> sz <= al -> al = 4 \/ al = 8 ->
  off mod sz = 0 -> (base + off) mod sz = 0.
Proof.
  intros Hb Hs Hle Ha Ho. apply Z.mod_divide in Hb as [k ->]; [|lia]. apply Z.mod_divide in Ho as [j ->]; [|lia].
  apply Z.mod_divide; [lia|]. apply Z.divide_add_r; [|now exists j]. apply Z.divide_mul_r.
  destruct Ha as [-> | ->], Hs as [-> |[-> |[-> | ->]]]; try lia; now apply Z.mod_divide.
Qed.

Lemma splice_bytes off xs (l : list Z) :
  Forall (fun b => is_byte b = true) l -> Forall (fun b => is_byte b = true) xs ->
  Forall (fun b => is_byte b = true) (splice off xs l).
Proof.
  intros Hl Hx. unfold splice. rewrite !Forall_app.
  split; [now apply Forall_take | split; [done | now apply Forall_drop]].
Qed.

Lemma mstore_wf m addr n v m' :
  mem_wf m -> mstore m addr n v = Ok m' -> mem_wf m'.
Proof.
  intros [Hm Hs]. unfold mstore.
  repeat case_match; intros [= <-]; split; cbn; auto using splice_bytes, le_bytes_is_byte.
Qed.

Lemma inst_at_wf code p i :
  Forall (fun b => is_byte b = true) code -> inst_at code p = Some i -> inst_wf i = true.
Proof.
  intros Hc. unfold inst_at. case_match; [done|]. intros Hi.
  eapply inst_bytes_of_bytes; [|exact Hi]. now apply slice_bytes.
Qed.

Lemma step_load_wf c i checked mem_len size s :
  cpu_wf c -> size <= 8 -> step_load checked mem_len c i size = Ok s -> signal_wf s.
Proof.
  intros Hc Hsz H. unfold step_load in H. apply bind_Ok in H as (ok & _ & H).
  case_match; [injection H as <-; split; [apply u64_range | apply Hc] |].
  inv_binds H. eapply set_reg_wf; [exact Hc | | exact H].
  eapply mload_range; [|exact Hsz|eapply cload_Ok; eassumption]. apply Hc.
Qed.

Lemma step_store_wf c i checked mem_len size v s :
  cpu_wf c -> step_store checked mem_len c i size v = Ok s -> signal_wf s.
Proof.
  intros Hc H. unfold step_store in H. apply bind_Ok in H as (ok & _ & H).
  case_match; [injection H as <-; split; [apply u64_range | apply Hc] |].
  inv_binds H. injection H as <-. destruct Hc as (Hp & Hl & Hr & Hm).
  split; [exact Hp|]. split; [exact Hl|]. split; [exact Hr|].
  eapply mstore_wf; [exact Hm|eapply cstore_Ok; eassumption].
Qed.

Lemma jump_wf c i b s : cpu_wf c -> jump c i b = Ok s -> signal_wf s.
Proof. intros Hc [= <-]. destruct b; [now apply cpu_wf_pc | exact Hc]. Qed.

Lemma dispatch_wf code checked helpers mem_len c i o s :
  cpu_wf c -> dispatch code checked helpers mem_len c i o = Ok s -> signal_wf s.
Proof.
  intros Hc. destruct (kind_of o) eqn:Hk.
  - now apply alu_wf.
  - rewrite (dispatch_load _ _ _ _ _ _ _ _ Hk). apply step_load_wf; [done|].
    opcases o; injection Hk as <-; lia.
  - opcases o; cbn; eauto using step_store_wf.
  - rewrite (dispatch_lddw _ Hk). cbn. intros H. inv_binds H.
    eapply set_reg_wf; [|  |exact H].
    + now apply cpu_wf_pc.
    + apply lor_bound; [lia|apply u32_range64|].
      rewrite Z.shiftl_mul_pow2 by lia. clia.
  - opcases o; cbn; intros H; inv_binds H; eauto using jump_wf.
  - opcases o; cbn; intros H. unfold call_helper in H. inv_binds H.
    eapply set_reg_wf; [exact Hc | apply u32_range64 | exact H].
  - rewrite (dispatch_exit _ _ _ _ _ _ _ Hk). intros H. inv_binds H. injection H as <-.
    split; [eapply get_reg_range; eassumption | apply Hc].
Qed.

Lemma step_wf code checked helpers mem_len c s :
  cpu_wf c -> step code checked helpers mem_len c = Ok s -> signal_wf s.
Proof.
  intros Hc H. unfold step in H. inv_binds H. pose proof (cpu_wf_pc c (pc c + 1) Hc).
  case_match; [eapply dispatch_wf; eassumption|]. now injection H as <-.
Qed.

Lemma run_wf code checked helpers mem_len fuel c v m :
  cpu_wf c -> run code checked helpers mem_len fuel c = Ok (v, m) ->
  0 <= v < 2 ^ 64 /\ mem_wf m.
Proof.
  revert c. induction fuel as [|fuel IH]; intros c Hc H; [done|]. cbn in H.
  apply bind_Ok in H as (s & Hs & H). apply step_wf in Hs; [|done].
  destruct s as [c'|v' m']; [eapply IH; eassumption|]. now injection H as <- <-.
Qed.
