(* ===== verification/Verifier.v ===== *)
(** * The structural verifier of runtime policies

    [ifw_verify_policy] of [firewall/policy/src/fsm_policy_cache.c], the check a
    policy received over the air passes before it is installed, and what
    acceptance guarantees about an execution by [ebpf_vm_exec].

    The function scans the program once. It rejects stores, helper calls,
    backward jumps and jumps past the end, and it checks the offset of a load
    against the object that its base register holds at entry. The scan does not
    look at three things: whether a jump lands on the second slot of a two-slot
    [LDDW], whether control can run past the last instruction, and whether a base
    register still holds its entry value at a load. [policy_closed] states these
    three; with them an accepted program always stops within its length, touches
    no memory outside of its two objects and changes none of it
    ([verified_run]). Without them it need not: the counterexamples at the end
    are accepted programs that loop, that read a wild address, that leave the
    code buffer and that write the state they may only read. *)
From stdpp Require Import base tactics numbers list.
From Stdlib Require Import ZArith Lia.
From S2P Require Import Prelude Inst VM VMFacts.
Local Open Scope Z_scope.

Definition IFW_RUNTIME_MAX_INSTS : Z := 64.

(** The instructions of the first [8 * n] bytes of a buffer. *)
Fixpoint decode_prog (n : nat) (code : list Z) : list ebpf_inst :=
  match n with
  | O => []
  | S n =>
      match inst_of_bytes (take 8 code) with
      | Some i => i :: decode_prog n (drop 8 code)
      | None => []
      end
  end.

(** ** The verifier *)
Definition is_store_op (i : ebpf_inst) : bool :=
  opcode_is EBPF_OP_STDW i || opcode_is EBPF_OP_STW i ||
  opcode_is EBPF_OP_STH i || opcode_is EBPF_OP_STB i ||
  opcode_is EBPF_OP_STXDW i || opcode_is EBPF_OP_STXW i ||
  opcode_is EBPF_OP_STXH i || opcode_is EBPF_OP_STXB i.

Definition load_sz (i : ebpf_inst) : Z :=
  if opcode_is EBPF_OP_LDXDW i then 8
  else if opcode_is EBPF_OP_LDXW i then 4
  else if opcode_is EBPF_OP_LDXH i then 2
  else if opcode_is EBPF_OP_LDXB i then 1
  else 0.

(** The load checks; 0 when they pass. *)
Definition check_load (mem_size : Z) (inst : ebpf_inst) : Z :=
  let sz := load_sz inst in
  let off := offset inst in
  if sz =? 0 then 0
  else if src inst =? 1 then
    if (off <? 0) || (mem_size <? off + sz) then -15 else 0
  else if src inst =? 10 then
    if (0 <=? off) || (0 <? sz + off) || (STACK_SIZE <? - off) then -16 else 0
  else -17.

Inductive verdict :=
| Reject (code : Z)
| Next (exit : bool)      (* continue at pc + 1; [exit]: an EXIT was seen *)
| SkipSlot.               (* LDDW: continue at pc + 2 *)

(** The body of the loop. *)
Definition verify_inst (num_insts mem_size pc : Z) (inst : ebpf_inst) : verdict :=
  if (MAX_BPF_REG <=? dst inst) || (MAX_BPF_REG <=? src inst) then Reject (-12)
  else if opcode_is EBPF_OP_CALL inst then Reject (-13)
  else if opcode_is EBPF_OP_EXIT inst then Next true
  else if is_store_op inst then Reject (-14)
  else if negb (check_load mem_size inst =? 0) then Reject (check_load mem_size inst)
  else if opcode_is EBPF_OP_LDDW inst then
    if num_insts <=? pc + 1 then Reject (-18) else SkipSlot
  else if Z.land (opcode inst) EBPF_CLS_MASK =? EBPF_CLS_JMP then
    if offset inst <? 0 then Reject (-19)
    else if num_insts <=? pc + 1 + offset inst then Reject (-20)
    else Next false
  else Next false.

Fixpoint verify_loop (num_insts mem_size pc : Z) (prog : list ebpf_inst)
    (seen_exit : bool) : Z :=
  match prog with
  | [] => if seen_exit then 0 else -21
  | inst :: prog' =>
      match verify_inst num_insts mem_size pc inst with
      | Reject e => e
      | Next x => verify_loop num_insts mem_size (pc + 1) prog' (seen_exit || x)
      | SkipSlot =>
          match prog' with
          | [] => -18
          | _ :: prog'' => verify_loop num_insts mem_size (pc + 2) prog'' seen_exit
          end
      end
  end.

Definition ifw_verify_policy (code : option (list Z)) (len mem_size : Z) : Z :=
  match code with
  | None => -10
  | Some code =>
      if (len =? 0) || negb (len mod 8 =? 0) then -10
      else if IFW_RUNTIME_MAX_INSTS <? len / 8 then -11
      else verify_loop (len / 8) mem_size 0 (decode_prog (Z.to_nat (len / 8)) code) false
  end.

(** ** What the scan leaves open *)

(** The positions the scan looks at: the second slot of an [LDDW] is not one. *)
Fixpoint heads (pc : Z) (prog : list ebpf_inst) : list (Z * ebpf_inst) :=
  match prog with
  | [] => []
  | inst :: prog' =>
      (pc, inst) ::
      (if opcode_is EBPF_OP_LDDW inst
       then match prog' with [] => [] | _ :: prog'' => heads (pc + 2) prog'' end
       else heads (pc + 1) prog')
  end.

Definition is_jump (i : ebpf_inst) : bool :=
  (Z.land (opcode i) EBPF_CLS_MASK =? EBPF_CLS_JMP) && negb (opcode_is EBPF_OP_EXIT i).

(** Can the instruction write register [r]? *)
Definition writes (r : Z) (i : ebpf_inst) : bool :=
  match opcode_of (opcode i) with
  | None => false
  | Some o =>
      match kind_of o with
      | KAlu | KLoad _ | KLddw => dst i =? r
      | _ => false
      end
  end.

Definition at_head (hs : list (Z * ebpf_inst)) (p : Z) : bool :=
  existsb (fun h => fst h =? p) hs.

(** Is register [r] written at a head before [p]? *)
Definition written_before (hs : list (Z * ebpf_inst)) (p r : Z) : bool :=
  existsb (fun h => (fst h <? p) && writes r (snd h)) hs.

Definition policy_closed (prog : list ebpf_inst) : bool :=
  let hs := heads 0 prog in
  let n := Z.of_nat (length prog) in
  (* jumps land on heads *)
  forallb (fun h => negb (is_jump (snd h)) || at_head hs (fst h + 1 + offset (snd h))) hs &&
  (* the last slot is an EXIT *)
  existsb (fun h => (fst h =? n - 1) && opcode_is EBPF_OP_EXIT (snd h)) hs &&
  (* a base register still holds its entry value at a load *)
  forallb (fun h => (load_sz (snd h) =? 0) || negb (written_before hs (fst h) (src (snd h)))) hs.

(** No instruction can run into undefined C arithmetic. *)
Definition policy_arith (prog : list ebpf_inst) : bool :=
  forallb (fun h => match opcode_of (opcode (snd h)) with
                    | Some o => arith_total (snd h) o | None => true end) (heads 0 prog).

(** Every load is aligned: its offset is a multiple of its width, and through r1, which
    points to an object of [int]s, it is at most four bytes wide. *)
Definition policy_aligned (prog : list ebpf_inst) : bool :=
  forallb (fun h => let sz := load_sz (snd h) in
                    (sz =? 0) || (offset (snd h) mod sz =? 0) && ((sz <=? 4) || negb (src (snd h) =? 1)))
    (heads 0 prog).

(** ** The tests of the verifier, by the kind of the opcode *)
Lemma opcode_is_Some o i : opcode_is o i = true <-> opcode_of (opcode i) = Some o.
Proof. unfold opcode_is. rewrite opcode_of_Some. lia. Qed.

Lemma opcode_is_eq o o' i :
  opcode_of (opcode i) = Some o -> opcode_is o' i = bool_decide (o' = o).
Proof.
  intros H. apply eq_bool_prop_intro. rewrite !Is_true_true, opcode_is_Some, bool_decide_eq_true.
  split; congruence.
Qed.

Section ByKind.
  Context (i : ebpf_inst) (o : ebpf_op) (Ho : opcode_of (opcode i) = Some o).

Lemma is_store_kind : is_store_op i = match kind_of o with KStore => true | _ => false end.
Proof. unfold is_store_op. rewrite !(opcode_is_eq _ _ _ Ho). now destruct o. Qed.

Lemma load_sz_kind : load_sz i = match kind_of o with KLoad n => n | _ => 0 end.
Proof. unfold load_sz. rewrite !(opcode_is_eq _ _ _ Ho). now destruct o. Qed.

Lemma is_call_kind :
  opcode_is EBPF_OP_CALL i = match kind_of o with KCall => true | _ => false end.
Proof. rewrite (opcode_is_eq _ _ _ Ho). now destruct o. Qed.

Lemma is_exit_kind :
  opcode_is EBPF_OP_EXIT i = match kind_of o with KExit => true | _ => false end.
Proof. rewrite (opcode_is_eq _ _ _ Ho). now destruct o. Qed.

Lemma is_lddw_kind :
  opcode_is EBPF_OP_LDDW i = match kind_of o with KLddw => true | _ => false end.
Proof. rewrite (opcode_is_eq _ _ _ Ho). now destruct o. Qed.

Lemma is_jmp_kind :
  (Z.land (opcode i) EBPF_CLS_MASK =? EBPF_CLS_JMP) =
  match kind_of o with KJump | KCall | KExit => true | _ => false end.
Proof. apply opcode_of_Some in Ho as ->. now destruct o. Qed.
End ByKind.

(** ** The decoded program *)
Lemma decode_prog_lookup n code k i :
  decode_prog n code !! k = Some i -> inst_at code (Z.of_nat k) = Some i.
Proof.
  unfold inst_at. destruct (Z.ltb_spec (Z.of_nat k) 0) as [?|_]; [lia|]. rewrite Nat2Z.id.
  revert n code. induction k as [|k IH]; intros [|n] code H; cbn in H; try done;
    destruct (inst_of_bytes (take 8 code)) eqn:E; try done.
  - unfold slice. cbn. now rewrite drop_0, E.
  - apply IH in H. rewrite <- H. unfold slice. rewrite drop_drop. do 3 f_equal. lia.
Qed.

Lemma inst_of_bytes_8 bs : length bs = 8%nat -> inst_of_bytes bs <> None.
Proof. intros H. do 9 (destruct bs as [|? bs]; try discriminate). Qed.

Lemma decode_prog_length n code :
  (8 * n <= length code)%nat -> length (decode_prog n code) = n.
Proof.
  revert code. induction n as [|n IH]; intros code H; [done|]. cbn.
  destruct (inst_of_bytes (take 8 code)) eqn:E.
  - cbn. rewrite IH; [done|]. rewrite length_drop. lia.
  - exfalso. revert E. apply inst_of_bytes_8. rewrite length_take. lia.
Qed.

Lemma decode_prog_take n k code :
  (8 * n <= k)%nat -> decode_prog n (take k code) = decode_prog n code.
Proof.
  revert k code. induction n as [|n IH]; intros k code H; [done|]. cbn.
  rewrite take_take, Nat.min_l by lia. destruct (inst_of_bytes (take 8 code)); [|done].
  rewrite skipn_firstn_comm, IH by lia. done.
Qed.

(** The verifier reads only the [len] bytes it is told of. *)
Lemma verify_policy_take code len ms :
  0 <= len -> ifw_verify_policy (Some (take (Z.to_nat len) code)) len ms =
              ifw_verify_policy (Some code) len ms.
Proof.
  intros H. unfold ifw_verify_policy. destruct (_ || _); [done|]. destruct (_ <? _); [done|].
  rewrite decode_prog_take; [done|]. pose proof (Z.mul_div_le len 8 ltac:(lia)).
  pose proof (Z.div_pos len 8). lia.
Qed.

(** ** The heads of a program *)
Definition slots (i : ebpf_inst) : nat := if opcode_is EBPF_OP_LDDW i then 2 else 1.

Lemma heads_cons p i prog :
  heads p (i :: prog) = (p, i) :: heads (p + Z.of_nat (slots i)) (drop (slots i - 1) prog).
Proof.
  unfold slots. cbn [heads]. destruct (opcode_is EBPF_OP_LDDW i); cbn; [|done].
  destruct prog; cbn; [done|]. now rewrite drop_0.
Qed.

Lemma slots_pos i : (1 <= slots i <= 2)%nat.
Proof. unfold slots. destruct (opcode_is _ _); lia. Qed.

(** Induction along the heads. *)
Lemma heads_ind (P : Z -> list ebpf_inst -> Prop) :
  (forall p, P p []) ->
  (forall p i prog, P (p + Z.of_nat (slots i)) (drop (slots i - 1) prog) -> P p (i :: prog)) ->
  forall prog p, P p prog.
Proof.
  intros H0 HS prog. induction prog as [prog IH] using (well_founded_induction
    (Wf_nat.well_founded_ltof _ length)). unfold Wf_nat.ltof in IH. intros p.
  destruct prog as [|i prog]; [apply H0|]. apply HS, IH.
  rewrite length_drop. cbn. lia.
Qed.

Lemma heads_lookup p0 prog p i :
  (p, i) ∈ heads p0 prog -> p0 <= p /\ prog !! Z.to_nat (p - p0) = Some i.
Proof.
  revert prog p0. refine (heads_ind _ _ _).
  - intros p0 H. now apply not_elem_of_nil in H.
  - intros p0 x prog IH. rewrite heads_cons, elem_of_cons.
    intros [[= -> ->]|H]; [rewrite Z.sub_diag; split; [lia|done]|].
    apply IH in H as [Hle H]. rewrite lookup_drop in H. pose proof (slots_pos x).
    split; [lia|]. rewrite <- H.
    replace (Z.to_nat (p - p0)) with
      (S (slots x - 1 + Z.to_nat (p - (p0 + Z.of_nat (slots x)))))%nat by lia. done.
Qed.

Lemma heads_first p0 prog q j :
  (q, j) ∈ heads p0 prog -> exists i, (p0, i) ∈ heads p0 prog.
Proof.
  destruct prog as [|i prog]; intros H; [now apply not_elem_of_nil in H|].
  exists i. rewrite heads_cons. apply elem_of_cons. now left.
Qed.

(** Unless a head is the last one, the slot after it is a head. *)
Lemma heads_next p0 prog p i q j :
  (p, i) ∈ heads p0 prog -> (q, j) ∈ heads p0 prog -> p < q ->
  exists i', (p + Z.of_nat (slots i), i') ∈ heads p0 prog.
Proof.
  revert prog p0. refine (heads_ind _ _ _).
  - intros p0 H. now apply not_elem_of_nil in H.
  - intros p0 x prog IH. rewrite heads_cons, !elem_of_cons.
    intros [[= -> ->]|Hp] [[= -> ->]|Hq] Hlt; try lia.
    + apply heads_first in Hq as [i' Hi]. exists i'. now right.
    + pose proof (slots_pos x). apply heads_lookup in Hp. lia.
    + destruct (IH Hp Hq Hlt) as [i' Hi]. exists i'. now right.
Qed.

(** ** What acceptance means at a head *)
Lemma check_load_neg ms i : check_load ms i <= 0.
Proof. unfold check_load. repeat case_match; lia. Qed.

Lemma verify_inst_reject n ms p i e : verify_inst n ms p i = Reject e -> e < 0.
Proof.
  pose proof (check_load_neg ms i). unfold verify_inst.
  repeat case_match; intros [= <-]; lia.
Qed.

Lemma verify_inst_slots n ms p i :
  match verify_inst n ms p i with
  | Reject _ => True | Next _ => slots i = 1%nat | SkipSlot => slots i = 2%nat
  end.
Proof.
  assert (opcode_is EBPF_OP_LDDW i = true -> opcode_is EBPF_OP_EXIT i = false)
    by (intros H%opcode_is_Some; now rewrite (opcode_is_eq _ _ _ H)).
  unfold verify_inst, slots.
  repeat match goal with |- context [if ?b then _ else _] => destruct b eqn:? end;
    try done; naive_solver.
Qed.

Lemma verify_inst_exit n ms p i :
  match verify_inst n ms p i with
  | Reject _ => True | Next b => b = opcode_is EBPF_OP_EXIT i
  | SkipSlot => opcode_is EBPF_OP_EXIT i = false
  end.
Proof.
  unfold verify_inst.
  repeat match goal with |- context [if ?b then _ else _] => destruct b eqn:? end; done.
Qed.

(** The load is inside of the object its base register holds at entry. *)
Definition load_ok (ms : Z) (i : ebpf_inst) (size : Z) : Prop :=
  (src i = 1 /\ 0 <= offset i /\ offset i + size <= ms) \/
  (src i = 10 /\ - STACK_SIZE <= offset i /\ offset i + size <= 0).

Definition jump_ok (n p : Z) (i : ebpf_inst) : Prop :=
  0 <= offset i /\ p + 1 + offset i < n.

(** What the verifier promises of the instruction at a head. *)
Definition inst_allowed (n ms p : Z) (i : ebpf_inst) : Prop :=
  dst i < MAX_BPF_REG /\ src i < MAX_BPF_REG /\
  match kind_of <$> opcode_of (opcode i) with
  | Some KAlu | Some KExit => True
  | Some (KLoad size) => load_ok ms i size
  | Some KLddw => p + 1 < n
  | Some KJump => jump_ok n p i
  | Some KStore | Some KCall => False
  | None => Z.land (opcode i) EBPF_CLS_MASK = EBPF_CLS_JMP -> jump_ok n p i
  end.

Lemma check_load_ok ms i size :
  load_sz i = size -> 0 < size -> check_load ms i = 0 <-> load_ok ms i size.
Proof.
  intros Hs Hn. unfold check_load, load_ok. rewrite Hs.
  destruct (size =? 0) eqn:E; [lia|]. repeat case_match; lia.
Qed.

Lemma kind_load_pos o size : kind_of o = KLoad size -> 0 < size.
Proof. intros Hk. opcases o; injection Hk as <-; lia. Qed.

Lemma verify_inst_spec n ms p i :
  (forall e, verify_inst n ms p i <> Reject e) <-> inst_allowed n ms p i.
Proof.
  unfold inst_allowed. unfold verify_inst, jump_ok.
  destruct ((MAX_BPF_REG <=? dst i) || (MAX_BPF_REG <=? src i)) eqn:Hr.
  { split; [intros H; now destruct (H (-12))|lia]. }
  destruct (opcode_of (opcode i)) as [o|] eqn:Ho; cbn [fmap option_fmap option_map].
  - rewrite (is_call_kind i o Ho), (is_exit_kind i o Ho), (is_store_kind i o Ho),
      (is_lddw_kind i o Ho), (is_jmp_kind i o Ho).
    pose proof (load_sz_kind i o Ho) as Hz. pose proof (kind_load_pos o) as Hpos.
    assert (Hc : load_sz i = 0 -> check_load ms i = 0) by (unfold check_load; now intros ->).
    destruct (kind_of o) as [|size| | | | |];
      try (rewrite (Hc Hz); cbn [Z.eqb negb]).
    2: pose proof (check_load_ok ms i size Hz (Hpos _ eq_refl));
       destruct (check_load ms i =? 0) eqn:E; cbn [negb].
    all: repeat case_match; split; intros H';
      try (intros e; discriminate); try lia; try (exfalso; eapply H'; reflexivity).
    + apply Z.eqb_eq, H in E. split; [lia|split; [lia|done]].
    + destruct H' as (_ & _ & H'%H). lia.
  - assert (Hn : forall o, opcode_is o i = false).
    { intros o. apply not_true_iff_false. rewrite opcode_is_Some. congruence. }
    unfold is_store_op, check_load, load_sz. rewrite !Hn. cbn.
    repeat case_match; split; intros H'; try (intros e; discriminate); try lia;
      try (exfalso; eapply H'; reflexivity).
Qed.

Lemma allowed_cons (Q : Z -> ebpf_inst -> Prop) (E : ebpf_inst -> bool) p x hs seen :
  Q p x ->
  (forall q i, (q, i) ∈ hs -> Q q i) /\
    (seen || E x = true \/ exists q i, (q, i) ∈ hs /\ E i = true) <->
  (forall q i, (q, i) ∈ (p, x) :: hs -> Q q i) /\
    (seen = true \/ exists q i, (q, i) ∈ (p, x) :: hs /\ E i = true).
Proof.
  intros Hx. setoid_rewrite elem_of_cons. rewrite orb_true_iff. split; intros [H He]; split.
  - intros q i [[= -> ->]|Hi]; auto.
  - destruct He as [[?|?]|(q & i & ? & ?)]; [by left|right; exists p, x; auto|].
    right. exists q, i. auto.
  - auto.
  - destruct He as [?|(q & i & [[= -> ->]|?] & ?)]; auto. right. exists q, i. auto.
Qed.

(** The scan accepts when every head is allowed and one of them is an EXIT. *)
Lemma verify_loop_spec n ms p0 prog seen :
  n = p0 + Z.of_nat (length prog) ->
  verify_loop n ms p0 prog seen = 0 <->
  (forall p i, (p, i) ∈ heads p0 prog -> inst_allowed n ms p i) /\
  (seen = true \/ exists p i, (p, i) ∈ heads p0 prog /\ opcode_is EBPF_OP_EXIT i = true).
Proof.
  revert prog p0 seen. refine (heads_ind _ _ _).
  - intros p0 seen _. cbn. destruct seen; split; try done.
    + intros _. split; [|by left]. intros p i H. now apply not_elem_of_nil in H.
    + intros (_ & [?|(p & i & H & _)]); [done|]. now apply not_elem_of_nil in H.
  - intros p0 x prog IH seen Hn. rewrite heads_cons. cbn [verify_loop].
    pose proof (verify_inst_slots n ms p0 x) as Hs.
    pose proof (verify_inst_spec n ms p0 x) as Hx.
    pose proof (verify_inst_exit n ms p0 x) as He.
    destruct (verify_inst n ms p0 x) as [e|b|] eqn:E.
    + split; [intros ->; now apply verify_inst_reject in E|].
      intros (H & _). exfalso.
      assert (Hr : inst_allowed n ms p0 x) by (apply H, elem_of_cons; now left).
      now apply (proj2 Hx Hr e).
    + rewrite Hs in IH |- *. cbn in IH, Hn |- *. rewrite drop_0 in *.
      rewrite (IH (seen || b)) by lia. rewrite He.
      assert (Ha : inst_allowed n ms p0 x) by (apply Hx; congruence).
      now apply allowed_cons.
    + destruct prog as [|y prog].
      { assert (Ha : inst_allowed n ms p0 x) by (apply Hx; congruence).
        unfold verify_inst in E. repeat case_match; try discriminate. cbn in Hn. lia. }
      rewrite Hs in IH |- *. cbn in IH, Hn |- *. rewrite drop_0 in *. rewrite IH by lia.
      assert (Ha : inst_allowed n ms p0 x) by (apply Hx; congruence).
      rewrite <- allowed_cons by done. now rewrite He, orb_false_r.
Qed.

(** ** Execution of an accepted program *)

(** [r] is a result that satisfies [P], or the program divided by zero or
    shifted too far, which [arith] excludes. *)
Definition safe {A} (arith : bool) (P : A -> Prop) (r : res A) : Prop :=
  match r with
  | Ok a => P a
  | Crash DivByZero | Crash ShiftUB => arith = false
  | _ => False
  end.

(** Where the objects of an execution lie: below 2^32, as pointers do, and aligned for
    their type, which is [int] for the monitor state and [u64] for the frame. *)
Definition placed (al base len : Z) : Prop := 0 <= base /\ base + len <= 2 ^ 32 /\ base mod al = 0.

Section Sound.
  Context (code : list Z) (checked : bool)
          (helpers : option (list (option ext_func))) (mem_len : Z).
  Context (prog : list ebpf_inst) (ms : Z) (m0 : memory).
  Context (Hbytes : Forall (fun b => is_byte b = true) code).
  Context (Hprog : forall k i, prog !! k = Some i -> inst_at code (Z.of_nat k) = Some i).
  Context (Hsize : Z.of_nat (length prog) <= IFW_RUNTIME_MAX_INSTS).

Abbreviation n := (Z.of_nat (length prog)).
Abbreviation hs := (heads 0 prog).

  Context (Hacc : forall p i, (p, i) ∈ hs -> inst_allowed n ms p i).
  Context (Hclosed : policy_closed prog = true).
  Context (Haligned : policy_aligned prog = true).
  Context (Hms : ms <= Z.of_nat (length (mem_bytes m0))).
  Context (Hmem : placed 4 (mem_base m0) (Z.of_nat (length (mem_bytes m0)))).
  Context (Hstk : placed 8 (stk_base m0) STACK_SIZE).
  Context (Hstk_len : Z.of_nat (length (stk_bytes m0)) = STACK_SIZE).

(** The value a base register has at entry. *)
Definition entry_reg (r : Z) : Z :=
  if r =? 1 then mem_base m0 else u32 (stk_base m0 + STACK_SIZE).

Definition is_base (r : Z) : Prop := r = 1 \/ r = 10.

Record exec_inv (c : cpu) : Prop := ExecInv {
  inv_head : exists i, (pc c, i) ∈ hs;
  inv_regs : length (regs c) = 12%nat;
  inv_mem : cmem c = m0;
  inv_base r : is_base r -> written_before hs (pc c) r = false ->
    arr_get (regs c) r = Some (entry_reg r);
}.

(** One iteration goes forward or returns, and leaves the memory as it was. *)
Definition good_signal (p : Z) (s : signal) : Prop :=
  match s with
  | Continue c => exec_inv c /\ p < pc c
  | Return _ m => m = m0
  end.

Lemma head_inst p i : (p, i) ∈ hs -> inst_at code p = Some i /\ 0 <= p < n.
Proof.
  intros [Hp Hi]%heads_lookup. rewrite Z.sub_0_r in Hi.
  pose proof (lookup_lt_Some _ _ _ Hi). apply Hprog in Hi.
  rewrite Z2Nat.id in Hi by lia. split; [done|lia].
Qed.

Lemma head_regs p i : (p, i) ∈ hs -> 0 <= dst i < 11 /\ 0 <= src i < 11.
Proof.
  intros H. pose proof (Hacc _ _ H) as (Hd & Hs & _).
  apply head_inst in H as [H _]. apply inst_at_wf in H; [|done].
  unfold inst_wf in H. unfold MAX_BPF_REG in *. lia.
Qed.

Lemma last_exit : exists i, (n - 1, i) ∈ hs /\ opcode_is EBPF_OP_EXIT i = true.
Proof.
  unfold policy_closed in Hclosed. apply andb_prop in Hclosed as [[_ H]%andb_prop _].
  apply existsb_exists in H as ([p i] & Hin & H). cbn in H.
  apply andb_prop in H as [Hp He]. exists i. split; [|done].
  replace (n - 1) with p by lia. now apply list_elem_of_In.
Qed.

Lemma next_head p i :
  (p, i) ∈ hs -> opcode_is EBPF_OP_EXIT i = false ->
  exists i', (p + Z.of_nat (slots i), i') ∈ hs.
Proof.
  intros Hp He. destruct last_exit as (j & Hj & Hx).
  eapply heads_next; [exact Hp|exact Hj|].
  pose proof (head_inst _ _ Hp) as [Hi ?]. pose proof (head_inst _ _ Hj) as [Hi' _].
  destruct (decide (p = n - 1)) as [->|]; [congruence|lia].
Qed.

Lemma jump_head p i :
  (p, i) ∈ hs -> is_jump i = true -> exists i', (p + 1 + offset i, i') ∈ hs.
Proof.
  intros Hp Hj. unfold policy_closed in Hclosed.
  apply andb_prop in Hclosed as [[H _]%andb_prop _].
  apply list_elem_of_In in Hp. rewrite forallb_forall in H. apply H in Hp. cbn in Hp.
  rewrite Hj in Hp. unfold at_head in Hp. cbn in Hp.
  apply existsb_exists in Hp as ([q j] & Hq & He). cbn in He.
  exists j. replace (p + 1 + offset i) with q by lia. now apply list_elem_of_In.
Qed.

Lemma load_base p i :
  (p, i) ∈ hs -> load_sz i <> 0 -> written_before hs p (src i) = false.
Proof.
  intros Hp Hz. unfold policy_closed in Hclosed. apply andb_prop in Hclosed as [_ H].
  rewrite forallb_forall in H. apply list_elem_of_In, H in Hp. cbn in Hp.
  destruct (written_before hs p (src i)); [lia|done].
Qed.

Lemma written_before_le p q r i :
  (p, i) ∈ hs -> p < q -> written_before hs q r = false ->
  written_before hs p r = false /\ writes r i = false.
Proof.
  intros Hi Hpq H. unfold written_before in *.
  rewrite <- not_true_iff_false, existsb_exists in H |- *.
  split.
  - intros ([p' i'] & Hin & Hw). apply H. exists (p', i'). split; [done|].
    cbn in *. rewrite andb_true_iff in *. destruct Hw. split; [lia|done].
  - rewrite <- not_true_iff_false. intros Hw. apply H. exists (p, i).
    split; [now apply list_elem_of_In|]. cbn. rewrite andb_true_iff. split; [lia|done].
Qed.

(** The state after an instruction that goes on at head [q]. *)
Lemma exec_inv_next c i q rs :
  exec_inv c -> (pc c, i) ∈ hs -> pc c < q -> (exists j, (q, j) ∈ hs) ->
  rs = regs c \/ (exists v, rs = <[Z.to_nat (dst i) := v]> (regs c) /\ writes (dst i) i = true) ->
  good_signal (pc c) (Continue (Cpu q rs m0)).
Proof.
  intros [_ Hl Hm Hb] Hi Hq Hj Hrs. split; [|done]. constructor; cbn; [done| |done|].
  - destruct Hrs as [->|(v & -> & _)]; [done|]. now rewrite length_insert.
  - intros r Hr Hw. eapply written_before_le in Hw as [Hw Hwi]; [|eassumption..].
    specialize (Hb r Hr Hw). destruct Hrs as [->|(v & -> & Hv)]; [done|].
    assert (dst i <> r) by congruence.
    pose proof (head_regs _ _ Hi) as [? _].
    unfold arr_get in *. rewrite length_insert, list_lookup_insert_ne; [done|].
    destruct Hr; lia.
Qed.

Lemma load_aligned p i :
  (p, i) ∈ hs -> load_sz i <> 0 ->
  offset i mod load_sz i = 0 /\ (src i = 1 -> load_sz i <= 4) /\
  (load_sz i = 1 \/ load_sz i = 2 \/ load_sz i = 4 \/ load_sz i = 8).
Proof.
  intros Hp Hz. unfold policy_aligned in Haligned. rewrite forallb_forall in Haligned.
  apply list_elem_of_In, Haligned in Hp. cbn [snd] in Hp. cbv zeta in Hp.
  split; [lia|]. split; [lia|]. unfold load_sz in *. repeat case_match; lia.
Qed.

Lemma cload_in_region c i size :
  exec_inv c -> (pc c, i) ∈ hs -> 0 < size -> load_sz i = size -> load_ok ms i size ->
  exists s v, arr_get (regs c) (src i) = Some s /\ cload m0 (u32 (s + offset i)) size = Ok v.
Proof.
  intros [_ Hl Hm Hb] Hi Hpos Hz Hok.
  assert (Hw : written_before hs (pc c) (src i) = false) by (apply load_base; [done|lia]).
  destruct (load_aligned _ _ Hi ltac:(lia)) as (Hal & Hal4 & Hsz). rewrite Hz in *.
  exists (entry_reg (src i)).
  assert (Hbase : is_base (src i)) by (unfold load_ok in Hok; unfold is_base; lia).
  rewrite (Hb _ Hbase Hw). destruct Hmem as (Hm0 & Hm1 & Hm2), Hstk as (Hs0 & Hs1 & Hs2).
  unfold entry_reg. destruct Hok as [(E & Ho1 & Ho2)|(E & Ho1 & Ho2)]; rewrite E in *; cbn [Z.eqb Pos.eqb].
  - rewrite (u32_small (mem_base m0 + offset i)) by lia.
    rewrite cload_aligned by (apply (aligned_access 4); auto). unfold mload, in_region.
    replace (_ && _) with true by lia. eauto.
  - assert (Ha : u32 (u32 (stk_base m0 + STACK_SIZE) + offset i)
                 = stk_base m0 + STACK_SIZE + offset i).
    { unfold u32. rewrite Zplus_mod_idemp_l. apply Z.mod_small. unfold STACK_SIZE in *. lia. }
    rewrite Ha, cload_aligned.
    + unfold mload, in_region. case_match; [eauto|]. replace (_ && _) with true by lia. eauto.
    + apply (aligned_access 8); auto; [|lia]. unfold STACK_SIZE.
      rewrite Zplus_mod, Hs2. reflexivity.
Qed.

(** The registers of the machine that [step] dispatches on. *)
Abbreviation fetched c := (Cpu (u16 (pc c + 1)) (regs c) m0).

Lemma load_step c i size :
  exec_inv c -> (pc c, i) ∈ hs -> opcode_is EBPF_OP_EXIT i = false ->
  slots i = 1%nat -> writes (dst i) i = true ->
  0 < size -> load_sz i = size -> load_ok ms i size ->
  exists s, step_load checked mem_len (fetched c) i size = Ok s /\ good_signal (pc c) s.
Proof.
  intros Hc Hi He Hsl Hw Hpos Hz Hok. pose proof (head_regs _ _ Hi) as [Hd Hs].
  pose proof (head_inst _ _ Hi) as [_ Hp].
  destruct (cload_in_region _ _ _ Hc Hi Hpos Hz Hok) as (s & v & Es & Ev).
  unfold step_load, BOUNDS_CHECK, get_reg. cbn. rewrite Es. cbn.
  case_match; [eexists; now split|]. rewrite Ev. cbn.
  rewrite set_reg_ok by (cbn; destruct Hc; lia). eexists. split; [done|]. cbn.
  destruct (next_head _ _ Hi He) as [j Hj]. rewrite Hsl in Hj.
  unfold IFW_RUNTIME_MAX_INSTS in Hsize. rewrite u16_small by lia.
  eapply exec_inv_next; [exact Hc|exact Hi|lia|eauto|eauto].
Qed.

Lemma head_arith p i o :
  (p, i) ∈ hs -> opcode_of (opcode i) = Some o -> policy_arith prog = true ->
  arith_total i o = true.
Proof.
  intros Hp Ho Ha. unfold policy_arith in Ha. rewrite forallb_forall in Ha.
  apply list_elem_of_In, Ha in Hp. cbn [snd] in Hp. now rewrite Ho in Hp.
Qed.

Lemma fall_through c i rs :
  exec_inv c -> (pc c, i) ∈ hs -> opcode_is EBPF_OP_EXIT i = false -> slots i = 1%nat ->
  rs = regs c \/ (exists v, rs = <[Z.to_nat (dst i) := v]> (regs c) /\ writes (dst i) i = true) ->
  good_signal (pc c) (Continue (Cpu (u16 (pc c + 1)) rs m0)).
Proof.
  intros Hc Hi He Hsl Hrs. pose proof (head_inst _ _ Hi) as [_ Hp].
  destruct (next_head _ _ Hi He) as [j Hj]. rewrite Hsl in Hj.
  unfold IFW_RUNTIME_MAX_INSTS in Hsize. rewrite u16_small by lia.
  eapply exec_inv_next; eauto; lia.
Qed.

Lemma jump_step c i o b :
  exec_inv c -> (pc c, i) ∈ hs -> opcode_of (opcode i) = Some o -> kind_of o = KJump ->
  exists s, jump (fetched c) i b = Ok s /\ good_signal (pc c) s.
Proof.
  intros Hc Hi Ho Hk.
  assert (He : opcode_is EBPF_OP_EXIT i = false) by now rewrite (is_exit_kind _ _ Ho), Hk.
  assert (Hsl : slots i = 1%nat) by (unfold slots; now rewrite (is_lddw_kind _ _ Ho), Hk).
  eexists. split; [done|]. destruct b; [|apply (fall_through c i); auto].
  pose proof (Hacc _ _ Hi) as (_ & _ & Hj). rewrite Ho in Hj. cbn in Hj. rewrite Hk in Hj.
  unfold jump_ok in Hj.
  pose proof (head_inst _ _ Hi) as [_ Hp]. unfold IFW_RUNTIME_MAX_INSTS in Hsize. cbn.
  rewrite (u16_small (pc c + 1)), u16_small by lia.
  apply (exec_inv_next c i); auto; [lia|]. apply jump_head; [done|].
  unfold is_jump. rewrite (is_jmp_kind _ _ Ho), Hk, He. done.
Qed.

Lemma lddw_step c i :
  exec_inv c -> (pc c, i) ∈ hs -> opcode_of (opcode i) = Some EBPF_OP_LDDW ->
  exists s, dispatch code checked helpers mem_len (fetched c) i EBPF_OP_LDDW = Ok s /\
    good_signal (pc c) s.
Proof.
  intros Hc Hi Ho. pose proof (head_regs _ _ Hi) as [Hd Hs].
  assert (He : opcode_is EBPF_OP_EXIT i = false) by now rewrite (is_exit_kind _ _ Ho).
  assert (Hsl : slots i = 2%nat) by (unfold slots; now rewrite (is_lddw_kind _ _ Ho)).
  pose proof (head_inst _ _ Hi) as [_ Hp].
  destruct (next_head _ _ Hi He) as [j Hj]. rewrite Hsl in Hj.
  pose proof (head_inst _ _ Hj) as [_ Hp']. unfold IFW_RUNTIME_MAX_INSTS in Hsize.
  destruct (lookup_lt_is_Some_2 prog (Z.to_nat (pc c + 1))) as [hi Hhi]; [lia|].
  apply Hprog in Hhi. rewrite Z2Nat.id in Hhi by lia.
  cbn. rewrite (u16_small (pc c + 1)), Hhi by lia. cbn.
  rewrite set_reg_ok by (cbn; destruct Hc; lia). eexists. split; [done|]. cbn.
  rewrite u16_small by lia.
  apply (exec_inv_next c i); [done|done|lia|exists j; by replace (pc c + 1 + 1) with (pc c + Z.of_nat 2) by lia|].
  right. eexists. split; [done|]. unfold writes. rewrite Ho. cbn. lia.
Qed.

Lemma writes_dst i o :
  opcode_of (opcode i) = Some o ->
  match kind_of o with KAlu | KLoad _ | KLddw => writes (dst i) i = true | _ => True end.
Proof. intros Ho. unfold writes. rewrite Ho. destruct (kind_of o); try done; lia. Qed.

Lemma step_safe c :
  exec_inv c ->
  safe (policy_arith prog) (good_signal (pc c)) (step code checked helpers mem_len c).
Proof.
  intros Hc. destruct (inv_head _ Hc) as [i Hi].
  pose proof (head_inst _ _ Hi) as [Hf Hp]. pose proof (head_regs _ _ Hi) as [Hd Hs].
  unfold step. rewrite Hf. cbn. rewrite (inv_mem _ Hc).
  assert (Hlen : length (regs (fetched c)) = 12%nat) by apply Hc.
  destruct (opcode_of (opcode i)) as [o|] eqn:Ho.
  2: { assert (Hn : forall o, opcode_is o i = false).
       { intros o. apply not_true_iff_false. rewrite opcode_is_Some. congruence. }
       apply (fall_through c i); auto. unfold slots. now rewrite Hn. }
  pose proof (Hacc _ _ Hi) as (_ & _ & Hk). rewrite Ho in Hk. cbn in Hk.
  pose proof (writes_dst _ _ Ho) as Hw.
  pose proof (is_exit_kind _ _ Ho) as He. pose proof (is_lddw_kind _ _ Ho) as Hl.
  destruct (kind_of o) as [|size| | | | |] eqn:Ek; try done.
  - assert (Hsl : slots i = 1%nat) by (unfold slots; now rewrite Hl).
    destruct (dispatch_alu code checked helpers mem_len (fetched c) i o) as [Ha Hn];
      [done|lia|lia|done|].
    assert (Ht := head_arith _ _ _ Hi Ho).
    destruct Ha; cbn; try done.
    + apply (fall_through c i); eauto.
    + apply (fall_through c i); auto.
    + destruct (policy_arith prog); [|done]. now destruct (Hn (Ht eq_refl)).
    + destruct (policy_arith prog); [|done]. now destruct (Hn (Ht eq_refl)).
  - assert (Hsl : slots i = 1%nat) by (unfold slots; now rewrite Hl).
    rewrite (dispatch_load _ _ _ _ _ _ _ _ Ek).
    assert (0 < size) by (destruct o; try discriminate; injection Ek as <-; lia).
    destruct (load_step c i size) as (s & -> & Hg); auto.
    rewrite (load_sz_kind _ _ Ho), Ek. done.
  - apply dispatch_lddw in Ek as ->. now destruct (lddw_step c i) as (s & -> & Hg).
  - destruct (dispatch_jump code checked helpers mem_len (fetched c) i o) as [b ->];
      [done|lia|lia|done|]. now destruct (jump_step c i o b) as (s & -> & Hg).
  - rewrite (dispatch_exit _ _ _ _ _ _ _ Ek).
    destruct (get_reg_ok (fetched c) 0) as [v ->]; [done|lia|]. done.
Qed.

Lemma run_safe fuel c :
  exec_inv c -> n - pc c <= Z.of_nat fuel ->
  safe (policy_arith prog) (fun r => r.2 = m0) (run code checked helpers mem_len fuel c).
Proof.
  revert c. induction fuel as [|fuel IH]; intros c Hc Hf.
  { destruct (inv_head _ Hc) as [i Hi]. apply head_inst in Hi. lia. }
  cbn. pose proof (step_safe c Hc) as Hs.
  destruct (step code checked helpers mem_len c) as [[c'|v m]|f|]; cbn in *; try done.
  destruct Hs as [Hc' Hlt]. apply IH; [done|lia].
Qed.
End Sound.

(** ** The contract of [ifw_verify_policy] *)

(** The program of a buffer whose length is a multiple of 8. *)
Definition program (code : list Z) : list ebpf_inst := decode_prog (length code / 8) code.

Lemma program_length code : length (program code) = (length code / 8)%nat.
Proof.
  apply decode_prog_length. pose proof (Nat.div_mod_eq (length code) 8). lia.
Qed.

(** What acceptance says of a buffer. *)
Definition policy_allowed (code : list Z) (ms : Z) : Prop :=
  let n := Z.of_nat (length (program code)) in
  Z.of_nat (length code) = 8 * n /\ 0 < n <= IFW_RUNTIME_MAX_INSTS /\
  (forall p i, (p, i) ∈ heads 0 (program code) -> inst_allowed n ms p i) /\
  (exists p i, (p, i) ∈ heads 0 (program code) /\ opcode_is EBPF_OP_EXIT i = true).

Lemma verify_policy_allowed code ms :
  ifw_verify_policy (Some code) (Z.of_nat (length code)) ms = 0 <-> policy_allowed code ms.
Proof.
  unfold ifw_verify_policy, policy_allowed. cbn zeta. rewrite program_length.
  unfold program. set (L := length code).
  assert (Hd : Z.to_nat (Z.of_nat L / 8) = (L / 8)%nat)
    by (apply Nat2Z.inj; rewrite Nat2Z.inj_div, Z2Nat.id; [done|apply Z.div_pos; lia]).
  rewrite Hd, Nat2Z.inj_div. change (Z.of_nat 8) with 8.
  pose proof (Z.div_mod (Z.of_nat L) 8 ltac:(lia)).
  pose proof (Z.mod_pos_bound (Z.of_nat L) 8 ltac:(lia)).
  destruct ((Z.of_nat L =? 0) || negb (Z.of_nat L mod 8 =? 0)) eqn:E1; [split; lia|].
  destruct (IFW_RUNTIME_MAX_INSTS <? Z.of_nat L / 8) eqn:E2; [split; lia|].
  rewrite verify_loop_spec.
  - split; [intros [H1 [?|H2]]; [done|]|intros (_ & _ & ? & ?); auto].
    split; [lia|]. split; [lia|auto].
  - rewrite decode_prog_length; [|fold L; lia]. rewrite Nat2Z.inj_div. lia.
Qed.

(** C14 — The structural verifier of runtime policies ([ifw_verify_policy])
    accepts a buffer exactly when its length is that of 1 to 64 whole
    instructions, one of the scanned instructions is EXIT and each of them is
    allowed: registers below 11, no store and no helper call, a load through r1
    inside of the object of [mem_size] bytes or through r10 inside of the 128
    bytes of stack, a second slot for LDDW, and jumps that go forward and stay in
    the program. *)
Theorem ifw_verify_policy_spec code ms :
  ifw_verify_policy (Some code) (Z.of_nat (length code)) ms = 0 <-> policy_allowed code ms.
Proof. apply verify_policy_allowed. Qed.

(** Every rejection is one of the documented codes. *)
Lemma verify_inst_codes n ms p i e : verify_inst n ms p i = Reject e -> -20 <= e <= -12.
Proof.
  unfold verify_inst, check_load.
  repeat match goal with |- context [if ?b then _ else _] => destruct b eqn:? end;
    intros [= <-]; lia.
Qed.

Lemma verify_loop_codes n ms p0 prog seen : -21 <= verify_loop n ms p0 prog seen <= 0.
Proof.
  revert prog p0 seen. refine (heads_ind _ _ _).
  - intros p0 seen. cbn. destruct seen; lia.
  - intros p0 x prog IH seen. cbn [verify_loop].
    pose proof (verify_inst_slots n ms p0 x) as Hs.
    destruct (verify_inst n ms p0 x) as [e|b|] eqn:E.
    + apply verify_inst_codes in E. lia.
    + rewrite Hs in IH. cbn in IH. rewrite drop_0 in IH. apply IH.
    + destruct prog as [|y prog]; [lia|]. rewrite Hs in IH. cbn in IH.
      rewrite drop_0 in IH. apply IH.
Qed.

(** ** Safety of the execution of an accepted policy *)
Lemma init_inv prog mem stack bytes :
  prog <> [] -> exec_inv prog (Memory mem bytes stack (replicate (Z.to_nat STACK_SIZE) 0))
    (init_cpu mem stack bytes).
Proof.
  intros Hne. constructor; try done.
  - destruct prog as [|i prog]; [done|]. exists i. rewrite heads_cons. apply elem_of_cons. by left.
  - intros r [->| ->] _; done.
Qed.

Lemma verified_run code ms mem stack bytes checked helpers mem_len :
  Forall (fun b => is_byte b = true) code ->
  ifw_verify_policy (Some code) (Z.of_nat (length code)) ms = 0 ->
  policy_closed (program code) = true -> policy_aligned (program code) = true ->
  ms <= Z.of_nat (length bytes) ->
  placed 4 mem (Z.of_nat (length bytes)) -> placed 8 stack STACK_SIZE ->
  safe (policy_arith (program code)) (fun r => r.2 = cmem (init_cpu mem stack bytes))
    (run code checked helpers mem_len (length code / 8) (init_cpu mem stack bytes)).
Proof.
  intros Hb (Hl & Hn & Ha & _)%verify_policy_allowed Hc Hal Hms Hmem Hstk.
  apply (run_safe _ _ _ _ (program code) ms (cmem (init_cpu mem stack bytes))); auto.
  - apply decode_prog_lookup.
  - lia.
  - apply init_inv. intros E. rewrite E in Hn. cbn in Hn. lia.
  - cbn [pc init_cpu]. rewrite program_length. lia.
Qed.

(** C1 — An accepted policy that is closed (its jumps avoid the second slot of an
    LDDW, it ends in EXIT, and its base registers are intact at loads), divides and
    shifts only by fixed legal amounts and whose loads are aligned always returns a
    value, within as many iterations as it has instructions and for any larger fuel;
    the object it runs on, which is aligned for [int], and its stack are unchanged, and
    no access leaves them or is misaligned. This holds with and without the bounds
    checks and whatever the helpers are. *)
Theorem verified_policy_total h vm code ms mem stack bytes mem_len :
  insts vm = Some code ->
  Forall (fun b => is_byte b = true) code ->
  ifw_verify_policy (Some code) (Z.of_nat (length code)) ms = 0 ->
  policy_closed (program code) = true ->
  policy_arith (program code) = true ->
  policy_aligned (program code) = true ->
  ms <= Z.of_nat (length bytes) ->
  placed 4 mem (Z.of_nat (length bytes)) -> placed 8 stack STACK_SIZE ->
  exists v, forall fuel, (length code / 8 <= fuel)%nat ->
    ebpf_vm_exec h vm mem stack bytes mem_len fuel =
    Ok (v, cmem (init_cpu mem stack bytes)).
Proof.
  intros Hi Hb Hv Hc Ha Hal Hms Hmem Hstk. unfold ebpf_vm_exec. rewrite Hi.
  cbn [of_option mbind res_bind].
  set (helpers := p ← helper_func vm; _).
  pose proof (verified_run code ms mem stack bytes (bounds_check_enabled vm) helpers mem_len
    Hb Hv Hc Hal Hms Hmem Hstk) as Hs. rewrite Ha in Hs. unfold safe in Hs.
  destruct (run code (bounds_check_enabled vm) helpers mem_len (length code / 8)
    (init_cpu mem stack bytes)) as [[v m]|[]|] eqn:E; try done.
  cbn [snd] in Hs. subst m. exists v. intros fuel Hf.
  rewrite (run_mono _ _ _ _ (length code / 8) fuel); [done|done|congruence].
Qed.

(** ** What acceptance alone does not give *)
Definition encode (prog : list ebpf_inst) : list Z := concat (map inst_bytes prog).

Definition Op (o : ebpf_op) (d s off im : Z) : ebpf_inst := EbpfInst (opcode_code o) d s off im.

(** A machine that runs [code] with the bounds checks off, as [ebpf_create] and
    [ebpf_vm_set_inst] leave it. *)
Definition vm_of (code : list Z) : ebpf_vm :=
  ebpf_vm_set_inst (EbpfVm None 0 false None None false) code (Z.of_nat (length code)).

(** [r0 = *(u32 * )(r1 + 4); exit] *)
Definition read_policy : list Z :=
  encode [Op EBPF_OP_LDXW 0 1 4 0; Op EBPF_OP_EXIT 0 0 0 0].

Lemma verified_policy_total_witness :
  exists v, forall fuel, (2 <= fuel)%nat ->
    ebpf_vm_exec (HelperHeap [] None) (vm_of read_policy) 0x20000000 0x20001000
      [1; 0; 0; 0; 7; 0; 0; 0] 8 fuel =
    Ok (v, cmem (init_cpu 0x20000000 0x20001000 [1; 0; 0; 0; 7; 0; 0; 0])).
Proof.
  apply (verified_policy_total _ (vm_of read_policy) read_policy 8);
    try reflexivity; try (vm_compute; repeat split; congruence).
  repeat constructor.
Defined.

(** [0: goto 2; 1: lddw (second slot: goto 2); 3: exit] *)
Definition loop_policy : list Z :=
  encode [Op EBPF_OP_JA 0 0 1 0; Op EBPF_OP_LDDW 0 0 0 0;
          Op EBPF_OP_JA 0 0 (-1) 0; Op EBPF_OP_EXIT 0 0 0 0].

Lemma loop_policy_spins checked helpers mem_len fuel c :
  pc c = 2 -> run loop_policy checked helpers mem_len fuel c = Timeout.
Proof.
  revert c. induction fuel as [|fuel IH]; intros [p rs m] Hp; [done|].
  cbn in Hp. subst p. exact (IH (Cpu 2 rs m) eq_refl).
Qed.

(** C35 — Acceptance alone does not bound the execution: the verifier accepts a
    program of four instructions that jumps to the second slot of an LDDW, which
    the scan skips and which holds a jump to itself, so no amount of fuel ends
    [ebpf_vm_exec] on it. *)
Theorem accepted_may_diverge :
  exists code, (forall ms, ifw_verify_policy (Some code) (Z.of_nat (length code)) ms = 0) /\
    forall h mem stack bytes mem_len fuel,
      ebpf_vm_exec h (vm_of code) mem stack bytes mem_len fuel = Timeout.
Proof.
  exists loop_policy. split; [reflexivity|]. intros.
  destruct fuel as [|fuel]; [done|]. destruct (init_cpu mem stack bytes) as [p rs m] eqn:E.
  injection E as <- <- <-.
  exact (loop_policy_spins _ _ _ fuel (Cpu 2 _ (Memory mem bytes stack _)) eq_refl).
Qed.

(** [0: goto 2; 1: lddw (second slot: *(u32 * )(r1 + off) = val); 3: exit] *)
Definition write_policy (off val : Z) : list Z :=
  encode [Op EBPF_OP_JA 0 0 1 0; Op EBPF_OP_LDDW 0 0 0 0;
          Op EBPF_OP_STW 1 0 off val; Op EBPF_OP_EXIT 0 0 0 0].

(** The store in the hidden slot is executed from the second step on. *)
Lemma write_policy_runs off val checked helpers mem_len rs m m' fuel :
  - 2 ^ 15 <= off < 2 ^ 15 -> - 2 ^ 31 <= val < 2 ^ 31 ->
  step_store checked mem_len (Cpu 3 rs m) (Op EBPF_OP_STW 1 0 off val) 4 (Ok val) =
    Ok (Continue (Cpu 3 rs m')) ->
  get_reg (Cpu 4 rs m') 0 = Ok 0 ->
  run (write_policy off val) checked helpers mem_len (3 + fuel) (Cpu 0 rs m) = Ok (0, m').
Proof.
  intros Ho Hv Hst H0.
  assert (H2 : inst_at (write_policy off val) 2 = Some (Op EBPF_OP_STW 1 0 off val)).
  { change (inst_of_bytes (inst_bytes (Op EBPF_OP_STW 1 0 off val)) = Some (Op EBPF_OP_STW 1 0 off val)).
    apply inst_of_bytes_bytes. unfold inst_wf, Op, is_byte. cbn [opcode dst src offset imm].
    change (opcode_code EBPF_OP_STW) with 98. lia. }
  assert (E0 : step (write_policy off val) checked helpers mem_len (Cpu 0 rs m) = Ok (Continue (Cpu 2 rs m)))
    by reflexivity.
  assert (E2 : step (write_policy off val) checked helpers mem_len (Cpu 2 rs m) = Ok (Continue (Cpu 3 rs m'))).
  { unfold step. cbn [pc]. rewrite H2. exact Hst. }
  assert (E3 : step (write_policy off val) checked helpers mem_len (Cpu 3 rs m') = Ok (Return 0 m')).
  { change (step _ _ _ _ _) with (r0 ← get_reg (Cpu 4 rs m') 0; Ok (Return r0 m')). now rewrite H0. }
  cbn [Nat.add run]. rewrite E0. cbn [mbind res_bind run]. rewrite E2. cbn [mbind res_bind run]. now rewrite E3.
Qed.

(** C36 — Acceptance alone does not make a policy read-only: for every word of the
    state and every value, the verifier accepts a program, whatever the size of the
    state it is told, that hides a store in the second slot of an LDDW and jumps to
    it; run without the bounds checks on a state of any contents it returns 0 with that
    word overwritten by the value and the rest of the memory unchanged. *)
Theorem accepted_may_write off val :
  0 <= off < 2 ^ 15 -> off mod 4 = 0 -> - 2 ^ 31 <= val < 2 ^ 31 ->
  exists code, (forall ms, ifw_verify_policy (Some code) (Z.of_nat (length code)) ms = 0) /\
    forall h mem stack bytes mem_len fuel, off + 4 <= Z.of_nat (length bytes) ->
      placed 4 mem (Z.of_nat (length bytes)) -> (3 <= fuel)%nat ->
      ebpf_vm_exec h (vm_of code) mem stack bytes mem_len fuel =
      Ok (0, Memory mem (splice (Z.to_nat off) (le_bytes 4 val) bytes) stack
               (replicate (Z.to_nat STACK_SIZE) 0)).
Proof.
  intros Ho Ha Hv. exists (write_policy off val). split; [reflexivity|].
  intros h mem stack bytes mem_len fuel Hl (Hm0 & Hm1 & Hm2) Hf.
  replace fuel with (3 + (fuel - 3))%nat by lia.
  apply write_policy_runs; [lia|lia| |reflexivity].
  set (m := Memory mem bytes stack (replicate (Z.to_nat STACK_SIZE) 0)).
  set (rs := [0; mem; 0; 0; 0; 0; 0; 0; 0; 0; u32 (stack + STACK_SIZE); 0]).
  change (step_store _ _ _ _ _ _) with
    (m ← cstore m (u32 (mem + off)) 4 val; Ok (Continue (Cpu 3 rs m))).
  rewrite u32_small by lia. rewrite cstore_aligned by (apply (aligned_access 4); auto; lia).
  unfold mstore, in_region. subst m. cbn [mem_base mem_bytes stk_base stk_bytes].
  replace (_ && _) with true by lia. now replace (mem + off - mem) with off by lia.
Qed.

Lemma accepted_may_write_witness :
  exists code, (forall ms, ifw_verify_policy (Some code) (Z.of_nat (length code)) ms = 0) /\
    ebpf_vm_exec (HelperHeap [] None) (vm_of code) 0x20000000 0x20001000 [1; 0; 0; 0; 7; 0; 0; 0] 8 3 =
    Ok (0, Memory 0x20000000 [1; 0; 0; 0; 0x2a; 0; 0; 0] 0x20001000 (replicate 128 0)).
Proof.
  destruct (accepted_may_write 4 0x2a) as (code & Hv & Hx); [lia|reflexivity|lia|].
  exists code. split; [exact Hv|]. apply Hx; vm_compute; repeat split; congruence || lia.
Defined.

(** [r1 = a; r0 = *(u32 * )(r1 + 0); exit] *)
Definition peek_policy (a : Z) : list Z :=
  encode [Op EBPF_OP_MOV64_IMM 1 0 0 a; Op EBPF_OP_LDXW 0 1 0 0; Op EBPF_OP_EXIT 0 0 0 0].

(** Acceptance alone does not confine loads: the check of a load through r1
    does not see that r1 was overwritten, so a program that reads an address
    outside of the state and the stack is accepted and faults; and a program
    whose EXIT is jumped over is accepted and fetches past the end of its code. *)
Theorem accepted_may_fault :
  ifw_verify_policy (Some (peek_policy 0x1000)) 24 8 = 0 /\
  (let code := encode [Op EBPF_OP_JA 0 0 1 0; Op EBPF_OP_EXIT 0 0 0 0;
                       Op EBPF_OP_MOV_IMM 0 0 0 0] in
   ifw_verify_policy (Some code) 24 8 = 0 /\
   forall bytes, ebpf_vm_exec (HelperHeap [] None) (vm_of code)
     0x20000000 0x20001000 bytes 8 3 = Crash FetchOOB) /\
  (forall bytes, ebpf_vm_exec (HelperHeap [] None) (vm_of (peek_policy 0x1000))
     0x20000000 0x20001000 bytes 8 2 = Crash MemFault).
Proof.
  split; [vm_compute; reflexivity|]. split; [split; [vm_compute; reflexivity|]|].
  - intros bytes. reflexivity.
  - intros bytes. reflexivity.
Qed.
