(* ===== verification/VMProps.v ===== *)
(** * Properties of the virtual machine

    The encoding of instructions, the type safety of the interpreter, and the life
    time of the table of helpers that all machines share. *)
From stdpp Require Import base tactics numbers list.
From Stdlib Require Import ZArith Lia.
From S2P Require Import Prelude Inst VM VMFacts Verifier.
Local Open Scope Z_scope.

(** Instructions and their bytes correspond one to one: decoding undoes
    encoding, every eight bytes decode to an instruction that encodes back to
    them, the byte swaps reverse the bytes, and the [switch] of the interpreter
    has exactly one case for each opcode of the table, no two of which are equal. *)
Theorem isa_roundtrip :
  (forall i, inst_wf i = true -> inst_of_bytes (inst_bytes i) = Some i) /\
  (forall bs, Forall (fun b => is_byte b = true) bs -> length bs = 8%nat ->
     exists i, inst_of_bytes bs = Some i /\ inst_wf i = true /\ inst_bytes i = bs) /\
  (forall x, le_bytes 2 (swap16 x) = rev (le_bytes 2 x) /\
     le_bytes 4 (swap32 x) = rev (le_bytes 4 x) /\ le_bytes 8 (swap64 x) = rev (le_bytes 8 x)) /\
  (forall c o, opcode_of c = Some o <-> c = opcode_code o).
Proof.
  split; [exact inst_of_bytes_bytes|]. split; [|split; [|exact opcode_of_Some]].
  - intros bs Hb Hl. destruct (inst_of_bytes bs) as [i|] eqn:E.
    + exists i. split; [done|]. now apply inst_bytes_of_bytes.
    + destruct bs as [|? [|? [|? [|? [|? [|? [|? [|? [|]]]]]]]]]; discriminate.
  - intros x. auto using swap16_rev, swap32_rev, swap64_rev.
Qed.

(** Whatever code the interpreter runs, when it returns, the result is a
    64-bit value and the state it was given still consists of bytes. *)
Theorem ebpf_vm_exec_type h vm mem stack bytes mem_len fuel v m :
  0 <= mem < 2 ^ 32 -> Forall (fun b => is_byte b = true) bytes ->
  ebpf_vm_exec h vm mem stack bytes mem_len fuel = Ok (v, m) ->
  0 <= v < 2 ^ 64 /\ mem_wf m.
Proof.
  intros Hm Hb H. unfold ebpf_vm_exec in H. apply bind_Ok in H as (code & _ & H).
  eapply run_wf; [|exact H]. unfold init_cpu. split; [cbn; lia|]. split; [done|]. split.
  - cbn [regs]. pose proof (u32_range (stack + STACK_SIZE)).
    repeat (constructor; [cbn; lia|]). constructor.
  - split; [exact Hb|]. cbn. repeat constructor.
Qed.

Lemma ebpf_vm_exec_type_witness :
  0 <= 7 < 2 ^ 64 /\
  mem_wf (Memory 0x20000000 [1; 0; 0; 0; 7; 0; 0; 0] 0x20001000 (replicate 128 0)).
Proof.
  apply (ebpf_vm_exec_type (HelperHeap [] None) (vm_of read_policy) 0x20000000 0x20001000
    [1; 0; 0; 0; 7; 0; 0; 0] 8 2 7).
  - lia.
  - repeat constructor.
  - vm_compute. reflexivity.
Defined.

(** ** The shared table of helpers *)

(** [r0 = helper(r1, ...); exit] *)
Definition call_policy (idx : Z) : list Z :=
  encode [Op EBPF_OP_CALL 0 0 0 idx; Op EBPF_OP_EXIT 0 0 0 0].

(** The table of helpers does not outlive an unrelated machine: after a
    machine has registered a helper its calls work, but when any other machine,
    one that never registered anything, is destroyed, the table is freed and the
    first machine is left with a dangling pointer to it. *)
Theorem helper_table_freed fn :
  exists h1 vm1,
    ebpf_register true true (HelperHeap [] None) (vm_of (call_policy 1)) 1 fn = Ok (h1, vm1, 0) /\
    fst <$> ebpf_vm_exec h1 vm1 0x20000000 0x20001000 [] 0 2 =
      Ok (u32 (fn 0x20000000 0 0 0 0)) /\
    exists h2, ebpf_vm_destroy h1 = Ok h2 /\
      (p ← of_option NullDeref (helper_func vm1); hf_deref h2 p) = Crash UseAfterFree /\
      ebpf_vm_exec h2 vm1 0x20000000 0x20001000 [] 0 2 = Crash BadHelper.
Proof.
  eexists _, _. split; [reflexivity|]. split; [reflexivity|].
  eexists. split; [reflexivity|]. split; reflexivity.
Qed.
