(* ===== verification/Fsm.v ===== *)
(** * The state of the protocol monitor

    The part of [firewall/include/fsm_core.h] that both ports share: the
    enumerations of the core state, the state classes, and [struct FsmState] with
    its layout in memory. The policies read the struct as bytes, so the layout
    ([fsm_words], [fsm_bytes]) is part of the model; the sizes of the six arrays
    differ between the ports and are an argument ([FsmLayout]). *)
From stdpp Require Import base tactics numbers list.
From Stdlib Require Import ZArith Lia.
From S2P Require Import Prelude.
Local Open Scope Z_scope.

(** ** Enumerations of the core state *)
Inductive IFW_FSM_LL_STATE :=
| IFW_BLE_LL_CONNECTION_STATE | IFW_BLE_LL_STANDBY_STATE | IFW_BLE_LL_ADVERTISING_STATE
| IFW_BLE_LL_SCANNING_STATE | IFW_BLE_LL_INITIATING_STATE
| IFW_BLE_LL_SYNCHRONIZATION_STATE | IFW_BLE_LL_ISOCHRONOUS_BROADCASTING_STATE
| IFW_BLE_LL_STATE_NUM.

Definition ll_state_val (s : IFW_FSM_LL_STATE) : Z :=
  match s with
  | IFW_BLE_LL_CONNECTION_STATE => 0 | IFW_BLE_LL_STANDBY_STATE => 1
  | IFW_BLE_LL_ADVERTISING_STATE => 2 | IFW_BLE_LL_SCANNING_STATE => 3
  | IFW_BLE_LL_INITIATING_STATE => 4 | IFW_BLE_LL_SYNCHRONIZATION_STATE => 5
  | IFW_BLE_LL_ISOCHRONOUS_BROADCASTING_STATE => 6 | IFW_BLE_LL_STATE_NUM => 7
  end.

Inductive IFW_FSM_PAIRING_MODE := IFW_BLE_SSP | IFW_BLE_SC | IFW_BLE_PAIRING_MODE_NUM.

Definition pairing_mode_val (m : IFW_FSM_PAIRING_MODE) : Z :=
  match m with IFW_BLE_SSP => 0 | IFW_BLE_SC => 1 | IFW_BLE_PAIRING_MODE_NUM => 2 end.

Inductive IFW_FSM_PAIRING_METHOD :=
| IFW_BLE_JUST_WORKS | IFW_BLE_OOB | IFW_BLE_NUMERIC_COMPAIRISON | IFW_BLE_PASSKEY_ENTRY
| IFW_BLE_PAIRING_METHOD_NUM.

Definition pairing_method_val (m : IFW_FSM_PAIRING_METHOD) : Z :=
  match m with
  | IFW_BLE_JUST_WORKS => 0 | IFW_BLE_OOB => 1 | IFW_BLE_NUMERIC_COMPAIRISON => 2
  | IFW_BLE_PASSKEY_ENTRY => 3 | IFW_BLE_PAIRING_METHOD_NUM => 4
  end.

Inductive IFW_FSM_BLE_ROLE :=
| IFW_BLE_ROLE_OBSERVER | IFW_BLE_ROLE_BROADCASTER | IFW_BLE_ROLE_CENTRAL
| IFW_BLE_ROLE_PERIPHERAL | IFW_BLE_ROLE_INITIATOR | IFW_BLE_ROLE_SCANNER
| IFW_BLE_ROLE_ADVERTISER | IFW_BLE_ROLE_NUM.

Definition ble_role_val (r : IFW_FSM_BLE_ROLE) : Z :=
  match r with
  | IFW_BLE_ROLE_OBSERVER => 0 | IFW_BLE_ROLE_BROADCASTER => 1 | IFW_BLE_ROLE_CENTRAL => 2
  | IFW_BLE_ROLE_PERIPHERAL => 3 | IFW_BLE_ROLE_INITIATOR => 4 | IFW_BLE_ROLE_SCANNER => 5
  | IFW_BLE_ROLE_ADVERTISER => 6 | IFW_BLE_ROLE_NUM => 7
  end.

Inductive IFW_IO_CAPACITY :=
| DISPLAY_ONLY | DISPLAY_YESNO | KEYBOARD_ONLY | NOINPUT_NOOUTPUT | KEYBOARD_DISPLAY
| RESERVED | IFW_IO_CAPACITY_NUM.

Definition io_capacity_val (c : IFW_IO_CAPACITY) : Z :=
  match c with
  | DISPLAY_ONLY => 0 | DISPLAY_YESNO => 1 | KEYBOARD_ONLY => 2 | NOINPUT_NOOUTPUT => 3
  | KEYBOARD_DISPLAY => 4 | RESERVED => 5 | IFW_IO_CAPACITY_NUM => 6
  end.

Inductive ifw_core_state_type :=
| LL_STATE | PAIRING_MODE | PAIRING_METHOD | BLE_ROLE | IO_CAPACITY | IFW_CORE_STATE_NUM.

Definition core_val (t : ifw_core_state_type) : Z :=
  match t with
  | LL_STATE => 0 | PAIRING_MODE => 1 | PAIRING_METHOD => 2 | BLE_ROLE => 3
  | IO_CAPACITY => 4 | IFW_CORE_STATE_NUM => 5
  end.

(** The number of values of each core slot, which is also its initial value. *)
Definition ifw_core_state_num : list Z :=
  [ll_state_val IFW_BLE_LL_STATE_NUM; pairing_mode_val IFW_BLE_PAIRING_MODE_NUM;
   pairing_method_val IFW_BLE_PAIRING_METHOD_NUM; ble_role_val IFW_BLE_ROLE_NUM;
   io_capacity_val IFW_IO_CAPACITY_NUM].

(** The parameters of the SPI and HCI classes are the same on both ports. *)
Inductive IFW_SPI_PARAM := HCI_EVT_LEN | HCI_ACL_LEN | IFW_SPI_PARAM_NUM.

Definition spi_val (p : IFW_SPI_PARAM) : Z :=
  match p with HCI_EVT_LEN => 0 | HCI_ACL_LEN => 1 | IFW_SPI_PARAM_NUM => 2 end.

Inductive IFW_HCI_PARAM := HCI_CMD_BUF | IFW_HCI_PARAM_NUM.

Definition hci_val (p : IFW_HCI_PARAM) : Z :=
  match p with HCI_CMD_BUF => 0 | IFW_HCI_PARAM_NUM => 1 end.

(** ** State classes *)
Inductive ifw_state_class := SHARED | CORE | CONN | DC | SPI | HCI | IFW_STATE_CLASS_NUM.

#[export] Instance ifw_state_class_eq_dec : EqDecision ifw_state_class.
Proof. solve_decision. Defined.

Definition class_val (c : ifw_state_class) : Z :=
  match c with
  | SHARED => 0 | CORE => 1 | CONN => 2 | DC => 3 | SPI => 4 | HCI => 5
  | IFW_STATE_CLASS_NUM => 6
  end.

(** The case of [switch (class)] that a value takes; [None] is the default. *)
Definition class_of (class : Z) : option ifw_state_class :=
  match class with
  | 0 => Some SHARED | 1 => Some CORE | 2 => Some CONN | 3 => Some DC
  | 4 => Some SPI | 5 => Some HCI | _ => None
  end.

(** ** The state *)
Record FsmState := FsmStateC {
  core_state : list Z;
  shared_state : list Z;
  conn_param : list Z;
  dc_param : list Z;
  spi_param : list Z;
  hci_param : list Z;
}.

(** The array a class names, and its replacement. *)
Definition class_arr (c : ifw_state_class) (s : FsmState) : list Z :=
  match c with
  | SHARED => shared_state s | CORE => core_state s | CONN => conn_param s
  | DC => dc_param s | SPI => spi_param s | HCI => hci_param s
  | IFW_STATE_CLASS_NUM => []
  end.

Definition set_class_arr (c : ifw_state_class) (l : list Z) (s : FsmState) : FsmState :=
  let '(FsmStateC co sh cn dc sp hc) := s in
  match c with
  | SHARED => FsmStateC co l cn dc sp hc
  | CORE => FsmStateC l sh cn dc sp hc
  | CONN => FsmStateC co sh l dc sp hc
  | DC => FsmStateC co sh cn l sp hc
  | SPI => FsmStateC co sh cn dc l hc
  | HCI => FsmStateC co sh cn dc sp l
  | IFW_STATE_CLASS_NUM => s
  end.

(** [s.<class>[type] = state], undefined out of the array. *)
Definition set_slot (c : ifw_state_class) (type state : Z) (s : FsmState) : res FsmState :=
  l ← of_option ArrayOOB (arr_set (class_arr c s) type state);
  Ok (set_class_arr c l s).

Definition get_slot (c : ifw_state_class) (type : Z) (s : FsmState) : res Z :=
  of_option ArrayOOB (arr_get (class_arr c s) type).

(** ** Layout *)
Class FsmLayout := {
  n_core : nat; n_shared : nat; n_conn : nat; n_dc : nat; n_spi : nat; n_hci : nat;
}.

Definition n_words `{L : FsmLayout} : nat :=
  n_core + n_shared + n_conn + n_dc + n_spi + n_hci.

(** [sizeof(struct FsmState)] *)
Definition fsm_sizeof `{L : FsmLayout} : Z := 4 * Z.of_nat n_words.

Definition class_size `{L : FsmLayout} (c : ifw_state_class) : nat :=
  match c with
  | SHARED => n_shared | CORE => n_core | CONN => n_conn | DC => n_dc | SPI => n_spi
  | HCI => n_hci | IFW_STATE_CLASS_NUM => 0
  end.

(** The index of the first word of a class in the struct. *)
Definition class_base `{L : FsmLayout} (c : ifw_state_class) : nat :=
  match c with
  | CORE => 0 | SHARED => n_core | CONN => n_core + n_shared
  | DC => n_core + n_shared + n_conn | SPI => n_core + n_shared + n_conn + n_dc
  | HCI => n_core + n_shared + n_conn + n_dc + n_spi
  | IFW_STATE_CLASS_NUM => n_words
  end.

Definition fsm_words (s : FsmState) : list Z :=
  core_state s ++ shared_state s ++ conn_param s ++ dc_param s ++ spi_param s ++ hci_param s.

Definition fsm_bytes (s : FsmState) : list Z := words_bytes (fsm_words s).

Definition fsm_of_words `{L : FsmLayout} (ws : list Z) : FsmState :=
  let arr c := take (class_size c) (drop (class_base c) ws) in
  FsmStateC (arr CORE) (arr SHARED) (arr CONN) (arr DC) (arr SPI) (arr HCI).

Definition fsm_of_bytes `{L : FsmLayout} (bs : list Z) : FsmState :=
  fsm_of_words (bytes_words n_words bs).

Definition is_int (z : Z) : Prop := - 2 ^ 31 <= z < 2 ^ 31.

(** The six arrays have their lengths and hold ints. *)
Definition fsm_wf `{L : FsmLayout} (s : FsmState) : Prop :=
  (forall c, length (class_arr c s) = class_size c) /\ Forall is_int (fsm_words s).

(** ** Facts on slots *)
Lemma class_of_val c : c <> IFW_STATE_CLASS_NUM -> class_of (class_val c) = Some c.
Proof. now destruct c. Qed.

Lemma class_of_Some z c :
  class_of z = Some c -> z = class_val c /\ c <> IFW_STATE_CLASS_NUM.
Proof.
  unfold class_of. intros H. repeat (case_match; try discriminate);
    injection H as <-; done.
Qed.

Lemma class_arr_set c c' l s :
  c <> IFW_STATE_CLASS_NUM ->
  class_arr c' (set_class_arr c l s) = if decide (c = c') then l else class_arr c' s.
Proof.
  intros Hc. destruct s, c; try done; destruct c'; cbn; destruct (decide _); done.
Qed.

Lemma set_slot_inv c type v s s' :
  set_slot c type v s = Ok s' ->
  c <> IFW_STATE_CLASS_NUM /\ 0 <= type < Z.of_nat (length (class_arr c s)) /\
  s' = set_class_arr c (<[Z.to_nat type := v]> (class_arr c s)) s.
Proof.
  unfold set_slot. destruct (arr_set _ _ _) as [l|] eqn:E; cbn; [|done]. intros [= <-].
  apply arr_set_Some in E as [Hr ->]. split; [|done]. intros ->. cbn in Hr. lia.
Qed.

Section Layout.
  Context `{L : FsmLayout}.

Lemma fsm_words_lookup s c i :
  fsm_wf s -> (i < class_size c)%nat ->
  fsm_words s !! (class_base c + i)%nat = class_arr c s !! i.
Proof.
  intros [Hl _] Hi. unfold fsm_words.
  pose proof (Hl CORE); pose proof (Hl SHARED); pose proof (Hl CONN);
    pose proof (Hl DC); pose proof (Hl SPI); pose proof (Hl HCI).
  destruct c; cbn in *; try lia;
    rewrite ?lookup_app_r by lia; rewrite ?lookup_app_l by lia; f_equal; lia.
Qed.

Lemma fsm_words_length s : fsm_wf s -> length (fsm_words s) = n_words.
Proof.
  intros [Hl _]. unfold fsm_words, n_words. rewrite !length_app.
  pose proof (Hl CORE); pose proof (Hl SHARED); pose proof (Hl CONN);
    pose proof (Hl DC); pose proof (Hl SPI); pose proof (Hl HCI). cbn in *. lia.
Qed.

Lemma fsm_bytes_length s : fsm_wf s -> Z.of_nat (length (fsm_bytes s)) = fsm_sizeof.
Proof.
  intros H. unfold fsm_bytes, fsm_sizeof. rewrite length_words_bytes, fsm_words_length by done.
  lia.
Qed.

Lemma fsm_of_words_words s : fsm_wf s -> fsm_of_words (fsm_words s) = s.
Proof.
  intros [Hl _]. unfold fsm_of_words, fsm_words.
  pose proof (Hl CORE); pose proof (Hl SHARED); pose proof (Hl CONN);
    pose proof (Hl DC); pose proof (Hl SPI); pose proof (Hl HCI).
  destruct s as [co sh cn dc sp hc]; cbn in *.
  f_equal;
    rewrite ?drop_app_ge by lia; rewrite ?drop_app_le by lia;
    (match goal with |- context [drop ?k _] => replace k with 0%nat by lia end);
    rewrite drop_0; first [apply take_app_length' | apply take_ge]; lia.
Qed.

(** Reading the bytes of a state back gives the state. *)
Lemma fsm_of_bytes_bytes s : fsm_wf s -> fsm_of_bytes (fsm_bytes s) = s.
Proof.
  intros H. unfold fsm_of_bytes, fsm_bytes. rewrite <- (fsm_words_length s) by done.
  rewrite bytes_words_bytes by apply H. now apply fsm_of_words_words.
Qed.

Lemma fsm_bytes_byte s : Forall (fun b => is_byte b = true) (fsm_bytes s).
Proof.
  unfold fsm_bytes, words_bytes. induction (fsm_words s) as [|w ws IH]; [constructor|].
  cbn [flat_map]. apply Forall_app. split; [apply le_bytes_is_byte|done].
Qed.

(** A 4-byte load at the offset of a slot reads the slot, as unsigned. *)
Lemma fsm_bytes_slot s c i w :
  fsm_wf s -> (i < class_size c)%nat -> class_arr c s !! i = Some w ->
  le_val (slice (4 * (class_base c + i)) 4 (fsm_bytes s)) = u32 w.
Proof.
  intros Hs Hi Hw. rewrite <- (fsm_words_lookup s c i Hs Hi) in Hw.
  unfold fsm_bytes. rewrite (words_bytes_slice _ _ _ Hw), le_val_le_bytes. done.
Qed.

Lemma fsm_words_set c l s :
  fsm_wf s -> length l = class_size c -> Forall is_int l -> fsm_wf (set_class_arr c l s).
Proof.
  intros [Hl Hi] Hn Hf. destruct (decide (c = IFW_STATE_CLASS_NUM)) as [->|Hc].
  { destruct s. split; done. }
  split.
  - intros c'. rewrite class_arr_set by done. destruct (decide (c = c')) as [<-|]; auto.
  - unfold fsm_words in *. rewrite !Forall_app in *.
    destruct s, c; cbn in *; intuition.
Qed.

Lemma class_arr_int s c : fsm_wf s -> Forall is_int (class_arr c s).
Proof.
  intros [_ H]. unfold fsm_words in H. rewrite !Forall_app in H.
  destruct c; cbn; intuition.
Qed.

Lemma set_slot_ok c type v s :
  fsm_wf s -> is_int v -> 0 <= type < Z.of_nat (class_size c) ->
  exists s', set_slot c type v s = Ok s' /\ fsm_wf s'.
Proof.
  intros Hs Hv Ht. destruct Hs as [Hl Hi] eqn:E. clear E.
  unfold set_slot. rewrite arr_set_in by (rewrite Hl; lia). eexists. split; [done|].
  apply fsm_words_set; [by split| by rewrite length_insert |].
  apply Forall_insert; [apply class_arr_int; by split | done].
Qed.
End Layout.

(** Slots are independent. *)
Lemma get_set_slot_eq c type v s s' :
  set_slot c type v s = Ok s' -> get_slot c type s' = Ok v.
Proof.
  intros (Hc & Ht & ->)%set_slot_inv. unfold get_slot.
  rewrite class_arr_set by done. rewrite decide_True by done.
  erewrite arr_get_set_eq; [done|]. apply arr_set_in. lia.
Qed.

Lemma get_set_slot_ne c type v s s' c' type' :
  set_slot c type v s = Ok s' -> (c, type) <> (c', type') ->
  get_slot c' type' s' = get_slot c' type' s.
Proof.
  intros (Hc & Ht & ->)%set_slot_inv Hne. unfold get_slot.
  rewrite class_arr_set by done. destruct (decide (c = c')) as [<-|]; [|done].
  erewrite arr_get_set_ne; [done|apply arr_set_in; lia|congruence].
Qed.
