(* ===== verification/PolicyCache.v ===== *)
(** * The policy cache

    [firewall/policy/src/fsm_policy_cache.c] of both ports: the tables of
    compiled-in and runtime policies, the lists of policies per state slot, the
    two virtual machines that run them, and the entry points
    [ifw_install_policy] and [run_fsm_check_policy].

    The two files have the same functions up to the number of compiled-in
    policies, the layout of [struct FsmState] and one difference: the Mynewt file
    tests the result of the allocation in [register_policy], the Zephyr file
    stores through it. These are the fields of the class [PolicyPort].

    What is not part of the cache is an argument: the outcome of an allocation
    is a boolean, and [exec_env] has the addresses of the state and of the
    interpreter's frame, the fuel of the interpreter, and what the JIT compiler and
    a call of its code do. [JitHooks] puts the compiler of [Jit] and the processor
    of [Arm] there. *)
From stdpp Require Import base tactics numbers list.
From Stdlib Require Import ZArith Lia.
From S2P Require Import Prelude Inst VM VMFacts Verifier Fsm.
Local Open Scope Z_scope.

Definition IFW_OPERATION_PASS : Z := 0.
Definition IFW_OPERATION_REJECT : Z := 1.
Definition IFW_MAX_RUNTIME_POLICIES : Z := 8.

Class PolicyPort := {
  port_layout :: FsmLayout;
  PID_NUM : Z;
  malloc_checked : bool;
}.

(** ** Data *)
Record policy_cache := PolicyCacheC {
  size : Z;
  code : option (list Z);
  jit : bool;
}.

(** A zeroed [struct policy_cache]. *)
Definition policy_cache0 : policy_cache := PolicyCacheC 0 None false.

(** The globals of the file. [policy_manager] is the array
    [policy[IFW_STATE_CLASS_NUM][IFW_DC_PARAM_NUM]] in row-major order, each
    entry the list of the indices in its chain of [fsm_policy_list] nodes;
    [policy_masks] holds the six masks by class. *)
Record policy_state := PolicyState {
  policy_masks : list Z;
  policy_mgr_init : bool;
  policy_manager : list (list Z);
  policy_arr : list policy_cache;
  runtime_policy_arr : list policy_cache;
  runtime_policy_count : Z;
  g_vm : option ebpf_vm;
  g_jit_vm : option ebpf_vm;
}.

Section Cache.
  Context `{P : PolicyPort}.

Definition IFW_DC_PARAM_NUM : Z := Z.of_nat n_dc.

Definition table_size : nat := Z.to_nat (class_val IFW_STATE_CLASS_NUM) * n_dc.

Definition empty_table : list (list Z) := replicate table_size [].

(** The globals before any code runs. *)
Definition policy_state0 : policy_state :=
  PolicyState (replicate 6 0) false empty_table
    (replicate (Z.to_nat PID_NUM) policy_cache0)
    (replicate (Z.to_nat IFW_MAX_RUNTIME_POLICIES) policy_cache0) 0 None None.

(** The address of [policy[class][type]]: the compiler scales by the size of
    the second dimension and checks neither index. *)
Definition table_index (class type : Z) : Z := class * IFW_DC_PARAM_NUM + type.

Definition table_get (m : policy_state) (class type : Z) : res (list Z) :=
  of_option ArrayOOB (arr_get (policy_manager m) (table_index class type)).

Definition set_table (m : policy_state) (t : list (list Z)) : policy_state :=
  PolicyState (policy_masks m) (policy_mgr_init m) t (policy_arr m)
    (runtime_policy_arr m) (runtime_policy_count m) (g_vm m) (g_jit_vm m).

Definition table_set (m : policy_state) (class type : Z) (l : list Z) : res policy_state :=
  t ← of_option ArrayOOB (arr_set (policy_manager m) (table_index class type) l);
  Ok (set_table m t).

Definition set_masks (m : policy_state) (ms : list Z) : policy_state :=
  PolicyState ms (policy_mgr_init m) (policy_manager m) (policy_arr m)
    (runtime_policy_arr m) (runtime_policy_count m) (g_vm m) (g_jit_vm m).

Definition set_policy_arr (m : policy_state) (a : list policy_cache) : policy_state :=
  PolicyState (policy_masks m) (policy_mgr_init m) (policy_manager m) a
    (runtime_policy_arr m) (runtime_policy_count m) (g_vm m) (g_jit_vm m).

Definition set_runtime (m : policy_state) (a : list policy_cache) (n : Z) : policy_state :=
  PolicyState (policy_masks m) (policy_mgr_init m) (policy_manager m) (policy_arr m)
    a n (g_vm m) (g_jit_vm m).

(** ** Slots *)
Definition get_policy_slot (m : policy_state) (pid : Z) : option policy_cache :=
  if pid <? 0 then None
  else if pid <? PID_NUM then arr_get (policy_arr m) pid
  else
    let rt_idx := pid - PID_NUM in
    if IFW_MAX_RUNTIME_POLICIES <=? rt_idx then None
    else arr_get (runtime_policy_arr m) rt_idx.

(** ** Registration *)
Definition init_policy_manager (m : policy_state) : policy_state :=
  PolicyState (policy_masks m) true empty_table (policy_arr m)
    (runtime_policy_arr m) (runtime_policy_count m) (g_vm m) (g_jit_vm m).

(** [<class>_policy_mask |= (1u << type)] *)
Definition set_mask (m : policy_state) (class type : Z) : res policy_state :=
  match class_of class with
  | None => Ok m
  | Some c =>
      b ← shl_c 32 1 type;
      old ← of_option ArrayOOB (arr_get (policy_masks m) (class_val c));
      ms ← of_option ArrayOOB (arr_set (policy_masks m) (class_val c) (Z.lor old b));
      Ok (set_masks m ms)
  end.

(** Appends [pid] to the list of the slot. [ok]: the node was allocated. *)
Definition register_policy (m : policy_state) (ok : bool) (class type pid : Z)
    : res policy_state :=
  let m := if policy_mgr_init m then m else init_policy_manager m in
  m ← set_mask m class type;
  l ← table_get m class type;
  if negb ok then (if malloc_checked then Ok m else Crash NullDeref)
  else table_set m class type (l ++ [pid]).

(** Unlinks the first node with index [pid]. *)
Fixpoint unlink (pid : Z) (l : list Z) : list Z :=
  match l with
  | [] => []
  | q :: l' => if q =? pid then l' else q :: unlink pid l'
  end.

Definition remove_policy (m : policy_state) (class type pid : Z) : res policy_state :=
  l ← table_get m class type;
  table_set m class type (unlink pid l).

(** The macro [ADD_POLICY]; [sizeof] of a string literal counts its final NUL,
    which [bytes] includes. *)
Definition ADD_POLICY (m : policy_state) (ok : bool) (pid : Z) (bytes : list Z)
    (class type : Z) : res policy_state :=
  a ← of_option ArrayOOB (arr_set (policy_arr m) pid
        (PolicyCacheC (Z.of_nat (length bytes)) (Some bytes) false));
  register_policy (set_policy_arr m a) ok class type pid.

Definition jit_on (p : policy_cache) : policy_cache := PolicyCacheC (size p) (code p) true.

Definition set_policy_jit_on (m : policy_state) (pid : Z) : policy_state :=
  if (0 <=? pid) && (pid <? PID_NUM)
  then set_policy_arr m (alter jit_on (Z.to_nat pid) (policy_arr m))
  else m.

Definition set_all_policy_jit_on (m : policy_state) : policy_state :=
  set_policy_arr m (map jit_on (policy_arr m)).

(** ** Installation at run time *)

(** [copy_ok] and [node_ok]: the outcomes of the allocations of the copy and of
    the list node. *)
Definition ifw_install_policy (m : policy_state) (copy_ok node_ok : bool)
    (class type : Z) (code : option (list Z)) (len : Z) : res (policy_state * Z) :=
  match code with
  | None => Ok (m, -1)
  | Some bytes =>
      if (len =? 0) || negb (len mod 8 =? 0) then Ok (m, -1)
      else if (class <? 0) || (class_val IFW_STATE_CLASS_NUM <=? class)
           || (type <? 0) || (IFW_DC_PARAM_NUM <=? type)
      then Ok (m, -2)
      else if IFW_MAX_RUNTIME_POLICIES <=? runtime_policy_count m then Ok (m, -3)
      else
        let verr := ifw_verify_policy code len fsm_sizeof in
        if negb (verr =? 0) then Ok (m, verr)
        else if negb copy_ok then Ok (m, -4)
        else
          let rt_idx := runtime_policy_count m in
          let pid := PID_NUM + rt_idx in
          a ← of_option ArrayOOB (arr_set (runtime_policy_arr m) rt_idx
                (PolicyCacheC len (Some (take (Z.to_nat len) bytes)) false));
          m ← register_policy (set_runtime m a (rt_idx + 1)) node_ok class type pid;
          Ok (m, 0)
  end.

(** ** Execution *)
Record exec_env := ExecEnv {
  env_fsm : Z;                 (* the address of the state a policy runs on *)
  env_stk : Z;                 (* the address of the interpreter's frame *)
  env_fuel : nat;              (* the fuel of the interpreter *)
  env_heap : helper_heap;      (* the helper tables *)
  gen_jit_code : ebpf_vm -> res ebpf_vm;
  jit_call : ebpf_vm -> list Z -> Z -> res (Z * list Z);
}.

Definition set_default_vm (m : policy_state) (jit : bool) (vm : ebpf_vm) : policy_state :=
  PolicyState (policy_masks m) (policy_mgr_init m) (policy_manager m) (policy_arr m)
    (runtime_policy_arr m) (runtime_policy_count m)
    (if jit then g_vm m else Some vm) (if jit then Some vm else g_jit_vm m).

(** [ok]: the machine, when it has to be created, was allocated. *)
Definition get_default_vm (m : policy_state) (ok : bool) (jit : bool)
    : res (policy_state * ebpf_vm) :=
  if jit then
    match g_jit_vm m with
    | Some vm => Ok (m, vm)
    | None =>
        vm ← of_option NullDeref (ebpf_create ok);
        let vm := EbpfVm (insts vm) (num_insts vm) (bounds_check_enabled vm)
                    (helper_func vm) (jit_func vm) true in
        Ok (set_default_vm m true vm, vm)
    end
  else
    match g_vm m with
    | Some vm => Ok (m, vm)
    | None =>
        (* a null result is dereferenced by the caller *)
        vm ← of_option NullDeref (ebpf_create ok);
        Ok (set_default_vm m false vm, vm)
    end.

Section Exec.
  Variable E : exec_env.
  Variable ok : bool.

Definition load_ebpf_code (m : policy_state) (ebpf_idx : Z) (jit : bool)
    : res (policy_state * option ebpf_vm) :=
  match get_policy_slot m ebpf_idx with
  | None => Ok (m, None)
  | Some slot =>
      if size slot =? 0 then Ok (m, None)
      else
        '(m, vm) ← get_default_vm m ok jit;
        bytes ← of_option NullDeref (code slot);
        let vm := ebpf_vm_set_inst vm bytes (size slot) in
        vm ← (if jit then gen_jit_code E vm else Ok vm);
        Ok (set_default_vm m jit vm, Some vm)
  end.

Definition get_vm_from_cache (m : policy_state) (ebpf_idx : Z)
    : res (policy_state * option ebpf_vm) :=
  match get_policy_slot m ebpf_idx with
  | None => Ok (m, None)
  | Some slot =>
      if size slot =? 0 then Ok (m, None) else load_ebpf_code m ebpf_idx (jit slot)
  end.

(** The value a policy returns, and the state as the policy leaves it. *)
Definition run_fsm_ebpf_policy (m : policy_state) (idx : Z) (newState : list Z) (dsize : Z)
    : res (policy_state * Z * list Z) :=
  '(m, vm) ← get_vm_from_cache m idx;
  match vm with
  | None => Ok (m, 0, newState)
  | Some vm =>
      if use_jit vm then
        '(v, bs) ← jit_call E vm newState dsize;
        Ok (m, v, bs)
      else
        '(v, mem) ← ebpf_vm_exec (env_heap E) vm (env_fsm E) (env_stk E) newState dsize
                      (env_fuel E);
        Ok (m, v, mem_bytes mem)
  end.

(** The [while] loop over the chain of policies. *)
Fixpoint run_policies (m : policy_state) (l : list Z) (newState : list Z)
    : res (policy_state * Z * list Z) :=
  match l with
  | [] => Ok (m, IFW_OPERATION_PASS, newState)
  | pid :: l' =>
      '(m, result, newState) ← run_fsm_ebpf_policy m pid newState 64;
      if result =? IFW_OPERATION_REJECT then Ok (m, IFW_OPERATION_REJECT, newState)
      else run_policies m l' newState
  end.

Definition run_fsm_check_policy (m : policy_state) (type class : Z) (newState : list Z)
    : res (policy_state * Z * list Z) :=
  l ← table_get m class type;
  run_policies m l newState.
End Exec.

(** ** The invariant of the globals *)

(** A slot that holds a policy: the length matches and, for a slot filled at run
    time, the verifier accepted it. *)
Definition runtime_slot_ok (p : policy_cache) : Prop :=
  exists bytes, code p = Some bytes /\ size p = Z.of_nat (length bytes) /\
    policy_allowed bytes fsm_sizeof.

Record cache_wf (m : policy_state) : Prop := CacheWf {
  wf_masks : length (policy_masks m) = 6%nat;
  wf_table : length (policy_manager m) = table_size;
  wf_arr : Z.of_nat (length (policy_arr m)) = PID_NUM;
  wf_rt : Z.of_nat (length (runtime_policy_arr m)) = IFW_MAX_RUNTIME_POLICIES;
  wf_count : 0 <= runtime_policy_count m <= IFW_MAX_RUNTIME_POLICIES;
  (* exactly the first [runtime_policy_count] runtime slots are in use *)
  wf_used : forall i p, runtime_policy_arr m !! i = Some p ->
    if Z.of_nat i <? runtime_policy_count m then runtime_slot_ok p else p = policy_cache0;
  (* the lists name only slots that exist *)
  wf_pids : Forall (Forall (fun pid => 0 <= pid < PID_NUM + runtime_policy_count m))
              (policy_manager m);
  wf_init : policy_mgr_init m = false -> policy_manager m = empty_table;
  (* the interpreting machine is as [ebpf_create] makes it, up to its code *)
  wf_vm : forall vm, g_vm m = Some vm ->
    bounds_check_enabled vm = false /\ helper_func vm = None /\ use_jit vm = false;
  (* the other machine runs native code *)
  wf_jit_vm : forall vm, g_jit_vm m = Some vm -> use_jit vm = true;
}.

  Context (Hpid : 0 <= PID_NUM) (Hdc : (0 < n_dc <= 32)%nat).

Definition slot_in (class type : Z) : Prop :=
  0 <= class < class_val IFW_STATE_CLASS_NUM /\ 0 <= type < IFW_DC_PARAM_NUM.

Lemma table_index_range class type :
  slot_in class type -> 0 <= table_index class type < Z.of_nat table_size.
Proof.
  unfold slot_in, table_index, table_size, IFW_DC_PARAM_NUM. cbn [class_val]. nia.
Qed.

(** Inside of the table no two slots share an entry. *)
Lemma table_index_inj class type class' type' :
  slot_in class type -> slot_in class' type' ->
  table_index class type = table_index class' type' -> class = class' /\ type = type'.
Proof.
  intros [_ Ht] [_ Ht'] E. unfold table_index in E.
  assert (class = class') as ->; [|lia].
  rewrite (Z.div_unique (class * IFW_DC_PARAM_NUM + type) IFW_DC_PARAM_NUM class type) by lia.
  rewrite E. symmetry. apply (Z.div_unique _ _ class' type'); lia.
Qed.

Lemma policy_state0_wf : cache_wf policy_state0.
Proof.
  constructor; cbn; rewrite ?length_replicate; try done; try lia.
  - apply length_replicate.
  - intros i p [-> Hi]%lookup_replicate. now destruct (Z.ltb_spec (Z.of_nat i) 0); [lia|].
  - apply Forall_replicate. constructor.
Qed.

(** The list of a slot. *)
Definition slot_list (m : policy_state) (class type : Z) : list Z :=
  default [] (arr_get (policy_manager m) (table_index class type)).

Lemma table_get_len m class type :
  length (policy_manager m) = table_size -> slot_in class type ->
  table_get m class type = Ok (slot_list m class type).
Proof.
  intros Hm Hs. apply table_index_range in Hs. unfold table_get, slot_list.
  destruct (arr_get _ _) eqn:E; [done|]. apply arr_get_None in E. lia.
Qed.

Lemma table_get_ok m class type :
  cache_wf m -> slot_in class type -> table_get m class type = Ok (slot_list m class type).
Proof. intros Hm. apply table_get_len, Hm. Qed.

Lemma class_of_range class :
  0 <= class < class_val IFW_STATE_CLASS_NUM ->
  exists c, class_of class = Some c /\ class_val c = class.
Proof.
  cbn. intros H.
  assert (class = 0 \/ class = 1 \/ class = 2 \/ class = 3 \/ class = 4 \/ class = 5)
    as Hc by lia.
  repeat destruct Hc as [->|Hc]; try subst; eexists; done.
Qed.

(** The masks after a registration. *)
Definition masked (ms : list Z) (class type : Z) : list Z :=
  alter (fun x => Z.lor x (Z.shiftl 1 type)) (Z.to_nat class) ms.

Lemma set_mask_ok m class type :
  length (policy_masks m) = 6%nat -> slot_in class type ->
  set_mask m class type = Ok (set_masks m (masked (policy_masks m) class type)).
Proof.
  intros Hl [Hc Ht]. destruct (class_of_range class Hc) as (c & E & Ev).
  unfold set_mask, shl_c. rewrite E, Ev. cbn in Hc. unfold IFW_DC_PARAM_NUM in Ht.
  replace ((type <? 0) || (32 <=? type)) with false by lia. cbn.
  destruct (arr_get (policy_masks m) class) eqn:Eg; [|apply arr_get_None in Eg; lia]. cbn.
  rewrite arr_set_in by lia. cbn. apply arr_get_Some in Eg as [_ Eg].
  unfold masked. rewrite list_insert_alter. do 2 f_equal. apply list_alter_ext; [congruence|done].
Qed.

(** What registration does to the globals. *)
Definition registered (m : policy_state) (ms : list Z) (t : list (list Z)) : policy_state :=
  PolicyState ms true t (policy_arr m) (runtime_policy_arr m) (runtime_policy_count m)
    (g_vm m) (g_jit_vm m).

Lemma register_policy_exact m ok class type pid :
  cache_wf m -> slot_in class type ->
  register_policy m ok class type pid =
  (let ms := masked (policy_masks m) class type in
   if ok then Ok (registered m ms (<[Z.to_nat (table_index class type) :=
                    slot_list m class type ++ [pid]]> (policy_manager m)))
   else if malloc_checked then Ok (registered m ms (policy_manager m))
   else Crash NullDeref).
Proof.
  intros Hm Hs. unfold register_policy.
  set (m1 := if policy_mgr_init m then m else init_policy_manager m).
  assert (E1 : m1 = registered m (policy_masks m) (policy_manager m)).
  { unfold m1. destruct (policy_mgr_init m) eqn:Ei.
    - destruct m; cbn in *; now subst.
    - unfold init_policy_manager, registered. now rewrite (wf_init _ Hm Ei). }
  rewrite E1. clear m1 E1. rewrite set_mask_ok by (done || exact (wf_masks _ Hm)). cbn.
  pose proof (table_get_ok m class type Hm Hs) as Hg. unfold table_get in *. cbn in *.
  rewrite Hg. cbn. destruct ok; cbn; [|done].
  unfold table_set. cbn. pose proof (table_index_range _ _ Hs).
  rewrite arr_set_in by (rewrite (wf_table _ Hm); lia). done.
Qed.

Lemma register_policy_eq m ok class type pid :
  cache_wf m -> slot_in class type ->
  exists ms, length ms = 6%nat /\
    register_policy m ok class type pid =
    (if ok then Ok (registered m ms (<[Z.to_nat (table_index class type) :=
                      slot_list m class type ++ [pid]]> (policy_manager m)))
     else if malloc_checked then Ok (registered m ms (policy_manager m))
     else Crash NullDeref).
Proof.
  intros Hm Hs. exists (masked (policy_masks m) class type).
  split; [|now apply register_policy_exact]. unfold masked. rewrite length_alter. apply (wf_masks _ Hm).
Qed.

Lemma slot_list_registered m ms class type l class' type' :
  cache_wf m -> slot_in class type -> slot_in class' type' ->
  slot_list (registered m ms (<[Z.to_nat (table_index class type) := l]> (policy_manager m)))
    class' type' =
  if decide ((class, type) = (class', type')) then l else slot_list m class' type'.
Proof.
  intros Hm Hs Hs'. pose proof (table_index_range _ _ Hs). pose proof (wf_table _ Hm).
  unfold slot_list. cbn.
  pose proof (arr_set_in (policy_manager m) (table_index class type) l ltac:(lia)) as Ha.
  destruct (decide _) as [[= <- <-]|Hne].
  - now rewrite (arr_get_set_eq _ _ _ _ Ha).
  - rewrite (arr_get_set_ne _ _ _ (table_index class' type') _ Ha); [done|].
    intros Ei. apply Hne. now destruct (table_index_inj _ _ _ _ Hs Hs' Ei) as [-> ->].
Qed.

Lemma registered_wf m ms t :
  cache_wf m -> length ms = 6%nat -> length t = table_size ->
  Forall (Forall (fun pid => 0 <= pid < PID_NUM + runtime_policy_count m)) t ->
  cache_wf (registered m ms t).
Proof. intros []. now constructor. Qed.

Lemma slot_list_pids m class type :
  cache_wf m -> Forall (fun pid => 0 <= pid < PID_NUM + runtime_policy_count m)
    (slot_list m class type).
Proof.
  intros Hm. unfold slot_list. destruct (arr_get _ _) eqn:E; cbn; [|constructor].
  apply arr_get_Some in E as [_ E]. exact (Forall_lookup_1 _ _ _ _ (wf_pids _ Hm) E).
Qed.

(** Registration of an existing policy keeps the invariant. *)
Lemma register_policy_wf m ok class type pid m' :
  cache_wf m -> slot_in class type -> 0 <= pid < PID_NUM + runtime_policy_count m ->
  register_policy m ok class type pid = Ok m' -> cache_wf m'.
Proof.
  intros Hm Hs Hp. destruct (register_policy_eq m ok class type pid Hm Hs) as (ms & Hl & ->).
  pose proof (wf_table _ Hm). destruct ok; [|destruct malloc_checked; [|done]];
    intros [= <-]; apply registered_wf; auto.
  - now rewrite length_insert.
  - apply Forall_insert; [apply (wf_pids _ Hm)|]. apply Forall_app. split.
    + now apply slot_list_pids.
    + now constructor.
  - apply (wf_pids _ Hm).
Qed.

Lemma add_policy_wf m ok pid bytes class type m' :
  cache_wf m -> slot_in class type -> 0 <= pid < PID_NUM ->
  ADD_POLICY m ok pid bytes class type = Ok m' -> cache_wf m'.
Proof.
  intros Hm Hs Hp H. unfold ADD_POLICY in H.
  destruct (arr_set (policy_arr m) pid _) as [a|] eqn:Ea; [|done]. cbn in H.
  apply arr_set_length in Ea. pose proof (wf_count _ Hm).
  eapply register_policy_wf; [|exact Hs| |exact H]; [|cbn; lia].
  destruct Hm. constructor; cbn; try done. now rewrite Ea.
Qed.

(** Adding a policy with its node allocated always succeeds. *)
Lemma add_policy_ok m pid bytes class type :
  cache_wf m -> slot_in class type -> 0 <= pid < PID_NUM ->
  exists m', ADD_POLICY m true pid bytes class type = Ok m' /\ cache_wf m' /\
    forall c t, slot_in c t -> slot_list m' c t =
      if decide ((class, type) = (c, t)) then slot_list m c t ++ [pid] else slot_list m c t.
Proof.
  intros Hm Hs Hp. pose proof (wf_arr _ Hm).
  assert (E : ADD_POLICY m true pid bytes class type =
    register_policy (set_policy_arr m (<[Z.to_nat pid := PolicyCacheC
      (Z.of_nat (length bytes)) (Some bytes) false]> (policy_arr m))) true class type pid)
    by (unfold ADD_POLICY; rewrite arr_set_in by lia; done).
  set (m1 := set_policy_arr m _) in E.
  assert (Hm1 : cache_wf m1)
    by (destruct Hm; constructor; cbn; try done; now rewrite length_insert).
  destruct (register_policy_eq m1 true class type pid Hm1 Hs) as (ms & _ & Er).
  rewrite Er in E. eexists. split; [exact E|].
  split; [apply add_policy_wf in E; done|].
  intros c t Hct. rewrite (slot_list_registered m1) by done.
  destruct (decide _) as [[= <- <-]|]; done.
Qed.

(** ** Installation *)
Lemma runtime_set_wf m a n p :
  cache_wf m -> runtime_slot_ok p -> runtime_policy_count m = n ->
  n < IFW_MAX_RUNTIME_POLICIES -> arr_set (runtime_policy_arr m) n p = Some a ->
  cache_wf (set_runtime m a (n + 1)).
Proof.
  intros Hm Hp Hn Hlt Ha. apply arr_set_Some in Ha as [Hr ->].
  destruct Hm. constructor; cbn; try done.
  - now rewrite length_insert.
  - lia.
  - intros i q Hi. destruct (decide (i = Z.to_nat n)) as [->|Hne].
    + rewrite list_lookup_insert_eq in Hi by lia. injection Hi as <-.
      destruct (Z.ltb_spec (Z.of_nat (Z.to_nat n)) (n + 1)); [done|lia].
    + rewrite list_lookup_insert_ne in Hi by done. apply wf_used0 in Hi. subst n.
      destruct (Z.ltb_spec (Z.of_nat i) (runtime_policy_count m));
        destruct (Z.ltb_spec (Z.of_nat i) (runtime_policy_count m + 1)); try done; lia.
  - eapply Forall_impl; [done|]. intros l Hl. eapply Forall_impl; [done|]. cbn. lia.
Qed.

(** The globals after a successful installation: the mask bit of the slot is set, the
    new id is at the end of the list of the slot, the copy of the code is in the next
    runtime slot, and everything else is as it was. *)
Definition installed (m : policy_state) (class type : Z) (bytes : list Z) : policy_state :=
  PolicyState (masked (policy_masks m) class type) true
    (alter (fun l => l ++ [PID_NUM + runtime_policy_count m]) (Z.to_nat (table_index class type))
       (policy_manager m))
    (policy_arr m)
    (<[Z.to_nat (runtime_policy_count m) :=
        PolicyCacheC (Z.of_nat (length bytes)) (Some bytes) false]> (runtime_policy_arr m))
    (runtime_policy_count m + 1) (g_vm m) (g_jit_vm m).

(** What that means for the slots and the lists. *)
Definition install_result (m : policy_state) (class type : Z) (bytes : list Z)
    (m' : policy_state) : Prop :=
  let pid := PID_NUM + runtime_policy_count m in
  cache_wf m' /\
  runtime_policy_count m' = runtime_policy_count m + 1 /\
  get_policy_slot m' pid =
    Some (PolicyCacheC (Z.of_nat (length bytes)) (Some bytes) false) /\
  (forall q, q <> pid -> get_policy_slot m' q = get_policy_slot m q) /\
  (forall c t, slot_in c t -> slot_list m' c t =
     if decide ((class, type) = (c, t)) then slot_list m c t ++ [pid] else slot_list m c t).

Lemma get_policy_slot_runtime m a n q ms t :
  cache_wf m -> 0 <= n < IFW_MAX_RUNTIME_POLICIES ->
  forall p, arr_set (runtime_policy_arr m) n p = Some a ->
  get_policy_slot (registered (set_runtime m a (n + 1)) ms t) q =
  if decide (q = PID_NUM + n) then Some p else get_policy_slot m q.
Proof.
  intros Hm Hn p Ha. unfold get_policy_slot. cbn.
  destruct (decide (q = PID_NUM + n)) as [->|Hq].
  - replace (PID_NUM + n <? 0) with false by lia.
    replace (PID_NUM + n <? PID_NUM) with false by lia.
    replace (PID_NUM + n - PID_NUM) with n by lia.
    replace (IFW_MAX_RUNTIME_POLICIES <=? n) with false by lia.
    now apply arr_get_set_eq in Ha.
  - destruct (q <? 0); [done|]. destruct (q <? PID_NUM); [done|].
    destruct (_ <=? _); [done|]. eapply arr_get_set_ne; [done|]. lia.
Qed.

(** The guards of [ifw_install_policy], all of them passed. *)
Definition install_guards (m : policy_state) (class type : Z) (bytes : list Z) : Prop :=
  slot_in class type /\ runtime_policy_count m < IFW_MAX_RUNTIME_POLICIES /\
  policy_allowed bytes fsm_sizeof.

Lemma ifw_verify_policy_nonpos code len ms : ifw_verify_policy code len ms <= 0.
Proof.
  unfold ifw_verify_policy. destruct code; [|lia]. destruct (_ || _); [lia|].
  destruct (_ <? _); [lia|]. apply verify_loop_codes.
Qed.

Lemma install_guards_dec m class type bytes copy_ok node_ok :
  let len := Z.of_nat (length bytes) in
  (install_guards m class type bytes /\ copy_ok = true /\
     ifw_verify_policy (Some bytes) len fsm_sizeof = 0 /\
     ifw_install_policy m copy_ok node_ok class type (Some bytes) len =
     (a ← of_option ArrayOOB (arr_set (runtime_policy_arr m) (runtime_policy_count m)
            (PolicyCacheC len (Some (take (Z.to_nat len) bytes)) false));
      m' ← register_policy (set_runtime m a (runtime_policy_count m + 1)) node_ok class type
            (PID_NUM + runtime_policy_count m);
      Ok (m', 0))) \/
  (~ (install_guards m class type bytes /\ copy_ok = true) /\
   exists e, e < 0 /\
     ifw_install_policy m copy_ok node_ok class type (Some bytes) len = Ok (m, e)).
Proof.
  intros len. unfold install_guards. unfold ifw_install_policy.
  pose proof (verify_policy_allowed bytes fsm_sizeof) as Hv. fold len in Hv.
  assert (Hneg : ifw_verify_policy (Some bytes) len fsm_sizeof <= 0).
  { apply ifw_verify_policy_nonpos. }
  destruct ((len =? 0) || negb (len mod 8 =? 0)) eqn:E1.
  { right. split; [|exists (-1); split; [lia|done]].
    intros [(_ & _ & Ha) _]. apply Hv in Ha. unfold ifw_verify_policy in Ha.
    rewrite E1 in Ha. done. }
  destruct ((class <? 0) || (class_val IFW_STATE_CLASS_NUM <=? class)
    || (type <? 0) || (IFW_DC_PARAM_NUM <=? type)) eqn:E2.
  { right. split; [|exists (-2); split; [lia|done]]. unfold slot_in. lia. }
  destruct (IFW_MAX_RUNTIME_POLICIES <=? runtime_policy_count m) eqn:E3.
  { right. split; [|exists (-3); split; [lia|done]]. lia. }
  destruct (ifw_verify_policy (Some bytes) len fsm_sizeof =? 0) eqn:E4; cbn [negb].
  - destruct copy_ok; cbn [negb].
    + left. split; [|split; [done|split; [lia|done]]].
      split; [unfold slot_in; lia|split; [lia|]]. apply Hv. lia.
    + right. split; [|exists (-4); split; [lia|done]]. intros [_ ?]. done.
  - right. split; [|eexists; split; [|done]; lia]. intros [(_ & _ & Ha) _]. apply Hv in Ha. lia.
Qed.

Lemma append_slot m class type x :
  cache_wf m -> slot_in class type ->
  <[Z.to_nat (table_index class type) := slot_list m class type ++ [x]]> (policy_manager m) =
  alter (fun l => l ++ [x]) (Z.to_nat (table_index class type)) (policy_manager m).
Proof.
  intros Hm Hs. rewrite list_insert_alter. apply list_alter_ext; [|done]. intros l Hl.
  apply table_index_range in Hs. unfold slot_list.
  now rewrite (proj2 (arr_get_Some (policy_manager m) (table_index class type) l)) by (split; [lia|done]).
Qed.

(** The globals before the registration of an installation that passed its guards. *)
Lemma install_runtime_wf m class type bytes :
  cache_wf m -> install_guards m class type bytes ->
  cache_wf (set_runtime m (<[Z.to_nat (runtime_policy_count m) :=
      PolicyCacheC (Z.of_nat (length bytes)) (Some bytes) false]> (runtime_policy_arr m))
    (runtime_policy_count m + 1)).
Proof.
  intros Hm (_ & Hlt & Ha). pose proof (wf_count _ Hm). pose proof (wf_rt _ Hm).
  eapply runtime_set_wf; eauto; [|apply arr_set_in; lia]. now exists bytes.
Qed.

Lemma install_exact m node_ok class type bytes :
  cache_wf m -> install_guards m class type bytes ->
  ifw_install_policy m true node_ok class type (Some bytes) (Z.of_nat (length bytes)) =
  (if node_ok then Ok (installed m class type bytes, 0)
   else if malloc_checked then Ok (set_table (installed m class type bytes) (policy_manager m), 0)
   else Crash NullDeref).
Proof.
  intros Hm Hg. destruct (install_guards_dec m class type bytes true node_ok) as
    [(_ & _ & _ & ->)|[Hn _]]; [|naive_solver].
  pose proof (install_runtime_wf _ _ _ _ Hm Hg) as Hm1.
  destruct Hg as (Hs & Hc & Ha). rewrite Nat2Z.id, take_ge by done.
  pose proof (wf_count _ Hm). pose proof (wf_rt _ Hm).
  rewrite arr_set_in by lia. cbn. rewrite register_policy_exact by done. rewrite append_slot by done.
  destruct node_ok; [done|]. now destruct malloc_checked.
Qed.

Lemma installed_result m class type bytes :
  cache_wf m -> install_guards m class type bytes ->
  install_result m class type bytes (installed m class type bytes).
Proof.
  intros Hm Hg. pose proof (install_runtime_wf _ _ _ _ Hm Hg) as Hm1.
  destruct Hg as (Hs & Hc & Ha). pose proof (wf_count _ Hm). pose proof (wf_rt _ Hm).
  pose proof (arr_set_in (runtime_policy_arr m) (runtime_policy_count m)
    (PolicyCacheC (Z.of_nat (length bytes)) (Some bytes) false) ltac:(lia)) as Hset.
  pose proof (register_policy_exact _ true class type (PID_NUM + runtime_policy_count m) Hm1 Hs) as Er.
  cbn [policy_masks set_runtime] in Er.
  assert (Ei : installed m class type bytes = registered (set_runtime m _ (runtime_policy_count m + 1))
    (masked (policy_masks m) class type) (<[Z.to_nat (table_index class type) :=
      slot_list m class type ++ [PID_NUM + runtime_policy_count m]]> (policy_manager m)))
    by (rewrite append_slot by done; reflexivity).
  rewrite Ei. split; [|split; [done|split; [|split]]].
  - eapply register_policy_wf; [exact Hm1|exact Hs| |exact Er]. cbn. lia.
  - rewrite (get_policy_slot_runtime m _ (runtime_policy_count m) _ _ _ Hm ltac:(lia) _ Hset). now rewrite decide_True.
  - intros q Hq. rewrite (get_policy_slot_runtime m _ (runtime_policy_count m) _ _ _ Hm ltac:(lia) _ Hset).
    now rewrite decide_False.
  - intros c t Hct. rewrite (slot_list_registered (set_runtime m _ _)) by done.
    destruct (decide _) as [[= <- <-]|]; done.
Qed.

Lemma install_spec m class type bytes :
  cache_wf m -> install_guards m class type bytes ->
  exists m1,
    install_result m class type bytes m1 /\
    ifw_install_policy m true true class type (Some bytes) (Z.of_nat (length bytes)) = Ok (m1, 0).
Proof.
  intros Hm Hg. exists (installed m class type bytes).
  split; [now apply installed_result|now rewrite install_exact].
Qed.

(** A sequence of installations, with every allocation successful. *)
Fixpoint install_all (m : policy_state) (reqs : list (Z * Z * list Z))
    : res (policy_state * list Z) :=
  match reqs with
  | [] => Ok (m, [])
  | (class, type, bytes) :: reqs =>
      '(m, r) ← ifw_install_policy m true true class type (Some bytes)
                  (Z.of_nat (length bytes));
      '(m, rs) ← install_all m reqs;
      Ok (m, r :: rs)
  end.

(** When the runtime slots are used up, a request with legal code and a legal
    slot gets the code for that. *)
Lemma install_full m class type bytes :
  slot_in class type -> policy_allowed bytes fsm_sizeof ->
  runtime_policy_count m = IFW_MAX_RUNTIME_POLICIES ->
  ifw_install_policy m true true class type (Some bytes) (Z.of_nat (length bytes)) =
  Ok (m, -3).
Proof.
  intros Hs Ha Hc. destruct (Hs) as [[? ?] [? ?]].
  assert (Hv : ifw_verify_policy (Some bytes) (Z.of_nat (length bytes)) fsm_sizeof = 0)
    by now apply verify_policy_allowed.
  unfold ifw_verify_policy in Hv. unfold ifw_install_policy.
  destruct (_ || _); [discriminate|]. rewrite Hc.
  replace ((class <? 0) || (class_val IFW_STATE_CLASS_NUM <=? class) ||
    (type <? 0) || (IFW_DC_PARAM_NUM <=? type)) with false by lia.
  now rewrite Z.leb_refl.
Qed.

(** ** Execution of the policies of a slot *)

(** The globals after the machines were pointed at some code. *)
Definition same_tables (m m' : policy_state) : Prop :=
  exists vm jvm, m' = PolicyState (policy_masks m) (policy_mgr_init m) (policy_manager m) (policy_arr m)
    (runtime_policy_arr m) (runtime_policy_count m) vm jvm.

(** What interpreting [bytes] on the state [bs] gives. *)
Definition policy_result (E : exec_env) (bytes bs : list Z) : res (Z * memory) :=
  run bytes false None 64 (env_fuel E) (init_cpu (env_fsm E) (env_stk E) bs).

(** The native code of [bytes] returns [v] on [bs] and leaves [bs] as it is. *)
Definition jit_returns (E : exec_env) (bytes : list Z) (sz : Z) (bs : list Z) (v : Z) : Prop :=
  forall vm, use_jit vm = true ->
  exists vm', gen_jit_code E (ebpf_vm_set_inst vm bytes sz) = Ok vm' /\ use_jit vm' = true /\
    jit_call E vm' bs 64 = Ok (v, bs).

(** The policy in slot [pid], interpreted or compiled, returns [v] on [bs] and
    leaves [bs] as it is. *)
Definition policy_returns (E : exec_env) (m : policy_state) (bs : list Z) (pid v : Z) : Prop :=
  exists p bytes, get_policy_slot m pid = Some p /\ size p <> 0 /\ code p = Some bytes /\
    if jit p then jit_returns E bytes (size p) bs v
    else exists mem, policy_result E bytes bs = Ok (v, mem) /\ mem_bytes mem = bs.

Lemma set_vm_tables m j vm : same_tables m (set_default_vm m j vm).
Proof. now eexists _, _. Qed.

Lemma same_tables_refl m : same_tables m m.
Proof. destruct m. now eexists _, _. Qed.

Lemma same_tables_trans m1 m2 m3 : same_tables m1 m2 -> same_tables m2 m3 -> same_tables m1 m3.
Proof. intros (? & ? & ->) (? & ? & ->). now eexists _, _. Qed.

Lemma same_tables_wf m vm :
  cache_wf m -> bounds_check_enabled vm = false -> helper_func vm = None ->
  use_jit vm = false -> cache_wf (set_default_vm m false vm).
Proof.
  intros [] Hb Hh Hu. constructor; cbn; try done. intros vm' [= <-]. done.
Qed.

Lemma same_tables_wf_jit m vm : cache_wf m -> use_jit vm = true -> cache_wf (set_default_vm m true vm).
Proof. intros [] Hu. constructor; cbn; try done. intros vm' [= <-]. done. Qed.

Lemma get_default_vm_wf m :
  cache_wf m -> exists vm, get_default_vm m true false = Ok
    (match g_vm m with Some _ => m | None => set_default_vm m false vm end, vm) /\
    bounds_check_enabled vm = false /\ helper_func vm = None /\ use_jit vm = false.
Proof.
  intros Hm. unfold get_default_vm. pose proof (wf_vm _ Hm) as Hv.
  destruct (g_vm m) as [vm|]; eexists; (split; [reflexivity|]); [now apply Hv|done].
Qed.

(** The machine for native code, created when it is first used. *)
Lemma get_default_vm_wf_jit m :
  cache_wf m -> exists m1 vm, get_default_vm m true true = Ok (m1, vm) /\ use_jit vm = true /\
    cache_wf m1 /\ forall vm', set_default_vm m1 true vm' = set_default_vm m true vm'.
Proof.
  intros Hm. unfold get_default_vm. pose proof (wf_jit_vm _ Hm) as Hv.
  destruct (g_jit_vm m) as [vm|]; eexists _, _; (split; [reflexivity|]).
  - split; [now apply Hv|done].
  - split; [done|]. split; [now apply same_tables_wf_jit|done].
Qed.

Lemma run_fsm_ebpf_policy_eq E m bs pid v :
  cache_wf m -> policy_returns E m bs pid v ->
  exists m', run_fsm_ebpf_policy E true m pid bs 64 = Ok (m', v, bs) /\
    same_tables m m' /\ cache_wf m'.
Proof.
  intros Hm (p & bytes & Hslot & Hsize & Hcode & Hret).
  unfold run_fsm_ebpf_policy, get_vm_from_cache, load_ebpf_code. rewrite Hslot.
  replace (size p =? 0) with false by lia. destruct (jit p).
  - destruct (get_default_vm_wf_jit m Hm) as (m1 & vm & -> & Hu & Hm1 & Es). cbn. rewrite Hcode. cbn.
    destruct (Hret vm Hu) as (vm' & -> & Hu' & Hcall). cbn. rewrite Hu', Hcall. cbn.
    eexists. split; [reflexivity|]. rewrite Es. split; [apply set_vm_tables|].
    now apply same_tables_wf_jit.
  - destruct Hret as (mem & Hrun & Hbs).
    destruct (get_default_vm_wf m Hm) as (vm & -> & Hb & Hh & Hu). cbn. rewrite Hcode. cbn.
    rewrite Hu. unfold ebpf_vm_exec. cbn. rewrite Hb, Hh. cbn.
    unfold policy_result in Hrun. rewrite Hrun. cbn. rewrite Hbs.
    eexists. split; [reflexivity|].
    assert (Es : set_default_vm match g_vm m with Some _ => m
       | None => set_default_vm m false vm end false (ebpf_vm_set_inst vm bytes (size p))
       = set_default_vm m false (ebpf_vm_set_inst vm bytes (size p))) by now destruct (g_vm m).
    rewrite Es. split; [apply set_vm_tables|]. now apply same_tables_wf.
Qed.

Lemma policy_returns_same E m m' bs pid v :
  same_tables m m' -> policy_returns E m bs pid v -> policy_returns E m' bs pid v.
Proof. intros (vm & jvm & ->). done. Qed.

(** The loop over the policies is a disjunction. *)
Lemma run_policies_eq E m bs l val :
  cache_wf m -> Forall (fun pid => policy_returns E m bs pid (val pid)) l ->
  exists m', run_policies E true m l bs =
      Ok (m', if existsb (fun pid => val pid =? IFW_OPERATION_REJECT) l
              then IFW_OPERATION_REJECT else IFW_OPERATION_PASS, bs) /\
    (m' = m \/ same_tables m m') /\ cache_wf m'.
Proof.
  intros Hm Hl. revert m Hm Hl. induction l as [|pid l IH]; intros m Hm Hl.
  { exists m. split; [done|]. split; [by left|done]. }
  apply Forall_cons_1 in Hl as [Hp Hl].
  destruct (run_fsm_ebpf_policy_eq E m bs pid (val pid) Hm Hp) as (m1 & E1 & Hs & Hm1).
  cbn [run_policies existsb]. rewrite E1. cbn.
  destruct (val pid =? IFW_OPERATION_REJECT) eqn:Ev; cbn; [exists m1; auto|].
  destruct (IH m1 Hm1) as (m2 & E2 & Hs2 & Hm2).
  { eapply Forall_impl; [exact Hl|]. intros q. now apply policy_returns_same. }
  exists m2. split; [exact E2|]. split; [right|done].
  destruct Hs2 as [->|Hs2]; [done|]. eauto using same_tables_trans.
Qed.

(** Code that runs to its end on every state. *)
Record policy_legal (bytes : list Z) : Prop := PolicyLegal {
  legal_bytes : Forall (fun b => is_byte b = true) bytes;
  legal_allowed : policy_allowed bytes fsm_sizeof;
  legal_closed : policy_closed (program bytes) = true;
  legal_arith : policy_arith (program bytes) = true;
  legal_aligned : policy_aligned (program bytes) = true;
}.

(** A state and an environment a policy can run on. *)
Definition runnable (E : exec_env) (bs : list Z) : Prop :=
  fsm_sizeof <= Z.of_nat (length bs) /\
  placed 4 (env_fsm E) (Z.of_nat (length bs)) /\ placed 8 (env_stk E) STACK_SIZE.

(** Legal code returns and leaves the state, also with bytes after it: the literal of a
    shipped policy ends in a NUL. *)
Lemma legal_policy_result E bs bytes tail :
  policy_legal bytes -> runnable E bs -> (length bytes / 8 <= env_fuel E)%nat ->
  exists v, policy_result E (bytes ++ tail) bs = Ok (v, cmem (init_cpu (env_fsm E) (env_stk E) bs)).
Proof.
  intros [Hb Hv Hcl Har Hal] (Hms & Hf & Hst) Hfuel. apply verify_policy_allowed in Hv.
  pose proof (verified_run bytes fsm_sizeof (env_fsm E) (env_stk E) bs false None 64
    Hb Hv Hcl Hal Hms Hf Hst) as Hr. rewrite Har in Hr. unfold safe in Hr.
  destruct (run bytes false None 64 (length bytes / 8) _) as [[v mem]|[]|] eqn:Er; try done.
  cbn in Hr. subst mem. exists v. unfold policy_result. apply run_app.
  rewrite (run_mono _ _ _ _ (length bytes / 8) (env_fuel E) _ Hfuel); [exact Er|congruence].
Qed.

(** The policy in slot [pid] is interpreted and its code is legal. *)
Definition slot_legal (E : exec_env) (m : policy_state) (pid : Z) : Prop :=
  exists p bytes tail, get_policy_slot m pid = Some p /\ jit p = false /\
    code p = Some (bytes ++ tail) /\ size p <> 0 /\ policy_legal bytes /\
    (length bytes / 8 <= env_fuel E)%nat.

(** The value of the policy in slot [pid] on the state. *)
Definition policy_value (E : exec_env) (m : policy_state) (bs : list Z) (pid : Z) : Z :=
  match (p ← get_policy_slot m pid; code p) with
  | Some bytes => match policy_result E bytes bs with Ok (v, _) => v | _ => 0 end
  | None => 0
  end.

Lemma slot_legal_returns E m bs pid :
  slot_legal E m pid -> runnable E bs -> policy_returns E m bs pid (policy_value E m bs pid).
Proof.
  intros (p & bytes & tail & Hs & Hj & Hc & Hz & Hl & Hf) Hr.
  destruct (legal_policy_result E bs bytes tail Hl Hr Hf) as (v & Hv).
  exists p, (bytes ++ tail). split; [done|]. split; [done|]. split; [done|]. rewrite Hj.
  unfold policy_value. rewrite Hs. cbn. rewrite Hc, Hv. eauto.
Qed.

(** A policy that returns on the globals before an installation returns the same
    after it. *)
Lemma install_keeps_returns E m class type bytes m' bs val l :
  install_result m class type bytes m' ->
  Forall (fun pid => 0 <= pid < PID_NUM + runtime_policy_count m) l ->
  Forall (fun pid => policy_returns E m bs pid (val pid)) l ->
  Forall (fun pid => policy_returns E m' bs pid (val pid)) l.
Proof.
  intros (_ & _ & _ & Hq & _) Hl Hr. rewrite Forall_forall in *. intros pid Hin.
  destruct (Hr pid Hin) as (p & c & Hs & H). exists p, c.
  rewrite Hq; [done|]. specialize (Hl pid Hin). cbn in Hl. lia.
Qed.

Lemma existsb_ext_in {A} (f g : A -> bool) l :
  (forall x, In x l -> f x = g x) -> existsb f l = existsb g l.
Proof.
  induction l as [|x l IH]; intros H; cbn; [done|].
  rewrite (H x) by now left. rewrite IH; [done|]. intros y Hy. apply H. now right.
Qed.

(** ** Removal *)
Lemma unlink_fresh pid l : ~ In pid l -> unlink pid (l ++ [pid]) = l.
Proof.
  induction l as [|q l IH]; cbn; intros H.
  - now rewrite Z.eqb_refl.
  - destruct (Z.eqb_spec q pid); [tauto|]. rewrite IH; tauto.
Qed.

(** ** Properties *)

(** C15 — [ifw_install_policy] on code that passes its guards (slot in range, fewer than
    eight runtime policies, accepted by the verifier), with memory for the copy: when the
    list node is allocated too it returns 0 with exactly the globals [installed], which
    keep the invariant, hold a copy of the code in the next runtime slot, name it at the
    end of the list of its (class, type) slot, and have every other slot and list as
    before; when the list node is not allocated, a port that tests for that returns 0
    with the same globals but all lists as before, so that the policy never runs, and
    the other port dereferences null. *)
Theorem install_policy_ok m node_ok class type bytes :
  cache_wf m -> install_guards m class type bytes ->
  let m' := installed m class type bytes in
  ifw_install_policy m true node_ok class type (Some bytes) (Z.of_nat (length bytes)) =
    (if node_ok then Ok (m', 0)
     else if malloc_checked then Ok (set_table m' (policy_manager m), 0)
     else Crash NullDeref) /\
  install_result m class type bytes m' /\ cache_wf (set_table m' (policy_manager m)).
Proof.
  intros Hm Hg m'. split; [now apply install_exact|]. split; [now apply installed_result|].
  pose proof (wf_masks _ Hm). pose proof (install_runtime_wf _ _ _ _ Hm Hg) as Hm1.
  apply (registered_wf _ (masked (policy_masks m) class type) (policy_manager m)) in Hm1; try exact Hm1.
  - unfold masked. now rewrite length_alter.
  - apply (wf_table _ Hm).
  - eapply Forall_impl; [exact (wf_pids _ Hm)|]. intros l Hl. eapply Forall_impl; [exact Hl|]. cbn. lia.
Qed.

(** C28 — The failures of [ifw_install_policy], in the order of its tests: a null
    pointer or a length that is zero or ragged gives -1, a slot out of range -2, eight
    policies already installed -3, code that breaks the verifier's rules the verifier's
    own code, which is negative, and no memory for the copy -4; each leaves the globals
    exactly as they were, and no call, whatever its arguments, returns anything but 0 or
    a negative code with the globals unchanged. *)
Theorem install_policy_error m copy_ok node_ok class type code len :
  let r := ifw_install_policy m copy_ok node_ok class type code len in
  (code = None -> r = Ok (m, -1)) /\
  (forall bytes, code = Some bytes -> len = Z.of_nat (length bytes) ->
     let legal := 0 < len /\ len mod 8 = 0 in
     (~ legal -> r = Ok (m, -1)) /\
     (legal -> ~ slot_in class type -> r = Ok (m, -2)) /\
     (legal -> slot_in class type -> IFW_MAX_RUNTIME_POLICIES <= runtime_policy_count m ->
        r = Ok (m, -3)) /\
     (legal -> slot_in class type -> runtime_policy_count m < IFW_MAX_RUNTIME_POLICIES ->
        ~ policy_allowed bytes fsm_sizeof ->
        ifw_verify_policy code len fsm_sizeof < 0 /\
        r = Ok (m, ifw_verify_policy code len fsm_sizeof)) /\
     (install_guards m class type bytes -> copy_ok = false -> r = Ok (m, -4))) /\
  (forall m' e, r = Ok (m', e) -> e = 0 \/ e < 0 /\ m' = m).
Proof.
  intros r. subst r. unfold ifw_install_policy. split; [now intros ->|]. split.
  - intros bytes -> ->. pose proof (verify_policy_allowed bytes fsm_sizeof) as Hv.
    pose proof (ifw_verify_policy_nonpos (Some bytes) (Z.of_nat (length bytes)) fsm_sizeof) as Hn.
    unfold install_guards, slot_in in *. set (len := Z.of_nat (length bytes)) in *.
    assert (Hlen : 0 <= len) by lia. assert (Hal : policy_allowed bytes fsm_sizeof -> 0 < len /\ len mod 8 = 0).
    { intros Ha%Hv. unfold ifw_verify_policy in Ha. destruct (_ || _) eqn:E in Ha; [done|]. lia. }
    assert (Hd : policy_allowed bytes fsm_sizeof /\ ifw_verify_policy (Some bytes) len fsm_sizeof = 0 \/
                 ~ policy_allowed bytes fsm_sizeof /\ ifw_verify_policy (Some bytes) len fsm_sizeof < 0)
      by (destruct (Z.eq_dec (ifw_verify_policy (Some bytes) len fsm_sizeof) 0); [tauto|right; split; [tauto|lia]]).
    clear Hv Hn. split_and!; intros; destruct Hd as [[Ha Hz]|[Ha Hz]]; try tauto; try rewrite Hz;
      try (specialize (Hal Ha)).
    all: repeat case_match; try done; try (exfalso; lia); try (exfalso; tauto); now subst.
  - intros m' e H. destruct code as [bytes|]; [|injection H as <- <-; right; split; [lia|done]].
    pose proof (ifw_verify_policy_nonpos (Some bytes) len fsm_sizeof) as Hn.
    assert (Hr : forall k, k < 0 -> Ok (m, k) = Ok (m', e) -> e = 0 \/ e < 0 /\ m' = m)
      by (intros k Hk [= <- <-]; auto).
    repeat (case_match; [revert H; apply Hr; lia|]).
    apply bind_Ok in H as (a & _ & H). apply bind_Ok in H as (m1 & _ & H). left. congruence.
Qed.

(** Removing a policy from a slot right after registering it there restores
    every list, when the slot did not name it before. *)
Theorem register_remove m class type pid :
  cache_wf m -> slot_in class type -> ~ In pid (slot_list m class type) ->
  exists m1 m2, register_policy m true class type pid = Ok m1 /\
    slot_list m1 class type = slot_list m class type ++ [pid] /\
    remove_policy m1 class type pid = Ok m2 /\ policy_manager m2 = policy_manager m.
Proof.
  intros Hm Hs Hfresh. pose proof (table_index_range _ _ Hs). pose proof (wf_table _ Hm).
  destruct (register_policy_eq m true class type pid Hm Hs) as (ms & Hl & ->).
  eexists _, _. split; [reflexivity|].
  assert (Hr : slot_list (registered m ms (<[Z.to_nat (table_index class type) :=
     slot_list m class type ++ [pid]]> (policy_manager m))) class type =
     slot_list m class type ++ [pid])
    by (rewrite slot_list_registered by done; now rewrite decide_True).
  split; [exact Hr|]. unfold remove_policy.
  rewrite table_get_len by (cbn; rewrite ?length_insert; done). rewrite Hr. cbn.
  rewrite unlink_fresh by done. unfold table_set. cbn.
  rewrite arr_set_in by (rewrite length_insert; lia). cbn.
  split; [reflexivity|]. cbn. rewrite list_insert_insert_eq. apply list_insert_id.
  unfold slot_list. destruct (arr_get (policy_manager m) _) eqn:Eg; cbn.
  - now apply arr_get_Some in Eg.
  - apply arr_get_None in Eg. lia.
Qed.

(** C16 — [run_fsm_check_policy] implements the disjunction of its policies: when every
    policy listed for the slot is interpreted and its code is legal (accepted by the
    verifier, closed, with legal arithmetic and aligned loads), the call always returns;
    it rejects exactly when the value of one of the listed policies on the state is
    [IFW_OPERATION_REJECT], passes otherwise, and leaves the state, the lists, the masks
    and the slots as they were. *)
Theorem check_policy_disjunction E m bs class type :
  cache_wf m -> slot_in class type -> runnable E bs ->
  Forall (slot_legal E m) (slot_list m class type) ->
  exists m', run_fsm_check_policy E true m type class bs =
      Ok (m', if existsb (fun pid => policy_value E m bs pid =? IFW_OPERATION_REJECT)
                   (slot_list m class type)
              then IFW_OPERATION_REJECT else IFW_OPERATION_PASS, bs) /\
    same_tables m m' /\ cache_wf m'.
Proof.
  intros Hm Hs Hr Hl. unfold run_fsm_check_policy. rewrite table_get_ok by done. cbn.
  destruct (run_policies_eq E m bs (slot_list m class type) (policy_value E m bs) Hm) as (m' & -> & Ht & Hm').
  { eapply Forall_impl; [exact Hl|]. intros pid Hp. now apply slot_legal_returns. }
  exists m'. split; [done|]. split; [|done]. destruct Ht as [->|Ht]; [apply same_tables_refl|done].
Qed.

(** A policy installed at run time is enforced from the next check on, next
    to the policies of its slot: when its code is legal, installation returns 0, the policy returns some value on
    the state, and the slot then rejects exactly when one of its earlier policies
    rejects or that value is [IFW_OPERATION_REJECT]. *)
Lemma install_then_check E m class type bytes bs val :
  cache_wf m -> install_guards m class type bytes ->
  policy_legal bytes -> runnable E bs -> (length bytes / 8 <= env_fuel E)%nat ->
  Forall (fun pid => policy_returns E m bs pid (val pid)) (slot_list m class type) ->
  exists v mem m1 m2,
    policy_result E bytes bs = Ok (v, mem) /\
    ifw_install_policy m true true class type (Some bytes) (Z.of_nat (length bytes)) =
      Ok (m1, 0) /\
    run_fsm_check_policy E true m1 type class bs =
      Ok (m2, if existsb (fun pid => val pid =? IFW_OPERATION_REJECT)
                   (slot_list m class type) || (v =? IFW_OPERATION_REJECT)
              then IFW_OPERATION_REJECT else IFW_OPERATION_PASS, bs).
Proof.
  intros Hm Hg Hleg Hrun Hfuel Hold.
  destruct (install_spec m class type bytes Hm Hg) as (m1 & Hr & Ei).
  pose proof (slot_list_pids m class type Hm) as Hpids.
  pose proof (install_keeps_returns _ _ _ _ _ _ _ _ _ Hr Hpids Hold) as Hold1.
  destruct Hr as (Hm1 & _ & Hslot & _ & Hlists). destruct Hg as (Hin & _ & _).
  set (new := PID_NUM + runtime_policy_count m) in *.
  destruct (legal_policy_result E bs bytes [] Hleg Hrun Hfuel) as (v & Hres). rewrite app_nil_r in Hres.
  assert (Hv : policy_returns E m1 bs new v).
  { eexists _, bytes. split; [exact Hslot|]. destruct (legal_allowed _ Hleg) as (Hl & Hn & _).
    split; [cbn; lia|]. split; [done|]. cbn. eauto. }
  assert (Hnew : Forall (fun pid => pid <> new) (slot_list m class type))
    by (eapply Forall_impl; [exact Hpids|]; cbn; lia).
  rewrite Forall_forall in Hnew.
  destruct (run_policies_eq E m1 bs (slot_list m class type ++ [new])
    (fun q => if decide (q = new) then v else val q) Hm1) as (m2 & E2 & _).
  { apply Forall_app. split.
    - rewrite Forall_forall in *. intros q Hq. rewrite decide_False by now apply Hnew.
      now apply Hold1.
    - constructor; [|constructor]. now rewrite decide_True. }
  eexists v, _, m1, m2. split; [exact Hres|]. split; [done|].
  unfold run_fsm_check_policy. rewrite table_get_ok by done. cbn.
  rewrite (Hlists class type Hin), decide_True by done. rewrite E2. do 3 f_equal.
  rewrite existsb_app. cbn. rewrite decide_True by done. rewrite orb_false_r.
  rewrite (existsb_ext_in _ (fun pid => val pid =? IFW_OPERATION_REJECT)); [done|].
  intros q Hq. rewrite decide_False; [done|]. apply Hnew. now apply list_elem_of_In.
Qed.
(** C20 — Of any sequence of installations of accepted policies into legal slots,
    exactly as many succeed as runtime slots were free, all of them first; the globals
    at the end are those after these successful installations, one [installed] after the
    other, so every later one, which returns -3, changes nothing. *)
Theorem install_limit m reqs :
  cache_wf m ->
  Forall (fun '(class, type, bytes) =>
    slot_in class type /\ policy_allowed bytes fsm_sizeof) reqs ->
  let free := Z.to_nat (IFW_MAX_RUNTIME_POLICIES - runtime_policy_count m) in
  let done := Nat.min (length reqs) free in
  let m' := fold_left (fun m '(class, type, bytes) => installed m class type bytes) (take done reqs) m in
  install_all m reqs = Ok (m', replicate done 0 ++ replicate (length reqs - done) (-3)) /\
  cache_wf m' /\ runtime_policy_count m' = runtime_policy_count m + Z.of_nat done.
Proof.
  intros Hm Hreqs. revert m Hm.
  induction Hreqs as [|[[class type] bytes] reqs [Hs Ha] _ IH]; intros m Hm; cbn [length].
  { split; [done|]. split; [done|]. cbn. lia. }
  pose proof (wf_count _ Hm). cbn [install_all].
  destruct (decide (runtime_policy_count m = IFW_MAX_RUNTIME_POLICIES)) as [E|E].
  - rewrite install_full by done. cbn [mbind res_bind].
    destruct (IH m Hm) as (-> & Hm' & Hc). rewrite E in *.
    rewrite Z.sub_diag in *. cbn [Z.to_nat] in *. rewrite Nat.min_0_r in *.
    rewrite Nat.sub_0_r in *. done.
  - assert (Hg : install_guards m class type bytes) by (split; [done|split; [lia|done]]).
    rewrite install_exact by done. cbn [mbind res_bind].
    destruct (installed_result m class type bytes Hm Hg) as (Hm1 & Hc1 & _).
    destruct (IH _ Hm1) as (-> & Hm' & Hc). rewrite Hc1 in *.
    replace (Z.to_nat (IFW_MAX_RUNTIME_POLICIES - runtime_policy_count m)) with
      (S (Z.to_nat (IFW_MAX_RUNTIME_POLICIES - (runtime_policy_count m + 1)))) by lia.
    cbn [Nat.min]. cbn [mbind res_bind]. split; [done|]. split; [done|]. cbn [take fold_left]. lia.
Qed.
End Cache.
