(* ===== verification/PolicyExec.v ===== *)
(** * Executing a fixed policy on an arbitrary state

    Lemmas and tactics that run the interpreter through the instructions of a
    known program while the words of [struct FsmState] stay symbolic, and the
    translation of the accesses [fsm->class[type]] of the policies' C sources. *)
From stdpp Require Import base tactics numbers list.
From Stdlib Require Import ZArith Lia.
From S2P Require Import Prelude Inst VM VMFacts Verifier Fsm PolicyCache.
Local Open Scope Z_scope.


(** One iteration at a known instruction. *)
Lemma run_at code mem_len n p rs m i o :
  inst_at code p = Some i -> opcode_of (opcode i) = Some o ->
  run code false None mem_len (S n) (Cpu p rs m) =
  (s ← dispatch code false None mem_len (Cpu (u16 (p + 1)) rs m) i o;
   match s with
   | Continue c' => run code false None mem_len n c'
   | Return v m => Ok (v, m)
   end).
Proof. intros Hi Ho. unfold run at 1. fold run. unfold step. cbn [pc]. rewrite Hi. cbn. now rewrite Ho. Qed.

(** A load of the word of a slot. *)
Lemma cload_slot `{L : FsmLayout} s base stk sb c k w off :
  fsm_wf s -> placed 4 base fsm_sizeof -> class_arr c s !! k = Some w ->
  off = 4 * Z.of_nat (class_base c + k) ->
  cload (Memory base (fsm_bytes s) stk sb) (u32 (base + off)) 4 = Ok (u32 w).
Proof.
  intros Hs (Hb0 & Hb1 & Hb2) Hw ->. pose proof (fsm_bytes_length s Hs) as Hl.
  assert (Hk : (k < class_size c)%nat).
  { apply lookup_lt_Some in Hw. destruct Hs as [Hs _]. now rewrite Hs in Hw. }
  assert (Hn : (class_base c + k < n_words)%nat)
    by (unfold n_words; destruct c; cbn in *; lia).
  unfold fsm_sizeof in *. rewrite u32_small by lia.
  rewrite cload_aligned by (apply (aligned_access 4); auto; lia || (rewrite Z.mul_comm; apply Z.mod_mul; lia)).
  unfold mload, in_region. cbn [mem_base mem_bytes].
  case_match; [|rewrite andb_false_iff, !Z.leb_gt in *; lia].
  rewrite <- (fsm_bytes_slot s c k w Hs Hk Hw). do 3 f_equal. lia.
Qed.

(** ** The tactics *)
(** Evaluates the comparisons and conversions of literals. *)
Ltac eval_literals :=
  repeat match goal with
  | |- context [?a <=? ?b] =>
      zcst a; zcst b; let v := eval vm_compute in (a <=? b) in change (a <=? b) with v
  | |- context [?a <? ?b] =>
      zcst a; zcst b; let v := eval vm_compute in (a <? b) in change (a <? b) with v
  | |- context [u16 ?e] => let v := eval vm_compute in (u16 e) in change (u16 e) with v
  end.

(** Runs one instruction; the values of the registers stay as they are written. *)
Ltac exec_inst :=
  erewrite run_at; [|vm_compute; reflexivity|vm_compute; reflexivity];
  cbv [dispatch step_alu32 step_alu64 step_mem step_jmp step_misc step_load BOUNDS_CHECK
       bounds_check opcode dst src offset imm pc regs cmem get_reg set_reg of_option
       arr_get arr_set mbind res_bind jump negb return_m1 shl_c shr_c length Z.of_nat
       Pos.of_succ_nat Pos.succ];
  eval_literals;
  cbv [andb orb Z.to_nat Pos.to_nat Pos.iter_op Nat.add lookup list_lookup insert list_insert];
  eval_literals.

(** ** Values of registers *)
Lemma sext_word w : is_int w ->
  u64 (Z.shiftr (s64 (u64 (Z.shiftl (u32 w) 32))) 32) = u64 w.
Proof. intros H. rewrite shl32_ashr32, s32_u32, s32_small by exact H. done. Qed.

Lemma s64_u64_int w : is_int w -> s64 (u64 w) = w.
Proof. unfold is_int. clia. Qed.

Lemma word_eqb w k : is_int w -> 0 <= k < 2 ^ 31 -> (u32 w =? u64 k) = (w =? k).
Proof. unfold is_int. intros. apply eq_bool_prop_intro. rewrite !Is_true_true, !Z.eqb_eq. clia. Qed.

Lemma words_eqb v w : is_int v -> is_int w -> (u32 v =? u32 w) = (v =? w).
Proof. unfold is_int. intros. apply eq_bool_prop_intro. rewrite !Is_true_true, !Z.eqb_eq. clia. Qed.

Lemma land_word w k : 0 <= k < 2 ^ 32 -> Z.land (u32 w) (u64 k) = Z.land w k.
Proof.
  intros H. rewrite u64_small by lia. unfold u32. rewrite <- Z.land_ones by lia.
  rewrite <- Z.land_assoc, (Z.land_comm (Z.ones 32)), Z.land_ones by lia.
  now rewrite Z.mod_small by lia.
Qed.

(** ** Slots of a state in memory *)
Lemma slot_load `{L : FsmLayout} s base c k :
  fsm_wf s -> placed 4 base fsm_sizeof -> (k < class_size c)%nat ->
  exists w, is_int w /\ get_slot c (Z.of_nat k) s = Ok w /\
    forall stk sb off, off = 4 * Z.of_nat (class_base c + k) ->
      cload (Memory base (fsm_bytes s) stk sb) (u32 (base + off)) 4 = Ok (u32 w).
Proof.
  intros Hs Hb Hk. destruct (lookup_lt_is_Some_2 (class_arr c s) k) as [w Hw].
  { destruct Hs as [Hl _]. now rewrite Hl. }
  exists w. split; [|split].
  - exact (Forall_lookup_1 _ _ _ _ (class_arr_int s c Hs) Hw).
  - unfold get_slot. replace (arr_get (class_arr c s) (Z.of_nat k)) with (Some w); [done|].
    symmetry. apply arr_get_Some. rewrite Nat2Z.id. split; [lia|done].
  - intros stk sb off. now apply cload_slot.
Qed.

(** A policy terminates with [r] and leaves the memory alone. *)
Definition policy_runs `{L : FsmLayout} (bytes : list Z) (f : FsmState -> res Z) : Prop :=
  forall E s, fsm_wf s -> placed 4 (env_fsm E) fsm_sizeof ->
    (length bytes / 8 <= env_fuel E)%nat ->
    policy_result E bytes (fsm_bytes s) =
    (v ← f s; Ok (v, cmem (init_cpu (env_fsm E) (env_stk E) (fsm_bytes s)))) /\
    exists v, f s = Ok v.

Lemma policy_runs_intro `{L : FsmLayout} bytes f :
  (forall base stk r10 sb s, fsm_wf s -> placed 4 base fsm_sizeof ->
     (exists v, f s = Ok v) /\
     run bytes false None 64 (length bytes / 8)
       (Cpu 0 [0; base; 0; 0; 0; 0; 0; 0; 0; 0; r10; 0] (Memory base (fsm_bytes s) stk sb)) =
     (v ← f s; Ok (v, Memory base (fsm_bytes s) stk sb))) ->
  policy_runs bytes f.
Proof.
  intros H E s Hs Hb Hf.
  destruct (H (env_fsm E) (env_stk E) (u32 (env_stk E + STACK_SIZE))
    (replicate (Z.to_nat STACK_SIZE) 0) s Hs Hb) as [[v Hv] Hr].
  split; [|eauto]. rewrite Hv in *. unfold policy_result.
  rewrite (run_mono _ _ _ _ _ _ _ Hf); unfold init_cpu in *; rewrite Hr; done.
Qed.

(** Names the word [w] of slot [k] of class [c], at byte offset [off]. *)
Ltac with_slot c k off w :=
  match goal with
  | Hs : fsm_wf ?s, Hb : placed 4 ?base fsm_sizeof |- _ =>
      let Hw := fresh "Hint" in let Hg := fresh "Hget" in let Hl := fresh "Hload" in
      destruct (slot_load s base c k Hs Hb ltac:(cbn; lia)) as (w & Hw & Hg & Hl);
      specialize (fun stk sb => Hl stk sb off eq_refl);
      change (Z.of_nat k) with ltac:(let v := eval vm_compute in (Z.of_nat k) in exact v) in Hg
  end.

(** Runs a policy to its end, splitting at the branches. *)
Ltac exec_policy :=
  repeat (first
    [ progress exec_inst
    | match goal with H : forall stk sb, cload _ _ _ = _ |- _ => rewrite H end
    | match goal with |- context [if ?b then Cpu _ _ _ else _] => destruct b eqn:? end ]).

(** Evaluates the conversions of literals. *)
Ltac eval_conv_in H :=
  repeat match type of H with
  | context [u64 ?k] => zcst k; let v := eval vm_compute in (u64 k) in change (u64 k) with v in H
  | context [u32 ?k] => zcst k; let v := eval vm_compute in (u32 k) in change (u32 k) with v in H
  | context [s64 ?k] => zcst k; let v := eval vm_compute in (s64 k) in change (s64 k) with v in H
  end.

(** Puts the conditions of the branches in terms of the words. *)
Ltac norm_words :=
  repeat match goal with
  | H : is_int ?w |- _ =>
      progress rewrite ?(sext_word w H), ?(s64_u64_int w H) in *
  end;
  rewrite ?word_eqb, ?words_eqb, ?land_word in * by (assumption || lia);
  repeat match goal with H : _ = true |- _ => progress eval_conv_in H end;
  repeat match goal with H : _ = false |- _ => progress eval_conv_in H end.

(** Decides the branches that are left, innermost conditions first. *)
Ltac split_ifs :=
  repeat match goal with
  | |- context [if ?b then _ else _] =>
      lazymatch b with context [if _ then _ else _] => fail | _ => destruct b eqn:? end
  end;
  first [reflexivity | exfalso; lia].
