(* ===== verification/Mempool.v ===== *)
(** * Memory pools of NimBLE

    [porting/nimble/src/os_mempool.c]: a pool of blocks of one size, whose free blocks
    are linked through their first word, and the list of all pools. The configuration is
    the default one, without poisoning and guard words; [OS_MEMPOOL_CHECK] is a parameter.
    The name of a pool is the string that its pointer refers to.

    The memory is a finite map from the addresses of blocks to blocks. What a block
    holds is the business of the client; the pool needs only the link that it keeps in
    a free block, which is what [MemBlock] asks for. *)
From stdpp Require Import base tactics numbers list gmap sorting.
From Stdlib Require Import ZArith Lia.
From S2P Require Import Prelude.
Local Open Scope Z_scope.
Local Open Scope bits_scope.

Class MemBlock (B : Type) := {
  mb_next : B -> Z;
  set_mb_next : Z -> B -> B;
  mb_next_set v b : mb_next (set_mb_next v b) = v;
}.

(** A word that holds nothing but the link. *)
#[export] Instance word_block : MemBlock Z := {| mb_next b := b; set_mb_next v _ := v; mb_next_set v b := eq_refl |}.

(** ** The pool *)
Record os_mempool := OsMempool {
  mp_block_size : Z;    (* uint32_t *)
  mp_num_blocks : Z;    (* uint16_t *)
  mp_num_free : Z;      (* uint16_t *)
  mp_min_free : Z;      (* uint16_t *)
  mp_flags : Z;         (* uint8_t *)
  mp_membuf_addr : Z;   (* uint32_t *)
  slh_first : Z;        (* struct os_memblock * *)
  mpe_put_cb : Z;       (* of the extended pool; a function pointer *)
  mp_name : list Z;     (* char * *)
}.

Definition OS_OK : Z := 0.
Definition OS_ENOMEM : Z := 1.
Definition OS_EINVAL : Z := 2.
Definition OS_INVALID_PARM : Z := 3.
Definition OS_MEM_NOT_ALIGNED : Z := 4.
Definition OS_MEMPOOL_F_EXT : Z := 0x01.

Definition OS_ALIGNMENT : Z := 4.
Definition OS_ALIGN (n a : Z) : Z :=
  if n .& (a - 1) =? 0 then n else n + (a - (n .& (a - 1))).
Definition OS_MEM_TRUE_BLOCK_SIZE (bsize : Z) : Z := u32 (OS_ALIGN bsize OS_ALIGNMENT).

Definition os_memblock_from (mp : os_mempool) (block_addr : Z) : bool :=
  let baddr32 := u32 block_addr in
  let true_block_size := OS_MEM_TRUE_BLOCK_SIZE (mp_block_size mp) in
  let end_ := u32 (mp_membuf_addr mp + mp_num_blocks mp * true_block_size) in
  if (baddr32 <? mp_membuf_addr mp) || (end_ <=? baddr32) then false
  else u32 (baddr32 - mp_membuf_addr mp) mod true_block_size =? 0.

(** ** Blocks *)
Definition get_block {B} (m : gmap Z B) (a : Z) : res B :=
  if a =? 0 then Crash NullDeref else of_option MemFault (m !! a).

(** ** The list of pools *)

(** [g_os_mempool_list]: its head and the field [mp_list] of the pools at their addresses.
    [stqh_last] is a pointer to a pointer: 0 stands for the field [stqh_first] of the
    head, the address of a pool for its field [mp_list]. *)
Record mempool_list := MempoolList {
  mpl_first : Z;
  mpl_last : Z;
  mp_list : gmap Z Z;
}.

Definition os_mempool_module_init (g : mempool_list) : mempool_list := MempoolList 0 0 (mp_list g).

(** [STAILQ_INSERT_TAIL(&g_os_mempool_list, mp, mp_list)] *)
Definition insert_tail (g : mempool_list) (mp : Z) : res mempool_list :=
  let links := <[mp := 0]> (mp_list g) in
  if mpl_last g =? 0 then Ok (MempoolList mp mp links)
  else
    _ ← get_block links (mpl_last g);
    Ok (MempoolList (mpl_first g) mp (<[mpl_last g := mp]> links)).

(** The search of [os_mempool_unregister]: the pool and the one before it. *)
Fixpoint find_pool (fuel : nat) (g : mempool_list) (mp prev cur : Z) : res (Z * Z) :=
  match fuel with
  | O => Timeout
  | S fuel =>
      if cur =? 0 then Ok (prev, cur)
      else if cur =? mp then Ok (prev, cur)
      else next ← get_block (mp_list g) cur; find_pool fuel g mp cur next
  end.

Definition os_mempool_unregister (g : mempool_list) (mp : Z) : res (mempool_list * Z) :=
  '(prev, cur) ← find_pool (S (size (mp_list g))) g mp 0 (mpl_first g);
  if cur =? 0 then Ok (g, OS_INVALID_PARM)
  else
    next ← get_block (mp_list g) cur;
    if prev =? 0 then
      Ok (MempoolList next (if next =? 0 then 0 else mpl_last g) (mp_list g), 0)
    else
      Ok (MempoolList (mpl_first g) (if next =? 0 then prev else mpl_last g)
            (<[prev := next]> (mp_list g)), 0).

(** The pool that [os_mempool_info_get_next] reports on, null for none. *)
Definition next_pool (g : mempool_list) (mp : Z) : res Z :=
  if mp =? 0 then Ok (mpl_first g) else get_block (mp_list g) mp.

Record os_mempool_info := OsMempoolInfo {
  omi_block_size : Z;   (* int *)
  omi_num_blocks : Z;   (* int *)
  omi_num_free : Z;     (* int *)
  omi_min_free : Z;     (* int *)
  omi_name : list Z;    (* char[OS_MEMPOOL_INFO_NAME_LEN] *)
}.

Definition OS_MEMPOOL_INFO_NAME_LEN : Z := 32.

Definition os_mempool_info_get_next (g : mempool_list) (pools : gmap Z os_mempool) (mp : Z)
    : res (Z * option os_mempool_info) :=
  cur ← next_pool g mp;
  if cur =? 0 then Ok (0, None)
  else
    p ← get_block pools cur;
    Ok (cur, Some (OsMempoolInfo (s32 (mp_block_size p)) (mp_num_blocks p) (mp_num_free p) (mp_min_free p)
                     (take (Z.to_nat (OS_MEMPOOL_INFO_NAME_LEN - 1)) (mp_name p)))).

Section Pool.
  Context {B : Type} `{!MemBlock B}.
  Implicit Types (m : gmap Z B) (mp : os_mempool).

Definition link m (a next : Z) : res (gmap Z B) :=
  b ← get_block m a; Ok (<[a := set_mb_next next b]> m).

(** The loop that chains [n] more blocks behind the one at [addr]. *)
Fixpoint chain_blocks (n : nat) (true_block_size addr : Z) m : res (gmap Z B) :=
  match n with
  | O => link m addr 0
  | S n =>
      m ← link m addr (addr + true_block_size);
      chain_blocks n true_block_size (addr + true_block_size) m
  end.

(** [mp]: the address of the pool, [p]: what it holds. The result has the return code. *)
Definition os_mempool_init_internal (g : mempool_list) m (mp : Z) (p : os_mempool)
    (blocks block_size membuf : Z) (name : list Z) (flags : Z) : res (mempool_list * gmap Z B * os_mempool * Z) :=
  if (mp =? 0) || (block_size =? 0) then Ok (g, m, p, OS_INVALID_PARM)
  else if (membuf =? 0) && negb (blocks =? 0) then Ok (g, m, p, OS_INVALID_PARM)
  else if negb (membuf =? 0) && negb (u32 membuf .& (OS_ALIGNMENT - 1) =? 0)
  then Ok (g, m, p, OS_MEM_NOT_ALIGNED)
  else
    let p := OsMempool block_size blocks blocks blocks flags (u32 membuf) membuf (mpe_put_cb p) name in
    m ← (if 0 <? blocks
         then chain_blocks (Z.to_nat (blocks - 1)) (OS_MEM_TRUE_BLOCK_SIZE block_size) membuf m
         else Ok m);
    g ← insert_tail g mp;
    Ok (g, m, p, OS_OK).

Definition os_mempool_init (g : mempool_list) m (mp : Z) (p : os_mempool) (blocks block_size membuf : Z) (name : list Z) :=
  os_mempool_init_internal g m mp p blocks block_size membuf name 0.

Definition os_mempool_ext_init (g : mempool_list) m (mpe : Z) (p : os_mempool) (blocks block_size membuf : Z) (name : list Z)
    : res (mempool_list * gmap Z B * os_mempool * Z) :=
  '(g, m, p, rc) ← os_mempool_init_internal g m mpe p blocks block_size membuf name OS_MEMPOOL_F_EXT;
  if negb (rc =? 0) then Ok (g, m, p, rc)
  else
    Ok (g, m, OsMempool (mp_block_size p) (mp_num_blocks p) (mp_num_free p)
                (mp_min_free p) (mp_flags p) (mp_membuf_addr p) (slh_first p) 0 (mp_name p), 0).

(** [mp] is [None] for a null pointer. *)
Definition os_mempool_clear m (mp : option os_mempool) : res (gmap Z B * option os_mempool * Z) :=
  match mp with
  | None => Ok (m, None, OS_INVALID_PARM)
  | Some p =>
      let mp := OsMempool (mp_block_size p) (mp_num_blocks p) (mp_num_blocks p) (mp_num_blocks p)
                  (mp_flags p) (mp_membuf_addr p) (mp_membuf_addr p) (mpe_put_cb p) (mp_name p) in
      m ← chain_blocks (Z.to_nat (mp_num_blocks p - 1)) (OS_MEM_TRUE_BLOCK_SIZE (mp_block_size p))
            (mp_membuf_addr p) m;
      Ok (m, Some mp, OS_OK)
  end.

(** [SLIST_FOREACH] over the free list, until [f] says what to return; each round
    visits a block of the memory, so a list that ends needs less than [S (size m)]. *)
Fixpoint free_foreach {A} (fuel : nat) m (p : Z) (f : Z -> option A) (done : A) : res A :=
  match fuel with
  | O => Timeout
  | S fuel =>
      if p =? 0 then Ok done
      else match f p with
           | Some a => Ok a
           | None => b ← get_block m p; free_foreach fuel m (mb_next b) f done
           end
  end.

Definition os_mempool_is_sane m mp : res bool :=
  free_foreach (S (size m)) m (slh_first mp)
    (fun block => if os_memblock_from mp block then None else Some false) true.

Definition os_memblock_get m (mp : option os_mempool) : res (option os_mempool * Z) :=
  match mp with
  | None => Ok (None, 0)
  | Some p =>
      if negb (mp_num_free p =? 0) then
        b ← get_block m (slh_first p);
        let num_free := u16 (mp_num_free p - 1) in
        let min_free := if num_free <? mp_min_free p then num_free else mp_min_free p in
        Ok (Some (OsMempool (mp_block_size p) (mp_num_blocks p) num_free min_free
                    (mp_flags p) (mp_membuf_addr p) (mb_next b) (mpe_put_cb p) (mp_name p)), slh_first p)
      else Ok (mp, 0)
  end.

Definition os_memblock_put_from_cb m mp (block_addr : Z) : res (gmap Z B * os_mempool * Z) :=
  m ← link m block_addr (slh_first mp);
  Ok (m, OsMempool (mp_block_size mp) (mp_num_blocks mp) (u16 (mp_num_free mp + 1)) (mp_min_free mp)
           (mp_flags mp) (mp_membuf_addr mp) block_addr (mpe_put_cb mp) (mp_name mp), OS_OK).

(** [put_cb]: the callback of an extended pool. [check]: [OS_MEMPOOL_CHECK]. *)
Definition os_memblock_put (check : bool)
    (put_cb : Z -> gmap Z B -> os_mempool -> Z -> res (gmap Z B * os_mempool * Z))
    m (mp : option os_mempool) (block_addr : Z) : res (gmap Z B * option os_mempool * Z) :=
  match mp with
  | None => Ok (m, None, OS_INVALID_PARM)
  | Some p =>
      if block_addr =? 0 then Ok (m, mp, OS_INVALID_PARM)
      else
        dup ← (if check then
                 if os_memblock_from p block_addr then
                   free_foreach (S (size m)) m (slh_first p)
                     (fun block => if block =? block_addr then Some true else None) false
                 else Ok true
               else Ok false);
        if dup : bool then Crash AssertFail
        else
          '(m, p, rc) ←
            (if negb (mp_flags p .& OS_MEMPOOL_F_EXT =? 0) && negb (mpe_put_cb p =? 0)
             then put_cb (mpe_put_cb p) m p block_addr
             else os_memblock_put_from_cb m p block_addr);
          Ok (m, Some p, rc)
  end.
End Pool.

(** ** Representation *)

(** The [n] blocks from [addr] on. *)
Fixpoint block_addrs (n : nat) (true_block_size addr : Z) : list Z :=
  match n with
  | O => []
  | S n => addr :: block_addrs n true_block_size (addr + true_block_size)
  end.

Definition pool_blocks (mp : os_mempool) : list Z :=
  block_addrs (Z.to_nat (mp_num_blocks mp)) (OS_MEM_TRUE_BLOCK_SIZE (mp_block_size mp)) (mp_membuf_addr mp).

(** The buffer of a pool: aligned blocks inside of the address space. *)
Record pool_geom (mp : os_mempool) : Prop := PoolGeom {
  pg_size : 0 < mp_block_size mp < 2 ^ 31;
  pg_num : 0 <= mp_num_blocks mp < 2 ^ 16;
  pg_addr : 0 < mp_membuf_addr mp;
  pg_end : mp_membuf_addr mp + mp_num_blocks mp * OS_MEM_TRUE_BLOCK_SIZE (mp_block_size mp) < 2 ^ 32;
}.

Lemma block_addrs_elem n t addr a :
  a ∈ block_addrs n t addr <-> exists i, 0 <= i < Z.of_nat n /\ a = addr + i * t.
Proof.
  revert addr. induction n as [|n IH]; intros addr; cbn [block_addrs].
  { split; [intros []%not_elem_of_nil|]. intros (i & ? & _). lia. }
  rewrite elem_of_cons, IH. split.
  - intros [-> |(i & Hi & ->)]; [exists 0; lia|exists (i + 1); lia].
  - intros (i & Hi & ->). destruct (decide (i = 0)) as [-> |]; [left; lia|].
    right. exists (i - 1). lia.
Qed.

Lemma block_addrs_NoDup n t addr : 0 < t -> NoDup (block_addrs n t addr).
Proof.
  intros Ht. revert addr. induction n as [|n IH]; intros addr; cbn [block_addrs]; constructor; [|done].
  rewrite block_addrs_elem. intros (i & Hi & E). nia.
Qed.

Lemma length_block_addrs n t addr : length (block_addrs n t addr) = n.
Proof. revert addr. induction n; intros; cbn; auto. Qed.

Lemma true_block_size_bound n :
  0 < n < 2 ^ 31 -> n <= OS_MEM_TRUE_BLOCK_SIZE n < n + 4 /\ OS_MEM_TRUE_BLOCK_SIZE n mod 4 = 0.
Proof.
  intros H. unfold OS_MEM_TRUE_BLOCK_SIZE, OS_ALIGN, OS_ALIGNMENT. change (4 - 1) with (Z.ones 2).
  rewrite Z.land_ones by lia. change (2 ^ 2) with 4.
  destruct (Z.eqb_spec (n mod 4) 0); rewrite u32_small by clia; split; clia.
Qed.

(** [os_memblock_from] decides whether an address is that of a block. *)
Lemma memblock_from_spec mp a :
  pool_geom mp -> 0 <= a < 2 ^ 32 -> os_memblock_from mp a = true <-> a ∈ pool_blocks mp.
Proof.
  intros [Hs Hn Ha He] Hr. destruct (true_block_size_bound _ Hs) as [Ht _].
  unfold os_memblock_from, pool_blocks. rewrite block_addrs_elem, Z2Nat.id by lia.
  set (t := OS_MEM_TRUE_BLOCK_SIZE _) in *. rewrite (u32_small a) by lia.
  rewrite (u32_small (_ + _)) by nia.
  destruct (Z.ltb_spec a (mp_membuf_addr mp)); cbn [orb].
  { split; [done|]. intros (i & Hi & ->). nia. }
  destruct (Z.leb_spec (mp_membuf_addr mp + mp_num_blocks mp * t) a).
  { split; [done|]. intros (i & Hi & ->). nia. }
  rewrite u32_small by lia. rewrite Z.eqb_eq. split.
  - intros E. exists ((a - mp_membuf_addr mp) / t).
    pose proof (Z.div_mod (a - mp_membuf_addr mp) t ltac:(lia)) as Hd. rewrite E in Hd.
    split; [|lia]. split; [apply Z.div_pos; lia|]. apply Z.div_lt_upper_bound; lia.
  - intros (i & Hi & ->). replace (_ - _) with (i * t) by lia. apply Z.mod_mul. lia.
Qed.

(** No callback is called. *)
Definition no_cb (mp : os_mempool) : Prop := mp_flags mp .& OS_MEMPOOL_F_EXT = 0 \/ mpe_put_cb mp = 0.

Lemma no_cb_call mp :
  no_cb mp -> negb (mp_flags mp .& OS_MEMPOOL_F_EXT =? 0) && negb (mpe_put_cb mp =? 0) = false.
Proof. intros [-> | ->]; [done|apply andb_false_r]. Qed.

Section Links.
  Context {B : Type} `{!MemBlock B}.
  Implicit Types (m : gmap Z B) (mp : os_mempool).

(** The blocks [l], linked from [p] on. *)
Fixpoint flist m (p : Z) (l : list Z) : Prop :=
  match l with
  | [] => p = 0
  | a :: l => p = a /\ a <> 0 /\ exists b, m !! a = Some b /\ flist m (mb_next b) l
  end.

Lemma get_block_ok m a b : a <> 0 -> m !! a = Some b -> get_block m a = Ok b.
Proof. intros Ha Hb. unfold get_block. rewrite Hb. now destruct (Z.eqb_spec a 0). Qed.

Lemma link_ok m a v : a <> 0 -> is_Some (m !! a) ->
  exists b, m !! a = Some b /\ link m a v = Ok (<[a := set_mb_next v b]> m).
Proof. intros Ha [b Hb]. exists b. unfold link. now rewrite (get_block_ok m a b). Qed.

(** The links depend on the listed blocks only. *)
Lemma flist_frame m m' p l :
  (forall a, a ∈ l -> mb_next <$> m' !! a = mb_next <$> m !! a) -> flist m p l -> flist m' p l.
Proof.
  revert p. induction l as [|a l IH]; intros p Hm; cbn [flist]; [done|].
  intros (-> & Ha & b & Hb & Hl). split; [done|]. split; [done|].
  pose proof (Hm a ltac:(left)) as E. rewrite Hb in E. destruct (m' !! a) as [b'|]; [|done].
  exists b'. split; [done|]. cbn in E. injection E as ->. apply IH; [|done].
  intros a' Ha'. apply Hm. now right.
Qed.

Lemma flist_insert m p l a b :
  a ∉ l -> flist m p l -> flist (<[a := b]> m) p l.
Proof.
  intros Ha. apply flist_frame. intros a' Ha'. rewrite lookup_insert_ne; [done|]. now intros ->.
Qed.

Lemma flist_mapped m p l : flist m p l -> Forall (fun a => is_Some (m !! a)) l.
Proof.
  revert p. induction l as [|a l IH]; intros p; cbn [flist]; constructor; destruct H as (-> & _ & b & Hb & Hl); eauto.
Qed.

Lemma flist_size m p l : flist m p l -> NoDup l -> (length l <= size m)%nat.
Proof.
  intros H Hd. apply flist_mapped in H. rewrite <- (size_list_to_set (C := gset Z) l Hd), <- size_dom.
  apply subseteq_size. intros a Ha%elem_of_list_to_set. rewrite Forall_forall in H.
  apply elem_of_dom, H, Ha.
Qed.

End Links.

(** ** The list of pools *)

(** The registered pools, in their order. *)
Record list_rep (g : mempool_list) (l : list Z) : Prop := ListRep {
  lr_links : flist (mp_list g) (mpl_first g) l;
  lr_nodup : NoDup l;
  lr_last : mpl_last g = default 0 (last l);
}.

Lemma list_rep_nil g : list_rep (os_mempool_module_init g) [].
Proof. constructor; [done|constructor|done]. Qed.

Lemma flist_nonzero (nx : gmap Z Z) p l : flist nx p l -> 0 ∉ l.
Proof.
  revert p. induction l as [|a l IH]; intros p; cbn [flist]; [intros _; apply not_elem_of_nil|].
  intros (_ & Ha & b & _ & Hl). apply not_elem_of_cons. split; [congruence|now apply (IH _ Hl)].
Qed.

(** A new last element. *)
Lemma flist_snoc (nx : gmap Z Z) p l z a :
  NoDup (l ++ [z]) -> a ∉ l ++ [z] -> a <> 0 -> flist nx p (l ++ [z]) ->
  flist (<[z := a]> (<[a := 0]> nx)) p (l ++ [z; a]).
Proof.
  revert p. induction l as [|x l IH]; intros p Hd Ha Ha0; cbn [app flist].
  - intros (-> & Hz & b & _ & _). split; [done|]. split; [done|]. exists a. rewrite lookup_insert_eq. split; [done|].
    split; [done|]. split; [done|]. apply not_elem_of_cons in Ha as [Hne _].
    exists 0. now rewrite lookup_insert_ne, lookup_insert_eq by done.
  - intros (-> & Hx & b & Hb & Hl). apply NoDup_cons in Hd as [Hxl Hd]. apply not_elem_of_cons in Ha as [Hne Ha].
    rewrite elem_of_app, list_elem_of_singleton in Hxl. split; [done|]. split; [done|]. exists b.
    rewrite !lookup_insert_ne by (intros ->; tauto). split; [done|]. now apply IH.
Qed.

(** The element behind [y] is taken out. *)
Lemma flist_unlink (nx : gmap Z Z) p l y a r :
  NoDup (l ++ y :: a :: r) -> flist nx p (l ++ y :: a :: r) ->
  exists n, nx !! a = Some n /\ flist nx n r /\ flist (<[y := n]> nx) p (l ++ y :: r).
Proof.
  revert p. induction l as [|x l IH]; intros p Hd; cbn [app flist].
  - intros (-> & Hy & b & Hb & _ & Ha & n & Hn & Hr). exists n. split; [done|]. split; [done|].
    split; [done|]. split; [done|]. exists n. rewrite lookup_insert_eq. split; [done|]. cbn.
    apply flist_insert; [|done]. apply NoDup_cons in Hd as [Hy' _]. now apply not_elem_of_cons in Hy'.
  - intros (-> & Hx & b & Hb & Hl). apply NoDup_cons in Hd as [Hxl Hd]. destruct (IH b Hd Hl) as (n & Hn & Hr & Hl').
    exists n. split; [done|]. split; [done|]. split; [done|]. split; [done|]. exists b. split; [|done].
    rewrite lookup_insert_ne; [done|]. intros ->. apply Hxl. rewrite elem_of_app, elem_of_cons. auto.
Qed.

Lemma insert_tail_spec g l mp :
  list_rep g l -> mp <> 0 -> mp ∉ l -> exists g', insert_tail g mp = Ok g' /\ list_rep g' (l ++ [mp]).
Proof.
  intros [Hl Hd Hlast] Hmp Hnot. unfold insert_tail. rewrite Hlast.
  destruct l as [|z l _] using rev_ind; [cbn|rewrite last_snoc; cbn [default from_option]].
  - eexists. split; [done|]. constructor; [|apply NoDup_singleton|done]. cbn. split; [done|]. split; [done|].
    exists 0. now rewrite lookup_insert_eq.
  - pose proof (flist_nonzero _ _ _ Hl) as H0. rewrite elem_of_app, list_elem_of_singleton in H0. unfold id. destruct (Z.eqb_spec z 0); [subst; tauto|].
    pose proof (flist_mapped _ _ _ Hl) as Hm. apply Forall_app in Hm as [_ Hm]. apply Forall_singleton in Hm as [v Hv].
    rewrite elem_of_app, list_elem_of_singleton in Hnot.
    rewrite (get_block_ok _ z v) by (done || (rewrite lookup_insert_ne by (intros ->; tauto); done)). cbn [mbind res_bind].
    eexists. split; [done|]. constructor; cbn [mp_list mpl_first mpl_last].
    + rewrite <- app_assoc. apply flist_snoc; try done. now rewrite elem_of_app, list_elem_of_singleton.
    + apply NoDup_app. split; [done|]. split; [|apply NoDup_singleton]. intros x Hx ->%list_elem_of_singleton.
      now rewrite elem_of_app, list_elem_of_singleton in Hx.
    + now rewrite last_snoc.
Qed.

Lemma find_pool_spec g mp l fuel prev cur :
  flist (mp_list g) cur l -> (length l < fuel)%nat ->
  ((mp ∉ l) /\ exists q, find_pool fuel g mp prev cur = Ok (q, 0)) \/
  (exists l1 l2, l = l1 ++ mp :: l2 /\ find_pool fuel g mp prev cur = Ok (default prev (last l1), mp)).
Proof.
  revert fuel prev cur. induction l as [|a l IH]; intros [|fuel] prev cur Hl Hf; cbn [length] in Hf; try lia; cbn [find_pool].
  - cbn in Hl. subst cur. left. split; [apply not_elem_of_nil|]. now exists prev.
  - destruct Hl as (-> & Ha & b & Hb & Hl). destruct (Z.eqb_spec a 0) as [|_]; [done|]. destruct (Z.eqb_spec a mp) as [-> |Hne].
    + right. now exists [], l.
    + rewrite (get_block_ok _ a b Ha Hb). cbn [mbind res_bind].
      destruct (IH fuel a b Hl) as [[Hn (q & ->)]|(l1 & l2 & -> & ->)]; [lia| |].
      * left. split; [apply not_elem_of_cons; auto|eauto].
      * right. exists (a :: l1), l2. split; [done|]. rewrite last_cons. now destruct (last l1).
Qed.

Lemma unregister_spec g l mp :
  list_rep g l ->
  ((mp ∉ l) /\ os_mempool_unregister g mp = Ok (g, OS_INVALID_PARM)) \/
  (exists l1 l2 g', l = l1 ++ mp :: l2 /\ os_mempool_unregister g mp = Ok (g', 0) /\ list_rep g' (l1 ++ l2)).
Proof.
  intros [Hl Hd Hlast]. unfold os_mempool_unregister. pose proof (flist_size _ _ _ Hl Hd) as Hsz.
  destruct (find_pool_spec g mp l (S (size (mp_list g))) 0 (mpl_first g) Hl) as [[Hn (q & ->)]|(l1 & l2 & -> & ->)]; [lia|now left|right].
  pose proof (flist_nonzero _ _ _ Hl) as H0. rewrite elem_of_app, elem_of_cons in H0. cbn [mbind res_bind].
  destruct (Z.eqb_spec mp 0); [subst; tauto|].
  destruct l1 as [|y l1 _] using rev_ind; cbn [last default from_option app].
  - destruct Hl as (_ & _ & b & Hb & Hl). rewrite (get_block_ok _ mp b) by done. cbn [mbind res_bind]. exists [], l2.
    eexists. split; [done|]. split; [done|]. apply NoDup_cons in Hd as [_ Hd]. constructor; [done..|]. cbn [mpl_last app].
    rewrite Hlast. cbn [app]. change (mb_next b) with b in Hl. destruct l2 as [|z l2]; cbn [flist] in Hl.
    + now rewrite Hl.
    + destruct Hl as (-> & Hz & _). rewrite last_cons_cons. now destruct (Z.eqb_spec z 0).
  - rewrite last_snoc. cbn [default from_option]. unfold id. rewrite elem_of_app, list_elem_of_singleton in H0.
    rewrite <- app_assoc in Hl, Hd, Hlast. cbn [app] in Hl, Hd, Hlast.
    destruct (flist_unlink _ _ _ _ _ _ Hd Hl) as (b & Hb & Hr & Hl'). rewrite (get_block_ok _ mp b) by done. cbn [mbind res_bind].
    destruct (Z.eqb_spec y 0); [subst; tauto|]. exists (l1 ++ [y]), l2. eexists. split; [now rewrite <- app_assoc|]. split; [done|].
    rewrite <- app_assoc. constructor; cbn [mp_list mpl_first mpl_last app]; [done| |].
    + revert Hd. change (l1 ++ y :: mp :: l2) with (l1 ++ [y] ++ [mp] ++ l2). change (l1 ++ y :: l2) with (l1 ++ [y] ++ l2).
      intros Hd. apply (sublist_NoDup _ _ Hd). apply sublist_app; [done|]. apply sublist_app; [done|]. now apply sublist_inserts_l.
    + rewrite Hlast, !last_app_cons. destruct l2 as [|z l2]; cbn in Hr.
      * now rewrite Hr.
      * destruct Hr as (-> & Hz & _). rewrite !last_cons_cons. now destruct (Z.eqb_spec z 0).
Qed.

Section Rep.
  Context {B : Type} `{!MemBlock B}.
  Implicit Types (m : gmap Z B) (mp : os_mempool).

(** A pool with the free blocks [l], the first one on top. *)
Record pool_rep m mp (l : list Z) : Prop := PoolRep {
  pr_geom : pool_geom mp;
  pr_list : flist m (slh_first mp) l;
  pr_nodup : NoDup l;
  pr_blocks : l ⊆ pool_blocks mp;
  pr_free : mp_num_free mp = Z.of_nat (length l);
  pr_min : 0 <= mp_min_free mp <= mp_num_free mp;
}.

(** ** The operations on a represented pool *)
Lemma chain_blocks_ok n t addr m :
  0 < t -> 0 < addr -> (forall a, a ∈ block_addrs (S n) t addr -> is_Some (m !! a)) ->
  exists m', chain_blocks n t addr m = Ok m' /\ flist m' addr (block_addrs (S n) t addr) /\
    (forall a, a ∉ block_addrs (S n) t addr -> m' !! a = m !! a) /\
    (forall a b, m !! a = Some b -> exists v, m' !! a = Some b \/ m' !! a = Some (set_mb_next v b)).
Proof.
  revert addr m. induction n as [|n IH]; intros addr m Ht Ha Hm; cbn [chain_blocks].
  - destruct (link_ok m addr 0) as (b & Hb & ->); [lia|apply Hm; left|]. eexists. split; [done|].
    split; [|split].
    + cbn. split; [done|]. split; [lia|]. eexists. rewrite lookup_insert_eq. split; [done|apply mb_next_set].
    + intros a Hn. apply lookup_insert_ne. intros ->. apply Hn. left.
    + intros a b' Hb'. exists 0. destruct (decide (a = addr)) as [-> |Hne].
      * right. rewrite lookup_insert_eq. congruence.
      * left. now rewrite lookup_insert_ne.
  - destruct (link_ok m addr (addr + t)) as (b & Hb & ->); [lia|apply Hm; left|]. cbn [mbind res_bind].
    pose proof (block_addrs_NoDup (S (S n)) t addr Ht) as Hnd. cbn [block_addrs] in Hnd.
    apply NoDup_cons in Hnd as [Hnot _]. change (addr + t :: _) with (block_addrs (S n) t (addr + t)) in Hnot.
    destruct (IH (addr + t) (<[addr := set_mb_next (addr + t) b]> m)) as (m' & -> & Hl & Hf & Hc); [lia..| |].
    { intros a Hin. rewrite lookup_insert_is_Some. destruct (decide (a = addr)); [auto|right].
      split; [done|]. apply Hm. right. exact Hin. }
    eexists. split; [done|]. split; [|split].
    + split; [done|]. split; [lia|]. eexists. rewrite Hf, lookup_insert_eq by done.
      split; [done|]. rewrite mb_next_set. exact Hl.
    + intros a Hn. change (block_addrs (S (S n)) t addr) with (addr :: block_addrs (S n) t (addr + t)) in Hn.
      apply not_elem_of_cons in Hn as [Hne Hn]. now rewrite Hf, lookup_insert_ne by done.
    + intros a b' Hb'. destruct (decide (a = addr)) as [-> |Hne].
      * exists (addr + t). right. rewrite Hf, lookup_insert_eq by done. congruence.
      * apply Hc. now rewrite lookup_insert_ne.
Qed.

Lemma pool_rep_bound m mp l a : pool_rep m mp l -> a ∈ pool_blocks mp -> 0 < a < 2 ^ 32.
Proof.
  intros [[Hs Hn Ha He] _ _ _ _ _] (i & Hi & ->)%block_addrs_elem.
  destruct (true_block_size_bound _ Hs) as [Ht _]. nia.
Qed.

Lemma pool_rep_length m mp l : pool_rep m mp l -> (length l <= Z.to_nat (mp_num_blocks mp))%nat.
Proof.
  intros H. rewrite <- (length_block_addrs (Z.to_nat (mp_num_blocks mp)) (OS_MEM_TRUE_BLOCK_SIZE (mp_block_size mp)) (mp_membuf_addr mp)).
  apply submseteq_length, NoDup_submseteq; apply H.
Qed.

(** A block is taken from the top of the free list, as long as there is one. *)
Lemma memblock_get_spec m mp l :
  pool_rep m mp l ->
  match l with
  | [] => os_memblock_get m (Some mp) = Ok (Some mp, 0)
  | a :: l => exists mp', os_memblock_get m (Some mp) = Ok (Some mp', a) /\ pool_rep m mp' l /\
      pool_blocks mp' = pool_blocks mp /\ (no_cb mp -> no_cb mp')
  end.
Proof.
  intros H. pose proof (pool_rep_length _ _ _ H) as Hlen. destruct H as [Hg Hl Hnd Hb Hf Hm].
  unfold os_memblock_get. rewrite Hf. destruct l as [|a l]; [done|].
  cbn [length] in *. destruct (Z.eqb_spec (Z.of_nat (S (length l))) 0); [lia|]. cbn [negb].
  cbn [flist] in Hl. destruct Hl as (-> & Ha & b & Hba & Hl). rewrite (get_block_ok _ _ b) by done.
  cbn [mbind res_bind]. rewrite u16_small by (pose proof (pg_num _ Hg); lia).
  eexists. split; [done|]. split; [|done].
  apply NoDup_cons in Hnd as [_ Hnd]. constructor; cbn; try done.
  - destruct Hg. now constructor.
  - intros x Hx. apply Hb. now right.
  - lia.
  - destruct (Z.ltb_spec (Z.of_nat (S (length l)) - 1) (mp_min_free mp)); lia.
Qed.

(** The search for a block in the free list. *)
Lemma free_foreach_none {A} m p l (f : Z -> option A) (d : A) fuel :
  flist m p l -> (length l < fuel)%nat -> Forall (fun a => f a = None) l ->
  free_foreach fuel m p f d = Ok d.
Proof.
  revert p fuel. induction l as [|a l IH]; intros p fuel Hl Hfu Hf; (destruct fuel as [|fuel]; [cbn in Hfu; lia|]).
  - cbn in Hl. subst p. done.
  - destruct Hl as (-> & Ha & b & Hb & Hl). cbn [free_foreach]. destruct (Z.eqb_spec a 0); [done|].
    apply Forall_cons in Hf as [-> Hf]. rewrite (get_block_ok _ _ b) by done. cbn [mbind res_bind].
    apply IH; [done|cbn in Hfu; lia|done].
Qed.

(** A block of the pool that is not free is put on top, with the assertions of
    [OS_MEMPOOL_CHECK] or without them. *)
Lemma memblock_put_spec check cb m mp l a :
  pool_rep m mp l -> a ∈ pool_blocks mp -> a ∉ l -> is_Some (m !! a) -> no_cb mp ->
  exists m' mp' b, os_memblock_put check cb m (Some mp) a = Ok (m', Some mp', OS_OK) /\
    m !! a = Some b /\ m' = <[a := set_mb_next (slh_first mp) b]> m /\
    pool_rep m' mp' (a :: l) /\
    pool_blocks mp' = pool_blocks mp /\ no_cb mp'.
Proof.
  intros H Ha Hn Hm Hcb. pose proof (pool_rep_bound _ _ _ _ H Ha) as Hab.
  unfold os_memblock_put. destruct (Z.eqb_spec a 0); [lia|].
  assert (Hchk : (if check then if os_memblock_from mp a then
      free_foreach (S (size m)) m (slh_first mp) (fun block => if block =? a then Some true else None) false
      else Ok true else Ok false) = Ok false).
  { destruct check; [|done]. replace (os_memblock_from mp a) with true
      by (symmetry; apply memblock_from_spec; [apply H|lia|done]).
    apply (free_foreach_none m _ l); [apply H| |].
    - pose proof (flist_size m _ l (pr_list _ _ _ H) (pr_nodup _ _ _ H)). lia.
    - apply Forall_forall. intros x Hx. destruct (Z.eqb_spec x a); [congruence|done]. }
  rewrite Hchk. cbn [mbind res_bind]. rewrite no_cb_call by done. unfold os_memblock_put_from_cb.
  destruct (link_ok m a (slh_first mp)) as (b & Hb & ->); [lia|done|]. cbn [mbind res_bind].
  eexists _, _, b. split; [done|]. split; [done|]. split; [done|]. split; [|done].
  assert (Hlen : (length (a :: l) <= Z.to_nat (mp_num_blocks mp))%nat).
  { rewrite <- (length_block_addrs (Z.to_nat (mp_num_blocks mp)) (OS_MEM_TRUE_BLOCK_SIZE (mp_block_size mp)) (mp_membuf_addr mp)).
    apply submseteq_length, NoDup_submseteq; [constructor; [done|apply H]|].
    intros x [-> |Hx]%elem_of_cons; [done|now apply H]. }
  destruct H as [Hg Hl Hnd Hbl Hf Hmin]. cbn [length] in Hlen. constructor; cbn; try done.
  - destruct Hg. now constructor.
  - split; [done|]. split; [lia|]. eexists. rewrite lookup_insert_eq. split; [done|].
    rewrite mb_next_set. now apply flist_insert.
  - now constructor.
  - intros x [-> |Hx]%elem_of_cons; [done|now apply Hbl].
  - rewrite u16_small by (pose proof (pg_num _ Hg); lia). lia.
  - rewrite u16_small by (pose proof (pg_num _ Hg); lia). lia.
Qed.

(** After initialisation every block is free. *)
Lemma mempool_init_spec g l m i mp0 blocks block_size membuf name :
  list_rep g l -> i <> 0 -> i ∉ l -> 0 < block_size < 2 ^ 31 -> 0 <= blocks < 2 ^ 16 -> 0 < membuf -> membuf mod 4 = 0 ->
  membuf + blocks * OS_MEM_TRUE_BLOCK_SIZE block_size < 2 ^ 32 ->
  (forall a, a ∈ block_addrs (Z.to_nat blocks) (OS_MEM_TRUE_BLOCK_SIZE block_size) membuf -> is_Some (m !! a)) ->
  blocks <> 0 ->
  exists g' m' mp, os_mempool_init g m i mp0 blocks block_size membuf name = Ok (g', m', mp, OS_OK) /\
    list_rep g' (l ++ [i]) /\ pool_rep m' mp (pool_blocks mp) /\ mp_num_blocks mp = blocks /\ mp_block_size mp = block_size /\
    mp_membuf_addr mp = membuf /\ no_cb mp.
Proof.
  intros Hg Hi Hil Hs Hn Ha Hal He Hm Hnz. destruct (true_block_size_bound _ Hs) as [Ht _].
  unfold os_mempool_init, os_mempool_init_internal. destruct (Z.eqb_spec i 0); [done|].
  destruct (Z.eqb_spec block_size 0); [lia|]. destruct (Z.eqb_spec membuf 0); [lia|]. cbn [andb orb negb].
  rewrite u32_small by nia. unfold OS_ALIGNMENT. change (4 - 1) with (Z.ones 2). rewrite Z.land_ones by lia.
  change (2 ^ 2) with 4. rewrite Hal. cbn [Z.eqb negb]. replace (0 <? blocks) with true by lia.
  replace (Z.to_nat blocks) with (S (Z.to_nat (blocks - 1))) in Hm by lia.
  destruct (chain_blocks_ok _ _ _ m (Z.lt_le_trans _ _ _ (proj1 Hs) (proj1 Ht)) Ha Hm) as (m' & -> & Hl & _ & _). cbn [mbind res_bind].
  destruct (insert_tail_spec g l i Hg Hi Hil) as (g' & -> & Hg'). cbn [mbind res_bind].
  eexists _, _, _. split; [done|]. split; [done|]. split; [|do 3 (split; [done|]); now left].
  assert (Hb : pool_blocks (OsMempool block_size blocks blocks blocks 0 membuf membuf (mpe_put_cb mp0) name) =
    block_addrs (S (Z.to_nat (blocks - 1))) (OS_MEM_TRUE_BLOCK_SIZE block_size) membuf)
    by (unfold pool_blocks; cbn [mp_num_blocks mp_block_size mp_membuf_addr]; f_equal; lia).
  rewrite Hb. constructor; cbn [slh_first mp_num_free mp_min_free]; try done.
  - apply block_addrs_NoDup. lia.
  - rewrite Hb. done.
  - rewrite length_block_addrs. lia.
  - lia.
Qed.

(** Linking the blocks changes nothing else of them. *)
Lemma chain_blocks_keeps (P : B -> Prop) n t a m m' :
  (forall v b, P b -> P (set_mb_next v b)) -> chain_blocks n t a m = Ok m' ->
  (forall x b, m !! x = Some b -> P b) -> forall x b, m' !! x = Some b -> P b.
Proof.
  intros HP. assert (Hlink : forall m m' a v, link m a v = Ok m' -> (forall x b, m !! x = Some b -> P b) ->
    forall x b, m' !! x = Some b -> P b).
  { clear - HP. intros m m' a v E H x b. unfold link, get_block in E. destruct (a =? 0); [done|].
    destruct (m !! a) as [c|] eqn:Ec; [|done]. cbn in E. injection E as <-. destruct (decide (x = a)) as [-> |Hne].
    - rewrite lookup_insert_eq. intros [= <-]. apply HP, (H a c Ec).
    - rewrite lookup_insert_ne by done. apply H. }
  revert a m. induction n as [|n IH]; intros a m E H; cbn [chain_blocks] in E; [now apply (Hlink m m' a 0)|].
  destruct (link m a (a + t)) as [m1| |] eqn:El; try done. cbn [mbind res_bind] in E.
  apply (IH (a + t) m1 E). now apply (Hlink m m1 a (a + t)).
Qed.

Lemma mempool_init_keeps (P : B -> Prop) g m i p blocks block_size membuf name g' m' p' rc :
  (forall v b, P b -> P (set_mb_next v b)) -> os_mempool_init g m i p blocks block_size membuf name = Ok (g', m', p', rc) ->
  (forall x b, m !! x = Some b -> P b) -> forall x b, m' !! x = Some b -> P b.
Proof.
  intros HP E H. unfold os_mempool_init, os_mempool_init_internal in E. destruct ((i =? 0) || _); [injection E as _ <- _ _; exact H|].
  destruct ((membuf =? 0) && _); [injection E as _ <- _ _; exact H|].
  destruct (negb (membuf =? 0) && _); [injection E as _ <- _ _; exact H|].
  assert (Hm : exists m1, m' = m1 /\ (if 0 <? blocks then chain_blocks (Z.to_nat (blocks - 1)) (OS_MEM_TRUE_BLOCK_SIZE block_size) membuf m else Ok m) = Ok m1).
  { destruct (if 0 <? blocks then _ else _) as [m1| |]; try done. cbn [mbind res_bind] in E.
    destruct (insert_tail g i) as [g1| |]; try done. injection E as _ <- _ _. eauto. }
  destruct Hm as (m1 & -> & Em). destruct (0 <? blocks); [exact (chain_blocks_keeps P _ _ _ m m1 HP Em H)|].
  injection Em as <-. exact H.
Qed.

(** ** The contract: an allocator of distinct blocks *)
Inductive pool_op := Get | Put (a : Z).

(** The free blocks and the blocks that the client holds. *)
Record alloc := Alloc { a_free : list Z; a_held : list Z }.

(** What a call returns; [None] for a call that the client must not make. *)
Definition alloc_step (s : alloc) (op : pool_op) : option (alloc * Z) :=
  match op with
  | Get => match a_free s with
           | [] => Some (s, 0)
           | a :: l => Some (Alloc l (a :: a_held s), a)
           end
  | Put a => if decide (a ∈ a_held s) then
               Some (Alloc (a :: a_free s) (filter (fun x => x <> a) (a_held s)), OS_OK)
             else None
  end.

Fixpoint alloc_run (s : alloc) (ops : list pool_op) : option (alloc * list Z) :=
  match ops with
  | [] => Some (s, [])
  | op :: ops =>
      '(s, v) ← alloc_step s op;
      '(s, vs) ← alloc_run s ops;
      Some (s, v :: vs)
  end.

Definition pool_call (check : bool) cb m (mp : option os_mempool) (op : pool_op)
    : res (gmap Z B * option os_mempool * Z) :=
  match op with
  | Get => '(mp, a) ← os_memblock_get m mp; Ok (m, mp, a)
  | Put a => os_memblock_put check cb m mp a
  end.

Fixpoint pool_run (check : bool) cb m (mp : option os_mempool) (ops : list pool_op)
    : res (gmap Z B * option os_mempool * list Z) :=
  match ops with
  | [] => Ok (m, mp, [])
  | op :: ops =>
      '(m, mp, v) ← pool_call check cb m mp op;
      '(m, mp, vs) ← pool_run check cb m mp ops;
      Ok (m, mp, v :: vs)
  end.

(** The free and the held blocks are together the blocks of the pool, each once. *)
Definition alloc_rep m mp (s : alloc) : Prop :=
  pool_rep m mp (a_free s) /\ no_cb mp /\ a_free s ++ a_held s ≡ₚ pool_blocks mp /\
  (forall a, a ∈ pool_blocks mp -> is_Some (m !! a)).

Lemma filter_ne_absent (a : Z) (l : list Z) : a ∉ l -> filter (fun x => x <> a) l = l.
Proof.
  induction l as [|x l IH]; [done|]. intros [Hx Ha]%not_elem_of_cons.
  rewrite filter_cons_True by done. f_equal. auto.
Qed.

Lemma filter_ne_perm (a : Z) (l : list Z) : NoDup l -> a ∈ l -> a :: filter (fun x => x <> a) l ≡ₚ l.
Proof.
  induction l as [|x l IH]; [intros _ []%not_elem_of_nil|].
  intros [Hx Hl]%NoDup_cons [-> |Ha]%elem_of_cons.
  - rewrite filter_cons_False by (intros H; now apply H). f_equiv. now rewrite filter_ne_absent.
  - rewrite filter_cons_True by (now intros ->). rewrite Permutation_swap. f_equiv. auto.
Qed.

Lemma alloc_step_rep check cb m mp s op s' v :
  alloc_rep m mp s -> alloc_step s op = Some (s', v) ->
  exists m' mp', pool_call check cb m (Some mp) op = Ok (m', Some mp', v) /\ alloc_rep m' mp' s' /\
    pool_blocks mp' = pool_blocks mp.
Proof.
  intros (Hr & Hcb & Hp & Hm) Hs.
  assert (Hnd : NoDup (a_free s ++ a_held s)).
  { rewrite Hp. apply block_addrs_NoDup. destruct (true_block_size_bound _ (pg_size _ (pr_geom _ _ _ Hr))) as [? _].
    pose proof (pg_size _ (pr_geom _ _ _ Hr)). lia. }
  apply NoDup_app in Hnd as (_ & Hdis & Hnd). destruct op as [|a]; cbn [alloc_step pool_call] in *.
  - pose proof (memblock_get_spec _ _ _ Hr) as Hg. destruct (a_free s) as [|a l] eqn:E.
    + injection Hs as <- <-. rewrite Hg. cbn. exists m, mp. split; [done|]. split; [|done].
      unfold alloc_rep. now rewrite E.
    + injection Hs as <- <-. destruct Hg as (mp' & -> & Hr' & Hb & Hcb'). cbn. exists m, mp'.
      split; [done|]. split; [|done]. unfold alloc_rep. cbn [a_free a_held]. rewrite Hb.
      split; [done|]. split; [auto|]. split; [|done]. rewrite <- Hp. cbn [app]. symmetry. apply Permutation_middle.
  - destruct (decide (a ∈ a_held s)) as [Ha|]; [|done]. injection Hs as <- <-.
    assert (Hin : a ∈ pool_blocks mp) by (rewrite <- Hp; apply elem_of_app; auto).
    destruct (memblock_put_spec check cb m mp (a_free s) a) as (m' & mp' & b & -> & _ & -> & Hr' & Hb & Hcb'); auto.
    { intros Hf. now apply (Hdis a). }
    eexists _, mp'. split; [done|]. split; [|done]. unfold alloc_rep. cbn [a_free a_held]. rewrite Hb.
    split; [done|]. split; [done|]. split.
    + rewrite <- Hp. cbn [app]. rewrite Permutation_middle. f_equiv. now apply filter_ne_perm.
    + intros x Hx. rewrite lookup_insert_is_Some. destruct (decide (a = x)); auto.
Qed.

Lemma alloc_run_rep check cb m mp s ops s' vs :
  alloc_rep m mp s -> alloc_run s ops = Some (s', vs) ->
  exists m' mp', pool_run check cb m (Some mp) ops = Ok (m', Some mp', vs) /\ alloc_rep m' mp' s' /\
    pool_blocks mp' = pool_blocks mp.
Proof.
  revert m mp s vs. induction ops as [|op ops IH]; intros m mp s vs Hr Hs; cbn [alloc_run pool_run] in *.
  { injection Hs as <- <-. eauto. }
  destruct (alloc_step s op) as [[s1 v]|] eqn:E1; [|done]. cbn in Hs.
  destruct (alloc_run s1 ops) as [[s2 vs2]|] eqn:E2; [|done]. injection Hs as <- <-.
  destruct (alloc_step_rep check cb _ _ _ _ _ _ Hr E1) as (m1 & mp1 & -> & Hr1 & Hb1). cbn [mbind res_bind].
  destruct (IH m1 mp1 s1 vs2 Hr1 E2) as (m2 & mp2 & -> & Hr2 & Hb2). cbn [mbind res_bind].
  exists m2, mp2. split; [done|]. split; [done|]. congruence.
Qed.

(** The free list is intact. *)
Lemma mempool_sane m mp l : pool_rep m mp l -> os_mempool_is_sane m mp = Ok true.
Proof.
  intros H. unfold os_mempool_is_sane. apply (free_foreach_none m _ l); [apply H| |].
  - pose proof (flist_size m _ l (pr_list _ _ _ H) (pr_nodup _ _ _ H)). lia.
  - apply Forall_forall. intros a Ha. pose proof (pr_blocks _ _ _ H a Ha) as Hb.
    pose proof (pool_rep_bound _ _ _ _ H Hb).
    now replace (os_memblock_from mp a) with true
      by (symmetry; apply memblock_from_spec; [apply H|lia|done]).
Qed.

(** C13 — The memory pool refines an allocator of distinct blocks. After
    [os_mempool_init], every sequence of calls of [os_memblock_get] and of
    [os_memblock_put] on blocks that the client holds returns, with and without the
    assertions of [OS_MEMPOOL_CHECK], what the allocator returns: a free block or, only
    when none is left, null. At any time the free and the held blocks together are the
    blocks of the pool, each one once, so that no block is handed out twice or lost,
    and [os_mempool_is_sane] holds. *)
Theorem mempool_refines check cb g l m i mp0 blocks block_size membuf name ops s' vs :
  list_rep g l -> i <> 0 -> i ∉ l ->
  0 < block_size < 2 ^ 31 -> 0 < blocks < 2 ^ 16 -> 0 < membuf -> membuf mod 4 = 0 ->
  membuf + blocks * OS_MEM_TRUE_BLOCK_SIZE block_size < 2 ^ 32 ->
  let all := block_addrs (Z.to_nat blocks) (OS_MEM_TRUE_BLOCK_SIZE block_size) membuf in
  (forall a, a ∈ all -> is_Some (m !! a)) -> alloc_run (Alloc all []) ops = Some (s', vs) ->
  exists g1 m1 mp1 m2 mp2,
    os_mempool_init g m i mp0 blocks block_size membuf name = Ok (g1, m1, mp1, OS_OK) /\ list_rep g1 (l ++ [i]) /\
    pool_run check cb m1 (Some mp1) ops = Ok (m2, Some mp2, vs) /\
    a_free s' ++ a_held s' ≡ₚ all /\ NoDup all /\ os_mempool_is_sane m2 mp2 = Ok true.
Proof.
  intros Hg Hi0 Hil Hs Hn Ha Hal He all Hm Hrun.
  destruct (mempool_init_spec g l m i mp0 blocks block_size membuf name) as
    (g1 & m1 & mp1 & Hi & Hg1 & Hr & En & Es & Ea & Hcb); try done; try lia.
  assert (Eall : pool_blocks mp1 = all) by (unfold pool_blocks; now rewrite En, Es, Ea).
  assert (Hm1 : forall a, a ∈ pool_blocks mp1 -> is_Some (m1 !! a)).
  { pose proof (flist_mapped _ _ _ (pr_list _ _ _ Hr)) as H. now rewrite Forall_forall in H. }
  destruct (alloc_run_rep check cb m1 mp1 (Alloc all []) ops s' vs) as (m2 & mp2 & H2 & (Hr2 & _ & Hp & _) & Hb); [|done|].
  { unfold alloc_rep. cbn [a_free a_held]. rewrite app_nil_r, Eall in *. auto. }
  exists g1, m1, mp1, m2, mp2. split; [done|]. split; [done|]. split; [done|]. rewrite <- Eall, <- Hb.
  split; [done|]. split; [|now apply (mempool_sane _ _ _ Hr2)].
  rewrite Hb, Eall. apply block_addrs_NoDup. destruct (true_block_size_bound _ Hs). lia.
Qed.

(** Without [OS_MEMPOOL_CHECK] a block that is freed twice is handed out twice. *)
Theorem double_free_shares cb m mp l a :
  pool_rep m mp l -> no_cb mp -> a ∈ pool_blocks mp -> a ∉ l -> is_Some (m !! a) ->
  mp_num_free mp + 2 < 2 ^ 16 ->
  exists m' mp', pool_run false cb m (Some mp) [Put a; Put a; Get; Get] = Ok (m', Some mp', [0; 0; a; a]).
Proof.
  intros Hr Hcb Ha Hn Hm Hlim. pose proof (pool_rep_bound _ _ _ _ Hr Ha) as Hab.
  destruct (memblock_put_spec false cb m mp l a) as (m1 & mp1 & b & H1 & Hb & -> & Hr1 & Hb1 & Hcb1); auto.
  cbn [pool_run pool_call]. rewrite H1. cbn [mbind res_bind]. unfold os_memblock_put at 1.
  destruct (Z.eqb_spec a 0); [lia|]. cbn [mbind res_bind]. rewrite no_cb_call by done.
  unfold os_memblock_put_from_cb, link. erewrite get_block_ok; [|lia|apply lookup_insert_eq].
  cbn [mbind res_bind]. pose proof (pr_list _ _ _ Hr1) as (Ef & _ & _). rewrite Ef, insert_insert_eq.
  pose proof (pr_free _ _ _ Hr1) as Hf1. pose proof (pr_free _ _ _ Hr) as Hf. cbn [length] in Hf1.
  unfold os_memblock_get. cbn [mp_num_free slh_first].
  rewrite u16_small by lia. destruct (Z.eqb_spec (mp_num_free mp1 + 1) 0); [lia|]. cbn [negb].
  erewrite get_block_ok; [|lia|apply lookup_insert_eq]. cbn [mbind res_bind mp_num_free slh_first].
  rewrite mb_next_set, u16_small by lia. destruct (Z.eqb_spec (mp_num_free mp1 + 1 - 1) 0); [lia|]. cbn [negb].
  erewrite get_block_ok; [|lia|apply lookup_insert_eq]. cbn [mbind res_bind]. eauto.
Qed.

(** [os_mempool_init] accepts a pool without blocks and buffer, but clearing such a
    pool writes through the null pointer. *)
Theorem clear_empty_null g l m i mp0 block_size name :
  list_rep g l -> i <> 0 -> i ∉ l -> 0 < block_size ->
  exists g' mp, os_mempool_init g m i mp0 0 block_size 0 name = Ok (g', m, mp, OS_OK) /\
    os_mempool_clear m (Some mp) = Crash NullDeref.
Proof.
  intros Hg Hi Hil Hs. unfold os_mempool_init, os_mempool_init_internal. destruct (Z.eqb_spec i 0); [done|].
  destruct (Z.eqb_spec block_size 0); [lia|]. cbn [orb andb negb Z.eqb Z.ltb Z.compare mbind res_bind].
  destruct (insert_tail_spec g l i Hg Hi Hil) as (g' & -> & _). cbn [mbind res_bind]. eexists _, _. split; [done|]. done.
Qed.
End Rep.

(** ** A pool of bare words *)
Definition no_pool : os_mempool := OsMempool 0 0 0 0 0 0 0 0 [].

Definition no_list : mempool_list := MempoolList 0 0 ∅.

Lemma mempool_refines_witness :
  exists g1 m1 mp1 m2 mp2,
    os_mempool_init no_list (list_to_map [(0x1000, 7); (0x1008, 7)] : gmap Z Z) 0x800 no_pool 2 6 0x1000 [] =
      Ok (g1, m1, mp1, OS_OK) /\
    pool_run true (fun _ m p _ => Ok (m, p, 0)) m1 (Some mp1) [Get; Get; Get; Put 0x1000; Get] =
      Ok (m2, Some mp2, [0x1000; 0x1008; 0; 0; 0x1000]) /\
    os_mempool_is_sane m2 mp2 = Ok true.
Proof.
  destruct (mempool_refines true (fun _ m p _ => Ok (m, p, 0)) no_list []
    (list_to_map [(0x1000, 7); (0x1008, 7)] : gmap Z Z) 0x800 no_pool 2 6 0x1000 []
    [Get; Get; Get; Put 0x1000; Get] (Alloc [] [0x1000; 0x1008]) [0x1000; 0x1008; 0; 0; 0x1000])
    as (g1 & m1 & mp1 & m2 & mp2 & H1 & _ & H2 & _ & _ & H3);
    [exact (list_rep_nil no_list)|lia|apply not_elem_of_nil|lia..|reflexivity|vm_compute; reflexivity| | |].
  - intros a Ha. vm_compute in Ha. apply elem_of_cons in Ha as [-> |Ha]; [vm_compute; eauto|].
    apply list_elem_of_singleton in Ha as ->. vm_compute. eauto.
  - vm_compute. reflexivity.
  - exists g1, m1, mp1, m2, mp2. auto.
Defined.
