(* ===== verification/MempoolList.v ===== *)
(** * The list of memory pools

    The global list of [porting/nimble/src/os_mempool.c] that [os_mempool_init] extends,
    [os_mempool_unregister] shortens and [os_mempool_info_get_next] walks along. *)
From stdpp Require Import base tactics numbers list gmap.
From Stdlib Require Import ZArith Lia.
From S2P Require Import Prelude Mempool.
Local Open Scope Z_scope.
Local Open Scope bits_scope.

(** ** Programs of calls *)
Inductive list_op :=
  | LInit (mp blocks block_size membuf : Z) (name : list Z)
  | LUnregister (mp : Z)
  | LInfo (mp : Z).

(** The global list, the memory and the pools at their addresses. *)
Definition pools_state (B : Type) : Type := mempool_list * gmap Z B * gmap Z os_mempool.

Section Run.
  Context {B : Type} `{!MemBlock B}.

Definition list_call (op : list_op) (s : pools_state B) : res (pools_state B * (Z * option os_mempool_info)) :=
  let '(g, m, pools) := s in
  match op with
  | LInit mp blocks block_size membuf name =>
      '(g, m, p, rc) ← os_mempool_init g m mp (default no_pool (pools !! mp)) blocks block_size membuf name;
      Ok ((g, m, <[mp := p]> pools), (rc, None))
  | LUnregister mp => '(g, rc) ← os_mempool_unregister g mp; Ok ((g, m, pools), (rc, None))
  | LInfo mp => o ← os_mempool_info_get_next g pools mp; Ok (s, o)
  end.

Fixpoint list_run (ops : list list_op) (s : pools_state B) : res (pools_state B * list (Z * option os_mempool_info)) :=
  match ops with
  | [] => Ok (s, [])
  | op :: ops => '(s, o) ← list_call op s; '(s, os) ← list_run ops s; Ok (s, o :: os)
  end.
End Run.

(** ** The contract: a list of descriptions *)
Definition registry := list (Z * os_mempool_info).

Fixpoint drop_pool (mp : Z) (al : registry) : registry :=
  match al with
  | [] => []
  | e :: al => if e.1 =? mp then al else e :: drop_pool mp al
  end.

Fixpoint after (mp : Z) (al : registry) : option registry :=
  match al with
  | [] => None
  | e :: al => if e.1 =? mp then Some al else after mp al
  end.

Definition report (al : registry) : Z * option os_mempool_info :=
  match al with [] => (0, None) | (mp, i) :: _ => (mp, Some i) end.

(** A client may not initialise a pool that is registered nor ask for the successor of
    one that is not. *)
Definition registry_step (al : registry) (op : list_op) : option (registry * (Z * option os_mempool_info)) :=
  match op with
  | LInit mp blocks block_size membuf name =>
      if (mp =? 0) || (block_size =? 0) || ((membuf =? 0) && negb (blocks =? 0)) then Some (al, (OS_INVALID_PARM, None))
      else if negb (membuf mod 4 =? 0) then Some (al, (OS_MEM_NOT_ALIGNED, None))
      else if decide (mp ∈ al.*1) then None
      else Some (al ++ [(mp, OsMempoolInfo block_size blocks blocks blocks (take 31 name))], (OS_OK, None))
  | LUnregister mp =>
      if decide (mp ∈ al.*1) then Some (drop_pool mp al, (0, None)) else Some (al, (OS_INVALID_PARM, None))
  | LInfo mp => rest ← (if mp =? 0 then Some al else after mp al); Some (al, report rest)
  end.

Fixpoint registry_run (al : registry) (ops : list list_op) : option (registry * list (Z * option os_mempool_info)) :=
  match ops with
  | [] => Some (al, [])
  | op :: ops => '(al, o) ← registry_step al op; '(al, os) ← registry_run al ops; Some (al, o :: os)
  end.

(** ** The refinement *)
Definition info_of (p : os_mempool) : os_mempool_info :=
  OsMempoolInfo (s32 (mp_block_size p)) (mp_num_blocks p) (mp_num_free p) (mp_min_free p) (take 31 (mp_name p)).

Lemma drop_pool_fst mp al l1 l2 :
  al.*1 = l1 ++ mp :: l2 -> mp ∉ l1 -> (drop_pool mp al).*1 = l1 ++ l2.
Proof.
  revert l1. induction al as [|[a i] al IH]; intros [|x l1] E Hn; cbn in E; try done; injection E as -> E; cbn [drop_pool fst].
  - now rewrite Z.eqb_refl.
  - apply not_elem_of_cons in Hn as [Hne Hn]. destruct (Z.eqb_spec x mp) as [|_]; [congruence|]. cbn. f_equal. now apply IH.
Qed.

Lemma drop_pool_sub mp al e : e ∈ drop_pool mp al -> e ∈ al.
Proof.
  induction al as [|a al IH]; cbn [drop_pool]; [done|]. destruct (a.1 =? mp); [now right|].
  intros [-> |H]%elem_of_cons; [left|right; auto].
Qed.

Lemma after_split mp al rest :
  after mp al = Some rest -> exists pre i, al = pre ++ (mp, i) :: rest.
Proof.
  induction al as [|[a i] al IH]; cbn [after fst]; [done|]. destruct (Z.eqb_spec a mp) as [-> |_].
  - intros [= ->]. now exists [], i.
  - intros (pre & j & ->)%IH. now exists ((a, i) :: pre), j.
Qed.

Lemma flist_next (nx : gmap Z Z) p l1 a l2 :
  flist nx p (l1 ++ a :: l2) -> a <> 0 /\ nx !! a = Some (default 0 (head l2)).
Proof.
  revert p. induction l1 as [|x l1 IH]; intros p; cbn [app flist]; intros (_ & Hx & b & Hb & Hl); [|now apply (IH b)].
  split; [done|]. rewrite Hb. destruct l2 as [|y l2]; cbn [flist] in Hl; [now rewrite <- Hl|]. destruct Hl as [E _]. now rewrite <- E.
Qed.

Section Refine.
  Context {B : Type} `{!MemBlock B} (m0 : gmap Z B).
  Implicit Types (s : pools_state B) (al : registry).

(** What the client has to provide: arguments of their types, and the blocks. *)
Definition list_op_ok (op : list_op) : Prop :=
  match op with
  | LInit mp blocks block_size membuf name =>
      0 <= block_size < 2 ^ 31 /\ 0 <= blocks < 2 ^ 16 /\ 0 <= membuf < 2 ^ 32 /\
      forall a, a ∈ block_addrs (Z.to_nat blocks) (OS_MEM_TRUE_BLOCK_SIZE block_size) membuf -> is_Some (m0 !! a)
  | _ => True
  end.

Record registry_rep s al : Prop := RegistryRep {
  rr_list : list_rep s.1.1 (al.*1);
  rr_mem : forall a, is_Some (m0 !! a) -> is_Some (s.1.2 !! a);
  rr_pool : forall mp i, (mp, i) ∈ al -> exists p, s.2 !! mp = Some p /\ info_of p = i;
}.

Lemma init_step g m pools al al' mp blocks block_size membuf name o :
  registry_rep (g, m, pools) al -> list_op_ok (LInit mp blocks block_size membuf name) ->
  registry_step al (LInit mp blocks block_size membuf name) = Some (al', o) ->
  exists s', list_call (LInit mp blocks block_size membuf name) (g, m, pools) = Ok (s', o) /\ registry_rep s' al'.
Proof.
  intros [Hl Hm Hp] (Hs & Hn & Hb & Hblk) E. cbn [fst snd] in *. cbn [registry_step list_call] in *.
  unfold os_mempool_init, os_mempool_init_internal.
  assert (Hsame : registry_rep (g, m, <[mp := default no_pool (pools !! mp)]> pools) al).
  { constructor; cbn [fst snd]; try done. intros a i Hi. destruct (Hp a i Hi) as (p & Ep & Ei). exists p. split; [|done].
    destruct (decide (a = mp)) as [-> |]; [now rewrite lookup_insert_eq, Ep|now rewrite lookup_insert_ne]. }
  destruct ((mp =? 0) || (block_size =? 0)) eqn:E1; cbn [orb] in E; [injection E as <- <-; eauto|]. apply orb_false_iff in E1 as [E1 E2].
  destruct ((membuf =? 0) && negb (blocks =? 0)) eqn:E3; [injection E as <- <-; eauto|].
  rewrite u32_small by lia. unfold OS_ALIGNMENT. change (4 - 1) with (Z.ones 2). rewrite Z.land_ones by lia. change (2 ^ 2) with 4.
  destruct (Z.eqb_spec (membuf mod 4) 0) as [Hal|Hal]; cbn [negb] in *.
  2: { injection E as <- <-. replace (membuf =? 0) with false by (symmetry; apply Z.eqb_neq; intros ->; done). cbn. eauto. }
  rewrite andb_false_r. destruct (decide (mp ∈ al.*1)) as [|Hnot]; [done|]. injection E as <- <-.
  assert (Hc : exists m', (if 0 <? blocks then chain_blocks (Z.to_nat (blocks - 1)) (OS_MEM_TRUE_BLOCK_SIZE block_size) membuf m else Ok m) = Ok m' /\
    forall a, is_Some (m0 !! a) -> is_Some (m' !! a)).
  { destruct (Z.ltb_spec 0 blocks); [|eauto]. destruct (true_block_size_bound block_size) as [Ht _]; [lia|].
    destruct (chain_blocks_ok (Z.to_nat (blocks - 1)) (OS_MEM_TRUE_BLOCK_SIZE block_size) membuf m) as (m' & Ec & _ & _ & Hk); [lia..| |].
    - intros a Ha. apply Hm, Hblk. now replace (Z.to_nat blocks) with (S (Z.to_nat (blocks - 1))) by lia.
    - exists m'. split; [done|]. intros a [b Eb]%Hm. destruct (Hk a b Eb) as (v & [-> | ->]); eauto. }
  destruct Hc as (m' & -> & Hm'). cbn [mbind res_bind].
  destruct (insert_tail_spec g (al.*1) mp Hl) as (g' & -> & Hg'); [lia|done|]. cbn [mbind res_bind]. eexists. split; [done|].
  constructor; cbn [fst snd]; [now rewrite fmap_app|done|]. intros a i [Hi|Hi%list_elem_of_singleton]%elem_of_app.
  - destruct (Hp a i Hi) as (p & Ep & Ei). exists p. split; [|done]. rewrite lookup_insert_ne; [done|].
    intros ->. apply Hnot. apply list_elem_of_fmap. now exists (a, i).
  - injection Hi as -> ->. eexists. rewrite lookup_insert_eq. split; [done|]. unfold info_of. cbn. f_equal. apply s32_small. lia.
Qed.

Lemma call_step s al al' op o :
  registry_rep s al -> list_op_ok op -> registry_step al op = Some (al', o) ->
  exists s', list_call op s = Ok (s', o) /\ registry_rep s' al'.
Proof.
  destruct s as [[g m] pools]. intros H Hok E. destruct op as [mp blocks block_size membuf name|mp|mp].
  - now apply (init_step g m pools al).
  - destruct H as [Hl Hm Hp]. cbn [fst snd registry_step list_call] in *.
    destruct (unregister_spec g (al.*1) mp Hl) as [[Hn Eu]|(l1 & l2 & g' & El & Eu & Hg')]; rewrite Eu; cbn [mbind res_bind].
    + rewrite decide_False in E by done. injection E as <- <-. eauto using registry_rep.
    + rewrite decide_True in E by (rewrite El, elem_of_app, elem_of_cons; auto). injection E as <- <-.
      eexists. split; [done|]. constructor; cbn [fst snd]; [|done|intros a i Hi%drop_pool_sub; now apply Hp].
      pose proof (lr_nodup _ _ Hl) as Hd. rewrite El in Hd. rewrite (drop_pool_fst mp al l1 l2); [done|done|].
      apply NoDup_app in Hd as (_ & Hd & _). intros Hin. apply (Hd mp Hin). left.
  - cbn [fst snd registry_step list_call] in *. unfold os_mempool_info_get_next, next_pool.
    destruct (if mp =? 0 then Some al else after mp al) as [rest|] eqn:Er; [|done]. cbn in E. injection E as <- <-.
    assert (Hnext : (if mp =? 0 then Ok (mpl_first g) else get_block (mp_list g) mp) = Ok (default 0 (head (rest.*1))) /\ rest ⊆ al).
    { pose proof (lr_links _ _ (rr_list _ _ H)) as Hl. cbn in Hl. destruct (Z.eqb_spec mp 0) as [_|Hmp].
      - injection Er as ->. split; [|done]. destruct rest as [|e rest]; cbn in Hl |- *; [now rewrite Hl|]. now destruct Hl as [-> _].
      - apply after_split in Er as (pre & i & ->). rewrite fmap_app in Hl. apply flist_next in Hl as [_ Hl]. split; [|intros e He; apply elem_of_app; right; now right].
        now rewrite (get_block_ok _ _ _ Hmp Hl). }
    destruct Hnext as [-> Hsub]. cbn [mbind res_bind]. destruct rest as [|[a i] rest]; [eexists; split; [done|exact H]|].
    cbn [fmap list_fmap head default from_option report fst]. unfold id.
    destruct (rr_pool _ _ H a i) as (p & Ep & <-); [apply Hsub; left|].
    assert (Ha : a <> 0).
    { intros ->. apply (flist_nonzero _ _ _ (lr_links _ _ (rr_list _ _ H))). apply list_elem_of_fmap. exists (0, info_of p). split; [done|]. apply Hsub. left. }
    cbn [snd] in Ep. destruct (Z.eqb_spec a 0); [done|]. rewrite (get_block_ok _ _ _ Ha Ep). eexists. split; [done|exact H].
Qed.

Lemma run_steps s al al' ops os :
  registry_rep s al -> Forall list_op_ok ops -> registry_run al ops = Some (al', os) ->
  exists s', list_run ops s = Ok (s', os) /\ registry_rep s' al'.
Proof.
  revert s al os. induction ops as [|op ops IH]; intros s al os H Hok E; cbn [registry_run list_run] in *.
  - injection E as <- <-. eauto.
  - apply Forall_cons in Hok as [Hop Hok]. destruct (registry_step al op) as [[al1 o]|] eqn:Es; [|done]. cbn in E.
    destruct (registry_run al1 ops) as [[al2 os2]|] eqn:Er; [|done]. cbn in E. injection E as <- <-.
    destruct (call_step s al al1 op o H Hop Es) as (s1 & -> & H1). destruct (IH s1 al1 os2 H1 Hok Er) as (s2 & E2 & H2).
    cbn [mbind res_bind]. rewrite E2. eexists. split; [done|exact H2].
Qed.
End Refine.


Definition demo_list_ops : list list_op :=
  [LInit 0x800 2 6 0x1000 [109; 49]; LInit 0x900 0 8 0 []; LInit 0xa00 1 4 0x1002 []; LInit 0xb00 1 4 0x1008 (replicate 40 120);
   LUnregister 0x900; LUnregister 0x900; LInfo 0; LInfo 0x800; LInfo 0xb00].

Definition demo_words : gmap Z Z := list_to_map [(0x1000, 7); (0x1002, 7); (0x1008, 7)].


(** ** Initialising a registered pool again *)
Lemma cycle_spins g a x fuel prev :
  a <> 0 -> x <> a -> mp_list g !! a = Some a -> find_pool fuel g x prev a = Timeout.
Proof.
  intros Ha Hx Hl. revert prev. induction fuel as [|fuel IH]; intros prev; cbn [find_pool]; [done|].
  destruct (Z.eqb_spec a 0); [done|]. destruct (Z.eqb_spec a x); [congruence|]. rewrite (get_block_ok _ _ _ Ha Hl). apply IH.
Qed.

(** The last pool of the list, initialised once more, becomes its own successor: a walk
    along the list does not end any more, nor does the search for a pool that is not
    registered. *)
Theorem reinit_cycles g l mp x fuel :
  list_rep g (l ++ [mp]) -> x ∉ l ++ [mp] ->
  exists g', insert_tail g mp = Ok g' /\ next_pool g' mp = Ok mp /\ find_pool fuel g' x 0 (mpl_first g') = Timeout.
Proof.
  intros [Hl Hd Hlast] Hx. rewrite last_snoc in Hlast. cbn in Hlast. destruct (flist_next _ _ _ _ _ Hl) as [H0 _].
  unfold insert_tail. rewrite Hlast. destruct (Z.eqb_spec mp 0); [done|].
  rewrite (get_block_ok _ mp 0) by (done || apply lookup_insert_eq). cbn [mbind res_bind]. eexists. split; [done|].
  rewrite insert_insert_eq. split.
  - unfold next_pool. destruct (Z.eqb_spec mp 0); [done|]. cbn [mp_list]. now rewrite (get_block_ok _ mp mp) by (done || apply lookup_insert_eq).
  - cbn [mpl_first]. set (g' := MempoolList _ _ _). assert (Hg : mp_list g' = <[mp := mp]> (mp_list g)) by done. clearbody g'.
    clear Hlast. generalize 0 as prev. revert Hl Hd Hx. generalize (mpl_first g) as p. revert fuel.
    induction l as [|y l IH]; intros fuel p; cbn [app flist].
    + intros (-> & _) _ Hx prev. rewrite list_elem_of_singleton in Hx. apply cycle_spins; [done..|]. rewrite Hg. apply lookup_insert_eq.
    + intros (-> & Hy & b & Hb & Hl) [Hyl Hd]%NoDup_cons [Hne Hx]%not_elem_of_cons prev. destruct fuel as [|fuel]; [done|]. cbn [find_pool].
      destruct (Z.eqb_spec y 0); [done|]. destruct (Z.eqb_spec y x); [congruence|]. rewrite Hg.
      rewrite (get_block_ok _ y b Hy) by (rewrite lookup_insert_ne; [done|intros ->; apply Hyl, elem_of_app; right; left]).
      cbn [mbind res_bind]. now apply IH.
Qed.
