(* ===== verification/Mbuf.v ===== *)
(** * Chained buffers of NimBLE

    The operations of [porting/nimble/src/os_mbuf.c] and
    [nimble/host/src/ble_hs_mbuf.c] that the firewall calls: copying out of a chain
    of fragments, appending to one, and flattening a packet. The theorems say that
    fragmentation cannot be observed: the operations act on the concatenation of
    the fragments. *)
From stdpp Require Import base tactics numbers list.
From Stdlib Require Import ZArith Lia.
From S2P Require Import Prelude Mempool.
Local Open Scope Z_scope.

(** [memcpy] of [n] bytes from offset [off] of a buffer. *)
Definition buf_read (buf : list Z) (off n : Z) : res (list Z) :=
  if (0 <=? off) && (off + n <=? Z.of_nat (length buf))
  then Ok (slice (Z.to_nat off) (Z.to_nat n) buf) else Crash MemFault.

Definition buf_byte (buf : list Z) (off : Z) : res Z := of_option MemFault (arr_get buf off).

(** ** Chained buffers *)

(** A chain of [struct os_mbuf]: the data of each fragment. *)
Definition os_mbuf := list (list Z).

(** The loop that skips to the fragment of an offset; [None] when the chain ends. *)
Fixpoint mbuf_seek (m : os_mbuf) (off : Z) : option (os_mbuf * Z) :=
  if off <=? 0 then Some (m, off)
  else match m with
       | [] => None
       | d :: m' =>
           if off <? Z.of_nat (length d) then Some (m, off)
           else mbuf_seek m' (off - Z.of_nat (length d))
       end.

(** The loop that copies; the result is what was copied and what is left. *)
Fixpoint mbuf_copy (m : os_mbuf) (off len : Z) : list Z * Z :=
  if len <=? 0 then ([], len)
  else match m with
       | [] => ([], len)
       | d :: m' =>
           let count := Z.min (Z.of_nat (length d) - off) len in
           let '(r, rest) := mbuf_copy m' 0 (len - count) in
           (slice (Z.to_nat off) (Z.to_nat count) d ++ r, rest)
       end.

(** The bytes and the return code. *)
Definition os_mbuf_copydata (m : os_mbuf) (off len : Z) : list Z * Z :=
  if len =? 0 then ([], 0)
  else match mbuf_seek m off with
       | None => ([], -1)
       | Some (m, off) =>
           let '(r, rest) := mbuf_copy m off len in
           (r, if 0 <? rest then -1 else 0)
       end.

(** [memcpy] to the end of the last fragment. *)
Fixpoint append_last (m : os_mbuf) (d : list Z) : os_mbuf :=
  match m with
  | [] => []
  | [f] => [f ++ d]
  | f :: m => f :: append_last m d
  end.

(** The loop that allocates fragments of [databuf] bytes; [avail] of them are left
    in the pool. The result is the new fragments and the data that is left. *)
Fixpoint append_new (databuf : nat) (avail : nat) (data : list Z) : os_mbuf * list Z :=
  match data, avail with
  | [], _ => ([], [])
  | _, O => ([], data)
  | _, S avail =>
      let n := Nat.min databuf (length data) in
      let '(fs, rest) := append_new databuf avail (drop n data) in
      (take n data :: fs, rest)
  end.

(** [space]: the trailing space of the last fragment. *)
Definition os_mbuf_append (om : option os_mbuf) (space databuf avail : nat) (data : list Z)
    : option os_mbuf * Z :=
  match om with
  | None => (None, OS_EINVAL)
  | Some m =>
      let s := Nat.min space (length data) in
      let m := append_last m (take s data) in
      let '(fs, rest) := append_new databuf avail (drop s data) in
      (Some (m ++ fs), if (length rest =? 0)%nat then 0 else OS_ENOMEM)
  end.

(** ** Packets *)

(** A packet: the length in its header and its chain. *)
Record om_pkt := OmPkt { omp_len : Z; om_frags : os_mbuf }.

Abbreviation BLE_HS_EMSGSIZE := 4 (only parsing).
Abbreviation BLE_HS_EUNKNOWN := 17 (only parsing).

(** What is copied to the flat buffer, the return code, and the length that is
    reported, if any. *)
Definition ble_hs_mbuf_to_flat (om : om_pkt) (max_len : Z) : list Z * Z * option Z :=
  let copy_len := if omp_len om <=? max_len then omp_len om else max_len in
  let '(bs, rc) := os_mbuf_copydata (om_frags om) 0 copy_len in
  if negb (rc =? 0) then (bs, BLE_HS_EUNKNOWN, None)
  else (bs, if max_len <? copy_len then BLE_HS_EMSGSIZE else 0, Some copy_len).

(** The length in the header is the length of the chain. *)
Definition pkt_wf (om : om_pkt) : Prop :=
  omp_len om = Z.of_nat (length (concat (om_frags om))) /\ omp_len om < 65536.

(** ** Fragmentation *)
Lemma mbuf_seek_flat m off :
  0 <= off ->
  match mbuf_seek m off with
  | Some (m', off') =>
      0 <= off' /\ drop (Z.to_nat off') (concat m') = drop (Z.to_nat off) (concat m) /\
      match m' with [] => off' = 0 | d :: _ => off' = 0 \/ off' < Z.of_nat (length d) end
  | None => Z.of_nat (length (concat m)) < off
  end.
Proof.
  revert off. induction m as [|d m IH]; intros off Hoff; cbn [mbuf_seek].
  - destruct (Z.leb_spec off 0); cbn; [|lia]. split; [lia|]. split; [done|]. lia.
  - destruct (Z.leb_spec off 0); [split; [lia|]; split; [done|]; lia|].
    destruct (Z.ltb_spec off (Z.of_nat (length d))); [split; [lia|]; split; [done|]; lia|].
    specialize (IH (off - Z.of_nat (length d)) ltac:(lia)).
    assert (Hd : drop (Z.to_nat off) (concat (d :: m)) =
      drop (Z.to_nat (off - Z.of_nat (length d))) (concat m)).
    { cbn [concat]. rewrite drop_app_ge by lia. f_equal. lia. }
    destruct (mbuf_seek m _) as [[m' off']|].
    + rewrite Hd. done.
    + cbn [concat]. rewrite length_app. lia.
Qed.

Lemma mbuf_copy_flat m off len :
  0 <= off -> 0 <= len ->
  match m with [] => off = 0 | d :: _ => off = 0 \/ off < Z.of_nat (length d) end ->
  mbuf_copy m off len =
  (slice (Z.to_nat off) (Z.to_nat len) (concat m),
   len - Z.min len (Z.of_nat (length (concat m)) - off)).
Proof.
  revert off len. induction m as [|d m IH]; intros off len Hoff Hlen Hd; cbn [mbuf_copy].
  - subst off. unfold slice. cbn [concat]. rewrite drop_nil, take_nil. cbn [length].
    destruct (Z.leb_spec len 0); f_equal; lia.
  - cbn [concat]. rewrite length_app. unfold slice. destruct (Z.leb_spec len 0).
    { replace len with 0 by lia. cbn. f_equal. lia. }
    rewrite drop_app_le by lia.
    set (count := Z.min (Z.of_nat (length d) - off) len).
    rewrite IH by (try (destruct m; auto); lia).
    unfold slice. cbn [Z.to_nat]. rewrite drop_0, take_app, length_drop. f_equal; [|lia].
    f_equal; [|f_equal; lia].
    destruct (Z.le_ge_cases len (Z.of_nat (length d) - off)).
    + f_equal. lia.
    + rewrite !take_ge; [done|rewrite length_drop; lia..].
Qed.

Lemma copydata_flat m off len :
  0 <= off -> 0 < len ->
  os_mbuf_copydata m off len =
  (slice (Z.to_nat off) (Z.to_nat len) (concat m),
   if off + len <=? Z.of_nat (length (concat m)) then 0 else -1).
Proof.
  intros Hoff Hlen. unfold os_mbuf_copydata. replace (len =? 0) with false by lia.
  pose proof (mbuf_seek_flat m off Hoff) as H. destruct (mbuf_seek m off) as [[m' off']|].
  - destruct H as (H0 & Hd & Hb). rewrite mbuf_copy_flat by (done || lia).
    assert (Hs : slice (Z.to_nat off') (Z.to_nat len) (concat m') =
      slice (Z.to_nat off) (Z.to_nat len) (concat m)) by (unfold slice; now rewrite Hd).
    rewrite Hs. f_equal. apply (f_equal length) in Hd. rewrite !length_drop in Hd.
    assert (off' <= Z.of_nat (length (concat m'))).
    { destruct m' as [|d m']; [lia|]. cbn [concat]. rewrite length_app. lia. }
    destruct (Z.leb_spec (off + len) (Z.of_nat (length (concat m))));
      match goal with |- context [if ?b then _ else _] => destruct b eqn:E end; lia.
  - unfold slice. rewrite drop_ge, take_nil by lia.
    destruct (Z.leb_spec (off + len) (Z.of_nat (length (concat m)))); [lia|done].
Qed.

Lemma to_flat_truncates om max_len :
  pkt_wf om -> 0 < max_len ->
  ble_hs_mbuf_to_flat om max_len =
  (take (Z.to_nat max_len) (concat (om_frags om)), 0, Some (Z.min (omp_len om) max_len)).
Proof.
  intros [Hl _] Hmax. unfold ble_hs_mbuf_to_flat.
  set (copy_len := if omp_len om <=? max_len then omp_len om else max_len).
  assert (Hc : copy_len = Z.min (omp_len om) max_len)
    by (unfold copy_len; destruct (Z.leb_spec (omp_len om) max_len); lia).
  destruct (Z.eq_dec copy_len 0) as [E|E].
  - rewrite E. cbn. replace (max_len <? 0) with false by lia.
    destruct (concat (om_frags om)); [|cbn in Hl; lia]. rewrite take_nil.
    repeat f_equal. lia.
  - rewrite copydata_flat by lia.
    destruct (Z.leb_spec (0 + copy_len) (Z.of_nat (length (concat (om_frags om))))); [|lia].
    cbn [Z.eqb negb]. replace (max_len <? copy_len) with false by lia. rewrite Hc.
    do 2 f_equal. unfold slice. cbn [Z.to_nat]. rewrite drop_0.
    destruct (Z.min_spec (omp_len om) max_len) as [[? ->]|[? ->]]; [|done].
    rewrite !take_ge by lia. done.
Qed.

Lemma append_last_flat m d : m <> [] -> concat (append_last m d) = concat m ++ d.
Proof.
  induction m as [|f m IH]; [done|]. intros _. destruct m as [|g m].
  - cbn. now rewrite !app_nil_r.
  - change (append_last (f :: g :: m) d) with (f :: append_last (g :: m) d).
    cbn [concat]. rewrite IH by done. now rewrite app_assoc.
Qed.

Lemma append_new_flat databuf avail data :
  let '(fs, rest) := append_new databuf avail data in
  concat fs ++ rest = data /\ ((length data <= databuf * avail)%nat -> rest = []).
Proof.
  revert data. induction avail as [|avail IH]; intros data.
  - destruct data; cbn; [done|]. split; [done|]. lia.
  - destruct data as [|b data]; [done|]. cbn [append_new].
    set (n := Nat.min databuf _). specialize (IH (drop n (b :: data))).
    destruct (append_new _ _ _) as [fs rest]. destruct IH as [IH1 IH2]. cbn [concat].
    split; [rewrite <- app_assoc, IH1; apply take_drop|].
    intros H. apply IH2. rewrite length_drop. unfold n. nia.
Qed.

Lemma append_flat m space databuf avail data :
  m <> [] ->
  exists m' rc k, os_mbuf_append (Some m) space databuf avail data = (Some m', rc) /\
    concat m' = concat m ++ take k data /\ (k <= length data)%nat /\
    (rc = 0 <-> k = length data) /\
    ((length data <= space + databuf * avail)%nat -> rc = 0).
Proof.
  intros Hm. unfold os_mbuf_append. set (s := Nat.min space (length data)).
  pose proof (append_new_flat databuf avail (drop s data)) as H.
  destruct (append_new _ _ _) as [fs rest]. destruct H as [H1 H2].
  assert (Hlen : (length rest + length (concat fs) + s = length data)%nat).
  { apply (f_equal length) in H1. rewrite length_app, length_drop in H1. lia. }
  eexists _, _, (length data - length rest)%nat. split; [reflexivity|].
  split; [|split; [lia|split]].
  - rewrite concat_app, append_last_flat, <- app_assoc by done. f_equal.
    set (p := take s data ++ concat fs).
    assert (Hp : data = p ++ rest) by (unfold p; now rewrite <- app_assoc, H1, take_drop).
    replace (length data - length rest)%nat with (length p)
      by (apply (f_equal length) in Hp; rewrite length_app in Hp; lia).
    clearbody p. subst data. symmetry. apply take_app_length.
  - destruct (length rest =? 0)%nat eqn:E; [apply Nat.eqb_eq in E|apply Nat.eqb_neq in E];
      unfold OS_ENOMEM; split; lia.
  - intros Hspace. rewrite H2; [done|]. rewrite length_drop. lia.
Qed.

(** ** Properties *)

(** [os_mbuf_copydata] does not see the fragments: copying [len > 0] bytes
    from an offset of a chain copies that range of the concatenated data, cut off
    at its end, and returns 0 exactly when the range lies inside of it. *)
Theorem os_mbuf_copydata_flat m off len :
  0 <= off -> 0 < len ->
  os_mbuf_copydata m off len =
  (slice (Z.to_nat off) (Z.to_nat len) (concat m),
   if off + len <=? Z.of_nat (length (concat m)) then 0 else -1).
Proof. apply copydata_flat. Qed.

Lemma os_mbuf_copydata_flat_witness :
  os_mbuf_copydata [[1; 2]; []; [3; 4; 5]] 1 3 = ([2; 3; 4], 0).
Proof. apply (os_mbuf_copydata_flat [[1; 2]; []; [3; 4; 5]] 1 3); lia. Defined.

(** [os_mbuf_append] keeps the data of the chain and puts a prefix of the new
    data after it; it returns 0 exactly when that prefix is all of the data, which
    is the case whenever the trailing space and the fragments left in the pool are
    enough for it. *)
Theorem os_mbuf_append_flat m space databuf avail data :
  m <> [] ->
  exists m' rc k, os_mbuf_append (Some m) space databuf avail data = (Some m', rc) /\
    concat m' = concat m ++ take k data /\ (k <= length data)%nat /\
    (rc = 0 <-> k = length data) /\
    ((length data <= space + databuf * avail)%nat -> rc = 0).
Proof. apply append_flat. Qed.

Lemma os_mbuf_append_flat_witness :
  exists m' rc k, os_mbuf_append (Some [[1]; [2]]) 1 2 1 [3; 4; 5] = (Some m', rc) /\
    concat m' = [1; 2] ++ take k [3; 4; 5] /\ (k <= 3)%nat /\
    (rc = 0 <-> k = 3%nat) /\ ((3 <= 1 + 2 * 1)%nat -> rc = 0).
Proof. apply (os_mbuf_append_flat [[1]; [2]] 1 2 1 [3; 4; 5]). discriminate. Defined.

(** [ble_hs_mbuf_to_flat] never reports a packet that is too long: for every
    packet it fills the flat buffer to capacity and returns 0, where its
    documentation promises [BLE_HS_EMSGSIZE]. *)
Theorem mbuf_to_flat_truncates om max_len :
  pkt_wf om -> 0 < max_len ->
  ble_hs_mbuf_to_flat om max_len =
  (take (Z.to_nat max_len) (concat (om_frags om)), 0, Some (Z.min (omp_len om) max_len)).
Proof. apply to_flat_truncates. Qed.

Lemma mbuf_to_flat_truncates_witness :
  ble_hs_mbuf_to_flat (OmPkt 3 [[1]; [2; 3]]) 2 = ([1; 2], 0, Some 2).
Proof. apply (mbuf_to_flat_truncates (OmPkt 3 [[1]; [2; 3]]) 2); [split; reflexivity|lia]. Defined.
