(* ===== verification/MbufHeap.v ===== *)
(** * Buffer chains in memory

    The representation and the basic operations of [porting/nimble/src/os_mbuf.c] on a
    memory of blocks: chains are linked through [om_next], blocks come from the pools of
    [Mempool] and return to them, and a packet header lies in the first bytes of a data
    buffer. [Mbuf] has the operations that the firewall calls on the fragments of a chain
    only; [MbufRead] and [MbufPacket] show that the ones here read the same. *)
From stdpp Require Import base tactics numbers list gmap.
From Stdlib Require Import ZArith Lia.
From S2P Require Import Prelude Mempool.
Local Open Scope Z_scope.
Local Open Scope bits_scope.

(** ** Data *)

(** A block of a pool. Its first word is [om_data] while it is in use and the link of
    the pool while it is free. *)
Record os_mbuf := OsMbuf {
  om_data : Z;             (* uint8_t * *)
  om_flags : Z;            (* uint8_t *)
  om_pkthdr_len : Z;       (* uint8_t *)
  om_len : Z;              (* uint16_t *)
  om_omp : Z;              (* struct os_mbuf_pool * *)
  om_next : Z;             (* struct os_mbuf * *)
  om_databuf : list Z;
}.

Definition set_om_data (v : Z) (b : os_mbuf) : os_mbuf :=
  OsMbuf v (om_flags b) (om_pkthdr_len b) (om_len b) (om_omp b) (om_next b) (om_databuf b).
Definition set_om_pkthdr_len (v : Z) (b : os_mbuf) : os_mbuf :=
  OsMbuf (om_data b) (om_flags b) v (om_len b) (om_omp b) (om_next b) (om_databuf b).
Definition set_om_len (v : Z) (b : os_mbuf) : os_mbuf :=
  OsMbuf (om_data b) (om_flags b) (om_pkthdr_len b) v (om_omp b) (om_next b) (om_databuf b).
Definition set_om_next (v : Z) (b : os_mbuf) : os_mbuf :=
  OsMbuf (om_data b) (om_flags b) (om_pkthdr_len b) (om_len b) (om_omp b) v (om_databuf b).
Definition set_om_databuf (v : list Z) (b : os_mbuf) : os_mbuf :=
  OsMbuf (om_data b) (om_flags b) (om_pkthdr_len b) (om_len b) (om_omp b) (om_next b) v.

#[export] Instance mbuf_block : MemBlock os_mbuf :=
  {| mb_next := om_data; set_mb_next := set_om_data; mb_next_set v b := eq_refl |}.

(** [sizeof (struct os_mbuf)] and [sizeof (struct os_mbuf_pkthdr)]. *)
Definition MBUF_SIZE : Z := 16.
Definition PKTHDR_SIZE : Z := 8.

Record os_mbuf_pool := OsMbufPool {
  omp_databuf_len : Z;     (* uint16_t *)
  omp_pool : os_mempool;
}.

Record mheap := MHeap {
  mem : gmap Z os_mbuf;
  pools : gmap Z os_mbuf_pool;
}.

(** The configuration of the pools. *)
Class MempoolConf := {
  OS_MEMPOOL_CHECK : bool;
  put_cb : Z -> gmap Z os_mbuf -> os_mempool -> Z -> res (gmap Z os_mbuf * os_mempool * Z);
}.

(** ** Computations on the memory *)
Definition M (A : Type) : Type := mheap -> res (A * mheap).

#[export] Instance M_ret : MRet M := fun A a s => Ok (a, s).
#[export] Instance M_bind : MBind M := fun A B f c s =>
  match c s with Ok (a, s) => f a s | Crash e => Crash e | Timeout => Timeout end.

Definition lift {A} (r : res A) : M A := fun s => a ← r; Ok (a, s).

Definition load (a : Z) : M os_mbuf := fun s => b ← get_block (mem s) a; Ok (b, s).

Definition store (a : Z) (b : os_mbuf) : M unit := fun s =>
  _ ← get_block (mem s) a; Ok (tt, MHeap (<[a := b]> (mem s)) (pools s)).

Definition upd (a : Z) (f : os_mbuf -> os_mbuf) : M unit := b ← load a; store a (f b).

Definition load_pool (id : Z) : M os_mbuf_pool := fun s =>
  if id =? 0 then Crash NullDeref else p ← of_option MemFault (pools s !! id); Ok (p, s).

(** Fuel for a walk along a chain, or for as many allocations as there are blocks. *)
Definition with_fuel {A} (k : nat -> M A) : M A := fun s => k (S (size (mem s))) s.

(** [memcpy] of [n] bytes at the address [p] of the data buffer of the block at [a]. *)
Definition mread (a p n : Z) : M (list Z) :=
  b ← load a;
  let i := p - (a + MBUF_SIZE) in
  if (0 <=? n) && (0 <=? i) && (i + n <=? Z.of_nat (length (om_databuf b)))
  then mret (slice (Z.to_nat i) (Z.to_nat n) (om_databuf b)) else lift (Crash MemFault).

Definition splice (i : nat) (bs buf : list Z) : list Z := take i buf ++ bs ++ drop (i + length bs) buf.

Definition mwrite (a p : Z) (bs : list Z) : M unit :=
  b ← load a;
  let i := p - (a + MBUF_SIZE) in
  if (0 <=? i) && (i + Z.of_nat (length bs) <=? Z.of_nat (length (om_databuf b)))
  then store a (set_om_databuf (splice (Z.to_nat i) bs (om_databuf b)) b)
  else lift (Crash MemFault).

(** ** Macros of [os_mbuf.h] *)
Definition OS_MBUF_IS_PKTHDR (b : os_mbuf) : bool := PKTHDR_SIZE <=? om_pkthdr_len b.

(** [OS_MBUF_PKTHDR(om)->omp_len], and its assignment. *)
Definition pktlen (a : Z) : M Z := bs ← mread a (a + MBUF_SIZE) 2; mret (u16 (le_val bs)).
Definition set_pktlen (a v : Z) : M unit := mwrite a (a + MBUF_SIZE) (le_bytes 2 v).

Definition OS_MBUF_LEADINGSPACE (a : Z) : M Z :=
  b ← load a;
  let startoff := if OS_MBUF_IS_PKTHDR b then om_pkthdr_len b else 0 in
  mret (u16 (om_data b - (a + MBUF_SIZE + startoff))).

Definition OS_MBUF_TRAILINGSPACE (a : Z) : M Z :=
  b ← load a;
  p ← load_pool (om_omp b);
  mret (u16 (a + MBUF_SIZE + omp_databuf_len p - (om_data b + om_len b))).

(** [if (OS_MBUF_IS_PKTHDR(om)) OS_MBUF_PKTHDR(om)->omp_len += d] *)
Definition add_pktlen (a d : Z) : M unit :=
  b ← load a;
  if OS_MBUF_IS_PKTHDR b then v ← pktlen a; set_pktlen a (u16 (v + d)) else mret tt.

Section Ops.
  Context `{!MempoolConf}.

(** ** Allocation *)
Definition pool_get (id : Z) : M Z := fun s =>
  '(p, s) ← load_pool id s;
  '(mp, a) ← os_memblock_get (mem s) (Some (omp_pool p));
  Ok (a, match mp with
         | Some mp => MHeap (mem s) (<[id := OsMbufPool (omp_databuf_len p) mp]> (pools s))
         | None => s
         end).

Definition pool_put (id a : Z) : M Z := fun s =>
  '(p, s) ← load_pool id s;
  '(m, mp, rc) ← os_memblock_put OS_MEMPOOL_CHECK put_cb (mem s) (Some (omp_pool p)) a;
  Ok (rc, match mp with
          | Some mp => MHeap m (<[id := OsMbufPool (omp_databuf_len p) mp]> (pools s))
          | None => MHeap m (pools s)
          end).

Definition os_mbuf_pool_init (mp : os_mempool) (buf_len : Z) : os_mbuf_pool :=
  OsMbufPool (u16 (buf_len - MBUF_SIZE)) mp.

Definition os_mbuf_get (omp leadingspace : Z) : M Z :=
  p ← load_pool omp;
  if omp_databuf_len p <? leadingspace then mret 0
  else
    om ← pool_get omp;
    if om =? 0 then mret 0
    else
      upd om (fun b => OsMbuf (om + MBUF_SIZE + leadingspace) 0 0 0 omp 0 (om_databuf b));;
      mret om.

Definition os_mbuf_get_pkthdr (omp user_pkthdr_len : Z) : M Z :=
  p ← load_pool omp;
  let pkthdr_len := u16 (user_pkthdr_len + PKTHDR_SIZE) in
  if (omp_databuf_len p <? pkthdr_len) || (255 <? pkthdr_len) then mret 0
  else
    om ← os_mbuf_get omp 0;
    if om =? 0 then mret 0
    else
      upd om (set_om_pkthdr_len pkthdr_len);;
      upd om (fun b => set_om_data (om_data b + pkthdr_len) b);;
      mwrite om (om + MBUF_SIZE) (replicate 8 0);;
      mret om.

Definition os_mbuf_free (om : Z) : M Z :=
  b ← load om;
  if om_omp b =? 0 then mret 0 else pool_put (om_omp b) om.

Fixpoint free_chain_loop (fuel : nat) (om : Z) : M Z :=
  match fuel with
  | O => lift Timeout
  | S fuel =>
      if om =? 0 then mret 0
      else
        b ← load om;
        let next := om_next b in
        rc ← os_mbuf_free om;
        if negb (rc =? 0) then mret rc else free_chain_loop fuel next
  end.

Definition os_mbuf_free_chain (om : Z) : M Z := with_fuel (fun n => free_chain_loop n om).

Definition _os_mbuf_copypkthdr (new_buf old_buf : Z) : M unit :=
  nb ← load new_buf;
  if negb (om_len nb =? 0) then lift (Crash AssertFail)
  else
    ob ← load old_buf;
    bs ← mread old_buf (old_buf + MBUF_SIZE) (om_pkthdr_len ob);
    mwrite new_buf (new_buf + MBUF_SIZE) bs;;
    upd new_buf (set_om_pkthdr_len (om_pkthdr_len ob));;
    upd new_buf (set_om_data (new_buf + MBUF_SIZE + om_pkthdr_len ob)).

(** ** Walks along a chain *)
Fixpoint len_loop (fuel : nat) (om len : Z) : M Z :=
  match fuel with
  | O => lift Timeout
  | S fuel =>
      if om =? 0 then mret len
      else b ← load om; len_loop fuel (om_next b) (u16 (len + om_len b))
  end.

Definition os_mbuf_len (om : Z) : M Z := with_fuel (fun n => len_loop n om 0).

(** The loop that scrolls to the last buffer of a chain. *)
Fixpoint last_loop (fuel : nat) (last : Z) : M Z :=
  match fuel with
  | O => lift Timeout
  | S fuel => b ← load last; if om_next b =? 0 then mret last else last_loop fuel (om_next b)
  end.

Fixpoint off_loop (fuel : nat) (cur off : Z) : M (Z * Z) :=
  match fuel with
  | O => lift Timeout
  | S fuel =>
      if cur =? 0 then mret (0, 0)
      else
        b ← load cur;
        let next := om_next b in
        if (off <? om_len b) || ((om_len b =? off) && (next =? 0)) then mret (cur, u16 off)
        else off_loop fuel next (off - om_len b)
  end.

(** The buffer, or null, and the offset in it, which is not set in that case. *)
Definition os_mbuf_off (om off : Z) : M (Z * Z) := with_fuel (fun n => off_loop n om off).

Fixpoint seek_loop (fuel : nat) (m off : Z) : M (option (Z * Z)) :=
  match fuel with
  | O => lift Timeout
  | S fuel =>
      if off <=? 0 then mret (Some (m, off))
      else if m =? 0 then mret None
      else
        b ← load m;
        if off <? om_len b then mret (Some (m, off)) else seek_loop fuel (om_next b) (off - om_len b)
  end.

(** The bytes copied and what is left of [len]. *)
Fixpoint copy_loop (fuel : nat) (m off len : Z) : M (list Z * Z) :=
  match fuel with
  | O => lift Timeout
  | S fuel =>
      if (len <=? 0) || (m =? 0) then mret ([], len)
      else
        b ← load m;
        let count := Z.min (om_len b - off) len in
        bs ← mread m (om_data b + off) count;
        '(r, rest) ← copy_loop fuel (om_next b) 0 (len - count);
        mret (bs ++ r, rest)
  end.

Definition os_mbuf_copydata (m off len : Z) : M (list Z * Z) :=
  if len =? 0 then mret ([], 0)
  else
    o ← with_fuel (fun n => seek_loop n m off);
    match o with
    | None => mret ([], -1)
    | Some (m, off) =>
        '(bs, rest) ← with_fuel (fun n => copy_loop n m off len);
        mret (bs, if 0 <? rest then -1 else 0)
    end.

(** ** Growing a chain *)
(** The loop that allocates buffers until the data is exhausted; the data that is left. *)
Fixpoint append_loop (fuel : nat) (omp last : Z) (data : list Z) : M (list Z) :=
  match fuel with
  | O => lift Timeout
  | S fuel =>
      match data with
      | [] => mret []
      | _ =>
          new ← os_mbuf_get omp 0;
          if new =? 0 then mret data
          else
            p ← load_pool omp;
            let n := u16 (Z.min (omp_databuf_len p) (Z.of_nat (length data))) in
            upd new (set_om_len n);;
            b ← load new;
            mwrite new (om_data b) (take (Z.to_nat n) data);;
            upd last (set_om_next new);;
            append_loop fuel omp new (drop (Z.to_nat n) data)
      end
  end.

Definition os_mbuf_append (om : Z) (data : list Z) : M Z :=
  if om =? 0 then mret OS_EINVAL
  else
    b ← load om;
    let omp := om_omp b in
    last ← with_fuel (fun n => last_loop n om);
    space ← OS_MBUF_TRAILINGSPACE last;
    rest ← (if 0 <? space then
              let space := Z.to_nat (Z.min space (Z.of_nat (length data))) in
              lb ← load last;
              mwrite last (om_data lb + om_len lb) (take space data);;
              upd last (fun b => set_om_len (u16 (om_len b + Z.of_nat space)) b);;
              mret (drop space data)
            else mret data);
    rest ← with_fuel (fun n => append_loop n omp last rest);
    add_pktlen om (Z.of_nat (length data) - Z.of_nat (length rest));;
    mret (if (length rest =? 0)%nat then 0 else OS_ENOMEM).

Fixpoint appendfrom_loop (fuel : nat) (dst cur off len : Z) : M Z :=
  match fuel with
  | O => lift Timeout
  | S fuel =>
      if len <=? 0 then mret 0
      else if cur =? 0 then mret OS_EINVAL
      else
        b ← load cur;
        let chunk_sz := u16 (Z.min len (om_len b - off)) in
        bs ← mread cur (om_data b + off) chunk_sz;
        rc ← os_mbuf_append dst bs;
        if negb (rc =? 0) then mret rc
        else b ← load cur; appendfrom_loop fuel dst (om_next b) 0 (u16 (len - chunk_sz))
  end.

Definition os_mbuf_appendfrom (dst src src_off len : Z) : M Z :=
  '(cur, off) ← os_mbuf_off src src_off;
  with_fuel (fun n => appendfrom_loop n dst cur off len).

(** The pointer to the new data. *)
Definition os_mbuf_extend (om len : Z) : M Z :=
  b ← load om;
  p ← load_pool (om_omp b);
  if omp_databuf_len p <? len then mret 0
  else
    last ← with_fuel (fun n => last_loop n om);
    space ← OS_MBUF_TRAILINGSPACE last;
    last ← (if space <? len then
              newm ← os_mbuf_get (om_omp b) 0;
              if newm =? 0 then mret 0 else upd last (set_om_next newm);; mret newm
            else mret last);
    if last =? 0 then mret 0
    else
      lb ← load last;
      let data := om_data lb + om_len lb in
      upd last (set_om_len (u16 (om_len lb + len)));;
      add_pktlen om len;;
      mret data.

(** The loop of [os_mbuf_dup] behind the first buffer; the head of the copy is freed
    when an allocation fails. *)
Fixpoint dup_loop (fuel : nat) (omp om head copy : Z) : M Z :=
  match fuel with
  | O => lift Timeout
  | S fuel =>
      if om =? 0 then mret head
      else
        leading ← OS_MBUF_LEADINGSPACE om;
        new ← os_mbuf_get omp leading;
        upd copy (set_om_next new);;
        if new =? 0 then os_mbuf_free_chain head;; mret 0
        else
          b ← load om;
          upd new (fun c => OsMbuf (om_data c) (om_flags b) (om_pkthdr_len c) (om_len b) (om_omp c)
                              (om_next c) (om_databuf c));;
          c ← load new;
          bs ← mread om (om_data b) (om_len b);
          mwrite new (om_data c) bs;;
          dup_loop fuel omp (om_next b) head new
  end.

Definition os_mbuf_dup (om : Z) : M Z :=
  b ← load om;
  let omp := om_omp b in
  leading ← OS_MBUF_LEADINGSPACE om;
  head ← os_mbuf_get omp leading;
  if head =? 0 then mret 0
  else
    (if OS_MBUF_IS_PKTHDR b then _os_mbuf_copypkthdr head om else mret tt);;
    upd head (fun c => OsMbuf (om_data c) (om_flags b) (om_pkthdr_len c) (om_len b) (om_omp c)
                         (om_next c) (om_databuf c));;
    c ← load head;
    bs ← mread om (om_data b) (om_len b);
    mwrite head (om_data c) bs;;
    with_fuel (fun n => dup_loop n omp (om_next b) head head).
End Ops.
