(* ===== verification/MbufEdit.v ===== *)
(** * Editing buffer chains

    The operations of [porting/nimble/src/os_mbuf.c] that trim, compare, rearrange and
    join chains, and its list of pools. *)
From stdpp Require Import base tactics numbers list gmap.
From Stdlib Require Import ZArith Lia.
From S2P Require Import Prelude Mempool Mbuf MbufHeap.
Local Open Scope Z_scope.
Local Open Scope bits_scope.

Section Edit.
  Context `{!MempoolConf}.

(** ** Trimming *)

(** The loop that trims from the head; what is left of [len]. *)
Fixpoint adj_head_loop (fuel : nat) (m len : Z) : M Z :=
  match fuel with
  | O => lift Timeout
  | S fuel =>
      if (m =? 0) || (len <=? 0) then mret len
      else
        b ← load m;
        if om_len b <=? len then
          upd m (set_om_len 0);; adj_head_loop fuel (om_next b) (len - om_len b)
        else
          upd m (set_om_len (u16 (om_len b - len)));;
          upd m (fun b => set_om_data (om_data b + len) b);;
          adj_head_loop fuel m 0
  end.

(** The loop that finds the last buffer and the length of the chain. *)
Fixpoint adj_count_loop (fuel : nat) (m count : Z) : M (Z * Z) :=
  match fuel with
  | O => lift Timeout
  | S fuel =>
      b ← load m;
      let count := count + om_len b in
      if om_next b =? 0 then mret (m, count) else adj_count_loop fuel (om_next b) count
  end.

(** The loop that finds the buffer with the last data and frees what follows it. *)
Fixpoint adj_tail_loop (fuel : nat) (m count : Z) : M unit :=
  match fuel with
  | O => lift Timeout
  | S fuel =>
      if m =? 0 then mret tt
      else
        b ← load m;
        if count <=? om_len b then
          upd m (set_om_len (u16 count));;
          if negb (om_next b =? 0) then os_mbuf_free_chain (om_next b);; upd m (set_om_next 0)
          else mret tt
        else adj_tail_loop fuel (om_next b) (count - om_len b)
  end.

Definition os_mbuf_adj (mp req_len : Z) : M unit :=
  if mp =? 0 then mret tt
  else if 0 <=? req_len then
    len ← with_fuel (fun n => adj_head_loop n mp req_len);
    add_pktlen mp (- (req_len - len))
  else
    let len := - req_len in
    '(m, count) ← with_fuel (fun n => adj_count_loop n mp 0);
    b ← load m;
    if len <=? om_len b then
      upd m (set_om_len (u16 (om_len b - len)));;
      add_pktlen mp (- len)
    else
      let count := if count - len <? 0 then 0 else count - len in
      h ← load mp;
      (if OS_MBUF_IS_PKTHDR h then set_pktlen mp (u16 count) else mret tt);;
      with_fuel (fun n => adj_tail_loop n mp count).

Fixpoint trim_loop (fuel : nat) (om cur : Z) : M Z :=
  match fuel with
  | O => lift Timeout
  | S fuel =>
      if cur =? 0 then mret 0
      else
        b ← load cur;
        if om_len b =? 0 then
          upd om (set_om_next (om_next b));;
          os_mbuf_free cur;;
          trim_loop fuel om (om_next b)
        else mret cur
  end.

Definition os_mbuf_trim_front (om : Z) : M Z :=
  b ← load om;
  if negb (om_len b =? 0) then mret om
  else
    cur ← with_fuel (fun n => trim_loop n om (om_next b));
    if cur =? 0 then mret om
    else
      leading ← OS_MBUF_LEADINGSPACE cur;
      b ← load om;
      if om_pkthdr_len b <=? leading then
        upd cur (set_om_pkthdr_len (om_pkthdr_len b));;
        bs ← mread om (om + MBUF_SIZE) (om_pkthdr_len b);
        mwrite cur (cur + MBUF_SIZE) bs;;
        os_mbuf_free om;;
        mret cur
      else mret om.

(** ** Comparison *)

(** The difference of the first bytes that differ. *)
Fixpoint memcmp (xs ys : list Z) : Z :=
  match xs, ys with
  | x :: xs, y :: ys => if x =? y then memcmp xs ys else x - y
  | _, _ => 0
  end.

Definition INT_MAX : Z := 2 ^ 31 - 1.

Fixpoint cmpf_loop (fuel : nat) (om om_off : Z) (data : list Z) (data_off : Z) : M Z :=
  match fuel with
  | O => lift Timeout
  | S fuel =>
      if om =? 0 then mret INT_MAX
      else
        b ← load om;
        let chunk_sz := u16 (Z.min (om_len b - om_off) (Z.of_nat (length data) - data_off)) in
        rc ← (if 0 <? chunk_sz then
                bs ← mread om (om_data b + om_off) chunk_sz;
                mret (memcmp bs (slice (Z.to_nat data_off) (Z.to_nat chunk_sz) data))
              else mret 0);
        if negb (rc =? 0) then mret rc
        else
          let data_off := u16 (data_off + chunk_sz) in
          if data_off =? Z.of_nat (length data) then mret 0
          else if om_next b =? 0 then mret INT_MAX
          else cmpf_loop fuel (om_next b) 0 data data_off
  end.

Definition os_mbuf_cmpf (om off : Z) (data : list Z) : M Z :=
  if (length data =? 0)%nat then mret 0
  else
    '(om, om_off) ← os_mbuf_off om off;
    with_fuel (fun n => cmpf_loop n om om_off data 0).

(** [while (cur != NULL && om_off >= cur->om_len)] *)
Fixpoint skip_loop (fuel : nat) (cur om_off : Z) : M (Z * Z) :=
  match fuel with
  | O => lift Timeout
  | S fuel =>
      if cur =? 0 then mret (0, om_off)
      else b ← load cur; if om_len b <=? om_off then skip_loop fuel (om_next b) 0 else mret (cur, om_off)
  end.

Fixpoint cmpm_loop (fuel : nat) (cur1 om1_off cur2 om2_off bytes_remaining : Z) : M Z :=
  match fuel with
  | O => lift Timeout
  | S fuel =>
      if bytes_remaining =? 0 then mret 0
      else
        '(cur1, om1_off) ← with_fuel (fun n => skip_loop n cur1 om1_off);
        '(cur2, om2_off) ← with_fuel (fun n => skip_loop n cur2 om2_off);
        if (cur1 =? 0) || (cur2 =? 0) then mret INT_MAX
        else
          b1 ← load cur1;
          b2 ← load cur2;
          let om1_left := u16 (om_len b1 - om1_off) in
          let om2_left := u16 (om_len b2 - om2_off) in
          let chunk_sz := Z.min (Z.min om1_left om2_left) bytes_remaining in
          bs1 ← mread cur1 (om_data b1 + om1_off) chunk_sz;
          bs2 ← mread cur2 (om_data b2 + om2_off) chunk_sz;
          let rc := memcmp bs1 bs2 in
          if negb (rc =? 0) then mret rc
          else cmpm_loop fuel cur1 (u16 (om1_off + chunk_sz)) cur2 (u16 (om2_off + chunk_sz))
                 (u16 (bytes_remaining - chunk_sz))
  end.

(** Each round compares at least one byte. *)
Definition os_mbuf_cmpm (om1 offset1 om2 offset2 len : Z) : M Z :=
  '(cur1, om1_off) ← os_mbuf_off om1 offset1;
  '(cur2, om2_off) ← os_mbuf_off om2 offset2;
  cmpm_loop (S (Z.to_nat len)) cur1 om1_off cur2 om2_off len.

(** ** Room at the front *)
Fixpoint prepend_loop (fuel : nat) (om len : Z) : M Z :=
  match fuel with
  | O => lift Timeout
  | S fuel =>
      space ← OS_MBUF_LEADINGSPACE om;
      let leading := Z.min len space in
      upd om (fun b => set_om_data (om_data b - leading) b);;
      upd om (fun b => set_om_len (u16 (om_len b + leading)) b);;
      add_pktlen om leading;;
      let len := len - leading in
      if len =? 0 then mret om
      else
        b ← load om;
        p ← (if OS_MBUF_IS_PKTHDR b
             then os_mbuf_get_pkthdr (om_omp b) (u8 (om_pkthdr_len b - PKTHDR_SIZE))
             else os_mbuf_get (om_omp b) 0);
        if p =? 0 then os_mbuf_free_chain om;; mret 0
        else
          (if OS_MBUF_IS_PKTHDR b
           then _os_mbuf_copypkthdr p om;; upd om (set_om_pkthdr_len 0) else mret tt);;
          trailing ← OS_MBUF_TRAILINGSPACE p;
          upd p (fun b => set_om_data (om_data b + trailing) b);;
          upd p (set_om_next om);;
          prepend_loop fuel p len
  end.

Definition os_mbuf_prepend (om len : Z) : M Z := with_fuel (fun n => prepend_loop n om len).

(** The result is the rest of the chain and what is left of [len]. *)
Fixpoint pullup_loop (fuel : nat) (om om2 len space : Z) : M (Z * Z) :=
  match fuel with
  | O => lift Timeout
  | S fuel =>
      b ← load om;
      b2 ← load om2;
      let count := Z.min (Z.min len space) (om_len b) in
      bs ← mread om (om_data b) count;
      mwrite om2 (om_data b2 + om_len b2) bs;;
      let len := u16 (len - count) in
      upd om2 (fun b => set_om_len (u16 (om_len b + count)) b);;
      upd om (fun b => set_om_len (u16 (om_len b - count)) b);;
      let space := space - count in
      b ← load om;
      om ← (if negb (om_len b =? 0) then
              upd om (fun b => set_om_data (om_data b + count) b);; mret om
            else
              let next := om_next b in
              os_mbuf_free om;; mret next);
      if (0 <? len) && negb (om =? 0) then pullup_loop fuel om om2 len space else mret (om, len)
  end.

Definition pullup_bad (om : Z) : M Z := os_mbuf_free_chain om;; mret 0.

Definition os_mbuf_pullup (om len : Z) : M Z :=
  b ← load om;
  let omp := om_omp b in
  if len <=? om_len b then mret om
  else
    trailing ← OS_MBUF_TRAILINGSPACE om;
    r ← (if (len <=? om_len b + trailing) && negb (om_next b =? 0)
         then mret (Some (om, om_next b, u16 (len - om_len b)))
         else
           p ← load_pool omp;
           if omp_databuf_len p - om_pkthdr_len b <? len then mret None
           else
             om2 ← os_mbuf_get omp 0;
             if om2 =? 0 then mret None
             else
               (if OS_MBUF_IS_PKTHDR b then _os_mbuf_copypkthdr om2 om else mret tt);;
               mret (Some (om2, om, len)));
    match r with
    | None => pullup_bad om
    | Some (om2, om, len) =>
        space ← OS_MBUF_TRAILINGSPACE om2;
        '(om, len) ← with_fuel (fun n => pullup_loop n om om2 len space);
        if 0 <? len then os_mbuf_free om2;; pullup_bad om
        else upd om2 (set_om_next om);; mret om2
    end.

Definition os_mbuf_prepend_pullup (om len : Z) : M Z :=
  om ← os_mbuf_prepend om len;
  if om =? 0 then mret 0 else os_mbuf_pullup om len.

(** ** Writing into a chain *)

(** The loop that overwrites existing data; the last buffer and the data that is left,
    or [None] when all of it fitted. *)
Fixpoint copyinto_loop (fuel : nat) (cur cur_off : Z) (src : list Z) : M (option (Z * list Z)) :=
  match fuel with
  | O => lift Timeout
  | S fuel =>
      b ← load cur;
      let copylen := Z.min (om_len b - cur_off) (Z.of_nat (length src)) in
      src ← (if 0 <? copylen then
               mwrite cur (om_data b + cur_off) (take (Z.to_nat copylen) src);;
               mret (drop (Z.to_nat copylen) src)
             else mret src);
      if (length src =? 0)%nat then mret None
      else
        b ← load cur;
        if om_next b =? 0 then mret (Some (cur, src)) else copyinto_loop fuel (om_next b) 0 src
  end.

Definition os_mbuf_copyinto (om off : Z) (src : list Z) : M Z :=
  '(cur, cur_off) ← os_mbuf_off om off;
  if cur =? 0 then mret (-1)
  else
    r ← with_fuel (fun n => copyinto_loop n cur cur_off src);
    match r with
    | None => mret 0
    | Some (cur, src) =>
        let len := Z.of_nat (length src) in
        rc ← os_mbuf_append cur (take (Z.to_nat (u16 len)) src);
        if negb (rc =? 0) then mret rc
        else
          b ← load om;
          (if OS_MBUF_IS_PKTHDR b
           then v ← pktlen om; set_pktlen om (u16 (Z.max v (off + len))) else mret tt);;
          mret 0
    end.

(** The new buffers of a gap of [rem_len] bytes: the first and the last one, or [None]
    when an allocation failed and the ones before were freed. *)
Fixpoint widen_loop (fuel : nat) (omp first_new prev rem_len : Z) : M (option (Z * Z)) :=
  match fuel with
  | O => lift Timeout
  | S fuel =>
      if rem_len <=? 0 then mret (Some (first_new, prev))
      else
        cur ← os_mbuf_get omp 0;
        if cur =? 0 then os_mbuf_free_chain first_new;; mret None
        else
          let first_new := if first_new =? 0 then cur else first_new in
          space ← OS_MBUF_TRAILINGSPACE cur;
          (if space <? rem_len then upd cur (set_om_len space) else upd cur (set_om_len rem_len));;
          b ← load cur;
          let rem_len := u16 (rem_len - om_len b) in
          (if negb (prev =? 0) then upd prev (set_om_next cur) else mret tt);;
          widen_loop fuel omp first_new cur rem_len
  end.

Definition os_mbuf_widen (om off len : Z) : M Z :=
  '(edge_om, sub_off) ← os_mbuf_off om off;
  if edge_om =? 0 then mret OS_EINVAL
  else
    space ← OS_MBUF_TRAILINGSPACE edge_om;
    if len <=? space then
      eb ← load edge_om;
      bs ← mread edge_om (om_data eb + sub_off) (om_len eb - sub_off);
      mwrite edge_om (om_data eb + sub_off + len) bs;;
      upd edge_om (set_om_len (u16 (om_len eb + len)));;
      add_pktlen om len;;
      mret 0
    else
      b ← load om;
      r ← with_fuel (fun n => widen_loop n (om_omp b) 0 0 len);
      match r with
      | None => mret OS_ENOMEM
      | Some (first_new, prev) =>
          eb ← load edge_om;
          bs ← mread edge_om (om_data eb + sub_off) (om_len eb - sub_off);
          rc ← os_mbuf_append prev bs;
          if negb (rc =? 0) then os_mbuf_free_chain first_new;; mret OS_ENOMEM
          else
            upd edge_om (set_om_len sub_off);;
            eb ← load edge_om;
            upd prev (set_om_next (om_next eb));;
            upd edge_om (set_om_next first_new);;
            add_pktlen om len;;
            mret 0
      end.

(** ** Joining chains *)
Fixpoint concat_len_loop (fuel : nat) (first cur : Z) : M unit :=
  match fuel with
  | O => lift Timeout
  | S fuel =>
      if cur =? 0 then mret tt
      else
        b ← load cur;
        v ← pktlen first;
        set_pktlen first (u16 (v + om_len b));;
        concat_len_loop fuel first (om_next b)
  end.

Definition os_mbuf_concat (first second : Z) : M unit :=
  cur ← with_fuel (fun n => last_loop n first);
  upd cur (set_om_next second);;
  fb ← load first;
  (if OS_MBUF_IS_PKTHDR fb then
     sb ← load second;
     if OS_MBUF_IS_PKTHDR sb then
       v ← pktlen first; w ← pktlen second; set_pktlen first (u16 (v + w))
     else with_fuel (fun n => concat_len_loop n first second)
   else mret tt);;
  upd second (set_om_pkthdr_len 0).

(** [while (next->om_len == 0)]: empty buffers behind [cur] are freed. *)
Fixpoint pack_free_loop (fuel : nat) (cur next : Z) : M Z :=
  match fuel with
  | O => lift Timeout
  | S fuel =>
      nb ← load next;
      if negb (om_len nb =? 0) then mret next
      else
        upd cur (set_om_next (om_next nb));;
        os_mbuf_free next;;
        cb ← load cur;
        if om_next cb =? 0 then mret 0 else pack_free_loop fuel cur (om_next cb)
  end.

(** [while (rem_len && next)]: data of the following buffers is moved to [cur]. *)
Fixpoint pack_copy_loop (fuel : nat) (cur next rem_len : Z) : M Z :=
  match fuel with
  | O => lift Timeout
  | S fuel =>
      if (rem_len =? 0) || (next =? 0) then mret next
      else
        nb ← load next;
        let copylen := u16 (Z.min rem_len (om_len nb)) in
        bs ← mread next (om_data nb) copylen;
        cb ← load cur;
        mwrite cur (om_data cb + om_len cb) bs;;
        upd cur (fun b => set_om_len (u16 (om_len b + copylen)) b);;
        upd next (fun b => set_om_data (om_data b + copylen) b);;
        upd next (fun b => set_om_len (u16 (om_len b - copylen)) b);;
        next ← with_fuel (fun n => pack_free_loop n cur next);
        pack_copy_loop fuel cur next (u16 (rem_len - copylen))
  end.

Fixpoint pack_loop (fuel : nat) (cur : Z) : M unit :=
  match fuel with
  | O => lift Timeout
  | S fuel =>
      leading ← OS_MBUF_LEADINGSPACE cur;
      (if negb (leading =? 0) then
         b ← load cur;
         let dptr := cur + MBUF_SIZE + (if OS_MBUF_IS_PKTHDR b then om_pkthdr_len b else 0) in
         bs ← mread cur (om_data b) (om_len b);
         mwrite cur dptr bs;;
         upd cur (set_om_data dptr)
       else mret tt);;
      b ← load cur;
      rem_len ← OS_MBUF_TRAILINGSPACE cur;
      next ← with_fuel (fun n => pack_copy_loop n cur (om_next b) rem_len);
      if next =? 0 then mret tt else pack_loop fuel next
  end.

Definition os_mbuf_pack_chains (m1 m2 : Z) : M Z :=
  if m1 =? 0 then mret 0
  else
    (if negb (m2 =? 0) then os_mbuf_concat m1 m2 else mret tt);;
    with_fuel (fun n => pack_loop n m1);;
    mret m1.

(** ** Copying a packet out *)

(** What is copied to the flat buffer, the return code, and the length that is reported,
    if any. *)
Definition ble_hs_mbuf_to_flat (om max_len : Z) : M (list Z * Z * option Z) :=
  v ← pktlen om;
  let copy_len := if v <=? max_len then v else max_len in
  '(bs, rc) ← os_mbuf_copydata om 0 copy_len;
  if negb (rc =? 0) then mret (bs, BLE_HS_EUNKNOWN, None)
  else mret (bs, if max_len <? copy_len then BLE_HS_EMSGSIZE else 0, Some copy_len).

(** ** The registry of pools *)

(** [g_msys_pool_list], as the list of the pools in it. *)
Definition msys := list Z.

(** A pool goes behind the first one that has smaller buffers, or to the end. *)
Fixpoint os_msys_register (len : Z -> Z) (l : msys) (new_pool : Z) : msys :=
  match l with
  | [] => [new_pool]
  | pool :: l =>
      if len pool <? len new_pool then pool :: new_pool :: l
      else pool :: os_msys_register len l new_pool
  end.

Definition os_msys_reset : msys := [].

Definition _os_msys_find_pool (len : Z -> Z) (l : msys) (dsize : Z) : Z :=
  match list_find (fun pool => dsize <= len pool) l with
  | Some (_, pool) => pool
  | None => default 0 (last l)
  end.

Definition databuf_len (s : mheap) (pool : Z) : Z :=
  match pools s !! pool with Some p => omp_databuf_len p | None => 0 end.

Definition os_msys_get (l : msys) (dsize leadingspace : Z) : M Z := fun s =>
  let pool := _os_msys_find_pool (databuf_len s) l dsize in
  if pool =? 0 then Ok (0, s) else os_mbuf_get pool leadingspace s.

Definition os_msys_get_pkthdr (l : msys) (dsize user_hdr_len : Z) : M Z := fun s =>
  let total_pkthdr_len := u16 (user_hdr_len + PKTHDR_SIZE) in
  let pool := _os_msys_find_pool (databuf_len s) l (u16 (dsize + total_pkthdr_len)) in
  if pool =? 0 then Ok (0, s) else os_mbuf_get_pkthdr pool (u8 user_hdr_len) s.

(** The loops that add up a field of all pools. *)
Fixpoint msys_total (field : os_mempool -> Z) (l : msys) (total : Z) : M Z :=
  match l with
  | [] => mret total
  | omp :: l => p ← load_pool omp; msys_total field l (total + field (omp_pool p))
  end.

Definition os_msys_count (l : msys) : M Z := msys_total mp_num_blocks l 0.

Definition os_msys_num_free (l : msys) : M Z := msys_total mp_num_free l 0.
End Edit.
