(* ===== verification/MbufLogic.v ===== *)
(** * Reasoning about buffer chains

    Weakest preconditions of computations on the memory, with total correctness, and the
    assertion [own]: which blocks are in use, with their contents, all others being in the
    free lists of their pools. A list of blocks stands for a part of the memory, [++] for
    the disjoint union of two parts. *)
From stdpp Require Import base tactics numbers list gmap.
From Stdlib Require Import ZArith Lia.
From S2P Require Import Prelude Mempool MbufHeap.
Local Open Scope Z_scope.

(** ** Weakest preconditions *)
Definition wp {A} (c : M A) (Q : A -> mheap -> Prop) (s : mheap) : Prop :=
  exists v s', c s = Ok (v, s') /\ Q v s'.

Lemma wp_ret {A} (v : A) Q s : Q v s -> wp (mret v) Q s.
Proof. intros H. exists v, s. auto. Qed.

Lemma wp_bind {A B} (c : M A) (k : A -> M B) Q s : wp c (fun v => wp (k v) Q) s -> wp (c ≫= k) Q s.
Proof.
  intros (v & s' & Hc & v2 & s2 & Hk & HQ). exists v2, s2. split; [|done].
  unfold mbind, M_bind. now rewrite Hc.
Qed.

Lemma wp_mono {A} (c : M A) (Q R : A -> mheap -> Prop) s :
  wp c Q s -> (forall v s', Q v s' -> R v s') -> wp c R s.
Proof. intros (v & s' & Hc & HQ) H. exists v, s'. auto. Qed.

Lemma wp_fuel {A} (k : nat -> M A) Q s : wp (k (S (size (mem s)))) Q s -> wp (with_fuel k) Q s.
Proof. done. Qed.

(** Two updates of a block in a row. *)
Lemma upd_upd a f g s : (upd a f;; upd a g) s = upd a (fun b => g (f b)) s.
Proof.
  unfold upd, load, store, mbind, M_bind. cbn. unfold get_block. destruct (Z.eqb_spec a 0); [done|].
  destruct (mem s !! a) as [b|] eqn:E; [|done]. cbn. rewrite E. cbn. rewrite lookup_insert_eq. cbn.
  now rewrite lookup_insert_eq, insert_insert_eq.
Qed.

Lemma wp_upd_upd {A} a f g (k : M A) Q s :
  wp (upd a (fun b => g (f b));; k) Q s -> wp (upd a f;; upd a g;; k) Q s.
Proof.
  intros (v & s' & E & HQ). exists v, s'. split; [|done]. rewrite <- E. pose proof (upd_upd a f g s) as H.
  unfold mbind, M_bind in *. rewrite <- H. now destruct (upd a f s) as [[]| |].
Qed.

(** ** Blocks *)
Abbreviation cell := (Z * os_mbuf)%type (only parsing).

(** The offset of the data in the buffer, the data, and what follows it. *)
Definition doff (c : cell) : Z := om_data c.2 - (c.1 + MBUF_SIZE).
Definition frag (c : cell) : list Z := slice (Z.to_nat (doff c)) (Z.to_nat (om_len c.2)) (om_databuf c.2).
Definition data (l : list cell) : list Z := concat (map frag l).

(** The chain from [p] on that ends with the link [q]. *)
Fixpoint seg (p : Z) (l : list cell) (q : Z) : Prop :=
  match l with
  | [] => p = q
  | c :: l => p = c.1 /\ seg (om_next c.2) l q
  end.

Lemma seg_app p l1 l2 q : seg p (l1 ++ l2) q <-> exists r, seg p l1 r /\ seg r l2 q.
Proof.
  revert p. induction l1 as [|c l1 IH]; intros p; cbn [seg app].
  - split; [intros H; exists p; auto|intros (r & -> & H); exact H].
  - rewrite IH. split; [intros (-> & r & H1 & H2); exists r; auto|intros (r & [-> H1] & H2); eauto].
Qed.

Lemma data_app l1 l2 : data (l1 ++ l2) = data l1 ++ data l2.
Proof. unfold data. now rewrite map_app, concat_app. Qed.

Lemma data_cons c l : data (c :: l) = frag c ++ data l.
Proof. done. Qed.

(** ** Parts of buffers *)
Lemma splice_length i bs buf : (i + length bs <= length buf)%nat -> length (splice i bs buf) = length buf.
Proof. intros H. unfold splice. rewrite !length_app, length_take, length_drop. lia. Qed.

Lemma slice_splice_before off n i bs buf :
  (off + n <= i)%nat -> (i <= length buf)%nat -> slice off n (splice i bs buf) = slice off n buf.
Proof.
  intros H1 H2. unfold splice. rewrite slice_app_l by (rewrite length_take; lia).
  unfold slice. rewrite skipn_firstn_comm, take_take. f_equal. lia.
Qed.

Lemma slice_splice_after off n i bs buf :
  (i + length bs <= off)%nat -> (i + length bs <= length buf)%nat -> slice off n (splice i bs buf) = slice off n buf.
Proof.
  intros H1 H2. unfold splice. rewrite slice_app_r by (rewrite length_take; lia).
  rewrite slice_app_r; rewrite length_take; [|lia]. unfold slice. rewrite drop_drop. do 2 f_equal. lia.
Qed.

Lemma slice_splice_same i bs buf n :
  (i <= length buf)%nat -> n = length bs -> slice i n (splice i bs buf) = bs.
Proof.
  intros H ->. unfold splice, slice. rewrite drop_app_ge by (rewrite length_take; lia).
  rewrite length_take. replace (i - _)%nat with 0%nat by lia. rewrite drop_0. apply take_app_length.
Qed.

Lemma slice_add off n k (l : list Z) : slice off (n + k) l = slice off n l ++ slice (off + n) k l.
Proof.
  unfold slice. rewrite <- drop_drop. rewrite <- (take_drop n (take (n + k) (drop off l))).
  rewrite take_take, skipn_firstn_comm. f_equal; f_equal; lia.
Qed.

Lemma slice_slice off n i k (l : list Z) :
  (i + k <= n)%nat -> slice i k (slice off n l) = slice (off + i) k l.
Proof.
  intros H. unfold slice. rewrite <- (drop_drop l i off), skipn_firstn_comm, take_take. f_equal. lia.
Qed.

(** ** Ownership *)
Section Own.
  Context {CF : MempoolConf}.

  (** The pools: the length of their buffers and their blocks. *)
  Context (geo : gmap Z (Z * list Z)).

(** Blocks belong to one pool, and buffers are as long as 16-bit lengths allow. *)
Definition geo_wf : Prop :=
  (forall i n bl, geo !! i = Some (n, bl) -> 0 < i /\ 0 <= n < 2 ^ 16) /\
  (forall i j n1 bl1 n2 bl2 a, geo !! i = Some (n1, bl1) -> geo !! j = Some (n2, bl2) ->
     a ∈ bl1 -> a ∈ bl2 -> i = j).

(** A block in use: its data lies in its buffer, behind the packet header if it has one. *)
Record cell_wf (c : cell) : Prop := CellWf {
  cw_pool : exists n bl, geo !! om_omp c.2 = Some (n, bl) /\ c.1 ∈ bl /\ 0 < c.1 /\
    Z.of_nat (length (om_databuf c.2)) = n /\ doff c + om_len c.2 <= n;
  cw_len : 0 <= om_len c.2;
  cw_hdr : 0 <= om_pkthdr_len c.2 <= doff c;
  cw_hdr_len : om_pkthdr_len c.2 = 0 \/ PKTHDR_SIZE <= om_pkthdr_len c.2 <= 255;
}.

(** The pool with the free blocks [l]. *)
Definition pool_own (s : mheap) (p : os_mbuf_pool) (n : Z) (bl l : list Z) : Prop :=
  omp_databuf_len p = n /\ pool_blocks (omp_pool p) = bl /\ no_cb (omp_pool p) /\
  pool_rep (mem s) (omp_pool p) l /\
  Forall (fun a => exists b, mem s !! a = Some b /\ Z.of_nat (length (om_databuf b)) = n) l.

Record owns (s : mheap) (fl : Z -> list Z) (L : list cell) : Prop := Owns {
  ow_nodup : NoDup L.*1;
  ow_mem : forall c, c ∈ L -> mem s !! c.1 = Some c.2;
  ow_wf : forall c, c ∈ L -> cell_wf c;
  ow_known : forall i, is_Some (pools s !! i) -> is_Some (geo !! i);
  ow_pool : forall i n bl, geo !! i = Some (n, bl) ->
    exists p, pools s !! i = Some p /\ pool_own s p n bl (fl i);
  ow_free : forall i n bl a, geo !! i = Some (n, bl) -> a ∈ bl -> a ∈ fl i <-> a ∉ L.*1;
}.

Definition own (s : mheap) (L : list cell) : Prop := geo_wf /\ exists fl, owns s fl L.

#[export] Instance owns_proper s fl : Proper ((≡ₚ) ==> iff) (owns s fl).
Proof.
  assert (H : forall L L', L ≡ₚ L' -> owns s fl L -> owns s fl L').
  { intros L L' HL [H1 H2 H3 H4 H5 H6]. constructor; auto.
    - now rewrite <- HL.
    - intros c Hc. apply H2. now rewrite HL.
    - intros c Hc. apply H3. now rewrite HL.
    - intros i n bl a Hi Ha. now rewrite (H6 i n bl a), HL. }
  intros L L' HL. split; apply H; done.
Qed.

#[export] Instance own_proper s : Proper ((≡ₚ) ==> iff) (own s).
Proof. intros L L' HL. unfold own. now setoid_rewrite HL. Qed.

(** The number of free blocks of a pool. *)
Definition nfree (s : mheap) (i : Z) : Z :=
  match pools s !! i with Some p => mp_num_free (omp_pool p) | None => 0 end.

Lemma own_wf s L c : own s L -> c ∈ L -> cell_wf c.
Proof. intros [_ [fl H]]. apply H. Qed.

Lemma own_pos s L c : own s L -> c ∈ L -> 0 < c.1.
Proof. intros H Hc. destruct (own_wf _ _ _ H Hc) as [(n & bl & _ & _ & Hp & _) _ _ _]. done. Qed.

Lemma own_length s L : own s L -> (length L <= size (mem s))%nat.
Proof.
  intros [_ [fl H]]. rewrite <- (length_fmap fst).
  rewrite <- (size_list_to_set (C := gset Z) (L.*1)) by apply H. rewrite <- size_dom.
  apply subseteq_size. intros a Ha%elem_of_list_to_set. apply list_elem_of_fmap in Ha as (c & -> & Hc).
  apply elem_of_dom. rewrite (ow_mem _ _ _ H c Hc). eauto.
Qed.

(** ** Reading and writing blocks *)
Lemma own_load s L a b : own s L -> (a, b) ∈ L -> load a s = Ok (b, s).
Proof.
  intros H Hc. pose proof (own_pos _ _ _ H Hc). destruct H as [_ [fl H]]. unfold load.
  rewrite (get_block_ok _ _ b); [done|cbn in *; lia|now apply (ow_mem _ _ _ H (a, b))].
Qed.

Lemma wp_load s L a b Q : own s L -> (a, b) ∈ L -> Q b s -> wp (load a) Q s.
Proof. intros H Hc HQ. exists b, s. split; [exact (own_load s L a b H Hc)|done]. Qed.

Lemma owns_update s fl a b b' L :
  owns s fl ((a, b) :: L) -> cell_wf (a, b') ->
  owns (MHeap (<[a := b']> (mem s)) (pools s)) fl ((a, b') :: L).
Proof.
  intros [H1 H2 H3 H4 H5 H6] Hb. cbn [fmap list_fmap fst] in H1, H6. apply NoDup_cons in H1 as [Hn H1].
  assert (Hnl : forall c, c ∈ L -> c.1 <> a).
  { intros c Hc E. apply Hn. rewrite <- E. now apply list_elem_of_fmap_2. }
  assert (Hfl : forall i n bl x, geo !! i = Some (n, bl) -> x ∈ fl i -> x <> a).
  { intros i n bl x Hi Hx ->. destruct (H5 i n bl Hi) as (p & _ & _ & Hbl & _ & Hr & _).
    apply (H6 i n bl a Hi); [rewrite <- Hbl; now apply (pr_blocks _ _ _ Hr)|done|left]. }
  constructor; cbn [mem pools fmap list_fmap fst]; auto.
  - now constructor.
  - intros c [-> |Hc]%elem_of_cons; [apply lookup_insert_eq|].
    rewrite lookup_insert_ne; [apply H2; now right|]. intros E. now apply (Hnl c).
  - intros c [-> |Hc]%elem_of_cons; [done|apply H3; now right].
  - intros i n bl Hi. destruct (H5 i n bl Hi) as (p & Hp & Hn' & Hbl & Hcb & Hr & Hf). exists p. split; [done|].
    split; [done|]. split; [done|]. split; [done|]. split.
    + destruct Hr. constructor; auto. apply flist_insert; [|done]. intros Hx. now apply (Hfl i n bl a).
    + eapply Forall_impl; [apply Forall_and; split; [exact Hf|apply Forall_forall; intros x Hx; exact (Hfl i n bl x Hi Hx)]|].
      cbn. intros x [Hx Hne]. cbn [mem]. now rewrite lookup_insert_ne.
Qed.

Lemma wp_store s L1 L2 a b b' Q :
  own s (L1 ++ (a, b) :: L2) -> cell_wf (a, b') ->
  (forall s', own s' (L1 ++ (a, b') :: L2) -> pools s' = pools s -> Q tt s') -> wp (store a b') Q s.
Proof.
  intros H Hb HQ. pose proof (own_load s _ a b H ltac:(set_solver)) as Hl. unfold load in Hl.
  destruct H as [Hg [fl H]]. rewrite <- Permutation_middle in H. apply owns_update with (b' := b') in H; [|done].
  eexists tt, _. split; [unfold store; destruct (get_block _ _); [reflexivity|done..]|].
  apply HQ; [|done]. split; [done|]. exists fl. now rewrite <- Permutation_middle.
Qed.

Lemma wp_upd s L1 L2 a b f Q :
  own s (L1 ++ (a, b) :: L2) -> cell_wf (a, f b) ->
  (forall s', own s' (L1 ++ (a, f b) :: L2) -> pools s' = pools s -> Q tt s') -> wp (upd a f) Q s.
Proof.
  intros H Hb HQ. apply wp_bind. apply (wp_load s (L1 ++ (a, b) :: L2) a b); [exact H|set_solver|]. now apply (wp_store s L1 L2 a b).
Qed.

(** ** Data in buffers *)
Lemma length_frag c : cell_wf c -> Z.of_nat (length (frag c)) = om_len c.2.
Proof.
  intros [(n & bl & _ & _ & _ & Hn & Hd) Hl Hh _]. unfold frag. rewrite length_slice; [lia|]. lia.
Qed.

Lemma wp_mread s L a b p n Q :
  own s L -> (a, b) ∈ L -> 0 <= n -> 0 <= p - (a + MBUF_SIZE) ->
  p - (a + MBUF_SIZE) + n <= Z.of_nat (length (om_databuf b)) ->
  Q (slice (Z.to_nat (p - (a + MBUF_SIZE))) (Z.to_nat n) (om_databuf b)) s -> wp (mread a p n) Q s.
Proof.
  intros H Hc Hn Hp Hl HQ. apply wp_bind, (wp_load s L a b); [done..|].
  cbv zeta. destruct (Z.leb_spec 0 n); [|lia]. destruct (Z.leb_spec 0 (p - (a + MBUF_SIZE))); [|lia].
  destruct (Z.leb_spec (p - (a + MBUF_SIZE) + n) (Z.of_nat (length (om_databuf b)))); [|lia]. now apply wp_ret.
Qed.

Lemma wp_mread_frag s L a b off n Q :
  own s L -> (a, b) ∈ L -> 0 <= n -> 0 <= off -> off + n <= om_len b ->
  Q (slice (Z.to_nat off) (Z.to_nat n) (frag (a, b))) s -> wp (mread a (om_data b + off) n) Q s.
Proof.
  intros H Hc Hn Ho Hl HQ. destruct (own_wf _ _ _ H Hc) as [(n0 & bl & _ & _ & _ & Hn0 & Hd) Hlen Hh _].
  cbn [fst snd] in *. unfold doff in *. cbn [fst snd] in *. apply (wp_mread s L a b); try done; [lia..|].
  unfold frag, doff in HQ. cbn [fst snd] in HQ. rewrite slice_slice in HQ by lia.
  replace (Z.to_nat (om_data b + off - (a + MBUF_SIZE))) with
    (Z.to_nat (om_data b - (a + MBUF_SIZE)) + Z.to_nat off)%nat by lia. done.
Qed.

(** A write to the buffer of a block. *)
Definition wr (a : Z) (p : Z) (bs : list Z) (b : os_mbuf) : os_mbuf :=
  set_om_databuf (splice (Z.to_nat (p - (a + MBUF_SIZE))) bs (om_databuf b)) b.

Lemma cell_wf_wr a b p bs :
  cell_wf (a, b) -> 0 <= p - (a + MBUF_SIZE) ->
  p - (a + MBUF_SIZE) + Z.of_nat (length bs) <= Z.of_nat (length (om_databuf b)) -> cell_wf (a, wr a p bs b).
Proof.
  intros [(n & bl & Hg & Hb & Ha & Hn & Hd) Hl Hh Hhl] Hp Hle. constructor; try done. cbn [fst snd] in *.
  exists n, bl. split; [done|]. split; [done|]. split; [done|]. split; [|done].
  cbn [wr set_om_databuf om_databuf]. rewrite splice_length; lia.
Qed.

Lemma wp_mwrite s L1 L2 a b p bs Q :
  own s (L1 ++ (a, b) :: L2) -> 0 <= p - (a + MBUF_SIZE) ->
  p - (a + MBUF_SIZE) + Z.of_nat (length bs) <= Z.of_nat (length (om_databuf b)) ->
  (forall s', own s' (L1 ++ (a, wr a p bs b) :: L2) -> pools s' = pools s -> Q tt s') -> wp (mwrite a p bs) Q s.
Proof.
  intros H Hp Hl HQ. apply wp_bind, (wp_load s (L1 ++ (a, b) :: L2) a b); [exact H|set_solver|].
  cbv zeta. destruct (Z.leb_spec 0 (p - (a + MBUF_SIZE))); [|lia].
  destruct (Z.leb_spec (p - (a + MBUF_SIZE) + Z.of_nat (length bs)) (Z.of_nat (length (om_databuf b)))); [|lia].
  apply (wp_store s L1 L2 a b); [done| |done]. apply (cell_wf_wr a b); [|done..].
  apply (own_wf s _ _ H). set_solver.
Qed.

(** ** Allocation *)
Lemma own_pool s L i n bl :
  own s L -> geo !! i = Some (n, bl) ->
  exists p, pools s !! i = Some p /\ omp_databuf_len p = n /\ 0 < i /\ 0 <= n < 2 ^ 16.
Proof.
  intros [[Hg _] [fl H]] Hi. destruct (ow_pool _ _ _ H i n bl Hi) as (p & Hp & Hn & _).
  destruct (Hg i n bl Hi). eauto.
Qed.

Lemma wp_load_pool s L i n bl Q :
  own s L -> geo !! i = Some (n, bl) ->
  (forall p, omp_databuf_len p = n -> 0 <= n < 2 ^ 16 -> Q p s) -> wp (load_pool i) Q s.
Proof.
  intros H Hi HQ. destruct (own_pool _ _ _ _ _ H Hi) as (p & Hp & Hn & Hpos & Hr). exists p, s.
  unfold load_pool. destruct (Z.eqb_spec i 0); [lia|]. rewrite Hp. auto.
Qed.

(** The block that [os_mbuf_get] returns. *)
Definition fresh (a leading omp : Z) (db : list Z) : os_mbuf :=
  OsMbuf (a + MBUF_SIZE + leading) 0 0 0 omp 0 db.

Lemma owns_get s fl L i n bl p a l b leading mp :
  geo_wf -> owns s fl L -> geo !! i = Some (n, bl) -> pools s !! i = Some p -> fl i = a :: l ->
  mem s !! a = Some b -> Z.of_nat (length (om_databuf b)) = n -> 0 <= leading <= n ->
  pool_rep (mem s) mp l -> pool_blocks mp = pool_blocks (omp_pool p) -> no_cb mp ->
  owns (MHeap (<[a := fresh a leading i (om_databuf b)]> (mem s)) (<[i := OsMbufPool n mp]> (pools s)))
    (fun j => if decide (j = i) then l else fl j) ((a, fresh a leading i (om_databuf b)) :: L).
Proof.
  intros Hgw H Hi Hp Hf Hb Hn Hld Hr Hbl Hcb.
  destruct (ow_pool _ _ _ H i n bl Hi) as (p' & Hp' & Hn' & Hbl' & _ & Hr' & Hfree).
  rewrite Hp in Hp'. injection Hp' as <-. rewrite Hf in Hr', Hfree.
  assert (Ha : a ∈ bl) by (rewrite <- Hbl'; apply (pr_blocks _ _ _ Hr'); left).
  assert (HaL : a ∉ L.*1) by (apply (ow_free _ _ _ H i n bl a Hi Ha); rewrite Hf; left).
  pose proof (pool_rep_bound _ _ _ a Hr' ltac:(now rewrite Hbl')) as Hpos.
  assert (Hnd : a ∉ l) by (pose proof (pr_nodup _ _ _ Hr') as Hnd; now apply NoDup_cons in Hnd as [? _]).
  assert (Hother : forall j n' bl', geo !! j = Some (n', bl') -> j <> i -> a ∉ fl j).
  { intros j n' bl' Hj Hne Hin. destruct (ow_pool _ _ _ H j n' bl' Hj) as (q & _ & _ & Hq & _ & Hrq & _).
    apply Hne. apply (proj2 Hgw j i n' bl' n bl a); auto. rewrite <- Hq. now apply (pr_blocks _ _ _ Hrq). }
  constructor; cbn [mem pools fmap list_fmap fst].
  - constructor; [done|apply H].
  - intros c [-> |Hc]%elem_of_cons; [apply lookup_insert_eq|]. rewrite lookup_insert_ne; [now apply H|].
    intros E. apply HaL. rewrite E. now apply list_elem_of_fmap_2.
  - intros c [-> |Hc]%elem_of_cons; [|now apply H]. constructor; cbn; unfold doff; cbn; try lia.
    exists n, bl. split; [done|]. split; [done|]. split; [lia|]. split; [done|lia].
  - intros j. rewrite lookup_insert_is_Some. intros [<- |[_ Hj]]; [eauto|now apply H].
  - intros j n' bl' Hj. destruct (decide (j = i)) as [-> |Hne].
    + rewrite Hi in Hj. injection Hj as <- <-. eexists. rewrite lookup_insert_eq. split; [done|].
      split; [done|]. cbn [omp_pool]. split; [congruence|]. split; [done|]. split.
      * destruct Hr. constructor; auto. now apply flist_insert.
      * apply Forall_cons in Hfree as [_ Hfree]. apply Forall_forall. intros x Hx.
        rewrite Forall_forall in Hfree. cbn [mem]. rewrite lookup_insert_ne by (now intros ->). now apply Hfree.
    + destruct (ow_pool _ _ _ H j n' bl' Hj) as (q & Hq & Hq1 & Hq2 & Hq3 & Hq4 & Hq5). exists q.
      rewrite lookup_insert_ne by done. split; [done|]. split; [done|]. split; [done|]. split; [done|]. split.
      * destruct Hq4. constructor; auto. apply flist_insert; eauto.
      * apply Forall_forall. intros x Hx. rewrite Forall_forall in Hq5. cbn [mem].
        rewrite lookup_insert_ne; [now apply Hq5|]. intros <-. now apply (Hother j n' bl').
  - intros j n' bl' x Hj Hx. pose proof (ow_free _ _ _ H j n' bl' x Hj Hx) as Hfx.
    rewrite not_elem_of_cons. destruct (decide (j = i)) as [-> |Hne].
    + rewrite Hf, elem_of_cons in Hfx. split.
      * intros Hl. split; [now intros -> |]. apply Hfx. now right.
      * intros [Hxa HxL]. apply Hfx in HxL as [? |?]; done.
    + rewrite Hfx. split; [|tauto]. intros HxL. split; [|done]. intros ->. now apply (Hother j n' bl'), Hfx.
Qed.

Lemma wp_get s L i n bl leading Q :
  own s L -> geo !! i = Some (n, bl) -> 0 <= leading ->
  (forall a db s', leading <= n -> 0 < nfree s i -> own s' ((a, fresh a leading i db) :: L) ->
     Z.of_nat (length db) = n -> Q a s') ->
  (n < leading \/ nfree s i = 0 -> Q 0 s) -> wp (os_mbuf_get i leading) Q s.
Proof.
  intros H Hi Hld Hok Hno. destruct (own_pool _ _ _ _ _ H Hi) as (p & Hp & Hn & Hpos & Hr).
  assert (Hlp : load_pool i s = Ok (p, s)).
  { unfold load_pool. destruct (Z.eqb_spec i 0); [lia|]. now rewrite Hp. }
  apply wp_bind. exists p, s. split; [done|]. rewrite Hn.
  destruct (Z.ltb_spec n leading); [apply wp_ret, Hno; auto|].
  destruct H as [Hgw [fl H]]. destruct (ow_pool _ _ _ H i n bl Hi) as (p' & Hp' & Hn' & Hbl & Hcb & Hrep & Hfree).
  rewrite Hp in Hp'. injection Hp' as <-. apply wp_bind.
  pose proof (memblock_get_spec _ _ _ Hrep) as Hget. pose proof (pr_free _ _ _ Hrep) as Hnf.
  destruct (fl i) as [|a l] eqn:Ef.
  - exists 0, s. split.
    + unfold pool_get. rewrite Hlp. cbn [mbind res_bind]. rewrite Hget. cbn [mbind res_bind].
      destruct s as [m ps], p as [k mp]. cbn in *. now rewrite insert_id.
    + apply wp_ret, Hno. right. unfold nfree. rewrite Hp, Hnf. done.
  - destruct Hget as (mp & Hget & Hrep' & Hbl' & Hcb'). apply Forall_cons in Hfree as [(b & Hb & Hlen) _].
    pose proof (pool_rep_bound _ _ _ a Hrep ltac:(apply (pr_blocks _ _ _ Hrep); left)) as Hab.
    exists a, (MHeap (mem s) (<[i := OsMbufPool (omp_databuf_len p) mp]> (pools s))). split.
    + unfold pool_get. rewrite Hlp. cbn [mbind res_bind]. now rewrite Hget.
    + destruct (Z.eqb_spec a 0); [lia|]. rewrite Hn.
      pose proof (owns_get s fl L i n bl p a l b leading mp Hgw H Hi Hp Ef Hb Hlen ltac:(lia) Hrep' Hbl' (Hcb' Hcb)) as Ho.
      apply wp_bind. exists tt, (MHeap (<[a := fresh a leading i (om_databuf b)]> (mem s)) (<[i := OsMbufPool n mp]> (pools s))).
      split.
      * unfold upd, load, store, mbind, M_bind. cbn [mem pools]. rewrite (get_block_ok _ _ b) by (done || lia).
        cbn [res_bind mbind]. now rewrite (get_block_ok _ _ b) by (done || lia).
      * apply wp_ret, (Hok _ (om_databuf b)); auto; [|split; [done|eauto]].
        unfold nfree. rewrite Hp, Hnf. cbn [length]. lia.
Qed.

Lemma owns_free s fl L i n bl p a b l mp v :
  geo_wf -> owns s fl ((a, b) :: L) -> geo !! i = Some (n, bl) -> pools s !! i = Some p -> fl i = l ->
  om_omp b = i -> pool_rep (<[a := set_om_data v b]> (mem s)) mp (a :: l) ->
  pool_blocks mp = pool_blocks (omp_pool p) -> no_cb mp ->
  owns (MHeap (<[a := set_om_data v b]> (mem s)) (<[i := OsMbufPool n mp]> (pools s)))
    (fun j => if decide (j = i) then a :: l else fl j) L.
Proof.
  intros Hgw H Hi Hp Hf Hob Hr Hbl Hcb.
  destruct (ow_pool _ _ _ H i n bl Hi) as (p' & Hp' & Hn' & Hbl' & _ & Hr' & Hfree).
  rewrite Hp in Hp'. injection Hp' as <-. pose proof (ow_nodup _ _ _ H) as Hnd. cbn in Hnd.
  apply NoDup_cons in Hnd as [HaL Hnd].
  destruct (ow_wf _ _ _ H (a, b) ltac:(left)) as [(n1 & bl1 & Hg1 & Ha1 & Hpos & Hlen & _) _ _ _].
  cbn [fst snd] in *. rewrite Hob, Hi in Hg1. injection Hg1 as <- <-.
  assert (Hother : forall j n' bl', geo !! j = Some (n', bl') -> a ∉ fl j).
  { intros j n' bl' Hj Hin. destruct (ow_pool _ _ _ H j n' bl' Hj) as (q & _ & _ & Hq & _ & Hrq & _).
    apply (ow_free _ _ _ H j n' bl' a Hj); [rewrite <- Hq; now apply (pr_blocks _ _ _ Hrq)|done|left]. }
  constructor; cbn [mem pools fmap list_fmap fst].
  - done.
  - intros c Hc. rewrite lookup_insert_ne; [apply H; now right|].
    intros E. apply HaL. rewrite E. now apply list_elem_of_fmap_2.
  - intros c Hc. apply H. now right.
  - intros j. rewrite lookup_insert_is_Some. intros [<- |[_ Hj]]; [eauto|now apply H].
  - intros j n' bl' Hj. destruct (decide (j = i)) as [-> |Hne].
    + rewrite Hi in Hj. injection Hj as <- <-. eexists. rewrite lookup_insert_eq. split; [done|].
      split; [done|]. cbn [omp_pool]. split; [congruence|]. split; [done|]. split; [done|].
      constructor.
      * eexists. cbn [mem]. rewrite lookup_insert_eq. split; [done|]. done.
      * subst l. apply Forall_forall. intros x Hx. rewrite Forall_forall in Hfree. cbn [mem].
        rewrite lookup_insert_ne; [now apply Hfree|]. intros <-. now apply (Hother i n bl).
    + destruct (ow_pool _ _ _ H j n' bl' Hj) as (q & Hq & Hq1 & Hq2 & Hq3 & Hq4 & Hq5). exists q.
      rewrite lookup_insert_ne by done. split; [done|]. split; [done|]. split; [done|]. split; [done|]. split.
      * destruct Hq4. constructor; auto. apply flist_insert; eauto.
      * apply Forall_forall. intros x Hx. rewrite Forall_forall in Hq5. cbn [mem].
        rewrite lookup_insert_ne; [now apply Hq5|]. intros <-. now apply (Hother j n' bl').
  - intros j n' bl' x Hj Hx. pose proof (ow_free _ _ _ H j n' bl' x Hj Hx) as Hfx.
    cbn in Hfx. rewrite not_elem_of_cons in Hfx. destruct (decide (j = i)) as [-> |Hne].
    + rewrite elem_of_cons. subst l. rewrite Hfx. destruct (decide (x = a)) as [-> |]; tauto.
    + rewrite Hfx. split; [tauto|]. intros HxL. split; [|done]. intros ->. apply Hne.
      now apply (proj2 Hgw j i n' bl' n bl a).
Qed.

Lemma wp_free s L a b Q :
  own s ((a, b) :: L) ->
  (forall s', own s' L -> Q 0 s') -> wp (os_mbuf_free a) Q s.
Proof.
  intros H HQ. pose proof (own_wf _ _ (a, b) H ltac:(left)) as [(n & bl & Hi & Ha & Hpos & Hlen & _) _ _ _].
  cbn [fst snd] in *. destruct (own_pool _ _ _ _ _ H Hi) as (p & Hp & Hn & Hip & _).
  apply wp_bind, (wp_load s ((a, b) :: L) a b); [done|left|]. destruct (Z.eqb_spec (om_omp b) 0); [lia|].
  destruct H as [Hgw [fl H]]. destruct (ow_pool _ _ _ H _ n bl Hi) as (p' & Hp' & _ & Hbl & Hcb & Hrep & _).
  rewrite Hp in Hp'. injection Hp' as <-.
  pose proof (ow_mem _ _ _ H (a, b) ltac:(left)) as Hma. cbn [fst snd] in Hma.
  destruct (memblock_put_spec OS_MEMPOOL_CHECK put_cb (mem s) (omp_pool p) (fl (om_omp b)) a)
    as (m' & mp & b' & Hput & Hb' & -> & Hrep' & Hbl' & Hcb'); auto.
  { now rewrite Hbl. }
  { intros Hin. apply (ow_free _ _ _ H _ n bl a Hi Ha); [done|left]. }
  rewrite Hma in Hb'. injection Hb' as <-.
  eexists 0, _. split.
  { unfold pool_put, load_pool. destruct (Z.eqb_spec (om_omp b) 0); [lia|]. rewrite Hp. cbn [of_option mbind res_bind].
    rewrite Hput. cbn [mbind res_bind]. reflexivity. }
  rewrite Hn. apply HQ. split; [done|]. eexists. now eapply (owns_free s fl L _ n bl p a b _ mp).
Qed.

(** ** Every block is free or in use *)
Definition cnt (i : Z) (L : list cell) : nat := length (filter (fun c => om_omp c.2 = i) L).

Lemma NoDup_fst_filter (P : cell -> Prop) `{!forall c, Decision (P c)} (L : list cell) :
  NoDup L.*1 -> NoDup (filter P L).*1.
Proof.
  induction L as [|c L IH]; [done|]. rewrite fmap_cons. intros [Hc HL]%NoDup_cons. destruct (decide (P c)).
  - rewrite filter_cons_True by done. rewrite fmap_cons. constructor; [|auto].
    intros (c' & Ec & [_ Hc']%list_elem_of_filter)%list_elem_of_fmap. apply Hc. rewrite Ec.
    now apply list_elem_of_fmap_2.
  - rewrite filter_cons_False by done. auto.
Qed.

Lemma own_count s L i n bl :
  own s L -> geo !! i = Some (n, bl) -> nfree s i + Z.of_nat (cnt i L) = Z.of_nat (length bl).
Proof.
  intros [[Hg Hdis] [fl H]] Hi. destruct (ow_pool _ _ _ H i n bl Hi) as (p & Hp & _ & Hbl & _ & Hr & _).
  unfold nfree, cnt. rewrite Hp, (pr_free _ _ _ Hr), <- (length_fmap fst (filter _ L)).
  rewrite <- Nat2Z.inj_add, <- length_app. f_equal. apply Permutation_length. apply NoDup_Permutation.
  - apply NoDup_app. split; [apply Hr|]. split.
    + intros a Ha. pose proof (pr_blocks _ _ _ Hr a Ha) as Hab. rewrite Hbl in Hab.
      apply (ow_free _ _ _ H i n bl a Hi Hab) in Ha. intros (c & -> & Hc)%list_elem_of_fmap.
      apply Ha. apply list_elem_of_fmap_2. now apply list_elem_of_filter in Hc.
    + apply NoDup_fst_filter, H.
  - rewrite <- Hbl. apply block_addrs_NoDup. destruct (true_block_size_bound _ (pg_size _ (pr_geom _ _ _ Hr))).
    pose proof (pg_size _ (pr_geom _ _ _ Hr)). lia.
  - intros a. rewrite elem_of_app. split.
    + intros [Ha|(c & -> & [Hc HcL]%list_elem_of_filter)%list_elem_of_fmap].
      * rewrite <- Hbl. now apply (pr_blocks _ _ _ Hr).
      * destruct (ow_wf _ _ _ H c HcL) as [(n' & bl' & Hi' & Hc' & _) _ _ _]. congruence.
    + intros Ha. pose proof (ow_free _ _ _ H i n bl a Hi Ha) as Hf.
      destruct (decide (a ∈ L.*1)) as [HaL|HaL]; [right|left; now apply Hf].
      apply list_elem_of_fmap in HaL as (c & -> & Hc). apply list_elem_of_fmap_2, list_elem_of_filter.
      split; [|done]. destruct (ow_wf _ _ _ H c Hc) as [(n' & bl' & Hi' & Hc' & _) _ _ _].
      now apply (Hdis _ _ n' bl' n bl c.1).
Qed.

Lemma own_perm s L L' : own s L -> L ≡ₚ L' -> own s L'.
Proof. intros H E. now rewrite <- E. Qed.

Lemma own_nfree_size s L i n bl :
  own s L -> geo !! i = Some (n, bl) -> 0 <= nfree s i <= Z.of_nat (size (mem s)).
Proof.
  intros [_ [fl H]] Hi. destruct (ow_pool _ _ _ H i n bl Hi) as (p & Hp & _ & _ & _ & Hr & _).
  unfold nfree. rewrite Hp, (pr_free _ _ _ Hr).
  pose proof (flist_size _ _ _ (pr_list _ _ _ Hr) (pr_nodup _ _ _ Hr)). lia.
Qed.
End Own.

(** Another order of the same blocks. *)
Ltac perm := match goal with
  | H : own ?g ?s ?L |- own ?g ?s ?L' => apply (own_perm g s L L' H); clear; solve_Permutation
  end.
