(* ===== verification/MbufChain.v ===== *)
(** * Walks along buffer chains

    What the operations of [MbufHeap] that do not allocate do to an owned chain, and
    lemmas on the updates of single blocks: the data and the packet header of a block as
    functions of its contents. *)
From stdpp Require Import base tactics numbers list gmap.
From Stdlib Require Import ZArith Lia.
From S2P Require Import Prelude Mempool MbufHeap MbufLogic.
Local Open Scope Z_scope.

(** Membership in a list of blocks. *)
Ltac incell := repeat (rewrite elem_of_app || rewrite elem_of_cons); tauto.

(** The packet header of a block: its length field and the rest of it. *)
Definition pkt (c : cell) : option (Z * list Z) :=
  if OS_MBUF_IS_PKTHDR c.2
  then Some (u16 (le_val (take 2 (om_databuf c.2))), slice 2 (Z.to_nat (om_pkthdr_len c.2) - 2) (om_databuf c.2))
  else None.

Definition bump (d : Z) (h : option (Z * list Z)) : option (Z * list Z) :=
  match h with Some (n, r) => Some (u16 (n + d), r) | None => None end.

Lemma bump_0 h : (forall n r, h = Some (n, r) -> 0 <= n < 2 ^ 16) -> bump 0 h = h.
Proof. destruct h as [[n r]|]; [|done]. intros H. cbn. rewrite Z.add_0_r, u16_small; [done|now apply (H n r)]. Qed.

Lemma bump_bump x y h : bump x (bump y h) = bump (y + x) h.
Proof. destruct h as [[n r]|]; [|done]. cbn. do 2 f_equal. clia. Qed.

Lemma pkt_range c n r : pkt c = Some (n, r) -> 0 <= n < 2 ^ 16.
Proof. unfold pkt. destruct (OS_MBUF_IS_PKTHDR _); [|done]. intros [= <- _]. apply u16_range. Qed.

(** The header of a chain. *)
Definition phead (l : list cell) : option (Z * list Z) :=
  match l with c :: _ => pkt c | [] => None end.

Lemma phead_bump_0 l : bump 0 (phead l) = phead l.
Proof. apply bump_0. destruct l as [|c l]; [done|]. intros n r. apply pkt_range. Qed.

Section Chain.
  Context {CF : MempoolConf} (geo : gmap Z (Z * list Z)).
  Local Abbreviation own := (own geo) (only parsing).
  Local Abbreviation cell_wf := (cell_wf geo) (only parsing).

Lemma seg_nonzero s p l q L :
  own s L -> l ⊆ L -> seg p l q -> l <> [] -> p <> 0.
Proof.
  intros H Hl Hs Hn. destruct l as [|c l]; [done|]. destruct Hs as [-> _].
  pose proof (own_pos geo s L c H ltac:(apply Hl; left)). lia.
Qed.

Lemma om_len_bound c : geo_wf geo -> cell_wf c -> 0 <= om_len c.2 < 2 ^ 16.
Proof.
  intros [Hg _] [(n & bl & Hi & _ & _ & _ & Hd) Hl Hh _]. destruct (Hg _ _ _ Hi). lia.
Qed.

(** ** Updates of one block *)

(** A field other than the buffer is set. *)
Lemma frag_next a b v : frag (a, set_om_next v b) = frag (a, b).
Proof. done. Qed.

Lemma pkt_next a b v : pkt (a, set_om_next v b) = pkt (a, b).
Proof. done. Qed.

Lemma set_om_next_id v b : om_next b = v -> set_om_next v b = b.
Proof. intros <-. now destruct b. Qed.

Lemma cell_wf_next a b v : cell_wf (a, b) -> cell_wf (a, set_om_next v b).
Proof. intros [H1 H2 H3 H4]. now constructor. Qed.

(** Data is moved within a block: a new start and a new length. *)
Lemma cell_wf_resize a b d n :
  cell_wf (a, b) -> 0 <= n -> om_pkthdr_len b <= d - (a + MBUF_SIZE) ->
  d - (a + MBUF_SIZE) + n <= Z.of_nat (length (om_databuf b)) ->
  cell_wf (a, set_om_len n (set_om_data d b)).
Proof.
  intros [(k & bl & Hi & Ha & Hpos & Hk & Hd) Hl Hh Hhl] Hn Hd1 Hd2. constructor; cbn in *; unfold doff in *; cbn in *; try done.
  - exists k, bl. split; [done|]. split; [done|]. split; [done|]. split; [done|lia].
  - lia.
Qed.

Lemma cell_wf_len a b n :
  cell_wf (a, b) -> 0 <= n -> doff (a, b) + n <= Z.of_nat (length (om_databuf b)) -> cell_wf (a, set_om_len n b).
Proof.
  intros H Hn Hd. replace (set_om_len n b) with (set_om_len n (set_om_data (om_data b) b)) by now destruct b.
  destruct H as [H1 H2 H3 H4]. apply cell_wf_resize; [now constructor|done|apply H3|exact Hd].
Qed.

(** Bytes are put behind the data. *)
Lemma frag_extend a b bs n :
  cell_wf (a, b) -> n = om_len b + Z.of_nat (length bs) -> doff (a, b) + n <= Z.of_nat (length (om_databuf b)) ->
  frag (a, set_om_len n (wr a (om_data b + om_len b) bs b)) = frag (a, b) ++ bs.
Proof.
  intros [(k & bl & _ & _ & _ & Hk & Hd) Hl Hh _] -> Hle. cbn [fst snd] in *. unfold frag, doff in *.
  cbn [fst snd om_data om_len set_om_len wr set_om_databuf om_databuf] in *.
  replace (Z.to_nat (om_len b + Z.of_nat (length bs))) with (Z.to_nat (om_len b) + length bs)%nat by lia.
  replace (Z.to_nat (om_data b + om_len b - (a + MBUF_SIZE))) with
    (Z.to_nat (om_data b - (a + MBUF_SIZE)) + Z.to_nat (om_len b))%nat by lia.
  rewrite slice_add, slice_splice_before by lia. f_equal. apply slice_splice_same; lia.
Qed.

(** Bytes inside of the data are overwritten. *)
Lemma frag_overwrite a b off bs :
  cell_wf (a, b) -> 0 <= off -> off + Z.of_nat (length bs) <= om_len b ->
  frag (a, wr a (om_data b + off) bs b) = splice (Z.to_nat off) bs (frag (a, b)).
Proof.
  intros [(k & bl & _ & _ & _ & Hk & Hd) Hl Hh _] Ho Hle. cbn [fst snd] in *. unfold frag, doff in *.
  cbn [fst snd om_data om_len set_om_len wr set_om_databuf om_databuf] in *.
  set (i := Z.to_nat (om_data b - (a + MBUF_SIZE))).
  replace (Z.to_nat (om_data b + off - (a + MBUF_SIZE))) with (i + Z.to_nat off)%nat by lia.
  replace (Z.to_nat (om_len b)) with (Z.to_nat off + (length bs + (Z.to_nat (om_len b) - Z.to_nat off - length bs)))%nat by lia.
  set (r := (Z.to_nat (om_len b) - Z.to_nat off - length bs)%nat). rewrite !slice_add.
  rewrite slice_splice_before, slice_splice_same, slice_splice_after by lia.
  unfold splice. set (x := slice i (Z.to_nat off) _). assert (Hx : length x = Z.to_nat off) by (apply length_slice; lia).
  rewrite take_app_le, take_ge by lia. f_equal. f_equal. rewrite drop_app_ge by lia.
  rewrite drop_app_ge; [|rewrite length_slice; lia]. rewrite length_slice by lia. rewrite Hx.
  replace (_ - _ - _)%nat with 0%nat by lia. now rewrite drop_0.
Qed.

(** A write behind the packet header does not change it. *)
Lemma pkt_wr a b p bs :
  cell_wf (a, b) -> om_pkthdr_len b <= p - (a + MBUF_SIZE) ->
  p - (a + MBUF_SIZE) + Z.of_nat (length bs) <= Z.of_nat (length (om_databuf b)) -> pkt (a, wr a p bs b) = pkt (a, b).
Proof.
  intros [_ _ Hh Hhl] Hp Hle. cbn [fst snd] in *. unfold pkt, OS_MBUF_IS_PKTHDR.
  cbn [fst snd wr set_om_databuf om_pkthdr_len om_databuf]. destruct (Z.leb_spec PKTHDR_SIZE (om_pkthdr_len b)); [|done].
  unfold PKTHDR_SIZE in *. pose proof (slice_splice_before 0 2 (Z.to_nat (p - (a + MBUF_SIZE))) bs (om_databuf b)) as H2.
  unfold slice in H2 at 1 2. rewrite !drop_0 in H2. rewrite H2 by lia. do 2 f_equal. apply slice_splice_before; lia.
Qed.

(** Bytes are appended to the data of one buffer. *)
Lemma wp_push {A} (k : M A) s L1 L2 a b bs cnt Q :
  own s (L1 ++ (a, b) :: L2) -> cnt = Z.of_nat (length bs) ->
  doff (a, b) + om_len b + cnt <= Z.of_nat (length (om_databuf b)) ->
  (forall s' b', own s' (L1 ++ (a, b') :: L2) -> frag (a, b') = frag (a, b) ++ bs -> pkt (a, b') = pkt (a, b) ->
     om_next b' = om_next b -> om_omp b' = om_omp b -> om_len b' = om_len b + cnt ->
     om_pkthdr_len b' = om_pkthdr_len b -> doff (a, b') = doff (a, b) ->
     length (om_databuf b') = length (om_databuf b) -> pools s' = pools s -> wp k Q s') ->
  wp (mwrite a (om_data b + om_len b) bs;; upd a (fun b => set_om_len (u16 (om_len b + cnt)) b);; k) Q s.
Proof.
  intros H -> Hle HQ. pose proof (own_wf geo s _ (a, b) H ltac:(incell)) as Hw.
  pose proof Hw as [(n & bl & Hi & _ & _ & Hn & Hd) Hl Hh _]. cbn [fst snd] in *. pose proof (proj1 (proj1 H) _ _ _ Hi) as [_ Hnr].
  assert (Hp : om_data b + om_len b - (a + MBUF_SIZE) = doff (a, b) + om_len b) by (unfold doff; cbn; lia).
  apply wp_bind, (wp_mwrite geo s L1 L2 a b); [done|lia|lia|]. intros s1 H1 Hp1. set (b1 := wr a (om_data b + om_len b) bs b) in *.
  assert (E : u16 (om_len b1 + Z.of_nat (length bs)) = om_len b + Z.of_nat (length bs)) by (cbn; apply u16_small; lia).
  assert (Hdb : length (om_databuf b1) = length (om_databuf b)) by (cbn; apply splice_length; lia).
  apply wp_bind, (wp_upd geo s1 L1 L2 a b1); [done| |].
  { rewrite E. apply cell_wf_len; [apply (own_wf geo _ _ _ H1); incell|lia|]. change (doff (a, b1)) with (doff (a, b)). lia. }
  intros s2 H2 Hp2. rewrite E in H2. apply (HQ s2 _ H2); try done; [| |congruence].
  - apply frag_extend; [done|lia|lia].
  - change (pkt (a, b1) = pkt (a, b)). apply pkt_wr; [done|lia..].
Qed.

(** ** Macros *)
Lemma wp_leading s L a b Q :
  own s L -> (a, b) ∈ L -> Q (doff (a, b) - om_pkthdr_len b) s -> wp (OS_MBUF_LEADINGSPACE a) Q s.
Proof.
  intros H Hc HQ. apply wp_bind, (wp_load geo s L a b); [done..|]. apply wp_ret.
  pose proof (own_wf geo _ _ _ H Hc) as Hw. destruct H as [[Hg _] _]. destruct Hw as [(n & bl & Hi & _ & _ & Hn & Hd) Hl Hh Hhl].
  cbn [fst snd] in *. destruct (Hg _ _ _ Hi). unfold OS_MBUF_IS_PKTHDR, doff in *. cbn [fst snd] in *.
  destruct (Z.leb_spec PKTHDR_SIZE (om_pkthdr_len b)).
  - rewrite u16_small by lia. replace (om_data b - _) with (om_data b - (a + MBUF_SIZE) - om_pkthdr_len b) by lia. done.
  - assert (om_pkthdr_len b = 0) as E by lia. rewrite E in HQ. rewrite u16_small by lia.
    replace (om_data b - _) with (om_data b - (a + MBUF_SIZE) - 0) by lia. done.
Qed.

Lemma wp_trailing s L a b Q :
  own s L -> (a, b) ∈ L ->
  Q (Z.of_nat (length (om_databuf b)) - (doff (a, b) + om_len b)) s -> wp (OS_MBUF_TRAILINGSPACE a) Q s.
Proof.
  intros H Hc HQ. apply wp_bind, (wp_load geo s L a b); [done..|].
  pose proof (own_wf geo _ _ _ H Hc) as Hw. destruct Hw as [(n & bl & Hi & _ & _ & Hn & Hd) Hl Hh Hhl]. cbn [fst snd] in *.
  apply wp_bind, (wp_load_pool geo s L _ n bl); [done..|]. intros p Hp Hr. apply wp_ret. rewrite Hp. unfold doff in *.
  cbn [fst snd] in *. rewrite u16_small by lia.
  replace (_ + _ - _) with (Z.of_nat (length (om_databuf b)) - (om_data b - (a + MBUF_SIZE) + om_len b)) by lia. done.
Qed.

Lemma pkt_len_bytes a b h r :
  cell_wf (a, b) -> pkt (a, b) = Some (h, r) ->
  OS_MBUF_IS_PKTHDR b = true /\ h = u16 (le_val (slice 0 2 (om_databuf b))) /\ 8 <= om_pkthdr_len b /\
  8 <= Z.of_nat (length (om_databuf b)).
Proof.
  intros [(n & bl & _ & _ & _ & Hn & Hd) Hl Hh Hhl] E. cbn [fst snd] in *. unfold pkt in E. cbn [fst snd] in E.
  destruct (OS_MBUF_IS_PKTHDR b) eqn:Ep; [|done]. injection E as <- _. unfold OS_MBUF_IS_PKTHDR, PKTHDR_SIZE in Ep.
  split; [done|]. split; [unfold slice; now rewrite drop_0|]. lia.
Qed.

Lemma wp_pktlen s L a b h r Q :
  own s L -> (a, b) ∈ L -> pkt (a, b) = Some (h, r) -> Q h s -> wp (pktlen a) Q s.
Proof.
  intros H Hc Hp HQ. destruct (pkt_len_bytes a b h r (own_wf geo _ _ _ H Hc) Hp) as (_ & -> & _ & Hlen).
  apply wp_bind, (wp_mread geo s L a b); [done|done|lia..|]. apply wp_ret.
  replace (a + MBUF_SIZE - (a + MBUF_SIZE)) with 0 by lia. done.
Qed.

(** The length field is set; nothing else changes. *)
Lemma wp_set_pktlen s L1 L2 a b h r v Q :
  own s (L1 ++ (a, b) :: L2) -> pkt (a, b) = Some (h, r) -> 0 <= v < 2 ^ 16 ->
  (forall s' db, own s' (L1 ++ (a, set_om_databuf db b) :: L2) -> pkt (a, set_om_databuf db b) = Some (v, r) ->
     frag (a, set_om_databuf db b) = frag (a, b) -> length db = length (om_databuf b) ->
     pools s' = pools s -> Q tt s') ->
  wp (set_pktlen a v) Q s.
Proof.
  intros H Hp Hv HQ. pose proof (own_wf geo s _ (a, b) H ltac:(incell)) as Hw.
  destruct (pkt_len_bytes a b h r Hw Hp) as (Hh & _ & Hlen & Hbuf).
  apply (wp_mwrite geo s L1 L2 a b); [done|lia|rewrite length_le_bytes; lia|].
  intros s' H' Hpo. unfold wr in H'. replace (a + MBUF_SIZE - (a + MBUF_SIZE)) with 0 in H' by lia.
  apply (HQ s' _ H'); [| | |done].
  - unfold pkt in *. cbn [fst snd] in *. unfold OS_MBUF_IS_PKTHDR in *. cbn [set_om_databuf om_pkthdr_len om_databuf] in *.
    rewrite Hh in *. injection Hp as _ <-. cbn [Z.to_nat].
    rewrite slice_splice_after by (rewrite length_le_bytes; lia). do 2 f_equal. unfold splice.
    rewrite take_0. cbn [app]. rewrite take_app_le, take_ge by (rewrite length_le_bytes; lia).
    rewrite le_val_le_bytes. change (2 ^ (8 * Z.of_nat 2)) with (2 ^ 16). clia.
  - destruct Hw as [_ _ Hd _]. cbn [fst snd] in Hd. unfold frag. cbn [fst snd set_om_databuf om_len om_databuf].
    unfold doff in *. cbn [fst snd om_data set_om_databuf] in *. apply slice_splice_after; rewrite length_le_bytes; lia.
  - apply splice_length. rewrite length_le_bytes. lia.
Qed.

Lemma wp_add_pktlen s L1 L2 a b d Q :
  own s (L1 ++ (a, b) :: L2) ->
  (forall s' db, own s' (L1 ++ (a, set_om_databuf db b) :: L2) ->
     pkt (a, set_om_databuf db b) = bump d (pkt (a, b)) -> frag (a, set_om_databuf db b) = frag (a, b) ->
     length db = length (om_databuf b) -> pools s' = pools s -> Q tt s') ->
  wp (add_pktlen a d) Q s.
Proof.
  intros H HQ. apply wp_bind, (wp_load geo s (L1 ++ (a, b) :: L2) a b); [done|incell|].
  destruct (pkt (a, b)) as [[h r]|] eqn:Ep.
  - destruct (pkt_len_bytes a b h r (own_wf geo _ _ _ H ltac:(incell)) Ep) as (-> & _).
    apply wp_bind, (wp_pktlen s (L1 ++ (a, b) :: L2) a b h r); [done|incell|done|].
    apply (wp_set_pktlen s L1 L2 a b h r); [done|done|apply u16_range|]. exact HQ.
  - unfold pkt in Ep. cbn [fst snd] in Ep. destruct (OS_MBUF_IS_PKTHDR b) eqn:Eh; [done|]. apply wp_ret.
    assert (Eb : set_om_databuf (om_databuf b) b = b) by now destruct b.
    apply (HQ s (om_databuf b)); rewrite ?Eb; auto. unfold pkt. cbn [fst snd]. now rewrite Eh.
Qed.

(** ** Walks *)
Lemma free_chain_spec fuel s p l F Q :
  own s (l ++ F) -> seg p l 0 -> (length l < fuel)%nat ->
  (forall s', own s' F -> Q 0 s') -> wp (free_chain_loop fuel p) Q s.
Proof.
  revert s p fuel. induction l as [|[a b] l IH]; intros s p fuel H Hs Hf HQ;
    (destruct fuel as [|fuel]; [cbn in Hf; lia|]); cbn [free_chain_loop].
  - cbn in Hs. subst p. now apply wp_ret, HQ.
  - destruct Hs as [-> Hs]. cbn [fst snd app length] in *. pose proof (own_pos geo _ _ (a, b) H ltac:(left)).
    cbn [fst] in *. destruct (Z.eqb_spec a 0); [lia|].
    apply wp_bind, (wp_load geo s ((a, b) :: l ++ F) a b); [done|left|].
    apply wp_bind, (wp_free geo s (l ++ F) a b); [done|]. intros s' H'. cbn [Z.eqb negb].
    apply IH; [done|done|lia|done].
Qed.

Lemma wp_free_chain s p l F Q :
  own s (l ++ F) -> seg p l 0 -> (forall s', own s' F -> Q 0 s') -> wp (os_mbuf_free_chain p) Q s.
Proof.
  intros H Hs HQ. apply wp_fuel, (free_chain_spec _ s p l F); [done|done| |done].
  pose proof (own_length geo s _ H) as Hl. rewrite length_app in Hl. lia.
Qed.

(** A computation that only reads. *)
Lemma len_loop_spec fuel s p l L len :
  own s L -> l ⊆ L -> seg p l 0 -> (length l < fuel)%nat ->
  len_loop fuel p (u16 len) s = Ok (u16 (len + Z.of_nat (length (data l))), s).
Proof.
  revert p fuel len. induction l as [|[a b] l IH]; intros p fuel len H Hl Hs Hf;
    (destruct fuel as [|fuel]; [cbn in Hf; lia|]); cbn [len_loop].
  - cbn in Hs. subst p. cbn. unfold mret, M_ret. do 3 f_equal. lia.
  - destruct Hs as [-> Hs]. cbn [fst snd length] in *. assert (Hc : (a, b) ∈ L) by (apply Hl; left).
    pose proof (own_pos geo _ _ (a, b) H Hc). cbn [fst] in *. destruct (Z.eqb_spec a 0); [lia|].
    unfold mbind, M_bind. rewrite (own_load geo s L a b H Hc). cbn [snd].
    replace (u16 (u16 len + om_len b)) with (u16 (len + om_len b)) by clia.
    rewrite IH; [|done|intros c Hin; apply Hl; now right|done|lia]. do 3 f_equal.
    rewrite data_cons, length_app. pose proof (length_frag geo (a, b) (own_wf geo _ _ _ H Hc)). cbn [snd] in *. lia.
Qed.

Lemma mbuf_len_spec s p l F :
  own s (l ++ F) -> seg p l 0 -> os_mbuf_len p s = Ok (u16 (Z.of_nat (length (data l))), s).
Proof.
  intros H Hs. unfold os_mbuf_len, with_fuel. change 0 with (u16 0) at 1.
  rewrite (len_loop_spec _ s p l (l ++ F)); [done|done| |done|].
  - intros c Hc. apply elem_of_app. now left.
  - pose proof (own_length geo s _ H) as Hl. rewrite length_app in Hl. lia.
Qed.

Lemma last_loop_spec fuel s p l a b L :
  own s L -> (l ++ [(a, b)]) ⊆ L -> seg p (l ++ [(a, b)]) 0 -> (length l < fuel)%nat ->
  last_loop fuel p s = Ok (a, s).
Proof.
  revert p fuel. induction l as [|[a' b'] l IH]; intros p fuel H Hl Hs Hf;
    (destruct fuel as [|fuel]; [cbn in Hf; lia|]); cbn [last_loop].
  - destruct Hs as [-> Hs]. cbn [fst snd seg] in *. unfold mbind, M_bind.
    rewrite (own_load geo s L a b H ltac:(apply Hl; left)). cbn [snd]. rewrite Hs. done.
  - destruct Hs as [-> Hs]. cbn [fst snd length] in *. unfold mbind, M_bind.
    rewrite (own_load geo s L a' b' H ltac:(apply Hl; left)). cbn [snd].
    assert (Hl' : l ++ [(a, b)] ⊆ L) by (intros c Hc; apply Hl; now right).
    pose proof (seg_nonzero s _ _ _ L H Hl' Hs ltac:(now destruct l)).
    destruct (Z.eqb_spec (om_next b') 0); [done|]. apply IH; [done|done|done|lia].
Qed.

Lemma wp_last s p l a b F Q :
  own s (l ++ (a, b) :: F) -> seg p (l ++ [(a, b)]) 0 -> Q a s -> wp (with_fuel (fun n => last_loop n p)) Q s.
Proof.
  intros H Hs HQ. exists a, s. split; [|done]. unfold with_fuel.
  apply (last_loop_spec _ s p l a b (l ++ (a, b) :: F)); [done| |done|].
  - intros c Hc. rewrite elem_of_app in Hc |- *. rewrite elem_of_cons. rewrite list_elem_of_singleton in Hc. tauto.
  - pose proof (own_length geo s _ H) as Hl. rewrite length_app in Hl. lia.
Qed.

(** The result of [os_mbuf_off]: the buffer of an offset, or nothing when the chain is
    too short for it. *)
Definition off_post (l : list cell) (off : Z) (r : Z * Z) : Prop :=
  ((l = [] \/ Z.of_nat (length (data l)) < off) /\ r.1 = 0) \/
  exists l1 b l2, l = l1 ++ (r.1, b) :: l2 /\ 0 <= r.2 <= om_len b /\
    off = Z.of_nat (length (data l1)) + r.2 /\ (r.2 < om_len b \/ l2 = []).

Lemma off_loop_spec fuel s p l L off :
  own s L -> l ⊆ L -> seg p l 0 -> (length l < fuel)%nat -> 0 <= off ->
  exists r, off_loop fuel p off s = Ok (r, s) /\ off_post l off r.
Proof.
  revert p fuel off. induction l as [|[a b] l IH]; intros p fuel off H Hl Hs Hf Ho;
    (destruct fuel as [|fuel]; [cbn in Hf; lia|]); cbn [off_loop].
  - cbn in Hs. subst p. exists (0, 0). split; [done|]. left. auto.
  - destruct Hs as [-> Hs]. cbn [fst snd length] in *. assert (Hc : (a, b) ∈ L) by (apply Hl; left).
    pose proof (own_pos geo _ _ (a, b) H Hc). cbn [fst] in *. destruct (Z.eqb_spec a 0); [lia|].
    unfold mbind, M_bind. rewrite (own_load geo s L a b H Hc). cbn [snd].
    pose proof (own_wf geo _ _ _ H Hc) as Hw. pose proof (om_len_bound (a, b) (proj1 H) Hw) as Hb. cbn [snd] in Hb.
    pose proof (length_frag geo (a, b) Hw) as Hfr. cbn [snd] in Hfr.
    assert (Hl' : l ⊆ L) by (intros c Hin; apply Hl; now right).
    destruct (Z.ltb_spec off (om_len b)) as [Hlt|Hge]; cbn [orb].
    { exists (a, u16 off). split; [done|]. right. exists [], b, l. rewrite u16_small by lia. cbn. split; [done|]. lia. }
    destruct (Z.eqb_spec (om_len b) off) as [E|E]; cbn [andb].
    + destruct (Z.eqb_spec (om_next b) 0) as [E0|E0].
      * exists (a, u16 off). split; [done|]. right. exists [], b, l. rewrite u16_small by lia. cbn. split; [done|].
        split; [lia|]. split; [lia|]. right. destruct l as [|c l]; [done|]. exfalso.
        now apply (seg_nonzero s _ _ _ L H Hl' Hs).
      * destruct (IH (om_next b) fuel (off - om_len b) H Hl' Hs ltac:(lia) ltac:(lia)) as (r & Hr & Hp).
        exists r. split; [done|]. destruct Hp as [[Hp Hr0]|(l1 & b' & l2 & -> & Hr2 & Ho2 & Hp)].
        -- exfalso. destruct Hp as [-> |Hp]; [|lia]. now cbn in Hs.
        -- right. exists ((a, b) :: l1), b', l2. split; [done|]. split; [done|]. split; [|done].
           rewrite data_cons, length_app. lia.
    + destruct (IH (om_next b) fuel (off - om_len b) H Hl' Hs ltac:(lia) ltac:(lia)) as (r & Hr & Hp).
      exists r. split; [done|]. destruct Hp as [[Hp Hr0]|(l1 & b' & l2 & -> & Hr2 & Ho2 & Hp)].
      * left. split; [|done]. right. rewrite data_cons, length_app. destruct Hp as [-> |Hp]; [cbn|]; lia.
      * right. exists ((a, b) :: l1), b', l2. split; [done|]. split; [done|]. split; [|done].
        rewrite data_cons, length_app. lia.
Qed.

Lemma wp_off s p l F off Q :
  own s (l ++ F) -> seg p l 0 -> 0 <= off ->
  (forall r, off_post l off r -> Q r s) -> wp (os_mbuf_off p off) Q s.
Proof.
  intros H Hs Ho HQ. destruct (off_loop_spec (S (size (mem s))) s p l (l ++ F) off) as (r & Hr & Hp); auto.
  { intros c Hc. apply elem_of_app. now left. }
  { pose proof (own_length geo s _ H) as Hl. rewrite length_app in Hl. lia. }
  exists r, s. auto.
Qed.
End Chain.
