(* ===== verification/MbufAppend.v ===== *)
(** * Growing buffer chains

    [os_mbuf_append] and [os_mbuf_appendfrom] on owned chains: the data and the packet
    header of the result, and when an allocation fails. *)
From stdpp Require Import base tactics numbers list gmap.
From Stdlib Require Import ZArith Lia.
From S2P Require Import Prelude Mempool Mbuf MbufHeap MbufLogic MbufChain.
Local Open Scope Z_scope.

Section Append.
  Context {CF : MempoolConf} (geo : gmap Z (Z * list Z)).
  Local Abbreviation own := (own geo) (only parsing).
  Local Abbreviation cell_wf := (cell_wf geo) (only parsing).

Lemma get_count s s' L i n bl a b :
  own s L -> own s' ((a, b) :: L) -> om_omp b = i -> geo !! i = Some (n, bl) -> nfree s' i = nfree s i - 1.
Proof.
  intros H H' Eb Hi. pose proof (own_count geo _ _ _ _ _ H Hi) as E. pose proof (own_count geo _ _ _ _ _ H' Hi) as E'.
  unfold cnt in *. rewrite filter_cons_True in E' by exact Eb. cbn [length] in E'. lia.
Qed.

(** The number of free blocks of a pool depends only on the pools of the blocks in use. *)
Lemma nfree_same s s' L L' i n bl :
  own s L -> own s' L' -> geo !! i = Some (n, bl) -> map (fun c => om_omp c.2) L = map (fun c => om_omp c.2) L' ->
  nfree s' i = nfree s i.
Proof.
  intros H H' Hi E. pose proof (own_count geo _ _ _ _ _ H Hi) as E1. pose proof (own_count geo _ _ _ _ _ H' Hi) as E2.
  assert (Hc : forall K : list cell, cnt i K = length (filter (fun x => x = i) (map (fun c => om_omp c.2) K))).
  { intros K. unfold cnt. induction K as [|c K IH]; [done|]. cbn [map]. destruct (decide (om_omp c.2 = i)).
    - rewrite !filter_cons_True by done. cbn [length]. now rewrite IH.
    - rewrite !filter_cons_False by done. done. }
  rewrite Hc in E1, E2. rewrite E in E1. lia.
Qed.

(** A new buffer is filled with data. *)
Lemma wp_fill {A} (k : M A) s L1 L2 a leading i db bs n Q :
  own s (L1 ++ (a, fresh a leading i db) :: L2) -> 0 <= leading ->
  leading + Z.of_nat (length bs) <= Z.of_nat (length db) -> n = Z.of_nat (length bs) ->
  (forall s' c, own s' (L1 ++ (a, c) :: L2) -> frag (a, c) = bs -> om_next c = 0 -> om_omp c = i ->
     om_pkthdr_len c = 0 -> om_data c = a + MBUF_SIZE + leading -> length (om_databuf c) = length db ->
     om_len c = n -> wp k Q s') ->
  wp (upd a (set_om_len n);; b ← load a; mwrite a (om_data b) bs;; k) Q s.
Proof.
  intros H Hld Hbs -> HQ. pose proof (own_wf geo s _ (a, fresh a leading i db) H ltac:(incell)) as Hw.
  assert (Hw2 : cell_wf (a, set_om_len (Z.of_nat (length bs)) (fresh a leading i db))).
  { apply cell_wf_len; [done|lia|]. unfold doff. cbn. lia. }
  apply wp_bind, (wp_upd geo s L1 L2 a (fresh a leading i db)); [done|done|]. intros s1 H1 _.
  apply wp_bind. eapply (wp_load geo s1); [exact H1|incell|].
  apply wp_bind, (wp_mwrite geo s1 L1 L2 a (set_om_len (Z.of_nat (length bs)) (fresh a leading i db))); [done| | |].
  - cbn. lia.
  - cbn. lia.
  - intros s2 H2 _. apply (HQ s2 _ H2); try done.
    + change (frag (a, set_om_len (Z.of_nat (length bs)) (wr a (om_data (fresh a leading i db)) bs (fresh a leading i db))) = bs).
      pose proof (frag_extend geo a (fresh a leading i db) bs (Z.of_nat (length bs)) Hw ltac:(done)) as E.
      cbn [fresh om_data om_len] in E. rewrite Z.add_0_r in E. cbn [fresh om_data]. rewrite E; [done|].
      unfold doff. cbn. lia.
    + cbn. apply splice_length. cbn. lia.
Qed.

Definition in_pool (i : Z) (l : list cell) : Prop := Forall (fun c => om_omp c.2 = i) l.

(** What a growing loop has done: the link of the last buffer is set and new buffers
    with the fragments [fs] follow it. *)
Definition grown (s' : mheap) (l : list cell) (a : Z) (b : os_mbuf) (F : list cell) (i : Z) (fs : list (list Z)) : Prop :=
  exists v ns, own s' (l ++ (a, set_om_next v b) :: ns ++ F) /\ seg v ns 0 /\ map frag ns = fs /\ in_pool i ns.

Lemma append_loop_spec fuel s l a b F i n bl d Q :
  own s (l ++ (a, b) :: F) -> om_next b = 0 -> geo !! i = Some (n, bl) -> nfree s i < Z.of_nat fuel ->
  (forall s' fs rest, append_new (Z.to_nat n) (Z.to_nat (nfree s i)) d = (fs, rest) ->
     grown s' l a b F i fs -> Q rest s') ->
  wp (append_loop fuel i a d) Q s.
Proof.
  revert s l a b d Q. induction fuel as [|fuel IH]; intros s l a b d Q H Hb Hi Hf HQ.
  { pose proof (own_nfree_size geo _ _ _ _ _ H Hi). lia. }
  destruct (own_pool geo _ _ _ _ _ H Hi) as (_ & _ & _ & _ & Hn).
  assert (Hid : grown s l a b F i []).
  { exists 0, []. rewrite set_om_next_id by done. split; [done|]. split; [done|]. split; [done|constructor]. }
  cbn [append_loop]. destruct d as [|x d].
  { apply wp_ret, (HQ s [] []); [|done]. destruct (Z.to_nat (nfree s i)); done. }
  set (d' := x :: d) in *. apply wp_bind. eapply (wp_get geo s _ i n bl 0); [exact H|exact Hi|lia| |].
  - intros a' db s1 _ Hpos H1 Hdb. pose proof (own_pos geo _ _ (a', fresh a' 0 i db) H1 ltac:(left)) as Ha'. cbn [fst] in Ha'.
    destruct (Z.eqb_spec a' 0); [lia|]. pose proof (get_count _ _ _ i _ _ _ _ H H1 eq_refl Hi) as Hcnt.
    apply wp_bind. eapply (wp_load_pool geo s1 _ i n bl); [exact H1|exact Hi|]. intros p Hp _. rewrite Hp. cbv zeta.
    set (k := Z.min n (Z.of_nat (length d'))).
    assert (Ek : u16 k = k) by (apply u16_small; lia). rewrite Ek.
    assert (Htk : length (take (Z.to_nat k) d') = Z.to_nat k) by (rewrite length_take; lia).
    { apply (wp_fill _ s1 [] (l ++ (a, b) :: F) a' 0 i db); [done|lia|lia|lia|].
      intros s2 c H2 Hc1 Hc2 Hc3 _ _ Hc4 _. cbn [app] in H2.
      assert (H2' : own s2 (l ++ (a, b) :: (a', c) :: F)) by perm.
      apply wp_bind, (wp_upd geo s2 l ((a', c) :: F) a b); [done| |].
      { apply cell_wf_next, (own_wf geo _ _ _ H2'). incell. }
      intros s3 H3 _. assert (Hnf : nfree s3 i = nfree s1 i).
      { eapply (nfree_same s1 s3 (l ++ (a, b) :: (a', fresh a' 0 i db) :: F)); [perm|exact H3|exact Hi|].
        rewrite !map_app. cbn [map snd set_om_next om_omp fresh]. now rewrite Hc3. }
      apply (IH s3 (l ++ [(a, set_om_next a' b)]) a' c); [perm|done|done|lia|].
      intros s4 fs rest Hap (v & ns & Ho & Hs & Hfr & Hin). rewrite Hnf, Hcnt in Hap.
      apply (HQ s4 (take (Z.to_nat k) d' :: fs) rest).
      - replace (Z.to_nat (nfree s i)) with (S (Z.to_nat (nfree s i - 1))) by lia. unfold d' at 1. cbn [append_new].
        fold d'. replace (Nat.min (Z.to_nat n) (length d')) with (Z.to_nat k) by lia. now rewrite Hap.
      - exists a', ((a', set_om_next v c) :: ns). split; [|split; [|split]].
        + rewrite <- app_assoc in Ho. exact Ho.
        + split; [done|exact Hs].
        + cbn [map]. rewrite frag_next, Hc1. now rewrite Hfr.
        + now constructor. }
  - intros [Hlt|H0]; [lia|]. cbn [Z.eqb]. apply wp_ret, (HQ s [] d'); [|done].
    rewrite H0. done.
Qed.

Lemma pool_same i (l l' : list cell) :
  map (fun c => om_omp c.2) l' = map (fun c => om_omp c.2) l -> in_pool i l -> in_pool i l'.
Proof.
  unfold in_pool. revert l'. induction l as [|c l IH]; intros [|c' l'] E H; try done. cbn in E. injection E as E1 E2.
  apply Forall_cons in H as [H1 H2]. constructor; [congruence|auto].
Qed.

(** The packet header of a chain is updated; its data is not. *)
Lemma wp_add_pktlen_chain s p l F d Q :
  own s (l ++ F) -> seg p l 0 -> l <> [] ->
  (forall s' l', own s' (l' ++ F) -> seg p l' 0 -> map frag l' = map frag l -> phead l' = bump d (phead l) ->
     map (fun c => om_omp c.2) l' = map (fun c => om_omp c.2) l -> Q tt s') ->
  wp (add_pktlen p d) Q s.
Proof.
  intros H Hs Hn HQ. destruct l as [|[a b] l]; [done|]. destruct Hs as [-> Hs]. cbn [fst snd] in *.
  apply (wp_add_pktlen geo s [] (l ++ F) a b); [done|]. intros s' db H' Hp Hf _ _.
  apply (HQ s' ((a, set_om_databuf db b) :: l)); try done. cbn [map]. now rewrite Hf.
Qed.

(** The first step of [os_mbuf_append]: the trailing space of the last buffer is filled. *)
Lemma wp_fill_last s l a b F d space Q :
  own s (l ++ (a, b) :: F) -> space = Z.of_nat (length (om_databuf b)) - (doff (a, b) + om_len b) ->
  let sp := Nat.min (Z.to_nat space) (length d) in
  (forall s' b', own s' (l ++ (a, b') :: F) -> frag (a, b') = frag (a, b) ++ take sp d -> om_next b' = om_next b ->
     pkt (a, b') = pkt (a, b) -> om_omp b' = om_omp b -> Q (drop sp d) s') ->
  wp (if 0 <? space then
        let space := Z.to_nat (Z.min space (Z.of_nat (length d))) in
        lb ← load a;
        mwrite a (om_data lb + om_len lb) (take space d);;
        upd a (fun b => set_om_len (u16 (om_len b + Z.of_nat space)) b);;
        mret (drop space d)
      else mret d) Q s.
Proof.
  intros H Hsp sp HQ. pose proof (own_wf geo s _ (a, b) H ltac:(incell)) as Hw.
  pose proof Hw as [(n & bl & Hi & _ & _ & Hn & Hd) Hl Hh _]. cbn [fst snd] in *.
  pose proof (proj1 (proj1 H) _ _ _ Hi) as [_ Hnr]. destruct (Z.ltb_spec 0 space).
  - cbv zeta. replace (Z.to_nat (Z.min space (Z.of_nat (length d)))) with sp by lia.
    assert (Ht : length (take sp d) = sp) by (rewrite length_take; lia).
    apply wp_bind, (wp_load geo s (l ++ (a, b) :: F) a b); [done|incell|].
    apply (wp_push geo _ s l F a b); [done|lia|lia|]. intros s2 b2 H2 Hf Hp Hnx Ho _ _ _ _ _. apply wp_ret, (HQ _ _ H2); done.
  - apply wp_ret. assert (sp = 0%nat) as E by lia. rewrite E in HQ. apply (HQ s b); [done|..|done|done|done].
    + now rewrite app_nil_r.
Qed.

(** The room behind the data of a buffer. *)
Definition room (c : cell) : Z := Z.of_nat (length (om_databuf c.2)) - (doff c + om_len c.2).

(** What [os_mbuf_append] does to a chain: the fragments of the result, in terms of the
    trailing space and the free blocks, and the packet header. *)
Definition appended (s : mheap) (l : list cell) (d : list Z) (l' : list cell) (rc : Z) : Prop :=
  exists c0 c1 n bl, head l = Some c0 /\ last l = Some c1 /\ geo !! om_omp c0.2 = Some (n, bl) /\
    Mbuf.os_mbuf_append (Some (map frag l)) (Z.to_nat (room c1)) (Z.to_nat n) (Z.to_nat (nfree s (om_omp c0.2))) d =
      (Some (map frag l'), rc) /\
    phead l' = bump (Z.of_nat (length (data l')) - Z.of_nat (length (data l))) (phead l).

Lemma append_last_snoc (l : list (list Z)) f d : append_last (l ++ [f]) d = l ++ [f ++ d].
Proof.
  induction l as [|g l IH]; [done|]. cbn [app]. rewrite <- IH. destruct (l ++ [f]) eqn:E; [|done].
  now destruct l.
Qed.

Lemma wp_append s p l F d Q :
  l <> [] -> own s (l ++ F) -> seg p l 0 ->
  (forall s' l' rc, own s' (l' ++ F) -> seg p l' 0 -> appended s l d l' rc ->
     (forall i, in_pool i l -> in_pool i l') -> Q rc s') ->
  wp (MbufHeap.os_mbuf_append p d) Q s.
Proof.
  intros Hn H Hs HQ. destruct l as [|c0 l0] eqn:El; [done|]. rewrite <- El in *.
  assert (Hc0 : (c0.1, c0.2) ∈ l ++ F) by (rewrite <- surjective_pairing, El; left).
  assert (Ep : p = c0.1) by (rewrite El in Hs; now destruct Hs). pose proof (own_pos geo _ _ _ H Hc0) as Hpos. cbn [fst] in Hpos.
  pose proof (own_wf geo _ _ _ H Hc0) as [(n & bl & Hi & _) _ _ _]. cbn [fst snd] in Hi.
  assert (Hhd : head l = Some c0) by now rewrite El. destruct (exists_last Hn) as (l1 & [a b] & E1). clear El.
  assert (H1 : own s (l1 ++ (a, b) :: F)) by (rewrite E1, <- app_assoc in H; exact H).
  unfold MbufHeap.os_mbuf_append. destruct (Z.eqb_spec p 0); [lia|].
  apply wp_bind, (wp_load geo s (l ++ F) p c0.2); [done|now rewrite Ep|].
  apply wp_bind, (wp_last geo s p l1 a b F); [done|now rewrite <- E1|].
  apply wp_bind, (wp_trailing geo s (l1 ++ (a, b) :: F) a b); [done|incell|].
  apply wp_bind, (wp_fill_last s l1 a b F d); [done|done|]. set (space := _ - _). set (sp := Nat.min (Z.to_nat space) (length d)).
  intros s1 b1 H1' Hf1 Hn1 Hp1 Ho1.
  assert (Hb0 : om_next b = 0).
  { rewrite E1 in Hs. apply seg_app in Hs as (r & _ & Hr). cbn in Hr. apply Hr. }
  assert (Hnf : nfree s1 (om_omp c0.2) = nfree s (om_omp c0.2)).
  { eapply (nfree_same s s1 _ _ _ n bl); [exact H1|exact H1'|done|]. rewrite !map_app. cbn [map snd]. now rewrite Ho1. }
  apply wp_bind, wp_fuel. eapply (append_loop_spec _ s1 l1 a b1 F _ n bl); [exact H1'|congruence|exact Hi| |].
  { pose proof (own_nfree_size geo _ _ _ _ _ H1' Hi). lia. }
  intros s2 fs rest Hap (v & ns & H2 & Hsn & Hfr & Hin). rewrite Hnf in Hap.
  set (l2 := l1 ++ (a, set_om_next v b1) :: ns).
  assert (H2' : own s2 (l2 ++ F)) by (unfold l2; rewrite <- app_assoc; exact H2).
  assert (Hs2 : seg p l2 0).
  { rewrite E1 in Hs. apply seg_app in Hs as (r & Hr1 & Hr2). apply seg_app. exists r. split; [done|].
    cbn in Hr2 |- *. split; [apply Hr2|done]. }
  assert (Hl2 : map frag l2 = append_last (map frag l) (take sp d) ++ fs).
  { unfold l2. rewrite E1, !map_app. cbn [map]. rewrite append_last_snoc, frag_next, Hf1, Hfr, <- app_assoc. done. }
  assert (Hph : phead l2 = phead l).
  { unfold l2. rewrite E1. destruct l1 as [|c l1]; [|done]. cbn. now rewrite pkt_next. }
  apply wp_bind, (wp_add_pktlen_chain s2 p l2 F); [done|done|unfold l2; now destruct l1|].
  intros s3 l3 H3 Hs3 Hf3 Hp3 Ho3. apply wp_ret. apply (HQ s3 l3); [done|done| |].
  2: { intros i Hl. apply (pool_same i l2); [done|]. unfold l2, in_pool in *. rewrite E1, Forall_app in Hl. destruct Hl as [Hq1 Hq2].
    apply Forall_cons in Hq2 as [Hq2 _]. rewrite Forall_app. split; [done|]. constructor; [cbn in *; congruence|].
    assert (Ec0 : om_omp c0.2 = i); [|now rewrite <- Ec0]. rewrite E1 in Hhd. destruct l1 as [|c1 l1]; injection Hhd as <-; [done|].
    now apply Forall_cons in Hq1 as [? _]. }
  exists c0, (a, b), n, bl. split; [done|]. split; [now rewrite E1, last_snoc|]. split; [done|]. split.
  all: change (room (a, b)) with space.
  - unfold Mbuf.os_mbuf_append. fold sp. rewrite Hap, Hf3, Hl2. done.
  - rewrite Hp3, Hph. f_equal. unfold data. rewrite Hf3, Hl2, concat_app, append_last_flat by (rewrite E1, map_app; now destruct l1).
    pose proof (append_new_flat (Z.to_nat n) (Z.to_nat (nfree s (om_omp c0.2))) (drop sp d)) as Hx.
    rewrite Hap in Hx. destruct Hx as [Hx _]. apply (f_equal length) in Hx. rewrite length_app, length_drop in Hx.
    rewrite !length_app, length_take. lia.
Qed.

Lemma length_append_last (m : list (list Z)) d : length (append_last m d) = length m.
Proof. induction m as [|f m IH]; [done|]. destruct m; [done|]. cbn [append_last length] in *. now rewrite IH. Qed.

(** The same in terms of the data. *)
Lemma appended_flat s l d l' rc :
  appended s l d l' rc ->
  exists k, data l' = data l ++ take k d /\ (k <= length d)%nat /\ (rc = 0 <-> k = length d) /\
    (rc = 0 \/ rc = OS_ENOMEM) /\ phead l' = bump (Z.of_nat k) (phead l) /\ l' <> [].
Proof.
  intros (c0 & c1 & n & bl & Hc0 & _ & _ & Ha & Hp). destruct l as [|c l]; [done|].
  destruct (append_flat (map frag (c :: l)) (Z.to_nat (room c1)) (Z.to_nat n) (Z.to_nat (nfree s (om_omp c0.2))) d)
    as (m' & rc' & k & E & Hd & Hk & Hrc & _); [done|]. rewrite Ha in E. injection E as <- <-.
  exists k. unfold data at 1 2. split; [done|]. split; [done|]. split; [done|].
  assert (Hlen : Z.of_nat (length (data l')) - Z.of_nat (length (data (c :: l))) = Z.of_nat k).
  { unfold data. rewrite Hd, length_app, length_take. lia. }
  rewrite Hlen in Hp. split; [|split; [done|]].
  - unfold Mbuf.os_mbuf_append in Ha. destruct (append_new _ _ _) as [fs rest]. injection Ha as _ <-.
    destruct (length rest =? 0)%nat; auto.
  - intros ->. unfold Mbuf.os_mbuf_append in Ha. destruct (append_new _ _ _) as [fs rest].
    assert (E : append_last (map frag (c :: l)) (take (Nat.min (Z.to_nat (room c1)) (length d)) d) ++ fs = [])
      by (change (map frag []) with (@nil (list Z)) in Ha; congruence).
    apply (f_equal length) in E. rewrite length_app, length_append_last in E. cbn in E. lia.
Qed.

(** A chain of one buffer: its room is filled first. *)
Lemma appended_one s c d l' rc :
  appended s [c] d l' rc -> (0 <= room c) ->
  let k := Nat.min (Z.to_nat (room c)) (length d) in
  exists c' l2 rest, l' = c' :: l2 /\ frag c' = frag c ++ take k d /\ data l2 ++ rest = drop k d /\ (rc = 0 <-> rest = []) /\
    (drop k d = [] -> l2 = []).
Proof.
  intros (c0 & c1 & n & bl & Hc0 & Hc1 & _ & Ha & _) Hr k. injection Hc1 as <-. cbn [map] in Ha. unfold Mbuf.os_mbuf_append in Ha.
  fold k in Ha. pose proof (append_new_flat (Z.to_nat n) (Z.to_nat (nfree s (om_omp c0.2))) (drop k d)) as Hx.
  assert (Hnil : drop k d = [] -> (append_new (Z.to_nat n) (Z.to_nat (nfree s (om_omp c0.2))) (drop k d)).1 = []).
  { intros ->. now destruct (Z.to_nat (nfree s (om_omp c0.2))). }
  destruct (append_new _ _ _) as [fs rest]. destruct Hx as [Hx _]. cbn [append_last app] in Ha. injection Ha as Hm <-.
  destruct l' as [|c' l2]; [done|]. cbn [map] in Hm. injection Hm as Hf Hl2. exists c', l2, rest. split; [done|]. split; [done|].
  split; [unfold data; now rewrite <- Hl2|]. split; [destruct rest; cbn; split; intros; done || lia|].
  intros E. apply Hnil in E. cbn in E. subst fs. now destruct l2.
Qed.

(** There was enough room. *)
Lemma appended_room s l d l' rc i n bl :
  appended s l d l' rc -> in_pool i l -> geo !! i = Some (n, bl) ->
  0 <= n -> 0 <= nfree s i -> Z.of_nat (length d) <= n * nfree s i -> rc = 0.
Proof.
  intros (c0 & c1 & n' & bl' & Hc0 & _ & Hg & Ha & _) Hi Hg' Hn Hfr Hlen. destruct l as [|c l]; [done|]. injection Hc0 as <-.
  apply Forall_cons in Hi as [Hi _]. rewrite Hi, Hg' in *. injection Hg as <- <-.
  destruct (append_flat (map frag (c :: l)) (Z.to_nat (room c1)) (Z.to_nat n) (Z.to_nat (nfree s i)) d)
    as (m' & rc' & k & E & _ & _ & _ & Hr); [done|]. rewrite Ha in E. injection E as _ ->. apply Hr, Nat2Z.inj_le.
  rewrite Nat2Z.inj_add, Nat2Z.inj_mul, (Z2Nat.id n), (Z2Nat.id (nfree s i)) by done. lia.
Qed.

(** How many bytes can be appended to a chain: the room of its last buffer and the
    free buffers of [n] bytes. *)
Definition last_room (l : list cell) : Z := match last l with Some c => room c | None => 0 end.

Definition space (s : mheap) (i n : Z) (l : list cell) : Z := last_room l + n * nfree s i.

Lemma append_new_amount databuf avail d :
  length (append_new databuf avail d).2 = (length d - databuf * avail)%nat.
Proof.
  revert d. induction avail as [|avail IH]; intros [|x d]; try done.
  - cbn. lia.
  - cbn [append_new]. set (m := Nat.min databuf _). specialize (IH (drop m (x :: d))).
    destruct (append_new _ _ _) as [fs rest]. cbn [snd] in *. rewrite IH, length_drop. unfold m. nia.
Qed.

Lemma room_nonneg c : cell_wf c -> 0 <= room c.
Proof. intros [(n & bl & _ & _ & _ & Hn & Hd) _ _ _]. unfold room. lia. Qed.

Lemma last_room_nonneg s l F : own s (l ++ F) -> 0 <= last_room l.
Proof.
  intros H. unfold last_room. destruct (last l) as [c|] eqn:E; [|done]. apply room_nonneg, (own_wf geo _ _ _ H).
  apply elem_of_app. left. now apply last_Some_elem_of.
Qed.

(** The exact amount that is appended. *)
Lemma appended_amount s l F d l' rc i n bl :
  own s (l ++ F) -> appended s l d l' rc -> in_pool i l -> geo !! i = Some (n, bl) ->
  Z.of_nat (length (data l')) = Z.of_nat (length (data l)) + Z.min (Z.of_nat (length d)) (space s i n l) /\
  rc = if Z.of_nat (length d) <=? space s i n l then 0 else OS_ENOMEM.
Proof.
  intros H Hap Hi Hg. destruct (own_pool geo _ _ _ _ _ H Hg) as (_ & _ & _ & _ & Hn). pose proof (own_nfree_size geo _ _ _ _ _ H Hg) as Hfr.
  pose proof (last_room_nonneg _ _ _ H) as Hr. destruct (appended_flat _ _ _ _ _ Hap) as (k & Hd & Hk & Hrc & Hrcv & _).
  destruct Hap as (c0 & c1 & n' & bl' & Hc0 & Hc1 & Hg' & Ha & _). destruct l as [|c l]; [done|]. injection Hc0 as <-.
  unfold space, last_room in *. rewrite Hc1 in *.
  apply Forall_cons in Hi as [Hi _]. rewrite Hi, Hg in *. injection Hg' as <- <-. unfold Mbuf.os_mbuf_append in Ha.
  pose proof (append_new_amount (Z.to_nat n) (Z.to_nat (nfree s i)) (drop (Nat.min (Z.to_nat (room c1)) (length d)) d)) as Hm.
  pose proof (append_new_flat (Z.to_nat n) (Z.to_nat (nfree s i)) (drop (Nat.min (Z.to_nat (room c1)) (length d)) d)) as Hx.
  destruct (append_new _ _ _) as [fs rest]. cbn [snd] in Hm.
  assert (Hl' : append_last (map frag (c :: l)) (take (Nat.min (Z.to_nat (room c1)) (length d)) d) ++ fs = map frag l') by congruence.
  apply (f_equal snd) in Ha as Hrc'. cbn [snd] in Hrc'. clear Ha. destruct Hx as [Hx _].
  apply (f_equal length) in Hx. rewrite length_app, length_drop in Hx. rewrite length_drop in Hm.
  assert (Hlen : length (data l') = (length (data (c :: l)) + Nat.min (Z.to_nat (room c1)) (length d) + length (concat fs))%nat).
  { unfold data at 1. rewrite <- Hl', concat_app, append_last_flat by done. unfold data. rewrite !length_app, length_take. cbn [map]. lia. }
  assert (Hmul : Z.of_nat (Z.to_nat n * Z.to_nat (nfree s i)) = n * nfree s i) by (rewrite Nat2Z.inj_mul, !Z2Nat.id; lia).
  split; [lia|]. rewrite <- Hrc'.
  destruct (Nat.eqb_spec (length rest) 0), (Z.leb_spec (Z.of_nat (length d)) (room c1 + n * nfree s i)); lia || done.
Qed.

(** ** Appending a part of another chain *)

(** What [os_mbuf_appendfrom] does: the first [k] bytes of the range are appended; all
    of it on success, and otherwise either the source is too short or a pool is empty. *)
Definition appended_from (l : list cell) (range : list Z) (len : Z) (l' : list cell) (rc : Z) : Prop :=
  exists k, data l' = data l ++ take k range /\ phead l' = bump (Z.of_nat k) (phead l) /\
    (k <= length range)%nat /\ (rc = 0 <-> k = Z.to_nat len) /\
    (rc = 0 \/ (rc = OS_EINVAL /\ (length range < Z.to_nat len)%nat) \/ rc = OS_ENOMEM).

Lemma appendfrom_loop_spec fuel s p l cur l2 off len F Q :
  l <> [] -> own s (l ++ F) -> seg p l 0 -> l2 ⊆ F -> seg cur l2 0 -> (length l2 < fuel)%nat ->
  match l2 with [] => True | c :: _ => 0 <= off <= om_len c.2 end -> 0 <= len < 2 ^ 16 ->
  (forall s' l' rc, own s' (l' ++ F) -> seg p l' 0 -> l' <> [] ->
     appended_from l (slice (Z.to_nat off) (Z.to_nat len) (data l2)) len l' rc ->
     (forall i, in_pool i l -> in_pool i l') -> Q rc s') ->
  wp (appendfrom_loop fuel p cur off len) Q s.
Proof.
  revert s l cur l2 off len Q. induction fuel as [|fuel IH]; intros s l cur l2 off len Q Hn H Hs Hl2 Hs2 Hf Hoff Hlen HQ; [lia|].
  cbn [appendfrom_loop]. destruct (Z.leb_spec len 0).
  { apply wp_ret. apply (HQ s l 0); auto. exists 0%nat. replace len with 0 by lia. unfold slice. cbn.
    rewrite app_nil_r, phead_bump_0. split; [done|]. split; [done|]. split; [lia|]. split; [done|]. auto. }
  destruct l2 as [|[a b] l2].
  { cbn in Hs2. subst cur. cbn [Z.eqb]. apply wp_ret. apply (HQ s l OS_EINVAL); auto. exists 0%nat. unfold slice. cbn.
    rewrite drop_nil, take_nil. cbn. rewrite app_nil_r, phead_bump_0. split; [done|]. split; [done|]. split; [lia|].
    split; [unfold OS_EINVAL; lia|]. right. left. split; [done|lia]. }
  destruct Hs2 as [-> Hs2]. cbn [fst snd length] in *. assert (Hc : (a, b) ∈ l ++ F) by (apply elem_of_app; right; apply Hl2; left).
  pose proof (own_pos geo _ _ _ H Hc) as Hpos. cbn [fst] in Hpos. destruct (Z.eqb_spec a 0); [lia|].
  pose proof (own_wf geo _ _ _ H Hc) as Hw. pose proof (om_len_bound geo (a, b) (proj1 H) Hw) as Hb. cbn [snd] in Hb.
  pose proof (length_frag geo (a, b) Hw) as Hfl. cbn [snd] in Hfl.
  apply wp_bind, (wp_load geo s (l ++ F) a b); [done..|]. cbv zeta. set (k1 := Z.min len (om_len b - off)).
  rewrite (u16_small k1) by lia. apply wp_bind, (wp_mread_frag geo s (l ++ F) a b off k1); [done|done|lia..|].
  set (bs := slice (Z.to_nat off) (Z.to_nat k1) (frag (a, b))).
  assert (Hbs : length bs = Z.to_nat k1) by (apply length_slice; lia).
  assert (Hrange : slice (Z.to_nat off) (Z.to_nat len) (data ((a, b) :: l2)) =
    bs ++ slice 0 (Z.to_nat (len - k1)) (data l2)).
  { rewrite data_cons. unfold bs, slice. rewrite drop_0, drop_app_le by lia. rewrite take_app, length_drop.
    f_equal; [|f_equal; lia]. destruct (Z.le_ge_cases len (om_len b - off)).
    - f_equal. lia.
    - rewrite !take_ge; [done|rewrite length_drop; lia..]. }
  apply wp_bind, (wp_append s p l F bs); [done..|]. intros s1 l1 rc1 H1 Hs1 Hap Hpl1.
  destruct (appended_flat _ _ _ _ _ Hap) as (k & Hd & Hk & Hrc & Hrcv & Hph & Hn1).
  destruct (Z.eqb_spec rc1 0) as [E|E]; cbn [negb].
  - assert (k = Z.to_nat k1) as -> by (rewrite <- Hbs; now apply Hrc). rewrite take_ge in Hd by lia.
    assert (Hc1 : (a, b) ∈ l1 ++ F) by (apply elem_of_app; right; apply Hl2; left).
    apply wp_bind, (wp_load geo s1 (l1 ++ F) a b); [done..|]. rewrite u16_small by lia.
    apply (IH s1 l1 (om_next b) l2 0 (len - k1)); [done|done|done|intros c Hin; apply Hl2; now right|done|lia| |lia|].
    { destruct l2 as [|c l2]; [done|]. pose proof (own_wf geo _ _ c H ltac:(apply elem_of_app; right; apply Hl2; right; left)) as [_ ? _ _]. lia. }
    intros s2 l2' rc2 H2 Hs2' Hn2 (k2 & Hd2 & Hp2 & Hk2 & Hrc2 & Hv2) Hpl2. apply (HQ s2 l2'); auto.
    change (Z.to_nat 0) with 0%nat in *.
    exists (Z.to_nat k1 + k2)%nat. rewrite Hrange, length_app. split; [|split; [|split; [lia|split]]].
    + rewrite Hd2, Hd, <- app_assoc. f_equal. rewrite <- Hbs, take_app_add. done.
    + rewrite Hp2, Hph, bump_bump. f_equal. lia.
    + rewrite Hrc2. split; lia.
    + destruct Hv2 as [? |[[? ?]|?]]; auto. right. left. split; [done|lia].
  - apply wp_ret, (HQ s1 l1); auto. exists k. rewrite Hrange. split; [rewrite take_app_le by lia; done|].
    split; [done|]. rewrite length_app. split; [lia|]. split; [lia|]. destruct Hrcv; auto.
Qed.

Lemma wp_appendfrom s p l q l2 off len F Q :
  l <> [] -> own s (l ++ l2 ++ F) -> seg p l 0 -> seg q l2 0 -> 0 <= off -> 0 <= len < 2 ^ 16 ->
  (forall s' l' rc, own s' (l' ++ l2 ++ F) -> seg p l' 0 -> l' <> [] ->
     appended_from l (slice (Z.to_nat off) (Z.to_nat len) (data l2)) len l' rc ->
     (forall i, in_pool i l -> in_pool i l') -> Q rc s') ->
  wp (os_mbuf_appendfrom p q off len) Q s.
Proof.
  intros Hn H Hs Hs2 Ho Hlen HQ. apply wp_bind, (wp_off geo s q l2 (l ++ F)); [perm|done|done|].
  intros [cur o] [[Hshort E]|(l3 & b & l4 & -> & Ho2 & Eo & Hlast)]; cbn [fst snd] in *.
  - subst cur. apply wp_fuel, (appendfrom_loop_spec _ s p l 0 [] o len (l2 ++ F));
      [done|done|done|intros c []%not_elem_of_nil|done|cbn; lia|done|done|].
    intros s' l' rc H' Hs' Hn' Hap Hpl. apply (HQ s' l'); auto. change (data []) with (@nil Z) in Hap.
    unfold slice in *. rewrite drop_nil, take_nil in Hap.
    rewrite drop_ge, take_nil; [done|]. destruct Hshort as [-> |]; [cbn|]; lia.
  - assert (Hs4 : seg cur ((cur, b) :: l4) 0).
    { apply seg_app in Hs2 as (r & _ & Hr). cbn in Hr |- *. split; [done|apply Hr]. }
    assert (Hsub : (cur, b) :: l4 ⊆ (l3 ++ (cur, b) :: l4) ++ F) by (intros c Hc; rewrite !elem_of_app; auto).
    apply wp_fuel, (appendfrom_loop_spec _ s p l cur ((cur, b) :: l4) o len ((l3 ++ (cur, b) :: l4) ++ F));
      [done|done|done|done|done| |done|done|].
    { pose proof (own_length geo s _ H) as Hl. rewrite !length_app in Hl. cbn [length] in *. lia. }
    intros s' l' rc H' Hs' Hn' Hap Hpl. apply (HQ s' l'); auto. rewrite data_app. unfold slice in *.
    rewrite drop_app_ge by lia. replace (Z.to_nat off - length (data l3))%nat with (Z.to_nat o) by lia. exact Hap.
Qed.
End Append.
