(* ===== verification/MbufDup.v ===== *)
(** * Extending and duplicating chains

    [os_mbuf_get_pkthdr], [os_mbuf_extend] and [os_mbuf_dup] on owned chains. *)
From stdpp Require Import base tactics numbers list gmap.
From Stdlib Require Import ZArith Lia.
From S2P Require Import Prelude Mempool Mbuf MbufHeap MbufLogic MbufChain MbufAppend.
Local Open Scope Z_scope.

Section Dup.
  Context {CF : MempoolConf} (geo : gmap Z (Z * list Z)).
  Local Abbreviation own := (own geo) (only parsing).
  Local Abbreviation cell_wf := (cell_wf geo) (only parsing).

(** ** More data in the last buffer *)
Lemma frag_grow a b n :
  cell_wf (a, b) -> om_len b <= n ->
  frag (a, set_om_len n b) = frag (a, b) ++
    slice (Z.to_nat (doff (a, b)) + Z.to_nat (om_len b)) (Z.to_nat (n - om_len b)) (om_databuf b).
Proof.
  intros [_ Hl _ _] Hn. cbn [fst snd] in *. unfold frag. change (doff (a, set_om_len n b)) with (doff (a, b)).
  cbn [snd set_om_len om_len om_databuf]. rewrite <- slice_add. f_equal. lia.
Qed.

Lemma seg_snoc p l c q : seg p (l ++ [c]) q <-> seg p l c.1 /\ om_next c.2 = q.
Proof. rewrite seg_app. cbn. split; [intros (r & H1 & -> & H2)|intros [H1 H2]; exists c.1]; auto. Qed.

(** The chain after [os_mbuf_extend], and the pointer that it returns. *)
Definition extended (p i len : Z) (l F : list cell) (r : Z) (s' : mheap) : Prop :=
  exists l' l1 a b x, own s' (l' ++ F) /\ seg p l' 0 /\ in_pool i l' /\ l' = l1 ++ [(a, b)] /\
    Z.of_nat (length x) = len /\ data l' = data l ++ x /\ (exists y, frag (a, b) = y ++ x) /\
    phead l' = bump len (phead l) /\ r = om_data b + om_len b - len /\ r <> 0.

(** Its last step: the header is updated. *)
Lemma wp_extend_end s p l l' l2 a b x F i len Q :
  own s (l' ++ F) -> seg p l' 0 -> in_pool i l' -> l' = l2 ++ [(a, b)] -> Z.of_nat (length x) = len ->
  data l' = data l ++ x -> (exists y, frag (a, b) = y ++ x) -> phead l' = phead l -> 0 < a ->
  (forall s' r, extended p i len l F r s' -> Q r s') ->
  wp (add_pktlen p len;; mret (om_data b + om_len b - len)) Q s.
Proof.
  intros H Hs Hp -> Hx Hd [y Hy] Hph Ha HQ.
  assert (Hw : cell_wf (a, b)) by (apply (own_wf geo _ _ _ H); rewrite !elem_of_app, list_elem_of_singleton; tauto).
  assert (Hx0 : om_data b + om_len b - len <> 0).
  { pose proof (length_frag geo (a, b) Hw) as Hfl. rewrite Hy, length_app in Hfl. cbn [snd] in Hfl.
    destruct Hw as [_ _ Hh _]. unfold doff, MBUF_SIZE in Hh. cbn [fst snd] in Hh. lia. }
  apply wp_bind. destruct l2 as [|[a3 b3] l2]; cbn [app] in *; destruct Hs as [-> Hs]; cbn [fst snd] in *;
    apply Forall_cons in Hp as [Hp1 Hp2]; cbn [phead] in Hph.
  - apply (wp_add_pktlen geo s [] F a b); [done|]. intros s2 db H2 Hpk Hfr _ _. apply wp_ret, HQ.
    exists [(a, set_om_databuf db b)], [], a, (set_om_databuf db b), x. rewrite Hfr. cbn [phead]. rewrite Hpk, Hph.
    do 2 (split; [done|]). split; [now constructor|]. do 2 (split; [done|]).
    split; [rewrite <- Hd, !data_cons; now rewrite Hfr|]. split; [eauto|done].
  - apply (wp_add_pktlen geo s [] ((l2 ++ [(a, b)]) ++ F) a3 b3); [done|]. intros s2 db H2 Hpk Hfr _ _. apply wp_ret, HQ.
    exists ((a3, set_om_databuf db b3) :: l2 ++ [(a, b)]), ((a3, set_om_databuf db b3) :: l2), a, b, x.
    cbn [phead]. rewrite Hpk, Hph. do 2 (split; [done|]). split; [now constructor|]. do 2 (split; [done|]).
    split; [rewrite <- Hd, !data_cons; now rewrite Hfr|]. split; [eauto|done].
Qed.

(** The part behind the choice of the last buffer, which has room. *)
Lemma wp_extend_last s p l l1 a b F i len Q :
  own s (l1 ++ (a, b) :: F) -> seg p (l1 ++ [(a, b)]) 0 -> in_pool i (l1 ++ [(a, b)]) ->
  data (l1 ++ [(a, b)]) = data l -> phead (l1 ++ [(a, b)]) = phead l ->
  0 <= len -> doff (a, b) + om_len b + len <= Z.of_nat (length (om_databuf b)) ->
  (forall s' r, extended p i len l F r s' -> Q r s') ->
  wp (lb ← load a; let data := om_data lb + om_len lb in
      upd a (set_om_len (u16 (om_len lb + len)));; add_pktlen p len;; mret data) Q s.
Proof.
  intros H Hs Hp Hdl Hph Hlen Hroom HQ. pose proof (own_wf geo _ _ (a, b) H ltac:(incell)) as Hw.
  pose proof (own_pos geo _ _ (a, b) H ltac:(incell)) as Hpos. pose proof (proj1 H) as Hgeo.
  pose proof Hw as [(n & bl & Hi & _ & _ & Hn & Hd) Hl Hh _]. apply Hgeo in Hi. cbn [fst snd] in *.
  apply wp_bind, (wp_load geo s (l1 ++ (a, b) :: F) a b); [done|incell|]. cbv zeta.
  assert (Hu : u16 (om_len b + len) = om_len b + len) by (apply u16_small; lia).
  apply wp_bind, (wp_upd geo s l1 F a b); [done| |].
  { apply cell_wf_len; [done|apply u16_range|]. rewrite Hu. lia. }
  intros s1 H2 _. rewrite Hu in H2. set (b4 := set_om_len (om_len b + len) b) in *.
  replace (om_data b + om_len b) with (om_data b4 + om_len b4 - len) by (cbn; lia).
  pose proof (frag_grow a b (om_len b + len) Hw ltac:(lia)) as Hfb. fold b4 in Hfb.
  replace (om_len b + len - om_len b) with len in Hfb by lia. apply seg_snoc in Hs. rewrite data_app in Hdl.
  eapply (wp_extend_end s1 p l (l1 ++ [(a, b4)]) l1 a b4 _ F i len); [now rewrite <- app_assoc|now apply seg_snoc| |done| | |eauto| |done|exact HQ].
  - unfold in_pool in *. rewrite !Forall_app in *. split; [apply Hp|]. destruct Hp as [_ [Hp _]%Forall_cons]. now constructor.
  - rewrite length_slice; [lia|]. lia.
  - rewrite <- Hdl, data_app. cbn [data map concat]. rewrite Hfb, !app_nil_r. now rewrite app_assoc.
  - rewrite <- Hph. destruct l1; done.
Qed.

(** [os_mbuf_extend] adds [len] bytes to the end, which lie in one buffer, or returns
    null when they cannot fit into one or no block is free. *)
Lemma wp_extend s p l F len i n bl Q :
  l <> [] -> own s (l ++ F) -> seg p l 0 -> in_pool i l -> geo !! i = Some (n, bl) -> 0 <= len ->
  (n < len \/ nfree s i = 0 -> Q 0 s) ->
  (forall s' r, extended p i len l F r s' -> Q r s') ->
  wp (os_mbuf_extend p len) Q s.
Proof.
  intros Hn H Hs Hpool Hi Hlen Hno Hok. destruct l as [|c0 l0] eqn:El; [done|]. rewrite <- El in *.
  assert (Hc0 : (p, c0.2) ∈ l ++ F).
  { rewrite El in Hs. destruct Hs as [-> _]. rewrite <- surjective_pairing, El. left. }
  assert (Hi0 : om_omp c0.2 = i) by (rewrite El in Hpool; now apply Forall_cons in Hpool as [? _]). clear El.
  destruct (exists_last Hn) as (l1 & [a b] & E1).
  assert (H1 : own s (l1 ++ (a, b) :: F)) by (rewrite E1, <- app_assoc in H; exact H).
  pose proof (own_wf geo _ _ (a, b) H1 ltac:(incell)) as Hw. pose proof (own_pos geo _ _ (a, b) H1 ltac:(incell)) as Hpos.
  cbn [fst] in Hpos. assert (Hib : om_omp b = i) by (rewrite E1 in Hpool; apply Forall_app in Hpool as [_ Hp]; now apply Forall_cons in Hp as [? _]).
  pose proof Hw as [(n' & bl' & Hi' & _ & _ & Hn' & Hd) _ _ _]. cbn [fst snd] in *. rewrite Hib, Hi in Hi'. injection Hi' as <- <-.
  apply wp_bind, (wp_load geo s (l ++ F) p c0.2); [done..|]. rewrite Hi0.
  apply wp_bind, (wp_load_pool geo s (l ++ F) i n bl); [done..|]. intros pl Hpl Hr. rewrite Hpl.
  destruct (Z.ltb_spec n len); [apply wp_ret, Hno; auto|]. rewrite E1 in Hs, Hpool.
  apply wp_bind, (wp_last geo s p l1 a b F); [done..|].
  apply wp_bind, (wp_trailing geo s (l1 ++ (a, b) :: F) a b); [done|incell|].
  set (space := _ - _). destruct (Z.ltb_spec space len) as [Hsp|Hsp].
  - apply wp_bind, wp_bind. eapply (wp_get geo s _ i n bl 0); [exact H1|done|lia| |].
    + intros a' db s1 _ Hfree H2 Hdb. pose proof (own_pos geo _ _ (a', fresh a' 0 i db) H2 ltac:(left)) as Ha'. cbn [fst] in Ha'.
      destruct (Z.eqb_spec a' 0); [lia|].
      apply wp_bind, (wp_upd geo s1 l1 ((a', fresh a' 0 i db) :: F) a b); [perm|now apply cell_wf_next|].
      intros s2 H3 _. apply wp_ret. destruct (Z.eqb_spec a' 0); [lia|]. apply seg_snoc in Hs.
      apply (wp_extend_last s2 p l (l1 ++ [(a, set_om_next a' b)]) a' (fresh a' 0 i db) F i); [now rewrite <- app_assoc| | | | |lia| |exact Hok].
      * rewrite seg_snoc, seg_snoc. cbn. tauto.
      * unfold in_pool in *. rewrite !Forall_app in *. split; [split; [apply Hpool|]|]; constructor; done.
      * rewrite E1, !data_app. cbn [data map concat]. rewrite frag_next. unfold frag at 2, slice. cbn. now rewrite !app_nil_r.
      * rewrite E1. now destruct l1.
      * unfold doff. cbn. lia.
    + intros [?|Hempty]; [lia|]. cbn [Z.eqb]. apply wp_ret. cbn [Z.eqb]. apply wp_ret, Hno. auto.
  - apply wp_bind, wp_ret. destruct (Z.eqb_spec a 0); [lia|].
    apply (wp_extend_last s p l l1 a b F i); [done|done|done|now rewrite E1|now rewrite E1|lia|lia|exact Hok].
Qed.

(** ** Packet headers *)
Lemma wp_get_pkthdr s L i n bl user Q :
  own s L -> geo !! i = Some (n, bl) -> 0 <= user ->
  (forall a db s', 0 < nfree s i -> user + 8 <= n -> Z.of_nat (length db) = n ->
     own s' ((a, OsMbuf (a + MBUF_SIZE + (user + 8)) 0 (user + 8) 0 i 0 db) :: L) ->
     take 8 db = replicate 8 0 -> Q a s') ->
  (n < user + 8 \/ 247 < user \/ nfree s i = 0 -> Q 0 s) -> user < 2 ^ 15 -> wp (os_mbuf_get_pkthdr i user) Q s.
Proof.
  intros H Hi Hu Hok Hno Hu2. apply wp_bind, (wp_load_pool geo s L i n bl); [done..|]. intros p Hp Hn. rewrite Hp.
  cbv zeta. unfold PKTHDR_SIZE. rewrite u16_small by lia.
  destruct (Z.ltb_spec n (user + 8)) as [Hb1|Hb1]; cbn [orb]; [apply wp_ret, Hno; auto|].
  destruct (Z.ltb_spec 255 (user + 8)) as [Hb2|Hb2]; [apply wp_ret, Hno; lia|].
  apply wp_bind. eapply (wp_get geo s L i n bl 0); [done|done|lia| |].
  - intros a db s1 _ Hfree H1 Hdb. pose proof (own_pos geo _ _ (a, fresh a 0 i db) H1 ltac:(left)) as Ha. cbn [fst] in Ha.
    destruct (Z.eqb_spec a 0); [lia|]. apply wp_upd_upd.
    assert (Hw : cell_wf (a, OsMbuf (a + MBUF_SIZE + (user + 8)) 0 (user + 8) 0 i 0 db)).
    { pose proof (own_wf geo _ _ (a, fresh a 0 i db) H1 ltac:(left)) as [(n' & bl' & Hi' & Hin & _ & _ & _) _ _ _].
      cbn in Hi', Hin. rewrite Hi in Hi'. injection Hi' as <- <-. constructor; unfold doff, PKTHDR_SIZE; cbn; try lia.
      exists n, bl. split; [done|]. split; [done|]. split; [lia|]. split; [done|lia]. }
    apply wp_bind, (wp_upd geo s1 [] L a (fresh a 0 i db)); [done| |].
    { cbn. replace (a + MBUF_SIZE + 0 + (user + 8)) with (a + MBUF_SIZE + (user + 8)) by lia. exact Hw. }
    intros s2 H2 _. cbn in H2. replace (a + MBUF_SIZE + 0 + (user + 8)) with (a + MBUF_SIZE + (user + 8)) in H2 by lia.
    apply wp_bind, (wp_mwrite geo s2 [] L a (OsMbuf (a + MBUF_SIZE + (user + 8)) 0 (user + 8) 0 i 0 db)); [done|cbn; lia..|].
    intros s3 H3 _. apply wp_ret. cbn [app wr set_om_databuf om_databuf om_data om_flags om_pkthdr_len om_len om_omp om_next] in H3.
    eapply Hok; [done|lia| |exact H3|].
    + rewrite splice_length; [done|]. cbn. lia.
    + replace (a + MBUF_SIZE - (a + MBUF_SIZE)) with 0 by lia. done.
  - intros [? |?]; [lia|]. cbn. apply wp_ret, Hno. auto.
Qed.

Lemma pkt_copied a c o ob db :
  om_pkthdr_len c = om_pkthdr_len ob ->
  om_databuf c = splice 0 (slice 0 (Z.to_nat (om_pkthdr_len ob)) (om_databuf ob)) db ->
  om_pkthdr_len ob <= Z.of_nat (length (om_databuf ob)) -> pkt (a, c) = pkt (o, ob).
Proof.
  intros Eh Ed Hle. unfold pkt, OS_MBUF_IS_PKTHDR. cbn [snd]. rewrite Eh, Ed. set (h := om_pkthdr_len ob) in *.
  destruct (Z.leb_spec PKTHDR_SIZE h); [|done]. unfold PKTHDR_SIZE in *. set (hb := slice 0 (Z.to_nat h) (om_databuf ob)).
  assert (Hhb : length hb = Z.to_nat h) by (apply length_slice; lia). unfold splice. rewrite take_0. cbn [app].
  rewrite take_app_le, slice_app_l by lia. unfold hb. rewrite slice_slice by lia. do 4 f_equal.
  unfold slice. rewrite drop_0, take_take. f_equal. lia.
Qed.

(** The packet header of [old] is copied to an empty block. *)
Lemma wp_copypkthdr {A} (k : M A) s L1 L2 a c o ob Q :
  own s (L1 ++ (a, c) :: L2) -> (o, ob) ∈ L1 ++ L2 -> om_len c = 0 -> om_pkthdr_len ob <> 0 ->
  om_pkthdr_len ob <= Z.of_nat (length (om_databuf c)) ->
  (forall s' c', own s' (L1 ++ (a, c') :: L2) -> pkt (a, c') = pkt (o, ob) -> om_pkthdr_len c' = om_pkthdr_len ob ->
     om_data c' = a + MBUF_SIZE + om_pkthdr_len ob -> om_len c' = 0 -> om_next c' = om_next c -> om_omp c' = om_omp c ->
     length (om_databuf c') = length (om_databuf c) -> wp k Q s') ->
  wp (_os_mbuf_copypkthdr a o;; k) Q s.
Proof.
  intros H Ho Hl Hz Hle HQ. assert (Ho' : (o, ob) ∈ L1 ++ (a, c) :: L2) by (rewrite elem_of_app in *; rewrite elem_of_cons; tauto).
  pose proof (own_wf geo _ _ _ H Ho') as [(n & bl & _ & _ & _ & Hn & Hd) Hlo Hh Hhl]. cbn [fst snd] in *.
  set (h := om_pkthdr_len ob) in *. set (hb := slice 0 (Z.to_nat h) (om_databuf ob)).
  assert (Hhb : length hb = Z.to_nat h) by (apply length_slice; lia).
  pose proof (own_wf geo _ _ (a, c) H ltac:(incell)) as Hwc. pose proof Hwc as [(n' & bl' & Hi' & Ha' & Hpos & Hn' & _) _ _ _]. cbn [fst snd] in *.
  set (c' := OsMbuf (a + MBUF_SIZE + h) (om_flags c) h (om_len c) (om_omp c) (om_next c) (splice 0 hb (om_databuf c))).
  assert (Hw' : cell_wf (a, c')).
  { constructor; cbn; unfold doff; cbn; try lia. exists n', bl'. split; [done|]. split; [done|]. split; [done|].
    rewrite splice_length by lia. lia. }
  apply wp_bind. unfold _os_mbuf_copypkthdr.
  apply wp_bind, (wp_load geo s (L1 ++ (a, c) :: L2) a c); [done|incell|]. rewrite Hl. cbn [Z.eqb negb].
  apply wp_bind, (wp_load geo s (L1 ++ (a, c) :: L2) o ob); [done..|]. fold h.
  apply wp_bind, (wp_mread geo s (L1 ++ (a, c) :: L2) o ob); [done|done|lia..|].
  replace (o + MBUF_SIZE - (o + MBUF_SIZE)) with 0 by lia. change (Z.to_nat 0) with 0%nat. fold hb.
  apply wp_bind, (wp_mwrite geo s L1 L2 a c); [done|lia|lia|]. intros s1 H1 _.
  unfold wr in H1. replace (a + MBUF_SIZE - (a + MBUF_SIZE)) with 0 in H1 by lia. change (Z.to_nat 0) with 0%nat in H1.
  pose proof (upd_upd a (set_om_pkthdr_len h) (set_om_data (a + MBUF_SIZE + h)) s1) as Hu.
  assert (Hupd : wp (upd a (fun b => set_om_data (a + MBUF_SIZE + h) (set_om_pkthdr_len h b))) (fun _ => wp k Q) s1).
  { eapply (wp_upd geo s1 L1 L2); [exact H1|exact Hw'|]. intros s2 H2 _. apply (HQ s2 c' H2); try done.
    - apply (pkt_copied a c' o ob (om_databuf c)); [done|done|lia].
    - cbn. apply splice_length. lia. }
  destruct Hupd as (u & s3 & E3 & HW). exists u, s3. split; [|done]. rewrite <- Hu in E3. exact E3.
Qed.

(** ** Duplicates *)

(** A new block becomes a copy of the data of a block. *)
Lemma wp_copy_data {A} (k : M A) s L1 L2 a c o ob Q :
  own s (L1 ++ (a, c) :: L2) -> (o, ob) ∈ L1 ++ L2 -> om_len c = 0 ->
  doff (a, c) + om_len ob <= Z.of_nat (length (om_databuf c)) ->
  (forall s' c', own s' (L1 ++ (a, c') :: L2) -> frag (a, c') = frag (o, ob) -> pkt (a, c') = pkt (a, c) ->
     om_next c' = om_next c -> om_omp c' = om_omp c -> wp k Q s') ->
  wp (upd a (fun x => OsMbuf (om_data x) (om_flags ob) (om_pkthdr_len x) (om_len ob) (om_omp x) (om_next x) (om_databuf x));;
      x ← load a; bs ← mread o (om_data ob) (om_len ob); mwrite a (om_data x) bs;; k) Q s.
Proof.
  intros H Ho Hl Hfit HQ. pose proof (own_wf geo _ _ (a, c) H ltac:(incell)) as Hwc.
  assert (Ho' : forall x, (o, ob) ∈ L1 ++ (a, x) :: L2) by (intros x; rewrite elem_of_app in *; rewrite elem_of_cons; tauto).
  pose proof (own_wf geo _ _ _ H (Ho' c)) as Hwo. pose proof Hwo as [_ Hlo _ _]. cbn [snd] in Hlo.
  set (c1 := OsMbuf (om_data c) (om_flags ob) (om_pkthdr_len c) (om_len ob) (om_omp c) (om_next c) (om_databuf c)).
  assert (Hw1 : cell_wf (a, c1)).
  { destruct Hwc as [(n & bl & Hi & Ha & Hpos & Hn & Hd) _ Hh Hhl]. constructor; try done. exists n, bl. cbn [fst snd] in *.
    split; [done|]. split; [done|]. split; [done|]. split; [done|]. change (doff (a, c1)) with (doff (a, c)). cbn. lia. }
  apply wp_bind, (wp_upd geo s L1 L2 a c); [done|exact Hw1|]. intros s1 H1 _.
  apply wp_bind. eapply (wp_load geo s1 _ a c1); [exact H1|incell|].
  pose proof (length_frag geo (o, ob) Hwo) as Hfl. cbn [snd] in Hfl.
  apply wp_bind. replace (om_data ob) with (om_data ob + 0) by lia.
  eapply (wp_mread_frag geo s1 _ o ob); [exact H1|apply Ho'|lia..|]. change (Z.to_nat 0) with 0%nat.
  assert (Hs0 : slice 0 (Z.to_nat (om_len ob)) (frag (o, ob)) = frag (o, ob)) by (unfold slice; rewrite drop_0; apply take_ge; lia).
  rewrite Hs0. apply wp_bind. eapply (wp_mwrite geo s1 L1 L2 a c1); [exact H1|destruct Hwc as [_ _ Hh _]; unfold doff in Hh; cbn in *; lia| |].
  { unfold doff in Hfit. cbn in *. lia. }
  intros s2 H2 _. apply (HQ s2 _ H2); try done.
  - replace (om_data c1) with (om_data c1 + 0) by lia.
    rewrite (frag_overwrite geo a c1 0) by (done || cbn; lia). unfold splice. rewrite take_0. cbn [app Z.to_nat].
    rewrite drop_ge, app_nil_r; [done|]. pose proof (length_frag geo (a, c1) Hw1) as Hf1. cbn [snd] in Hf1. cbn in Hf1. lia.
  - rewrite (pkt_wr geo a c1); [done|done|destruct Hwc as [_ _ Hh _]; unfold doff in Hh; cbn in *; lia|].
    unfold doff in Hfit. cbn in *. lia.
Qed.

(** The fragments are copied one by one; on failure the copy is freed. *)
Lemma dup_loop_spec fuel s head cs copy cb om l l2 F i n bl Q :
  own s (cs ++ (copy, cb) :: l ++ F) -> seg head (cs ++ [(copy, cb)]) 0 -> in_pool i (cs ++ [(copy, cb)]) ->
  l2 ⊆ l -> in_pool i l2 -> seg om l2 0 -> (length l2 < fuel)%nat -> geo !! i = Some (n, bl) ->
  (forall s', own s' (l ++ F) -> nfree s i < Z.of_nat (length l2) -> Q 0 s') ->
  (forall s' v cs', own s' (cs ++ (copy, set_om_next v cb) :: cs' ++ l ++ F) -> seg v cs' 0 ->
     map frag cs' = map frag l2 -> in_pool i cs' -> Q head s') ->
  wp (dup_loop fuel i om head copy) Q s.
Proof.
  revert s cs copy cb om l2 Q. induction fuel as [|fuel IH]; intros s cs copy cb om l2 Q H Hs Hp Hl2 Hp2 Hom Hf Hi Hno Hok; [lia|].
  cbn [dup_loop]. destruct l2 as [|[a b] l2].
  { cbn in Hom. subst om. cbn [Z.eqb]. apply wp_ret. apply seg_snoc in Hs as [_ Hs]. cbn [snd] in Hs.
    apply (Hok s 0 []); [|done..|constructor]. now rewrite set_om_next_id. }
  destruct Hom as [-> Hom]. cbn [fst snd length] in *. apply Forall_cons in Hp2 as [Hb Hp2]. cbn [snd] in Hb.
  assert (Hc : (a, b) ∈ cs ++ (copy, cb) :: l ++ F) by (pose proof (Hl2 (a, b) ltac:(left)); incell).
  pose proof (own_pos geo _ _ _ H Hc) as Hpos. cbn [fst] in Hpos. destruct (Z.eqb_spec a 0); [lia|].
  pose proof (own_wf geo _ _ _ H Hc) as [(n' & bl' & Hi' & _ & _ & Hn' & Hd) Hlen Hh _]. cbn [fst snd] in *.
  rewrite Hb, Hi in Hi'. injection Hi' as <- <-.
  apply wp_bind, (wp_leading geo s (cs ++ (copy, cb) :: l ++ F) a b); [done..|].
  apply wp_bind. eapply (wp_get geo s _ i n bl); [exact H|done|lia| |].
  - intros a' db s1 _ Hfree H1 Hdb. pose proof (own_pos geo _ _ (a', fresh a' (doff (a, b) - om_pkthdr_len b) i db) H1 ltac:(left)) as Ha'. cbn [fst] in Ha'.
    pose proof (get_count geo _ _ _ i _ _ _ _ H H1 eq_refl Hi) as Hcnt.
    set (nb := fresh a' (doff (a, b) - om_pkthdr_len b) i db) in *.
    assert (H1' : own s1 (cs ++ (copy, cb) :: (a', nb) :: l ++ F)) by perm.
    apply wp_bind, (wp_upd geo s1 cs ((a', nb) :: l ++ F) copy cb); [done|apply cell_wf_next, (own_wf geo _ _ _ H1'); incell|].
    intros s2 H2 _. destruct (Z.eqb_spec a' 0); [lia|].
    assert (H2' : own s2 ((cs ++ [(copy, set_om_next a' cb)]) ++ (a', nb) :: l ++ F)) by (rewrite <- app_assoc; exact H2).
    apply wp_bind. eapply (wp_load geo s2 _ a b); [exact H2'|pose proof (Hl2 (a, b) ltac:(left)); incell|].
    apply (wp_copy_data _ s2 (cs ++ [(copy, set_om_next a' cb)]) (l ++ F) a' nb a b); [done| |done| |].
    { pose proof (Hl2 (a, b) ltac:(left)); incell. }
    { unfold nb, fresh, doff at 1. cbn. lia. }
    intros s3 c3 H3 Hf3 _ Hn3 Ho3.
    assert (Hnf : nfree s3 i = nfree s1 i).
    { eapply (nfree_same geo s1 s3 (cs ++ (copy, cb) :: (a', nb) :: l ++ F)); [exact H1'|exact H3|exact Hi|].
      rewrite !map_app, <- !app_assoc. cbn [map snd app set_om_next om_omp]. now rewrite Ho3. }
    apply (IH s3 (cs ++ [(copy, set_om_next a' cb)]) a' c3 (om_next b) l2); auto; [| |intros x Hx; apply Hl2; now right|lia| |].
    + apply seg_snoc in Hs as [Hs _]. rewrite !seg_snoc. cbn [fst snd set_om_next om_next]. rewrite Hn3. auto.
    + unfold in_pool in *. rewrite !Forall_app in *. destruct Hp as [Hp1 Hp3]. apply Forall_cons in Hp3 as [Hp3 _].
      split; [split; [done|]|]; constructor; try done.
    + intros s4 H4 Hlt. apply Hno; [done|lia].
    + intros s4 v cs' H4 Hs4 Hf4 Hp4. apply (Hok s4 a' ((a', set_om_next v c3) :: cs')).
      * rewrite <- app_assoc in H4. exact H4.
      * split; [done|exact Hs4].
      * cbn [map]. now rewrite frag_next, Hf3, Hf4.
      * constructor; [cbn; now rewrite Ho3|done].
  - intros [? |Hfree]; [lia|]. apply seg_snoc in Hs as [Hs Hn0]. cbn [snd] in Hn0.
    apply wp_bind, (wp_upd geo s cs (l ++ F) copy cb); [done|apply cell_wf_next, (own_wf geo _ _ _ H); incell|].
    intros s1 H1 _. rewrite set_om_next_id in H1 by done. cbn [Z.eqb].
    apply wp_bind, (wp_free_chain geo s1 head (cs ++ [(copy, cb)]) (l ++ F)); [now rewrite <- app_assoc|apply seg_snoc; auto|].
    intros s2 H2. apply wp_ret, Hno; [done|lia].
Qed.

Lemma wp_dup s p l F i n bl Q :
  l <> [] -> own s (l ++ F) -> seg p l 0 -> in_pool i l -> geo !! i = Some (n, bl) ->
  (forall s', own s' (l ++ F) -> nfree s i < Z.of_nat (length l) -> Q 0 s') ->
  (forall s' r l', own s' (l' ++ l ++ F) -> seg r l' 0 -> l' <> [] -> map frag l' = map frag l ->
     phead l' = phead l -> in_pool i l' -> Q r s') ->
  wp (os_mbuf_dup p) Q s.
Proof.
  intros Hn H Hs Hp Hi Hno Hok. destruct l as [|[a b] l]; [done|]. destruct Hs as [-> Hs]. cbn [fst snd] in *.
  pose proof Hp as Hp0. apply Forall_cons in Hp0 as [Hb Hp2]. cbn [snd] in Hb.
  pose proof (own_wf geo _ _ (a, b) H ltac:(left)) as [(n' & bl' & Hi' & _ & _ & Hn' & Hd) Hlen Hh Hhl]. cbn [fst snd] in *.
  rewrite Hb, Hi in Hi'. injection Hi' as <- <-.
  apply wp_bind, (wp_load geo s (((a, b) :: l) ++ F) a b); [done|left|]. rewrite Hb.
  apply wp_bind, (wp_leading geo s (((a, b) :: l) ++ F) a b); [done|left|].
  apply wp_bind. eapply (wp_get geo s _ i n bl); [exact H|done|lia| |].
  - intros a' db s1 _ Hfree H1 Hdb. set (nb := fresh a' (doff (a, b) - om_pkthdr_len b) i db) in *.
    pose proof (own_pos geo _ _ (a', nb) H1 ltac:(left)) as Ha'. cbn [fst] in Ha'.
    pose proof (get_count geo _ _ _ i _ _ _ _ H H1 eq_refl Hi) as Hcnt. destruct (Z.eqb_spec a' 0); [lia|].
    (* the rest, from the block with the header on *)
    assert (Hrest : forall s2 c, own s2 ((a', c) :: ((a, b) :: l) ++ F) -> om_len c = 0 -> om_next c = 0 -> om_omp c = i ->
      doff (a', c) + om_len b <= Z.of_nat (length (om_databuf c)) -> pkt (a', c) = pkt (a, b) ->
      wp (upd a' (fun x => OsMbuf (om_data x) (om_flags b) (om_pkthdr_len x) (om_len b) (om_omp x) (om_next x) (om_databuf x));;
          x ← load a'; bs ← mread a (om_data b) (om_len b); mwrite a' (om_data x) bs;;
          with_fuel (fun n => dup_loop n i (om_next b) a' a')) Q s2).
    { intros s2 c H2 Hl0 Hn0 Hc Hfit Hpk.
      apply (wp_copy_data _ s2 [] (((a, b) :: l) ++ F) a' c a b); [exact H2|left|done|done|].
      intros s3 c3 H3 Hf3 Hp3 Hn3 Ho3. cbn [app] in H3.
      assert (Hnf : nfree s3 i = nfree s1 i).
      { eapply (nfree_same geo s1 s3); [exact H1|exact H3|exact Hi|]. cbn [map app snd]. unfold nb. cbn. congruence. }
      apply wp_fuel, (dup_loop_spec _ s3 a' [] a' c3 (om_next b) ((a, b) :: l) l F i n bl); auto.
      - cbn. split; [done|congruence].
      - constructor; [cbn; congruence|constructor].
      - intros x Hx. now right.
      - pose proof (own_length geo _ _ H3) as Hl. cbn in Hl. rewrite length_app in Hl. lia.
      - intros s4 H4 Hlt. apply Hno; [done|cbn; lia].
      - intros s4 v cs' H4 Hs4 Hf4 Hp4. apply (Hok s4 a' ((a', set_om_next v c3) :: cs')); try done.
        + cbn [map]. now rewrite frag_next, Hf3, Hf4.
        + cbn. rewrite pkt_next. congruence.
        + constructor; [cbn; congruence|done]. }
    destruct (OS_MBUF_IS_PKTHDR b) eqn:Eh.
    + unfold OS_MBUF_IS_PKTHDR, PKTHDR_SIZE in Eh. apply Z.leb_le in Eh.
      apply (wp_copypkthdr _ s1 [] (((a, b) :: l) ++ F) a' nb a b); [exact H1|left|done|lia|cbn; lia|].
      intros s2 c H2 Hpk Hhc Hdc Hlc Hnc Hoc Hbc. apply (Hrest s2 c); try done. unfold doff at 1. cbn [fst snd]. rewrite Hdc, Hbc. cbn. lia.
    + apply wp_bind, wp_ret. apply (Hrest s1 nb); try done.
      * unfold nb, fresh, doff at 1. cbn. lia.
      * unfold pkt. cbn [snd]. rewrite Eh. done.
  - intros [? |Hfree]; [lia|]. cbn [Z.eqb]. apply wp_ret, Hno; [done|]. cbn. lia.
Qed.
End Dup.
