(* ===== verification/MbufTrim.v ===== *)
(** * Trimming chains

    [os_mbuf_adj] and [os_mbuf_trim_front] on owned chains. *)
From stdpp Require Import base tactics numbers list gmap.
From Stdlib Require Import ZArith Lia.
From S2P Require Import Prelude Mempool Mbuf MbufHeap MbufEdit MbufLogic MbufChain MbufAppend MbufDup.
Local Open Scope Z_scope.

(** The length field of a header is the length of the data. *)
Definition synced (l : list cell) : Prop :=
  match phead l with Some (h, _) => h = u16 (Z.of_nat (length (data l))) | None => True end.

(** The header apart from the length field. *)
Definition ptail (l : list cell) : option (list Z) := option_map snd (phead l).

Lemma synced_bump l l' d :
  phead l' = bump d (phead l) -> Z.of_nat (length (data l')) = Z.of_nat (length (data l)) + d ->
  synced l -> synced l'.
Proof.
  unfold synced. intros -> E. destruct (phead l) as [[h r]|]; [|done]. cbn. intros ->. rewrite E. clia.
Qed.

Lemma ptail_bump l l' d : phead l' = bump d (phead l) -> ptail l' = ptail l.
Proof. unfold ptail. intros ->. now destruct (phead l) as [[]|]. Qed.

(** The same blocks with the same links, headers and pools. *)
Record same_frame (l l' : list cell) : Prop := SameFrame {
  sf_addr : l'.*1 = l.*1;
  sf_next : map (fun c => om_next c.2) l' = map (fun c => om_next c.2) l;
  sf_pkt : map pkt l' = map pkt l;
  sf_pool : map (fun c => om_omp c.2) l' = map (fun c => om_omp c.2) l;
}.

Lemma same_frame_refl l : same_frame l l.
Proof. done. Qed.

Lemma same_frame_cons a b b' l l' :
  om_next b' = om_next b -> pkt (a, b') = pkt (a, b) -> om_omp b' = om_omp b -> same_frame l l' ->
  same_frame ((a, b) :: l) ((a, b') :: l').
Proof. intros H1 H2 H3 []. constructor; cbn; congruence. Qed.

Lemma same_frame_seg p l l' q : same_frame l l' -> seg p l q -> seg p l' q.
Proof.
  intros [Ha Hn _ _]. revert p l' Ha Hn. induction l as [|[a b] l IH]; intros p [|[a' b'] l'] Ha Hn; try done.
  cbn in *. injection Ha as -> Ha. injection Hn as -> Hn. intros [-> Hs]. split; [done|]. now apply IH.
Qed.

Lemma same_frame_phead l l' : same_frame l l' -> phead l' = phead l.
Proof. intros [_ _ Hp _]. destruct l, l'; cbn in *; congruence. Qed.

Lemma same_frame_pool i l l' : same_frame l l' -> in_pool i l -> in_pool i l'.
Proof.
  intros [_ _ _ Hp]. unfold in_pool. revert l' Hp. induction l as [|c l IH]; intros [|c' l'] Hp Hi; try done.
  cbn in Hp. injection Hp as Hc Hp. apply Forall_cons in Hi as [Hi1 Hi2]. constructor; [congruence|auto].
Qed.

Lemma same_frame_nil l l' : same_frame l l' -> l <> [] -> l' <> [].
Proof. intros [Ha _ _ _]. destruct l, l'; cbn in *; congruence. Qed.

Section Trim.
  Context {CF : MempoolConf} (geo : gmap Z (Z * list Z)).
  Local Abbreviation own := (own geo) (only parsing).
  Local Abbreviation cell_wf := (cell_wf geo) (only parsing).

(** ** From the head *)
Lemma frag_len_0 a b : frag (a, set_om_len 0 b) = [].
Proof. done. Qed.

Lemma frag_advance a b n d :
  cell_wf (a, b) -> 0 <= n <= om_len b -> d = om_data b + n ->
  frag (a, set_om_data d (set_om_len (om_len b - n) b)) = drop (Z.to_nat n) (frag (a, b)).
Proof.
  intros [_ Hl Hh _] Hn ->. cbn [fst snd] in *. unfold frag, doff in *. cbn in *. unfold slice.
  rewrite skipn_firstn_comm, drop_drop. f_equal; [lia|]. f_equal. lia.
Qed.

Lemma adj_head_spec fuel s L1 m l F len Q :
  own s (L1 ++ l ++ F) -> seg m l 0 -> (length l < fuel)%nat -> 0 <= len ->
  (forall s' l', own s' (L1 ++ l' ++ F) -> same_frame l l' -> data l' = drop (Z.to_nat len) (data l) ->
     Q (Z.max 0 (len - Z.of_nat (length (data l)))) s') ->
  wp (adj_head_loop fuel m len) Q s.
Proof.
  revert s L1 m l len Q. induction fuel as [|fuel IH]; intros s L1 m l len Q H Hs Hf Hlen HQ; [lia|]. cbn [adj_head_loop].
  destruct l as [|[a b] l].
  { cbn in Hs. subst m. cbn [Z.eqb orb]. apply wp_ret. replace len with (Z.max 0 (len - Z.of_nat (length (data [])))) by (cbn; lia).
    apply (HQ s []); [done|apply same_frame_refl|]. cbn. now rewrite drop_nil. }
  destruct Hs as [-> Hs]. cbn [fst snd length] in *. cbn [app] in H.
  pose proof (own_pos geo _ _ (a, b) H ltac:(incell)) as Hpos. cbn [fst] in Hpos. destruct (Z.eqb_spec a 0); [lia|]. cbn [orb].
  pose proof (own_wf geo _ _ (a, b) H ltac:(incell)) as Hw. pose proof (length_frag geo (a, b) Hw) as Hfl. cbn [snd] in Hfl.
  pose proof (om_len_bound geo (a, b) (proj1 H) Hw) as Hlb. cbn [snd] in Hlb.
  destruct (Z.leb_spec len 0) as [Hz|Hz].
  { apply wp_ret. replace len with (Z.max 0 (len - Z.of_nat (length (data ((a, b) :: l))))) by lia.
    apply (HQ s ((a, b) :: l)); [done|apply same_frame_refl|]. now replace len with 0 by lia. }
  apply wp_bind, (wp_load geo s (L1 ++ (a, b) :: l ++ F) a b); [done|incell|].
  destruct (Z.leb_spec (om_len b) len) as [Hle|Hlt].
  - apply wp_bind, (wp_upd geo s L1 (l ++ F) a b); [done|apply cell_wf_len; [done|lia|]|].
    { destruct Hw as [(n' & bl & _ & _ & _ & Hn' & Hd) Hl Hh _]. cbn [fst snd] in *. lia. }
    intros s1 H1 _. apply (IH s1 (L1 ++ [(a, set_om_len 0 b)]) (om_next b) l); [now rewrite <- app_assoc|done|lia|lia|].
    intros s2 l' H2 Hsf Hd. rewrite data_cons, length_app in HQ.
    replace (len - om_len b - Z.of_nat (length (data l))) with (len - Z.of_nat (length (frag (a, b)) + length (data l))) by lia.
    apply (HQ s2 ((a, set_om_len 0 b) :: l')); [now rewrite <- app_assoc in H2|now apply same_frame_cons|].
    rewrite data_cons, frag_len_0, Hd. cbn [app]. rewrite drop_app_ge by lia. f_equal. lia.
  - apply wp_upd_upd. apply wp_bind, (wp_upd geo s L1 (l ++ F) a b); [done| |].
    { rewrite u16_small by lia. cbn. destruct Hw as [(n' & bl & Hg & Ha & _ & Hn' & Hd) Hl Hh Hhl]. cbn [fst snd] in *.
      unfold doff in *. cbn [fst snd] in *. constructor; unfold doff; cbn; try lia; try done. exists n', bl.
      split; [done|]. split; [done|]. split; [done|]. split; [done|lia]. }
    intros s1 H1 _. rewrite u16_small in H1 by lia. cbn [set_om_len om_data] in H1.
    assert (Hfr : frag (a, set_om_data (om_data b + len) (set_om_len (om_len b - len) b)) = drop (Z.to_nat len) (frag (a, b)))
      by (apply frag_advance; [done|lia|done]).
    destruct fuel as [|fuel]; [lia|]. cbn [adj_head_loop]. rewrite orb_true_r. apply wp_ret.
    rewrite data_cons, length_app in HQ.
    replace (Z.max 0 (len - Z.of_nat (length (frag (a, b)) + length (data l)))) with 0 in HQ by lia.
    apply (HQ s1 ((a, set_om_data (om_data b + len) (set_om_len (om_len b - len) b)) :: l)); [done|now apply same_frame_cons|].
    rewrite data_cons, Hfr. symmetry. apply drop_app_le. lia.
Qed.

(** ** From the tail *)
Lemma adj_count_spec fuel s p l a b L count :
  own s L -> (l ++ [(a, b)]) ⊆ L -> seg p (l ++ [(a, b)]) 0 -> (length l < fuel)%nat ->
  adj_count_loop fuel p count s = Ok ((a, count + Z.of_nat (length (data (l ++ [(a, b)])))), s).
Proof.
  revert p fuel count. induction l as [|[a' b'] l IH]; intros p fuel count H Hl Hs Hf;
    (destruct fuel as [|fuel]; [cbn in Hf; lia|]); cbn [adj_count_loop].
  - destruct Hs as [-> Hs]. cbn [fst snd seg] in *. unfold mbind, M_bind. assert (Hc : (a, b) ∈ L) by (apply Hl; left).
    rewrite (own_load geo s L a b H Hc). rewrite Hs. cbn [Z.eqb]. pose proof (length_frag geo (a, b) (own_wf geo _ _ _ H Hc)) as Hfl.
    cbn [snd] in Hfl. cbn. rewrite app_nil_r. unfold mret, M_ret. do 3 f_equal. lia.
  - destruct Hs as [-> Hs]. cbn [fst snd length] in *. unfold mbind, M_bind. assert (Hc : (a', b') ∈ L) by (apply Hl; left).
    rewrite (own_load geo s L a' b' H Hc). pose proof (length_frag geo (a', b') (own_wf geo _ _ _ H Hc)) as Hfl. cbn [snd] in Hfl.
    assert (Hl' : l ++ [(a, b)] ⊆ L) by (intros c Hin; apply Hl; now right).
    pose proof (seg_nonzero geo s _ _ _ L H Hl' Hs ltac:(now destruct l)).
    destruct (Z.eqb_spec (om_next b') 0); [done|]. cbn [app].
    assert (Hd : length (data ((a', b') :: l ++ [(a, b)])) = (length (frag (a', b')) + length (data (l ++ [(a, b)])))%nat)
      by (now rewrite data_cons, length_app).
    rewrite IH; [|done|done|done|lia]. do 3 f_equal. rewrite Hd. lia.
Qed.

Lemma frag_shorten a b n : 0 <= n <= om_len b -> frag (a, set_om_len n b) = take (Z.to_nat n) (frag (a, b)).
Proof.
  intros Hn. unfold frag. change (doff (a, set_om_len n b)) with (doff (a, b)). cbn [snd set_om_len om_len om_databuf].
  unfold slice. rewrite take_take. f_equal. lia.
Qed.

Lemma cell_wf_shorten a b n : cell_wf (a, b) -> 0 <= n <= om_len b -> cell_wf (a, set_om_len n b).
Proof.
  intros Hw Hn. apply cell_wf_len; [done|lia|]. destruct Hw as [(n' & bl & _ & _ & _ & Hn' & Hd) _ _ _]. cbn [fst snd] in *. lia.
Qed.

(** The buffers from the one with the last byte on are cut off. *)
Lemma adj_tail_spec fuel s L1 m l F count Q :
  own s (L1 ++ l ++ F) -> seg m l 0 -> l <> [] -> (length l < fuel)%nat -> 0 <= count <= Z.of_nat (length (data l)) ->
  (forall s' l', own s' (L1 ++ l' ++ F) -> seg m l' 0 -> l' <> [] -> data l' = take (Z.to_nat count) (data l) ->
     phead l' = phead l -> (forall i, in_pool i l -> in_pool i l') -> Q tt s') ->
  wp (adj_tail_loop fuel m count) Q s.
Proof.
  revert s L1 m l count Q. induction fuel as [|fuel IH]; intros s L1 m l count Q H Hs Hn Hf Hc HQ; [lia|]. cbn [adj_tail_loop].
  destruct l as [|[a b] l]; [done|]. destruct Hs as [-> Hs]. cbn [fst snd length] in *. cbn [app] in H.
  pose proof (own_pos geo _ _ (a, b) H ltac:(incell)) as Hpos. cbn [fst] in Hpos. destruct (Z.eqb_spec a 0); [lia|].
  pose proof (own_wf geo _ _ (a, b) H ltac:(incell)) as Hw. pose proof (length_frag geo (a, b) Hw) as Hfl. cbn [snd] in Hfl.
  pose proof (om_len_bound geo (a, b) (proj1 H) Hw) as Hlb. cbn [snd] in Hlb. rewrite data_cons, length_app in Hc.
  apply wp_bind, (wp_load geo s (L1 ++ (a, b) :: l ++ F) a b); [done|incell|].
  destruct (Z.leb_spec count (om_len b)) as [Hle|Hlt].
  - rewrite u16_small by lia. assert (Hw1 : cell_wf (a, set_om_len count b)) by (apply cell_wf_shorten; [done|lia]).
    apply wp_bind, (wp_upd geo s L1 (l ++ F) a b); [done|done|]. intros s1 H1 _.
    assert (Hend : forall s2, own s2 (L1 ++ (a, set_om_next 0 (set_om_len count b)) :: F) -> Q tt s2).
    { intros s2 H2. apply (HQ s2 [(a, set_om_next 0 (set_om_len count b))]); try done.
      2: { intros i [Hx _]%Forall_cons. now constructor. }
      rewrite data_cons, frag_next, frag_shorten by lia. cbn. rewrite app_nil_r. symmetry. apply take_app_le. lia. }
    destruct l as [|c l].
    + cbn in Hs. rewrite Hs. cbn [Z.eqb negb]. apply wp_ret, Hend. now rewrite set_om_next_id.
    + assert (Hnz : om_next b <> 0).
      { apply (seg_nonzero geo s (om_next b) (c :: l) 0 (L1 ++ (a, b) :: (c :: l) ++ F)); [done| |done|done].
        intros x Hx. rewrite !elem_of_app, elem_of_cons, elem_of_app. auto. }
      destruct (Z.eqb_spec (om_next b) 0); [done|]. cbn [negb].
      apply wp_bind, (wp_free_chain geo s1 (om_next b) (c :: l) (L1 ++ (a, set_om_len count b) :: F)); [perm|done|].
      intros s2 H2. apply (wp_upd geo s2 L1 F a (set_om_len count b)); [done|now apply cell_wf_next|]. intros s3 H3 _. now apply Hend.
  - assert (Hne : l <> []) by (intros ->; cbn in Hc; lia).
    apply (IH s (L1 ++ [(a, b)]) (om_next b) l); [now rewrite <- app_assoc|done|done|lia|lia|].
    intros s2 l' H2 Hs2 Hn2 Hd2 Hp2 Hi2. apply (HQ s2 ((a, b) :: l')); [now rewrite <- app_assoc in H2|now split|done| |done|].
    + rewrite !data_cons, Hd2, take_app_ge by lia. do 2 f_equal. lia.
    + intros i [Hx1 Hx2]%Forall_cons. constructor; [done|]. now apply Hi2.
Qed.

(** What an operation on a packet keeps: the header but for its length field, which stays
    the length of the data, and the pool. *)
Record keeps (l l' : list cell) : Prop := Keeps {
  kp_synced : synced l -> synced l';
  kp_tail : ptail l' = ptail l;
  kp_pool : forall i, in_pool i l -> in_pool i l';
}.

Lemma keeps_bump l l' d :
  phead l' = bump d (phead l) -> Z.of_nat (length (data l')) = Z.of_nat (length (data l)) + d ->
  (forall i, in_pool i l -> in_pool i l') -> keeps l l'.
Proof. intros Hp Hd Hi. constructor; [now apply (synced_bump l l' d)|now apply (ptail_bump l l' d)|done]. Qed.

(** [adj n d] is what [os_mbuf_adj] leaves of the data [d]. *)
Definition adj (n : Z) (d : list Z) : list Z :=
  if 0 <=? n then drop (Z.to_nat n) d else take (Z.to_nat (Z.of_nat (length d) + n)) d.

(** The header is updated after the data. *)
Lemma wp_add_pktlen_keeps s p l0 l F d Q :
  own s (l ++ F) -> seg p l 0 -> l <> [] -> phead l = phead l0 ->
  Z.of_nat (length (data l)) = Z.of_nat (length (data l0)) + d -> (forall i, in_pool i l0 -> in_pool i l) ->
  (forall s' l', own s' (l' ++ F) -> seg p l' 0 -> l' <> [] -> data l' = data l -> keeps l0 l' -> Q tt s') ->
  wp (add_pktlen p d) Q s.
Proof.
  intros H Hs Hn Hp Hd Hi HQ. apply (wp_add_pktlen_chain geo s p l F); [done..|]. intros s' l' H' Hs' Hf Hp' Ho.
  assert (Ed : data l' = data l) by (unfold data; now rewrite Hf).
  apply (HQ s' l'); [done|done| |done|].
  - intros ->. destruct l; [done|]. cbn in Hf. discriminate.
  - apply (keeps_bump _ _ d); [congruence|congruence|]. intros i Hi0. apply (pool_same i l l'); auto.
Qed.

Lemma wp_set_pktlen_keeps s p l0 l F v Q :
  own s (l ++ F) -> seg p l 0 -> phead l = phead l0 -> is_Some (phead l) -> 0 <= v < 2 ^ 16 ->
  (forall s' l', own s' (l' ++ F) -> seg p l' 0 -> l' <> [] -> map frag l' = map frag l -> ptail l' = ptail l0 ->
     (forall h r, phead l' = Some (h, r) -> h = v) -> map (fun c => om_omp c.2) l' = map (fun c => om_omp c.2) l -> Q tt s') ->
  wp (set_pktlen p v) Q s.
Proof.
  intros H Hs Hp [[h r] Hh] Hv HQ. destruct l as [|[a b] l]; [done|]. destruct Hs as [-> Hs]. cbn [fst snd phead] in *.
  apply (wp_set_pktlen geo s [] (l ++ F) a b h r); [done..|]. intros s' db H' Hp' Hf _ _.
  apply (HQ s' ((a, set_om_databuf db b) :: l)); try done.
  - cbn [map]. now rewrite Hf.
  - unfold ptail. cbn [phead]. rewrite Hp', <- Hp, Hh. done.
  - cbn [phead]. rewrite Hp'. congruence.
Qed.

(** Bytes that the last buffer has. *)
Lemma wp_adj_last s p l1 a b F n Q :
  let l := l1 ++ [(a, b)] in
  own s (l1 ++ (a, b) :: F) -> seg p l 0 -> 0 <= n <= om_len b ->
  (forall s' l', own s' (l' ++ F) -> seg p l' 0 -> l' <> [] -> data l' = take (Z.to_nat (Z.of_nat (length (data l)) - n)) (data l) ->
     keeps l l' -> Q tt s') ->
  wp (upd a (set_om_len (u16 (om_len b - n)));; add_pktlen p (- n)) Q s.
Proof.
  intros l H Hs Hn HQ. pose proof (own_wf geo _ _ (a, b) H ltac:(incell)) as Hw. pose proof (length_frag geo (a, b) Hw) as Hfl.
  pose proof (om_len_bound geo (a, b) (proj1 H) Hw) as Hlb. cbn [snd] in Hlb, Hfl. rewrite u16_small by lia.
  apply wp_bind, (wp_upd geo s l1 F a b); [done|apply cell_wf_shorten; [done|lia]|]. intros s1 H2 _.
  set (b1 := set_om_len (om_len b - n) b) in *. set (l2 := l1 ++ [(a, b1)]).
  assert (Hdl : length (data l) = (length (data l1) + length (frag (a, b)))%nat).
  { unfold l. rewrite data_app, length_app. cbn. now rewrite app_nil_r. }
  assert (Hd2 : data l2 = take (Z.to_nat (Z.of_nat (length (data l)) - n)) (data l)).
  { rewrite Hdl. unfold l2, l. rewrite !data_app. cbn. rewrite !app_nil_r. unfold b1. rewrite frag_shorten by lia.
    rewrite take_app_ge by lia. f_equal. f_equal. lia. }
  apply (wp_add_pktlen_keeps s1 p l l2 F).
  - unfold l2. rewrite <- app_assoc. exact H2.
  - apply seg_snoc in Hs. now apply seg_snoc.
  - unfold l2. now destruct l1.
  - unfold l2, l. now destruct l1.
  - rewrite Hd2, length_take. lia.
  - intros i. unfold l, l2, in_pool. rewrite !Forall_app. intros [Hx1 [Hx2 _]%Forall_cons]. split; [done|]. now constructor.
  - intros s3 l3 H3 Hs3 Hn3 Hd3 Hk. apply (HQ s3 l3); auto. congruence.
Qed.

(** More bytes: the chain is cut behind its first [count] bytes. *)
Lemma wp_adj_cut s a b l0 F count Q :
  let l := (a, b) :: l0 in
  own s (l ++ F) -> seg a l 0 -> 0 <= count <= Z.of_nat (length (data l)) ->
  (forall s' l', own s' (l' ++ F) -> seg a l' 0 -> l' <> [] -> data l' = take (Z.to_nat count) (data l) -> keeps l l' -> Q tt s') ->
  wp (h ← load a; (if OS_MBUF_IS_PKTHDR h then set_pktlen a (u16 count) else mret tt);;
      with_fuel (fun n => adj_tail_loop n a count)) Q s.
Proof.
  intros l H Hs Hc HQ. apply wp_bind, (wp_load geo s (l ++ F) a b); [done|left|].
  assert (Htail : forall s1 l2, own s1 (l2 ++ F) -> seg a l2 0 -> l2 <> [] -> map frag l2 = map frag l -> ptail l2 = ptail l ->
    (forall h r, phead l2 = Some (h, r) -> h = u16 count) -> map (fun c => om_omp c.2) l2 = map (fun c => om_omp c.2) l ->
    wp (with_fuel (fun n => adj_tail_loop n a count)) Q s1).
  { intros s1 l2 H2 Hs2 Hn2 Hf2 Ht2 Hh2 Ho2. assert (Hd2 : data l2 = data l) by (unfold data; now rewrite Hf2).
    apply wp_fuel, (adj_tail_spec _ s1 [] a l2 F count); [done|done|done| |now rewrite Hd2|].
    { pose proof (own_length geo _ _ H2) as Hl. rewrite length_app in Hl. lia. }
    intros s3 l3 H3 Hs3 Hn3 Hd3 Hp3 Hi3. cbn [app] in H3. apply (HQ s3 l3); auto; [congruence|]. constructor.
    - intros _. unfold synced. destruct (phead l3) as [[h r]|] eqn:E3; [|done]. rewrite (Hh2 h r) by congruence.
      rewrite Hd3, length_take, Hd2. f_equal. lia.
    - unfold ptail. rewrite Hp3. exact Ht2.
    - intros i Hi. apply Hi3, (pool_same i l l2); auto. }
  destruct (OS_MBUF_IS_PKTHDR b) eqn:Eh.
  - apply wp_bind, (wp_set_pktlen_keeps s a l l F); [done|done|done| |apply u16_range|].
    { cbn. unfold pkt. cbn. rewrite Eh. eauto. }
    intros s1 l2 H2 Hs2 Hn2 Hf2 Ht2 Hh2 Ho2. now apply (Htail s1 l2).
  - apply wp_bind, wp_ret. apply (Htail s l); try done. intros h r. cbn. unfold pkt. cbn. rewrite Eh. done.
Qed.

Lemma wp_adj s p l F n Q :
  own s (l ++ F) -> seg p l 0 -> l <> [] -> - 2 ^ 31 <= n ->
  (forall s' l', own s' (l' ++ F) -> seg p l' 0 -> l' <> [] -> data l' = adj n (data l) -> keeps l l' -> Q tt s') ->
  wp (os_mbuf_adj p n) Q s.
Proof.
  intros H Hs Hn Hrange HQ. assert (Hp0 : p <> 0) by (apply (seg_nonzero geo s p l 0 (l ++ F)); auto; intros c Hc; incell).
  assert (Hfuel : (length l < S (size (mem s)))%nat) by (pose proof (own_length geo _ _ H) as Hl; rewrite length_app in Hl; lia).
  unfold os_mbuf_adj. destruct (Z.eqb_spec p 0); [done|]. unfold adj in HQ. destruct (Z.leb_spec 0 n) as [Hpos|Hneg].
  { apply wp_bind, wp_fuel, (adj_head_spec _ s [] p l F n); [done..|]. intros s1 l1 H1 Hsf Hd1. cbn [app] in H1.
    assert (Hdl : length (data l1) = (length (data l) - Z.to_nat n)%nat) by (rewrite Hd1; apply length_drop).
    apply (wp_add_pktlen_keeps s1 p l l1 F); [done|now apply (same_frame_seg p l)|now apply (same_frame_nil l)|
      now apply same_frame_phead|lia|intros i; now apply same_frame_pool|].
    intros s2 l2 H2 Hs2 Hn2 Hd2 Hk. apply (HQ s2 l2); auto. congruence. }
  cbv zeta. destruct (exists_last Hn) as (l1 & [a b] & El).
  assert (H1 : own s (l1 ++ (a, b) :: F)) by (rewrite El, <- app_assoc in H; exact H).
  apply wp_bind, wp_fuel. exists (a, 0 + Z.of_nat (length (data l))), s. split.
  { rewrite El. apply (adj_count_spec _ s p l1 a b (l ++ F)); [done|rewrite <- El; intros c Hc; incell|now rewrite <- El|].
    rewrite El, length_app in Hfuel. cbn in Hfuel. lia. }
  apply wp_bind, (wp_load geo s (l1 ++ (a, b) :: F) a b); [done|incell|]. rewrite Z.add_0_l.
  destruct (Z.leb_spec (- n) (om_len b)) as [Hle|Hgt].
  - apply (wp_adj_last s p l1 a b F (- n)); [done|now rewrite <- El|lia|]. rewrite <- El. intros s' l' H' Hs' Hn' Hd'.
    apply HQ; auto. rewrite Hd'. do 2 f_equal. lia.
  - set (count := if _ <? 0 then _ else _).
    assert (Hcv : 0 <= count <= Z.of_nat (length (data l)) /\ Z.to_nat count = Z.to_nat (Z.of_nat (length (data l)) + n))
      by (unfold count; destruct (Z.ltb_spec (Z.of_nat (length (data l)) - - n) 0); lia).
    destruct Hcv as [Hcr Hcn]. rewrite <- Hcn in HQ.
    destruct l as [|[a0 b0] l0]; [done|]. assert (p = a0) as -> by (now destruct Hs).
    now apply (wp_adj_cut s a0 b0 l0 F count).
Qed.

(** ** Empty buffers at the front *)
Lemma trim_loop_spec fuel s om b cur l F Q :
  own s ((om, b) :: l ++ F) -> om_next b = cur -> seg cur l 0 -> (length l < fuel)%nat ->
  (forall s' cur' l2, own s' ((om, set_om_next cur' b) :: l2 ++ F) -> seg cur' l2 0 -> data l2 = data l ->
     (forall i, in_pool i l -> in_pool i l2) -> Q cur' s') ->
  wp (trim_loop fuel om cur) Q s.
Proof.
  revert s b cur l Q. induction fuel as [|fuel IH]; intros s b cur l Q H Hb Hs Hf HQ; [lia|]. cbn [trim_loop].
  assert (Hid : Q cur s). { apply (HQ s cur l); auto. now rewrite set_om_next_id. }
  destruct l as [|[a c] l]. { cbn in Hs. subst cur. rewrite Hs in *. apply wp_ret. exact Hid. }
  destruct Hs as [Ea Hs]. cbn [fst snd length app] in *. rewrite Ea in *.
  pose proof (own_pos geo _ _ (a, c) H ltac:(incell)) as Hpos. cbn [fst] in Hpos. destruct (Z.eqb_spec a 0); [lia|].
  pose proof (own_wf geo _ _ (a, c) H ltac:(incell)) as Hw. pose proof (length_frag geo (a, c) Hw) as Hfl. cbn [snd] in Hfl.
  apply wp_bind, (wp_load geo s ((om, b) :: (a, c) :: l ++ F) a c); [done|incell|].
  destruct (Z.eqb_spec (om_len c) 0) as [E|E]; [|now apply wp_ret].
  apply wp_bind, (wp_upd geo s [] ((a, c) :: l ++ F) om b); [done|apply cell_wf_next, (own_wf geo _ _ _ H); left|].
  intros s1 H1 _. cbn [app] in H1. apply wp_bind, (wp_free geo s1 ((om, set_om_next (om_next c) b) :: l ++ F) a c); [perm|].
  intros s2 H2. apply (IH s2 (set_om_next (om_next c) b) (om_next c) l); [done|done|done|lia|].
  intros s3 cur' l2 H3 Hs3 Hd3 Hi3. apply (HQ s3 cur' l2); auto.
  - rewrite Hd3, data_cons. destruct (frag (a, c)); [done|cbn in Hfl; lia].
  - intros i [_ Hx]%Forall_cons. auto.
Qed.

Lemma wp_trim_front s p l F Q :
  own s (l ++ F) -> seg p l 0 -> l <> [] ->
  (forall s' r l', own s' (l' ++ F) -> seg r l' 0 -> l' <> [] -> data l' = data l -> phead l' = phead l ->
     (forall i, in_pool i l -> in_pool i l') -> Q r s') ->
  wp (os_mbuf_trim_front p) Q s.
Proof.
  intros H Hs Hn HQ. destruct l as [|[om b] l]; [done|]. destruct Hs as [-> Hs]. cbn [fst snd app] in *.
  apply wp_bind, (wp_load geo s ((om, b) :: l ++ F) om b); [done|left|].
  pose proof (own_wf geo _ _ (om, b) H ltac:(left)) as Hw. pose proof (length_frag geo (om, b) Hw) as Hfl. cbn [snd] in Hfl.
  destruct (Z.eqb_spec (om_len b) 0) as [E|E]; cbn [negb]; [|apply wp_ret, (HQ s om ((om, b) :: l)); auto; now split].
  assert (Hd0 : data ((om, b) :: l) = data l) by (rewrite data_cons; destruct (frag (om, b)); [done|cbn in Hfl; lia]).
  rewrite Hd0 in HQ. apply wp_bind, wp_fuel, (trim_loop_spec _ s om b (om_next b) l F); [done|done|done| |].
  { pose proof (own_length geo _ _ H) as Hl. cbn [length] in Hl. rewrite length_app in Hl. lia. }
  intros s1 cur l2 H1 Hs1 Hd1 Hi1. set (b1 := set_om_next cur b) in *.
  assert (Hkeep : Q om s1).
  { apply (HQ s1 om ((om, b1) :: l2)); [done|now split|done| |done|].
    - rewrite data_cons. unfold b1. rewrite frag_next. destruct (frag (om, b)); [done|cbn in Hfl; lia].
    - intros i [Hx1 Hx2]%Forall_cons. constructor; [exact Hx1|now apply Hi1]. }
  destruct l2 as [|[a c] l2]. { cbn in Hs1. subst cur. cbn [Z.eqb]. apply wp_ret, Hkeep. }
  destruct Hs1 as [-> Hs1]. cbn [fst snd app] in *.
  pose proof (own_pos geo _ _ (a, c) H1 ltac:(incell)) as Hpos. cbn [fst] in Hpos. destruct (Z.eqb_spec a 0); [lia|].
  apply wp_bind, (wp_leading geo s1 ((om, b1) :: (a, c) :: l2 ++ F) a c); [done|incell|].
  apply wp_bind, (wp_load geo s1 ((om, b1) :: (a, c) :: l2 ++ F) om b1); [done|incell|]. change (om_pkthdr_len b1) with (om_pkthdr_len b).
  destruct (Z.leb_spec (om_pkthdr_len b) (doff (a, c) - om_pkthdr_len c)) as [Hle|Hgt]; [|apply wp_ret, Hkeep].
  pose proof (own_wf geo _ _ (a, c) H1 ltac:(incell)) as [(n1 & bl1 & Hg1 & Hin1 & Hp1 & Hl1 & Hd1') Hc1 Hh1 Hhl1].
  pose proof Hw as [(n2 & bl2 & Hg2 & Hin2 & Hp2 & Hl2 & Hd2') Hc2 Hh2 Hhl2]. cbn [fst snd] in *.
  apply wp_bind, (wp_upd geo s1 [(om, b1)] (l2 ++ F) a c); [done| |].
  { constructor; cbn; unfold doff in *; cbn in *; [|lia|lia|done]. exists n1, bl1. auto. }
  intros s2 H2 _. cbn [app] in H2. set (c1 := set_om_pkthdr_len (om_pkthdr_len b) c) in *.
  apply wp_bind, (wp_mread geo s2 ((om, b1) :: (a, c1) :: l2 ++ F) om b1); [done|left|lia|lia|cbn; lia|].
  replace (om + MBUF_SIZE - (om + MBUF_SIZE)) with 0 by lia. set (hb := slice _ _ _).
  assert (Hhb : length hb = Z.to_nat (om_pkthdr_len b)) by (apply length_slice; cbn; lia).
  apply wp_bind, (wp_mwrite geo s2 [(om, b1)] (l2 ++ F) a c1); [done|lia|cbn; lia|].
  intros s3 H3 _. set (c2 := wr a (a + MBUF_SIZE) hb c1) in *. cbn [app] in H3.
  apply wp_bind, (wp_free geo s3 ((a, c2) :: l2 ++ F) om b1); [done|]. intros s4 H4. apply wp_ret.
  assert (Hf2 : frag (a, c2) = frag (a, c)).
  { unfold frag. change (doff (a, c2)) with (doff (a, c)). cbn [snd c2 wr set_om_databuf om_databuf om_len c1 set_om_pkthdr_len].
    apply slice_splice_after; lia. }
  apply (HQ s4 a ((a, c2) :: l2)); [done|now split|done| | |].
  - rewrite data_cons, Hf2, <- data_cons. exact Hd1.
  - cbn [phead]. apply (pkt_copied a c2 om b (om_databuf c)); [done| |lia].
    cbn [c2 wr set_om_databuf om_databuf c1 set_om_pkthdr_len]. replace (a + MBUF_SIZE - (a + MBUF_SIZE)) with 0 by lia. done.
  - intros i [_ Hx]%Forall_cons. apply Hi1 in Hx as [Hx1 Hx2]%Forall_cons. now constructor.
Qed.
End Trim.
