(* ===== verification/MbufFront.v ===== *)
(** * Room at the front of a chain

    [os_mbuf_prepend], [os_mbuf_pullup] and [os_mbuf_prepend_pullup] on owned chains. *)
From stdpp Require Import base tactics numbers list gmap.
From Stdlib Require Import ZArith Lia.
From S2P Require Import Prelude Mempool Mbuf MbufHeap MbufEdit MbufLogic MbufChain MbufAppend MbufDup MbufTrim.
Local Open Scope Z_scope.

Section Front.
  Context {CF : MempoolConf} (geo : gmap Z (Z * list Z)).
  Local Abbreviation own := (own geo) (only parsing).
  Local Abbreviation cell_wf := (cell_wf geo) (only parsing).

(** The length of the packet header of a chain. *)
Definition hlen (l : list cell) : Z := match l with c :: _ => om_pkthdr_len c.2 | [] => 0 end.

(** ** [os_mbuf_prepend] *)

(** The data is extended to the front. *)
Lemma frag_front a b k :
  cell_wf (a, b) -> 0 <= k <= doff (a, b) ->
  frag (a, set_om_len (om_len b + k) (set_om_data (om_data b - k) b)) =
  slice (Z.to_nat (doff (a, b) - k)) (Z.to_nat k) (om_databuf b) ++ frag (a, b).
Proof.
  intros [_ Hl _ _] Hk. unfold frag, doff in *. cbn in *.
  replace (Z.to_nat (om_len b + k)) with (Z.to_nat k + Z.to_nat (om_len b))%nat by lia. rewrite slice_add. f_equal; f_equal; lia.
Qed.

(** The first buffer gives as much room as it has. *)
Lemma wp_front {A} (c : M A) s a b l F k Q :
  own s ((a, b) :: l ++ F) -> 0 <= k <= doff (a, b) - om_pkthdr_len b ->
  (forall s' b' x, own s' ((a, b') :: l ++ F) -> Z.of_nat (length x) = k -> frag (a, b') = x ++ frag (a, b) ->
     pkt (a, b') = bump k (pkt (a, b)) -> om_next b' = om_next b -> om_omp b' = om_omp b ->
     om_pkthdr_len b' = om_pkthdr_len b -> doff (a, b') = doff (a, b) - k ->
     length (om_databuf b') = length (om_databuf b) -> pools s' = pools s -> wp c Q s') ->
  wp (upd a (fun b => set_om_data (om_data b - k) b);;
      upd a (fun b => set_om_len (u16 (om_len b + k)) b);;
      add_pktlen a k;; c) Q s.
Proof.
  intros H Hk HQ. pose proof (own_wf geo _ _ (a, b) H ltac:(left)) as Hw.
  pose proof Hw as [(n & bl & Hi & Ha & Hp & Hn & Hd) Hl Hh Hhl]. cbn [fst snd] in *.
  pose proof (proj1 (proj1 H) _ _ _ Hi) as [_ Hnr]. set (b1 := set_om_data (om_data b - k) b).
  assert (Hw1 : cell_wf (a, b1)).
  { constructor; unfold doff in *; cbn in *; [|lia|lia|done]. exists n, bl. split; [done|]. split; [done|]. split; [done|]. split; [done|lia]. }
  apply wp_bind, (wp_upd geo s [] (l ++ F) a b); [done|exact Hw1|]. intros s1 H1 Hp1. cbn [app] in H1. fold b1 in H1.
  assert (E : u16 (om_len b1 + k) = om_len b + k) by (cbn; apply u16_small; lia).
  apply wp_bind, (wp_upd geo s1 [] (l ++ F) a b1); [done| |].
  { rewrite E. apply cell_wf_len; [done|lia|]. unfold doff in *. cbn in *. lia. }
  intros s2 H2 Hp2. cbn [app] in H2. rewrite E in H2. set (b2 := set_om_len (om_len b + k) b1) in *.
  apply wp_bind, (wp_add_pktlen geo s2 [] (l ++ F) a b2); [done|]. intros s3 db H3 Hpk Hfr Hlen Hp3.
  apply (HQ s3 _ (slice (Z.to_nat (doff (a, b) - k)) (Z.to_nat k) (om_databuf b)) H3); try done.
  - rewrite length_slice; lia.
  - rewrite Hfr. apply frag_front; [done|lia].
  - unfold doff, b2, b1. cbn. lia.
  - congruence.
Qed.

(** A new first buffer, with the packet header of the old one. *)
Lemma wp_new_front (c : Z -> M Z) s a b l F i n bl Q :
  own s ((a, b) :: l ++ F) -> om_omp b = i -> geo !! i = Some (n, bl) -> 
  (forall s' p b1 b', own s' ((p, b') :: (a, b1) :: l ++ F) -> 0 < nfree s i -> nfree s' i = nfree s i - 1 ->
     pkt (p, b') = pkt (a, b) -> frag (p, b') = [] -> frag (a, b1) = frag (a, b) -> om_omp b' = i -> om_omp b1 = i ->
     om_next b' = a -> om_next b1 = om_next b -> om_pkthdr_len b' = om_pkthdr_len b -> doff (p, b') = n -> wp (c p) Q s') ->
  (forall s', own s' ((a, b) :: l ++ F) -> nfree s i = 0 -> wp (os_mbuf_free_chain a;; mret 0) Q s') ->
  wp (p ← (if OS_MBUF_IS_PKTHDR b
           then os_mbuf_get_pkthdr (om_omp b) (u8 (om_pkthdr_len b - PKTHDR_SIZE))
           else os_mbuf_get (om_omp b) 0);
      if p =? 0 then os_mbuf_free_chain a;; mret 0
      else
        (if OS_MBUF_IS_PKTHDR b
         then _os_mbuf_copypkthdr p a;; upd a (set_om_pkthdr_len 0) else mret tt);;
        trailing ← OS_MBUF_TRAILINGSPACE p;
        upd p (fun b => set_om_data (om_data b + trailing) b);;
        upd p (set_om_next a);;
        c p) Q s.
Proof.
  intros H Hom Hi HQ Hno. pose proof (own_wf geo _ _ (a, b) H ltac:(left)) as Hw.
  pose proof Hw as [(n' & bl' & Hi' & Ha & Hp & Hn & Hd) Hl Hh Hhl]. cbn [fst snd] in *. rewrite Hom, Hi in Hi'.
  injection Hi' as <- <-. pose proof (proj1 (proj1 H) _ _ _ Hi) as [_ Hnr]. rewrite Hom.
  assert (Hend : forall s1 p c1 b1, own s1 ((p, c1) :: (a, b1) :: l ++ F) -> nfree s1 i = nfree s i - 1 -> 0 < nfree s i ->
    pkt (p, c1) = pkt (a, b) -> frag (a, b1) = frag (a, b) -> om_omp c1 = i -> om_omp b1 = i -> om_len c1 = 0 ->
    om_next b1 = om_next b -> om_pkthdr_len c1 = om_pkthdr_len b ->
    wp (trailing ← OS_MBUF_TRAILINGSPACE p; upd p (fun b => set_om_data (om_data b + trailing) b);;
        upd p (set_om_next a);; c p) Q s1).
  { intros s1 p c1 b1 H1 Hnf Hfree Hpk Hfr Ho1 Ho2 Hl1 Hn1 Hh1. pose proof (own_wf geo _ _ (p, c1) H1 ltac:(left)) as Hw1.
    pose proof Hw1 as [(n' & bl' & Hi' & Ha1 & Hp1 & Hn' & Hd1) _ Hhh Hhl1]. cbn [fst snd] in *. rewrite Ho1, Hi in Hi'. injection Hi' as <- <-.
    apply wp_bind, (wp_trailing geo s1 ((p, c1) :: (a, b1) :: l ++ F) p c1); [done|left|]. rewrite Hl1, Hn'.
    apply wp_bind, (wp_upd geo s1 [] ((a, b1) :: l ++ F) p c1); [done| |].
    { constructor; unfold doff in *; cbn in *; [|lia|lia|done]. exists n, bl. rewrite Ho1. split; [done|]. split; [done|]. split; [done|]. split; [done|lia]. }
    intros s2 H2 Hps2. cbn [app] in H2. set (c2 := set_om_data _ c1) in *.
    apply wp_bind, (wp_upd geo s2 [] ((a, b1) :: l ++ F) p c2); [done|apply cell_wf_next, (own_wf geo _ _ _ H2); left|].
    intros s3 H3 Hps3. cbn [app] in H3. apply (HQ s3 p b1 _ H3); try done.
    - unfold nfree in *. now rewrite Hps3, Hps2.
    - unfold frag. cbn [snd set_om_next c2 set_om_data om_len]. rewrite Hl1. done.
    - unfold doff. cbn. unfold doff in *. cbn in *. lia. }
  destruct (OS_MBUF_IS_PKTHDR b) eqn:Eh; unfold OS_MBUF_IS_PKTHDR, PKTHDR_SIZE in *.
  - assert (Eu : u8 (om_pkthdr_len b - 8) = om_pkthdr_len b - 8) by (apply u8_small; lia). rewrite Eu.
    apply wp_bind, (wp_get_pkthdr geo s ((a, b) :: l ++ F) i n bl); [done|done|lia| | |lia].
    2: { intros [Hx|[Hx|Hx]]; [lia..|]. cbn [Z.eqb]. now apply Hno. }
    intros p db s1 Hfree Hle Hdb H1 _. pose proof (own_pos geo _ _ _ H1 ltac:(left)) as Hpp. cbn [fst] in Hpp. destruct (Z.eqb_spec p 0); [lia|].
    pose proof (get_count geo _ _ _ i _ _ _ _ H H1 eq_refl Hi) as Hcnt. apply wp_bind.
    rewrite <- (app_nil_l ((p, _) :: _)) in H1.
    eapply (wp_copypkthdr geo _ s1 [] ((a, b) :: l ++ F) p _ a b); [exact H1|cbn; left|done|lia|cbn; lia|].
    intros s2 c1 H2 Hpk Hh2 Hd2 Hl2 Hn2 Ho2 _. cbn [app] in H2.
    apply (wp_upd geo s2 [(p, c1)] (l ++ F) a b); [exact H2| |].
    { constructor; unfold doff in *; cbn in *; [|lia|lia|lia]. exists n, bl. rewrite Hom. auto. }
    intros s3 H3 Hp3. apply (Hend s3 p c1 (set_om_pkthdr_len 0 b)); try done.
    transitivity (nfree s1 i); [|done]. eapply (nfree_same geo s1 s3); [exact H1|exact H3|exact Hi|]. cbn. now rewrite Ho2.
  - apply wp_bind, (wp_get geo s ((a, b) :: l ++ F) i n bl); [done|done|lia| |].
    2: { intros [Hx|Hx]; [lia|]. cbn [Z.eqb]. now apply Hno. }
    intros p db s1 Hle Hfree H1 Hdb. pose proof (own_pos geo _ _ _ H1 ltac:(left)) as Hpp. cbn [fst] in Hpp. destruct (Z.eqb_spec p 0); [lia|].
    pose proof (get_count geo _ _ _ i _ _ _ _ H H1 eq_refl Hi) as Hcnt. apply wp_bind, wp_ret.
    apply (Hend s1 p (fresh p 0 i db) b); try done; [|cbn; lia]. unfold pkt, OS_MBUF_IS_PKTHDR, PKTHDR_SIZE. cbn [snd]. now rewrite Eh.
Qed.

Lemma prepend_loop_spec fuel s om b l F len i n bl Q :
  own s ((om, b) :: l ++ F) -> seg (om_next b) l 0 -> in_pool i ((om, b) :: l) -> geo !! i = Some (n, bl) ->
  nfree s i < Z.of_nat fuel -> 0 <= len ->
  (forall s', own s' F -> (doff (om, b) - om_pkthdr_len b) + nfree s i * (n - om_pkthdr_len b) < len -> Q 0 s') ->
  (forall s' r l' x, own s' (l' ++ F) -> seg r l' 0 -> l' <> [] -> data l' = x ++ data ((om, b) :: l) ->
     Z.of_nat (length x) = len -> phead l' = bump len (phead ((om, b) :: l)) -> in_pool i l' -> Q r s') ->
  wp (prepend_loop fuel om len) Q s.
Proof.
  revert s om b l len Q. induction fuel as [|fuel IH]; intros s om b l len Q H Hs Hip Hi Hf Hlen Hno Hok.
  { pose proof (own_nfree_size geo _ _ _ _ _ H Hi). lia. }
  apply Forall_cons in Hip as [Hib Hip]. cbn [snd] in Hib. pose proof (own_wf geo _ _ (om, b) H ltac:(left)) as [_ _ Hh _]. cbn [snd] in Hh.
  cbn [prepend_loop]. apply wp_bind, (wp_leading geo s ((om, b) :: l ++ F) om b); [done|left|]. cbv zeta.
  set (lead := Z.min len (doff (om, b) - om_pkthdr_len b)). apply (wp_front _ s om b l F); [done|lia|].
  intros s1 b1 x H1 Hx Hf1 Hp1 Hn1 Ho1 Hh1 Hd1 _ Hps.
  assert (Hnf : nfree s1 i = nfree s i) by (unfold nfree; now rewrite Hps).
  destruct (Z.eqb_spec (len - lead) 0) as [E|E].
  { apply wp_ret. apply (Hok s1 om ((om, b1) :: l) x); [done|split; [done|]|done| |lia| |].
    - cbn [snd]. now rewrite Hn1.
    - now rewrite !data_cons, Hf1, <- app_assoc.
    - cbn [phead]. rewrite Hp1. f_equal. lia.
    - constructor; [cbn; congruence|done]. }
  apply wp_bind, (wp_load geo s1 ((om, b1) :: l ++ F) om b1); [done|left|].
  apply (wp_new_front (fun p => prepend_loop fuel p (len - lead)) s1 om b1 l F i n bl); [done|congruence|done| |].
  - intros s2 p b2 b' H2 Hfree Hnf2 Hpk Hfr Hf2 Hob' Hob2 Hnx' Hnx2 Hhl Hdf. eapply (IH s2 p b' ((om, b2) :: l)); [exact H2| | |exact Hi|lia|lia| |].
    + rewrite Hnx'. split; [done|]. cbn [snd]. rewrite Hnx2, Hn1. done.
    + constructor; [done|]. constructor; [done|exact Hip].
    + intros s' H' Hlt. apply Hno; [done|]. rewrite Hdf, Hhl, Hh1, Hnf2, Hnf in Hlt. lia.
    + intros s' r l' y H' Hs' Hn' Hd' Hy Hp' Hi'. apply (Hok s' r l' (y ++ x)); auto.
      * rewrite Hd', !data_cons, Hfr, Hf2, Hf1, <- !app_assoc. done.
      * rewrite length_app. lia.
      * rewrite Hp'. cbn [phead]. rewrite Hpk, Hp1, bump_bump. f_equal. lia.
  - intros s' H' H0. apply wp_bind, (wp_free_chain geo s' om ((om, b1) :: l) F); [done| |].
    { split; [done|]. cbn [snd]. now rewrite Hn1. }
    intros s2 H2. apply wp_ret, Hno; [done|]. rewrite <- Hnf, H0. lia.
Qed.

Lemma wp_prepend s p l F len i n bl Q :
  l <> [] -> own s (l ++ F) -> seg p l 0 -> in_pool i l -> geo !! i = Some (n, bl) -> 0 <= len ->
  (forall s', own s' F -> nfree s i * (n - hlen l) < len -> Q 0 s') ->
  (forall s' r l' x, own s' (l' ++ F) -> seg r l' 0 -> l' <> [] -> data l' = x ++ data l ->
     Z.of_nat (length x) = len -> phead l' = bump len (phead l) -> in_pool i l' -> Q r s') ->
  wp (os_mbuf_prepend p len) Q s.
Proof.
  intros Hn H Hs Hip Hi Hlen Hno Hok. destruct l as [|[om b] l]; [done|]. destruct Hs as [-> Hs]. cbn [fst snd app] in *.
  apply wp_fuel. eapply (prepend_loop_spec _ s om b l F); [done..|exact Hip|exact Hi| |done| |done].
  - pose proof (own_nfree_size geo _ _ _ _ _ H Hi). lia.
  - intros s' H' Hlt. apply Hno; [done|]. pose proof (own_wf geo _ _ (om, b) H ltac:(left)) as [_ _ Hh _]. cbn in *. lia.
Qed.

(** ** [os_mbuf_pullup] *)

(** The copy of one round: [count] bytes go from the front of a buffer to the end of
    another one. *)
Lemma wp_pullup_copy {A} s om2 b2 a b R count (K : M A) Q :
  own s ((om2, b2) :: (a, b) :: R) -> 0 <= count <= om_len b ->
  count <= Z.of_nat (length (om_databuf b2)) - (doff (om2, b2) + om_len b2) ->
  (forall s' b4, own s' ((om2, b4) :: (a, set_om_len (om_len b - count) b) :: R) ->
     frag (om2, b4) = frag (om2, b2) ++ take (Z.to_nat count) (frag (a, b)) -> pkt (om2, b4) = pkt (om2, b2) ->
     om_omp b4 = om_omp b2 -> doff (om2, b4) + om_len b4 = doff (om2, b2) + om_len b2 + count ->
     length (om_databuf b4) = length (om_databuf b2) -> wp K Q s') ->
  wp (bs ← mread a (om_data b) count; mwrite om2 (om_data b2 + om_len b2) bs;;
      upd om2 (fun b => set_om_len (u16 (om_len b + count)) b);; upd a (fun b => set_om_len (u16 (om_len b - count)) b);; K) Q s.
Proof.
  intros H Hc Hsp HQ. pose proof (own_wf geo _ _ (a, b) H ltac:(incell)) as Hw. pose proof (length_frag geo (a, b) Hw) as Hfl.
  pose proof (own_wf geo _ _ (om2, b2) H ltac:(left)) as Hw2. pose proof (om_len_bound geo (a, b) (proj1 H) Hw) as Hlb.
  pose proof Hw2 as [(n2 & bl2 & Hg2 & _ & _ & Hn2 & Hd2) Hl2 Hh2 _]. pose proof (proj1 (proj1 H) _ _ _ Hg2) as [_ Hnr]. cbn [fst snd] in *.
  replace (om_data b) with (om_data b + 0) by lia.
  apply wp_bind, (wp_mread_frag geo s ((om2, b2) :: (a, b) :: R) a b); [done|incell|lia..|].
  change (Z.to_nat 0) with 0%nat. unfold slice. rewrite drop_0. set (bs := take (Z.to_nat count) (frag (a, b))).
  assert (Hbs : length bs = Z.to_nat count) by (unfold bs; rewrite length_take; lia).
  apply (wp_push geo _ s [] ((a, b) :: R) om2 b2); [done|lia|lia|].
  intros s2 b4 H2 Hfr4 Hpk4 _ Ho4 Hl4 _ Hd4 Hdb4 _. cbn [app] in H2.
  assert (E5 : u16 (om_len b - count) = om_len b - count) by (apply u16_small; lia).
  apply wp_bind, (wp_upd geo s2 [(om2, b4)] R a b); [done|rewrite E5; apply cell_wf_shorten; [done|lia]|].
  intros s3 H3 _. cbn [app] in H3. rewrite E5 in H3. apply (HQ s3 b4); try done; lia.
Qed.

(** The end of the round: the buffer is freed when it is empty, and moved on otherwise. *)
Lemma wp_pullup_next s om2 b4 a b l F count Q :
  own s ((om2, b4) :: (a, set_om_len (om_len b - count) b) :: l ++ F) -> seg (om_next b) l 0 -> 0 <= count <= om_len b ->
  cell_wf (a, b) ->
  (forall s' om' l', own s' ((om2, b4) :: l' ++ F) -> seg om' l' 0 -> data l' = drop (Z.to_nat count) (frag (a, b) ++ data l) ->
     (forall i, in_pool i ((a, b) :: l) -> in_pool i l') -> (count = om_len b -> l' = l /\ om' = om_next b) -> Q om' s') ->
  wp (if negb (om_len b - count =? 0) then upd a (fun b => set_om_data (om_data b + count) b);; mret a
      else let next := om_next b in os_mbuf_free a;; mret next) Q s.
Proof.
  intros H Hs Hc Hw HQ. pose proof (length_frag geo (a, b) Hw) as Hfl. cbn [snd] in Hfl. set (b5 := set_om_len (om_len b - count) b) in *.
  destruct (Z.eqb_spec (om_len b - count) 0) as [E|E]; cbn [negb]; cbv zeta.
  - apply wp_bind, (wp_free geo s ((om2, b4) :: l ++ F) a b5); [perm|]. intros s4 H4. apply wp_ret.
    apply (HQ s4 (om_next b) l); try done; [|intros i [_ Hx]%Forall_cons; done]. replace (Z.to_nat count) with (length (frag (a, b))) by lia.
    now rewrite drop_app_length.
  - apply wp_bind, (wp_upd geo s [(om2, b4)] (l ++ F) a b5); [done| |].
    { pose proof Hw as [(n' & bl' & Hg' & Ha' & Hp' & Hn' & Hd') Hl' Hh' Hhl']. constructor; unfold doff in *; cbn in *; [|lia|lia|done].
      exists n', bl'. split; [done|]. split; [done|]. split; [done|]. split; [done|lia]. }
    intros s4 H4 _. apply wp_ret. apply (HQ s4 a ((a, set_om_data (om_data b5 + count) b5) :: l)); try done; [| |lia].
    + rewrite data_cons, drop_app_le by lia. f_equal. apply (frag_advance geo); [done|lia|cbn; lia].
    + intros i [Hx1 Hx2]%Forall_cons. now constructor.
Qed.

(** Data of the chain is moved behind the data of [om2]. *)
Lemma pullup_loop_spec fuel s om2 b2 om l F len space Q :
  own s ((om2, b2) :: l ++ F) -> seg om l 0 -> l <> [] -> (length l <= fuel)%nat -> 0 < len <= space ->
  space = Z.of_nat (length (om_databuf b2)) - (doff (om2, b2) + om_len b2) ->
  (forall s' b2' om' l', own s' ((om2, b2') :: l' ++ F) -> seg om' l' 0 ->
     frag (om2, b2') = frag (om2, b2) ++ take (Z.to_nat len) (data l) -> pkt (om2, b2') = pkt (om2, b2) ->
     om_omp b2' = om_omp b2 -> data l' = drop (Z.to_nat len) (data l) -> (forall i, in_pool i l -> in_pool i l') ->
     Q (om', Z.max 0 (len - Z.of_nat (length (data l)))) s') ->
  wp (pullup_loop fuel om om2 len space) Q s.
Proof.
  revert s b2 om l len space Q. induction fuel as [|fuel IH]; intros s b2 om l len space Q H Hs Hn Hf Hlen Hsp HQ.
  { destruct l; [done|cbn in Hf; lia]. }
  destruct l as [|[a b] l]; [done|]. destruct Hs as [-> Hs]. cbn [fst snd app length pullup_loop] in *.
  pose proof (own_wf geo _ _ (a, b) H ltac:(incell)) as Hw. pose proof (length_frag geo (a, b) Hw) as Hfl. cbn [snd] in Hfl.
  pose proof (own_wf geo _ _ (om2, b2) H ltac:(left)) as [(n2 & bl2 & Hg2 & _ & _ & Hn2 & Hd2) Hl2 Hh2 _].
  pose proof (proj1 (proj1 H) _ _ _ Hg2) as [_ Hnr]. cbn [fst snd] in *.
  apply wp_bind, (wp_load geo s ((om2, b2) :: (a, b) :: l ++ F) a b); [done|incell|].
  apply wp_bind, (wp_load geo s ((om2, b2) :: (a, b) :: l ++ F) om2 b2); [done|left|]. cbv zeta.
  replace (Z.min (Z.min len space) (om_len b)) with (Z.min len (om_len b)) by lia. set (count := Z.min len (om_len b)).
  rewrite (u16_small (len - count)) by lia. apply (wp_pullup_copy s om2 b2 a b (l ++ F) count); [done|lia|lia|].
  intros s3 b4 H3 Hfr4 Hpk4 Ho4 Hd4 Hdb4. set (b5 := set_om_len (om_len b - count) b) in *.
  apply wp_bind, (wp_load geo s3 ((om2, b4) :: (a, b5) :: l ++ F) a b5); [done|incell|].
  apply wp_bind, (wp_pullup_next s3 om2 b4 a b l F count); [done|done|lia|done|].
  intros s4 om' l' H4 Hs4 Hdl' Hp' Hlast. rewrite data_cons, length_app in HQ.
  destruct (Z.ltb_spec 0 (len - count)) as [Hlt|Hge]; [destruct (Hlast ltac:(lia)) as [-> ->]; destruct l as [|c l]|]; cbn [andb].
  - cbn in Hs. rewrite Hs. cbn [Z.eqb negb]. apply wp_ret. cbn [data map concat app length] in *.
    replace (len - count) with (Z.max 0 (len - Z.of_nat (length (frag (a, b)) + 0))) by lia. rewrite app_nil_r in HQ.
    apply (HQ s4 b4 0 []); try done; [|now rewrite drop_ge by lia]. rewrite Hfr4, !take_ge by lia. done.
  - assert (Hnz : om_next b <> 0).
    { apply (seg_nonzero geo s4 (om_next b) (c :: l) 0 ((om2, b4) :: (c :: l) ++ F)); [done| |done|done]. intros x Hx. right. apply elem_of_app. now left. }
    destruct (Z.eqb_spec (om_next b) 0); [done|]. cbn [negb].
    apply (IH s4 b4 (om_next b) (c :: l)); [done|done|done|lia|lia|rewrite Hd4, Hdb4; lia|].
    intros s' b2' om' l' H' Hs' Hfr' Hpk' Ho' Hd' Hi'.
    replace (len - count - _) with (len - Z.of_nat (length (frag (a, b)) + length (data (c :: l)))) by lia.
    apply (HQ s' b2' om' l'); [done|done| |congruence|congruence| |auto].
    + rewrite Hfr', Hfr4, <- app_assoc. f_equal. rewrite take_ge, take_app_ge by lia. do 2 f_equal. lia.
    + rewrite Hd', drop_app_ge by lia. f_equal. lia.
  - apply wp_ret. replace (len - count) with (Z.max 0 (len - Z.of_nat (length (frag (a, b)) + length (data l)))) by lia.
    assert (count = len) as Ec by lia. apply (HQ s4 b4 om' l'); try done; [|now rewrite <- Ec]. now rewrite Hfr4, Ec, take_app_le by lia.
Qed.

(** What [os_mbuf_pullup] leaves: the first [len] bytes are in the first buffer. *)
Definition pulled (l : list cell) (i len : Z) (F : list cell) (r : Z) (s' : mheap) : Prop :=
  exists c l', own s' (c :: l' ++ F) /\ seg r (c :: l') 0 /\ data (c :: l') = data l /\ phead (c :: l') = phead l /\
    in_pool i (c :: l') /\ len <= Z.of_nat (length (frag c)).

(** Its second part: data moves to [om2], and the rest of the chain is linked to it. *)
Lemma wp_pullup_move s om2 b2 om l F i len0 len Q :
  own s ((om2, b2) :: l ++ F) -> seg om l 0 -> l <> [] -> in_pool i ((om2, b2) :: l) -> 0 < len ->
  doff (om2, b2) + om_len b2 + len <= Z.of_nat (length (om_databuf b2)) -> len0 = om_len b2 + len ->
  (forall s', own s' F -> Z.of_nat (length (data ((om2, b2) :: l))) < len0 -> Q 0 s') ->
  (forall s' r, pulled ((om2, b2) :: l) i len0 F r s' -> Q r s') ->
  wp (space ← OS_MBUF_TRAILINGSPACE om2;
      '(om, len) ← with_fuel (fun n => pullup_loop n om om2 len space);
      if 0 <? len then os_mbuf_free om2;; pullup_bad om
      else upd om2 (set_om_next om);; mret om2) Q s.
Proof.
  intros H Hs Hn Hip Hlen Hfit Hl0 Hno Hok. apply Forall_cons in Hip as [Hib Hip].
  pose proof (length_frag geo (om2, b2) (own_wf geo _ _ _ H ltac:(left))) as Hfl. cbn [snd] in Hfl.
  apply wp_bind, (wp_trailing geo s ((om2, b2) :: l ++ F) om2 b2); [done|left|].
  apply wp_bind, wp_fuel, (pullup_loop_spec _ s om2 b2 om l F); [done|done|done| |lia|done|].
  { pose proof (own_length geo _ _ H) as Hx. cbn [length] in Hx. rewrite length_app in Hx. lia. }
  intros s1 b3 om' l' H1 Hs1 Hf1 Hp1 Ho1 Hd1 Hi1. rewrite data_cons, length_app in Hno.
  destruct (Z.ltb_spec 0 (Z.max 0 (len - Z.of_nat (length (data l))))) as [Hlt|Hge].
  - apply wp_bind, (wp_free geo s1 (l' ++ F) om2 b3); [done|]. intros s2 H2.
    apply wp_bind, (wp_free_chain geo s2 om' l' F); [done..|]. intros s3 H3. apply wp_ret, Hno; [done|lia].
  - apply wp_bind, (wp_upd geo s1 [] (l' ++ F) om2 b3); [done|apply cell_wf_next, (own_wf geo _ _ _ H1); left|].
    intros s2 H2 _. apply wp_ret, Hok. exists (om2, set_om_next om' b3), l'. split; [done|]. split; [now split|]. split.
    { rewrite !data_cons, frag_next, Hf1, Hd1, <- app_assoc, take_drop. done. }
    split; [exact Hp1|]. split; [constructor; [cbn in *; congruence|now apply Hi1]|].
    rewrite frag_next, Hf1, length_app, length_take. lia.
Qed.

Lemma wp_pullup s p l F len i n bl Q :
  l <> [] -> own s (l ++ F) -> seg p l 0 -> in_pool i l -> geo !! i = Some (n, bl) -> 0 <= len < 2 ^ 16 ->
  (forall s', own s' F -> Z.of_nat (length (data l)) < len \/ n - hlen l < len \/ nfree s i = 0 -> Q 0 s') ->
  (forall s' r, pulled l i len F r s' -> Q r s') ->
  wp (os_mbuf_pullup p len) Q s.
Proof.
  intros Hn H Hs Hip Hi Hlen Hno Hok. destruct l as [|[om b] l]; [done|]. destruct Hs as [-> Hs]. cbn [fst snd app] in *.
  pose proof (own_wf geo _ _ (om, b) H ltac:(left)) as Hw. pose proof (length_frag geo (om, b) Hw) as Hfl. cbn [snd] in Hfl.
  pose proof Hip as [Hib Hipl]%Forall_cons. cbn [snd] in Hib.
  pose proof Hw as [(n' & bl' & Hi' & _ & _ & Hn' & Hd) Hl Hh Hhl]. cbn [fst snd] in *. rewrite Hib, Hi in Hi'. injection Hi' as <- <-.
  assert (Hbad : forall s', own s' ((om, b) :: l ++ F) ->
    Z.of_nat (length (data ((om, b) :: l))) < len \/ n - hlen ((om, b) :: l) < len \/ nfree s i = 0 -> wp (pullup_bad om) Q s').
  { intros s' H' Hr. apply wp_bind, (wp_free_chain geo s' om ((om, b) :: l) F); [done|now split|]. intros s2 H2. apply wp_ret. auto. }
  apply wp_bind, (wp_load geo s ((om, b) :: l ++ F) om b); [done|left|]. cbv zeta.
  destruct (Z.leb_spec len (om_len b)) as [Hle|Hgt].
  { apply wp_ret, Hok. exists (om, b), l. split; [done|]. split; [now split|]. split; [done|]. split; [done|]. split; [done|lia]. }
  apply wp_bind, (wp_trailing geo s ((om, b) :: l ++ F) om b); [done|left|].
  destruct ((len <=? om_len b + _) && negb (om_next b =? 0)) eqn:Ec.
  { apply andb_true_iff in Ec as [Ec1 Ec2]. apply wp_bind, wp_ret. rewrite u16_small by lia.
    apply (wp_pullup_move s om b (om_next b) l F i len); [done|done| |done|lia|lia|lia|auto|done].
    intros ->. cbn in Hs. rewrite Hs in Ec2. done. }
  clear Ec. rewrite Hib. apply wp_bind, wp_bind, (wp_load_pool geo s ((om, b) :: l ++ F) i n bl); [done..|]. intros pl Hpl Hnr. rewrite Hpl.
  destruct (Z.ltb_spec (n - om_pkthdr_len b) len) as [Hlt|Hge]; [apply wp_ret, Hbad; auto|].
  apply wp_bind, (wp_get geo s ((om, b) :: l ++ F) i n bl); [done|done|lia| |].
  2: { intros [Hx|Hx]; [lia|]. cbn [Z.eqb]. apply wp_ret, Hbad; auto. }
  intros om2 db s1 _ Hfree H1 Hdb. pose proof (own_pos geo _ _ _ H1 ltac:(left)) as Hpp. cbn [fst] in Hpp. destruct (Z.eqb_spec om2 0); [lia|].
  assert (Hmove : forall s2 c, own s2 ((om2, c) :: (om, b) :: l ++ F) -> om_len c = 0 -> om_omp c = i ->
    doff (om2, c) + len <= Z.of_nat (length (om_databuf c)) -> pkt (om2, c) = pkt (om, b) ->
    wp (mret (Some (om2, om, len))) (fun v => wp match v with
      | Some (om2, om, len) =>
        space ← OS_MBUF_TRAILINGSPACE om2;
        '(om, len) ← with_fuel (fun n => pullup_loop n om om2 len space);
        if 0 <? len then os_mbuf_free om2;; pullup_bad om else upd om2 (set_om_next om);; mret om2
      | None => pullup_bad om end Q) s2).
  { intros s2 c H2 Hc1 Hc2 Hc3 Hc4. apply wp_ret.
    assert (Hfc : data ((om2, c) :: (om, b) :: l) = data ((om, b) :: l)).
    { rewrite data_cons. unfold frag at 1. cbn [snd]. now rewrite Hc1. }
    apply (wp_pullup_move s2 om2 c om ((om, b) :: l) F i len); [done|now split|done|now constructor|lia|lia|lia| |].
    - intros s3 H3 Hx. rewrite Hfc in Hx. auto.
    - intros s3 r (c' & l' & Ho & Hs' & Hd' & Hp' & Hi' & Hle). apply Hok. exists c', l'. rewrite Hfc in Hd'. cbn [phead] in Hp'. rewrite Hc4 in Hp'. auto 6. }
  destruct (OS_MBUF_IS_PKTHDR b) eqn:Eh; unfold OS_MBUF_IS_PKTHDR, PKTHDR_SIZE in *.
  - rewrite <- (app_nil_l ((om2, _) :: _)) in H1.
    eapply (wp_copypkthdr geo _ s1 [] ((om, b) :: l ++ F) om2 _ om b); [exact H1|cbn; left|done|lia|cbn; lia|].
    intros s2 c1 H2 Hpk Hh2 Hd2 Hl2 Hn2 Ho2 Hdb2. cbn [app] in H2. apply (Hmove s2 c1); auto. unfold doff. cbn in *. lia.
  - apply wp_bind, wp_ret. apply (Hmove s1 _ H1); try done.
    + unfold doff. cbn. lia.
    + unfold pkt, OS_MBUF_IS_PKTHDR, PKTHDR_SIZE. cbn [snd]. now rewrite Eh.
Qed.

(** [os_mbuf_prepend_pullup] makes room for a protocol header in one buffer. *)
Lemma wp_prepend_pullup s p l F len i n bl Q :
  l <> [] -> own s (l ++ F) -> seg p l 0 -> in_pool i l -> geo !! i = Some (n, bl) -> 0 <= len < 2 ^ 16 ->
  (forall s', own s' F -> Q 0 s') ->
  (forall s' r l1 x, data l1 = x ++ data l -> Z.of_nat (length x) = len -> phead l1 = bump len (phead l) ->
     pulled l1 i len F r s' -> Q r s') ->
  wp (os_mbuf_prepend_pullup p len) Q s.
Proof.
  intros Hn H Hs Hip Hi Hlen Hno Hok. apply wp_bind. eapply (wp_prepend s p l F len i n bl); [done..|lia| |].
  - intros s' H' _. apply wp_ret. auto.
  - intros s1 r l1 x H1 Hs1 Hn1 Hd1 Hx Hp1 Hi1.
    assert (Hr : r <> 0) by (apply (seg_nonzero geo s1 r l1 0 (l1 ++ F)); [done|intros c Hc; incell|done|done]).
    destruct (Z.eqb_spec r 0); [done|]. eapply (wp_pullup s1 r l1 F len i n bl); [done..|auto|]. intros s2 r2 Hp2. now apply (Hok s2 r2 l1 x).
Qed.
End Front.
