(* ===== verification/MbufJoin.v ===== *)
(** * Joining chains

    [os_mbuf_concat] and [os_mbuf_pack_chains] on owned chains. *)
From stdpp Require Import base tactics numbers list gmap.
From Stdlib Require Import ZArith Lia.
From S2P Require Import Prelude Mempool Mbuf MbufHeap MbufEdit MbufLogic MbufChain MbufAppend MbufDup MbufTrim.
Local Open Scope Z_scope.

Section Join.
  Context {CF : MempoolConf} (geo : gmap Z (Z * list Z)).
  Local Abbreviation own := (own geo) (only parsing).
  Local Abbreviation cell_wf := (cell_wf geo) (only parsing).

(** ** [os_mbuf_concat] *)

(** The lengths of the buffers are added to the header. *)
Lemma concat_len_spec fuel s a b L cur l2 h r Q :
  own s ((a, b) :: L) -> l2 ⊆ L -> seg cur l2 0 -> (length l2 < fuel)%nat -> pkt (a, b) = Some (h, r) ->
  (forall s' db, own s' ((a, set_om_databuf db b) :: L) -> frag (a, set_om_databuf db b) = frag (a, b) ->
     pkt (a, set_om_databuf db b) = bump (Z.of_nat (length (data l2))) (pkt (a, b)) -> Q tt s') ->
  wp (concat_len_loop fuel a cur) Q s.
Proof.
  revert s b cur l2 h r Q. induction fuel as [|fuel IH]; intros s b cur l2 h r Q H Hl2 Hs Hf Hp HQ; [lia|]. cbn [concat_len_loop].
  destruct l2 as [|[a' b'] l2].
  { cbn in Hs. subst cur. cbn [Z.eqb]. apply wp_ret.
    assert (Eb : set_om_databuf (om_databuf b) b = b) by now destruct b.
    apply (HQ s (om_databuf b)); rewrite Eb; auto. symmetry. apply bump_0. intros n' r'. apply pkt_range. }
  destruct Hs as [-> Hs]. cbn [fst snd length] in *. assert (Hc : (a', b') ∈ (a, b) :: L) by (right; apply Hl2; left).
  pose proof (own_pos geo _ _ _ H Hc) as Hpos. cbn [fst] in Hpos. destruct (Z.eqb_spec a' 0); [lia|].
  pose proof (length_frag geo (a', b') (own_wf geo _ _ _ H Hc)) as Hfl. cbn [snd] in Hfl.
  apply wp_bind, (wp_load geo s ((a, b) :: L) a' b'); [done..|].
  apply wp_bind, (wp_pktlen geo s ((a, b) :: L) a b h r); [done|left|done|].
  apply wp_bind, (wp_set_pktlen geo s [] L a b h r); [done|done|apply u16_range|]. intros s1 db H1 Hp1 Hf1 _ _.
  eapply (IH s1 (set_om_databuf db b) (om_next b') l2); [exact H1|intros c Hin; apply Hl2; now right|done|lia|exact Hp1|].
  intros s2 db2 H2 Hf2 Hp2. apply (HQ s2 db2); [exact H2|exact (eq_trans Hf2 Hf1)|]. 
  change (set_om_databuf db2 (set_om_databuf db b)) with (set_om_databuf db2 b) in Hp2. rewrite Hp2, Hp1, Hp. cbn [bump].
  rewrite data_cons, length_app. rewrite Nat2Z.inj_add, Hfl. do 2 f_equal. clia.
Qed.

Lemma cell_wf_no_header a b : cell_wf (a, b) -> cell_wf (a, set_om_pkthdr_len 0 b).
Proof. intros [(n & bl & H) Hl Hh _]. constructor; unfold doff in *; cbn in *; [|lia..]. now exists n, bl. Qed.

(** The header of the first packet. *)
Lemma wp_concat_header s p fb L L1 L2 q l2 Q :
  own s ((p, fb) :: L) -> L = L1 ++ l2 ++ L2 -> seg q l2 0 -> l2 <> [] -> synced l2 ->
  (forall s' db, own s' ((p, set_om_databuf db fb) :: L) -> frag (p, set_om_databuf db fb) = frag (p, fb) ->
     pkt (p, set_om_databuf db fb) = bump (Z.of_nat (length (data l2))) (pkt (p, fb)) -> Q tt s') ->
  wp (if OS_MBUF_IS_PKTHDR fb then
        sb ← load q;
        if OS_MBUF_IS_PKTHDR sb then v ← pktlen p; w ← pktlen q; set_pktlen p (u16 (v + w))
        else with_fuel (fun n => concat_len_loop n p q)
      else mret tt) Q s.
Proof.
  intros H EL Hs Hn Hsy HQ. destruct (pkt (p, fb)) as [[h r]|] eqn:Ep.
  2: { unfold pkt in Ep. cbn [snd] in Ep. destruct (OS_MBUF_IS_PKTHDR fb) eqn:Eh; [done|]. apply wp_ret.
    assert (Eb : set_om_databuf (om_databuf fb) fb = fb) by now destruct fb.
    apply (HQ s (om_databuf fb)); rewrite Eb; auto. unfold pkt. cbn [snd]. now rewrite Eh. }
  destruct (pkt_len_bytes geo p fb h r (own_wf geo _ _ _ H ltac:(left)) Ep) as (-> & _).
  assert (Hlen : (length l2 < S (size (mem s)))%nat).
  { pose proof (own_length geo _ _ H) as Hl. rewrite EL in Hl. cbn [length] in Hl. rewrite !length_app in Hl. lia. }
  assert (Hl2 : l2 ⊆ L) by (intros c Hc; rewrite EL, !elem_of_app; auto). clear EL.
  destruct l2 as [|[q' sb] l2]; [done|]. pose proof Hs as [-> _]. cbn [fst] in *.
  assert (Hq : (q', sb) ∈ (p, fb) :: L) by (right; apply Hl2; left).
  apply wp_bind, (wp_load geo s ((p, fb) :: L) q' sb); [done|done|].
  destruct (pkt (q', sb)) as [[w r2]|] eqn:Ep2.
  - destruct (pkt_len_bytes geo q' sb w r2 (own_wf geo _ _ _ H Hq) Ep2) as (-> & _).
    apply wp_bind, (wp_pktlen geo s ((p, fb) :: L) p fb h r); [done|left|done|].
    apply wp_bind, (wp_pktlen geo s ((p, fb) :: L) q' sb w r2); [done|done|done|].
    apply (wp_set_pktlen geo s [] L p fb h r); [done|done|apply u16_range|].
    intros s2 db H2 Hp2 Hf2 _ _. apply (HQ s2 db); [done|done|]. rewrite Hp2. cbn [bump]. do 2 f_equal.
    unfold synced in Hsy. cbn [phead] in Hsy. rewrite Ep2 in Hsy. rewrite Hsy. clia.
  - assert (OS_MBUF_IS_PKTHDR sb = false) as ->.
    { unfold pkt in Ep2. cbn [snd] in Ep2. now destruct (OS_MBUF_IS_PKTHDR sb). }
    apply wp_fuel. eapply (concat_len_spec _ s p fb L q' ((q', sb) :: l2)); [done|done|done|done|exact Ep|].
    intros s2 db H2 Hf2 Hp2. apply (HQ s2 db); [done|done|]. now rewrite Hp2, Ep.
Qed.

Lemma wp_concat s p l q l2 F Q :
  l <> [] -> l2 <> [] -> own s (l ++ l2 ++ F) -> seg p l 0 -> seg q l2 0 -> synced l2 ->
  (forall s' l', own s' (l' ++ F) -> seg p l' 0 -> l' <> [] -> data l' = data l ++ data l2 ->
     phead l' = bump (Z.of_nat (length (data l2))) (phead l) ->
     (forall i, in_pool i l -> in_pool i l2 -> in_pool i l') -> Q tt s') ->
  wp (os_mbuf_concat p q) Q s.
Proof.
  intros Hn Hn2 H Hs Hs2 Hsy HQ. destruct (exists_last Hn) as (l1 & [a b] & El).
  assert (H1 : own s (l1 ++ (a, b) :: l2 ++ F)) by (rewrite El, <- app_assoc in H; exact H).
  apply wp_bind, (wp_last geo s p l1 a b (l2 ++ F)); [done|now rewrite <- El|].
  apply wp_bind, (wp_upd geo s l1 (l2 ++ F) a b); [done|apply cell_wf_next, (own_wf geo _ _ _ H1); incell|]. intros s1 H2 _.
  destruct (l1 ++ [(a, set_om_next q b)]) as [|[p' fb] l3] eqn:E3; [now destruct l1|].
  assert (Hd3 : map frag ((p', fb) :: l3) = map frag l) by (rewrite <- E3, El, !map_app; done).
  assert (Hp3 : pkt (p', fb) = phead l) by (change (phead ((p', fb) :: l3) = phead l); rewrite <- E3, El; now destruct l1).
  assert (Hi3 : forall i, in_pool i l -> in_pool i ((p', fb) :: l3)).
  { intros i. apply pool_same. rewrite <- E3, El, !map_app. done. }
  assert (Hs3 : seg p ((p', fb) :: l3) q).
  { rewrite <- E3. rewrite El in Hs. apply seg_snoc in Hs as [Hs _]. now apply seg_snoc. }
  destruct Hs3 as [-> Hs3]. cbn [fst snd] in *.
  assert (H3 : own s1 ((p', fb) :: l3 ++ l2 ++ F)).
  { change ((p', fb) :: l3 ++ l2 ++ F) with (((p', fb) :: l3) ++ l2 ++ F). rewrite <- E3, <- app_assoc. exact H2. }
  clear H2 H1 E3 H. destruct l2 as [|[q' sb] l2]; [done|]. pose proof Hs2 as [-> Hs2']. cbn [fst snd] in *.
  apply wp_bind, (wp_load geo s1 ((p', fb) :: l3 ++ ((q', sb) :: l2) ++ F) p' fb); [done|left|]. apply wp_bind.
  assert (Hend : forall s2 db, own s2 ((p', set_om_databuf db fb) :: l3 ++ ((q', sb) :: l2) ++ F) ->
    frag (p', set_om_databuf db fb) = frag (p', fb) ->
    pkt (p', set_om_databuf db fb) = bump (Z.of_nat (length (data ((q', sb) :: l2)))) (pkt (p', fb)) ->
    wp (upd q' (set_om_pkthdr_len 0)) Q s2).
  { intros s2 db H2 Hf2 Hp2. assert (H2' : own s2 (((p', set_om_databuf db fb) :: l3) ++ (q', sb) :: l2 ++ F)) by exact H2.
    apply (wp_upd geo s2 ((p', set_om_databuf db fb) :: l3) (l2 ++ F) q' sb); [done|apply cell_wf_no_header, (own_wf geo _ _ _ H2'); incell|].
    intros s4 H4 _. apply (HQ s4 (((p', set_om_databuf db fb) :: l3) ++ (q', set_om_pkthdr_len 0 sb) :: l2)).
    - rewrite <- app_assoc. exact H4.
    - apply seg_app. exists q'. split; [now split|now split].
    - done.
    - rewrite data_app. f_equal. rewrite data_cons, Hf2, <- data_cons. unfold data. now rewrite Hd3.
    - cbn [app phead]. rewrite Hp2. now rewrite Hp3.
    - intros i Hi1 Hi2. apply Hi3 in Hi1. unfold in_pool in *. rewrite Forall_app. split.
      + apply Forall_cons in Hi1 as [Hx1 Hx2]. now constructor.
      + apply Forall_cons in Hi2 as [Hx1 Hx2]. now constructor. }
  eapply (wp_concat_header s1 p' fb _ l3 F q' ((q', sb) :: l2)); [exact H3|done|done|done|done|]. exact Hend.
Qed.

(** ** [os_mbuf_pack_chains] *)

(** Empty buffers behind [cur] are freed. *)
Lemma pack_free_spec fuel s L1 cur cb next l F Q :
  own s (L1 ++ (cur, cb) :: l ++ F) -> om_next cb = next -> seg next l 0 -> l <> [] -> (length l <= fuel)%nat ->
  (forall s' v l', own s' (L1 ++ (cur, set_om_next v cb) :: l' ++ F) -> seg v l' 0 -> data l' = data l ->
     (forall i, in_pool i l -> in_pool i l') -> (length l' <= length l)%nat ->
     (match l with c :: _ => om_len c.2 = 0 -> (length l' < length l)%nat | [] => True end) -> Q v s') ->
  wp (pack_free_loop fuel cur next) Q s.
Proof.
  revert s cb next l Q. induction fuel as [|fuel IH]; intros s cb next l Q H Hb Hs Hn Hf HQ.
  { destruct l; [done|cbn in Hf; lia]. }
  destruct l as [|[a c] l]; [done|]. destruct Hs as [Ea Hs]. cbn [fst snd app length pack_free_loop] in *. rewrite Ea in *.
  pose proof (own_wf geo _ _ (a, c) H ltac:(incell)) as Hw. pose proof (length_frag geo (a, c) Hw) as Hfl. cbn [snd] in Hfl.
  apply wp_bind, (wp_load geo s (L1 ++ (cur, cb) :: (a, c) :: l ++ F) a c); [done|incell|].
  destruct (Z.eqb_spec (om_len c) 0) as [E|E]; cbn [negb].
  2: { apply wp_ret, (HQ s a ((a, c) :: l)); auto; [now rewrite set_om_next_id|now split|done]. }
  apply wp_bind, (wp_upd geo s L1 ((a, c) :: l ++ F) cur cb); [done|apply cell_wf_next, (own_wf geo _ _ _ H); incell|].
  intros s1 H1 _. apply wp_bind, (wp_free geo s1 (L1 ++ (cur, set_om_next (om_next c) cb) :: l ++ F) a c); [perm|].
  intros s2 H2. apply wp_bind. eapply (wp_load geo s2); [exact H2|incell|]. cbn [set_om_next om_next].
  assert (Hd : data ((a, c) :: l) = data l) by (rewrite data_cons; destruct (frag (a, c)); [done|cbn in Hfl; lia]).
  destruct l as [|c2 l].
  - cbn in Hs. rewrite Hs. cbn [Z.eqb]. apply wp_ret, (HQ s2 0 []); [now rewrite Hs in H2|done|done| |cbn; lia|cbn; lia].
    intros i _. constructor.
  - assert (Hnz : om_next c <> 0).
    { apply (seg_nonzero geo s2 (om_next c) (c2 :: l) 0 (L1 ++ (cur, set_om_next (om_next c) cb) :: (c2 :: l) ++ F)); [done| |done|done].
      intros x Hx. rewrite elem_of_app, elem_of_cons, elem_of_app. auto. }
    destruct (Z.eqb_spec (om_next c) 0); [done|].
    apply (IH s2 (set_om_next (om_next c) cb) (om_next c) (c2 :: l)); [done|done|done|done|lia|].
    intros s3 v l' H3 Hs3 Hd3 Hi3 Hl3 _. apply (HQ s3 v l'); auto.
    + now rewrite Hd, Hd3.
    + intros i [_ Hx]%Forall_cons. auto.
    + cbn [length] in *. lia.
Qed.

(** [cur] is filled from the buffers behind it. *)
Lemma pack_copy_spec fuel s L1 cur cb next l F rem_len Q :
  own s (L1 ++ (cur, cb) :: l ++ F) -> om_next cb = next -> seg next l 0 -> (length l < fuel)%nat ->
  rem_len = Z.of_nat (length (om_databuf cb)) - (doff (cur, cb) + om_len cb) ->
  (forall s' b' v l', own s' (L1 ++ (cur, b') :: l' ++ F) -> om_next b' = v -> seg v l' 0 ->
     frag (cur, b') ++ data l' = frag (cur, cb) ++ data l -> pkt (cur, b') = pkt (cur, cb) -> om_omp b' = om_omp cb ->
     (forall i, in_pool i l -> in_pool i l') -> (length l' <= length l)%nat -> Q v s') ->
  wp (pack_copy_loop fuel cur next rem_len) Q s.
Proof.
  revert s cb next l rem_len Q. induction fuel as [|fuel IH]; intros s cb next l rem_len Q H Hb Hs Hf Hr HQ; [lia|].
  cbn [pack_copy_loop]. assert (Hid : Q next s) by (apply (HQ s cb next l); auto).
  destruct l as [|[a c] l]. { cbn in Hs. rewrite Hs in *. rewrite orb_true_r. now apply wp_ret. }
  destruct Hs as [Ea Hs]. cbn [fst snd app length] in *. rewrite Ea in *.
  pose proof (own_pos geo _ _ (a, c) H ltac:(incell)) as Hpos. cbn [fst] in Hpos. destruct (Z.eqb_spec a 0); [lia|]. rewrite orb_false_r.
  destruct (Z.eqb_spec rem_len 0) as [E|E]; [now apply wp_ret|].
  pose proof (own_wf geo _ _ (a, c) H ltac:(incell)) as Hw. pose proof (length_frag geo (a, c) Hw) as Hfl. cbn [snd] in Hfl.
  pose proof (own_wf geo _ _ (cur, cb) H ltac:(incell)) as [(n2 & bl2 & Hg2 & _ & _ & Hn2 & Hd2) Hl2 Hh2 _].
  pose proof (proj1 (proj1 H) _ _ _ Hg2) as [_ Hnr]. pose proof (om_len_bound geo (a, c) (proj1 H) Hw) as Hlb. cbn [fst snd] in *.
  apply wp_bind, (wp_load geo s (L1 ++ (cur, cb) :: (a, c) :: l ++ F) a c); [done|incell|]. cbv zeta.
  set (k := Z.min rem_len (om_len c)). rewrite (u16_small k) by lia.
  replace (om_data c) with (om_data c + 0) by lia.
  apply wp_bind, (wp_mread_frag geo s (L1 ++ (cur, cb) :: (a, c) :: l ++ F) a c); [done|incell|lia..|].
  change (Z.to_nat 0) with 0%nat. set (bs := slice 0 (Z.to_nat k) (frag (a, c))).
  assert (Hbs : length bs = Z.to_nat k) by (apply length_slice; lia).
  assert (Ebs : bs = take (Z.to_nat k) (frag (a, c))) by (unfold bs, slice; now rewrite drop_0).
  apply wp_bind, (wp_load geo s (L1 ++ (cur, cb) :: (a, c) :: l ++ F) cur cb); [done|incell|].
  apply (wp_push geo _ s L1 ((a, c) :: l ++ F) cur cb); [done|lia|lia|].
  intros s1 b1 H1 Hf1 Hp1 Hn1 Ho1 Hl1 _ Hd1 Hdb1 _. apply wp_upd_upd.
  assert (E2 : set_om_len (u16 (om_len (set_om_data (om_data c + k) c) - k)) (set_om_data (om_data c + k) c) =
    set_om_data (om_data c + k) (set_om_len (om_len c - k) c)) by (cbn; rewrite u16_small by lia; done).
  apply wp_bind, (wp_upd geo s1 (L1 ++ [(cur, b1)]) (l ++ F) a c); [now rewrite <- app_assoc| |].
  { rewrite E2. pose proof Hw as [(n' & bl' & Hg' & Ha' & Hp' & Hn' & Hd') Hl' Hh' Hhl']. constructor; unfold doff in *; cbn in *; [|lia|lia|done].
    exists n', bl'. split; [done|]. split; [done|]. split; [done|]. split; [done|lia]. }
  intros s2 H2 _. rewrite E2 in H2. set (c2 := set_om_data (om_data c + k) (set_om_len (om_len c - k) c)) in *.
  assert (Hf2 : frag (a, c2) = drop (Z.to_nat k) (frag (a, c))) by (apply (frag_advance geo); [done|lia|done]).
  rewrite <- app_assoc in H2. cbn [app] in H2.
  apply wp_bind, wp_fuel, (pack_free_spec _ s2 L1 cur b1 a ((a, c2) :: l) F); [done|congruence|now split|done| |].
  { pose proof (own_length geo _ _ H2) as Hx. rewrite length_app in Hx. cbn [length] in *. rewrite length_app in Hx. lia. }
  intros s3 v l' H3 Hs3 Hd3 Hi3 Hle3 Hlt3. cbn [length snd] in Hle3, Hlt3. rewrite u16_small by lia.
  assert (Hcase : (length l' < fuel)%nat \/ rem_len - k = 0).
  { destruct (Z.eq_dec (om_len c) k) as [Ek|Ek]; [left|right; lia].
    specialize (Hlt3 ltac:(cbn; lia)). lia. }
  assert (Hdat : forall y, frag (cur, b1) ++ data l' = y -> y = frag (cur, cb) ++ data ((a, c) :: l)).
  { intros y <-. rewrite Hf1, Hd3, !data_cons, Hf2, Ebs, <- app_assoc. f_equal. rewrite app_assoc, take_drop. done. }
  assert (Hfin : forall s' b' v' l2, own s' (L1 ++ (cur, b') :: l2 ++ F) -> om_next b' = v' -> seg v' l2 0 ->
     frag (cur, b') ++ data l2 = frag (cur, b1) ++ data l' -> pkt (cur, b') = pkt (cur, b1) -> om_omp b' = om_omp b1 ->
     (forall i, in_pool i l' -> in_pool i l2) -> (length l2 <= length l')%nat -> Q v' s').
  { intros s' b' v' l2 H' Hv' Hs' Hf' Hp' Ho' Hi' Hl'. apply (HQ s' b' v' l2); auto; [congruence|congruence| |cbn; lia].
    intros i [Hx1 Hx2]%Forall_cons. apply Hi', Hi3. now constructor. }
  destruct Hcase as [Hc|Hc].
  - apply (IH s3 (set_om_next v b1) v l'); [done|done|done|done| |].
    + change (doff (cur, set_om_next v b1)) with (doff (cur, b1)). cbn [set_om_next om_databuf om_len]. rewrite Hdb1, Hd1, Hl1. lia.
    + intros s' b' v' l2 H' Hv' Hs' Hf' Hp' Ho' Hi' Hl'. now apply (Hfin s' b' v' l2).
  - destruct fuel as [|fuel]; [lia|]. cbn [pack_copy_loop]. rewrite Hc. cbn [Z.eqb orb].
    apply wp_ret, (Hfin s3 (set_om_next v b1) v l'); done.
Qed.

(** The data of one buffer is moved to the start of the room for it. *)
Lemma wp_pack_shift s L1 L2 a b Q :
  own s (L1 ++ (a, b) :: L2) ->
  (forall s' b', own s' (L1 ++ (a, b') :: L2) -> frag (a, b') = frag (a, b) -> pkt (a, b') = pkt (a, b) ->
     om_next b' = om_next b -> om_omp b' = om_omp b -> Q tt s') ->
  wp (b ← load a;
      let dptr := a + MBUF_SIZE + (if OS_MBUF_IS_PKTHDR b then om_pkthdr_len b else 0) in
      bs ← mread a (om_data b) (om_len b); mwrite a dptr bs;; upd a (set_om_data dptr)) Q s.
Proof.
  intros H HQ. pose proof (own_wf geo _ _ (a, b) H ltac:(incell)) as Hw. pose proof (length_frag geo (a, b) Hw) as Hfl.
  pose proof Hw as [(n & bl & Hg & Ha & Hp & Hn & Hd) Hl Hh Hhl]. cbn [fst snd] in *.
  apply wp_bind, (wp_load geo s (L1 ++ (a, b) :: L2) a b); [done|incell|]. cbv zeta.
  replace (if OS_MBUF_IS_PKTHDR b then om_pkthdr_len b else 0) with (om_pkthdr_len b).
  2: { unfold OS_MBUF_IS_PKTHDR. destruct (Z.leb_spec PKTHDR_SIZE (om_pkthdr_len b)); lia. }
  replace (om_data b) with (om_data b + 0) at 1 by lia.
  apply wp_bind, (wp_mread_frag geo s (L1 ++ (a, b) :: L2) a b); [done|incell|lia..|]. change (Z.to_nat 0) with 0%nat.
  assert (Ef : slice 0 (Z.to_nat (om_len b)) (frag (a, b)) = frag (a, b)) by (unfold slice; rewrite drop_0, take_ge; [done|lia]).
  rewrite Ef. assert (Ep : a + MBUF_SIZE + om_pkthdr_len b - (a + MBUF_SIZE) = om_pkthdr_len b) by lia.
  apply wp_bind, (wp_mwrite geo s L1 L2 a b); [done|lia|lia|]. intros s1 H1 _. set (b1 := wr a _ _ b) in *.
  assert (Hdb : length (om_databuf b1) = length (om_databuf b)) by (cbn; apply splice_length; lia).
  apply (wp_upd geo s1 L1 L2 a b1); [done| |].
  { constructor; unfold doff in *; cbn in *; [|lia|lia|done]. exists n, bl. split; [done|]. split; [done|]. split; [done|]. lia. }
  intros s2 H2 _. apply (HQ s2 _ H2); try done.
  - unfold frag at 1, doff. cbn [fst snd set_om_data om_data om_len om_databuf]. cbn [b1 wr set_om_databuf om_databuf om_len]. rewrite Ep.
    replace (Z.to_nat (om_len b)) with (length (frag (a, b))) by lia. apply slice_splice_same; lia.
  - change (pkt (a, b1) = pkt (a, b)). apply (pkt_wr geo); [done|lia..].
Qed.

Lemma pack_loop_spec fuel s L1 cur l F Q :
  own s (L1 ++ l ++ F) -> seg cur l 0 -> l <> [] -> (length l <= fuel)%nat ->
  (forall s' l', own s' (L1 ++ l' ++ F) -> seg cur l' 0 -> l' <> [] -> data l' = data l -> phead l' = phead l ->
     (forall i, in_pool i l -> in_pool i l') -> Q tt s') ->
  wp (pack_loop fuel cur) Q s.
Proof.
  revert s L1 cur l Q. induction fuel as [|fuel IH]; intros s L1 cur l Q H Hs Hn Hf HQ.
  { destruct l; [done|cbn in Hf; lia]. }
  destruct l as [|[a b] l]; [done|]. destruct Hs as [-> Hs]. cbn [fst snd app length pack_loop] in *.
  apply wp_bind, (wp_leading geo s (L1 ++ (a, b) :: l ++ F) a b); [done|incell|]. apply wp_bind.
  assert (Hrest : forall s1 b1, own s1 (L1 ++ (a, b1) :: l ++ F) -> frag (a, b1) = frag (a, b) -> pkt (a, b1) = pkt (a, b) ->
     om_next b1 = om_next b -> om_omp b1 = om_omp b ->
     wp (b ← load a; rem_len ← OS_MBUF_TRAILINGSPACE a;
         next ← with_fuel (fun n => pack_copy_loop n a (om_next b) rem_len);
         if next =? 0 then mret tt else pack_loop fuel next) Q s1).
  { intros s1 b1 H1 Hf1 Hp1 Hn1 Ho1. apply wp_bind, (wp_load geo s1 (L1 ++ (a, b1) :: l ++ F) a b1); [done|incell|].
    apply wp_bind, (wp_trailing geo s1 (L1 ++ (a, b1) :: l ++ F) a b1); [done|incell|].
    apply wp_bind, wp_fuel, (pack_copy_spec _ s1 L1 a b1 (om_next b1) l F); [done|done|now rewrite Hn1| |done|].
    { pose proof (own_length geo _ _ H1) as Hx. rewrite length_app in Hx. cbn [length] in Hx. rewrite length_app in Hx. lia. }
    intros s2 b2 v l' H2 Hv Hs2 Hf2 Hp2 Ho2 Hi2 Hl2. destruct l' as [|c l'].
    - cbn in Hs2. rewrite Hs2 in *. cbn [Z.eqb]. apply wp_ret, (HQ s2 [(a, b2)]); try done.
      + rewrite data_cons, Hf2, data_cons. congruence.
      + cbn [phead]. congruence.
      + intros i [Hx1 _]%Forall_cons. constructor; [cbn in *; congruence|constructor].
    - assert (Hnz : v <> 0).
      { apply (seg_nonzero geo s2 v (c :: l') 0 (L1 ++ (a, b2) :: (c :: l') ++ F)); [done| |done|done].
        intros x Hx. rewrite elem_of_app, elem_of_cons, elem_of_app. auto. }
      destruct (Z.eqb_spec v 0); [done|]. apply (IH s2 (L1 ++ [(a, b2)]) v (c :: l')); [now rewrite <- app_assoc|done|done|lia|].
      intros s3 l3 H3 Hs3 Hn3 Hd3 Hp3 Hi3. apply (HQ s3 ((a, b2) :: l3)); [now rewrite <- app_assoc in H3| |done| | |].
      + split; [done|]. cbn [snd]. now rewrite Hv.
      + rewrite data_cons, Hd3, Hf2, data_cons. congruence.
      + cbn [phead]. congruence.
      + intros i [Hx1 Hx2]%Forall_cons. constructor; [cbn in *; congruence|]. now apply Hi3, Hi2. }
  destruct (Z.eqb_spec (doff (a, b) - om_pkthdr_len b) 0) as [E|E]; cbn [negb].
  - apply wp_ret, (Hrest s b); done.
  - apply (wp_pack_shift s L1 (l ++ F) a b); [done|]. intros s1 b1 H1 Hf1 Hp1 Hn1 Ho1. now apply (Hrest s1 b1).
Qed.

Lemma wp_pack_chains s p l q l2 F Q :
  l <> [] -> own s (l ++ l2 ++ F) -> seg p l 0 -> seg q l2 0 -> synced l2 ->
  (forall s' l', own s' (l' ++ F) -> seg p l' 0 -> l' <> [] -> data l' = data l ++ data l2 ->
     phead l' = bump (Z.of_nat (length (data l2))) (phead l) ->
     (forall i, in_pool i l -> in_pool i l2 -> in_pool i l') -> Q p s') ->
  wp (os_mbuf_pack_chains p q) Q s.
Proof.
  intros Hn H Hs Hs2 Hsy HQ. assert (Hp0 : p <> 0) by (apply (seg_nonzero geo s p l 0 (l ++ l2 ++ F)); auto; intros c Hc; incell).
  unfold os_mbuf_pack_chains. destruct (Z.eqb_spec p 0); [done|]. apply wp_bind.
  assert (Hrest : forall s1 l1, own s1 (l1 ++ F) -> seg p l1 0 -> l1 <> [] -> data l1 = data l ++ data l2 ->
     phead l1 = bump (Z.of_nat (length (data l2))) (phead l) ->
     (forall i, in_pool i l -> in_pool i l2 -> in_pool i l1) ->
     wp (with_fuel (fun n => pack_loop n p);; mret p) Q s1).
  { intros s1 l1 H1 Hs1 Hn1 Hd1 Hp1 Hi1. apply wp_bind, wp_fuel, (pack_loop_spec _ s1 [] p l1 F); [done..| |].
    { pose proof (own_length geo _ _ H1) as Hx. rewrite length_app in Hx. lia. }
    intros s2 l' H2 Hs2' Hn2 Hd2 Hp2 Hi2. apply wp_ret, (HQ s2 l'); auto; congruence. }
  destruct l2 as [|c l2].
  - cbn in Hs2. subst q. cbn [Z.eqb negb]. apply wp_ret, (Hrest s l); auto.
    + now rewrite app_nil_r.
    + cbn. symmetry. apply phead_bump_0.
  - assert (Hq : q <> 0).
    { apply (seg_nonzero geo s q (c :: l2) 0 (l ++ (c :: l2) ++ F)); [done| |done|done]. intros x Hx. rewrite !elem_of_app. auto. }
    destruct (Z.eqb_spec q 0); [done|]. cbn [negb]. apply (wp_concat s p l q (c :: l2) F); [done..|].
    intros s1 l1 H1 Hs1 Hn1 Hd1 Hp1 Hi1. now apply (Hrest s1 l1).
Qed.
End Join.
