(* ===== verification/MbufRead.v ===== *)
(** * Reading chains

    [os_mbuf_copydata], [os_mbuf_cmpf] and [os_mbuf_cmpm] read owned chains and change
    nothing: the first one is [Mbuf.os_mbuf_copydata] of the fragments, the other two
    compare ranges of the data. *)
From stdpp Require Import base tactics numbers list gmap.
From Stdlib Require Import ZArith Lia.
From S2P Require Import Prelude Mempool Mbuf MbufHeap MbufEdit MbufLogic MbufChain.
Local Open Scope Z_scope.

(** ** Comparison of byte strings *)

(** [n] bytes are compared; [INT_MAX] when one side is too short for it. *)
Definition cmp_bytes (n : nat) (xs ys : list Z) : Z :=
  let rc := memcmp xs ys in
  if rc =? 0 then if (Nat.min (length xs) (length ys) <? n)%nat then INT_MAX else 0 else rc.

Lemma memcmp_app x y xs ys :
  length x = length y -> memcmp (x ++ xs) (y ++ ys) = if memcmp x y =? 0 then memcmp xs ys else memcmp x y.
Proof.
  revert y. induction x as [|a x IH]; intros [|b y] E; try done. cbn [app memcmp]. destruct (Z.eqb_spec a b); [now apply IH; injection E|].
  destruct (Z.eqb_spec (a - b) 0); [lia|done].
Qed.

Lemma cmp_bytes_app n x y xs ys :
  length x = length y -> (length x <= n)%nat ->
  cmp_bytes n (x ++ xs) (y ++ ys) = if memcmp x y =? 0 then cmp_bytes (n - length x) xs ys else memcmp x y.
Proof.
  intros E Hn. unfold cmp_bytes. rewrite memcmp_app by done. destruct (Z.eqb_spec (memcmp x y) 0) as [H|H].
  - destruct (memcmp xs ys =? 0); [|done]. rewrite !length_app.
    destruct (Nat.ltb_spec (Nat.min (length x + length xs) (length y + length ys)) n),
      (Nat.ltb_spec (Nat.min (length xs) (length ys)) (n - length x)); try done; lia.
  - destruct (Z.eqb_spec (memcmp x y) 0); done.
Qed.

Lemma memcmp_eq xs ys : length xs = length ys -> memcmp xs ys = 0 <-> xs = ys.
Proof.
  revert ys. induction xs as [|x xs IH]; intros [|y ys] E; try done. cbn [memcmp]. injection E as E.
  destruct (Z.eqb_spec x y) as [-> |Hne]; [|split; [lia|congruence]].
  rewrite IH by done. split; [now intros ->|now intros [= ->]].
Qed.

(** The result is 0 exactly for two ranges that have all of the bytes and are equal. *)
Lemma cmp_bytes_0 n xs ys :
  (length xs <= n)%nat -> (length ys <= n)%nat -> cmp_bytes n xs ys = 0 <-> length xs = n /\ xs = ys.
Proof.
  intros Hx Hy. unfold cmp_bytes. destruct (Z.eqb_spec (memcmp xs ys) 0) as [E|E].
  - destruct (Nat.ltb_spec (length xs `min` length ys) n).
    + split; [unfold INT_MAX; lia|]. intros [? <-]. lia.
    + assert (length xs = length ys) by lia. rewrite memcmp_eq in E by done. split; [intros _; split; [lia|done]|done].
  - split; [done|]. intros [_ <-]. now rewrite (proj2 (memcmp_eq xs xs eq_refl)) in E.
Qed.

Section Read.
  Context {CF : MempoolConf} (geo : gmap Z (Z * list Z)).
  Local Abbreviation own := (own geo) (only parsing).

(** ** [os_mbuf_copydata] *)
Lemma seek_spec fuel s p l L off :
  own s L -> l ⊆ L -> seg p l 0 -> (length l < fuel)%nat -> 0 <= off ->
  match Mbuf.mbuf_seek (map frag l) off with
  | None => seek_loop fuel p off s = Ok (None, s)
  | Some (m, o) => exists q l', seek_loop fuel p off s = Ok (Some (q, o), s) /\ m = map frag l' /\ seg q l' 0 /\ l' ⊆ L /\
      (length l' <= length l)%nat
  end.
Proof.
  revert p fuel off. induction l as [|[a b] l IH]; intros p fuel off H Hl Hs Hf Ho;
    (destruct fuel as [|fuel]; [cbn in Hf; lia|]); cbn [seek_loop map Mbuf.mbuf_seek].
  - destruct (Z.leb_spec off 0); [exists p, []; auto 6|]. cbn in Hs. subst p. done.
  - destruct (Z.leb_spec off 0); [exists p, ((a, b) :: l); auto 6|].
    destruct Hs as [-> Hs]. cbn [fst snd length] in *. assert (Hc : (a, b) ∈ L) by (apply Hl; left).
    pose proof (own_pos geo _ _ (a, b) H Hc). cbn [fst] in *. destruct (Z.eqb_spec a 0); [lia|].
    pose proof (length_frag geo (a, b) (own_wf geo _ _ _ H Hc)) as Hfl. cbn [snd] in Hfl.
    unfold mbind, M_bind. rewrite (own_load geo s L a b H Hc). rewrite Hfl. destruct (Z.ltb_spec off (om_len b)).
    + exists a, ((a, b) :: l). split; [done|]. split; [done|]. split; [now split|]. auto.
    + assert (Hl' : l ⊆ L) by (intros c Hin; apply Hl; now right).
      specialize (IH (om_next b) fuel (off - om_len b) H Hl' Hs ltac:(lia) ltac:(lia)).
      destruct (Mbuf.mbuf_seek _ _) as [[m o]|]; [|done]. destruct IH as (q & l' & E & Hm & Hq & Hl2 & Hlen).
      exists q, l'. auto 6.
Qed.

Lemma copy_spec fuel s p l L off len :
  own s L -> l ⊆ L -> seg p l 0 -> (length l < fuel)%nat -> 0 <= off -> 0 <= len ->
  match l with [] => True | c :: _ => off <= om_len c.2 end ->
  copy_loop fuel p off len s = Ok (Mbuf.mbuf_copy (map frag l) off len, s).
Proof.
  revert p fuel off len. induction l as [|[a b] l IH]; intros p fuel off len H Hl Hs Hf Ho Hlen Hb;
    (destruct fuel as [|fuel]; [cbn in Hf; lia|]); cbn [copy_loop map Mbuf.mbuf_copy].
  - cbn in Hs. subst p. rewrite orb_true_r. now destruct (len <=? 0).
  - destruct Hs as [-> Hs]. cbn [fst snd length] in *. assert (Hc : (a, b) ∈ L) by (apply Hl; left).
    pose proof (own_pos geo _ _ (a, b) H Hc). cbn [fst] in *. destruct (Z.eqb_spec a 0); [lia|]. rewrite orb_false_r.
    destruct (Z.leb_spec len 0); [done|].
    pose proof (length_frag geo (a, b) (own_wf geo _ _ _ H Hc)) as Hfl. cbn [snd] in Hfl.
    unfold mbind at 1, M_bind at 1. rewrite (own_load geo s L a b H Hc). cbv zeta.
    destruct (wp_mread_frag geo s L a b off (Z.min (om_len b - off) len)
      (fun v s' => v = slice (Z.to_nat off) (Z.to_nat (Z.min (om_len b - off) len)) (frag (a, b)) /\ s' = s))
      as (bs & s' & E & -> & ->); [done|done|lia|lia|lia|done|].
    unfold mbind at 1, M_bind at 1. rewrite E. unfold mbind, M_bind. rewrite IH; [|done| |done|lia|lia|lia| ].
    + rewrite Hfl. now destruct (Mbuf.mbuf_copy _ _ _).
    + intros c Hin. apply Hl. now right.
    + destruct l as [|c l]; [done|]. now pose proof (own_wf geo _ _ c H ltac:(apply Hl; right; left)) as [_ ? _ _].
Qed.

Lemma copydata_spec s p l F off len :
  own s (l ++ F) -> seg p l 0 -> 0 <= off -> 0 <= len ->
  MbufHeap.os_mbuf_copydata p off len s = Ok (Mbuf.os_mbuf_copydata (map frag l) off len, s).
Proof.
  intros H Hs Ho Hlen. unfold MbufHeap.os_mbuf_copydata, Mbuf.os_mbuf_copydata. destruct (Z.eqb_spec len 0); [done|].
  assert (Hl : l ⊆ l ++ F) by (intros c Hc; apply elem_of_app; now left).
  assert (Hf : (length l < S (size (mem s)))%nat) by (pose proof (own_length geo s _ H) as Hx; rewrite length_app in Hx; lia).
  pose proof (seek_spec (S (size (mem s))) s p l (l ++ F) off H Hl Hs Hf Ho) as Hk.
  pose proof (mbuf_seek_flat (map frag l) off Ho) as Hflat.
  unfold mbind, M_bind, with_fuel. destruct (Mbuf.mbuf_seek _ _) as [[m o]|]; [|now rewrite Hk].
  destruct Hk as (q & l' & E & -> & Hq & Hl2 & Hle). rewrite E. destruct Hflat as (Ho2 & _ & Hb).
  rewrite (copy_spec _ s q l' (l ++ F)); [|done|done|done|lia|done|done|].
  - now destruct (Mbuf.mbuf_copy _ _ _).
  - destruct l' as [|c l']; [done|]. cbn [map] in Hb. rewrite (length_frag geo c) in Hb by (apply (own_wf geo _ _ _ H), Hl2; left).
    pose proof (own_wf geo _ _ c H ltac:(apply Hl2; left)) as [_ ? _ _]. lia.
Qed.

(** ** [os_mbuf_cmpf] *)
Lemma cmpf_spec fuel s p l L om_off d data_off :
  own s L -> l ⊆ L -> seg p l 0 -> (length l < fuel)%nat -> 0 <= om_off ->
  match l with [] => True | c :: _ => om_off <= om_len c.2 end ->
  0 <= data_off < Z.of_nat (length d) -> Z.of_nat (length d) < 2 ^ 16 ->
  cmpf_loop fuel p om_off d data_off s =
  Ok (cmp_bytes (length d - Z.to_nat data_off)
        (slice (Z.to_nat om_off) (length d - Z.to_nat data_off) (data l)) (drop (Z.to_nat data_off) d), s).
Proof.
  revert p fuel om_off data_off. induction l as [|[a b] l IH]; intros p fuel om_off data_off H Hl Hs Hf Ho Hb Hd Hd16;
    (destruct fuel as [|fuel]; [cbn in Hf; lia|]); cbn [cmpf_loop].
  { cbn in Hs. subst p. cbn [Z.eqb]. unfold slice. cbn. rewrite drop_nil, take_nil. unfold cmp_bytes. cbn [memcmp Z.eqb length Nat.min].
    destruct (Nat.ltb_spec 0 (length d - Z.to_nat data_off)); [done|lia]. }
  destruct Hs as [-> Hs]. cbn [fst snd length] in *. assert (Hc : (a, b) ∈ L) by (apply Hl; left).
  pose proof (own_pos geo _ _ (a, b) H Hc). cbn [fst] in *. destruct (Z.eqb_spec a 0); [lia|].
  pose proof (own_wf geo _ _ _ H Hc) as Hw. pose proof (om_len_bound geo (a, b) (proj1 H) Hw) as Hlb. cbn [snd] in Hlb.
  pose proof (length_frag geo (a, b) Hw) as Hfl. cbn [snd] in Hfl. assert (Hl' : l ⊆ L) by (intros c Hin; apply Hl; now right).
  unfold mbind at 1, M_bind at 1. rewrite (own_load geo s L a b H Hc). cbv zeta.
  set (k := Z.min (om_len b - om_off) (Z.of_nat (length d) - data_off)). rewrite (u16_small k) by lia.
  set (x := slice (Z.to_nat om_off) (Z.to_nat k) (frag (a, b))). set (y := slice (Z.to_nat data_off) (Z.to_nat k) d).
  assert (Hx : length x = Z.to_nat k) by (apply length_slice; lia). assert (Hy : length y = Z.to_nat k) by (apply length_slice; lia).
  assert (Erc : (if 0 <? k then bs ← mread a (om_data b + om_off) k; mret (memcmp bs y) else mret 0) s = Ok (memcmp x y, s)).
  { destruct (Z.ltb_spec 0 k).
    - destruct (wp_mread_frag geo s L a b om_off k (fun v s' => v = x /\ s' = s)) as (bs & s' & E & -> & ->); [done|done|lia|lia|lia|done|].
      unfold mbind, M_bind. now rewrite E.
    - destruct x; [done|cbn in Hx; lia]. }
  unfold mbind at 1, M_bind at 1. rewrite Erc.
  set (m := (length d - Z.to_nat data_off)%nat).
  assert (Ex : slice (Z.to_nat om_off) m (data ((a, b) :: l)) = x ++ slice 0 (m - Z.to_nat k) (data l)).
  { rewrite data_cons. unfold x, slice. rewrite drop_app_le by lia. rewrite take_app, length_drop, drop_0.
    f_equal; [|f_equal; lia]. destruct (Z.le_ge_cases (om_len b - om_off) (Z.of_nat (length d) - data_off)).
    - rewrite !take_ge; [done|rewrite length_drop; lia..].
    - f_equal. lia. }
  assert (Ey : drop (Z.to_nat data_off) d = y ++ drop (Z.to_nat (data_off + k)) d).
  { unfold y, slice. rewrite <- (take_drop (Z.to_nat k) (drop (Z.to_nat data_off) d)) at 1. f_equal. rewrite drop_drop. f_equal. lia. }
  rewrite Ex, Ey, cmp_bytes_app by lia. rewrite Hx. destruct (memcmp x y =? 0); cbn [negb]; [|done]. rewrite u16_small by lia.
  destruct (Z.eqb_spec (data_off + k) (Z.of_nat (length d))) as [E|E].
  { unfold m. replace (_ - _ - _)%nat with 0%nat by lia. rewrite drop_ge by lia. unfold slice, cmp_bytes. rewrite take_0. done. }
  destruct l as [|c l].
  - cbn in Hs. rewrite Hs. cbn [Z.eqb]. unfold slice. cbn. rewrite take_nil. unfold cmp_bytes. cbn [memcmp Z.eqb length Nat.min].
    destruct (Nat.ltb_spec 0 (m - Z.to_nat k)); [done|lia].
  - pose proof (seg_nonzero geo s _ _ _ L H Hl' Hs ltac:(done)) as Hnz. destruct (Z.eqb_spec (om_next b) 0); [done|].
    rewrite IH; [|done|done|done|lia|lia| |lia|lia].
    + change (Z.to_nat 0) with 0%nat. replace (length d - Z.to_nat (data_off + k))%nat with (m - Z.to_nat k)%nat by lia. done.
    + now pose proof (own_wf geo _ _ c H ltac:(apply Hl'; left)) as [_ ? _ _].
Qed.

(** The suffix of a chain that [os_mbuf_off] finds. *)
Lemma off_suffix s p l F off r :
  own s (l ++ F) -> seg p l 0 -> 0 <= off -> off_post l off r ->
  exists l', seg r.1 l' 0 /\ l' ⊆ l ++ F /\ (length l' <= length l)%nat /\
    match l' with [] => True | c :: _ => 0 <= r.2 <= om_len c.2 end /\
    (forall n, slice (Z.to_nat r.2) n (data l') = slice (Z.to_nat off) n (data l)).
Proof.
  intros H Hs Ho [[Hshort E]|(l1 & b & l2 & -> & Hr & Eo & _)].
  - exists []. rewrite E. split; [done|]. split; [intros c []%not_elem_of_nil|]. split; [cbn; lia|].
    split; [done|]. intros n. unfold slice. cbn. rewrite drop_nil, take_nil, drop_ge, take_nil; [done|].
    destruct Hshort as [-> |Hlt]; cbn; lia.
  - exists ((r.1, b) :: l2). split; [|split; [|split; [|split]]].
    + apply seg_app in Hs as (q & _ & [-> Hs]). now split.
    + intros c Hc. rewrite !elem_of_app. auto.
    + rewrite length_app. lia.
    + exact Hr.
    + intros n. unfold slice. rewrite data_app. subst off. rewrite drop_app_ge by lia. do 2 f_equal. lia.
Qed.

Lemma cmpf_result s p l F off d :
  own s (l ++ F) -> seg p l 0 -> 0 <= off -> Z.of_nat (length d) < 2 ^ 16 ->
  os_mbuf_cmpf p off d s = Ok (cmp_bytes (length d) (slice (Z.to_nat off) (length d) (data l)) d, s).
Proof.
  intros H Hs Ho Hd. unfold os_mbuf_cmpf. destruct (Nat.eqb_spec (length d) 0) as [E|E].
  { destruct d; [|done]. unfold cmp_bytes. cbn. unfold slice. now rewrite take_0. }
  destruct (wp_off geo s p l F off (fun r s' => off_post l off r /\ s' = s)) as ([q o] & s' & Eo & Hr & ->); [done..|].
  unfold mbind, M_bind. rewrite Eo. destruct (off_suffix s p l F off (q, o) H Hs Ho Hr) as (l' & Hs' & Hl' & Hle & Hb & Hsl).
  cbn [fst snd] in *. unfold with_fuel.
  assert (Hf : (length l' < S (size (mem s)))%nat) by (pose proof (own_length geo s _ H) as Hx; rewrite length_app in Hx; lia).
  destruct l' as [|c l'].
  - cbn in Hs'. subst q. cbn [cmpf_loop Z.eqb]. rewrite <- Hsl. unfold slice. cbn. rewrite drop_nil, take_nil. unfold cmp_bytes. cbn [memcmp Z.eqb length Nat.min].
    destruct (Nat.ltb_spec 0 (length d)); [done|lia].
  - rewrite (cmpf_spec _ s q (c :: l') (l ++ F)); [|done|done|done|done|lia|lia|lia|done].
    change (Z.to_nat 0) with 0%nat. rewrite Nat.sub_0_r, drop_0, Hsl. done.
Qed.

(** ** [os_mbuf_cmpm] *)
Lemma skip_spec fuel s p l L off :
  own s L -> l ⊆ L -> seg p l 0 -> (length l < fuel)%nat ->
  match l with [] => True | c :: _ => 0 <= off <= om_len c.2 end ->
  exists q o l', skip_loop fuel p off s = Ok ((q, o), s) /\ seg q l' 0 /\ l' ⊆ L /\ (length l' <= length l)%nat /\
    match l' with [] => True | c :: _ => 0 <= o < om_len c.2 end /\
    (forall n, slice (Z.to_nat o) n (data l') = slice (Z.to_nat off) n (data l)).
Proof.
  revert p fuel off. induction l as [|[a b] l IH]; intros p fuel off H Hl Hs Hf Hb;
    (destruct fuel as [|fuel]; [cbn in Hf; lia|]); cbn [skip_loop].
  { cbn in Hs. subst p. exists 0, off, []. split; [done|]. split; [done|]. split; [intros c []%not_elem_of_nil|]. auto. }
  destruct Hs as [-> Hs]. cbn [fst snd length] in *. assert (Hc : (a, b) ∈ L) by (apply Hl; left).
  pose proof (own_pos geo _ _ (a, b) H Hc). cbn [fst] in *. destruct (Z.eqb_spec a 0); [lia|].
  pose proof (length_frag geo (a, b) (own_wf geo _ _ _ H Hc)) as Hfl. cbn [snd] in Hfl. assert (Hl' : l ⊆ L) by (intros c Hin; apply Hl; now right).
  unfold mbind, M_bind. rewrite (own_load geo s L a b H Hc). destruct (Z.leb_spec (om_len b) off).
  - destruct (IH (om_next b) fuel 0 H Hl' Hs ltac:(lia)) as (q & o & l' & E & Hq & Hq2 & Hle & Hb2 & Hsl).
    { destruct l as [|c l]; [done|]. pose proof (own_wf geo _ _ c H ltac:(apply Hl'; left)) as [_ ? _ _]. lia. }
    exists q, o, l'. split; [done|]. split; [done|]. split; [done|]. split; [lia|]. split; [done|].
    intros m. rewrite Hsl. unfold slice. rewrite data_cons, drop_app_ge by lia. do 2 f_equal. lia.
  - exists a, off, ((a, b) :: l). split; [done|]. split; [now split|]. split; [done|]. split; [done|]. split; [cbn; lia|done].
Qed.

Lemma slice_front (l : list cell) a b o k n :
  Z.of_nat (length (frag (a, b))) = om_len b -> 0 <= o -> 0 <= k <= om_len b - o -> (Z.to_nat k <= n)%nat ->
  slice (Z.to_nat o) n (data ((a, b) :: l)) =
  slice (Z.to_nat o) (Z.to_nat k) (frag (a, b)) ++ slice (Z.to_nat (o + k)) (n - Z.to_nat k) (data ((a, b) :: l)).
Proof.
  intros Hfl Ho Hk Hn. replace n with (Z.to_nat k + (n - Z.to_nat k))%nat at 1 by lia. rewrite slice_add. f_equal.
  - rewrite data_cons, slice_app_l by lia. done.
  - f_equal. lia.
Qed.

Lemma cmpm_spec fuel s L p1 l1 o1 p2 l2 o2 n :
  own s L -> l1 ⊆ L -> l2 ⊆ L -> seg p1 l1 0 -> seg p2 l2 0 -> (length l1 <= size (mem s))%nat -> (length l2 <= size (mem s))%nat ->
  match l1 with [] => True | c :: _ => 0 <= o1 <= om_len c.2 end ->
  match l2 with [] => True | c :: _ => 0 <= o2 <= om_len c.2 end -> 0 <= n < Z.of_nat fuel -> n < 2 ^ 16 ->
  cmpm_loop fuel p1 o1 p2 o2 n s =
  Ok (cmp_bytes (Z.to_nat n) (slice (Z.to_nat o1) (Z.to_nat n) (data l1)) (slice (Z.to_nat o2) (Z.to_nat n) (data l2)), s).
Proof.
  revert p1 l1 o1 p2 l2 o2 n. induction fuel as [|fuel IH]; intros p1 l1 o1 p2 l2 o2 n H Hl1 Hl2 Hs1 Hs2 Hf1 Hf2 Hb1 Hb2 Hn Hn16; [lia|].
  cbn [cmpm_loop]. destruct (Z.eqb_spec n 0) as [-> |Hn0].
  { change (Z.to_nat 0) with 0%nat. unfold slice. rewrite !take_0. done. }
  destruct (skip_spec (S (size (mem s))) s p1 l1 L o1 H Hl1 Hs1 ltac:(lia) Hb1) as (q1 & u1 & k1 & E1 & Hq1 & Hk1 & Hle1 & Hc1 & Hsl1).
  destruct (skip_spec (S (size (mem s))) s p2 l2 L o2 H Hl2 Hs2 ltac:(lia) Hb2) as (q2 & u2 & k2 & E2 & Hq2 & Hk2 & Hle2 & Hc2 & Hsl2).
  rewrite <- Hsl1, <- Hsl2. unfold mbind at 1, M_bind at 1, with_fuel at 1. rewrite E1. unfold mbind at 1, M_bind at 1, with_fuel at 1. rewrite E2.
  assert (Hshort : forall xs ys : list Z, xs = [] \/ ys = [] -> Ok (INT_MAX, s) = Ok (cmp_bytes (Z.to_nat n) xs ys, s)).
  { intros xs ys Hx. assert (memcmp xs ys = 0) as Em by (destruct Hx as [-> | ->]; [done|now destruct xs]).
    unfold cmp_bytes. rewrite Em. cbn [Z.eqb]. destruct (Nat.ltb_spec (Nat.min (length xs) (length ys)) (Z.to_nat n)) as [_|Hx2]; [done|].
    destruct Hx as [-> | ->]; cbn [length] in Hx2; lia. }
  assert (Hnil : forall o, slice o (Z.to_nat n) (data []) = []) by (intros o; unfold slice; cbn; now rewrite drop_nil, take_nil).
  destruct k1 as [|[a1 b1] k1]. { cbn in Hq1. subst q1. cbn [Z.eqb orb]. apply Hshort. left. apply Hnil. }
  destruct k2 as [|[a2 b2] k2]. { cbn in Hq2. subst q2. rewrite orb_true_r. apply Hshort. right. apply Hnil. }
  destruct Hq1 as [-> Hq1], Hq2 as [-> Hq2]. cbn [fst snd length] in *. clear Hshort Hnil Hsl1 Hsl2.
  assert (Hi1 : (a1, b1) ∈ L) by (apply Hk1; left). assert (Hi2 : (a2, b2) ∈ L) by (apply Hk2; left).
  pose proof (own_pos geo _ _ _ H Hi1). pose proof (own_pos geo _ _ _ H Hi2). cbn [fst] in *.
  destruct (Z.eqb_spec a1 0); [lia|]. destruct (Z.eqb_spec a2 0); [lia|]. cbn [orb].
  unfold mbind at 1, M_bind at 1. rewrite (own_load geo s L a1 b1 H Hi1). unfold mbind at 1, M_bind at 1. rewrite (own_load geo s L a2 b2 H Hi2).
  pose proof (own_wf geo _ _ _ H Hi1) as Hw1. pose proof (om_len_bound geo _ (proj1 H) Hw1) as Hlb1. pose proof (length_frag geo _ Hw1) as Hfl1.
  pose proof (own_wf geo _ _ _ H Hi2) as Hw2. pose proof (om_len_bound geo _ (proj1 H) Hw2) as Hlb2. pose proof (length_frag geo _ Hw2) as Hfl2.
  cbn [snd] in *. cbv zeta. rewrite (u16_small (om_len b1 - u1)), (u16_small (om_len b2 - u2)) by lia.
  set (k := Z.min (Z.min (om_len b1 - u1) (om_len b2 - u2)) n).
  destruct (wp_mread_frag geo s L a1 b1 u1 k (fun v s' => v = slice (Z.to_nat u1) (Z.to_nat k) (frag (a1, b1)) /\ s' = s)) as (x & s' & Ex & Hx & ->); [done|done|lia|lia|lia|done|].
  destruct (wp_mread_frag geo s L a2 b2 u2 k (fun v s' => v = slice (Z.to_nat u2) (Z.to_nat k) (frag (a2, b2)) /\ s' = s)) as (y & s' & Ey & Hy & ->); [done|done|lia|lia|lia|done|].
  unfold mbind at 1, M_bind at 1. rewrite Ex. unfold mbind at 1, M_bind at 1. rewrite Ey.
  rewrite (slice_front k1 a1 b1 u1 k), (slice_front k2 a2 b2 u2 k) by lia. rewrite <- Hx, <- Hy.
  assert (Hxl : length x = Z.to_nat k) by (rewrite Hx; apply length_slice; lia).
  assert (Hyl : length y = Z.to_nat k) by (rewrite Hy; apply length_slice; lia).
  rewrite cmp_bytes_app by lia. destruct (memcmp x y =? 0); cbn [negb]; [|done]. rewrite !u16_small by lia.
  rewrite (IH a1 ((a1, b1) :: k1) (u1 + k) a2 ((a2, b2) :: k2) (u2 + k)); [|done|done|done|now split|now split|cbn; lia|cbn; lia|cbn; lia|cbn; lia|lia|lia].
  rewrite Hxl. replace (Z.to_nat (n - k)) with (Z.to_nat n - Z.to_nat k)%nat by lia. done.
Qed.

Lemma cmpm_result s p1 l1 p2 l2 F off1 off2 n :
  own s (l1 ++ l2 ++ F) -> seg p1 l1 0 -> seg p2 l2 0 -> 0 <= off1 -> 0 <= off2 -> 0 <= n < 2 ^ 16 ->
  os_mbuf_cmpm p1 off1 p2 off2 n s =
  Ok (cmp_bytes (Z.to_nat n) (slice (Z.to_nat off1) (Z.to_nat n) (data l1)) (slice (Z.to_nat off2) (Z.to_nat n) (data l2)), s).
Proof.
  intros H Hs1 Hs2 Ho1 Ho2 Hn. assert (H' : own s (l2 ++ l1 ++ F)) by perm.
  destruct (wp_off geo s p1 l1 (l2 ++ F) off1 (fun r s' => off_post l1 off1 r /\ s' = s)) as ([q1 o1] & s' & E1 & Hr1 & ->); [done..|].
  destruct (wp_off geo s p2 l2 (l1 ++ F) off2 (fun r s' => off_post l2 off2 r /\ s' = s)) as ([q2 o2] & s' & E2 & Hr2 & ->); [done..|].
  unfold os_mbuf_cmpm. unfold mbind at 1, M_bind at 1. rewrite E1. unfold mbind at 1, M_bind at 1. rewrite E2.
  destruct (off_suffix s p1 l1 (l2 ++ F) off1 (q1, o1) H Hs1 Ho1 Hr1) as (k1 & Hq1 & Hk1 & Hle1 & Hb1 & Hsl1).
  destruct (off_suffix s p2 l2 (l1 ++ F) off2 (q2, o2) H' Hs2 Ho2 Hr2) as (k2 & Hq2 & Hk2 & Hle2 & Hb2 & Hsl2).
  cbn [fst snd] in *. rewrite <- Hsl1, <- Hsl2. pose proof (own_length geo s _ H) as Hx. rewrite !length_app in Hx.
  assert (Hk2' : k2 ⊆ l1 ++ l2 ++ F) by (intros c Hc; apply Hk2 in Hc; rewrite !elem_of_app in *; tauto).
  rewrite (cmpm_spec _ s (l1 ++ l2 ++ F) q1 k1 o1 q2 k2 o2 n); auto; lia.
Qed.
End Read.
