(* ===== verification/MbufInto.v ===== *)
(** * Writing into chains

    [os_mbuf_copyinto] on owned chains. *)
From stdpp Require Import base tactics numbers list gmap.
From Stdlib Require Import ZArith Lia.
From S2P Require Import Prelude Mempool Mbuf MbufHeap MbufEdit MbufLogic MbufChain MbufAppend MbufDup MbufTrim.
Local Open Scope Z_scope.

Lemma splice_app_l i x (f r : list Z) :
  (i + length x <= length f)%nat -> splice i x (f ++ r) = splice i x f ++ r.
Proof. intros H. unfold splice. rewrite take_app_le, drop_app_le by lia. now rewrite <- !app_assoc. Qed.

Lemma splice_app_lr i x y (f r : list Z) :
  (i + length x)%nat = length f -> splice i (x ++ y) (f ++ r) = splice i x f ++ splice 0 y r.
Proof.
  intros H. unfold splice. rewrite take_app_le by lia. rewrite drop_app_ge by (rewrite length_app; lia).
  rewrite take_0, (drop_ge f) by lia. rewrite app_nil_r, <- !app_assoc.
  replace (i + length (x ++ y) - length f)%nat with (length y) by (rewrite length_app; lia). done.
Qed.

Lemma splice_app_r i x (f r : list Z) :
  (length f <= i)%nat -> splice i x (f ++ r) = f ++ splice (i - length f) x r.
Proof.
  intros H. unfold splice. rewrite take_app_ge, drop_app_ge by lia. rewrite <- !app_assoc.
  now replace (i + length x - length f)%nat with (i - length f + length x)%nat by lia.
Qed.

Section Into.
  Context {CF : MempoolConf} (geo : gmap Z (Z * list Z)).
  Local Abbreviation own := (own geo) (only parsing).
  Local Abbreviation cell_wf := (cell_wf geo) (only parsing).

(** ** [os_mbuf_copyinto] *)

(** Existing data is overwritten by the first [k] bytes. *)
Lemma copyinto_loop_spec fuel s L1 cur l F off src Q :
  own s (L1 ++ l ++ F) -> seg cur l 0 -> (length l <= fuel)%nat ->
  match l with [] => False | c :: _ => 0 <= off <= om_len c.2 end ->
  (forall s' l', own s' (L1 ++ l' ++ F) -> same_frame l l' -> map room l' = map room l ->
     let k := Nat.min (length src) (length (data l) - Z.to_nat off) in
     data l' = splice (Z.to_nat off) (take k src) (data l) ->
     if (length src <=? k)%nat then Q None s'
     else forall l3 a b, l' = l3 ++ [(a, b)] -> Q (Some (a, drop k src)) s') ->
  wp (copyinto_loop fuel cur off src) Q s.
Proof.
  revert s L1 cur l off src Q. induction fuel as [|fuel IH]; intros s L1 cur l off src Q H Hs Hf Hoff HQ.
  { destruct l; [done|cbn in Hf; lia]. }
  destruct l as [|[a b] l]; [done|]. destruct Hs as [-> Hs]. cbn [fst snd app length copyinto_loop] in *.
  pose proof (own_wf geo _ _ (a, b) H ltac:(incell)) as Hw. pose proof (length_frag geo (a, b) Hw) as Hfl. cbn [snd] in Hfl.
  apply wp_bind, (wp_load geo s (L1 ++ (a, b) :: l ++ F) a b); [done|incell|]. cbv zeta.
  set (c := Z.min (om_len b - off) (Z.of_nat (length src))).
  assert (Hstep : forall s1 b1, own s1 (L1 ++ (a, b1) :: l ++ F) -> frag (a, b1) = splice (Z.to_nat off) (take (Z.to_nat c) src) (frag (a, b)) ->
    om_next b1 = om_next b -> pkt (a, b1) = pkt (a, b) -> om_omp b1 = om_omp b -> room (a, b1) = room (a, b) ->
    wp (let src := drop (Z.to_nat c) src in
        if (length src =? 0)%nat then mret None
        else b ← load a; if om_next b =? 0 then mret (Some (a, src)) else copyinto_loop fuel (om_next b) 0 src) Q s1).
  { intros s1 b1 H1 Hf1 Hn1 Hp1 Ho1 Hr1. cbv zeta. rewrite length_drop, data_cons, length_app in *.
    set (k := Nat.min (length src) (length (frag (a, b)) + length (data l) - Z.to_nat off)) in *.
    assert (Htk : length (take (Z.to_nat c) src) = Z.to_nat c) by (rewrite length_take; lia).
    destruct (Nat.eqb_spec (length src - Z.to_nat c) 0) as [E|E].
    - apply wp_ret. pose proof (HQ s1 ((a, b1) :: l) H1 (same_frame_cons a b b1 l l Hn1 Hp1 Ho1 (same_frame_refl l))
        (f_equal2 cons Hr1 eq_refl)) as HQ1.
      assert (Ek : k = length src) by lia. rewrite Ek in HQ1. rewrite Nat.leb_refl in HQ1. apply HQ1.
      rewrite data_cons, Hf1. rewrite take_ge in Htk |- * by lia. rewrite take_ge by lia. symmetry. apply splice_app_l. lia.
    - apply wp_bind, (wp_load geo s1 (L1 ++ (a, b1) :: l ++ F) a b1); [done|incell|]. rewrite Hn1. destruct l as [|c2 l].
      + cbn in Hs. rewrite Hs. cbn [Z.eqb]. apply wp_ret.
        pose proof (HQ s1 [(a, b1)] H1 (same_frame_cons a b b1 [] [] Hn1 Hp1 Ho1 (same_frame_refl []))
          (f_equal2 cons Hr1 eq_refl)) as HQ1.
        cbn [data map concat length] in k. assert (Ek : k = Z.to_nat c) by (cbn in k; lia). rewrite Ek in HQ1.
        rewrite (proj2 (Nat.leb_gt (length src) (Z.to_nat c))) in HQ1 by lia. apply HQ1 with (l3 := []) (b := b1); [|done].
        rewrite data_cons, Hf1. symmetry. apply splice_app_l. lia.
      + assert (Hnz : om_next b <> 0).
        { apply (seg_nonzero geo s1 (om_next b) (c2 :: l) 0 (L1 ++ (a, b1) :: (c2 :: l) ++ F)); [done| |done|done].
          intros x Hx. rewrite elem_of_app, elem_of_cons, elem_of_app. auto. }
        destruct (Z.eqb_spec (om_next b) 0); [done|].
        apply (IH s1 (L1 ++ [(a, b1)]) (om_next b) (c2 :: l)); [now rewrite <- app_assoc|done|lia| |].
        { pose proof (own_wf geo _ _ c2 H ltac:(incell)) as [_ ? _ _]. lia. }
        change (Z.to_nat 0) with 0%nat. rewrite length_drop. intros s2 l' H2 Hsf Hr2 Hd2.
        set (k' := Nat.min (length src - Z.to_nat c) (length (data (c2 :: l)) - 0)) in *.
        assert (Ek : k = (Z.to_nat c + k')%nat) by lia.
        assert (HQ1 := HQ s2 ((a, b1) :: l') ltac:(now rewrite <- app_assoc in H2) (same_frame_cons a b b1 _ l' Hn1 Hp1 Ho1 Hsf)
          (f_equal2 cons Hr1 Hr2)).
        cbv zeta in HQ1. fold k in HQ1.
        assert (Hd : data ((a, b1) :: l') = splice (Z.to_nat off) (take k src) (frag (a, b) ++ data (c2 :: l))).
        { rewrite data_cons, Hf1, Hd2, Ek. rewrite <- (take_drop (Z.to_nat c) src) at 3. rewrite <- Htk at 3. rewrite take_app_add.
          symmetry. apply splice_app_lr. lia. }
        specialize (HQ1 Hd). revert HQ1. destruct (Nat.leb_spec (length src) k), (Nat.leb_spec (length src - Z.to_nat c) k'); try lia; intros HQ1; [done|].
        intros l3 a3 b3 ->. rewrite drop_drop, <- Ek. now apply (HQ1 ((a, b1) :: l3) a3 b3). }
  destruct (Z.ltb_spec 0 c).
  - assert (Htk : length (take (Z.to_nat c) src) = Z.to_nat c) by (rewrite length_take; lia).
    pose proof Hw as [(n' & bl' & _ & _ & _ & Hn' & Hd') Hl' Hh' _]. cbn [fst snd] in *.
    assert (Hp : om_data b + off - (a + MBUF_SIZE) = doff (a, b) + off) by (unfold doff; cbn; lia).
    apply wp_bind, wp_bind, (wp_mwrite geo s L1 (l ++ F) a b); [done|lia|lia|]. intros s1 H1 _. apply wp_ret.
    apply (Hstep s1 _ H1); try done.
    + apply (frag_overwrite geo); [done|lia|lia].
    + apply (pkt_wr geo); [done|lia|lia].
    + unfold room. cbn [snd wr set_om_databuf om_databuf om_len]. rewrite splice_length by lia. done.
  - apply wp_bind, wp_ret. assert (Ec : Z.to_nat c = 0%nat) by lia. rewrite Ec in Hstep. rewrite drop_0 in Hstep.
    apply (Hstep s b); try done. rewrite take_0. unfold splice. cbn [length app]. now rewrite Nat.add_0_r, take_drop.
Qed.

(** The header after [os_mbuf_copyinto] had to append the last [rest] of the bytes, [k]
    of which there was memory for: [os_mbuf_append] is called with the last buffer, so
    that it updates the header only of a packet of one buffer, and the maximum that is
    taken afterwards is with [off + rest]. *)
Definition into_head (l : list cell) (off rest k rc : Z) : option (Z * list Z) :=
  let h := match l with [_] => bump k (phead l) | _ => phead l end in
  if rc =? 0
  then match h with Some (n, r) => Some (u16 (Z.max n (off + rest)), r) | None => None end
  else h.

Lemma same_frame_app l1 l l' : same_frame l l' -> same_frame (l1 ++ l) (l1 ++ l').
Proof. intros [H1 H2 H3 H4]. constructor; rewrite ?fmap_app, ?map_app; f_equal; done. Qed.

Lemma last_room_app l1 l l' : l <> [] -> map room l' = map room l -> last_room (l1 ++ l') = last_room (l1 ++ l).
Proof.
  intros Hn E. destruct (exists_last Hn) as (l0 & c & ->). rewrite map_app in E.
  destruct (decide (l' = [])) as [-> |Hn']; [now destruct l0|]. destruct (exists_last Hn') as (l0' & c' & ->).
  rewrite map_app in E. cbn [map] in E. apply app_inj_tail in E as [_ E]. unfold last_room. now rewrite !app_assoc, !last_snoc.
Qed.

(** What follows the overwriting: the rest is appended to the last buffer [a]. *)
Lemma wp_copyinto_rest s p l1 a b F off rest i n bl Q :
  own s (l1 ++ (a, b) :: F) -> seg p (l1 ++ [(a, b)]) 0 -> Z.of_nat (length rest) < 2 ^ 16 ->
  in_pool i (l1 ++ [(a, b)]) -> geo !! i = Some (n, bl) ->
  (forall s' l' rc k, own s' (l' ++ F) -> seg p l' 0 -> l' <> [] -> data l' = data (l1 ++ [(a, b)]) ++ take k rest ->
     Z.of_nat k = Z.min (Z.of_nat (length rest)) (space s i n (l1 ++ [(a, b)])) ->
     rc = (if Z.of_nat (length rest) <=? space s i n (l1 ++ [(a, b)]) then 0 else OS_ENOMEM) ->
     phead l' = into_head (l1 ++ [(a, b)]) off (Z.of_nat (length rest)) (Z.of_nat k) rc ->
     (forall i, in_pool i (l1 ++ [(a, b)]) -> in_pool i l') -> Q rc s') ->
  wp (let len := Z.of_nat (length rest) in
      rc ← MbufHeap.os_mbuf_append a (take (Z.to_nat (u16 len)) rest);
      if negb (rc =? 0) then mret rc
      else
        b ← load p;
        (if OS_MBUF_IS_PKTHDR b then v ← pktlen p; set_pktlen p (u16 (Z.max v (off + len))) else mret tt);;
        mret 0) Q s.
Proof.
  intros H Hs Hlen Hil Hi HQ. cbv zeta. rewrite u16_small, Nat2Z.id, take_ge by lia. pose proof Hs as [Hs1 Hb0]%seg_snoc. cbn [fst snd] in *.
  apply wp_bind, (wp_append geo s a [(a, b)] (l1 ++ F) rest); [done|perm|now split|].
  intros s1 l2 rc H1 Hs2 Hap Hip. destruct (appended_flat geo _ _ _ _ _ Hap) as (k & Hd & Hk & Hrc & Hrcv & Hph & Hn2).
  assert (Hil1 : in_pool i [(a, b)]) by (unfold in_pool in Hil |- *; rewrite Forall_app in Hil; apply Hil).
  destruct (appended_amount geo s [(a, b)] (l1 ++ F) rest l2 rc i n bl ltac:(perm) Hap Hil1 Hi) as [Hamt Hrce].
  assert (Hsp : space s i n (l1 ++ [(a, b)]) = space s i n [(a, b)]) by (unfold space, last_room; now rewrite last_snoc).
  assert (Hkz : Z.of_nat k = Z.min (Z.of_nat (length rest)) (space s i n (l1 ++ [(a, b)]))).
  { rewrite Hd, length_app, length_take, Nat2Z.inj_add in Hamt. rewrite Hsp. lia. }
  rewrite <- Hsp in Hrce. clear Hsp Hamt Hil1.
  set (l3 := l1 ++ l2). set (l0 := l1 ++ [(a, b)]) in *. assert (H3 : own s1 (l3 ++ F)) by (unfold l3; perm).
  assert (Hs3 : seg p l3 0) by (apply seg_app; eauto). assert (Hn3 : l3 <> []) by (unfold l3; destruct l1, l2; done).
  assert (Hd3 : data l3 = data l0 ++ take k rest) by (unfold l3, l0; rewrite !data_app, Hd; now rewrite app_assoc).
  assert (Hi3 : forall j, in_pool j l0 -> in_pool j l3).
  { intros j. unfold in_pool, l3, l0. rewrite !Forall_app. intros [Hx1 Hx2]. split; [done|]. now apply Hip. }
  assert (Hp3 : phead l3 = match l0 with [_] => bump (Z.of_nat k) (phead l0) | _ => phead l0 end).
  { unfold l3, l0. destruct l1 as [|c l1]; [exact Hph|]. cbn [app phead]. now destruct l1. }
  assert (Hh : forall l', phead l' = match phead l3 with Some (n, r) => Some (u16 (Z.max n (off + Z.of_nat (length rest))), r) | None => None end ->
    rc = 0 -> phead l' = into_head l0 off (Z.of_nat (length rest)) (Z.of_nat k) rc).
  { intros l' E ->. unfold into_head. cbn [Z.eqb]. now rewrite E, Hp3. }
  destruct (Z.eqb_spec rc 0) as [E|E]; cbn [negb].
  2: { apply wp_ret, (HQ s1 l3 rc k); auto. unfold into_head. destruct (Z.eqb_spec rc 0); [done|]. exact Hp3. }
  destruct l3 as [|[p' fb] l3]; [done|]. destruct Hs3 as [-> Hs3]. cbn [fst snd app phead] in *.
  apply wp_bind, (wp_load geo s1 ((p', fb) :: l3 ++ F) p' fb); [done|left|]. apply wp_bind. destruct (pkt (p', fb)) as [[h r]|] eqn:Ep.
  - destruct (pkt_len_bytes geo p' fb h r (own_wf geo _ _ _ H3 ltac:(left)) Ep) as (-> & _).
    apply wp_bind, (wp_pktlen geo s1 ((p', fb) :: l3 ++ F) p' fb h r); [done|left|done|].
    apply (wp_set_pktlen geo s1 [] (l3 ++ F) p' fb h r); [done|done|apply u16_range|]. intros s2 db H2 Hp2 Hf2 _ _.
    apply wp_ret. rewrite E in *. apply (HQ s2 ((p', set_om_databuf db fb) :: l3) 0 k); auto; [now split|..].
    + rewrite data_cons, Hf2, <- data_cons. exact Hd3.
    + intros j Hj. apply Hi3 in Hj as [Hx1 Hx2]%Forall_cons. now constructor.
  - assert (OS_MBUF_IS_PKTHDR fb = false) as -> by (unfold pkt in Ep; cbn [snd] in Ep; now destruct (OS_MBUF_IS_PKTHDR fb)).
    apply wp_ret, wp_ret. rewrite E in *. apply (HQ s1 ((p', fb) :: l3) 0 k); auto. now split.
Qed.

Lemma wp_copyinto s p l F off src i n bl Q :
  own s (l ++ F) -> seg p l 0 -> l <> [] -> in_pool i l -> geo !! i = Some (n, bl) -> 0 <= off -> Z.of_nat (length src) < 2 ^ 16 ->
  (Z.of_nat (length (data l)) < off -> Q (-1) s) ->
  (off + Z.of_nat (length src) <= Z.of_nat (length (data l)) -> forall s' l', own s' (l' ++ F) -> seg p l' 0 -> l' <> [] ->
     data l' = splice (Z.to_nat off) src (data l) -> phead l' = phead l -> (forall i, in_pool i l -> in_pool i l') -> Q 0 s') ->
  (off <= Z.of_nat (length (data l)) < off + Z.of_nat (length src) -> forall s' l' rc k,
     let over := (length (data l) - Z.to_nat off)%nat in let rest := (length src - over)%nat in
     own s' (l' ++ F) -> seg p l' 0 -> l' <> [] -> data l' = take (Z.to_nat off) (data l) ++ take (over + k) src ->
     Z.of_nat k = Z.min (Z.of_nat rest) (space s i n l) ->
     rc = (if Z.of_nat rest <=? space s i n l then 0 else OS_ENOMEM) ->
     phead l' = into_head l off (Z.of_nat rest) (Z.of_nat k) rc -> (forall i, in_pool i l -> in_pool i l') -> Q rc s') ->
  wp (os_mbuf_copyinto p off src) Q s.
Proof.
  intros H Hs Hn Hil Hi Ho Hlen Hshort Hfit Happ. apply wp_bind, (wp_off geo s p l F); [done..|].
  intros [cur o] [[Hsh E]|(l1 & b & l2 & El & Hr & Eo & _)]; cbn [fst snd] in *.
  { rewrite E. cbn [Z.eqb]. apply wp_ret, Hshort. destruct Hsh; [done|lia]. }
  assert (H1 : own s (l1 ++ ((cur, b) :: l2) ++ F)) by (rewrite El, <- app_assoc in H; exact H).
  pose proof (own_pos geo _ _ (cur, b) H1 ltac:(incell)) as Hpos. cbn [fst] in Hpos. destruct (Z.eqb_spec cur 0); [lia|].
  assert (Hlen2 : length (data l) = (length (data l1) + length (data ((cur, b) :: l2)))%nat) by (rewrite El, data_app, length_app; done).
  assert (Hob : (Z.to_nat o <= length (data ((cur, b) :: l2)))%nat).
  { pose proof (length_frag geo (cur, b) (own_wf geo _ _ _ H1 ltac:(incell))) as Hfl. cbn [snd] in Hfl. rewrite data_cons, length_app. lia. }
  apply wp_bind, wp_fuel, (copyinto_loop_spec _ s l1 cur ((cur, b) :: l2) F o src).
  { done. }
  { rewrite El in Hs. apply seg_app in Hs as (q & _ & [-> Hq]). now split. }
  { pose proof (own_length geo _ _ H1) as Hx. rewrite !length_app in Hx. lia. }
  { cbn. lia. }
  intros s1 l2' H2 Hsf Hrm. cbv zeta. set (k := Nat.min (length src) (length (data ((cur, b) :: l2)) - Z.to_nat o)). intros Hd2.
  assert (Hsf' : same_frame l (l1 ++ l2')) by (rewrite El; now apply same_frame_app).
  assert (Hd : data (l1 ++ l2') = splice (Z.to_nat off) (take k src) (data l)).
  { rewrite El, !data_app, Hd2. symmetry. rewrite splice_app_r by lia. do 2 f_equal. lia. }
  pose proof (same_frame_seg _ _ _ _ Hsf' Hs) as Hs2. pose proof (same_frame_nil _ _ Hsf' Hn) as Hn2.
  destruct (Nat.leb_spec (length src) k) as [Hk|Hk].
  - apply wp_ret. apply (Hfit ltac:(lia) s1 (l1 ++ l2')); auto.
    + now rewrite <- app_assoc.
    + rewrite take_ge in Hd by lia. done.
    + now apply same_frame_phead.
    + intros j. now apply same_frame_pool.
  - intros l3 a b3 ->. rewrite app_assoc in Hs2, Hd, Hsf'.
    assert (Hsp : space s1 i n ((l1 ++ l3) ++ [(a, b3)]) = space s i n l).
    { unfold space. f_equal.
      - rewrite El, <- app_assoc. now apply last_room_app.
      - f_equal. eapply (nfree_same geo s s1 (l ++ F)); [done|exact H2|exact Hi|].
        rewrite (app_assoc l1 (l3 ++ [(a, b3)])), (map_app _ l), (map_app _ (l1 ++ l3 ++ [(a, b3)])). f_equal.
        rewrite app_assoc. symmetry. apply Hsf'. }
    apply (wp_copyinto_rest s1 p (l1 ++ l3) a b3 F off (drop k src) i n bl);
      [rewrite <- app_assoc in H2 |- *; exact H2|done|rewrite length_drop; lia|now apply (same_frame_pool i l)|done|].
    rewrite length_drop, Hsp. intros s' l' rc k' H' Hs' Hn' Hd' Hk' Hrc Hph Hip.
    assert (Hko : (length (data l) - Z.to_nat off)%nat = k) by lia. apply (Happ ltac:(lia) s' l' rc k'); rewrite ?Hko; auto.
    + rewrite Hd', Hd. unfold splice. rewrite (drop_ge (data l)) by (rewrite length_take; lia). rewrite app_nil_r, <- app_assoc. f_equal.
      apply take_take_drop.
    + rewrite Hph. unfold into_head. rewrite (same_frame_phead _ _ Hsf').
      pose proof (f_equal length (sf_addr _ _ Hsf')) as Hll. rewrite !length_fmap in Hll.
      destruct ((l1 ++ l3) ++ [(a, b3)]) as [|? [|? ?]], l as [|? [|? ?]]; try done.
    + intros j Hj. apply Hip. now apply (same_frame_pool j l).
Qed.
End Into.
