(* ===== verification/MbufWiden.v ===== *)
(** * Widening chains

    [os_mbuf_widen] on owned chains. *)
From stdpp Require Import base tactics numbers list gmap.
From Stdlib Require Import ZArith Lia.
From S2P Require Import Prelude Mempool Mbuf MbufHeap MbufEdit MbufLogic MbufChain MbufAppend MbufDup MbufTrim.
Local Open Scope Z_scope.

Section Widen.
  Context {CF : MempoolConf} (geo : gmap Z (Z * list Z)).
  Local Abbreviation own := (own geo) (only parsing).
  Local Abbreviation cell_wf := (cell_wf geo) (only parsing).

(** ** A gap in one buffer *)

(** The data from [o] on is moved by [len]. *)
Lemma frag_gap a b o len :
  cell_wf (a, b) -> 0 <= o <= om_len b -> 0 <= len -> doff (a, b) + om_len b + len <= Z.of_nat (length (om_databuf b)) ->
  frag (a, set_om_len (om_len b + len) (wr a (om_data b + o + len) (drop (Z.to_nat o) (frag (a, b))) b)) =
  take (Z.to_nat o) (frag (a, b)) ++ slice (Z.to_nat (doff (a, b) + o)) (Z.to_nat len) (om_databuf b) ++ drop (Z.to_nat o) (frag (a, b)).
Proof.
  intros Hw Ho Hlen Hle. pose proof (length_frag geo (a, b) Hw) as Hfl. destruct Hw as [_ Hl Hh _]. cbn [fst snd] in *.
  set (t := drop (Z.to_nat o) (frag (a, b))). assert (Ht : length t = Z.to_nat (om_len b - o)) by (unfold t; rewrite length_drop; lia).
  unfold frag at 1. change (doff (a, set_om_len _ _)) with (doff (a, b)). cbn [snd set_om_len om_len om_databuf wr set_om_databuf].
  replace (om_data b + o + len - (a + MBUF_SIZE)) with (doff (a, b) + o + len) by (unfold doff; cbn; lia).
  replace (Z.to_nat (om_len b + len)) with (Z.to_nat o + (Z.to_nat len + length t))%nat by lia. rewrite !slice_add.
  rewrite !slice_splice_before by lia. f_equal; [|f_equal].
  - unfold frag, slice. cbn [snd]. rewrite take_take. f_equal. lia.
  - f_equal. lia.
  - replace (Z.to_nat (doff (a, b)) + Z.to_nat o + Z.to_nat len)%nat with (Z.to_nat (doff (a, b) + o + len)) by lia.
    apply slice_splice_same; lia.
Qed.

(** The chain after [os_mbuf_widen]. The bytes [x] are put before the rest [t] of the
    buffer [e] that the offset lies in. When [e] has no room for them they go to new
    buffers of [n] bytes, and [t] follows them; what has no room in the last one of
    these goes to further buffers, [lost], that are not part of the chain. *)
Definition widened (n p : Z) (l1 : list cell) (e : cell) (l2 F : list cell) (o len : Z) (s' : mheap) : Prop :=
  exists l' lost x,
    let l := l1 ++ e :: l2 in
    let t := drop (Z.to_nat o) (frag e) in
    let k := if len <=? room e then length t else Nat.min (length t) (Z.to_nat (- len mod n)) in
    own s' (l' ++ lost ++ F) /\ seg p l' 0 /\ l' <> [] /\ Z.of_nat (length x) = len /\
    data l' = data l1 ++ take (Z.to_nat o) (frag e) ++ x ++ take k t ++ data l2 /\ data lost = drop k t /\
    (k = length t -> lost = []) /\ phead l' = bump len (phead l) /\ (forall i, in_pool i l -> in_pool i l').

(** The last step. *)
Lemma wp_widen_end s n p l1 e l2 F o len l' lost x Q :
  let l := l1 ++ e :: l2 in
  let t := drop (Z.to_nat o) (frag e) in
  let k := if len <=? room e then length t else Nat.min (length t) (Z.to_nat (- len mod n)) in
  own s (l' ++ lost ++ F) -> seg p l' 0 -> l' <> [] -> Z.of_nat (length x) = len ->
  data l' = data l1 ++ take (Z.to_nat o) (frag e) ++ x ++ take k t ++ data l2 -> data lost = drop k t ->
  (k = length t -> lost = []) -> phead l' = phead l -> (forall i, in_pool i l -> in_pool i l') ->
  (forall s', widened n p l1 e l2 F o len s' -> Q 0 s') ->
  wp (add_pktlen p len;; mret 0) Q s.
Proof.
  intros l t k H Hs Hn Hx Hd Hlost Hk Hp Hip HQ.
  apply wp_bind, (wp_add_pktlen_chain geo s p l' (lost ++ F)); [done..|]. intros s1 l3 H3 Hs3 Hf3 Hp3 Ho3. apply wp_ret, HQ.
  assert (Hd3 : data l3 = data l') by (unfold data; now rewrite Hf3).
  exists l3, lost, x. split; [done|]. split; [done|]. split.
  { intros ->. destruct l'; [done|]. cbn in Hf3. done. }
  split; [done|]. split; [now rewrite Hd3, Hd|]. split; [done|]. split; [done|]. split; [now rewrite Hp3, Hp|]. intros i Hi. apply (pool_same i l'); auto.
Qed.

Lemma wp_widen_here s n p l1 a b l2 F o len Q :
  let l := l1 ++ (a, b) :: l2 in
  own s (l ++ F) -> seg p l 0 -> 0 <= o <= om_len b -> 0 <= len <= room (a, b) ->
  (forall s', widened n p l1 (a, b) l2 F o len s' -> Q 0 s') ->
  wp (eb ← load a;
      bs ← mread a (om_data eb + o) (om_len eb - o);
      mwrite a (om_data eb + o + len) bs;;
      upd a (set_om_len (u16 (om_len eb + len)));;
      add_pktlen p len;;
      mret 0) Q s.
Proof.
  intros l H Hs Ho Hlen HQ. assert (Hroom := Hlen). unfold room in Hlen. cbn [snd] in Hlen.
  assert (H1 : own s (l1 ++ (a, b) :: l2 ++ F)) by (unfold l in H; rewrite <- app_assoc in H; exact H).
  pose proof (own_wf geo _ _ (a, b) H1 ltac:(incell)) as Hw. pose proof (length_frag geo (a, b) Hw) as Hfl. cbn [snd] in Hfl.
  pose proof Hw as [(n' & bl & Hi & _ & _ & Hn & Hd) Hl Hh _]. cbn [fst snd] in *. pose proof (proj1 (proj1 H) _ _ _ Hi) as [_ Hnr].
  apply wp_bind, (wp_load geo s (l1 ++ (a, b) :: l2 ++ F) a b); [done|incell|].
  apply wp_bind, (wp_mread_frag geo s (l1 ++ (a, b) :: l2 ++ F) a b o); [done|incell|lia..|].
  assert (Et : slice (Z.to_nat o) (Z.to_nat (om_len b - o)) (frag (a, b)) = drop (Z.to_nat o) (frag (a, b))).
  { unfold slice. apply take_ge. rewrite length_drop. lia. }
  rewrite Et. set (t := drop (Z.to_nat o) (frag (a, b))) in *. assert (Ht : length t = Z.to_nat (om_len b - o)) by (unfold t; rewrite length_drop; lia).
  assert (Hp : om_data b + o + len - (a + MBUF_SIZE) = doff (a, b) + o + len) by (unfold doff; cbn; lia).
  apply wp_bind, (wp_mwrite geo s l1 (l2 ++ F) a b); [done|lia|lia|]. intros s1 H2 _. set (b1 := wr a _ t b) in *.
  rewrite u16_small by lia. apply wp_bind, (wp_upd geo s1 l1 (l2 ++ F) a b1); [done| |].
  { apply cell_wf_len; [apply (own_wf geo _ _ _ H2); incell|lia|]. change (doff (a, b1)) with (doff (a, b)).
    cbn [b1 wr set_om_databuf om_databuf]. rewrite splice_length; lia. }
  intros s2 H3 _. set (b2 := set_om_len (om_len b + len) b1) in *. set (x := slice (Z.to_nat (doff (a, b) + o)) (Z.to_nat len) (om_databuf b)).
  assert (Hf2 : frag (a, b2) = take (Z.to_nat o) (frag (a, b)) ++ x ++ t) by (apply frag_gap; [done|lia|lia|lia]).
  assert (Hx : Z.of_nat (length x) = len) by (unfold x; rewrite length_slice; lia).
  apply (wp_widen_end s2 n p l1 (a, b) l2 F o len (l1 ++ (a, b2) :: l2) [] x); [|..|done].
  - cbn [app]. rewrite <- app_assoc. exact H3.
  - unfold l in Hs. apply seg_app in Hs as (q & Hq & [-> Hs]). apply seg_app. exists a. now split.
  - now destruct l1.
  - done.
  - rewrite (proj2 (Z.leb_le _ _)) by apply Hroom. fold t. rewrite (take_ge t) by lia. rewrite data_app, data_cons, Hf2. now rewrite <- !app_assoc.
  - rewrite (proj2 (Z.leb_le _ _)) by apply Hroom. fold t. now rewrite drop_ge by lia.
  - done.
  - destruct l1; [|done]. change (pkt (a, b1) = pkt (a, b)). apply (pkt_wr geo); [done|lia|lia].
  - intros i. unfold in_pool. rewrite !Forall_app, !Forall_cons. done.
Qed.

(** ** New buffers *)

(** The last of the new buffers, or null. *)
Definition last_of (ns : list cell) : Z := match last ns with Some c => c.1 | None => 0 end.

(** A buffer is linked behind the last one. *)
Lemma wp_link_last s cur c ns L first Q :
  own s ((cur, c) :: ns ++ L) -> seg first ns 0 -> om_next c = 0 ->
  (forall s' ns', own s' ((ns' ++ [(cur, c)]) ++ L) -> seg (if first =? 0 then cur else first) (ns' ++ [(cur, c)]) 0 ->
     data ns' = data ns -> length ns' = length ns -> (forall i, in_pool i ns -> in_pool i ns') -> pools s' = pools s -> Q tt s') ->
  wp (if negb (last_of ns =? 0) then upd (last_of ns) (set_om_next cur) else mret tt) Q s.
Proof.
  intros H Hs Hc HQ. destruct (decide (ns = [])) as [-> |Hn].
  - cbn. apply wp_ret, (HQ s []); auto. cbn in Hs. subst first. now split.
  - destruct (exists_last Hn) as (ns0 & [a b] & ->). unfold last_of. rewrite last_snoc. cbn [fst].
    pose proof (own_pos geo _ _ (a, b) H ltac:(incell)) as Hpos. cbn [fst] in Hpos. destruct (Z.eqb_spec a 0); [lia|]. cbn [negb].
    apply (wp_upd geo s ((cur, c) :: ns0) L a b); [perm|apply cell_wf_next, (own_wf geo _ _ _ H); incell|]. intros s1 H1 Hps.
    assert (Hf : first <> 0).
    { apply (seg_nonzero geo s first (ns0 ++ [(a, b)]) 0 ((cur, c) :: (ns0 ++ [(a, b)]) ++ L)); [done| |done|now destruct ns0].
      intros x Hx. rewrite elem_of_cons, elem_of_app. auto. }
    destruct (Z.eqb_spec first 0); [done|]. apply seg_snoc in Hs as [Hs _].
    apply (HQ s1 (ns0 ++ [(a, set_om_next cur b)])); [perm| | | | |done].
    + apply seg_snoc. split; [now apply seg_snoc|done].
    + rewrite !data_app. done.
    + rewrite !length_app. done.
    + intros i. unfold in_pool. rewrite !Forall_app, !Forall_cons. done.
Qed.

(** The invariant of the loop: the buffers [ns] hold [total - rem] bytes, and all but
    the last one are full. *)
Record gap (i n total rem : Z) (ns : list cell) (first prev : Z) : Prop := Gap {
  gp_seg : seg first ns 0;
  gp_pool : in_pool i ns;
  gp_prev : prev = last_of ns;
  gp_rem : 0 <= rem;
  gp_len : Z.of_nat (length (data ns)) = total - rem;
  gp_full : 0 < rem -> total - rem = Z.of_nat (length ns) * n;
  gp_room : forall c, last ns = Some c -> room c = Z.of_nat (length ns) * n - (total - rem) /\ 0 <= room c < Z.max 1 n;
}.

Lemma widen_loop_spec fuel s i n bl L first prev ns total rem Q :
  own s (ns ++ L) -> geo !! i = Some (n, bl) -> nfree s i < Z.of_nat fuel -> rem < 2 ^ 16 ->
  gap i n total rem ns first prev ->
  (forall s', own s' L -> space s i n ns < rem -> Q None s') ->
  (forall s' first' prev' ns', own s' (ns' ++ L) -> gap i n total 0 ns' first' prev' ->
     space s' i n ns' = space s i n ns - rem -> Q (Some (first', prev')) s') ->
  wp (widen_loop fuel i first prev rem) Q s.
Proof.
  revert s first prev ns rem Q. induction fuel as [|fuel IH]; intros s first prev ns rem Q H Hi Hf Hrem Hg Hno Hok.
  { pose proof (own_nfree_size geo _ _ _ _ _ H Hi). lia. }
  cbn [widen_loop]. pose proof Hg as [Hs Hip Hpv Hr0 Hlen Hfull Hroom]. destruct (Z.leb_spec rem 0).
  { replace rem with 0 in * by lia. apply wp_ret. apply (Hok s first prev ns); [done|done|lia]. }
  assert (Hlr : last_room ns = 0).
  { unfold last_room. destruct (last ns) as [c0|] eqn:El; [|done]. destruct (Hroom c0 eq_refl) as [-> _]. rewrite <- Hfull by done. lia. }
  destruct (own_pool geo _ _ _ _ _ H Hi) as (_ & _ & _ & _ & Hn).
  apply wp_bind, (wp_get geo s (ns ++ L) i n bl); [done|done|lia| |].
  2: { intros Hz. cbn [Z.eqb]. apply wp_bind, (wp_free_chain geo s first ns L); [done..|]. intros s1 H1. apply wp_ret, Hno; [done|].
    unfold space. rewrite Hlr. destruct Hz as [Hz|Hz]; [lia|]. rewrite Hz. lia. }
  intros cur db s1 _ Hfree H1 Hdb. pose proof (own_pos geo _ _ _ H1 ltac:(left)) as Hpos. cbn [fst] in Hpos.
  destruct (Z.eqb_spec cur 0); [lia|]. pose proof (get_count geo _ _ _ i _ _ _ _ H H1 eq_refl Hi) as Hcnt. cbv zeta.
  apply wp_bind, (wp_trailing geo s1 ((cur, fresh cur 0 i db) :: ns ++ L) cur (fresh cur 0 i db)); [done|left|].
  assert (Ed : doff (cur, fresh cur 0 i db) = 0) by (unfold doff; cbn; lia). rewrite Ed. cbn [fresh om_databuf om_len]. rewrite Hdb, Z.add_0_r, Z.sub_0_r.
  set (k := Z.min n rem). set (c := set_om_len k (fresh cur 0 i db)).
  assert (Eif : (if n <? rem then upd cur (set_om_len n) else upd cur (set_om_len rem)) = upd cur (set_om_len k)).
  { unfold k. destruct (Z.ltb_spec n rem); do 2 f_equal; lia. }
  rewrite Eif. apply wp_bind, (wp_upd geo s1 [] (ns ++ L) cur (fresh cur 0 i db)); [done| |].
  { apply cell_wf_len; [apply (own_wf geo _ _ _ H1); left|lia|]. rewrite Ed. cbn. lia. }
  intros s2 H2 Hp2. cbn [app] in H2. fold c in H2.
  apply wp_bind, (wp_load geo s2 ((cur, c) :: ns ++ L) cur c); [done|left|]. change (om_len c) with k. rewrite u16_small by lia.
  pose proof (length_frag geo (cur, c) (own_wf geo _ _ _ H2 ltac:(left))) as Hfl. cbn [snd] in Hfl. change (om_len c) with k in Hfl.
  rewrite Hpv. apply wp_bind, (wp_link_last s2 cur c ns L first); [done|done|done|]. intros s3 ns' H3 Hs3 Hd3 Hl3 Hi3 Hp3.
  assert (Hnf : nfree s3 i = nfree s i - 1) by (rewrite <- Hcnt; unfold nfree; now rewrite Hp3, Hp2).
  assert (Hsp : space s3 i n (ns' ++ [(cur, c)]) - (rem - k) = space s i n ns - rem).
  { unfold space. rewrite Hnf, Hlr. unfold last_room. rewrite last_snoc. unfold room.
    change (doff (cur, c)) with (doff (cur, fresh cur 0 i db)). rewrite Ed. cbn [snd c set_om_len om_databuf om_len fresh]. lia. }
  apply (IH s3 _ cur (ns' ++ [(cur, c)])); [done|done|lia|lia| | |].
  2: { intros s4 H4 Hlt. apply Hno; [done|lia]. }
  2: { intros s4 f4 p4 ns4 H4 Hg4 Hs4. apply (Hok s4 f4 p4 ns4); [done|done|lia]. }
  assert (Hlen' : Z.of_nat (length (data (ns' ++ [(cur, c)]))) = total - (rem - k)).
  { rewrite data_app, data_cons, !length_app, Hd3. cbn [data map concat length]. lia. }
  constructor; [done| | |lia|done| |].
  - unfold in_pool. rewrite Forall_app. split; [now apply Hi3|]. constructor; [done|constructor].
  - unfold last_of. now rewrite last_snoc.
  - intros Hlt. rewrite length_app, Hl3. cbn [length]. lia.
  - intros c'. rewrite last_snoc. intros [= <-]. unfold room. change (doff (cur, c)) with (doff (cur, fresh cur 0 i db)). rewrite Ed.
    cbn [snd c set_om_len om_databuf om_len fresh]. rewrite length_app, Hl3. cbn [length]. lia.
Qed.

(** The new buffers are linked behind the buffer of the offset. *)
Lemma wp_widen_split s p l1 a b l2 F o len i n bl first prev ns Q :
  let l := l1 ++ (a, b) :: l2 in
  own s (ns ++ l ++ F) -> seg p l 0 -> 0 <= o <= om_len b -> room (a, b) < len -> 0 < len -> in_pool i l ->
  geo !! i = Some (n, bl) -> gap i n len 0 ns first prev ->
  (forall s', own s' (l ++ F) -> space s i n ns < om_len b - o -> Q OS_ENOMEM s') ->
  (forall s', widened n p l1 (a, b) l2 F o len s' -> om_len b - o <= space s i n ns -> Q 0 s') ->
  wp (eb ← load a;
      bs ← mread a (om_data eb + o) (om_len eb - o);
      rc ← MbufHeap.os_mbuf_append prev bs;
      if negb (rc =? 0) then os_mbuf_free_chain first;; mret OS_ENOMEM
      else
        upd a (set_om_len o);;
        eb ← load a;
        upd prev (set_om_next (om_next eb));;
        upd a (set_om_next first);;
        add_pktlen p len;;
        mret 0) Q s.
Proof.
  intros l H Hs Ho Hroom Hlen Hil Hi [Hsn Hip Hpv _ Hnl _ Hrm] Hno HQ.
  assert (Hn : ns <> []) by (intros ->; cbn in Hnl; lia). destruct (exists_last Hn) as (ns0 & [pv pb] & ->).
  unfold last_of in Hpv. rewrite last_snoc in Hpv. cbn [fst] in Hpv. subst prev.
  destruct (Hrm (pv, pb) (last_snoc _ _)) as [Er Hr]. rewrite length_app in Er. cbn [length] in Er. clear Hrm.
  destruct (own_pool geo _ _ _ _ _ H Hi) as (_ & _ & _ & _ & Hnr).
  assert (Emod : room (pv, pb) = - len mod n).
  { assert (n <> 0) by (intros ->; lia). apply (Z.mod_unique_pos _ _ (- Z.of_nat (length ns0 + 1))); [lia|]. rewrite Er. lia. }
  assert (H1 : own s ((pv, pb) :: ns0 ++ l1 ++ (a, b) :: l2 ++ F)) by (unfold l in H; perm).
  pose proof (own_wf geo _ _ (a, b) H1 ltac:(incell)) as Hw. pose proof (length_frag geo (a, b) Hw) as Hfl. cbn [snd] in Hfl.
  apply wp_bind. eapply (wp_load geo s); [exact H1|incell|].
  apply wp_bind, (wp_mread_frag geo s ((pv, pb) :: ns0 ++ l1 ++ (a, b) :: l2 ++ F) a b o); [done|incell|lia..|].
  assert (Et : slice (Z.to_nat o) (Z.to_nat (om_len b - o)) (frag (a, b)) = drop (Z.to_nat o) (frag (a, b))).
  { unfold slice. apply take_ge. rewrite length_drop. lia. }
  rewrite Et. set (t := drop (Z.to_nat o) (frag (a, b))) in *.
  apply wp_bind, (wp_append geo s pv [(pv, pb)] (ns0 ++ l1 ++ (a, b) :: l2 ++ F) t); [done|done| |].
  { split; [done|]. apply seg_snoc in Hsn as [_ Hsn]. exact Hsn. }
  intros s1 l4 rc H4 Hs4 Hap Hip4. assert (Hpl : in_pool i l4) by (apply Hip4; unfold in_pool in Hip; rewrite Forall_app in Hip; apply Hip).
  assert (Hi1 : in_pool i [(pv, pb)]) by (unfold in_pool in Hip |- *; rewrite Forall_app in Hip; apply Hip).
  destruct (appended_amount geo s [(pv, pb)] (ns0 ++ l1 ++ (a, b) :: l2 ++ F) t l4 rc i n bl H1 Hap Hi1 Hi) as [_ Hrce].
  assert (Htl : Z.of_nat (length t) = om_len b - o) by (unfold t; rewrite length_drop; lia).
  assert (Hsp : space s i n (ns0 ++ [(pv, pb)]) = space s i n [(pv, pb)]) by (unfold space, last_room; now rewrite last_snoc).
  rewrite <- Hsp, Htl in Hrce. clear Hi1 Hsp.
  destruct (appended_one geo _ _ _ _ _ Hap ltac:(lia)) as ([pv' pb'] & lost & rest & -> & Hfr & Hdl & Hrc & Hnil). clear Hap Hip4.
  destruct Hs4 as [Epv Hs4]. cbn [fst snd] in *. subst pv'. apply seg_snoc in Hsn as [Hsn _]. cbn [fst] in Hsn.
  destruct (Z.eqb_spec rc 0) as [E|E]; cbn [negb].
  2: { apply wp_bind, (wp_free_chain geo s1 first (ns0 ++ (pv, pb') :: lost) (l ++ F)); [unfold l; perm| |].
    - apply seg_app. exists pv. split; [done|now split].
    - intros s2 H2. apply wp_ret, Hno; [done|]. destruct (Z.leb_spec (om_len b - o) (space s i n (ns0 ++ [(pv, pb)]))); [done|lia]. }
  assert (rest = []) as -> by now apply Hrc. rewrite app_nil_r in Hdl.
  assert (H5 : own s1 (l1 ++ (a, b) :: l2 ++ (pv, pb') :: ns0 ++ lost ++ F)) by perm.
  apply wp_bind, (wp_upd geo s1 l1 (l2 ++ (pv, pb') :: ns0 ++ lost ++ F) a b); [done|apply cell_wf_shorten; [done|lia]|]. intros s2 H6 _.
  apply wp_bind. eapply (wp_load geo s2); [exact H6|incell|]. cbn [set_om_len om_next].
  assert (H7 : own s2 ((pv, pb') :: l1 ++ (a, set_om_len o b) :: l2 ++ ns0 ++ lost ++ F)) by perm.
  apply wp_bind, (wp_upd geo s2 [] (l1 ++ (a, set_om_len o b) :: l2 ++ ns0 ++ lost ++ F) pv pb'); [done|apply cell_wf_next, (own_wf geo _ _ _ H7); left|].
  intros s3 H8 _. cbn [app] in H8. set (pb2 := set_om_next (om_next b) pb') in *.
  apply wp_bind, (wp_upd geo s3 ((pv, pb2) :: l1) (l2 ++ ns0 ++ lost ++ F) a (set_om_len o b)); [done|apply cell_wf_next, cell_wf_shorten; [done|lia]|].
  intros s4 H9 _. set (b2 := set_om_next first (set_om_len o b)) in *.
  apply (wp_widen_end s4 n p l1 (a, b) l2 F o len (l1 ++ (a, b2) :: ns0 ++ (pv, pb2) :: l2) lost (data (ns0 ++ [(pv, pb)]))); [| | |lia|..].
  - perm.
  - unfold l in Hs. apply seg_app in Hs as (q & Hq & [-> Hs]). apply seg_app. exists a. split; [done|]. split; [done|].
    apply seg_app. exists pv. split; [done|]. split; [done|]. exact Hs.
  - now destruct l1.
  - rewrite (proj2 (Z.leb_gt _ _)) by done. rewrite <- Emod. fold t. rewrite Nat.min_comm.
    repeat (rewrite data_app || rewrite data_cons). change (data []) with (@nil Z). unfold b2, pb2.
    rewrite !frag_next, Hfr, frag_shorten by lia. rewrite app_nil_r, <- !app_assoc. done.
  - rewrite (proj2 (Z.leb_gt _ _)) by done. rewrite <- Emod. fold t. rewrite Nat.min_comm. exact Hdl.
  - rewrite (proj2 (Z.leb_gt _ _)) by done. rewrite <- Emod. fold t. rewrite Nat.min_comm. intros Ek. apply Hnil. apply drop_ge. lia.
  - now destruct l1.
  - intros j Hj. assert (j = i) as ->.
    { unfold in_pool in Hj, Hil. unfold l in Hil. rewrite Forall_app, Forall_cons in Hj, Hil. destruct Hj as (_ & <- & _), Hil as (_ & <- & _). done. }
    unfold in_pool in *. unfold l in Hil. rewrite !Forall_app, !Forall_cons in *. rewrite Forall_app, Forall_cons.
    destruct Hil as (Hj1 & Hj2 & Hj3), Hip as (Hp1 & Hp2), Hpl as (Hp3 & _). auto 6.
  - intros s5 H5'. apply HQ; [done|]. destruct (Z.leb_spec (om_len b - o) (space s i n (ns0 ++ [(pv, pb)]))); [done|].
    rewrite E in Hrce. discriminate Hrce.
Qed.

(** The buffer [e] that the offset [off] of a chain lies in, as [os_mbuf_off] finds it. *)
Definition lies_in (l : list cell) (off : Z) (l1 : list cell) (e : cell) (l2 : list cell) (o : Z) : Prop :=
  l = l1 ++ e :: l2 /\ off = Z.of_nat (length (data l1)) + o /\ 0 <= o <= om_len e.2 /\ (o < om_len e.2 \/ l2 = []).

Lemma wp_widen s p l F off len i n bl Q :
  l <> [] -> own s (l ++ F) -> seg p l 0 -> in_pool i l -> geo !! i = Some (n, bl) -> 0 <= off -> 0 <= len < 2 ^ 16 ->
  (Z.of_nat (length (data l)) < off -> Q OS_EINVAL s) ->
  (forall l1 e l2 o, lies_in l off l1 e l2 o ->
     let fits := (len <=? room e) || (len + (om_len e.2 - o) <=? n * nfree s i) in
     (forall s', own s' (l ++ F) -> fits = false -> Q OS_ENOMEM s') /\
     (forall s', widened n p l1 e l2 F o len s' -> fits = true -> Q 0 s')) ->
  wp (os_mbuf_widen p off len) Q s.
Proof.
  intros Hn H Hs Hip Hi Ho Hlen Hshort HQ. apply wp_bind, (wp_off geo s p l F); [done..|].
  intros [a o] [[Hsh E]|(l1 & b & l2 & El0 & Hr & Eo & Hlast)]; cbn [fst snd] in *.
  { rewrite E. cbn [Z.eqb]. apply wp_ret, Hshort. destruct Hsh; [done|lia]. }
  destruct (HQ l1 (a, b) l2 o ltac:(now repeat split)) as [Hno Hok]. clear HQ. cbn [snd] in Hno, Hok. subst l off.
  assert (Ha : (a, b) ∈ (l1 ++ (a, b) :: l2) ++ F) by (rewrite !elem_of_app, elem_of_cons; auto).
  pose proof (own_pos geo _ _ _ H Ha) as Hpos. cbn [fst] in Hpos. destruct (Z.eqb_spec a 0); [lia|].
  apply wp_bind, (wp_trailing geo s ((l1 ++ (a, b) :: l2) ++ F) a b); [done..|].
  change (Z.of_nat (length (om_databuf b)) - (doff (a, b) + om_len b)) with (room (a, b)).
  destruct (Z.leb_spec len (room (a, b))) as [Hle|Hgt]; cbn [orb] in Hno, Hok.
  { apply (wp_widen_here s n p l1 a b l2 F o len); [done|done|lia|lia|auto]. }
  destruct (l1 ++ (a, b) :: l2) as [|[p' fb] l0] eqn:El; [done|]. pose proof Hs as [Ep _]. cbn [fst] in Ep. subst p'.
  pose proof Hip as [Hib _]%Forall_cons. cbn [snd] in Hib.
  apply wp_bind, (wp_load geo s (((p, fb) :: l0) ++ F) p fb); [done|left|]. rewrite Hib.
  pose proof (room_nonneg geo _ (own_wf geo _ _ _ H Ha)) as Hr0.
  apply wp_bind, wp_fuel, (widen_loop_spec _ s i n bl (((p, fb) :: l0) ++ F) 0 0 [] len len); [done|done| |lia| | |].
  - pose proof (own_nfree_size geo _ _ _ _ _ H Hi). lia.
  - constructor; cbn; try done; try lia. constructor.
  - intros s1 H1 Hlt. apply wp_ret, Hno; [done|]. apply Z.leb_gt. change (space s i n []) with (n * nfree s i) in Hlt. lia.
  - intros s1 first prev ns H1 Hg Hsp. rewrite <- El in *. change (space s i n []) with (n * nfree s i) in Hsp.
    apply (wp_widen_split s1 p l1 a b l2 F o len i n bl first prev ns); [done|done|lia|lia|lia|done|done|done|..].
    + intros s2 H2 Hlt. apply Hno; [done|]. apply Z.leb_gt. lia.
    + intros s2 H2 Hge. apply Hok; [done|]. apply Z.leb_le. lia.
Qed.
End Widen.
