(* ===== verification/MbufPacket.v ===== *)
(** * Packets

    The contract of the chained buffers towards a client that holds packets: each packet
    is a string of bytes. The operations are composed to programs over a list of
    packets; the programs neither fault nor lose or share blocks, keep the packet
    headers, and compute on the strings what the documentation of the functions says. *)
From stdpp Require Import base tactics numbers list gmap.
From Stdlib Require Import ZArith Lia.
From S2P Require Import Prelude Mempool Mbuf MbufHeap MbufEdit MbufLogic MbufChain MbufAppend MbufDup MbufTrim MbufFront MbufJoin MbufRead.
Local Open Scope Z_scope.

(** ** Programs *)

(** A call; packets are named by their position in the list of the client. *)
Inductive mop :=
| New (user : Z)                        (* os_mbuf_get_pkthdr *)
| Free (k : nat)                        (* os_mbuf_free_chain *)
| Append (k : nat) (x : list Z)         (* os_mbuf_append *)
| Appendfrom (k j : nat) (off len : Z)  (* os_mbuf_appendfrom *)
| Extend (k : nat) (len : Z)            (* os_mbuf_extend *)
| Adj (k : nat) (n : Z)                 (* os_mbuf_adj *)
| TrimFront (k : nat)                   (* os_mbuf_trim_front *)
| Prepend (k : nat) (len : Z)           (* os_mbuf_prepend *)
| Pullup (k : nat) (len : Z)            (* os_mbuf_pullup *)
| PrependPullup (k : nat) (len : Z)     (* os_mbuf_prepend_pullup *)
| Dup (k : nat)                         (* os_mbuf_dup *)
| Concat (k j : nat)                    (* os_mbuf_concat *)
| Pack (k j : nat)                      (* os_mbuf_pack_chains *)
| Copydata (k : nat) (off len : Z)      (* os_mbuf_copydata *)
| Cmpf (k : nat) (off : Z) (x : list Z) (* os_mbuf_cmpf *)
| Cmpm (k : nat) (off1 : Z) (j : nat) (off2 len : Z) (* os_mbuf_cmpm *)
| ToFlat (k : nat) (max_len : Z).       (* ble_hs_mbuf_to_flat *)

(** The arguments have the types of the parameters. *)
Definition mop_ok (op : mop) : Prop :=
  match op with
  | New user => 0 <= user < 2 ^ 8
  | Append _ x => Z.of_nat (length x) < 2 ^ 16
  | Appendfrom _ _ off len => 0 <= off < 2 ^ 16 /\ 0 <= len < 2 ^ 16
  | Extend _ len | Prepend _ len => 0 <= len < 2 ^ 16
  | Pullup _ len | PrependPullup _ len => 0 <= len < 2 ^ 16
  | Adj _ n => - 2 ^ 31 <= n < 2 ^ 31
  | Copydata _ off len => 0 <= off < 2 ^ 31 /\ 0 <= len < 2 ^ 31
  | Cmpf _ off x => 0 <= off < 2 ^ 31 /\ Z.of_nat (length x) < 2 ^ 16
  | Cmpm _ off1 _ off2 len => 0 <= off1 < 2 ^ 16 /\ 0 <= off2 < 2 ^ 16 /\ 0 <= len < 2 ^ 16
  | ToFlat _ max_len => 0 < max_len < 2 ^ 16
  | Free _ | TrimFront _ | Dup _ | Concat _ _ | Pack _ _ => True
  end.

(** The packets that the client holds after a call, and what it got from it. *)
Definition obs : Type := list Z * Z * list Z.

Section Packet.
  Context {CF : MempoolConf}.

(** A call on one packet; nothing happens when there is no such packet. *)
Definition on (ps : list Z) (k : nat) (f : Z -> M obs) : M obs :=
  match ps !! k with Some p => f p | None => mret (ps, 0, []) end.

Definition on2 (ps : list Z) (k j : nat) (f : Z -> Z -> M obs) : M obs :=
  if decide (k = j) then mret (ps, 0, []) else on ps k (fun p => on ps j (f p)).

(** A function that returned the new head of the packet, or null when it was freed. *)
Definition replace_head (ps : list Z) (k : nat) (r : Z) (bs : list Z) : obs :=
  (if r =? 0 then delete k ps else <[k := r]> ps, r, bs).

(** The client reads [len] bytes at [om_data] of a packet that is contiguous there. *)
Definition front_bytes (r len : Z) : M (list Z) :=
  if r =? 0 then mret [] else b ← load r; mread r (om_data b) len.

Definition mstep (i : Z) (op : mop) (ps : list Z) : M obs :=
  match op with
  | New user => r ← os_mbuf_get_pkthdr i user; mret (if r =? 0 then ps else r :: ps, r, [])
  | Free k => on ps k (fun p => rc ← os_mbuf_free_chain p; mret (delete k ps, rc, []))
  | Append k x => on ps k (fun p => rc ← os_mbuf_append p x; mret (ps, rc, []))
  | Appendfrom k j off len => on2 ps k j (fun p q => rc ← os_mbuf_appendfrom p q off len; mret (ps, rc, []))
  | Extend k len => on ps k (fun p => r ← os_mbuf_extend p len; mret (ps, r, []))
  | Adj k n => on ps k (fun p => os_mbuf_adj p n;; mret (ps, 0, []))
  | TrimFront k => on ps k (fun p => r ← os_mbuf_trim_front p; mret (<[k := r]> ps, r, []))
  | Prepend k len => on ps k (fun p => r ← os_mbuf_prepend p len; mret (replace_head ps k r []))
  | Pullup k len => on ps k (fun p => r ← os_mbuf_pullup p len; bs ← front_bytes r len; mret (replace_head ps k r bs))
  | PrependPullup k len => on ps k (fun p => r ← os_mbuf_prepend_pullup p len; bs ← front_bytes r len; mret (replace_head ps k r bs))
  | Dup k => on ps k (fun p => r ← os_mbuf_dup p; mret (if r =? 0 then ps else r :: ps, r, []))
  | Concat k j => on2 ps k j (fun p q => os_mbuf_concat p q;; mret (delete j ps, 0, []))
  | Pack k j => on2 ps k j (fun p q => r ← os_mbuf_pack_chains p q; mret (delete j ps, 0, []))
  | Copydata k off len => on ps k (fun p => '(bs, rc) ← os_mbuf_copydata p off len; mret (ps, rc, bs))
  | Cmpf k off x => on ps k (fun p => rc ← os_mbuf_cmpf p off x; mret (ps, rc, []))
  | Cmpm k off1 j off2 len => on2 ps k j (fun p q => rc ← os_mbuf_cmpm p off1 q off2 len; mret (ps, rc, []))
  | ToFlat k max_len => on ps k (fun p => '(bs, rc, _) ← ble_hs_mbuf_to_flat p max_len; mret (ps, rc, bs))
  end.

(** The codes and bytes of all calls. *)
Fixpoint mrun (i : Z) (ops : list mop) (ps : list Z) : M (list Z * list (Z * list Z)) :=
  match ops with
  | [] => mret (ps, [])
  | op :: ops =>
      '(ps, rc, bs) ← mstep i op ps;
      '(ps, os) ← mrun i ops ps;
      mret (ps, (rc, bs) :: os)
  end.
End Packet.

(** ** The contract *)

(** What a call does to the strings [ds] of the packets, with [fr] free blocks of [n]
    bytes in the pool, and what it returns. *)
Definition on_str (ds ds' : list (list Z)) (k : nat) (P : list Z -> Prop) : Prop :=
  match ds !! k with Some d => P d | None => ds' = ds end.

Definition on_str2 (ds ds' : list (list Z)) (k j : nat) (P : list Z -> list Z -> Prop) : Prop :=
  if decide (k = j) then ds' = ds else on_str ds ds' k (fun d => on_str ds ds' j (P d)).

Definition spec (n fr : Z) (op : mop) (ds ds' : list (list Z)) (rc : Z) (bs : list Z) : Prop :=
  match op with
  | New user => if rc =? 0 then ds' = ds /\ (n < user + 8 \/ 247 < user \/ fr = 0) else ds' = [] :: ds
  | Free k => on_str ds ds' k (fun _ => ds' = delete k ds /\ rc = 0)
  | Append k x => on_str ds ds' k (fun d => exists m, ds' = <[k := d ++ take m x]> ds /\ (m <= length x)%nat /\
      (rc = 0 <-> m = length x) /\ (Z.of_nat (length x) <= n * fr -> rc = 0))
  | Appendfrom k j off len => on_str2 ds ds' k j (fun d e => exists m, let x := slice (Z.to_nat off) (Z.to_nat len) e in
      ds' = <[k := d ++ take m x]> ds /\ (m <= length x)%nat /\ (rc = 0 <-> m = Z.to_nat len) /\
      (rc = 0 \/ rc = OS_ENOMEM \/ rc = OS_EINVAL /\ (length x < Z.to_nat len)%nat))
  | Extend k len => on_str ds ds' k (fun d =>
      if rc =? 0 then ds' = ds /\ (n < len \/ fr = 0)
      else exists x, ds' = <[k := d ++ x]> ds /\ Z.of_nat (length x) = len)
  | Adj k m => on_str ds ds' k (fun d => ds' = <[k := adj m d]> ds)
  | TrimFront k => ds' = ds
  | Prepend k len => on_str ds ds' k (fun d =>
      if rc =? 0 then ds' = delete k ds /\ fr * (n - 255) < len
      else exists x, ds' = <[k := x ++ d]> ds /\ Z.of_nat (length x) = len)
  | Pullup k len => on_str ds ds' k (fun d =>
      if rc =? 0 then ds' = delete k ds /\ (Z.of_nat (length d) < len \/ n - 255 < len \/ fr = 0)
      else ds' = ds /\ bs = take (Z.to_nat len) d /\ len <= Z.of_nat (length d))
  | PrependPullup k len => on_str ds ds' k (fun d =>
      if rc =? 0 then ds' = delete k ds else ds' = <[k := bs ++ d]> ds /\ Z.of_nat (length bs) = len)
  | Dup k => on_str ds ds' k (fun d => if rc =? 0 then ds' = ds else ds' = d :: ds)
  | Concat k j | Pack k j => on_str2 ds ds' k j (fun d e => ds' = delete j (<[k := d ++ e]> ds))
  | Copydata k off len => on_str ds ds' k (fun d => ds' = ds /\
      (0 < len -> bs = slice (Z.to_nat off) (Z.to_nat len) d /\
                  rc = if off + len <=? Z.of_nat (length d) then 0 else -1))
  | Cmpf k off x => on_str ds ds' k (fun d => ds' = ds /\
      (rc = 0 <-> slice (Z.to_nat off) (length x) d = x))
  | Cmpm k off1 j off2 len => on_str2 ds ds' k j (fun d e => ds' = ds /\
      (rc = 0 <-> length (slice (Z.to_nat off1) (Z.to_nat len) d) = Z.to_nat len /\
                  slice (Z.to_nat off1) (Z.to_nat len) d = slice (Z.to_nat off2) (Z.to_nat len) e))
  | ToFlat k max_len => on_str ds ds' k (fun d => ds' = ds /\
      (Z.of_nat (length d) < 2 ^ 16 -> bs = take (Z.to_nat max_len) d /\ rc = 0))
  end.

(** The same for a program. *)
Fixpoint spec_run (n : Z) (ops : list mop) (ds : list (list Z)) (os : list (Z * list Z)) (ds' : list (list Z)) : Prop :=
  match ops, os with
  | [], [] => ds' = ds
  | op :: ops, (rc, bs) :: os => exists fr ds1, 0 <= fr /\ spec n fr op ds ds1 rc bs /\ spec_run n ops ds1 os ds'
  | _, _ => False
  end.

(** ** The packets in the heap *)
Lemma concat_hole {A} (ls : list (list A)) k l l' :
  ls !! k = Some l -> concat (<[k := l']> ls) ≡ₚ l' ++ concat (<[k := []]> ls).
Proof.
  revert k. induction ls as [|m ls IH]; intros [|k] E; try done. cbn. cbn in E. rewrite (IH k E). solve_Permutation.
Qed.

Lemma concat_delete {A} (ls : list (list A)) k : concat (delete k ls) = concat (<[k := []]> ls).
Proof. revert k. induction ls as [|m ls IH]; intros [|k]; cbn; try done. now rewrite <- IH. Qed.

Section Rep.
  Context {CF : MempoolConf} (geo : gmap Z (Z * list Z)) (i n : Z) (bl : list Z).
  Context (Hi : geo !! i = Some (n, bl)).
  Local Abbreviation own := (own geo) (only parsing).

(** A packet: a chain of blocks of the pool, with a header that has its length. *)
Record packet (p : Z) (l : list cell) : Prop := Packet {
  pk_seg : seg p l 0;
  pk_nonnil : l <> [];
  pk_sync : synced l;
  pk_head : is_Some (phead l);
  pk_pool : in_pool i l;
}.

(** All blocks that are in use are in the packets of the client. *)
Definition rep (s : mheap) (ps : list Z) (ds : list (list Z)) : Prop :=
  exists ls, own s (concat ls) /\ Forall2 packet ps ls /\ ds = data <$> ls.

Lemma packet_bump p p' l l' d :
  packet p l -> seg p' l' 0 -> l' <> [] -> phead l' = bump d (phead l) ->
  Z.of_nat (length (data l')) = Z.of_nat (length (data l)) + d -> in_pool i l' -> packet p' l'.
Proof.
  intros [_ _ Hs [[h r] Hh] _] Hs' Hn Hp Hd Hip. constructor; auto.
  - now apply (synced_bump l l' d).
  - rewrite Hp, Hh. eauto.
Qed.

Lemma packet_same p p' l l' :
  packet p l -> seg p' l' 0 -> l' <> [] -> phead l' = phead l -> data l' = data l -> in_pool i l' -> packet p' l'.
Proof.
  intros Hp Hs Hn Hh Hd. apply (packet_bump p p' l l' 0); auto; [|rewrite Hd; lia]. rewrite Hh. symmetry. apply phead_bump_0.
Qed.

Lemma packet_pos s p l F : own s (l ++ F) -> packet p l -> p <> 0.
Proof. intros H Hp. apply (seg_nonzero geo s p l 0 (l ++ F)); [done| |apply Hp|apply Hp]. intros c Hc. incell. Qed.

(** One packet is taken out of the heap. *)
Record focus (s : mheap) (ps : list Z) (ds : list (list Z)) (k : nat) (p : Z) (l F : list cell) : Prop := Focus {
  fo_own : own s (l ++ F);
  fo_pkt : packet p l;
  fo_data : ds !! k = Some (data l);
  fo_put : forall s' p' l', own s' (l' ++ F) -> packet p' l' -> rep s' (<[k := p']> ps) (<[k := data l']> ds);
  fo_drop : forall s', own s' F -> rep s' (delete k ps) (delete k ds);
  fo_add : forall s' p' l', own s' (l' ++ l ++ F) -> packet p' l' -> rep s' (p' :: ps) (data l' :: ds);
}.

Lemma rep_focus s ps ds k p : rep s ps ds -> ps !! k = Some p -> exists l F, focus s ps ds k p l F.
Proof.
  intros (ls & H & Hps & ->) Hk. destruct (Forall2_lookup_l _ _ _ _ _ Hps Hk) as (l & Hl & Hp).
  assert (HF : concat ls ≡ₚ l ++ concat (<[k := []]> ls)) by (rewrite <- (list_insert_id ls k l Hl) at 1; now apply (concat_hole ls k l)).
  exists l, (concat (<[k := []]> ls)). constructor; auto.
  - now rewrite <- HF.
  - rewrite list_lookup_fmap, Hl. done.
  - intros s' p' l' H' Hp'. exists (<[k := l']> ls). split; [now rewrite (concat_hole ls k l l' Hl)|].
    split; [now apply Forall2_insert|now rewrite list_fmap_insert].
  - intros s' H'. exists (delete k ls). split; [now rewrite concat_delete|]. split; [now apply Forall2_delete|now rewrite list_fmap_delete].
  - intros s' p' l' H' Hp'. exists (l' :: ls). split; [cbn; now rewrite HF|]. split; [now constructor|done].
Qed.

Lemma rep_none s ps ds k : rep s ps ds -> ps !! k = None -> ds !! k = None.
Proof.
  intros (ls & _ & Hps & ->) Hk. rewrite list_lookup_fmap. apply lookup_ge_None in Hk. apply Forall2_length in Hps.
  rewrite (lookup_ge_None_2 ls) by lia. done.
Qed.

(** Two packets are taken out. *)
Record focus2 (s : mheap) (ps : list Z) (ds : list (list Z)) (k j : nat) (p q : Z) (l l2 F : list cell) : Prop := Focus2 {
  fo2_own : own s (l ++ l2 ++ F);
  fo2_pkt : packet p l;
  fo2_pkt2 : packet q l2;
  fo2_data : ds !! k = Some (data l);
  fo2_data2 : ds !! j = Some (data l2);
  fo2_put : forall s' l', own s' (l' ++ l2 ++ F) -> packet p l' -> rep s' ps (<[k := data l']> ds);
  fo2_join : forall s' l', own s' (l' ++ F) -> packet p l' -> rep s' (delete j ps) (delete j (<[k := data l']> ds));
}.

Lemma rep_focus2 s ps ds k j p q :
  rep s ps ds -> k <> j -> ps !! k = Some p -> ps !! j = Some q -> exists l l2 F, focus2 s ps ds k j p q l l2 F.
Proof.
  intros (ls & H & Hps & ->) Hkj Hk Hj. destruct (Forall2_lookup_l _ _ _ _ _ Hps Hk) as (l & Hl & Hp).
  destruct (Forall2_lookup_l _ _ _ _ _ Hps Hj) as (l2 & Hl2 & Hq). set (ls0 := <[k := []]> (<[j := []]> ls)).
  assert (Hput : forall l', concat (<[k := l']> ls) ≡ₚ l' ++ l2 ++ concat ls0).
  { intros l'. rewrite (concat_hole ls k l l' Hl). f_equiv. rewrite <- (list_insert_id (<[k := []]> ls) j l2) by (rewrite list_lookup_insert_ne by done; done).
    rewrite (concat_hole _ j l2 l2) by (rewrite list_lookup_insert_ne by done; done).
    unfold ls0. now rewrite (list_insert_insert_ne ls k j) by done. }
  assert (Hdel : forall l', concat (delete j (<[k := l']> ls)) ≡ₚ l' ++ concat ls0).
  { intros l'. rewrite concat_delete, (list_insert_insert_ne ls j k) by done. apply (concat_hole _ k l). rewrite list_lookup_insert_ne by done. done. }
  assert (Eps : <[k := p]> ps = ps) by now apply list_insert_id.
  exists l, l2, (concat ls0). constructor; auto.
  - rewrite <- (Hput l), list_insert_id by done. done.
  - now rewrite list_lookup_fmap, Hl.
  - now rewrite list_lookup_fmap, Hl2.
  - intros s' l' H' Hp'. exists (<[k := l']> ls). split; [now rewrite Hput|]. split; [|now rewrite list_fmap_insert].
    rewrite <- Eps. now apply Forall2_insert.
  - intros s' l' H' Hp'. exists (delete j (<[k := l']> ls)). split; [now rewrite Hdel|].
    split; [|now rewrite list_fmap_delete, list_fmap_insert]. rewrite <- Eps. now apply Forall2_delete, Forall2_insert.
Qed.

(** ** One call *)

(** What holds after a call. *)
Definition stepped (op : mop) (s : mheap) (ds : list (list Z)) (o : obs) (s' : mheap) : Prop :=
  exists ds', rep s' o.1.1 ds' /\ spec n (nfree s i) op ds ds' o.1.2 o.2.

Lemma wp_on s ps ds k f Q :
  rep s ps ds -> (ds !! k = None -> Q (ps, 0, []) s) ->
  (forall p l F, ps !! k = Some p -> focus s ps ds k p l F -> wp (f p) Q s) -> wp (on ps k f) Q s.
Proof.
  intros H Hno Hf. unfold on. destruct (ps !! k) as [p|] eqn:Ek.
  - destruct (rep_focus s ps ds k p H Ek) as (l & F & Hfo). now apply (Hf p l F).
  - apply wp_ret, Hno, (rep_none s ps ds k H Ek).
Qed.

Lemma wp_on2 s ps ds k j f Q :
  rep s ps ds -> (k = j \/ ds !! k = None \/ ds !! j = None -> Q (ps, 0, []) s) ->
  (forall p q l l2 F, k <> j -> focus2 s ps ds k j p q l l2 F -> wp (f p q) Q s) -> wp (on2 ps k j f) Q s.
Proof.
  intros H Hno Hf. unfold on2. destruct (decide (k = j)); [apply wp_ret; auto|]. apply (wp_on s ps ds k); [done|auto|].
  intros p _ _ Hp _. apply (wp_on s ps ds j); [done|auto|]. intros q _ _ Hq _.
  destruct (rep_focus2 s ps ds k j p q H) as (l & l2 & F & Hfo); [done..|]. now apply (Hf p q l l2 F).
Qed.

Lemma on_str_at ds ds' k d (P : list Z -> Prop) : ds !! k = Some d -> P d -> on_str ds ds' k P.
Proof. unfold on_str. now intros ->. Qed.

Lemma on_str_none ds k (P : list Z -> Prop) : ds !! k = None -> on_str ds ds k P.
Proof. unfold on_str. now intros ->. Qed.

Lemma on_str2_at ds ds' k j d e (P : list Z -> list Z -> Prop) :
  k <> j -> ds !! k = Some d -> ds !! j = Some e -> P d e -> on_str2 ds ds' k j P.
Proof. intros Hn E1 E2 HP. unfold on_str2. destruct (decide (k = j)); [done|]. apply (on_str_at _ _ _ d); [done|]. now apply (on_str_at _ _ _ e). Qed.

Lemma on_str2_none ds k j (P : list Z -> list Z -> Prop) :
  k = j \/ ds !! k = None \/ ds !! j = None -> on_str2 ds ds k j P.
Proof.
  intros H. unfold on_str2. destruct (decide (k = j)); [done|]. unfold on_str. destruct (ds !! k); [|done].
  destruct (ds !! j); [|done]. now destruct H as [H|[H|H]].
Qed.

(** The packet [k] keeps its head. *)
Lemma put_same s ps ds k p l F s' l' :
  ps !! k = Some p -> focus s ps ds k p l F -> own s' (l' ++ F) -> packet p l' -> rep s' ps (<[k := data l']> ds).
Proof. intros Hk Hf H Hp. rewrite <- (list_insert_id ps k p Hk) at 1. now apply (fo_put _ _ _ _ _ _ _ Hf). Qed.

Lemma step_new s ps ds user :
  rep s ps ds -> mop_ok (New user) -> wp (mstep i (New user) ps) (stepped (New user) s ds) s.
Proof.
  intros (ls & H & Hps & ->) Hok. cbn in Hok. apply wp_bind. eapply (wp_get_pkthdr geo s (concat ls) i n bl); [done|done|lia| | |lia].
  - intros a db s' Hfree Hle Hdb H' Hz. apply wp_ret. pose proof (own_pos geo _ _ _ H' ltac:(left)) as Hpos. cbn [fst] in Hpos.
    set (c := OsMbuf _ _ _ _ _ _ _) in *. assert (Hp : pkt (a, c) = Some (0, slice 2 (Z.to_nat (user + 8) - 2) db)).
    { unfold pkt, OS_MBUF_IS_PKTHDR, PKTHDR_SIZE. cbn [snd c om_pkthdr_len om_databuf]. destruct (Z.leb_spec 8 (user + 8)); [|lia].
      do 2 f_equal. replace (take 2 db) with (take 2 (take 8 db)) by (rewrite take_take; done). now rewrite Hz. }
    exists ([] :: (data <$> ls)). cbn [fst snd spec]. destruct (Z.eqb_spec a 0); [lia|]. split; [|done].
    exists ([(a, c)] :: ls). split; [done|]. split; [|done]. constructor; [|done].
    assert (Hp' : phead [(a, c)] = Some (0, slice 2 (Z.to_nat (user + 8) - 2) db)) by exact Hp.
    constructor; [done|done| | |constructor; [done|constructor]].
    + unfold synced. rewrite Hp'. done.
    + rewrite Hp'. eauto.
  - intros Hno. apply wp_ret. exists (data <$> ls). cbn. split; [exists ls; auto|auto].
Qed.

Lemma step_free s ps ds k : rep s ps ds -> wp (mstep i (Free k) ps) (stepped (Free k) s ds) s.
Proof.
  intros H. apply (wp_on s ps ds k); [done|intros E; exists ds; split; [done|now apply on_str_none]|]. intros p l F Hk Hf.
  apply wp_bind, (wp_free_chain geo s p l F); [apply Hf|apply Hf|]. intros s' H'. apply wp_ret. exists (delete k ds).
  split; [now apply Hf|]. apply (on_str_at _ _ _ (data l)); [apply Hf|done].
Qed.

Lemma step_append s ps ds k x :
  rep s ps ds -> wp (mstep i (Append k x) ps) (stepped (Append k x) s ds) s.
Proof.
  intros H. apply (wp_on s ps ds k); [done|intros E; exists ds; split; [done|now apply on_str_none]|]. intros p l F Hk Hf.
  pose proof (fo_pkt _ _ _ _ _ _ _ Hf) as Hp. apply wp_bind, (wp_append geo s p l F x); [apply Hp|apply Hf|apply Hp|].
  intros s' l' rc H' Hs' Hap Hip. pose proof (own_nfree_size geo _ _ _ _ _ (fo_own _ _ _ _ _ _ _ Hf) Hi) as Hnf.
  destruct (own_pool geo _ _ _ _ _ H' Hi) as (_ & _ & _ & _ & Hn).
  pose proof (appended_room geo _ _ _ _ _ i n bl Hap (pk_pool _ _ Hp) Hi ltac:(lia) ltac:(lia)) as Hroom.
  destruct (appended_flat geo _ _ _ _ _ Hap) as (m & Hd & Hm & Hrc & _ & Hph & Hn'). apply wp_ret.
  exists (<[k := data l']> ds). split.
  - apply (put_same s ps ds k p l F); auto. apply (packet_bump p p l l' (Z.of_nat m)); auto; [rewrite Hd, length_app, length_take; lia|].
    apply Hip, Hp.
  - apply (on_str_at _ _ _ (data l)); [apply Hf|]. exists m. rewrite Hd. auto.
Qed.

Lemma step_extend s ps ds k len :
  rep s ps ds -> mop_ok (Extend k len) -> wp (mstep i (Extend k len) ps) (stepped (Extend k len) s ds) s.
Proof.
  intros H Hok. cbn in Hok. apply (wp_on s ps ds k); [done|intros E; exists ds; split; [done|now apply on_str_none]|]. intros p l F Hk Hf.
  pose proof (fo_pkt _ _ _ _ _ _ _ Hf) as Hp. apply wp_bind, (wp_extend geo s p l F len i n bl); [apply Hp|apply Hf|apply Hp|apply Hp|done|lia| |].
  - intros Hno. apply wp_ret. exists ds. split; [done|]. apply (on_str_at _ _ _ (data l)); [apply Hf|]. cbn. auto.
  - intros s' r (l' & l1 & a & b & x & H' & Hs' & Hip & El & Hx & Hd & _ & Hph & _ & Hr). apply wp_ret.
    exists (<[k := data l']> ds). split.
    + apply (put_same s ps ds k p l F); auto. apply (packet_bump p p l l' len); auto; [rewrite El; now destruct l1|].
      rewrite Hd, length_app. lia.
    + apply (on_str_at _ _ _ (data l)); [apply Hf|]. cbn [fst snd]. destruct (Z.eqb_spec r 0); [done|]. exists x. rewrite Hd. auto.
Qed.

Lemma step_adj s ps ds k m :
  rep s ps ds -> mop_ok (Adj k m) -> wp (mstep i (Adj k m) ps) (stepped (Adj k m) s ds) s.
Proof.
  intros H Hok. cbn in Hok. apply (wp_on s ps ds k); [done|intros E; exists ds; split; [done|now apply on_str_none]|]. intros p l F Hk Hf.
  pose proof (fo_pkt _ _ _ _ _ _ _ Hf) as Hp. apply wp_bind, (wp_adj geo s p l F m); [apply Hf|apply Hp|apply Hp|lia|].
  intros s' l' H' Hs' Hn' Hd [Hsy Ht Hip]. apply wp_ret. exists (<[k := data l']> ds). split.
  - apply (put_same s ps ds k p l F); auto. constructor; auto; [apply Hsy, Hp| |apply Hip, Hp].
    unfold ptail in Ht. destruct (pk_head _ _ Hp) as [[h r] E]. rewrite E in Ht. destruct (phead l'); [eauto|done].
  - apply (on_str_at _ _ _ (data l)); [apply Hf|]. cbn. now rewrite Hd.
Qed.

Lemma step_trim s ps ds k : rep s ps ds -> wp (mstep i (TrimFront k) ps) (stepped (TrimFront k) s ds) s.
Proof.
  intros H. apply (wp_on s ps ds k); [done|intros E; exists ds; done|]. intros p l F Hk Hf.
  pose proof (fo_pkt _ _ _ _ _ _ _ Hf) as Hp. apply wp_bind, (wp_trim_front geo s p l F); [apply Hf|apply Hp|apply Hp|].
  intros s' r l' H' Hs' Hn' Hd Hph Hip. apply wp_ret. exists ds. split; [|done].
  rewrite <- (list_insert_id ds k (data l)) by apply Hf. rewrite <- Hd. apply Hf; [done|].
  apply (packet_same p r l l'); auto. apply Hip, Hp.
Qed.

(** The packet [k] has a new head. *)
Lemma put_head s ps ds k p l F s' r l' bs :
  focus s ps ds k p l F -> own s' (l' ++ F) -> packet r l' ->
  rep s' (replace_head ps k r bs).1.1 (<[k := data l']> ds) /\ r <> 0.
Proof.
  intros Hf H Hp. pose proof (packet_pos s' r l' F H Hp). unfold replace_head. cbn [fst]. destruct (Z.eqb_spec r 0); [done|].
  split; [now apply Hf|done].
Qed.

Lemma step_prepend s ps ds k len :
  rep s ps ds -> mop_ok (Prepend k len) -> wp (mstep i (Prepend k len) ps) (stepped (Prepend k len) s ds) s.
Proof.
  intros H Hok. cbn in Hok. apply (wp_on s ps ds k); [done|intros E; exists ds; split; [done|now apply on_str_none]|]. intros p l F Hk Hf.
  pose proof (fo_pkt _ _ _ _ _ _ _ Hf) as Hp. apply wp_bind, (wp_prepend geo s p l F len i n bl); [apply Hp|apply Hf|apply Hp|apply Hp|done|lia| |].
  - intros s' H' Hno. apply wp_ret. exists (delete k ds). split; [now apply Hf|]. apply (on_str_at _ _ _ (data l)); [apply Hf|].
    cbn [fst snd replace_head Z.eqb]. split; [done|]. pose proof (own_nfree_size geo _ _ _ _ _ (fo_own _ _ _ _ _ _ _ Hf) Hi) as Hnf.
    assert (Hh : hlen l <= 255); [|nia]. destruct l as [|c l]; [done|].
    pose proof (own_wf geo _ _ c (fo_own _ _ _ _ _ _ _ Hf) ltac:(left)) as [_ _ _ Hhl]. cbn. lia.
  - intros s' r l' x H' Hs' Hn' Hd Hx Hph Hip. apply wp_ret. exists (<[k := data l']> ds).
    destruct (put_head s ps ds k p l F s' r l' [] Hf H') as [Hr Hr0].
    { apply (packet_bump p r l l' len); auto. rewrite Hd, length_app. lia. }
    split; [done|]. apply (on_str_at _ _ _ (data l)); [apply Hf|]. cbn [fst snd replace_head]. destruct (Z.eqb_spec r 0); [done|]. exists x.
    now rewrite Hd.
Qed.

(** After [os_mbuf_pullup] the client can read the bytes. *)
Lemma wp_front_bytes s l1 len F r Q :
  0 <= len -> pulled geo l1 i len F r s ->
  (forall l', own s (l' ++ F) -> seg r l' 0 -> l' <> [] -> data l' = data l1 -> phead l' = phead l1 -> in_pool i l' -> len <= Z.of_nat (length (data l1)) ->
     Q (take (Z.to_nat len) (data l1)) s) -> wp (front_bytes r len) Q s.
Proof.
  intros Hlen ([a b] & l' & H & Hs & Hd & Hph & Hip & Hle) HQ. pose proof (proj1 Hs) as ->. cbn [fst] in *.
  pose proof (own_pos geo _ _ (a, b) H ltac:(left)) as Hpos. pose proof (length_frag geo (a, b) (own_wf geo _ _ _ H ltac:(left))) as Hfl.
  cbn [fst snd] in *. unfold front_bytes. destruct (Z.eqb_spec a 0); [lia|].
  apply wp_bind, (wp_load geo s ((a, b) :: l' ++ F) a b); [done|left|]. replace (om_data b) with (om_data b + 0) by lia.
  apply (wp_mread_frag geo s ((a, b) :: l' ++ F) a b); [done|left|lia..|].
  assert (E : slice (Z.to_nat 0) (Z.to_nat len) (frag (a, b)) = take (Z.to_nat len) (data l1)).
  { rewrite <- Hd, data_cons, take_app_le by lia. unfold slice. now rewrite drop_0. }
  rewrite E. apply (HQ ((a, b) :: l')); auto. rewrite <- Hd, data_cons, length_app. lia.
Qed.

Lemma step_pullup s ps ds k len :
  rep s ps ds -> mop_ok (Pullup k len) -> wp (mstep i (Pullup k len) ps) (stepped (Pullup k len) s ds) s.
Proof.
  intros H Hok. cbn in Hok. apply (wp_on s ps ds k); [done|intros E; exists ds; split; [done|now apply on_str_none]|]. intros p l F Hk Hf.
  pose proof (fo_pkt _ _ _ _ _ _ _ Hf) as Hp. apply wp_bind, (wp_pullup geo s p l F len i n bl); [apply Hp|apply Hf|apply Hp|apply Hp|done|lia| |].
  - intros s' H' Hno. apply wp_bind, wp_ret, wp_ret. exists (delete k ds). split; [now apply Hf|]. apply (on_str_at _ _ _ (data l)); [apply Hf|].
    cbn [fst snd replace_head Z.eqb]. split; [done|]. destruct Hno as [Hno|[Hno|Hno]]; auto. right. left.
    assert (Hh : hlen l <= 255); [|lia]. destruct l as [|c l]; [done|].
    pose proof (own_wf geo _ _ c (fo_own _ _ _ _ _ _ _ Hf) ltac:(left)) as [_ _ _ Hhl]. cbn. lia.
  - intros s' r Hpl. apply wp_bind, (wp_front_bytes s' l len F r); [lia|done|]. intros l' H' Hs' Hn' Hd Hph Hip Hle. apply wp_ret.
    exists ds. destruct (put_head s ps ds k p l F s' r l' (take (Z.to_nat len) (data l)) Hf H') as [Hr Hr0].
    { now apply (packet_same p r l l'). }
    rewrite Hd, (list_insert_id ds) in Hr by apply Hf. split; [done|]. apply (on_str_at _ _ _ (data l)); [apply Hf|].
    cbn [fst snd replace_head]. destruct (Z.eqb_spec r 0); done.
Qed.

Lemma step_prepend_pullup s ps ds k len :
  rep s ps ds -> mop_ok (PrependPullup k len) -> wp (mstep i (PrependPullup k len) ps) (stepped (PrependPullup k len) s ds) s.
Proof.
  intros H Hok. cbn in Hok. apply (wp_on s ps ds k); [done|intros E; exists ds; split; [done|now apply on_str_none]|]. intros p l F Hk Hf.
  pose proof (fo_pkt _ _ _ _ _ _ _ Hf) as Hp.
  apply wp_bind, (wp_prepend_pullup geo s p l F len i n bl); [apply Hp|apply Hf|apply Hp|apply Hp|done|lia| |].
  - intros s' H'. apply wp_bind, wp_ret, wp_ret. exists (delete k ds). split; [now apply Hf|]. now apply (on_str_at _ _ _ (data l)); [apply Hf|].
  - intros s' r l1 x Hd1 Hx Hph1 Hpl. apply wp_bind, (wp_front_bytes s' l1 len F r); [lia|done|].
    intros l' H' Hs' Hn' Hd Hph Hip _. apply wp_ret. exists (<[k := data l']> ds).
    destruct (put_head s ps ds k p l F s' r l' (take (Z.to_nat len) (data l1)) Hf H') as [Hr Hr0].
    { apply (packet_bump p r l l' len); auto; [congruence|]. rewrite Hd, Hd1, length_app. lia. }
    split; [done|]. apply (on_str_at _ _ _ (data l)); [apply Hf|]. cbn [fst snd replace_head]. destruct (Z.eqb_spec r 0); [done|].
    rewrite Hd, Hd1. replace (Z.to_nat len) with (length x) by lia. rewrite take_app_length. done.
Qed.

Lemma step_dup s ps ds k : rep s ps ds -> wp (mstep i (Dup k) ps) (stepped (Dup k) s ds) s.
Proof.
  intros H. apply (wp_on s ps ds k); [done|intros E; exists ds; split; [done|now apply on_str_none]|]. intros p l F Hk Hf.
  pose proof (fo_pkt _ _ _ _ _ _ _ Hf) as Hp. apply wp_bind, (wp_dup geo s p l F i n bl); [apply Hp|apply Hf|apply Hp|apply Hp|done| |].
  - intros s' H' _. apply wp_ret. exists ds. split; [|now apply (on_str_at _ _ _ (data l)); [apply Hf|]].
    cbn [fst Z.eqb]. rewrite <- (list_insert_id ds k (data l)) by apply Hf. now apply (put_same s ps ds k p l F).
  - intros s' r l' H' Hs' Hn' Hfr Hph Hip. assert (Hd : data l' = data l) by (unfold data; now rewrite Hfr).
    assert (Hp' : packet r l') by now apply (packet_same p r l l'). pose proof (packet_pos s' r l' (l ++ F) H' Hp'). apply wp_ret.
    exists (data l' :: ds). unfold spec. cbn [fst snd]. destruct (Z.eqb_spec r 0); [done|]. split; [now apply Hf|].
    apply (on_str_at _ _ _ (data l)); [apply Hf|]. now rewrite Hd.
Qed.

Lemma step_appendfrom s ps ds k j off len :
  rep s ps ds -> mop_ok (Appendfrom k j off len) -> wp (mstep i (Appendfrom k j off len) ps) (stepped (Appendfrom k j off len) s ds) s.
Proof.
  intros H Hok. cbn in Hok.
  apply (wp_on2 s ps ds k j); [done|intros E; exists ds; split; [done|now apply on_str2_none]|]. intros p q l l2 F Hkj Hf.
  pose proof (fo2_pkt _ _ _ _ _ _ _ _ _ _ Hf) as Hp. pose proof (fo2_pkt2 _ _ _ _ _ _ _ _ _ _ Hf) as Hq.
  apply wp_bind, (wp_appendfrom geo s p l q l2 off len F); [apply Hp|apply Hf|apply Hp|apply Hq|lia|lia|].
  intros s' l' rc H' Hs' Hn' (m & Hd & Hph & Hm & Hrc & Hv) Hip. apply wp_ret. exists (<[k := data l']> ds). split.
  - apply Hf; [done|]. apply (packet_bump p p l l' (Z.of_nat m)); auto; [rewrite Hd, length_app, length_take; lia|]. apply Hip, Hp.
  - apply (on_str2_at _ _ _ _ (data l) (data l2)); [done|apply Hf|apply Hf|]. exists m. rewrite Hd. cbn [fst snd].
    split; [done|]. split; [done|]. split; [done|]. tauto.
Qed.

(** Two packets become one. *)
Lemma joined s ps ds k j p q l l2 F s' l' :
  focus2 s ps ds k j p q l l2 F -> own s' (l' ++ F) -> seg p l' 0 -> l' <> [] -> data l' = data l ++ data l2 ->
  phead l' = bump (Z.of_nat (length (data l2))) (phead l) -> (forall i, in_pool i l -> in_pool i l2 -> in_pool i l') ->
  rep s' (delete j ps) (delete j (<[k := data l ++ data l2]> ds)).
Proof.
  intros Hf H' Hs' Hn' Hd Hph Hip. pose proof (fo2_pkt _ _ _ _ _ _ _ _ _ _ Hf) as Hp. rewrite <- Hd. apply Hf; [done|].
  apply (packet_bump p p l l' (Z.of_nat (length (data l2)))); auto; [rewrite Hd, length_app; lia|].
  apply Hip; [apply Hp|apply (fo2_pkt2 _ _ _ _ _ _ _ _ _ _ Hf)].
Qed.

Lemma step_concat s ps ds k j : rep s ps ds -> wp (mstep i (Concat k j) ps) (stepped (Concat k j) s ds) s.
Proof.
  intros H. apply (wp_on2 s ps ds k j); [done|intros E; exists ds; split; [done|now apply on_str2_none]|]. intros p q l l2 F Hkj Hf.
  pose proof (fo2_pkt _ _ _ _ _ _ _ _ _ _ Hf) as Hp. pose proof (fo2_pkt2 _ _ _ _ _ _ _ _ _ _ Hf) as Hq.
  apply wp_bind, (wp_concat geo s p l q l2 F); [apply Hp|apply Hq|apply Hf|apply Hp|apply Hq|apply Hq|].
  intros s' l' H' Hs' Hn' Hd Hph Hip. apply wp_ret. exists (delete j (<[k := data l ++ data l2]> ds)).
  split; [now apply (joined s ps ds k j p q l l2 F s' l')|]. now apply (on_str2_at _ _ _ _ (data l) (data l2)); [done|apply Hf|apply Hf|].
Qed.

Lemma step_pack s ps ds k j : rep s ps ds -> wp (mstep i (Pack k j) ps) (stepped (Pack k j) s ds) s.
Proof.
  intros H. apply (wp_on2 s ps ds k j); [done|intros E; exists ds; split; [done|now apply on_str2_none]|]. intros p q l l2 F Hkj Hf.
  pose proof (fo2_pkt _ _ _ _ _ _ _ _ _ _ Hf) as Hp. pose proof (fo2_pkt2 _ _ _ _ _ _ _ _ _ _ Hf) as Hq.
  apply wp_bind, (wp_pack_chains geo s p l q l2 F); [apply Hp|apply Hf|apply Hp|apply Hq|apply Hq|].
  intros s' l' H' Hs' Hn' Hd Hph Hip. apply wp_ret. exists (delete j (<[k := data l ++ data l2]> ds)).
  split; [now apply (joined s ps ds k j p q l l2 F s' l')|]. now apply (on_str2_at _ _ _ _ (data l) (data l2)); [done|apply Hf|apply Hf|].
Qed.

Lemma wp_pure {A} (c : M A) v s (Q : A -> mheap -> Prop) : c s = Ok (v, s) -> Q v s -> wp c Q s.
Proof. intros E HQ. exists v, s. auto. Qed.

Lemma step_copydata s ps ds k off len :
  rep s ps ds -> mop_ok (Copydata k off len) -> wp (mstep i (Copydata k off len) ps) (stepped (Copydata k off len) s ds) s.
Proof.
  intros H Hok. cbn in Hok. apply (wp_on s ps ds k); [done|intros E; exists ds; split; [done|now apply on_str_none]|]. intros p l F Hk Hf.
  apply wp_bind. eapply wp_pure; [apply (copydata_spec geo s p l F); [apply Hf|apply Hf|lia|lia]|].
  destruct (Mbuf.os_mbuf_copydata _ _ _) as [bs rc] eqn:E. apply wp_ret. exists ds. split; [done|].
  apply (on_str_at _ _ _ (data l)); [apply Hf|]. cbn [fst snd]. split; [done|]. intros Hlen.
  rewrite copydata_flat in E by lia. injection E as <- <-. done.
Qed.

Lemma step_cmpf s ps ds k off x :
  rep s ps ds -> mop_ok (Cmpf k off x) -> wp (mstep i (Cmpf k off x) ps) (stepped (Cmpf k off x) s ds) s.
Proof.
  intros H Hok. cbn in Hok. apply (wp_on s ps ds k); [done|intros E; exists ds; split; [done|now apply on_str_none]|]. intros p l F Hk Hf.
  apply wp_bind. eapply wp_pure; [apply (cmpf_result geo s p l F); [apply Hf|apply Hf|lia|lia]|].
  apply wp_ret. exists ds. split; [done|]. apply (on_str_at _ _ _ (data l)); [apply Hf|]. cbn [fst snd]. split; [done|].
  rewrite cmp_bytes_0; [|unfold slice; rewrite length_take; lia|lia]. split; [tauto|]. intros E. split; [now rewrite E|done].
Qed.

Lemma step_cmpm s ps ds k off1 j off2 len :
  rep s ps ds -> mop_ok (Cmpm k off1 j off2 len) ->
  wp (mstep i (Cmpm k off1 j off2 len) ps) (stepped (Cmpm k off1 j off2 len) s ds) s.
Proof.
  intros H Hok. cbn in Hok. apply (wp_on2 s ps ds k j); [done|intros E; exists ds; split; [done|now apply on_str2_none]|]. intros p q l l2 F Hkj Hf.
  apply wp_bind. eapply wp_pure; [apply (cmpm_result geo s p l q l2 F); [apply Hf|apply Hf|apply Hf|lia|lia|lia]|].
  apply wp_ret. exists ds. split; [done|]. apply (on_str2_at _ _ _ _ (data l) (data l2)); [done|apply Hf|apply Hf|]. cbn [fst snd]. split; [done|].
  rewrite cmp_bytes_0; [done|unfold slice; rewrite length_take; lia..].
Qed.

(** The copy of the host agrees with the one of the list model. *)
Lemma to_flat_spec s p l F h r max_len :
  own s (l ++ F) -> seg p l 0 -> phead l = Some (h, r) -> 0 <= max_len ->
  MbufEdit.ble_hs_mbuf_to_flat p max_len s = Ok (Mbuf.ble_hs_mbuf_to_flat (OmPkt h (map frag l)) max_len, s).
Proof.
  intros Ho Hs Hh Hmax. unfold MbufEdit.ble_hs_mbuf_to_flat, Mbuf.ble_hs_mbuf_to_flat. cbn [omp_len om_frags].
  assert (Ep : pktlen p s = Ok (h, s) /\ 0 <= h).
  { destruct l as [|[a b] l]; [done|]. destruct Hs as [-> _]. cbn [fst app phead] in *. split; [|now apply pkt_range in Hh].
    destruct (wp_pktlen geo s ((a, b) :: l ++ F) a b h r (fun v s' => v = h /\ s' = s)) as (v & s' & E & -> & ->); [done|left|done|done|]. exact E. }
  destruct Ep as [Ep Hh0]. unfold mbind at 1, M_bind at 1. rewrite Ep. unfold mbind, M_bind.
  rewrite (copydata_spec geo s p l F); [|done|done|lia|destruct (h <=? max_len); lia].
  destruct (Mbuf.os_mbuf_copydata _ _ _) as [bs rc]. now destruct (negb (rc =? 0)).
Qed.

Lemma step_to_flat s ps ds k max_len :
  rep s ps ds -> mop_ok (ToFlat k max_len) -> wp (mstep i (ToFlat k max_len) ps) (stepped (ToFlat k max_len) s ds) s.
Proof.
  intros H Hok. cbn in Hok. apply (wp_on s ps ds k); [done|intros E; exists ds; split; [done|now apply on_str_none]|]. intros p l F Hk Hf.
  destruct (fo_pkt _ _ _ _ _ _ _ Hf) as [Hs Hn Hsy [[h r] Hh] _].
  apply wp_bind. eapply wp_pure; [apply (to_flat_spec s p l F h r); [apply Hf|done|done|lia]|].
  destruct (Mbuf.ble_hs_mbuf_to_flat _ _) as [[bs rc] o] eqn:E. apply wp_ret. exists ds. split; [done|].
  apply (on_str_at _ _ _ (data l)); [apply Hf|]. cbn [fst snd]. split; [done|]. intros Hlen.
  unfold synced in Hsy. rewrite Hh, u16_small in Hsy by lia.
  rewrite to_flat_truncates in E; [|split; cbn [omp_len om_frags]; [exact Hsy|lia]|lia]. injection E as <- <- _. done.
Qed.

Lemma mstep_spec s ps ds op : rep s ps ds -> mop_ok op -> wp (mstep i op ps) (stepped op s ds) s.
Proof.
  intros H Hok. destruct op.
  - now apply step_new.
  - now apply step_free.
  - now apply step_append.
  - now apply step_appendfrom.
  - now apply step_extend.
  - now apply step_adj.
  - now apply step_trim.
  - now apply step_prepend.
  - now apply step_pullup.
  - now apply step_prepend_pullup.
  - now apply step_dup.
  - now apply step_concat.
  - now apply step_pack.
  - now apply step_copydata.
  - now apply step_cmpf.
  - now apply step_cmpm.
  - now apply step_to_flat.
Qed.

(** ** Programs *)
Lemma mrun_spec s ps ds ops :
  rep s ps ds -> Forall mop_ok ops ->
  wp (mrun i ops ps) (fun r s' => exists ds', rep s' r.1 ds' /\ spec_run n ops ds r.2 ds') s.
Proof.
  intros H Hok. revert s ps ds H. induction Hok as [|op ops Hop _ IH]; intros s ps ds H; cbn [mrun].
  - apply wp_ret. exists ds. done.
  - pose proof H as (ls & Ho & _). pose proof (own_nfree_size geo _ _ _ _ _ Ho Hi) as Hnf.
    apply wp_bind, (wp_mono _ _ _ _ (mstep_spec s ps ds op H Hop)). intros [[ps1 rc] bs] s1 (ds1 & H1 & Hs1). cbn [fst snd] in *.
    apply wp_bind, (wp_mono _ _ _ _ (IH s1 ps1 ds1 H1)). intros [ps2 os] s2 (ds2 & H2 & Hs2). cbn [fst snd] in *.
    apply wp_ret. exists ds2. split; [done|]. cbn [snd spec_run]. exists (nfree s i), ds1. split; [lia|auto].
Qed.
End Rep.
