(* ===== verification/MbufQueue.v ===== *)
(** * Queues of packets

    [os_mqueue_init], [os_mqueue_get] and [os_mqueue_put] of
    [porting/nimble/src/os_mbuf.c]: a tail queue that is linked through the packet
    headers. *)
From stdpp Require Import base tactics numbers list gmap.
From Stdlib Require Import ZArith Lia.
From S2P Require Import Prelude Mempool MbufHeap MbufLogic MbufChain.
Local Open Scope Z_scope.

(** ** The queue *)

(** [mq_head]. [stqh_last] points to the link behind the last element; here it is the
    address of the header that has this link, or 0 for the link in the queue itself. *)
Record os_mqueue := OsMqueue { stqh_first : Z; stqh_last : Z }.

Definition os_mqueue_init : os_mqueue := OsMqueue 0 0.

(** [omp_next] of the header at [mp]. *)
Definition omp_next (mp : Z) : M Z := bs ← mread (mp - MBUF_SIZE) (mp + 4) 4; mret (le_val bs).

Definition set_omp_next (mp v : Z) : M unit := mwrite (mp - MBUF_SIZE) (mp + 4) (le_bytes 4 v).

Definition os_mqueue_get (mq : os_mqueue) : M (os_mqueue * Z) :=
  let mp := stqh_first mq in
  if mp =? 0 then mret (mq, 0)
  else
    next ← omp_next mp;
    mret (OsMqueue next (if next =? 0 then 0 else stqh_last mq), mp - MBUF_SIZE).

(** The return code, and whether [mq_ev] is posted to the event queue, which the caller
    may leave out. *)
Definition os_mqueue_put (mq : os_mqueue) (evq : bool) (m : Z) : M (os_mqueue * Z * bool) :=
  b ← load m;
  if negb (OS_MBUF_IS_PKTHDR b) then mret (mq, OS_EINVAL, false)
  else
    let mp := m + MBUF_SIZE in
    set_omp_next mp 0;;
    first ← (if stqh_last mq =? 0 then mret mp
             else set_omp_next (stqh_last mq) mp;; mret (stqh_first mq));
    mret (OsMqueue first mp, 0, evq).

(** ** Programs and their contract *)
Inductive qop := QPut (evq : bool) (p : Z) | QGet.

Fixpoint qrun (ops : list qop) (mq : os_mqueue) : M (os_mqueue * list Z) :=
  match ops with
  | [] => mret (mq, [])
  | QPut evq p :: ops => '(mq, rc, _) ← os_mqueue_put mq evq p; '(mq, vs) ← qrun ops mq; mret (mq, rc :: vs)
  | QGet :: ops => '(mq, p) ← os_mqueue_get mq; '(mq, vs) ← qrun ops mq; mret (mq, p :: vs)
  end.

(** First in, first out; a packet must not be put into the queue twice. *)
Fixpoint fifo_run (ops : list qop) (q : list Z) : option (list Z * list Z) :=
  match ops with
  | [] => Some (q, [])
  | QPut _ p :: ops =>
      if decide (p ∈ q) then None else '(q, vs) ← fifo_run ops (q ++ [p]); Some (q, 0 :: vs)
  | QGet :: ops =>
      match q with
      | [] => '(q, vs) ← fifo_run ops []; Some (q, 0 :: vs)
      | p :: q => '(q, vs) ← fifo_run ops q; Some (q, p :: vs)
      end
  end.

(** ** The links *)
Definition hnext (b : os_mbuf) : Z := le_val (slice 4 4 (om_databuf b)).

Fixpoint qseg (L : list cell) (mp : Z) (q : list Z) : Prop :=
  match q with
  | [] => mp = 0
  | p :: q => mp = p + MBUF_SIZE /\ exists b, (p, b) ∈ L /\ OS_MBUF_IS_PKTHDR b = true /\ qseg L (hnext b) q
  end.

Record qrep (L : list cell) (mq : os_mqueue) (q : list Z) : Prop := QRep {
  qr_seg : qseg L (stqh_first mq) q;
  qr_last : stqh_last mq = match last q with Some p => p + MBUF_SIZE | None => 0 end;
  qr_nodup : NoDup q;
}.

(** Nothing but links differs. *)
Record only_links (L L' : list cell) : Prop := OnlyLinks {
  ol_addr : L'.*1 = L.*1;
  ol_frag : map frag L' = map frag L;
  ol_next : map (fun c => om_next c.2) L' = map (fun c => om_next c.2) L;
  ol_len : map (fun c => option_map fst (pkt c)) L' = map (fun c => option_map fst (pkt c)) L;
}.

Lemma only_links_refl L : only_links L L.
Proof. done. Qed.

Lemma only_links_trans L1 L2 L3 : only_links L1 L2 -> only_links L2 L3 -> only_links L1 L3.
Proof. intros [A1 A2 A3 A4] [B1 B2 B3 B4]. constructor; congruence. Qed.

(** ** The heap up to links *)

(** A block that may differ in the link of its header, bytes 4 to 7 of its data. *)
Definition relinked (b b' : os_mbuf) : Prop :=
  b' = b \/ OS_MBUF_IS_PKTHDR b = true /\ (8 <= length (om_databuf b))%nat /\
    exists v, b' = set_om_databuf (splice 4 (le_bytes 4 v) (om_databuf b)) b.

(** Every block, in use or free, and every pool is as it was, up to these links. *)
Record links_only (s s' : mheap) : Prop := LinksOnly {
  lk_pools : pools s' = pools s;
  lk_mem : forall a, option_Forall2 relinked (mem s !! a) (mem s' !! a);
}.

Lemma splice_splice n (xs ys l : list Z) :
  length xs = length ys -> (n + length xs <= length l)%nat -> splice n ys (splice n xs l) = splice n ys l.
Proof.
  intros E Hl. unfold splice. rewrite take_app_le by (rewrite length_take; lia).
  rewrite take_take, Nat.min_id. do 2 f_equal.
  rewrite drop_app_ge by (rewrite length_take; lia). rewrite length_take, Nat.min_l by lia.
  replace (n + length ys - n)%nat with (length xs) by lia. rewrite drop_app_length. now rewrite E.
Qed.

Lemma relinked_trans b1 b2 b3 : relinked b1 b2 -> relinked b2 b3 -> relinked b1 b3.
Proof.
  intros [-> |(Hp & Hl & v & ->)]; [done|]. intros [-> |(_ & _ & w & ->)]; right; (split; [done|]; split; [done|]); [eauto|].
  exists w. unfold set_om_databuf. cbn [om_data om_flags om_pkthdr_len om_len om_omp om_next om_databuf]. f_equal.
  apply splice_splice; rewrite !length_le_bytes; lia.
Qed.

Lemma links_only_refl s : links_only s s.
Proof. split; [done|]. intros a. destruct (mem s !! a); constructor. now left. Qed.

Lemma links_only_trans s1 s2 s3 : links_only s1 s2 -> links_only s2 s3 -> links_only s1 s3.
Proof.
  intros [P1 H1] [P2 H2]. split; [congruence|]. intros a. specialize (H1 a). specialize (H2 a).
  destruct H1 as [x y Hxy|]; inversion H2; subst; constructor. now apply (relinked_trans x y).
Qed.

Lemma links_only_set s a b v :
  mem s !! a = Some b -> OS_MBUF_IS_PKTHDR b = true -> (8 <= length (om_databuf b))%nat ->
  links_only s (MHeap (<[a := set_om_databuf (splice 4 (le_bytes 4 v) (om_databuf b)) b]> (mem s)) (pools s)).
Proof.
  intros Hb Hp Hl. split; [done|]. intros x. cbn [mem]. destruct (decide (x = a)) as [-> |Hx].
  - rewrite lookup_insert_eq, Hb. constructor. right. eauto.
  - rewrite lookup_insert_ne by done. destruct (mem s !! x); constructor. now left.
Qed.

Section Queue.
  Context {CF : MempoolConf} (geo : gmap Z (Z * list Z)).
  Local Abbreviation own := (own geo) (only parsing).

Lemma own_inj s L a b b' : own s L -> (a, b) ∈ L -> (a, b') ∈ L -> b = b'.
Proof. intros [_ [fl H]] H1 H2. apply (ow_mem _ _ _ _ H) in H1, H2. cbn in *. congruence. Qed.

Lemma qseg_mono L L' mp q :
  (forall p b, p ∈ q -> (p, b) ∈ L -> (p, b) ∈ L') -> qseg L mp q -> qseg L' mp q.
Proof.
  revert mp. induction q as [|p q IH]; intros mp H Hq; [done|]. destruct Hq as [-> (b & Hb & Hp & Hq)].
  split; [done|]. exists b. split; [apply H; [left|done]|]. split; [done|]. apply IH; [|done]. intros p' b' Hp' Hb'. apply H; [now right|done].
Qed.

(** A fact about the one outcome that a computation has. *)
Lemma wp_same {A} (m : M A) s (P : mheap -> Prop) Q :
  (exists v s', m s = Ok (v, s') /\ P s') -> wp m (fun v s' => P s' -> Q v s') s -> wp m Q s.
Proof. intros (v & s1 & E & HP) (v' & s2 & E' & HQ). rewrite E in E'. injection E' as <- <-. exists v, s1. auto. Qed.

Lemma set_omp_next_exact s L a b v :
  own s L -> (a, b) ∈ L -> OS_MBUF_IS_PKTHDR b = true ->
  exists u s', set_omp_next (a + MBUF_SIZE) v s = Ok (u, s') /\ links_only s s'.
Proof.
  intros H Hin Hp. pose proof (own_wf geo _ _ _ H Hin) as [(n & bl & _ & _ & _ & Hn & Hd) Hl Hh _]. cbn [fst snd] in *.
  pose proof (own_load geo s L a b H Hin) as El. pose proof Hp as Hp'. unfold OS_MBUF_IS_PKTHDR, PKTHDR_SIZE in Hp'. apply Z.leb_le in Hp'.
  assert (Em : mem s !! a = Some b) by (destruct H as [_ [fl H]]; exact (ow_mem _ _ _ _ H _ Hin)).
  eexists tt, _. split; [|apply (links_only_set s a b v Em Hp); lia].
  unfold set_omp_next, mwrite, mbind, M_bind. replace (a + MBUF_SIZE - MBUF_SIZE) with a by lia. rewrite El.
  replace (a + MBUF_SIZE + 4 - (a + MBUF_SIZE)) with 4 by lia. rewrite length_le_bytes.
  destruct (Z.leb_spec (4 + Z.of_nat 4) (Z.of_nat (length (om_databuf b)))); [|lia]. cbn [Z.leb Z.compare andb].
  unfold store. unfold load in El. destruct (get_block (mem s) a) as [x| |]; [|discriminate El..]. reflexivity.
Qed.

(** The link of one header is written. *)
Lemma wp_set_omp_next s L a b v Q :
  own s L -> (a, b) ∈ L -> OS_MBUF_IS_PKTHDR b = true -> 0 <= v < 2 ^ 32 ->
  (forall s' L' b', own s' L' -> links_only s s' -> only_links L L' -> (a, b') ∈ L' ->
     OS_MBUF_IS_PKTHDR b' = true -> hnext b' = v ->
     (forall p c, p <> a -> (p, c) ∈ L -> (p, c) ∈ L') -> Q tt s') ->
  wp (set_omp_next (a + MBUF_SIZE) v) Q s.
Proof.
  intros H Hin Hp Hv HQ. pose proof (set_omp_next_exact s L a b v H Hin Hp) as Hx.
  apply list_elem_of_split in Hin as (L1 & L2 & ->).
  pose proof (own_wf geo _ _ (a, b) H ltac:(incell)) as Hw. pose proof Hw as [(n & bl & _ & _ & _ & Hn & Hd) Hl Hh Hhl]. cbn [fst snd] in *.
  unfold OS_MBUF_IS_PKTHDR, PKTHDR_SIZE in Hp. apply Z.leb_le in Hp.
  apply (wp_same _ _ _ _ Hx). unfold set_omp_next. replace (a + MBUF_SIZE - MBUF_SIZE) with a by lia.
  apply (wp_mwrite geo s L1 L2 a b); [done|lia|rewrite length_le_bytes; lia|]. intros s' H' _ Hlk. unfold wr in H'.
  replace (a + MBUF_SIZE + 4 - (a + MBUF_SIZE)) with 4 in H' by lia. change (Z.to_nat 4) with 4%nat in H'.
  set (b' := set_om_databuf _ b) in *. assert (Hlb : length (le_bytes 4 v) = 4%nat) by apply length_le_bytes.
  apply (HQ s' (L1 ++ (a, b') :: L2) b'); [done|exact Hlk| |incell|now apply Z.leb_le| |].
  - constructor; rewrite ?fmap_app, ?map_app; f_equal; cbn [map fmap list_fmap]; f_equal.
    + unfold frag. change (doff (a, b')) with (doff (a, b)). cbn [snd b' set_om_databuf om_len om_databuf]. apply slice_splice_after; lia.
    + unfold pkt, OS_MBUF_IS_PKTHDR. cbn [snd b' set_om_databuf om_pkthdr_len om_databuf].
      destruct (PKTHDR_SIZE <=? om_pkthdr_len b); [|done]. cbn [option_map fst]. do 2 f_equal.
      pose proof (slice_splice_before 0 2 4 (le_bytes 4 v) (om_databuf b)) as E. unfold slice in E. rewrite !drop_0 in E. rewrite E by lia. done.
  - unfold hnext. cbn [b' set_om_databuf om_databuf].
    pose proof (slice_splice_same 4 (le_bytes 4 v) (om_databuf b)) as E. rewrite Hlb in E. rewrite E by lia.
    rewrite le_val_le_bytes. change (2 ^ (8 * Z.of_nat 4)) with (2 ^ 32). apply Z.mod_small. lia.
  - intros p c Hpa Hc. rewrite elem_of_app, elem_of_cons in *. destruct Hc as [Hc|[[= -> ->]|Hc]]; [auto|done|auto].
Qed.

Lemma wp_omp_next s L a b Q :
  own s L -> (a, b) ∈ L -> OS_MBUF_IS_PKTHDR b = true -> Q (hnext b) s -> wp (omp_next (a + MBUF_SIZE)) Q s.
Proof.
  intros H Hin Hp HQ. pose proof (own_wf geo _ _ _ H Hin) as [(n & bl & _ & _ & _ & Hn & Hd) Hl Hh _]. cbn [fst snd] in *.
  unfold OS_MBUF_IS_PKTHDR, PKTHDR_SIZE in Hp. apply Z.leb_le in Hp. unfold omp_next. replace (a + MBUF_SIZE - MBUF_SIZE) with a by lia.
  apply wp_bind, (wp_mread geo s L a b); [done|done|lia..|]. apply wp_ret.
  replace (a + MBUF_SIZE + 4 - (a + MBUF_SIZE)) with 4 by lia. exact HQ.
Qed.

(** A packet is linked behind the last one. *)
Lemma qseg_snoc L L' mp q t bt p bp :
  qseg L mp (q ++ [t]) -> (forall x b, x ∈ q -> (x, b) ∈ L -> (x, b) ∈ L') ->
  (t, bt) ∈ L' -> OS_MBUF_IS_PKTHDR bt = true -> hnext bt = p + MBUF_SIZE ->
  (p, bp) ∈ L' -> OS_MBUF_IS_PKTHDR bp = true -> hnext bp = 0 -> qseg L' mp ((q ++ [t]) ++ [p]).
Proof.
  intros Hq Hm Ht Htp Htn Hp Hpp Hpn. revert mp Hq Hm. induction q as [|x q IH]; intros mp Hq Hm; cbn [app qseg] in *.
  - destruct Hq as [-> _]. split; [done|]. exists bt. split; [done|]. split; [done|]. rewrite Htn. split; [done|]. exists bp. auto.
  - destruct Hq as [-> (b & Hb & Hbp & Hq)]. split; [done|]. exists b. split; [apply Hm; [left|done]|]. split; [done|].
    apply IH; [done|]. intros y c Hy. apply Hm. now right.
Qed.

Lemma qseg_elem L mp q p : qseg L mp q -> p ∈ q -> exists b, (p, b) ∈ L /\ OS_MBUF_IS_PKTHDR b = true.
Proof.
  revert mp. induction q as [|x q IH]; intros mp Hq Hp; [now apply not_elem_of_nil in Hp|].
  destruct Hq as [_ (b & Hb & Hbp & Hq)]. apply elem_of_cons in Hp as [-> |Hp]; [eauto|]. now apply (IH (hnext b)).
Qed.

Lemma wp_qput s L mq q evq p b Q :
  own s L -> Forall (fun c => c.1 + MBUF_SIZE < 2 ^ 32) L -> qrep L mq q -> (p, b) ∈ L -> OS_MBUF_IS_PKTHDR b = true -> p ∉ q ->
  (forall s' L' mq', own s' L' -> links_only s s' -> only_links L L' -> qrep L' mq' (q ++ [p]) -> Q (mq', 0, evq) s') ->
  wp (os_mqueue_put mq evq p) Q s.
Proof.
  intros H Hsm [Hseg Hlast Hnd] Hin Hp Hnq HQ. apply wp_bind, (wp_load geo s L p b); [done..|]. rewrite Hp. cbn [negb]. cbv zeta.
  assert (Hb : forall x c, (x, c) ∈ L -> 0 <= x + MBUF_SIZE < 2 ^ 32).
  { intros x c Hx. pose proof (own_pos geo _ _ _ H Hx). rewrite Forall_forall in Hsm. specialize (Hsm _ Hx). cbn in *. unfold MBUF_SIZE in *. lia. }
  apply wp_bind, (wp_set_omp_next s L p b 0); [done..|]. intros s1 L1 b1 H1 Hk Ho1 Hin1 Hp1 Hn1 Hk1.
  assert (Hnd' : NoDup (q ++ [p])).
  { apply NoDup_app. split; [done|]. split; [|apply NoDup_singleton]. intros x Hx [= ->]%list_elem_of_singleton. done. }
  assert (Hseg1 : qseg L1 (stqh_first mq) q).
  { apply (qseg_mono L); [|done]. intros x c Hx Hc. apply Hk1; [|done]. now intros ->. }
  destruct (decide (q = [])) as [-> |Hne].
  - cbn in Hlast. rewrite Hlast. cbn [Z.eqb]. apply wp_bind, wp_ret, wp_ret, (HQ s1 L1); [done..|]. constructor; [|done|done].
    cbn. split; [done|]. eauto.
  - destruct (exists_last Hne) as (q0 & t & ->). rewrite last_snoc in Hlast.
    destruct (qseg_elem _ _ _ t Hseg1) as (bt & Hbt & Hbtp); [rewrite elem_of_app, list_elem_of_singleton; auto|].
    destruct (qseg_elem _ _ _ t Hseg) as (bt0 & Hbt0 & _); [rewrite elem_of_app, list_elem_of_singleton; auto|].
    pose proof (own_pos geo _ _ _ H Hbt0) as Hpos. cbn [fst] in Hpos. unfold MBUF_SIZE in Hlast.
    destruct (Z.eqb_spec (stqh_last mq) 0); [lia|]. rewrite Hlast. change (t + 16) with (t + MBUF_SIZE).
    apply wp_bind, wp_bind, (wp_set_omp_next s1 L1 t bt (p + MBUF_SIZE)); [done..|now apply (Hb p b)|].
    intros s2 L2 b2 H2 Hk' Ho2 Hin2 Hp2 Hn2 Hk2. apply wp_ret, wp_ret.
    apply (HQ s2 L2); [done|now apply (links_only_trans s s1)|now apply (only_links_trans L L1)|].
    assert (Htp : p <> t) by (intros ->; apply Hnq; rewrite elem_of_app, list_elem_of_singleton; auto).
    constructor; [|cbn; now rewrite last_snoc|done]. cbn [stqh_first].
    apply (qseg_snoc L1 L2 _ q0 t b2 p b1); auto. intros x c Hx Hc. apply Hk2; [|done]. intros ->.
    apply NoDup_app in Hnd as (_ & Hnd & _). apply (Hnd t Hx). now apply list_elem_of_singleton.
Qed.

Lemma wp_qget s L mq q Q :
  own s L -> qrep L mq q ->
  (forall mq', qrep L mq' (tail q) -> Q (mq', default 0 (head q)) s) -> wp (os_mqueue_get mq) Q s.
Proof.
  intros H [Hseg Hlast Hnd] HQ. unfold os_mqueue_get. destruct q as [|p q]; cbn [qseg] in Hseg.
  - rewrite Hseg. cbn [Z.eqb]. apply wp_ret, HQ. now constructor.
  - destruct Hseg as [E (b & Hb & Hp & Hseg)]. pose proof (own_pos geo _ _ _ H Hb) as Hpos. cbn [fst] in Hpos. rewrite E.
    destruct (Z.eqb_spec (p + MBUF_SIZE) 0); [unfold MBUF_SIZE in *; lia|]. apply wp_bind, (wp_omp_next s L p b); [done..|]. apply wp_ret.
    replace (p + MBUF_SIZE - MBUF_SIZE) with p by lia. apply HQ. apply NoDup_cons in Hnd as [_ Hnd]. cbn [tail].
    constructor; [done| |done]. cbn [stqh_last]. rewrite Hlast. destruct q as [|p2 q].
    + cbn in Hseg. now rewrite Hseg.
    + destruct Hseg as [E2 (b2 & Hb2 & _)]. pose proof (own_pos geo _ _ _ H Hb2) as Hpos2. cbn [fst] in Hpos2. rewrite E2.
      destruct (Z.eqb_spec (p2 + MBUF_SIZE) 0); [unfold MBUF_SIZE in *; lia|]. done.
Qed.

(** Packets in the heap stay packets. *)
Lemma only_links_packet L L' p b :
  only_links L L' -> (p, b) ∈ L -> OS_MBUF_IS_PKTHDR b = true -> exists b', (p, b') ∈ L' /\ OS_MBUF_IS_PKTHDR b' = true.
Proof.
  intros [Ha _ _ Hl] Hin Hp. apply list_elem_of_lookup in Hin as [j Hj].
  pose proof (f_equal (fun l => l !! j) Ha) as E1. pose proof (f_equal (fun l => l !! j) Hl) as E2. cbn in E1, E2.
  rewrite !list_lookup_fmap, Hj in E1. change (map ?f ?l) with (f <$> l) in E2. rewrite !list_lookup_fmap, Hj in E2.
  destruct (L' !! j) as [[p' b']|] eqn:Ej; [|done]. cbn in E1, E2. injection E1 as ->. exists b'. split; [now apply list_elem_of_lookup_2 in Ej|].
  unfold pkt in E2. cbn [snd] in E2. rewrite Hp in E2. now destruct (OS_MBUF_IS_PKTHDR b').
Qed.

Lemma only_links_small L L' :
  only_links L L' -> Forall (fun c => c.1 + MBUF_SIZE < 2 ^ 32) L -> Forall (fun c => c.1 + MBUF_SIZE < 2 ^ 32) L'.
Proof.
  intros [Ha _ _ _] H. rewrite Forall_forall in *. intros c Hc. apply (list_elem_of_fmap_2 fst) in Hc. rewrite Ha in Hc.
  apply list_elem_of_fmap in Hc as (c' & -> & Hc'). now apply H.
Qed.

Lemma qrun_spec ops s L mq q q' vs :
  own s L -> Forall (fun c => c.1 + MBUF_SIZE < 2 ^ 32) L -> qrep L mq q ->
  (forall evq p, QPut evq p ∈ ops -> exists b, (p, b) ∈ L /\ OS_MBUF_IS_PKTHDR b = true) ->
  fifo_run ops q = Some (q', vs) ->
  exists mq' s' L', qrun ops mq s = Ok ((mq', vs), s') /\ links_only s s' /\ own s' L' /\ only_links L L' /\ qrep L' mq' q'.
Proof.
  revert s L mq q vs. induction ops as [|op ops IH]; intros s L mq q vs H Hsm Hq Hops Hrun; cbn [fifo_run qrun] in *.
  { injection Hrun as <- <-. exists mq, s, L. split; [done|]. split; [apply links_only_refl|]. split; [done|]. split; [apply only_links_refl|done]. }
  destruct op as [evq p|].
  - destruct (decide (p ∈ q)); [done|]. destruct (fifo_run ops (q ++ [p])) as [[q1 vs1]|] eqn:E; [|done]. cbn in Hrun. injection Hrun as <- <-.
    destruct (Hops evq p) as (b & Hb & Hp); [left|].
    assert (Hput : wp (os_mqueue_put mq evq p) (fun r s1 => exists L1, own s1 L1 /\ links_only s s1 /\ only_links L L1 /\ qrep L1 r.1.1 (q ++ [p]) /\ r.1.2 = 0) s).
    { apply (wp_qput s L mq q evq p b); [done..|]. intros s1 L1 mq1 H1 Hk1 Ho1 Hq1. exists L1. auto. }
    destruct Hput as ([[mq1 rc] ev] & s1 & E1 & L1 & H1 & Hk1 & Ho1 & Hq1 & Hrc). cbn [fst snd] in *. subst rc.
    destruct (IH s1 L1 mq1 (q ++ [p]) vs1) as (mq2 & s2 & L2 & E2 & Hk2 & H2 & Ho2 & Hq2); [done|now apply (only_links_small L)|done| |done|].
    { intros ev' p' Hp'. destruct (Hops ev' p') as (b' & Hb' & Hpk); [now right|]. now apply (only_links_packet L L1 p' b'). }
    exists mq2, s2, L2. split; [|split; [now apply (links_only_trans s s1)|split; [done|split; [now apply (only_links_trans L L1)|done]]]].
    unfold mbind, M_bind. rewrite E1, E2. done.
  - assert (Hget : wp (os_mqueue_get mq) (fun r s1 => s1 = s /\ qrep L r.1 (tail q) /\ r.2 = default 0 (head q)) s).
    { apply (wp_qget s L mq q); [done..|]. auto. }
    destruct Hget as ([mq1 v] & s1 & E1 & -> & Hq1 & Hv). cbn [fst snd] in *.
    assert (Hr : exists vs1, fifo_run ops (tail q) = Some (q', vs1) /\ vs = v :: vs1).
    { rewrite Hv. destruct q as [|p q]; cbn [tail head default] in *.
      - destruct (fifo_run ops []) as [[q1 vs1]|]; [|done]. cbn in Hrun. injection Hrun as <- <-. eauto.
      - destruct (fifo_run ops q) as [[q1 vs1]|]; [|done]. cbn in Hrun. injection Hrun as <- <-. eauto. }
    destruct Hr as (vs1 & Hr & ->).
    destruct (IH s L mq1 (tail q) vs1) as (mq2 & s2 & L2 & E2 & Hk2 & H2 & Ho2 & Hq2); [done..| |done|].
    { intros ev' p' Hp'. apply (Hops ev' p'). now right. }
    exists mq2, s2, L2. split; [|auto]. unfold mbind, M_bind. rewrite E1, E2. done.
Qed.
End Queue.
