(* ===== verification/MbufProps.v ===== *)
(** * Correctness of the chained buffers

    The properties of [porting/nimble/src/os_mbuf.c] for a client: the refinement of
    strings from the initialisation of the pool on, and what [os_mbuf_copyinto] and
    [os_mbuf_widen], which do not keep the contract, do instead. *)
From stdpp Require Import base tactics numbers list gmap.
From Stdlib Require Import ZArith Lia.
From S2P Require Import Prelude Mempool Mbuf MbufHeap MbufEdit MbufLogic MbufChain MbufAppend MbufDup MbufTrim MbufRead MbufInto MbufWiden MbufPacket MbufQueue.
Local Open Scope Z_scope.

(** ** A pool of buffers *)

(** The pool is initialised as [os_mempool_init] and [os_mbuf_pool_init] do it, in a
    memory of blocks of [block_size] bytes; [i] names the memory pool and the pool of
    buffers on it. *)
Definition mbuf_setup (m : gmap Z os_mbuf) (mp : os_mempool) (i blocks block_size membuf : Z) : res mheap :=
  '(_, m, mp, rc) ← os_mempool_init (os_mempool_module_init no_list) m i mp blocks block_size membuf [];
  if rc =? OS_OK then Ok (MHeap m {[i := os_mbuf_pool_init mp block_size]}) else Crash AssertFail.

Record setup_ok (m : gmap Z os_mbuf) (i blocks block_size membuf : Z) : Prop := SetupOk {
  su_pool : 0 < i;
  su_size : MBUF_SIZE <= block_size < 2 ^ 16;
  su_num : 0 < blocks < 2 ^ 16;
  su_addr : 0 < membuf;
  su_align : membuf mod 4 = 0;
  su_end : membuf + blocks * OS_MEM_TRUE_BLOCK_SIZE block_size < 2 ^ 32;
  su_mem : forall a, a ∈ block_addrs (Z.to_nat blocks) (OS_MEM_TRUE_BLOCK_SIZE block_size) membuf -> is_Some (m !! a);
  su_buf : forall a b, m !! a = Some b -> Z.of_nat (length (om_databuf b)) = block_size - MBUF_SIZE;
}.

Section Setup.
  Context {CF : MempoolConf}.

Definition setup_geo (i blocks block_size membuf : Z) : gmap Z (Z * list Z) :=
  {[i := (block_size - MBUF_SIZE, block_addrs (Z.to_nat blocks) (OS_MEM_TRUE_BLOCK_SIZE block_size) membuf)]}.

Lemma own_setup m mp0 i blocks block_size membuf :
  setup_ok m i blocks block_size membuf ->
  exists s, mbuf_setup m mp0 i blocks block_size membuf = Ok s /\ own (setup_geo i blocks block_size membuf) s [].
Proof.
  intros [Hi Hs Hn Ha Hal He Hm Hb]. unfold MBUF_SIZE in Hs.
  destruct (mempool_init_spec _ [] m i mp0 blocks block_size membuf [] (list_rep_nil no_list)) as (g' & m' & mp & E & _ & Hr & En & Es & Ea & Hcb);
    [lia|apply not_elem_of_nil|lia|lia|done..|lia|].
  pose proof (mempool_init_keeps (fun b => Z.of_nat (length (om_databuf b)) = block_size - MBUF_SIZE) _ _ _ _ _ _ _ _ _ _ _ _ (fun v b Hx => Hx) E Hb) as Hb'.
  set (all := block_addrs (Z.to_nat blocks) (OS_MEM_TRUE_BLOCK_SIZE block_size) membuf) in *.
  assert (Eall : pool_blocks mp = all) by (unfold pool_blocks; now rewrite En, Es, Ea).
  unfold mbuf_setup. rewrite E. cbn [mbind res_bind Z.eqb OS_OK]. eexists. split; [done|].
  assert (Hgeo : forall j x bl, setup_geo i blocks block_size membuf !! j = Some (x, bl) -> j = i /\ x = block_size - MBUF_SIZE /\ bl = all).
  { intros j x bl. unfold setup_geo. rewrite lookup_singleton_Some. fold all. intros [<- [= <- <-]]. done. }
  split.
  - split; [intros j x bl (-> & -> & ->)%Hgeo; unfold MBUF_SIZE; lia|].
    intros j1 j2 x1 b1 x2 b2 a (-> & _)%Hgeo (-> & _)%Hgeo. done.
  - exists (fun _ => all). constructor; cbn [pools mem].
    + constructor.
    + intros c []%not_elem_of_nil.
    + intros c []%not_elem_of_nil.
    + intros j [p Hp]. apply lookup_singleton_Some in Hp as [<- _]. unfold setup_geo. rewrite lookup_singleton_eq. eauto.
    + intros j x bl (-> & -> & ->)%Hgeo. eexists. rewrite lookup_singleton_eq. split; [done|]. split.
      { cbn. apply u16_small. unfold MBUF_SIZE. lia. }
      split; [done|]. split; [done|]. cbn [mem omp_pool os_mbuf_pool_init]. split; [now rewrite <- Eall|].
      apply Forall_forall. intros a Hin. pose proof (flist_mapped _ _ _ (pr_list _ _ _ Hr)) as Hmap. rewrite Eall, Forall_forall in Hmap.
      destruct (Hmap a Hin) as [b Eb]. exists b. split; [done|]. now apply (Hb' a).
    + intros j x bl a (-> & -> & ->)%Hgeo Hin. split; [intros _; apply not_elem_of_nil|done].
Qed.

(** What the client sees of its packets. *)
Lemma rep_reads geo i s ps ds k p d :
  rep geo i s ps ds -> ps !! k = Some p -> ds !! k = Some d ->
  pktlen p s = Ok (u16 (Z.of_nat (length d)), s) /\ os_mbuf_len p s = Ok (u16 (Z.of_nat (length d)), s) /\
  (d <> [] -> os_mbuf_copydata p 0 (Z.of_nat (length d)) s = Ok ((d, 0), s)).
Proof.
  intros H Hk Hd. destruct (rep_focus geo i s ps ds k p H Hk) as (l & F & Hf). rewrite (fo_data _ _ _ _ _ _ _ _ _ Hf) in Hd.
  injection Hd as <-. pose proof (fo_own _ _ _ _ _ _ _ _ _ Hf) as Ho. destruct (fo_pkt _ _ _ _ _ _ _ _ _ Hf) as [Hs Hn Hsy [[h r] Hh] _].
  split; [|split; [exact (mbuf_len_spec geo s p l F Ho Hs)|]].
  - unfold synced in Hsy. rewrite Hh in Hsy. destruct l as [|[a b] l]; [done|]. destruct Hs as [-> _]. cbn [fst app phead] in *.
    destruct (wp_pktlen geo s ((a, b) :: l ++ F) a b h r (fun v s' => v = h /\ s' = s)) as (v & s' & E & -> & ->); [done|left|done|done|].
    now rewrite E, <- Hsy.
  - intros Hne. assert (0 < Z.of_nat (length (data l))) by (destruct (data l); [done|cbn; lia]).
    rewrite (copydata_spec geo s p l F) by (done || lia). rewrite copydata_flat by lia. unfold slice.
    change (Z.to_nat 0) with 0%nat. fold (data l). rewrite drop_0, Nat2Z.id, firstn_all, Z.add_0_l, Z.leb_refl. done.
Qed.

(** The client frees its packets. *)
Lemma free_all geo i n bl s ps ds :
  geo !! i = Some (n, bl) -> rep geo i s ps ds ->
  exists os s', mrun i (replicate (length ps) (Free 0)) ps s = Ok (([], os), s') /\ nfree s' i = Z.of_nat (length bl).
Proof.
  intros Hi. revert s ds. induction ps as [|p ps IH]; intros s ds H; cbn [length replicate mrun].
  - exists [], s. split; [done|]. destruct H as (ls & H & Hps & _). inversion Hps. subst ls.
    pose proof (own_count geo s [] i n bl H Hi) as E. cbn in E. lia.
  - destruct (mstep_spec geo i n bl Hi s (p :: ps) ds (Free 0) H I) as ([[ps1 rc] bs] & s1 & E1 & ds1 & H1 & Hs1). cbn [fst snd] in *.
    assert (ps1 = ps) as ->.
    { unfold mstep, on in E1. cbn [lookup list_lookup] in E1. unfold mbind, M_bind in E1. destruct (os_mbuf_free_chain p s) as [[v s2]| |]; [|done..].
      cbn in E1. injection E1 as E1 _ _ _. now rewrite <- E1. }
    destruct (IH s1 ds1 H1) as (os & s2 & E2 & Hn). exists ((rc, bs) :: os), s2. split; [|done].
    unfold mbind at 1, M_bind at 1. rewrite E1. unfold mbind, M_bind. rewrite E2. done.
Qed.
End Setup.

(** A decision procedure for the assumption on the memory. *)
Definition setup_okb (m : gmap Z os_mbuf) (i blocks block_size membuf : Z) : bool :=
  (0 <? i) && (MBUF_SIZE <=? block_size) && (block_size <? 2 ^ 16) && (0 <? blocks) && (blocks <? 2 ^ 16) &&
  (0 <? membuf) && (membuf mod 4 =? 0) && (membuf + blocks * OS_MEM_TRUE_BLOCK_SIZE block_size <? 2 ^ 32) &&
  forallb (fun a => bool_decide (is_Some (m !! a))) (block_addrs (Z.to_nat blocks) (OS_MEM_TRUE_BLOCK_SIZE block_size) membuf) &&
  forallb (fun ab => Z.of_nat (length (om_databuf ab.2)) =? block_size - MBUF_SIZE) (map_to_list m).

Lemma setup_okb_ok m i blocks block_size membuf :
  setup_okb m i blocks block_size membuf = true -> setup_ok m i blocks block_size membuf.
Proof.
  unfold setup_okb. rewrite !andb_true_iff, !forallb_forall. intros (((((((((H1 & H2) & H3) & H4) & H5) & H6) & H7) & H8) & H9) & H10).
  constructor; try lia.
  - intros a Ha. apply list_elem_of_In, H9 in Ha. now apply bool_decide_eq_true in Ha.
  - intros a b Hab. apply elem_of_map_to_list, list_elem_of_In, H10 in Hab. cbn in Hab. lia.
Qed.

(** C4 — The chained buffers refine strings of bytes. In a pool that was set up by
    [os_mempool_init] and [os_mbuf_pool_init], every program of calls of
    [os_mbuf_get_pkthdr], [os_mbuf_append], [os_mbuf_appendfrom], [os_mbuf_extend],
    [os_mbuf_adj], [os_mbuf_trim_front], [os_mbuf_prepend], [os_mbuf_pullup],
    [os_mbuf_prepend_pullup], [os_mbuf_dup], [os_mbuf_concat], [os_mbuf_pack_chains],
    [os_mbuf_copydata], [os_mbuf_cmpf], [os_mbuf_cmpm], [ble_hs_mbuf_to_flat] and
    [os_mbuf_free_chain] on the
    packets that it holds returns, without a fault, and with every failure and every
    result that the contract [spec] on strings allows. Afterwards the length in the
    header of each packet, the sum of the lengths of its buffers and its data are those
    of its string, and freeing the packets makes every block of the pool free again. *)
Theorem packets_refine `{CF : MempoolConf} m mp0 i blocks block_size membuf ops :
  setup_ok m i blocks block_size membuf -> Forall mop_ok ops ->
  exists s0 ps os s1 ds,
    mbuf_setup m mp0 i blocks block_size membuf = Ok s0 /\ mrun i ops [] s0 = Ok ((ps, os), s1) /\
    spec_run (block_size - MBUF_SIZE) ops [] os ds /\ length ps = length ds /\
    (forall k p d, ps !! k = Some p -> ds !! k = Some d ->
       pktlen p s1 = Ok (u16 (Z.of_nat (length d)), s1) /\ os_mbuf_len p s1 = Ok (u16 (Z.of_nat (length d)), s1) /\
       (d <> [] -> os_mbuf_copydata p 0 (Z.of_nat (length d)) s1 = Ok ((d, 0), s1))) /\
    exists os' s2, mrun i (replicate (length ps) (Free 0)) ps s1 = Ok (([], os'), s2) /\ nfree s2 i = blocks.
Proof.
  intros Hs Hok. destruct (own_setup m mp0 i blocks block_size membuf Hs) as (s0 & E0 & H0).
  set (geo := setup_geo i blocks block_size membuf) in *. set (all := block_addrs (Z.to_nat blocks) (OS_MEM_TRUE_BLOCK_SIZE block_size) membuf).
  assert (Hi : geo !! i = Some (block_size - MBUF_SIZE, all)) by apply lookup_singleton_eq.
  assert (Hr : rep geo i s0 [] []) by (exists []; split; [done|]; split; [constructor|done]).
  destruct (mrun_spec geo i _ _ Hi s0 [] [] ops Hr Hok) as ([ps os] & s1 & E1 & ds & H1 & Hspec). cbn [fst snd] in *.
  exists s0, ps, os, s1, ds. split; [done|]. split; [done|]. split; [done|]. split.
  { destruct H1 as (ls & _ & Hps & ->). rewrite length_fmap. now apply Forall2_length in Hps. }
  split; [intros k p d; now apply (rep_reads geo i)|].
  destruct (free_all geo i _ _ s1 ps ds Hi H1) as (os' & s2 & E2 & Hn). exists os', s2. split; [done|].
  rewrite Hn. unfold all. rewrite length_block_addrs. pose proof (su_num _ _ _ _ _ Hs). lia.
Qed.

Definition demo_conf : MempoolConf := {| OS_MEMPOOL_CHECK := true; put_cb := fun _ m mp _ => Ok (m, mp, 0) |}.

Definition demo_mem (blocks : nat) (block_size : Z) : gmap Z os_mbuf :=
  list_to_map (map (fun a => (a, OsMbuf 0 0 0 0 0 0 (replicate (Z.to_nat (block_size - MBUF_SIZE)) 0xee))) (block_addrs blocks block_size 0x1000)).

Definition demo_ops : list mop :=
  [New 4; Append 0 (seqZ 1 30); Dup 0; Prepend 0 10; Pullup 0 12; Adj 1 (-5); Cmpm 1 0 0 10 25; Concat 1 0; Copydata 0 20 20].

Lemma packets_refine_witness :
  exists s0 ps os s1 ds,
    mbuf_setup (demo_mem 8 40) no_pool 1 8 40 0x1000 = Ok s0 /\ mrun (CF := demo_conf) 1 demo_ops [] s0 = Ok ((ps, os), s1) /\
    spec_run 24 demo_ops [] os ds /\ length ps = length ds.
Proof.
  destruct (packets_refine (CF := demo_conf) (demo_mem 8 40) no_pool 1 8 40 0x1000 demo_ops)
    as (s0 & ps & os & s1 & ds & E0 & E1 & Hs & Hl & _).
  - apply setup_okb_ok. vm_compute. reflexivity.
  - repeat (constructor; [vm_compute; intuition discriminate|]). constructor.
  - exists s0, ps, os, s1, ds. auto.
Defined.

(** ** Writing into a packet *)
Lemma data_reads `{CF : MempoolConf} geo s p l F :
  own geo s (l ++ F) -> seg p l 0 -> Z.of_nat (length (data l)) < 2 ^ 16 ->
  os_mbuf_len p s = Ok (Z.of_nat (length (data l)), s) /\
  (data l <> [] -> os_mbuf_copydata p 0 (Z.of_nat (length (data l))) s = Ok ((data l, 0), s)).
Proof.
  intros Ho Hs Hlen. split; [rewrite (mbuf_len_spec geo s p l F Ho Hs), u16_small by lia; done|].
  intros Hne. assert (0 < Z.of_nat (length (data l))) by (destruct (data l); [done|cbn; lia]).
  rewrite (copydata_spec geo s p l F) by (done || lia). rewrite copydata_flat by lia. unfold slice.
  change (Z.to_nat 0) with 0%nat. fold (data l). rewrite drop_0, Nat2Z.id, firstn_all, Z.add_0_l, Z.leb_refl. done.
Qed.

Lemma pktlen_reads `{CF : MempoolConf} geo s p l F h r :
  own geo s (l ++ F) -> seg p l 0 -> phead l = Some (h, r) -> pktlen p s = Ok (h, s).
Proof.
  intros Ho Hs Hh. destruct l as [|[a b] l]; [done|]. destruct Hs as [-> _]. cbn [fst app phead] in *.
  destruct (wp_pktlen geo s ((a, b) :: l ++ F) a b h r (fun v s' => v = h /\ s' = s)) as (v & s' & E & -> & ->); [done|left|done|done|].
  exact E.
Qed.

(** What a packet reads as: its data and the length in its header. *)
Definition reads (p : Z) (d : list Z) (h : Z) (s : mheap) : Prop :=
  os_mbuf_len p s = Ok (Z.of_nat (length d), s) /\
  (d <> [] -> os_mbuf_copydata p 0 (Z.of_nat (length d)) s = Ok ((d, 0), s)) /\
  pktlen p s = Ok (h, s).

Lemma reads_intro `{CF : MempoolConf} geo s p l F d h r :
  own geo s (l ++ F) -> seg p l 0 -> data l = d -> Z.of_nat (length d) < 2 ^ 16 -> phead l = Some (h, r) -> reads p d h s.
Proof.
  intros Ho Hs <- Hl Hh. destruct (data_reads geo s p l F Ho Hs Hl). split; [done|]. split; [done|].
  now apply (pktlen_reads geo s p l F h r).
Qed.

(** What [os_mbuf_copyinto] leaves in the header of a packet with the buffers [l] and
    [old] bytes when [k] bytes were appended. *)
Definition into_len (l : list (Z * os_mbuf)) (off old k rc : Z) : Z :=
  match l with [_] => old + k | _ => if rc =? 0 then Z.max old (off + k) else old end.

Lemma into_head_len l off old new k rc r :
  phead l = Some (old, r) -> 0 <= off <= old -> 0 <= old -> 0 <= k -> old + k <= new -> new < 2 ^ 16 ->
  (rc = 0 -> k = new - old) -> into_head l off (new - old) k rc = Some (into_len l off old k rc, r).
Proof.
  intros Hh Ho Hold Hk Hle Hnew Hrc. unfold into_head, into_len. destruct l as [|c [|c2 l]]; [done|..].
  - rewrite Hh. cbn [bump]. rewrite (u16_small (old + k)) by lia. destruct (Z.eqb_spec rc 0) as [E|E]; [|done].
    specialize (Hrc E). rewrite u16_small by lia. do 2 f_equal. lia.
  - rewrite Hh. destruct (Z.eqb_spec rc 0) as [E|E]; [|done]. specialize (Hrc E). rewrite u16_small by lia. do 2 f_equal. lia.
Qed.


(** A packet of two buffers, with 16 and 4 bytes, and an empty packet, in a pool of eight
    blocks. *)
Definition demo_geo : gmap Z (Z * list Z) := setup_geo 1 8 40 0x1000.

Definition demo_prog : list mop := [New 0; Append 0 (seqZ 1 20); New 0].

Definition demo_heap : res (list Z * mheap) :=
  s ← mbuf_setup (demo_mem 8 40) no_pool 1 8 40 0x1000;
  '((ps, _), s) ← mrun (CF := demo_conf) 1 demo_prog [] s;
  Ok (ps, s).

Lemma demo_rep : exists s, demo_heap = Ok ([0x1050; 0x1000], s) /\ rep demo_geo 1 s [0x1050; 0x1000] [[]; seqZ 1 20].
Proof.
  destruct (own_setup (demo_mem 8 40) no_pool 1 8 40 0x1000) as (s0 & E0 & H0).
  { apply setup_okb_ok. vm_compute. reflexivity. }
  assert (Hr : rep demo_geo 1 s0 [] []) by (exists []; split; [done|]; split; [constructor|done]).
  destruct (mrun_spec (CF := demo_conf) demo_geo 1 _ _ (lookup_singleton_eq _ _) s0 [] [] demo_prog Hr)
    as ([ps os] & s1 & E1 & ds & H1 & Hs).
  { repeat (constructor; [vm_compute; intuition discriminate|]). constructor. }
  cbn [fst snd] in *. assert (Ed : demo_heap = Ok (ps, s1)) by (unfold demo_heap; rewrite E0; cbn [mbind res_bind]; rewrite E1; reflexivity).
  assert (Eos : ps = [0x1050; 0x1000] /\ os = [(0x1000, []); (0, []); (0x1050, [])]).
  { assert (Ev : (match mbuf_setup (demo_mem 8 40) no_pool 1 8 40 0x1000 with
      Ok s => match mrun (CF := demo_conf) 1 demo_prog [] s with Ok (r, _) => Some r | _ => None end | _ => None end) =
      Some ([0x1050; 0x1000], [(0x1000, []); (0, []); (0x1050, [])])) by (vm_compute; reflexivity).
    rewrite E0, E1 in Ev. injection Ev as -> ->. split; reflexivity. }
  destruct Eos as [-> ->]. exists s1. split; [exact Ed|].
  cbn [spec_run] in Hs. destruct Hs as (fr & ds1 & _ & Hn & Hs). cbn in Hn. subst ds1. destruct Hs as (fr2 & ds2 & _ & Hs & fr3 & ds3 & _ & Hn & Hd). cbn in Hn, Hd. subst ds3 ds.
  cbn [spec] in Hs. unfold on_str in Hs. cbn [lookup list_lookup] in Hs. destruct Hs as (m & Hds & _ & Hm & _). rewrite (proj1 Hm eq_refl) in Hds.
  rewrite firstn_all in Hds. cbn [insert list_insert app] in Hds. now rewrite Hds in H1.
Qed.


(** ** Making room in a packet *)

(** C37 — [os_mbuf_widen] of a packet with a gap of [len] bytes [x] at [off], completely.
    An offset behind the data is refused, with nothing changed. Otherwise let [e] be the
    buffer that the offset lies in and [t] its bytes from the offset on. When [e] has room
    for the gap, [t] is moved behind it and nothing is lost. When it has not, the gap and
    then [t] go to new buffers, if the free buffers of the pool are enough for both of
    them; if they are not, the result is [OS_ENOMEM] and the packet is as it was. Only
    those of the bytes [t] stay in the packet, however, that fit into the last of the
    buffers of the gap, [- len mod n] of them for buffers of [n] bytes: the buffers that
    [os_mbuf_append] allocates for the rest are unlinked. These bytes are lost, their
    blocks [lost] belong to no packet any more, and the length in the header, which always
    grows by [len], is too large by their number. *)
Theorem widen_result `{CF : MempoolConf} geo i n bl s p l F off len :
  geo !! i = Some (n, bl) -> own geo s (l ++ F) -> packet i p l ->
  let old := Z.of_nat (length (data l)) in
  0 <= off -> 0 <= len -> old + len < 2 ^ 16 ->
  exists rc s', os_mbuf_widen p off len s = Ok (rc, s') /\ (old < off -> rc = OS_EINVAL /\ s' = s) /\
    (off <= old -> exists l1 e l2 o, lies_in l off l1 e l2 o /\
       let t := drop (Z.to_nat o) (frag e) in
       let here := len <=? room e in
       let fits := here || (len + Z.of_nat (length t) <=? n * nfree s i) in
       let m := if here then length t else Nat.min (length t) (Z.to_nat (- len mod n)) in
       rc = (if fits then 0 else OS_ENOMEM) /\
       (fits = false -> own geo s' (l ++ F)) /\
       (fits = true -> exists l' lost x,
          own geo s' (l' ++ lost ++ F) /\ seg p l' 0 /\ Z.of_nat (length x) = len /\
          data l' = take (Z.to_nat off) (data l) ++ x ++ take m t ++ data l2 /\
          data lost = drop m t /\ (m = length t -> lost = []) /\
          pktlen p s' = Ok (old + len, s') /\ os_mbuf_len p s' = Ok (old + len - Z.of_nat (length t - m), s'))).
Proof.
  intros Hi H Hp old Hoff Hlen Hmax. destruct Hp as [Hs Hn Hsy [[h r] Hh] Hip]. unfold synced in Hsy. rewrite Hh, u16_small in Hsy by lia.
  apply (wp_widen geo s p l F off len i n bl); [done..|lia|intros Hx; split; [done|lia]|].
  intros l1 e l2 o Hat. pose proof Hat as (El & Eo & Ho & _).
  assert (He : e ∈ l ++ F) by (rewrite El, !elem_of_app, elem_of_cons; auto).
  pose proof (length_frag geo e (own_wf geo _ _ _ H He)) as Hfl.
  assert (Ht : Z.of_nat (length (drop (Z.to_nat o) (frag e))) = om_len e.2 - o) by (rewrite length_drop; lia).
  assert (Hold : length (data l) = (length (data l1) + (length (frag e) + length (data l2)))%nat).
  { rewrite El, data_app, data_cons, !length_app. done. }
  rewrite <- Ht. split; intros s' Hw Hfit; (split; [lia|]); intros _; exists l1, e, l2, o; (split; [done|]); cbv zeta;
    rewrite Hfit; (split; [done|]); (split; [done|]); [done|].
  intros _. destruct Hw as (l' & lost & x & H' & Hs' & Hn' & Hx & Hd & Hl & Hk & Hph & _). exists l', lost, x.
  split; [done|]. split; [done|]. split; [done|]. rewrite <- El in Hph.
  set (t := drop (Z.to_nat o) (frag e)) in *. set (m := if len <=? room e then length t else _) in *.
  split; [|split; [done|split; [done|split]]].
  - rewrite Hd, El, data_app, data_cons, take_app_ge by lia.
    replace (Z.to_nat off - length (data l1))%nat with (Z.to_nat o) by lia. rewrite take_app_le by lia. now rewrite <- !app_assoc.
  - apply (pktlen_reads geo s' p l' (lost ++ F) _ r); [done|done|]. rewrite Hph, Hh. cbn [bump]. rewrite u16_small by lia. do 2 f_equal. lia.
  - assert (Hlen' : Z.of_nat (length (data l')) = old + len - Z.of_nat (length t - m)).
    { rewrite Hd, !length_app, !length_take. unfold old. lia. }
    rewrite (mbuf_len_spec geo s' p l' (lost ++ F)), Hlen', u16_small by (done || lia). done.
Qed.

Lemma widen_result_witness :
  exists s s', demo_heap = Ok ([0x1050; 0x1000], s) /\ os_mbuf_widen (H := demo_conf) 0x1000 4 20 s = Ok (0, s') /\
    pktlen 0x1000 s' = Ok (40, s') /\ os_mbuf_len 0x1000 s' = Ok (32, s').
Proof.
  destruct demo_rep as (s & Es & Hr). destruct (rep_focus demo_geo 1 s _ _ 1 0x1000 Hr eq_refl) as (l & F & Hf).
  pose proof (fo_data _ _ _ _ _ _ _ _ _ Hf) as Hd. injection Hd as Hd.
  destruct (widen_result (CF := demo_conf) demo_geo 1 _ _ s 0x1000 l F 4 20 (lookup_singleton_eq _ _) (fo_own _ _ _ _ _ _ _ _ _ Hf)
    (fo_pkt _ _ _ _ _ _ _ _ _ Hf)) as (rc & s' & E & Hv); [rewrite <- ?Hd; vm_compute; intuition discriminate..|].
  assert (Ev : match demo_heap with
    Ok (_, s) => match os_mbuf_widen (H := demo_conf) 0x1000 4 20 s with
                 | Ok (rc, s') => match os_mbuf_len 0x1000 s' with Ok (len, _) => Some (rc, len) | _ => None end
                 | _ => None end
    | _ => None end = Some (0, 32)) by (vm_compute; reflexivity).
  rewrite Es, E in Ev. destruct Hv as [_ Hv]. destruct Hv as (l1 & e & l2 & o & _ & Hrc & _ & Hok).
  { rewrite <- Hd. vm_compute. discriminate. }
  cbv zeta in Hrc, Hok. destruct (_ || _).
  2: { exfalso. rewrite Hrc in Ev. destruct (os_mbuf_len 0x1000 s') as [[v ?]| |]; discriminate. }
  subst rc. destruct (Hok eq_refl) as (l' & lost & x & _ & _ & _ & _ & _ & _ & R1 & R2). rewrite R2 in Ev.
  exists s, s'. split; [exact Es|]. split; [exact E|]. split; [rewrite R1, <- Hd; reflexivity|]. injection Ev as Ev. rewrite R2, Ev. reflexivity.
Defined.

(** ** Queues *)

(** C18 — [os_mqueue_put] and [os_mqueue_get] are a queue of packets: every sequence of
    calls, on a queue that [os_mqueue_init] made, returns the packets in the order in
    which they were put, and null only when the queue is empty, as long as no packet is
    put into it that is still in it. The calls change nothing but the links in the
    headers of packets: every other byte and field of every block, in use or free, and
    the pools are as they were. *)
Theorem mqueue_fifo geo s L ops q vs :
  own geo s L -> Forall (fun c => c.1 + MBUF_SIZE < 2 ^ 32) L ->
  (forall evq p, QPut evq p ∈ ops -> exists b, (p, b) ∈ L /\ OS_MBUF_IS_PKTHDR b = true) ->
  fifo_run ops [] = Some (q, vs) ->
  exists mq s' L', qrun ops os_mqueue_init s = Ok ((mq, vs), s') /\ links_only s s' /\ own geo s' L' /\ only_links L L'.
Proof.
  intros H Hsm Hops Hrun.
  destruct (qrun_spec geo ops s L os_mqueue_init [] q vs) as (mq & s' & L' & E & Hk & H' & Ho & _); [done|done| |done|done|].
  - constructor; [done|done|constructor].
  - exists mq, s', L'. auto.
Qed.

Lemma rep_header geo i s ps ds :
  rep geo i s ps ds -> exists L, own geo s L /\ forall p, p ∈ ps -> exists b, (p, b) ∈ L /\ OS_MBUF_IS_PKTHDR b = true.
Proof.
  intros (ls & H & Hps & _). exists (concat ls). split; [done|]. intros p [k Hk]%list_elem_of_lookup.
  destruct (Forall2_lookup_l _ _ _ _ _ Hps Hk) as (l & Hl & [Hs Hn _ [h Hh] _]). destruct l as [|[a b] l]; [done|].
  destruct Hs as [-> _]. cbn [fst phead] in *. exists b. split.
  - apply list_elem_of_In, in_concat. exists ((a, b) :: l). split; [now apply list_elem_of_In, (list_elem_of_lookup_2 ls k)|now left].
  - unfold pkt in Hh. cbn [snd] in Hh. now destruct (OS_MBUF_IS_PKTHDR b).
Qed.

(** The blocks of the pool have 32-bit addresses. *)
Lemma setup_small m i blocks block_size membuf s L :
  setup_ok m i blocks block_size membuf -> own (setup_geo i blocks block_size membuf) s L ->
  Forall (fun c => c.1 + MBUF_SIZE < 2 ^ 32) L.
Proof.
  intros [_ Hs Hn _ _ He _ _] H. unfold MBUF_SIZE in *. apply Forall_forall. intros c Hc.
  destruct (own_wf _ _ _ c H Hc) as [(n & bl & Hi & Hin & _) _ _ _]. unfold setup_geo in Hi.
  apply lookup_singleton_Some in Hi as [_ Hi]. assert (bl = block_addrs (Z.to_nat blocks) (OS_MEM_TRUE_BLOCK_SIZE block_size) membuf) as -> by congruence.
  apply block_addrs_elem in Hin as (j & Hj & ->). destruct (true_block_size_bound block_size) as [Ht _]; [lia|]. nia.
Qed.

Definition demo_qops : list qop := [QGet; QPut true 0x1050; QPut false 0x1000; QGet; QPut true 0x1050; QGet; QGet; QGet].

Lemma mqueue_fifo_witness :
  exists s mq s', demo_heap = Ok ([0x1050; 0x1000], s) /\
    qrun demo_qops os_mqueue_init s = Ok ((mq, [0; 0; 0; 0x1050; 0; 0x1000; 0x1050; 0]), s').
Proof.
  destruct demo_rep as (s & Es & Hr). destruct (rep_header _ _ _ _ _ Hr) as (L & H & Hps).
  destruct (mqueue_fifo demo_geo s L demo_qops [] [0; 0; 0; 0x1050; 0; 0x1000; 0x1050; 0]) as (mq & s' & L' & E & _).
  - exact H.
  - apply (setup_small (demo_mem 8 40) 1 8 40 0x1000 s L); [|exact H]. apply setup_okb_ok. vm_compute. reflexivity.
  - clear Es. intros evq p Hp. apply Hps. unfold demo_qops in Hp. rewrite !elem_of_cons in Hp. rewrite !elem_of_cons.
    repeat (destruct Hp as [E|Hp]; [try discriminate; injection E as _ ->; auto|]). now apply not_elem_of_nil in Hp.
  - vm_compute. reflexivity.
  - exists s, mq, s'. split; [exact Es|exact E].
Defined.

(** ** The registry of pools *)
Lemma find_pool_first len l d :
  (Exists (fun p => d <= len p) l -> exists l1 l2, l = l1 ++ _os_msys_find_pool len l d :: l2 /\
     d <= len (_os_msys_find_pool len l d) /\ Forall (fun p => len p < d) l1) /\
  (Forall (fun p => len p < d) l -> _os_msys_find_pool len l d = default 0 (last l)).
Proof.
  unfold _os_msys_find_pool. destruct (list_find (fun pool => d <= len pool) l) as [[k p]|] eqn:E; split.
  - intros _. apply list_find_Some in E as (Hk & Hp & Hb). exists (take k l), (drop (S k) l). split; [now rewrite take_drop_middle|].
    split; [done|]. apply Forall_lookup. intros j x [Hx Hj]%lookup_take_Some. specialize (Hb j x Hx Hj). lia.
  - intros Hf. apply list_find_Some in E as (Hk & Hp & _). rewrite Forall_lookup in Hf. specialize (Hf k p Hk). lia.
  - intros Hx. apply list_find_None in E. apply Exists_exists in Hx as (p & Hin & Hp). rewrite Forall_forall in E. now specialize (E p Hin).
  - done.
Qed.

(** The pools are registered one after the other. *)
Definition register_all (len : Z -> Z) (l : list Z) : msys := foldl (os_msys_register len) os_msys_reset l.

Lemma register_elem len l x p : p ∈ os_msys_register len l x <-> p = x \/ p ∈ l.
Proof.
  induction l as [|y l IH]; cbn [os_msys_register]; [rewrite elem_of_cons; tauto|].
  destruct (len y <? len x); rewrite !elem_of_cons; [tauto|]. rewrite IH. tauto.
Qed.

(** The registry of pools. [os_msys_get] takes the first registered pool whose
    buffers are large enough, and the last one of the list when there is none. That is
    not the best fit that the documentation promises, because [os_msys_register] does
    not keep the list sorted: of the pools with buffers of 200 and 100 bytes, registered in this order, the
    larger one is taken for 50 bytes, and after the registration of buffers of 100, 200 and 50 bytes the
    smallest ones are taken for 300 bytes. *)
Theorem msys_first_fit (len : Z -> Z) l d :
  (Exists (fun p => d <= len p) l -> exists l1 l2, l = l1 ++ _os_msys_find_pool len l d :: l2 /\
     d <= len (_os_msys_find_pool len l d) /\ Forall (fun p => len p < d) l1) /\
  (Forall (fun p => len p < d) l -> _os_msys_find_pool len l d = default 0 (last l)) /\
  (forall x p, p ∈ os_msys_register len l x <-> p = x \/ p ∈ l) /\
  _os_msys_find_pool id (register_all id [200; 100]) 50 = 200 /\
  _os_msys_find_pool id (register_all id [100; 200; 50]) 300 = 50.
Proof.
  destruct (find_pool_first len l d) as [H1 H2]. split; [exact H1|]. split; [exact H2|]. split; [intros x p; apply register_elem|].
  split; vm_compute; reflexivity.
Qed.
