(* ===== verification/Patch.v ===== *)
(** * The patch service

    The GATT service through which a peer transfers a policy and has it installed:
    [ZephyrOS/peripheral/src/firewall_patch.c] and, for NimBLE,
    [nimble/host/services/firewall/src/ble_svc_firewall_patch.c]. Both keep a
    staging buffer of [BSWAT_STAGING_MAX] bytes with a length, the target slot and
    the code of the last installation; both call [ifw_install_policy].

    [session] is the protocol of the service without the buffer: a target, the
    bytes staged so far and the last code. The theorems show that each of the two
    services implements it on every sequence of requests. *)
From stdpp Require Import base tactics numbers list.
From Stdlib Require Import ZArith Lia.
From S2P Require Import Prelude Inst VM VMFacts Verifier Fsm PolicyCache Mbuf.
Local Open Scope Z_scope.

Definition BSWAT_STAGING_MAX : Z := 256.

(** The statics of the service, and the policy cache it installs into. *)
Record patch_state := PatchState {
  staging_buf : list Z;
  staging_len : Z;
  target_class : Z;
  target_type : Z;
  last_install_rc : Z;
  patch_cache : policy_state;
}.

Definition patch_state0 (m : policy_state) : patch_state :=
  PatchState (replicate (Z.to_nat BSWAT_STAGING_MAX) 0) 0 0 0 (-100) m.

(** [memcpy(&buf[off], bs, length bs)] *)
Definition buf_write (buf : list Z) (off : Z) (bs : list Z) : res (list Z) :=
  if (0 <=? off) && (off + Z.of_nat (length bs) <=? Z.of_nat (length buf))
  then Ok (take (Z.to_nat off) buf ++ bs ++ drop (Z.to_nat off + length bs) buf)
  else Crash MemFault.

(** The characteristics a peer can write. *)
Inductive attr := Header | Body | Commit.

(** The outcomes of the two allocations of an installation. *)
Record allocs := Allocs { copy_ok : bool; node_ok : bool }.

(** Error codes of both services. *)
Abbreviation BT_ATT_ERR_INVALID_OFFSET := 0x07 (only parsing).
Abbreviation BT_ATT_ERR_INVALID_ATTRIBUTE_LEN := 0x0d (only parsing).
Abbreviation BLE_ATT_ERR_INVALID_ATTR_VALUE_LEN := 0x0d (only parsing).
Abbreviation BLE_ATT_ERR_UNLIKELY := 0x0e (only parsing).
Abbreviation BLE_ATT_ERR_INSUFFICIENT_RES := 0x11 (only parsing).

Section Service.
  Context `{P : PolicyPort}.

(** The call of [ifw_install_policy] on the staged bytes, and the reset. *)
Definition commit (st : patch_state) (a : allocs) : res patch_state :=
  '(m, rc) ← ifw_install_policy (patch_cache st) (copy_ok a) (node_ok a)
               (target_class st) (target_type st) (Some (staging_buf st)) (staging_len st);
  Ok (PatchState (staging_buf st) 0 (target_class st) (target_type st) rc m).

(** ** The Zephyr service *)
Definition BT_GATT_ERR (att_err : Z) : Z := - att_err.

Definition write_header (st : patch_state) (buf : list Z) (len offset : Z)
    : res (patch_state * Z) :=
  if negb (offset =? 0) then Ok (st, BT_GATT_ERR BT_ATT_ERR_INVALID_OFFSET)
  else if negb (len =? 2) then Ok (st, BT_GATT_ERR BT_ATT_ERR_INVALID_ATTRIBUTE_LEN)
  else
    p0 ← buf_byte buf 0;
    p1 ← buf_byte buf 1;
    Ok (PatchState (staging_buf st) 0 p0 p1 (last_install_rc st) (patch_cache st), len).

Definition write_body (st : patch_state) (buf : list Z) (len offset : Z)
    : res (patch_state * Z) :=
  if negb (offset =? 0) then Ok (st, BT_GATT_ERR BT_ATT_ERR_INVALID_OFFSET)
  else if BSWAT_STAGING_MAX <? staging_len st + len
  then Ok (st, BT_GATT_ERR BT_ATT_ERR_INVALID_ATTRIBUTE_LEN)
  else
    bs ← buf_read buf 0 len;
    sb ← buf_write (staging_buf st) (staging_len st) bs;
    Ok (PatchState sb (u16 (staging_len st + len)) (target_class st) (target_type st)
          (last_install_rc st) (patch_cache st), len).

Definition write_commit (st : patch_state) (a : allocs) (buf : list Z) (len offset : Z)
    : res (patch_state * Z) :=
  if negb (offset =? 0) || (len <? 1)
  then Ok (st, BT_GATT_ERR BT_ATT_ERR_INVALID_OFFSET)
  else st ← commit st a; Ok (st, len).

(** [gatt.c]: the bytes read and the return value. *)
Definition bt_gatt_attr_read (buf_len offset : Z) (value : list Z) : res (list Z * Z) :=
  if Z.of_nat (length value) <? offset
  then Ok ([], BT_GATT_ERR BT_ATT_ERR_INVALID_OFFSET)
  else
    let len := u16 (Z.min buf_len (Z.of_nat (length value) - offset)) in
    bs ← buf_read value offset len;
    Ok (bs, len).

Definition read_status (st : patch_state) (len offset : Z) : res (list Z * Z) :=
  bt_gatt_attr_read len offset (le_bytes 4 (last_install_rc st)).

(** The table of the service: the write callback of each characteristic. *)
Definition bswat_patch_svc (a : attr) : patch_state -> allocs -> list Z -> Z -> Z ->
    res (patch_state * Z) :=
  match a with
  | Header => fun st _ => write_header st
  | Body => fun st _ => write_body st
  | Commit => write_commit
  end.

(** ** The NimBLE service *)

(** The 128-bit UUIDs share all bytes but one. *)
Definition bswat_uuid (d : Z) : list Z :=
  [0xed; 0xf1; 0x00; 0x8d; 0xcf; 0xe6; 0xbd; 0xa0; 0xa1; 0x49; 0x57; 0x7e; d; 0x00; 0x00; 0xbd].
Definition firewall_patch_hdr_uuid : list Z := bswat_uuid 0x02.
Definition firewall_patch_body_uuid : list Z := bswat_uuid 0x03.
Definition firewall_patch_commit_uuid : list Z := bswat_uuid 0x04.
Definition firewall_patch_status_uuid : list Z := bswat_uuid 0x05.

(** [ble_uuid_cmp] of two 128-bit UUIDs: [memcmp]. *)
Fixpoint ble_uuid_cmp (u1 u2 : list Z) : Z :=
  match u1, u2 with
  | b1 :: u1, b2 :: u2 => if b1 =? b2 then ble_uuid_cmp u1 u2 else b1 - b2
  | _, _ => 0
  end.

Definition firewall_patch_handle_header (st : patch_state) (om : om_pkt)
    : res (patch_state * Z) :=
  let '(hdr, rc, len) := ble_hs_mbuf_to_flat om 2 in
  if negb (rc =? 0) then Ok (st, BLE_ATT_ERR_UNLIKELY)
  else
    (* a successful call has set [len] *)
    if negb (default 0 len =? 2) then Ok (st, BLE_ATT_ERR_INVALID_ATTR_VALUE_LEN)
    else
      h0 ← buf_byte hdr 0;
      h1 ← buf_byte hdr 1;
      Ok (PatchState (staging_buf st) 0 h0 h1 (last_install_rc st) (patch_cache st), 0).

(** A failed copy has written what it could behind the staged bytes. *)
Definition firewall_patch_handle_body (st : patch_state) (om : om_pkt)
    : res (patch_state * Z) :=
  let chunk_len := omp_len om in
  if BSWAT_STAGING_MAX <? staging_len st + chunk_len
  then Ok (st, BLE_ATT_ERR_INVALID_ATTR_VALUE_LEN)
  else
    let '(bs, rc, copied) := ble_hs_mbuf_to_flat om chunk_len in
    sb ← buf_write (staging_buf st) (staging_len st) bs;
    let st := PatchState sb (staging_len st) (target_class st) (target_type st)
                (last_install_rc st) (patch_cache st) in
    if negb (rc =? 0) then Ok (st, BLE_ATT_ERR_UNLIKELY)
    else
      Ok (PatchState sb (u16 (staging_len st + default 0 copied)) (target_class st)
            (target_type st) (last_install_rc st) (patch_cache st), 0).

Definition firewall_patch_handle_commit (st : patch_state) (a : allocs) (om : om_pkt)
    : res (patch_state * Z) :=
  if omp_len om <? 1 then Ok (st, BLE_ATT_ERR_INVALID_ATTR_VALUE_LEN)
  else st ← commit st a; Ok (st, 0).

(** The response chain after the append, and the return code. *)
Definition firewall_patch_handle_status_read (st : patch_state) (om : option os_mbuf)
    (space databuf avail : nat) : option os_mbuf * Z :=
  let '(om, rc) := os_mbuf_append om space databuf avail (le_bytes 4 (last_install_rc st)) in
  (om, if rc =? 0 then 0 else BLE_ATT_ERR_INSUFFICIENT_RES).

(** [ctxt->op] with what comes with it: a write has the packet; a read the
    response chain and the room there is for it. *)
Inductive gatt_access :=
| AccessWrite (om : om_pkt)
| AccessRead (om : option os_mbuf) (space databuf avail : nat)
| AccessOther.

Definition firewall_patch_access (st : patch_state) (a : allocs) (uuid : list Z)
    (ctxt : gatt_access) : res (patch_state * option os_mbuf * Z) :=
  match ctxt with
  | AccessWrite om =>
      '(st, rc) ←
        (if ble_uuid_cmp uuid firewall_patch_hdr_uuid =? 0
         then firewall_patch_handle_header st om
         else if ble_uuid_cmp uuid firewall_patch_body_uuid =? 0
         then firewall_patch_handle_body st om
         else if ble_uuid_cmp uuid firewall_patch_commit_uuid =? 0
         then firewall_patch_handle_commit st a om
         else Ok (st, BLE_ATT_ERR_UNLIKELY));
      Ok (st, None, rc)
  | AccessRead om space databuf avail =>
      if ble_uuid_cmp uuid firewall_patch_status_uuid =? 0 then
        let '(om, rc) := firewall_patch_handle_status_read st om space databuf avail in
        Ok (st, om, rc)
      else Ok (st, om, BLE_ATT_ERR_UNLIKELY)
  | AccessOther => Ok (st, None, BLE_ATT_ERR_UNLIKELY)
  end.

(** ** The protocol *)
Record session := Session {
  s_class : Z;
  s_type : Z;
  s_staged : list Z;
  s_rc : Z;
  s_cache : policy_state;
}.

(** A write request: the characteristic, the offset and the value; and the
    outcomes of the allocations it may cause. *)
Record request := Request { r_attr : attr; r_off : Z; r_val : list Z; r_allocs : allocs }.

Inductive reply := Accepted | BadOffset | BadLength | EmptyCommit.

(** [exact]: whether a header has to be exactly two bytes long or is cut off. *)
Definition session_step (exact : bool) (s : session) (r : request) : res (session * reply) :=
  if negb (r_off r =? 0) then Ok (s, BadOffset)
  else match r_attr r, r_val r with
  | Header, c :: t :: rest =>
      if exact && negb (bool_decide (rest = [])) then Ok (s, BadLength)
      else Ok (Session c t [] (s_rc s) (s_cache s), Accepted)
  | Header, _ => Ok (s, BadLength)
  | Body, v =>
      if BSWAT_STAGING_MAX <? Z.of_nat (length (s_staged s) + length v)
      then Ok (s, BadLength)
      else Ok (Session (s_class s) (s_type s) (s_staged s ++ v) (s_rc s) (s_cache s), Accepted)
  | Commit, [] => Ok (s, EmptyCommit)
  | Commit, _ =>
      '(m, rc) ← ifw_install_policy (s_cache s) (copy_ok (r_allocs r)) (node_ok (r_allocs r))
                   (s_class s) (s_type s) (Some (s_staged s)) (Z.of_nat (length (s_staged s)));
      Ok (Session (s_class s) (s_type s) [] rc m, Accepted)
  end.

(** Running a list of requests, collecting the replies. *)
Fixpoint run_requests {S R A} (step : S -> R -> res (S * A)) (s : S) (rs : list R)
    : res (S * list A) :=
  match rs with
  | [] => Ok (s, [])
  | r :: rs =>
      '(s, a) ← step s r;
      '(s, al) ← run_requests step s rs;
      Ok (s, a :: al)
  end.

Definition session0 (m : policy_state) : session := Session 0 0 [] (-100) m.

(** The staging buffer holds the staged bytes. *)
Definition stages (st : patch_state) (s : session) : Prop :=
  Z.of_nat (length (staging_buf st)) = BSWAT_STAGING_MAX /\
  staging_len st = Z.of_nat (length (s_staged s)) /\
  staging_len st <= BSWAT_STAGING_MAX /\
  take (length (s_staged s)) (staging_buf st) = s_staged s /\
  target_class st = s_class s /\ target_type st = s_type s /\
  last_install_rc st = s_rc s /\ patch_cache st = s_cache s.

(** Two outcomes agree: both return, with related values, or both fault alike. *)
Definition same_outcome {A B} (R : A -> B -> Prop) (x : res A) (y : res B) : Prop :=
  match x, y with
  | Ok a, Ok b => R a b
  | Crash e, Crash e' => e = e'
  | Timeout, Timeout => True
  | _, _ => False
  end.

(** The return value of a Zephyr write callback, and of the NimBLE one. *)
Definition zephyr_code (r : request) (a : reply) : Z :=
  match a with
  | Accepted => Z.of_nat (length (r_val r))
  | BadOffset | EmptyCommit => BT_GATT_ERR BT_ATT_ERR_INVALID_OFFSET
  | BadLength => BT_GATT_ERR BT_ATT_ERR_INVALID_ATTRIBUTE_LEN
  end.

Definition nimble_code (a : reply) : Z :=
  match a with
  | Accepted => 0
  | BadOffset => BLE_ATT_ERR_UNLIKELY
  | BadLength | EmptyCommit => BLE_ATT_ERR_INVALID_ATTR_VALUE_LEN
  end.

(** A request as each service gets it. *)
Definition zephyr_step (st : patch_state) (r : request) : res (patch_state * Z) :=
  bswat_patch_svc (r_attr r) st (r_allocs r) (r_val r) (Z.of_nat (length (r_val r))) (r_off r).

Definition uuid_of (a : attr) : list Z :=
  match a with
  | Header => firewall_patch_hdr_uuid
  | Body => firewall_patch_body_uuid
  | Commit => firewall_patch_commit_uuid
  end.

Record nimble_request := NimbleRequest { n_attr : attr; n_om : om_pkt; n_allocs : allocs }.

Definition nimble_step (st : patch_state) (r : nimble_request) : res (patch_state * Z) :=
  '(st, _, rc) ← firewall_patch_access st (n_allocs r) (uuid_of (n_attr r))
                   (AccessWrite (n_om r));
  Ok (st, rc).

(** The value of a request, whatever its fragments. *)
Definition flat_request (r : nimble_request) : request :=
  Request (n_attr r) 0 (concat (om_frags (n_om r))) (n_allocs r).

(** ** The services implement the protocol *)
Lemma install_take m c n class type buf len :
  0 <= len ->
  ifw_install_policy m c n class type (Some (take (Z.to_nat len) buf)) len =
  ifw_install_policy m c n class type (Some buf) len.
Proof.
  intros H. unfold ifw_install_policy. rewrite verify_policy_take by done.
  now rewrite take_take, Nat.min_id.
Qed.

Lemma buf_write_ok buf off bs :
  0 <= off -> off + Z.of_nat (length bs) <= Z.of_nat (length buf) ->
  exists buf', buf_write buf off bs = Ok buf' /\ length buf' = length buf /\
    take (Z.to_nat off + length bs) buf' = take (Z.to_nat off) buf ++ bs.
Proof.
  intros H0 H1. unfold buf_write. replace (0 <=? off) with true by lia.
  destruct (Z.leb_spec (off + Z.of_nat (length bs)) (Z.of_nat (length buf))); [|lia].
  eexists. split; [reflexivity|]. split.
  - rewrite !length_app, length_take, length_drop. lia.
  - rewrite app_assoc. rewrite take_app_le by (rewrite length_app, length_take; lia).
    apply take_ge. rewrite length_app, length_take. lia.
Qed.

Lemma buf_read_all bs : buf_read bs 0 (Z.of_nat (length bs)) = Ok bs.
Proof.
  unfold buf_read. cbn [Z.leb Z.compare andb]. rewrite Z.add_0_l, Z.leb_refl.
  unfold slice. cbn [Z.to_nat]. now rewrite drop_0, Nat2Z.id, take_ge.
Qed.

(** The commit of both services. *)
Lemma commit_stages st s a :
  stages st s ->
  same_outcome stages (commit st a)
    ('(m, rc) ← ifw_install_policy (s_cache s) (copy_ok a) (node_ok a) (s_class s) (s_type s)
                  (Some (s_staged s)) (Z.of_nat (length (s_staged s)));
     Ok (Session (s_class s) (s_type s) [] rc m)).
Proof.
  intros (Hl & Hn & Hm & Ht & Hc & Hy & Hr & Hp). unfold commit.
  rewrite Hn, Hc, Hy, Hp.
  rewrite <- (install_take _ _ _ _ _ (staging_buf st)) by lia. rewrite Nat2Z.id, Ht.
  destruct (ifw_install_policy _ _ _ _ _ _ _) as [[m rc]| |]; done.
Qed.

(** The append of both services. *)
Lemma append_stages st s v :
  stages st s -> staging_len st + Z.of_nat (length v) <= BSWAT_STAGING_MAX ->
  exists sb, buf_write (staging_buf st) (staging_len st) v = Ok sb /\
    stages (PatchState sb (u16 (staging_len st + Z.of_nat (length v))) (target_class st)
              (target_type st) (last_install_rc st) (patch_cache st))
           (Session (s_class s) (s_type s) (s_staged s ++ v) (s_rc s) (s_cache s)).
Proof.
  intros (Hl & Hn & Hm & Ht & Hc) Hv. unfold BSWAT_STAGING_MAX in *.
  destruct (buf_write_ok (staging_buf st) (staging_len st) v) as (sb & E & El & Et); [lia..|].
  exists sb. split; [exact E|]. unfold stages, BSWAT_STAGING_MAX. cbn. rewrite length_app.
  rewrite u16_small by lia. split; [lia|]. split; [lia|]. split; [lia|]. split; [|done].
  rewrite Hn, Nat2Z.id, Ht in Et. exact Et.
Qed.

(** The header of both services. *)
Lemma header_stages st s c t :
  stages st s ->
  stages (PatchState (staging_buf st) 0 c t (last_install_rc st) (patch_cache st))
    (Session c t [] (s_rc s) (s_cache s)).
Proof.
  intros (Hl & _ & _ & _ & _ & _ & Hr & Hp). unfold stages, BSWAT_STAGING_MAX in *. cbn.
  repeat split; (done || lia).
Qed.

(** Equal outcomes with an unchanged state. *)
Ltac same_state := split; [assumption|reflexivity].

Lemma zephyr_step_refines st s r :
  stages st s ->
  same_outcome (fun '(st', c) '(s', a) => stages st' s' /\ c = zephyr_code r a)
    (zephyr_step st r) (session_step true s r).
Proof.
  intros Hst. destruct r as [at_ off v al]. unfold zephyr_step, session_step.
  cbn [r_attr r_off r_val r_allocs]. pose proof Hst as (Hl & Hn & Hm & Ht & Hc).
  destruct at_; cbn [bswat_patch_svc].
  - unfold write_header. destruct (off =? 0); cbn [negb]; [|same_state].
    destruct v as [|c [|t [|x v]]]; cbn [length]; try same_state.
    + split; [exact (header_stages st s c t Hst)|reflexivity].
    + destruct (Z.eqb_spec (Z.of_nat (S (S (S (length v))))) 2); [lia|]. same_state.
  - unfold write_body. destruct (off =? 0); cbn [negb]; [|same_state].
    rewrite Hn, Nat2Z.inj_add. destruct (_ <? _) eqn:E; [same_state|]. apply Z.ltb_ge in E.
    rewrite buf_read_all. cbn [mbind res_bind].
    destruct (append_stages st s v Hst) as (sb & Ew & Hs'); [lia|]. rewrite Hn in Ew, Hs'.
    rewrite Ew. cbn. done.
  - unfold write_commit. destruct (off =? 0); cbn [negb orb]; [|same_state].
    destruct v as [|x v]; [same_state|]. cbn [length].
    destruct (Z.ltb_spec (Z.of_nat (S (length v))) 1); [lia|].
    pose proof (commit_stages st s al Hst) as Hk.
    destruct (commit st al); destruct (ifw_install_policy _ _ _ _ _ _ _) as [[m rc]| |];
      cbn in *; done.
Qed.

(** The UUIDs tell the characteristics apart. *)
Lemma nimble_step_eq st r :
  nimble_step st r =
  match n_attr r with
  | Header => firewall_patch_handle_header st (n_om r)
  | Body => firewall_patch_handle_body st (n_om r)
  | Commit => firewall_patch_handle_commit st (n_allocs r) (n_om r)
  end.
Proof.
  unfold nimble_step, firewall_patch_access.
  destruct (n_attr r); cbn [uuid_of];
    repeat match goal with |- context [ble_uuid_cmp ?a ?b =? 0] =>
      let v := eval vm_compute in (ble_uuid_cmp a b =? 0) in
      change (ble_uuid_cmp a b =? 0) with v; cbv iota end;
    match goal with |- _ = ?x => destruct x as [[]| |] end; done.
Qed.

Lemma nimble_step_refines st s r :
  stages st s -> pkt_wf (n_om r) ->
  same_outcome (fun '(st', c) '(s', a) => stages st' s' /\ c = nimble_code a)
    (nimble_step st r) (session_step false s (flat_request r)).
Proof.
  intros Hst Hwf. rewrite nimble_step_eq. destruct r as [at_ om al]. unfold session_step.
  cbn [r_attr r_off r_val r_allocs flat_request n_attr n_om n_allocs] in *.
  pose proof Hst as (Hl & Hn & Hm & Ht & Hc). pose proof Hwf as [Hlen Hmax].
  destruct at_; cbn [Z.eqb negb].
  - unfold firewall_patch_handle_header. rewrite to_flat_truncates by (done || lia).
    destruct (concat (om_frags om)) as [|c [|t v]]; cbn [length] in Hlen.
    + replace (Z.min (omp_len om) 2) with 0 by lia. same_state.
    + replace (Z.min (omp_len om) 2) with 1 by lia. same_state.
    + replace (Z.min (omp_len om) 2) with 2 by lia.
      split; [exact (header_stages st s c t Hst)|reflexivity].
  - unfold firewall_patch_handle_body. rewrite Hlen, Hn, Nat2Z.inj_add.
    destruct (_ <? _) eqn:E; [same_state|]. apply Z.ltb_ge in E.
    set (v := concat (om_frags om)) in *.
    assert (Hf : ble_hs_mbuf_to_flat om (Z.of_nat (length v)) =
      (v, 0, Some (Z.of_nat (length v)))).
    { destruct (Z.eq_dec (Z.of_nat (length v)) 0) as [E0|E0].
      - unfold ble_hs_mbuf_to_flat. rewrite Hlen, E0. cbn.
        destruct v; [done|cbn in E0; lia].
      - rewrite to_flat_truncates by (done || lia). fold v. rewrite Hlen, Z.min_id.
        now rewrite Nat2Z.id, take_ge. }
    rewrite Hf. cbn [mbind res_bind].
    destruct (append_stages st s v Hst) as (sb & Ew & Hs'); [lia|]. rewrite Hn in Ew, Hs'.
    rewrite Ew. cbn. done.
  - unfold firewall_patch_handle_commit. rewrite Hlen.
    destruct (concat (om_frags om)) as [|x v]; [same_state|]. cbn [length].
    destruct (Z.ltb_spec (Z.of_nat (S (length v))) 1); [lia|]. pose proof (commit_stages st s al Hst) as Hk.
    destruct (commit st al); destruct (ifw_install_policy _ _ _ _ _ _ _) as [[m rc]| |];
      cbn in *; done.
Qed.

(** ** Runs *)
Lemma run_refines {R C} (step : patch_state -> R -> res (patch_state * C))
    (exact : bool) (f : R -> request) (ok : R -> Prop) (code : R -> reply -> C) st s rs :
  (forall st s r, stages st s -> ok r ->
     same_outcome (fun '(st', c) '(s', a) => stages st' s' /\ c = code r a)
       (step st r) (session_step exact s (f r))) ->
  stages st s -> Forall ok rs ->
  same_outcome (fun '(st', cs) '(s', al) => stages st' s' /\ cs = zip_with code rs al)
    (run_requests step st rs) (run_requests (session_step exact) s (map f rs)).
Proof.
  intros Hstep. revert st s. induction rs as [|r rs IH]; intros st s Hs Hok.
  { split; [done|reflexivity]. }
  apply Forall_cons_1 in Hok as [Hr Hok]. cbn [run_requests map].
  specialize (Hstep st s r Hs Hr).
  destruct (step st r) as [[st1 c]| |], (session_step exact s (f r)) as [[s1 a]| |];
    cbn in Hstep |- *; try done.
  destruct Hstep as [Hs1 ->]. specialize (IH st1 s1 Hs1 Hok).
  destruct (run_requests step st1 rs) as [[st2 cs]| |],
    (run_requests (session_step exact) s1 (map f rs)) as [[s2 al]| |];
    cbn in IH |- *; try done.
  destruct IH as [Hs2 ->]. done.
Qed.

Lemma stages0 m : stages (patch_state0 m) (session0 m).
Proof.
  unfold stages, patch_state0, session0, BSWAT_STAGING_MAX. cbn [staging_buf staging_len
    target_class target_type last_install_rc patch_cache s_staged s_class s_type s_rc s_cache].
  rewrite length_replicate. cbn. repeat split; done.
Qed.

(** Any state of the service: the buffer has its size and the staged bytes fit. *)
Definition patch_wf (st : patch_state) : Prop :=
  Z.of_nat (length (staging_buf st)) = BSWAT_STAGING_MAX /\ 0 <= staging_len st <= BSWAT_STAGING_MAX.

(** The session in such a state. *)
Definition session_of (st : patch_state) : session :=
  Session (target_class st) (target_type st) (take (Z.to_nat (staging_len st)) (staging_buf st))
    (last_install_rc st) (patch_cache st).

Lemma stages_of st : patch_wf st -> stages st (session_of st).
Proof.
  intros [Hl Hn]. unfold stages, session_of. cbn [s_staged s_class s_type s_rc s_cache].
  rewrite length_take. split; [done|]. split; [lia|]. split; [lia|]. split; [|done].
  f_equal. lia.
Qed.

Lemma stages_wf st s : stages st s -> patch_wf st.
Proof. intros (Hl & Hn & Hm & _). split; [done|lia]. Qed.

Lemma patch_state0_patch_wf m : patch_wf (patch_state0 m).
Proof. exact (stages_wf _ _ (stages0 m)). Qed.

(** A transfer: the header, the code in chunks, the commit. *)
Definition transfer (class type : Z) (chunks : list (list Z)) (al : allocs) : list request :=
  Request Header 0 [class; type] al ::
  map (fun v => Request Body 0 v al) chunks ++ [Request Commit 0 [1] al].

Lemma session_body exact s v al :
  Z.of_nat (length (s_staged s ++ v)) <= BSWAT_STAGING_MAX ->
  session_step exact s (Request Body 0 v al) =
  Ok (Session (s_class s) (s_type s) (s_staged s ++ v) (s_rc s) (s_cache s), Accepted).
Proof.
  intros H. rewrite length_app in H. unfold session_step.
  cbn [r_off r_attr r_val r_allocs Z.eqb negb].
  destruct (Z.ltb_spec BSWAT_STAGING_MAX (Z.of_nat (length (s_staged s) + length v))); [lia|done].
Qed.

Lemma bodies_staged exact s chunks al k :
  Z.of_nat (length (s_staged s ++ concat chunks)) <= BSWAT_STAGING_MAX ->
  run_requests (session_step exact) s (map (fun v => Request Body 0 v al) chunks ++ k) =
  ('(s', rs) ← run_requests (session_step exact)
       (Session (s_class s) (s_type s) (s_staged s ++ concat chunks) (s_rc s) (s_cache s)) k;
   Ok (s', replicate (length chunks) Accepted ++ rs)).
Proof.
  revert s. induction chunks as [|v chunks IH]; intros s H.
  - cbn. rewrite app_nil_r. destruct s; cbn.
    destruct (run_requests _ _ k) as [[]| |]; done.
  - cbn [map concat app] in *. rewrite app_assoc in H |- *. cbn [run_requests].
    rewrite length_app in H. rewrite session_body by lia. cbn [mbind res_bind].
    rewrite IH by (cbn [s_staged]; rewrite length_app; lia).
    cbn [s_class s_type s_staged s_rc s_cache].
    destruct (run_requests _ _ k) as [[]| |]; done.
Qed.

(** The header drops what was staged before. *)
Lemma session_transfer exact s class type chunks al :
  Z.of_nat (length (concat chunks)) <= BSWAT_STAGING_MAX ->
  run_requests (session_step exact) s (transfer class type chunks al) =
  ('(m', rc) ← ifw_install_policy (s_cache s) (copy_ok al) (node_ok al) class type
                 (Some (concat chunks)) (Z.of_nat (length (concat chunks)));
   Ok (Session class type [] rc m', replicate (S (S (length chunks))) Accepted)).
Proof.
  intros H. unfold transfer. cbn [run_requests].
  assert (Eh : session_step exact s (Request Header 0 [class; type] al) =
    Ok (Session class type [] (s_rc s) (s_cache s), Accepted)) by (destruct exact; reflexivity).
  rewrite Eh. cbn [mbind res_bind].
  rewrite bodies_staged by exact H. cbn [run_requests s_class s_type s_staged s_rc s_cache app].
  unfold session_step. cbn [r_off r_attr r_val r_allocs Z.eqb negb s_class s_type s_staged
    s_rc s_cache].
  destruct (ifw_install_policy _ _ _ _ _ _ _) as [[m' rc]| |]; try done.
  cbn [mbind res_bind]. do 2 f_equal. cbn [replicate]. f_equal.
  now rewrite (replicate_cons_app (length chunks)).
Qed.

Lemma accepted_codes (rs : list nimble_request) n :
  Forall (fun c => c = 0) (zip_with (fun _ a => nimble_code a) rs (replicate n Accepted)).
Proof. revert n. induction rs; intros [|n]; cbn; auto. Qed.

(** A read of the status characteristic appends the last code, if there is room. *)
Lemma status_read st al m0 space databuf avail :
  m0 <> [] -> (4 <= space + databuf * avail)%nat ->
  exists m1, firewall_patch_access st al firewall_patch_status_uuid
      (AccessRead (Some m0) space databuf avail) = Ok (st, Some m1, 0) /\
    concat m1 = concat m0 ++ le_bytes 4 (last_install_rc st).
Proof.
  intros Hm Hroom. unfold firewall_patch_access.
  change (ble_uuid_cmp firewall_patch_status_uuid firewall_patch_status_uuid =? 0) with true.
  cbv iota. unfold firewall_patch_handle_status_read.
  destruct (append_flat m0 space databuf avail (le_bytes 4 (last_install_rc st)) Hm)
    as (m1 & rc & k & -> & Hc & _ & Hk & Hrc).
  assert (rc = 0) as -> by (apply Hrc; rewrite length_le_bytes; exact Hroom).
  exists m1. split; [reflexivity|]. rewrite Hc, (proj1 Hk eq_refl), take_ge; done.
Qed.

(** ** Properties *)

(** C8 — The Zephyr patch service implements the protocol on every sequence of
    writes, with any offsets, lengths and interleavings: it returns exactly when
    the protocol does, with the code of each reply, and its buffer then holds the
    staged bytes; the buffer is never written outside of its 256 bytes. *)
Theorem zephyr_patch_refines m rs :
  same_outcome (fun '(st, cs) '(s, al) => stages st s /\ cs = zip_with zephyr_code rs al)
    (run_requests zephyr_step (patch_state0 m) rs)
    (run_requests (session_step true) (session0 m) rs).
Proof.
  rewrite <- (map_id rs) at 2. apply (run_refines _ _ _ (fun _ => True)).
  - intros st s r Hs _. now apply zephyr_step_refines.
  - apply stages0.
  - now apply Forall_true.
Qed.

(** C9 — The NimBLE patch service implements the protocol on every sequence of
    writes, however the values are fragmented, except that a header longer than
    two bytes is cut off and accepted. *)
Theorem nimble_patch_refines m rs :
  Forall (fun r => pkt_wf (n_om r)) rs ->
  same_outcome (fun '(st, cs) '(s, al) =>
      stages st s /\ cs = zip_with (fun _ a => nimble_code a) rs al)
    (run_requests nimble_step (patch_state0 m) rs)
    (run_requests (session_step false) (session0 m) (map flat_request rs)).
Proof.
  apply (run_refines _ _ _ (fun r => pkt_wf (n_om r))).
  - intros st s r. apply nimble_step_refines.
  - apply stages0.
Qed.

(** C7 — A policy of at most 256 bytes that a peer writes to the Zephyr service in
    any chunks, between a header and a commit, is installed exactly as if
    [ifw_install_policy] had been called with it. This holds in every state of the
    service: after any earlier transfers, and with any bytes left in the staging buffer
    by one that was not committed. Every write is accepted, the cache is the one that
    call leaves, the status characteristic reads the code that call returned, and
    nothing is left staged. *)
Theorem zephyr_patch_transfer st class type chunks al :
  patch_wf st -> Z.of_nat (length (concat chunks)) <= BSWAT_STAGING_MAX ->
  same_outcome (fun '(st', cs) '(m', rc) =>
      patch_wf st' /\ staging_len st' = 0 /\
      patch_cache st' = m' /\ read_status st' 4 0 = Ok (le_bytes 4 rc, 4) /\
      cs = [2] ++ map (fun v => Z.of_nat (length v)) chunks ++ [1])
    (run_requests zephyr_step st (transfer class type chunks al))
    (ifw_install_policy (patch_cache st) (copy_ok al) (node_ok al) class type
       (Some (concat chunks)) (Z.of_nat (length (concat chunks)))).
Proof.
  intros Hst H. pose proof (run_refines zephyr_step true (fun r => r) (fun _ => True) zephyr_code
    st (session_of st) (transfer class type chunks al)) as Hr.
  rewrite map_id, session_transfer in Hr by done. specialize (Hr ltac:(intros; now
    apply zephyr_step_refines) (stages_of st Hst) ltac:(now apply Forall_true)).
  cbn [session_of s_cache] in Hr. destruct (run_requests _ _ _) as [[st' cs]| |],
    (ifw_install_policy _ _ _ _ _ _ _) as [[m' rc]| |]; cbn in Hr |- *; try done.
  destruct Hr as [Hs ->]. split; [exact (stages_wf _ _ Hs)|].
  destruct Hs as (_ & En & _ & _ & _ & _ & Erc & Em). split; [exact En|]. split; [done|].
  unfold read_status. rewrite Erc. split; [reflexivity|]. f_equal. clear.
  induction chunks as [|v chunks IH]; [reflexivity|]. cbn. f_equal. exact IH.
Qed.

(** The state after a transfer over NimBLE. *)
Lemma nimble_transferred st class type chunks al rs :
  patch_wf st -> Z.of_nat (length (concat chunks)) <= BSWAT_STAGING_MAX ->
  Forall (fun r => pkt_wf (n_om r)) rs ->
  map flat_request rs = transfer class type chunks al ->
  same_outcome (fun '(st', cs) '(m', rc) =>
      (patch_wf st' /\ staging_len st' = 0) /\
      patch_cache st' = m' /\ last_install_rc st' = rc /\ Forall (fun c => c = 0) cs)
    (run_requests nimble_step st rs)
    (ifw_install_policy (patch_cache st) (copy_ok al) (node_ok al) class type
       (Some (concat chunks)) (Z.of_nat (length (concat chunks)))).
Proof.
  intros Hst H Hwf Hrs. pose proof (run_refines nimble_step false flat_request
    (fun r => pkt_wf (n_om r)) (fun _ a => nimble_code a) st (session_of st) rs) as Hr.
  rewrite Hrs, session_transfer in Hr by done. specialize (Hr ltac:(intros; now
    apply nimble_step_refines) (stages_of st Hst) Hwf).
  cbn [session_of s_cache] in Hr. destruct (run_requests _ _ _) as [[st' cs]| |],
    (ifw_install_policy _ _ _ _ _ _ _) as [[m' rc]| |]; cbn in Hr |- *; try done.
  destruct Hr as [Hs ->]. pose proof (stages_wf _ _ Hs).
  destruct Hs as (_ & En & _ & _ & _ & _ & Erc & Em). split; [done|]. split; [done|].
  split; [exact Erc|]. exact (accepted_codes rs (S (S (length chunks)))).
Qed.

(** C10 — The same for the NimBLE service, in every state of the service and for every
    fragmentation of the writes: every access returns 0, the cache is the one that
    [ifw_install_policy] leaves, a read of the status characteristic with room for four
    bytes appends the code it returned, and nothing is left staged. *)
Theorem nimble_patch_transfer st class type chunks al rs :
  patch_wf st -> Z.of_nat (length (concat chunks)) <= BSWAT_STAGING_MAX ->
  Forall (fun r => pkt_wf (n_om r)) rs ->
  map flat_request rs = transfer class type chunks al ->
  same_outcome (fun '(st', cs) '(m', rc) =>
      (patch_wf st' /\ staging_len st' = 0) /\
      patch_cache st' = m' /\ Forall (fun c => c = 0) cs /\
      forall m0 space databuf avail, m0 <> [] -> (4 <= space + databuf * avail)%nat ->
        exists m1, firewall_patch_access st' al firewall_patch_status_uuid
            (AccessRead (Some m0) space databuf avail) = Ok (st', Some m1, 0) /\
          concat m1 = concat m0 ++ le_bytes 4 rc)
    (run_requests nimble_step st rs)
    (ifw_install_policy (patch_cache st) (copy_ok al) (node_ok al) class type
       (Some (concat chunks)) (Z.of_nat (length (concat chunks)))).
Proof.
  intros Hst H Hwf Hrs. pose proof (nimble_transferred st class type chunks al rs Hst H Hwf Hrs) as Hr.
  destruct (run_requests _ _ _) as [[st' cs]| |],
    (ifw_install_policy _ _ _ _ _ _ _) as [[m' rc]| |]; cbn in Hr |- *; try done.
  destruct Hr as (Hw & Em & Erc & Hcs). split; [done|]. split; [done|]. split; [done|].
  intros m0 space databuf avail. rewrite <- Erc. apply (status_read st' al).
Qed.
End Service.
