(* ===== verification/GattSvr.v ===== *)
(** * The services of the peripheral application

    [apps/bleprph/src/gatt_svr.c]: the security test service and the service that is
    named after the update of policies, on packets in the heap. *)
From stdpp Require Import base tactics numbers list gmap.
From Stdlib Require Import ZArith Lia.
From S2P Require Import Prelude Mempool Mbuf Patch MbufHeap MbufEdit MbufLogic MbufChain MbufTrim MbufPacket MbufProps.
Local Open Scope Z_scope.
Local Open Scope bits_scope.

(** ** The table *)
Definition gatt_svr_svc_sec_test_uuid : list Z :=
  [0x2d; 0x71; 0xa2; 0x59; 0xb4; 0x58; 0xc8; 0x12; 0x99; 0x99; 0x43; 0x95; 0x12; 0x2f; 0x46; 0x59].
Definition gatt_svr_chr_sec_test_rand_uuid : list Z :=
  [0xf6; 0x6d; 0xc9; 0x07; 0x71; 0x00; 0x16; 0xb0; 0xe1; 0x45; 0x7e; 0x89; 0x9e; 0x65; 0x3a; 0x5c].
Definition gatt_svr_chr_sec_test_static_uuid : list Z :=
  [0xf7; 0x6d; 0xc9; 0x07; 0x71; 0x00; 0x16; 0xb0; 0xe1; 0x45; 0x7e; 0x89; 0x9e; 0x65; 0x3a; 0x5c].
Definition gatt_svr_svc_ifw_policy_update_uuid : list Z :=
  [0x2d; 0x71; 0xa2; 0x59; 0xb4; 0x58; 0xc8; 0x12; 0x99; 0x99; 0x43; 0x95; 0x12; 0x2f; 0x46; 0x60].
Definition gatt_svr_chr_ifw_policy_update_uuid : list Z :=
  [0xf6; 0x6d; 0xc9; 0x07; 0x71; 0x00; 0x16; 0xb0; 0xe1; 0x45; 0x7e; 0x89; 0x9e; 0x65; 0x3a; 0x60].

Abbreviation BLE_GATT_CHR_F_READ := 0x0002 (only parsing).
Abbreviation BLE_GATT_CHR_F_WRITE := 0x0008 (only parsing).
Abbreviation BLE_GATT_CHR_F_READ_ENC := 0x0200 (only parsing).
Abbreviation BLE_GATT_CHR_F_WRITE_ENC := 0x1000 (only parsing).
Abbreviation BLE_GATT_ACCESS_OP_READ_CHR := 0 (only parsing).
Abbreviation BLE_GATT_ACCESS_OP_WRITE_CHR := 1 (only parsing).

(** [access_cb] *)
Inductive chr_cb := SecTest | PolicyUpdate.

Record ble_gatt_chr_def := ChrDef { chr_uuid : list Z; access_cb : chr_cb; chr_flags : Z }.

(** The services: their UUIDs and characteristics. *)
Definition gatt_svr_svcs : list (list Z * list ble_gatt_chr_def) :=
  [(gatt_svr_svc_sec_test_uuid,
    [ChrDef gatt_svr_chr_sec_test_rand_uuid SecTest (BLE_GATT_CHR_F_READ .| BLE_GATT_CHR_F_READ_ENC);
     ChrDef gatt_svr_chr_sec_test_static_uuid SecTest
       (BLE_GATT_CHR_F_READ .| BLE_GATT_CHR_F_WRITE .| BLE_GATT_CHR_F_WRITE_ENC)]);
   (gatt_svr_svc_ifw_policy_update_uuid,
    [ChrDef gatt_svr_chr_ifw_policy_update_uuid PolicyUpdate
       (BLE_GATT_CHR_F_READ .| BLE_GATT_CHR_F_READ_ENC .| BLE_GATT_CHR_F_WRITE .| BLE_GATT_CHR_F_WRITE_ENC)])].

(** ** The handlers *)

(** What is copied to the destination, and the return code. *)
Definition gatt_svr_chr_write (om min_len max_len : Z) : M (list Z * Z) :=
  om_len ← pktlen om;
  if (om_len <? min_len) || (max_len <? om_len) then mret ([], BLE_ATT_ERR_INVALID_ATTR_VALUE_LEN)
  else
    '(bs, rc, _) ← MbufEdit.ble_hs_mbuf_to_flat om max_len;
    if negb (rc =? 0) then mret (bs, BLE_ATT_ERR_UNLIKELY) else mret (bs, 0).

(** The accesses to [gatt_svr_sec_test_static_val]: its value afterwards and the return
    code. A failed assertion is a fault. *)
Definition read_static (om v : Z) : M (Z * Z) :=
  rc ← MbufHeap.os_mbuf_append om [v];
  mret (v, if rc =? 0 then 0 else BLE_ATT_ERR_INSUFFICIENT_RES).

Definition write_static (om v : Z) : M (Z * Z) :=
  '(bs, rc) ← gatt_svr_chr_write om 1 1;
  mret (default v (head bs), rc).

Definition gatt_svr_chr_ifw_policy_update (uuid : list Z) (op om v : Z) : M (Z * Z) :=
  if ble_uuid_cmp uuid gatt_svr_chr_ifw_policy_update_uuid =? 0 then
    if op =? BLE_GATT_ACCESS_OP_READ_CHR then read_static om v
    else if op =? BLE_GATT_ACCESS_OP_WRITE_CHR then write_static om v
    else lift (Crash AssertFail)
  else lift (Crash AssertFail).

(** [rand_num] is what [rand] returns. *)
Definition gatt_svr_chr_access_sec_test (uuid : list Z) (op om rand_num v : Z) : M (Z * Z) :=
  if ble_uuid_cmp uuid gatt_svr_chr_sec_test_rand_uuid =? 0 then
    if op =? BLE_GATT_ACCESS_OP_READ_CHR then
      rc ← MbufHeap.os_mbuf_append om (le_bytes 4 rand_num);
      mret (v, if rc =? 0 then 0 else BLE_ATT_ERR_INSUFFICIENT_RES)
    else lift (Crash AssertFail)
  else if ble_uuid_cmp uuid gatt_svr_chr_sec_test_static_uuid =? 0 then
    if op =? BLE_GATT_ACCESS_OP_READ_CHR then read_static om v
    else if op =? BLE_GATT_ACCESS_OP_WRITE_CHR then write_static om v
    else lift (Crash AssertFail)
  else lift (Crash AssertFail).

(** The stack calls the callback of a characteristic of the table, for reads and writes
    that its flags allow. *)
Definition chr_access (c : ble_gatt_chr_def) (op om rand_num v : Z) : M (Z * Z) :=
  match access_cb c with
  | SecTest => gatt_svr_chr_access_sec_test (chr_uuid c) op om rand_num v
  | PolicyUpdate => gatt_svr_chr_ifw_policy_update (chr_uuid c) op om v
  end.

Definition allowed (c : ble_gatt_chr_def) (op : Z) : bool :=
  ((op =? BLE_GATT_ACCESS_OP_READ_CHR) && negb (chr_flags c .& BLE_GATT_CHR_F_READ =? 0)) ||
  ((op =? BLE_GATT_ACCESS_OP_WRITE_CHR) && negb (chr_flags c .& BLE_GATT_CHR_F_WRITE =? 0)).

(** ** What they do to packets *)
Section Packets.
  Context {CF : MempoolConf} (geo : gmap Z (Z * list Z)) (i n : Z) (bl : list Z).
  Context (Hi : geo !! i = Some (n, bl)).
  Local Abbreviation rep := (rep geo i) (only parsing).

Lemma write_static_spec s ps ds k p d v :
  rep s ps ds -> ps !! k = Some p -> ds !! k = Some d -> Z.of_nat (length d) < 2 ^ 16 ->
  write_static p v s =
  Ok (match d with [b] => (b, 0) | _ => (v, BLE_ATT_ERR_INVALID_ATTR_VALUE_LEN) end, s).
Proof.
  intros H Hk Hd Hlen. destruct (rep_focus geo i s ps ds k p H Hk) as (l & F & Hf). rewrite (fo_data _ _ _ _ _ _ _ _ _ Hf) in Hd.
  injection Hd as <-. pose proof (fo_own _ _ _ _ _ _ _ _ _ Hf) as Ho. destruct (fo_pkt _ _ _ _ _ _ _ _ _ Hf) as [Hs Hn Hsy [[h r] Hh] _].
  unfold synced in Hsy. rewrite Hh, u16_small in Hsy by lia.
  unfold write_static, gatt_svr_chr_write. unfold mbind, M_bind. rewrite (pktlen_reads geo s p l F h r Ho Hs Hh).
  destruct (data l) as [|b [|b' d]] eqn:E.
  - replace h with 0 by (cbn in Hsy; lia). done.
  - replace h with 1 by (cbn in Hsy; lia). change ((1 <? 1) || (1 <? 1)) with false. cbv iota beta.
    rewrite (to_flat_spec geo s p l F h r 1 Ho Hs Hh) by lia. rewrite to_flat_truncates; [|split; cbn [omp_len om_frags]|lia].
    + cbn [om_frags]. fold (data l). rewrite E. done.
    + fold (data l). rewrite E. exact Hsy.
    + lia.
  - destruct (Z.ltb_spec h 1); [cbn [length] in Hsy; lia|]. destruct (Z.ltb_spec 1 h); [|cbn [length] in Hsy; lia]. done.
Qed.

(** An append of the host to a response. *)
Lemma append_response s ps ds k p d x v :
  rep s ps ds -> ps !! k = Some p -> ds !! k = Some d -> Z.of_nat (length x) < 2 ^ 16 ->
  exists rc s' m,
    (rc ← MbufHeap.os_mbuf_append p x; mret (v, if rc =? 0 then 0 else BLE_ATT_ERR_INSUFFICIENT_RES)) s =
      Ok ((v, rc) : Z * Z, s') /\
    rep s' ps (<[k := d ++ take m x]> ds) /\
    (rc = 0 /\ m = length x \/ rc = BLE_ATT_ERR_INSUFFICIENT_RES /\ (m < length x)%nat).
Proof.
  intros H Hk Hd Hx.
  destruct (mstep_spec geo i n bl Hi s ps ds (Append k x) H Hx) as ([[ps1 rc] bs] & s1 & E & ds1 & H1 & Hs). cbn [fst snd] in *.
  unfold mstep, on in E. rewrite Hk in E. unfold mbind, M_bind in *. destruct (MbufHeap.os_mbuf_append p x s) as [[rc0 s2]| |]; [|done..].
  cbn in E. injection E as <- <- <- <-. cbn [spec] in Hs. unfold on_str in Hs. rewrite Hd in Hs. destruct Hs as (m & -> & Hm & Hrc & _).
  exists (if rc0 =? 0 then 0 else BLE_ATT_ERR_INSUFFICIENT_RES), s2, m. split; [done|]. split; [done|].
  destruct (Z.eqb_spec rc0 0) as [E0|E0]; [left; split; [done|now apply Hrc]|right]. split; [done|].
  assert (m <> length x) by (intros Em; apply E0; now apply Hrc). lia.
Qed.
End Packets.

(** C27 — The handlers of the peripheral application. On every access that the flags of
    a characteristic of the table allow, to a packet of less than 64 kB, the callback
    returns without a failed assertion. A write of exactly one byte sets the
    static value, a write of any other length is refused and sets nothing; a read
    appends the static value, or four random bytes, to the response, or reports that
    there is no memory for it. The characteristic for the update of policies is no different:
    its callback reads and writes the byte of the security test service. *)
Theorem gatt_svr_access geo i n bl s ps ds k p d svc cs c op rand_num v :
  geo !! i = Some (n, bl) -> rep geo i s ps ds -> ps !! k = Some p -> ds !! k = Some d -> Z.of_nat (length d) < 2 ^ 16 ->
  (svc, cs) ∈ gatt_svr_svcs -> c ∈ cs -> allowed c op = true ->
  exists rc s' v', chr_access c op p rand_num v s = Ok ((v', rc), s') /\
    if op =? BLE_GATT_ACCESS_OP_WRITE_CHR
    then s' = s /\ (v', rc) = match d with [b] => (b, 0) | _ => (v, BLE_ATT_ERR_INVALID_ATTR_VALUE_LEN) end
    else v' = v /\ exists m,
      let x := if decide (chr_uuid c = gatt_svr_chr_sec_test_rand_uuid) then le_bytes 4 rand_num else [v] in
      rep geo i s' ps (<[k := d ++ take m x]> ds) /\
      (rc = 0 /\ m = length x \/ rc = BLE_ATT_ERR_INSUFFICIENT_RES /\ (m < length x)%nat).
Proof.
  intros Hi H Hk Hd Hlen Hsvc Hc Hop.
  assert (Hcase : c ∈ concat (map snd gatt_svr_svcs)).
  { apply list_elem_of_In, in_concat. exists cs. split; [|now apply list_elem_of_In]. apply in_map_iff. exists (svc, cs). split; [done|now apply list_elem_of_In]. }
  unfold gatt_svr_svcs in Hcase. cbn [map concat snd app] in Hcase. clear Hsvc Hc.
  assert (Hop2 : op = 0 \/ op = 1).
  { unfold allowed in Hop. destruct (Z.eqb_spec op 0); [auto|]. destruct (Z.eqb_spec op 1); [auto|done]. }
  pose proof (write_static_spec (CF := demo_conf) geo i s ps ds k p d v H Hk Hd Hlen) as Hw.
  destruct (append_response (CF := demo_conf) geo i n bl Hi s ps ds k p d [v] v H Hk Hd ltac:(cbn; lia)) as (rc & s1 & m & Er & Hr).
  destruct (append_response (CF := demo_conf) geo i n bl Hi s ps ds k p d (le_bytes 4 rand_num) v H Hk Hd) as (rc4 & s4 & m4 & Er4 & Hr4);
    [rewrite length_le_bytes; lia|].
  repeat (apply elem_of_cons in Hcase as [-> |Hcase]); [..|now apply not_elem_of_nil in Hcase]; destruct Hop2 as [-> | ->];
    cbn [Z.eqb]; unfold chr_access; cbn [access_cb chr_uuid].
  - exists rc4, s4, v. split; [exact Er4|]. split; [done|]. exists m4. exact Hr4.
  - done.
  - exists rc, s1, v. split; [exact Er|]. split; [done|]. exists m. exact Hr.
  - destruct d as [|b [|b' d]]; eexists _, s, _; (split; [exact Hw|done]).
  - exists rc, s1, v. split; [exact Er|]. split; [done|]. exists m. exact Hr.
  - destruct d as [|b [|b' d]]; eexists _, s, _; (split; [exact Hw|done]).
Qed.

(** A policy of twenty bytes is refused; a read answers with the static value. *)
Lemma gatt_svr_access_witness :
  exists c s s', demo_heap = Ok ([0x1050; 0x1000], s) /\ access_cb c = PolicyUpdate /\
    chr_access c BLE_GATT_ACCESS_OP_WRITE_CHR 0x1000 0 7 s = Ok ((7, BLE_ATT_ERR_INVALID_ATTR_VALUE_LEN), s) /\
    chr_access c BLE_GATT_ACCESS_OP_READ_CHR 0x1050 0 7 s = Ok ((7, 0), s').
Proof.
  set (c := ChrDef gatt_svr_chr_ifw_policy_update_uuid PolicyUpdate 0x120a).
  assert (Hin : ((gatt_svr_svc_ifw_policy_update_uuid, [c]) : list Z * list ble_gatt_chr_def) ∈ gatt_svr_svcs) by (right; left).
  assert (Hc : c ∈ [c]) by left.
  destruct demo_rep as (s & Es & Hr).
  destruct (gatt_svr_access demo_geo 1 _ _ s _ _ 1 0x1000 _ _ _ c 1 0 7 (lookup_singleton_eq _ _) Hr eq_refl eq_refl
    ltac:(vm_compute; reflexivity) Hin Hc eq_refl) as (rc & s1 & v & E & Hw).
  destruct (gatt_svr_access demo_geo 1 _ _ s _ _ 0 0x1050 _ _ _ c 0 0 7 (lookup_singleton_eq _ _) Hr eq_refl eq_refl
    ltac:(vm_compute; reflexivity) Hin Hc eq_refl) as (rc2 & s2 & v2 & E2 & Hv2 & _).
  destruct Hw as [-> Hw]. injection Hw as -> ->.
  assert (Ev : match demo_heap with
    Ok (_, s) => match chr_access c 0 0x1050 0 7 s with Ok (p, _) => Some p | _ => None end
    | _ => None end = Some (7, 0)) by (vm_compute; reflexivity).
  rewrite Es, E2 in Ev. injection Ev as -> ->.
  exists c, s, s2. split; [exact Es|]. split; [reflexivity|]. split; [exact E|exact E2].
Defined.
