(* ===== verification/ZephyrFsm.v ===== *)
(** * The monitor of the Zephyr port

    [ZephyrOS/zephyr/firewall/include/fsm_core.h] (the slots of this port) and
    [firewall/core/fsm_core.c]: the canonical state [curFSMState], the staging
    state [newFSMState] that the policies read, the functions that write them and
    [ifw_run_verifier]. The range checks of [fsm_core.c] are commented out in the
    source, so an index outside of its array is a fault here. *)
From stdpp Require Import base tactics numbers list.
From Stdlib Require Import ZArith Lia.
From S2P Require Import Prelude Inst VM VMFacts Verifier Fsm PolicyCache.
Local Open Scope Z_scope.

(** ** Slots *)
Inductive IFW_SHARED_STATE := BD_ADDR | BONDING | SC | IFW_SHARED_STATE_NUM.

Definition shared_val (t : IFW_SHARED_STATE) : Z :=
  match t with BD_ADDR => 0 | BONDING => 1 | SC => 2 | IFW_SHARED_STATE_NUM => 3 end.

Inductive IFW_CONN_PARAM :=
| CHANNEL_MAP | CHANNEL_HOP | SCAN_RSP_LEN | LLL_INTERVAL | IFW_CONN_PARAM_NUM.

Definition conn_val (t : IFW_CONN_PARAM) : Z :=
  match t with
  | CHANNEL_MAP => 0 | CHANNEL_HOP => 1 | SCAN_RSP_LEN => 2 | LLL_INTERVAL => 3
  | IFW_CONN_PARAM_NUM => 4
  end.

Inductive IFW_DC_PARAM :=
| SN | NESN
| LLCP_LEN_REQ | LLCP_LEN_ACK | LLCP_LEN_RSP_TX | LLCP_LEN_STATE
| LLCP_CONN_PARAM_REQ | LLCP_CONN_PARAM_ACK | LLCP_CONN_PARAM_STATE
| SMP_ENC_SIZE_PREV | SMP_METHOD_PREV | SMP_KEYS | SMP_ENC_SIZE | SMP_KEYS_FLAGS
| DC_ANCHOR_STATE
| IFW_DC_PARAM_LAST.                   (* the source's IFW_DC_PARAM_NUM *)

Definition dc_val (t : IFW_DC_PARAM) : Z :=
  match t with
  | SN => 0 | NESN => 1
  | LLCP_LEN_REQ => 2 | LLCP_LEN_ACK => 3 | LLCP_LEN_RSP_TX => 4 | LLCP_LEN_STATE => 5
  | LLCP_CONN_PARAM_REQ => 6 | LLCP_CONN_PARAM_ACK => 7 | LLCP_CONN_PARAM_STATE => 8
  | SMP_ENC_SIZE_PREV => 9 | SMP_METHOD_PREV => 10 | SMP_KEYS => 11 | SMP_ENC_SIZE => 12
  | SMP_KEYS_FLAGS => 13 | DC_ANCHOR_STATE => 14
  | IFW_DC_PARAM_LAST => 15
  end.

#[export] Instance zephyr_layout : FsmLayout := {
  n_core := Z.to_nat (core_val IFW_CORE_STATE_NUM);
  n_shared := Z.to_nat (shared_val IFW_SHARED_STATE_NUM);
  n_conn := Z.to_nat (conn_val IFW_CONN_PARAM_NUM);
  n_dc := Z.to_nat (dc_val IFW_DC_PARAM_LAST);
  n_spi := Z.to_nat (spi_val IFW_SPI_PARAM_NUM);
  n_hci := Z.to_nat (hci_val IFW_HCI_PARAM_NUM);
}.

(** ** Policy ids *)
Inductive fsm_policy_tag :=
| PID_conn_chan_map | PID_conn_chan_hop | PID_lll_interval
| PID_dc_nesn | PID_llcp_len_req | PID_llcp_conn_param_req
| PID_scan_rsp_len | PID_smp_ident_check
| PID_LAST.                            (* the source's PID_NUM *)

Definition pid_val (t : fsm_policy_tag) : Z :=
  match t with
  | PID_conn_chan_map => 0 | PID_conn_chan_hop => 1 | PID_lll_interval => 2
  | PID_dc_nesn => 3 | PID_llcp_len_req => 4 | PID_llcp_conn_param_req => 5
  | PID_scan_rsp_len => 6 | PID_smp_ident_check => 7 | PID_LAST => 8
  end.

#[export] Instance zephyr_port : PolicyPort := {
  port_layout := zephyr_layout;
  PID_NUM := pid_val PID_LAST;
  malloc_checked := false;
}.

Abbreviation IFW_UPDATE_SUCCESS := 0 (only parsing).
Abbreviation IFW_UPDATE_ERROR := 1 (only parsing).

(** ** The monitor *)
Record monitor := Monitor {
  curFSMState : FsmState;
  newFSMState : FsmState;
  fsm_new_init : bool;
  cache : policy_state;
}.

(** The static objects before any code runs. *)
Definition zero_fsm : FsmState :=
  FsmStateC (replicate n_core 0) (replicate n_shared 0) (replicate n_conn 0)
    (replicate n_dc 0) (replicate n_spi 0) (replicate n_hci 0).

Definition monitor0 : monitor := Monitor zero_fsm zero_fsm false policy_state0.

(** The loops assign each element of the six arrays. *)
Definition ifw_fsm_init (st : monitor) : monitor :=
  Monitor (FsmStateC ifw_core_state_num (replicate n_shared 0) (replicate n_conn 0)
             (replicate n_dc 0) (replicate n_spi 0) (replicate n_hci 0))
    (newFSMState st) (fsm_new_init st) (cache st).

(** The parameters are [uint16_t]: the arguments are truncated at the call. *)
Definition ifw_fsm_state_update (st : monitor) (state type class : Z) : res (monitor * Z) :=
  let '(state, type, class) := (u16 state, u16 type, u16 class) in
  match class_of class with
  | None => Ok (st, IFW_UPDATE_ERROR)
  | Some c =>
      cur ← set_slot c type state (curFSMState st);
      Ok (Monitor cur (newFSMState st) false (cache st), IFW_UPDATE_SUCCESS)
  end.

(** The staging state is refreshed only when [fsm_new_init] is set. *)
Definition ifw_fsm_check_update (st : monitor) (state type class : Z) : res (monitor * Z) :=
  let '(state, type, class) := (u16 state, u16 type, u16 class) in
  let st := if fsm_new_init st
            then Monitor (curFSMState st) (curFSMState st) true (cache st) else st in
  match class_of class with
  | None => Ok (st, IFW_UPDATE_ERROR)
  | Some c =>
      new ← set_slot c type state (newFSMState st);
      Ok (Monitor (curFSMState st) new (fsm_new_init st) (cache st), IFW_UPDATE_SUCCESS)
  end.

(** The policies run on [newFSMState] in place. [ok]: the interpreter's machine,
    when it has to be created, was allocated. *)
Definition ifw_run_verifier (E : exec_env) (ok : bool) (st : monitor) (type class : Z)
    : res (monitor * Z) :=
  '(m, r, bs) ← run_fsm_check_policy E ok (cache st) (u16 type) (u16 class)
                  (fsm_bytes (newFSMState st));
  let st := Monitor (curFSMState st) (fsm_of_bytes bs) false m in
  if r =? IFW_OPERATION_REJECT
  then Ok (st, IFW_OPERATION_REJECT)
  else Ok (st, IFW_OPERATION_PASS).

(** The macros [IFW_FSM_CHECK_UPDATE], whose result the callers of this port
    drop, and [IFW_RUN_VERIFIER]. *)
Definition IFW_FSM_CHECK_UPDATE (st : monitor) (state type class : Z) : res monitor :=
  '(st, _) ← ifw_fsm_check_update st state type class; Ok st.

Definition IFW_RUN_VERIFIER (E : exec_env) (ok : bool) (st : monitor) (type class : Z)
    : res (monitor * bool) :=
  '(st, r) ← ifw_run_verifier E ok st type class; Ok (st, r =? IFW_OPERATION_REJECT).

Lemma zero_fsm_wf : fsm_wf zero_fsm.
Proof.
  split; [intros []; reflexivity|]. unfold fsm_words, zero_fsm. cbn [core_state shared_state
    conn_param dc_param spi_param hci_param].
  rewrite !Forall_app. repeat split; apply Forall_replicate; unfold is_int; lia.
Qed.
