(* ===== verification/ZephyrPolicies.v ===== *)
(** * The policies of the Zephyr port

    Each policy twice: its C source ([firewall/policy/ebpf_C_code/*.ebpf.c]) as a
    function of the state, and the bytecode that is compiled in
    ([firewall/policy/ebpf_bytecode/*.h]) as bytes, with the final NUL of the
    string literal. The theorem of this file is that the interpreter computes, on
    the bytecode and for every state, what the C source says. *)
From stdpp Require Import base tactics numbers list.
From Stdlib Require Import ZArith Lia.
From S2P Require Import Prelude Inst VM VMFacts Verifier Fsm PolicyCache PolicyExec ZephyrFsm.
Local Open Scope Z_scope.

(** ** C sources *)
Definition conn_chan_map_filter (fsm : FsmState) : res Z :=
  m ← get_slot CONN (conn_val CHANNEL_MAP) fsm;
  if m <? 2 then Ok IFW_OPERATION_REJECT else Ok IFW_OPERATION_PASS.

Definition conn_chan_hop_filter (fsm : FsmState) : res Z :=
  h ← get_slot CONN (conn_val CHANNEL_HOP) fsm;
  if (h <? 5) || (16 <? h) then Ok IFW_OPERATION_REJECT else Ok IFW_OPERATION_PASS.

Definition lll_interval_filter (fsm : FsmState) : res Z :=
  i ← get_slot CONN (conn_val LLL_INTERVAL) fsm;
  if i =? 0 then Ok IFW_OPERATION_REJECT else Ok IFW_OPERATION_PASS.

Definition dc_nesn_filter (fsm : FsmState) : res Z :=
  a ← get_slot DC (dc_val DC_ANCHOR_STATE) fsm;
  if a =? 1 then
    n ← get_slot DC (dc_val NESN) fsm;
    if n =? 1 then
      s ← get_slot DC (dc_val SN) fsm;
      if s =? 1 then Ok IFW_OPERATION_REJECT else Ok IFW_OPERATION_PASS
    else Ok IFW_OPERATION_PASS
  else Ok IFW_OPERATION_PASS.

Definition llcp_len_req_filter (fsm : FsmState) : res Z :=
  n ← get_slot DC (dc_val LLCP_LEN_REQ) fsm;
  if 1 <? n then Ok IFW_OPERATION_REJECT else Ok IFW_OPERATION_PASS.

Definition llcp_conn_param_req_filter (fsm : FsmState) : res Z :=
  n ← get_slot DC (dc_val LLCP_CONN_PARAM_REQ) fsm;
  if 1 <? n then Ok IFW_OPERATION_REJECT else Ok IFW_OPERATION_PASS.

Definition PDU_AC_SIZE_MAX : Z := 80.

Definition scan_rsp_len_filter (fsm : FsmState) : res Z :=
  n ← get_slot CONN (conn_val SCAN_RSP_LEN) fsm;
  if PDU_AC_SIZE_MAX <? n then Ok IFW_OPERATION_REJECT else Ok IFW_OPERATION_PASS.

Definition BT_KEYS_LTK_P256 : Z := 32.
Definition BT_KEYS_LTK : Z := 4.
Definition BT_KEYS_AUTHENTICATED : Z := 1.
Definition JUST_WORKS : Z := 0.

Definition smp_ident_check_filter (fsm : FsmState) : res Z :=
  keys ← get_slot DC (dc_val SMP_KEYS) fsm;
  if Z.land keys (Z.lor BT_KEYS_LTK_P256 BT_KEYS_LTK) =? 0 then Ok IFW_OPERATION_PASS
  else
    sz ← get_slot DC (dc_val SMP_ENC_SIZE) fsm;
    prev ← get_slot DC (dc_val SMP_ENC_SIZE_PREV) fsm;
    if prev <? sz then Ok IFW_OPERATION_REJECT
    else
      flags ← get_slot DC (dc_val SMP_KEYS_FLAGS) fsm;
      method ← get_slot DC (dc_val SMP_METHOD_PREV) fsm;
      if negb (Z.land flags BT_KEYS_AUTHENTICATED =? 0) && (method =? JUST_WORKS)
      then Ok IFW_OPERATION_REJECT
      else Ok IFW_OPERATION_PASS.

Definition BT_BUF_RX_SIZE : Z := 76.

Definition spi_acl_len_filter (fsm : FsmState) : res Z :=
  n ← get_slot SPI (spi_val HCI_ACL_LEN) fsm;
  if BT_BUF_RX_SIZE <? n then Ok IFW_OPERATION_REJECT else Ok IFW_OPERATION_PASS.

Definition spi_evt_len_filter (fsm : FsmState) : res Z :=
  n ← get_slot SPI (spi_val HCI_EVT_LEN) fsm;
  if BT_BUF_RX_SIZE <? n then Ok IFW_OPERATION_REJECT else Ok IFW_OPERATION_PASS.

(** ** Bytecodes *)
Definition conn_chan_map : list Z :=
  [0x61; 0x11; 0x20; 0x00; 0x00; 0x00; 0x00; 0x00;
   0x67; 0x01; 0x00; 0x00; 0x20; 0x00; 0x00; 0x00;
   0xc7; 0x01; 0x00; 0x00; 0x20; 0x00; 0x00; 0x00;
   0xb7; 0x00; 0x00; 0x00; 0x01; 0x00; 0x00; 0x00;
   0xb7; 0x02; 0x00; 0x00; 0x02; 0x00; 0x00; 0x00;
   0x6d; 0x12; 0x01; 0x00; 0x00; 0x00; 0x00; 0x00;
   0xb7; 0x00; 0x00; 0x00; 0x00; 0x00; 0x00; 0x00;
   0x95; 0x00; 0x00; 0x00; 0x00; 0x00; 0x00; 0x00;
   0x00].

Definition conn_chan_hop : list Z :=
  [0x61; 0x11; 0x24; 0x00; 0x00; 0x00; 0x00; 0x00;
   0x07; 0x01; 0x00; 0x00; 0xfb; 0xff; 0xff; 0xff;
   0x67; 0x01; 0x00; 0x00; 0x20; 0x00; 0x00; 0x00;
   0x77; 0x01; 0x00; 0x00; 0x20; 0x00; 0x00; 0x00;
   0xb7; 0x00; 0x00; 0x00; 0x01; 0x00; 0x00; 0x00;
   0x25; 0x01; 0x01; 0x00; 0x0b; 0x00; 0x00; 0x00;
   0xb7; 0x00; 0x00; 0x00; 0x00; 0x00; 0x00; 0x00;
   0x95; 0x00; 0x00; 0x00; 0x00; 0x00; 0x00; 0x00;
   0x00].

Definition lll_interval : list Z :=
  [0x61; 0x11; 0x2c; 0x00; 0x00; 0x00; 0x00; 0x00;
   0xb7; 0x00; 0x00; 0x00; 0x01; 0x00; 0x00; 0x00;
   0x15; 0x01; 0x01; 0x00; 0x00; 0x00; 0x00; 0x00;
   0xb7; 0x00; 0x00; 0x00; 0x00; 0x00; 0x00; 0x00;
   0x95; 0x00; 0x00; 0x00; 0x00; 0x00; 0x00; 0x00;
   0x00].

Definition dc_nesn : list Z :=
  [0x61; 0x12; 0x68; 0x00; 0x00; 0x00; 0x00; 0x00;
   0x55; 0x02; 0x05; 0x00; 0x01; 0x00; 0x00; 0x00;
   0x61; 0x12; 0x34; 0x00; 0x00; 0x00; 0x00; 0x00;
   0x55; 0x02; 0x03; 0x00; 0x01; 0x00; 0x00; 0x00;
   0xb7; 0x00; 0x00; 0x00; 0x01; 0x00; 0x00; 0x00;
   0x61; 0x11; 0x30; 0x00; 0x00; 0x00; 0x00; 0x00;
   0x15; 0x01; 0x01; 0x00; 0x01; 0x00; 0x00; 0x00;
   0xb7; 0x00; 0x00; 0x00; 0x00; 0x00; 0x00; 0x00;
   0x95; 0x00; 0x00; 0x00; 0x00; 0x00; 0x00; 0x00;
   0x00].

Definition llcp_len_req : list Z :=
  [0x61; 0x11; 0x38; 0x00; 0x00; 0x00; 0x00; 0x00;
   0x67; 0x01; 0x00; 0x00; 0x20; 0x00; 0x00; 0x00;
   0xc7; 0x01; 0x00; 0x00; 0x20; 0x00; 0x00; 0x00;
   0xb7; 0x00; 0x00; 0x00; 0x01; 0x00; 0x00; 0x00;
   0x65; 0x01; 0x01; 0x00; 0x01; 0x00; 0x00; 0x00;
   0xb7; 0x00; 0x00; 0x00; 0x00; 0x00; 0x00; 0x00;
   0x95; 0x00; 0x00; 0x00; 0x00; 0x00; 0x00; 0x00;
   0x00].

Definition llcp_conn_param_req : list Z :=
  [0x61; 0x11; 0x48; 0x00; 0x00; 0x00; 0x00; 0x00;
   0x67; 0x01; 0x00; 0x00; 0x20; 0x00; 0x00; 0x00;
   0xc7; 0x01; 0x00; 0x00; 0x20; 0x00; 0x00; 0x00;
   0xb7; 0x00; 0x00; 0x00; 0x01; 0x00; 0x00; 0x00;
   0x65; 0x01; 0x01; 0x00; 0x01; 0x00; 0x00; 0x00;
   0xb7; 0x00; 0x00; 0x00; 0x00; 0x00; 0x00; 0x00;
   0x95; 0x00; 0x00; 0x00; 0x00; 0x00; 0x00; 0x00;
   0x00].

Definition scan_rsp_len : list Z :=
  [0x61; 0x11; 0x28; 0x00; 0x00; 0x00; 0x00; 0x00;
   0x67; 0x01; 0x00; 0x00; 0x20; 0x00; 0x00; 0x00;
   0xc7; 0x01; 0x00; 0x00; 0x20; 0x00; 0x00; 0x00;
   0xb7; 0x00; 0x00; 0x00; 0x01; 0x00; 0x00; 0x00;
   0x65; 0x01; 0x01; 0x00; 0x50; 0x00; 0x00; 0x00;
   0xb7; 0x00; 0x00; 0x00; 0x00; 0x00; 0x00; 0x00;
   0x95; 0x00; 0x00; 0x00; 0x00; 0x00; 0x00; 0x00;
   0x00].

Definition smp_ident_check : list Z :=
  [0xb7; 0x00; 0x00; 0x00; 0x00; 0x00; 0x00; 0x00;
   0x61; 0x12; 0x5c; 0x00; 0x00; 0x00; 0x00; 0x00;
   0x57; 0x02; 0x00; 0x00; 0x24; 0x00; 0x00; 0x00;
   0x15; 0x02; 0x0e; 0x00; 0x00; 0x00; 0x00; 0x00;
   0xb7; 0x00; 0x00; 0x00; 0x01; 0x00; 0x00; 0x00;
   0x61; 0x12; 0x54; 0x00; 0x00; 0x00; 0x00; 0x00;
   0x67; 0x02; 0x00; 0x00; 0x20; 0x00; 0x00; 0x00;
   0xc7; 0x02; 0x00; 0x00; 0x20; 0x00; 0x00; 0x00;
   0x61; 0x13; 0x60; 0x00; 0x00; 0x00; 0x00; 0x00;
   0x67; 0x03; 0x00; 0x00; 0x20; 0x00; 0x00; 0x00;
   0xc7; 0x03; 0x00; 0x00; 0x20; 0x00; 0x00; 0x00;
   0x6d; 0x23; 0x06; 0x00; 0x00; 0x00; 0x00; 0x00;
   0x61; 0x12; 0x64; 0x00; 0x00; 0x00; 0x00; 0x00;
   0x57; 0x02; 0x00; 0x00; 0x01; 0x00; 0x00; 0x00;
   0x15; 0x02; 0x02; 0x00; 0x00; 0x00; 0x00; 0x00;
   0x61; 0x11; 0x58; 0x00; 0x00; 0x00; 0x00; 0x00;
   0x15; 0x01; 0x01; 0x00; 0x00; 0x00; 0x00; 0x00;
   0xb7; 0x00; 0x00; 0x00; 0x00; 0x00; 0x00; 0x00;
   0x95; 0x00; 0x00; 0x00; 0x00; 0x00; 0x00; 0x00;
   0x00].

Definition spi_acl_len : list Z :=
  [0x61; 0x11; 0x70; 0x00; 0x00; 0x00; 0x00; 0x00;
   0x67; 0x01; 0x00; 0x00; 0x20; 0x00; 0x00; 0x00;
   0xc7; 0x01; 0x00; 0x00; 0x20; 0x00; 0x00; 0x00;
   0xb7; 0x00; 0x00; 0x00; 0x01; 0x00; 0x00; 0x00;
   0x65; 0x01; 0x01; 0x00; 0x4c; 0x00; 0x00; 0x00;
   0xb7; 0x00; 0x00; 0x00; 0x00; 0x00; 0x00; 0x00;
   0x95; 0x00; 0x00; 0x00; 0x00; 0x00; 0x00; 0x00;
   0x00].

Definition spi_evt_len : list Z :=
  [0x61; 0x11; 0x6c; 0x00; 0x00; 0x00; 0x00; 0x00;
   0x67; 0x01; 0x00; 0x00; 0x20; 0x00; 0x00; 0x00;
   0xc7; 0x01; 0x00; 0x00; 0x20; 0x00; 0x00; 0x00;
   0xb7; 0x00; 0x00; 0x00; 0x01; 0x00; 0x00; 0x00;
   0x65; 0x01; 0x01; 0x00; 0x4c; 0x00; 0x00; 0x00;
   0xb7; 0x00; 0x00; 0x00; 0x00; 0x00; 0x00; 0x00;
   0x95; 0x00; 0x00; 0x00; 0x00; 0x00; 0x00; 0x00;
   0x00].

(** ** Registration *)

(** [oks k] is the outcome of the [k]-th allocation. *)
Definition load_all_policies (m : policy_state) (oks : nat -> bool) : res policy_state :=
  m ← ADD_POLICY m (oks 0%nat) (pid_val PID_conn_chan_map) conn_chan_map
        (class_val CONN) (conn_val CHANNEL_MAP);
  m ← ADD_POLICY m (oks 1%nat) (pid_val PID_conn_chan_hop) conn_chan_hop
        (class_val CONN) (conn_val CHANNEL_HOP);
  m ← ADD_POLICY m (oks 2%nat) (pid_val PID_lll_interval) lll_interval
        (class_val CONN) (conn_val LLL_INTERVAL);
  m ← ADD_POLICY m (oks 3%nat) (pid_val PID_dc_nesn) dc_nesn
        (class_val DC) (dc_val NESN);
  m ← ADD_POLICY m (oks 4%nat) (pid_val PID_llcp_len_req) llcp_len_req
        (class_val DC) (dc_val LLCP_LEN_REQ);
  m ← ADD_POLICY m (oks 5%nat) (pid_val PID_llcp_conn_param_req) llcp_conn_param_req
        (class_val DC) (dc_val LLCP_CONN_PARAM_REQ);
  m ← ADD_POLICY m (oks 6%nat) (pid_val PID_scan_rsp_len) scan_rsp_len
        (class_val CONN) (conn_val SCAN_RSP_LEN);
  ADD_POLICY m (oks 7%nat) (pid_val PID_smp_ident_check) smp_ident_check
    (class_val DC) (dc_val SMP_KEYS).

(** The MPU is switched off for native code; that has no effect on the model. *)
Definition ifw_fsm_enable (m : policy_state) (oks : nat -> bool) (jit : bool)
    : res policy_state :=
  m ← load_all_policies m oks;
  Ok (if jit then set_all_policy_jit_on m else m).

(** ** Translation validation *)

(** Runs the bytecode of [n] instructions and compares with the source, the slots
    it reads having been named. *)
Ltac validate f n :=
  unfold f; cbv [mbind res_bind conn_val dc_val spi_val];
  repeat match goal with H : get_slot _ _ _ = Ok _ |- _ => rewrite H end;
  split; [repeat case_match; eauto|];
  change (length _ / 8)%nat with n; exec_policy; norm_words;
  change (Z.lor BT_KEYS_LTK_P256 BT_KEYS_LTK) with 36;
  unfold PDU_AC_SIZE_MAX, BT_BUF_RX_SIZE, JUST_WORKS, BT_KEYS_AUTHENTICATED;
  split_ifs.

Lemma conn_chan_map_runs : policy_runs conn_chan_map conn_chan_map_filter.
Proof.
  apply policy_runs_intro. intros. with_slot CONN 0%nat 32 w.
  validate conn_chan_map_filter 8%nat.
Qed.

Lemma hop_range w : is_int w ->
  (11 <? u32 (u64 (u32 w + u64 (-5)))) = (w <? 5) || (16 <? w).
Proof.
  unfold is_int. intros H. apply eq_bool_prop_intro.
  rewrite !Is_true_true, orb_true_iff, !Z.ltb_lt. clia.
Qed.

Lemma conn_chan_hop_runs : policy_runs conn_chan_hop conn_chan_hop_filter.
Proof.
  apply policy_runs_intro. intros. with_slot CONN 1%nat 36 w.
  unfold conn_chan_hop_filter. cbv [mbind res_bind conn_val]. rewrite Hget.
  split; [case_match; eauto|].
  change (length _ / 8)%nat with 8%nat. exec_policy;
    rewrite shl32_shr32 in *; change (u32 11) with 11 in *; rewrite hop_range in * by done;
    split_ifs.
Qed.

Lemma lll_interval_runs : policy_runs lll_interval lll_interval_filter.
Proof.
  apply policy_runs_intro. intros. with_slot CONN 3%nat 44 w.
  validate lll_interval_filter 5%nat.
Qed.

Lemma dc_nesn_runs : policy_runs dc_nesn dc_nesn_filter.
Proof.
  apply policy_runs_intro. intros.
  with_slot DC 14%nat 104 a. with_slot DC 1%nat 52 n. with_slot DC 0%nat 48 sn.
  validate dc_nesn_filter 9%nat.
Qed.

Lemma llcp_len_req_runs : policy_runs llcp_len_req llcp_len_req_filter.
Proof.
  apply policy_runs_intro. intros. with_slot DC 2%nat 56 w.
  validate llcp_len_req_filter 7%nat.
Qed.

Lemma llcp_conn_param_req_runs : policy_runs llcp_conn_param_req llcp_conn_param_req_filter.
Proof.
  apply policy_runs_intro. intros. with_slot DC 6%nat 72 w.
  validate llcp_conn_param_req_filter 7%nat.
Qed.

Lemma scan_rsp_len_runs : policy_runs scan_rsp_len scan_rsp_len_filter.
Proof.
  apply policy_runs_intro. intros. with_slot CONN 2%nat 40 w.
  validate scan_rsp_len_filter 7%nat.
Qed.

Lemma smp_ident_check_runs : policy_runs smp_ident_check smp_ident_check_filter.
Proof.
  apply policy_runs_intro. intros.
  with_slot DC 11%nat 92 keys. with_slot DC 9%nat 84 prev. with_slot DC 12%nat 96 sz.
  with_slot DC 13%nat 100 flags. with_slot DC 10%nat 88 method.
  validate smp_ident_check_filter 19%nat.
Qed.

Lemma spi_acl_len_runs : policy_runs spi_acl_len spi_acl_len_filter.
Proof.
  apply policy_runs_intro. intros. with_slot SPI 1%nat 112 w.
  validate spi_acl_len_filter 7%nat.
Qed.

Lemma spi_evt_len_runs : policy_runs spi_evt_len spi_evt_len_filter.
Proof.
  apply policy_runs_intro. intros. with_slot SPI 0%nat 108 w.
  validate spi_evt_len_filter 7%nat.
Qed.

(** The shipped bytecodes with their sources. *)
Definition zephyr_sources : list (list Z * (FsmState -> res Z)) :=
  [(conn_chan_map, conn_chan_map_filter); (conn_chan_hop, conn_chan_hop_filter);
   (lll_interval, lll_interval_filter); (dc_nesn, dc_nesn_filter);
   (llcp_len_req, llcp_len_req_filter); (llcp_conn_param_req, llcp_conn_param_req_filter);
   (scan_rsp_len, scan_rsp_len_filter); (smp_ident_check, smp_ident_check_filter);
   (spi_acl_len, spi_acl_len_filter); (spi_evt_len, spi_evt_len_filter)].

Lemma zephyr_sources_run : Forall (fun '(bytes, f) => policy_runs bytes f) zephyr_sources.
Proof.
  apply Forall_cons; split; [apply conn_chan_map_runs|].
  apply Forall_cons; split; [apply conn_chan_hop_runs|].
  apply Forall_cons; split; [apply lll_interval_runs|].
  apply Forall_cons; split; [apply dc_nesn_runs|].
  apply Forall_cons; split; [apply llcp_len_req_runs|].
  apply Forall_cons; split; [apply llcp_conn_param_req_runs|].
  apply Forall_cons; split; [apply scan_rsp_len_runs|].
  apply Forall_cons; split; [apply smp_ident_check_runs|].
  apply Forall_cons; split; [apply spi_acl_len_runs|].
  apply Forall_cons; split; [apply spi_evt_len_runs|constructor].
Qed.

(** C5 — Translation validation of the Zephyr policies: for each of the ten
    shipped bytecodes and every well-formed state, the interpreter started on the
    bytes of the state returns, within as many iterations as the bytecode has
    instructions, the value that the policy's C source computes, and leaves the
    state and the stack unchanged. *)
Theorem zephyr_bytecode_correct bytes f E s :
  In (bytes, f) zephyr_sources -> fsm_wf s -> placed 4 (env_fsm E) fsm_sizeof ->
  (length bytes / 8 <= env_fuel E)%nat ->
  exists v, f s = Ok v /\
    policy_result E bytes (fsm_bytes s) =
    Ok (v, cmem (init_cpu (env_fsm E) (env_stk E) (fsm_bytes s))).
Proof.
  intros Hin Hs Hb Hf. pose proof zephyr_sources_run as H. rewrite List.Forall_forall in H.
  apply H in Hin. destruct (Hin E s Hs Hb Hf) as [Hr [v Hv]]. exists v.
  split; [done|]. rewrite Hr, Hv. done.
Qed.

(** A target for the witnesses: addresses of a Cortex-M RAM, no native code. *)
Definition ram_env : exec_env :=
  ExecEnv 0x20000000 0x20001000 64 (HelperHeap [] None) Ok (fun _ _ _ => Timeout).

Lemma zephyr_bytecode_correct_witness :
  exists v, conn_chan_hop_filter zero_fsm = Ok v /\
    policy_result ram_env conn_chan_hop (fsm_bytes zero_fsm) =
    Ok (v, cmem (init_cpu 0x20000000 0x20001000 (fsm_bytes zero_fsm))).
Proof.
  apply (zephyr_bytecode_correct conn_chan_hop conn_chan_hop_filter ram_env zero_fsm).
  - cbn. tauto.
  - exact zero_fsm_wf.
  - vm_compute; repeat split; congruence.
  - apply Nat.leb_le. vm_compute. reflexivity.
Defined.

(** The code of a shipped policy without the NUL that ends the literal. *)
Definition policy_code (bytes : list Z) : list Z := take (length bytes - 1) bytes.

(** Each of the ten shipped Zephyr bytecodes is accepted by the verifier of
    runtime policies, is closed (forward jumps to instructions, a final EXIT, base
    registers intact at loads), divides or shifts only by legal constants and has aligned
    loads, so each could also be installed over the air and then always terminates. *)
Theorem zephyr_policies_verified :
  Forall (fun '(bytes, _) =>
    ifw_verify_policy (Some (policy_code bytes)) (Z.of_nat (length (policy_code bytes)))
      fsm_sizeof = 0 /\
    policy_closed (program (policy_code bytes)) = true /\
    policy_arith (program (policy_code bytes)) = true /\
    policy_aligned (program (policy_code bytes)) = true) zephyr_sources.
Proof.
  repeat (apply Forall_cons; split; [split_and!; vm_compute; reflexivity|]). constructor.
Qed.

(** ** The loaded cache *)
Definition zephyr_cache : policy_state :=
  match load_all_policies policy_state0 (fun _ => true) with Ok m => m | _ => policy_state0 end.

Lemma load_all_policies_ok :
  load_all_policies policy_state0 (fun _ => true) = Ok zephyr_cache.
Proof. vm_compute. reflexivity. Qed.

(** The source of the compiled-in policy with an id. *)
Definition filter_of (pid : Z) : option (FsmState -> res Z) :=
  snd <$> arr_get (take 8 zephyr_sources) pid.

(** The value of a policy on a state. *)
Definition policy_val (s : FsmState) (pid : Z) : Z :=
  match filter_of pid with
  | Some f => match f s with Ok v => v | _ => 0 end
  | None => 0
  end.

(** Does one of the policies of a slot reject the state? *)
Definition slot_rejects (s : FsmState) (class type : Z) : bool :=
  existsb (fun pid => policy_val s pid =? IFW_OPERATION_REJECT)
    (slot_list zephyr_cache class type).

(** A cache that holds the shipped policies and no others. *)
Definition shipped (m : policy_state) : Prop :=
  cache_wf m /\ policy_manager m = policy_manager zephyr_cache /\
  policy_arr m = policy_arr zephyr_cache.

Lemma zephyr_port_ok : 0 <= PID_NUM /\ (0 < n_dc <= 32)%nat.
Proof. cbn. lia. Qed.

(** A slot with literal class and type is in range. *)
Ltac slot_range := split; vm_compute; split; congruence.

Lemma load_all_policies_wf m oks m' :
  cache_wf m -> load_all_policies m oks = Ok m' -> cache_wf m'.
Proof.
  intros Hm H. unfold load_all_policies in H. destruct zephyr_port_ok as [Hp Hd].
  assert (Hadd : forall m ok pid bytes class type m', cache_wf m -> slot_in class type ->
    0 <= pid < PID_NUM -> ADD_POLICY m ok pid bytes class type = Ok m' -> cache_wf m')
    by (intros; eapply add_policy_wf; eauto).
  repeat (apply bind_Ok in H as (? & H1 & H);
    apply Hadd in H1; [clear Hm; rename H1 into Hm|done|slot_range|cbn; lia]).
  apply Hadd in H; [done|done|slot_range|cbn; lia].
Qed.

Lemma shipped_zephyr_cache : shipped zephyr_cache.
Proof.
  split; [|done]. eapply load_all_policies_wf; [|apply load_all_policies_ok].
  apply policy_state0_wf; cbn; lia.
Qed.

(** Every policy named in a list is one of the eight compiled-in ones. *)
Lemma shipped_pids m class type :
  shipped m -> Forall (fun pid => 0 <= pid < 8) (slot_list m class type).
Proof.
  intros (_ & Ht & _). unfold slot_list. rewrite Ht.
  destruct (arr_get _ _) as [l|] eqn:E; [|constructor]. apply arr_get_Some in E as [_ E].
  assert (H : Forall (fun l => forallb (fun pid => (0 <=? pid) && (pid <? 8)) l = true)
    (policy_manager zephyr_cache)) by (apply Forall_forall; intros x Hx;
      assert (Hb : forallb (forallb (fun pid => (0 <=? pid) && (pid <? 8)))
        (policy_manager zephyr_cache) = true) by (vm_compute; reflexivity);
      rewrite forallb_forall in Hb; now apply Hb, list_elem_of_In).
  apply (Forall_lookup_1 _ _ _ _ H) in E. rewrite forallb_forall in E.
  apply Forall_forall. intros pid Hp%list_elem_of_In. apply E in Hp. lia.
Qed.

(** What an execution environment has to provide. *)
Definition env_ok (E : exec_env) : Prop :=
  placed 4 (env_fsm E) fsm_sizeof /\ (19 <= env_fuel E)%nat.

Lemma policy_runs_returns E m s pid bytes f :
  env_ok E -> fsm_wf s -> policy_runs bytes f -> (length bytes / 8 <= 19)%nat ->
  get_policy_slot m pid = Some (PolicyCacheC (Z.of_nat (length bytes)) (Some bytes) false) ->
  bytes <> [] -> filter_of pid = Some f ->
  policy_returns E m (fsm_bytes s) pid (policy_val s pid).
Proof.
  intros [Hb Hfu] Hs Hr Hl Hg Hne Hf.
  destruct (Hr E s Hs Hb ltac:(lia)) as [Hres [v Hv]].
  eexists _, bytes. split; [exact Hg|]. cbn [size code jit].
  split; [destruct bytes; [done|cbn; lia]|]. split; [done|]. eexists.
  unfold policy_val. rewrite Hf, Hv, Hres, Hv. done.
Qed.

Ltac shipped_case H Ha Hle :=
  eapply policy_runs_returns; [eassumption|eassumption|exact H| | | | ];
  [apply Hle; vm_compute; reflexivity|unfold get_policy_slot; rewrite Ha; reflexivity
  |discriminate|reflexivity].

Lemma shipped_policy_returns E m s pid :
  env_ok E -> fsm_wf s -> shipped m -> 0 <= pid < 8 ->
  policy_returns E m (fsm_bytes s) pid (policy_val s pid).
Proof.
  intros HE Hs (_ & _ & Ha) Hp.
  pose proof zephyr_sources_run as H. unfold zephyr_sources in H. rewrite !Forall_cons in H.
  destruct H as (H0 & H1 & H2 & H3 & H4 & H5 & H6 & H7 & _).
  assert (pid = 0 \/ pid = 1 \/ pid = 2 \/ pid = 3 \/ pid = 4 \/ pid = 5 \/ pid = 6 \/ pid = 7)
    as Hc by lia.
  assert (Hle : forall n, Nat.leb n 19 = true -> (n <= 19)%nat) by (intros; now apply Nat.leb_le).
  destruct Hc as [->|[->|[->|[->|[->|[->|[->| ->]]]]]]];
    [shipped_case H0 Ha Hle|shipped_case H1 Ha Hle|shipped_case H2 Ha Hle
    |shipped_case H3 Ha Hle|shipped_case H4 Ha Hle|shipped_case H5 Ha Hle
    |shipped_case H6 Ha Hle|shipped_case H7 Ha Hle].
Qed.
