(* ===== verification/ZephyrCache.v ===== *)
(** * The policy cache of the Zephyr port

    [ZephyrOS/zephyr/firewall/policy/src/fsm_policy_cache.c] is the same code as
    the cache of the Mynewt port, over the slots and the policy ids of this port,
    with two differences: it has no [remove_policy], and [register_policy] does
    not test the result of its allocation ([malloc_checked] of [zephyr_port]). Its
    functions are the instances at [zephyr_port] of the definitions of
    [PolicyCache]. The theorems are about patches installed over the shipped
    policies. *)
From stdpp Require Import base tactics numbers list.
From Stdlib Require Import ZArith Lia.
From S2P Require Import Prelude Inst VM VMFacts Verifier Fsm PolicyCache PolicyExec ZephyrFsm ZephyrPolicies.
Local Open Scope Z_scope.

(** ** The functions of this port *)
Definition get_policy_slot : policy_state -> Z -> option policy_cache :=
  PolicyCache.get_policy_slot (P := zephyr_port).

Definition ADD_POLICY : policy_state -> bool -> Z -> list Z -> Z -> Z -> res policy_state :=
  PolicyCache.ADD_POLICY (P := zephyr_port).

Definition set_policy_jit_on : policy_state -> Z -> policy_state :=
  PolicyCache.set_policy_jit_on (P := zephyr_port).

Definition set_all_policy_jit_on : policy_state -> policy_state :=
  PolicyCache.set_all_policy_jit_on.

Definition init_policy_manager : policy_state -> policy_state :=
  PolicyCache.init_policy_manager (P := zephyr_port).

Definition register_policy : policy_state -> bool -> Z -> Z -> Z -> res policy_state :=
  PolicyCache.register_policy (P := zephyr_port).

Definition get_default_vm : policy_state -> bool -> bool -> res (policy_state * ebpf_vm) :=
  PolicyCache.get_default_vm.

Definition load_ebpf_code : exec_env -> bool -> policy_state -> Z -> bool ->
    res (policy_state * option ebpf_vm) :=
  PolicyCache.load_ebpf_code (P := zephyr_port).

Definition get_vm_from_cache : exec_env -> bool -> policy_state -> Z ->
    res (policy_state * option ebpf_vm) :=
  PolicyCache.get_vm_from_cache (P := zephyr_port).

Definition run_fsm_ebpf_policy : exec_env -> bool -> policy_state -> Z -> list Z -> Z ->
    res (policy_state * Z * list Z) :=
  PolicyCache.run_fsm_ebpf_policy (P := zephyr_port).

Definition ifw_verify_policy : option (list Z) -> Z -> Z -> Z := Verifier.ifw_verify_policy.

Definition ifw_install_policy : policy_state -> bool -> bool -> Z -> Z -> option (list Z) -> Z ->
    res (policy_state * Z) :=
  PolicyCache.ifw_install_policy (P := zephyr_port).

Definition run_fsm_check_policy : exec_env -> bool -> policy_state -> Z -> Z -> list Z ->
    res (policy_state * Z * list Z) :=
  PolicyCache.run_fsm_check_policy (P := zephyr_port).

(** ** Patches over the shipped policies *)

(** A state of this port fills [fsm_sizeof] bytes. *)
Lemma zephyr_fsm_bytes_length s : fsm_wf s -> Z.of_nat (length (fsm_bytes s)) = fsm_sizeof.
Proof. intros Hs. rewrite fsm_bytes_length by apply Hs. unfold fsm_sizeof. lia. Qed.

(** C6 — A patch received at run time takes effect over the shipped policies:
    when the verifier accepts it, it is closed, its arithmetic is legal and its loads are
    aligned, [ifw_install_policy] returns 0, and from then on a check of its slot on any
    state rejects exactly when the C source of one of the shipped policies of the
    slot rejects or the patch returns [IFW_OPERATION_REJECT]. *)
Theorem zephyr_patch_enforced E s m class type bytes :
  env_ok E -> placed 8 (env_stk E) STACK_SIZE -> (length bytes / 8 <= env_fuel E)%nat ->
  shipped m -> fsm_wf s ->
  install_guards m class type bytes -> Forall (fun b => is_byte b = true) bytes ->
  policy_closed (program bytes) = true -> policy_arith (program bytes) = true ->
  policy_aligned (program bytes) = true ->
  exists v mem m1 m2,
    policy_result E bytes (fsm_bytes s) = Ok (v, mem) /\
    ifw_install_policy m true true class type (Some bytes) (Z.of_nat (length bytes)) =
      Ok (m1, 0) /\
    run_fsm_check_policy E true m1 type class (fsm_bytes s) =
      Ok (m2, if slot_rejects s class type || (v =? IFW_OPERATION_REJECT)
              then IFW_OPERATION_REJECT else IFW_OPERATION_PASS, fsm_bytes s).
Proof.
  intros HE Hst Hfu Hm Hs Hg Hb Hc Ha Hal. destruct zephyr_port_ok as [Hp Hd].
  pose proof (zephyr_fsm_bytes_length s Hs) as Hl.
  destruct (install_then_check (P := zephyr_port) Hp Hd E m class type bytes (fsm_bytes s)
    (policy_val s)) as (v & mem & m1 & m2 & H1 & H2 & H3); try done.
  - apply Hm.
  - split; [apply Hb|apply Hg|exact Hc|exact Ha|exact Hal].
  - split; [exact (Z.eq_le_incl _ _ (eq_sym Hl))|]. rewrite Hl. split; [apply HE|exact Hst].
  - eapply Forall_impl; [exact (shipped_pids m class type Hm)|]. cbn. intros pid Hpid.
    now apply shipped_policy_returns.
  - exists v, mem, m1, m2. split; [done|]. split; [done|].
    unfold slot_rejects, slot_list. destruct Hm as (_ & <- & _). exact H3.
Qed.

(** [register_policy] of this port writes through the pointer it got from
    the allocator: when the list node cannot be allocated, the installation of an
    acceptable policy ends in a null dereference after the runtime slot was
    taken, where the Mynewt port returns. *)
Theorem zephyr_install_null m class type bytes :
  cache_wf m -> install_guards m class type bytes ->
  ifw_install_policy m true false class type (Some bytes) (Z.of_nat (length bytes)) =
  Crash NullDeref.
Proof.
  intros Hm Hg. destruct zephyr_port_ok as [Hp Hd]. unfold ifw_install_policy.
  destruct (install_guards_dec (P := zephyr_port) Hd m class type bytes true false) as
    [(_ & _ & _ & ->)|[Hn _]]; [|now destruct Hn].
  destruct Hg as (Hs & Hlt & Hal). rewrite Nat2Z.id, take_ge by done.
  pose proof (wf_count _ Hm). pose proof (wf_rt _ Hm).
  rewrite arr_set_in by lia. cbn [mbind res_bind of_option].
  edestruct (register_policy_eq (P := zephyr_port)) as (ms & _ & ->); [exact Hd| |exact Hs|done].
  eapply runtime_set_wf; eauto; [|apply arr_set_in; lia]. now exists bytes.
Qed.

(** ** Concrete patches *)
Lemma read_policy_allowed : policy_allowed read_policy fsm_sizeof.
Proof. apply verify_policy_allowed. reflexivity. Qed.

Lemma read_policy_slot : slot_in (class_val CONN) (conn_val CHANNEL_HOP).
Proof. slot_range. Qed.

Lemma read_policy_patch :
  install_guards zephyr_cache (class_val CONN) (conn_val CHANNEL_HOP) read_policy.
Proof. split; [exact read_policy_slot|]. split; [reflexivity|exact read_policy_allowed]. Qed.

(** A channel hop of 0 is rejected by the shipped policy of the slot. *)
Lemma zephyr_patch_enforced_witness :
  exists m1 m2,
    ifw_install_policy zephyr_cache true true (class_val CONN) (conn_val CHANNEL_HOP)
      (Some read_policy) 16 = Ok (m1, 0) /\
    run_fsm_check_policy ram_env true m1 (conn_val CHANNEL_HOP) (class_val CONN)
      (fsm_bytes zero_fsm) = Ok (m2, IFW_OPERATION_REJECT, fsm_bytes zero_fsm).
Proof.
  destruct (zephyr_patch_enforced ram_env zero_fsm zephyr_cache (class_val CONN)
    (conn_val CHANNEL_HOP) read_policy) as (v & mem & m1 & m2 & _ & H1 & H2).
  - split; [vm_compute; repeat split; congruence|]. apply Nat.leb_le. reflexivity.
  - vm_compute; repeat split; congruence.
  - apply Nat.leb_le. reflexivity.
  - exact shipped_zephyr_cache.
  - exact zero_fsm_wf.
  - exact read_policy_patch.
  - vm_compute. repeat constructor.
  - reflexivity.
  - reflexivity.
  - reflexivity.
  - exists m1, m2. split; [exact H1|]. rewrite H2. reflexivity.
Defined.

Lemma zephyr_install_null_witness :
  ifw_install_policy zephyr_cache true false (class_val CONN) (conn_val CHANNEL_HOP)
    (Some read_policy) 16 = Crash NullDeref.
Proof.
  apply (zephyr_install_null zephyr_cache (class_val CONN) (conn_val CHANNEL_HOP) read_policy).
  - apply shipped_zephyr_cache.
  - exact read_policy_patch.
Defined.

(** Nine patches: eight are installed. *)
Lemma install_limit_witness :
  let m' := Nat.iter 8 (fun m => installed m (class_val CONN) (conn_val CHANNEL_HOP) read_policy) zephyr_cache in
  install_all zephyr_cache (replicate 9 (class_val CONN, conn_val CHANNEL_HOP, read_policy)) =
    Ok (m', [0; 0; 0; 0; 0; 0; 0; 0; -3]) /\ cache_wf m' /\ runtime_policy_count m' = 8.
Proof.
  destruct zephyr_port_ok as [Hp Hd].
  apply (install_limit (P := zephyr_port) Hp Hd zephyr_cache).
  - apply shipped_zephyr_cache.
  - apply Forall_replicate. split; [exact read_policy_slot|exact read_policy_allowed].
Defined.

(** A class out of range. *)
Lemma install_policy_error_witness :
  ifw_install_policy zephyr_cache true true 6 0 (Some read_policy) 16 = Ok (zephyr_cache, -2).
Proof.
  destruct zephyr_port_ok as [Hp Hd].
  destruct (install_policy_error (P := zephyr_port) Hd zephyr_cache true true 6 0
    (Some read_policy) 16) as (_ & H & _).
  apply (H read_policy); [reflexivity|reflexivity|split; reflexivity|].
  intros [[_ Hc] _]. vm_compute in Hc. discriminate.
Defined.
