(* ===== verification/ZephyrParser.v ===== *)
(** * The link-layer hooks of the Zephyr port

    [ZephyrOS/zephyr/firewall/core/fsm_ll_pkt_parser.c]: the receive hook that is
    called for every packet the controller hands up ([ifw_ll_packet_parser_rx],
    called in [ull.c]) and the transmit hook for advertising PDUs. PDUs are their
    bytes, read at the offsets of the packed structs of
    [subsys/bluetooth/controller/ll_sw/pdu.h]; the link-layer connection object
    that the hook writes is a record.

    The file ends with the theorem that the channel count is a population count;
    the specification of the hooks is in [ZephyrSpec]. *)
From stdpp Require Import base tactics numbers list.
From Stdlib Require Import ZArith Lia.
From S2P Require Import Prelude Inst VM VMFacts Verifier Fsm PolicyCache PolicyExec ZephyrFsm ZephyrPolicies.
Local Open Scope Z_scope.

(** ** PDUs *)
Definition pdu_byte (pdu : list Z) (off : Z) : res Z := of_option MemFault (arr_get pdu off).

Definition pdu_bytes (pdu : list Z) (off n : nat) : res (list Z) :=
  if (off + n <=? length pdu)%nat then Ok (slice off n pdu) else Crash MemFault.

(** [sys_le16_to_cpu] of a packed [u16_t] *)
Definition pdu_le16 (pdu : list Z) (off : nat) : res Z := le_val <$> pdu_bytes pdu off 2.

Abbreviation PDU_ADV_TYPE_SCAN_RSP := 0x04 (only parsing).
Abbreviation PDU_DATA_LLID_CTRL := 0x03 (only parsing).
Abbreviation PDU_DATA_LLCTRL_TYPE_CONN_UPDATE_IND := 0x00 (only parsing).
Abbreviation PDU_DATA_LLCTRL_TYPE_CHAN_MAP_IND := 0x01 (only parsing).
Abbreviation PDU_DATA_LLCTRL_TYPE_CONN_PARAM_REQ := 0x0F (only parsing).
Abbreviation PDU_DATA_LLCTRL_TYPE_CONN_PARAM_RSP := 0x10 (only parsing).
Abbreviation PDU_DATA_LLCTRL_TYPE_LENGTH_REQ := 0x14 (only parsing).
Abbreviation PDU_DATA_LLCTRL_TYPE_LENGTH_RSP := 0x15 (only parsing).

(** [struct pdu_adv]: the type in the low nibble of the first byte, the length,
    and the payload. *)
Definition pdu_adv_type (pdu : list Z) : res Z := b ← pdu_byte pdu 0; Ok (Z.land b 0xf).
Definition pdu_adv_len (pdu : list Z) : res Z := pdu_byte pdu 1.

(** [connect_ind] starts at offset 2 with the two addresses. *)
Definition pdu_adv_access_addr (pdu : list Z) : res (list Z) := pdu_bytes pdu 14 4.
Definition pdu_adv_crc_init (pdu : list Z) : res (list Z) := pdu_bytes pdu 18 3.
Definition pdu_adv_interval (pdu : list Z) : res Z := pdu_le16 pdu 24.
Definition pdu_adv_chan_map (pdu : list Z) : res (list Z) := pdu_bytes pdu 30 5.
Definition pdu_adv_hop (pdu : list Z) : res Z := b ← pdu_byte pdu 35; Ok (Z.land b 0x1f).

(** [struct pdu_data]: the flags, the length, a reserved byte and the payload. *)
Definition pdu_data_ll_id (pdu : list Z) : res Z := b ← pdu_byte pdu 0; Ok (Z.land b 3).
Definition pdu_data_nesn (pdu : list Z) : res Z := b ← pdu_byte pdu 0; Ok (Z.land (Z.shiftr b 2) 1).
Definition pdu_data_sn (pdu : list Z) : res Z := b ← pdu_byte pdu 0; Ok (Z.land (Z.shiftr b 3) 1).
Definition pdu_data_llctrl_opcode (pdu : list Z) : res Z := pdu_byte pdu 3.
Definition pdu_data_conn_update_ind_interval (pdu : list Z) : res Z := pdu_le16 pdu 7.
Definition pdu_data_chan_map_ind_chm (pdu : list Z) : res (list Z) := pdu_bytes pdu 4 5.

(** The fields of [struct lll_conn] that the hook reads and writes. *)
Record lll_conn := LllConn {
  role : Z;
  lll_crc_init : list Z;
  lll_access_addr : list Z;
  data_chan_map : list Z;
  data_chan_count : Z;         (* 6 bits *)
  data_chan_hop : Z;
  interval : Z;
}.

(** What the controller hands up, by [rx->type]: a packet of the connection type
    comes with the connection object its footer points to. *)
Inductive node_rx :=
| NODE_RX_TYPE_EVENT_DONE
| NODE_RX_TYPE_CONNECTION (lll : lll_conn) (pdu : list Z)
| NODE_RX_TYPE_DC_PDU (pdu : list Z)
| NODE_RX_TYPE_OTHER.

(** ** Counting channels *)

(** [while (bite) { bite &= (bite - 1); one_count++; }] *)
Fixpoint count_bite (fuel : nat) (bite one_count : Z) : res Z :=
  if bite =? 0 then Ok one_count
  else match fuel with
       | O => Timeout
       | S fuel => count_bite fuel (u8 (Z.land bite (bite - 1))) (u8 (one_count + 1))
       end.

(** The outer loop, over [octets_len] octets. A byte has at most eight ones. *)
Fixpoint count_octets (octets_len : nat) (octets : list Z) (one_count : Z) : res Z :=
  match octets_len with
  | O => Ok one_count
  | S n =>
      match octets with
      | [] => Crash MemFault
      | bite :: octets =>
          one_count ← count_bite 8 bite one_count;
          count_octets n octets one_count
      end
  end.

Definition ifw_count_one (octets : list Z) : res Z := count_octets 5 octets 0.

(** ** The state of the hook *)
Record ll_parser := LlParser {
  mon : monitor;
  result : Z;
  llcp_len_req_pending : Z;
  llcp_cpr_pending : Z;
}.

Definition set_mon (st : ll_parser) (m : monitor) : ll_parser :=
  LlParser m (result st) (llcp_len_req_pending st) (llcp_cpr_pending st).
Definition set_result (st : ll_parser) (r : Z) : ll_parser :=
  LlParser (mon st) r (llcp_len_req_pending st) (llcp_cpr_pending st).
Definition set_len_pending (st : ll_parser) (n : Z) : ll_parser :=
  LlParser (mon st) (result st) n (llcp_cpr_pending st).
Definition set_cpr_pending (st : ll_parser) (n : Z) : ll_parser :=
  LlParser (mon st) (result st) (llcp_len_req_pending st) n.

Section Hook.
  Variable E : exec_env.

(** [IFW_FSM_CHECK_UPDATE(v, t, c)] and [IFW_RUN_VERIFIER(t, c)] on this state;
    the second also says whether the verifier rejected. *)
Definition check_update (st : ll_parser) (v t : Z) (c : ifw_state_class) : res ll_parser :=
  set_mon st <$> IFW_FSM_CHECK_UPDATE (mon st) v t (class_val c).

Definition run_verifier (st : ll_parser) (t : Z) (c : ifw_state_class)
    : res (ll_parser * bool) :=
  '(m, r) ← IFW_RUN_VERIFIER E true (mon st) t (class_val c);
  Ok (set_mon st m, r).

(** ** Transmit hook *)
Definition ifw_ll_packet_parser_tx (st : ll_parser) (pdu : option (list Z))
    : res (ll_parser * Z) :=
  match pdu with
  | None => Ok (st, IFW_OPERATION_PASS)
  | Some pdu =>
      ty ← pdu_adv_type pdu;
      if ty =? PDU_ADV_TYPE_SCAN_RSP then
        len ← pdu_adv_len pdu;
        st ← check_update st len (conn_val SCAN_RSP_LEN) CONN;
        '(st, rej) ← run_verifier st (conn_val SCAN_RSP_LEN) CONN;
        if (rej : bool) then Ok (st, IFW_OPERATION_REJECT) else Ok (st, IFW_OPERATION_PASS)
      else Ok (st, IFW_OPERATION_PASS)
  end.

(** ** Receive hook *)
Definition ifw_peripheral_setup (st : ll_parser) (lll : lll_conn) (pdu : list Z)
    : res (ll_parser * lll_conn) :=
  crc ← pdu_adv_crc_init pdu;
  aa ← pdu_adv_access_addr pdu;
  map ← pdu_adv_chan_map pdu;
  (* New connection: reset per-connection state. *)
  let st := set_cpr_pending (set_len_pending st 0) 0 in
  st ← check_update st 1 (dc_val DC_ANCHOR_STATE) DC;
  count ← ifw_count_one map;
  let lll := LllConn (role lll) crc aa map (count mod 64) (data_chan_hop lll) (interval lll) in
  st ← check_update st (data_chan_count lll) (conn_val CHANNEL_MAP) CONN;
  '(st, rej) ← run_verifier st (conn_val CHANNEL_MAP) CONN;
  if (rej : bool) then Ok (set_result st IFW_OPERATION_REJECT, lll)
  else
    hop ← pdu_adv_hop pdu;
    let lll := LllConn (role lll) crc aa map (data_chan_count lll) hop (interval lll) in
    st ← check_update st (data_chan_hop lll) (conn_val CHANNEL_HOP) CONN;
    '(st, rej) ← run_verifier st (conn_val CHANNEL_HOP) CONN;
    if (rej : bool) then Ok (set_result st IFW_OPERATION_REJECT, lll)
    else
      itv ← pdu_adv_interval pdu;
      let lll := LllConn (role lll) crc aa map (data_chan_count lll) hop itv in
      st ← check_update st (interval lll) (conn_val LLL_INTERVAL) CONN;
      '(st, rej) ← run_verifier st (conn_val LLL_INTERVAL) CONN;
      if (rej : bool) then Ok (set_result st IFW_OPERATION_REJECT, lll) else Ok (st, lll).

(** The body is empty in the source. *)
Definition ifw_central_setup (st : ll_parser) : res ll_parser := Ok st.

(** The end of both cases of the switch on the role. *)
Definition setup_role (st : ll_parser) (r : IFW_FSM_BLE_ROLE) : res ll_parser :=
  st ← check_update st (ble_role_val r) (core_val BLE_ROLE) CORE;
  '(st, rej) ← run_verifier st (core_val BLE_ROLE) CORE;
  if (rej : bool) then Ok (set_result st IFW_OPERATION_REJECT) else Ok st.

Definition ifw_conn_setup (st : ll_parser) (lll : lll_conn) (pdu : list Z)
    : res (ll_parser * lll_conn) :=
  if role lll =? 0 then
    st ← ifw_central_setup st;
    st ← setup_role st IFW_BLE_ROLE_CENTRAL;
    Ok (st, lll)
  else if role lll =? 1 then
    '(st, lll) ← ifw_peripheral_setup st lll pdu;
    st ← setup_role st IFW_BLE_ROLE_PERIPHERAL;
    Ok (st, lll)
  else Ok (st, lll).

(** [++] and [--] on [static int] *)
Definition int_succ (n : Z) : Z := s32 (n + 1).
Definition int_pred_pos (n : Z) : Z := if 0 <? n then n - 1 else n.

(** The common shape of the checks of one value. *)
Definition check_one (st : ll_parser) (v t : Z) (c : ifw_state_class) : res ll_parser :=
  st ← check_update st v t c;
  '(st, rej) ← run_verifier st t c;
  if (rej : bool) then Ok (set_result st IFW_OPERATION_REJECT) else Ok st.

Definition ifw_ctrl_rx (st : ll_parser) (pdu : list Z) : res ll_parser :=
  op ← pdu_data_llctrl_opcode pdu;
  if op =? PDU_DATA_LLCTRL_TYPE_CONN_UPDATE_IND then
    new_interval ← pdu_data_conn_update_ind_interval pdu;
    check_one st new_interval (conn_val LLL_INTERVAL) CONN
  else if op =? PDU_DATA_LLCTRL_TYPE_CHAN_MAP_IND then
    chm ← pdu_data_chan_map_ind_chm pdu;
    new_count ← ifw_count_one chm;
    check_one st new_count (conn_val CHANNEL_MAP) CONN
  else if op =? PDU_DATA_LLCTRL_TYPE_LENGTH_REQ then
    let st := set_len_pending st (int_succ (llcp_len_req_pending st)) in
    check_one st (llcp_len_req_pending st) (dc_val LLCP_LEN_REQ) DC
  else if op =? PDU_DATA_LLCTRL_TYPE_LENGTH_RSP then
    Ok (set_len_pending st (int_pred_pos (llcp_len_req_pending st)))
  else if op =? PDU_DATA_LLCTRL_TYPE_CONN_PARAM_REQ then
    let st := set_cpr_pending st (int_succ (llcp_cpr_pending st)) in
    check_one st (llcp_cpr_pending st) (dc_val LLCP_CONN_PARAM_REQ) DC
  else if op =? PDU_DATA_LLCTRL_TYPE_CONN_PARAM_RSP then
    Ok (set_cpr_pending st (int_pred_pos (llcp_cpr_pending st)))
  else Ok st.

Definition ifw_conn_rx (st : ll_parser) (pdu : list Z) : res ll_parser :=
  nesn ← pdu_data_nesn pdu;
  st ← check_update st nesn (dc_val NESN) DC;
  sn ← pdu_data_sn pdu;
  st ← check_update st sn (dc_val SN) DC;
  '(st, rej) ← run_verifier st (dc_val NESN) DC;
  if (rej : bool) then Ok (set_result st IFW_OPERATION_REJECT)
  else
    st ← check_update st 0 (dc_val DC_ANCHOR_STATE) DC;
    ll_id ← pdu_data_ll_id pdu;
    if ll_id =? PDU_DATA_LLID_CTRL then ifw_ctrl_rx st pdu else Ok st.

(** The returned value is the verdict; the connection object is returned too,
    when the packet has one. *)
Definition ifw_ll_packet_parser_rx (st : ll_parser) (rx : node_rx)
    : res (ll_parser * Z * option lll_conn) :=
  let st := set_result st IFW_OPERATION_PASS in
  match rx with
  | NODE_RX_TYPE_EVENT_DONE => Ok (st, IFW_OPERATION_PASS, None)
  | NODE_RX_TYPE_CONNECTION lll pdu =>
      '(st, lll) ← ifw_conn_setup st lll pdu;
      Ok (st, result st, Some lll)
  | NODE_RX_TYPE_DC_PDU pdu =>
      st ← ifw_conn_rx st pdu;
      Ok (st, result st, None)
  | NODE_RX_TYPE_OTHER => Ok (st, result st, None)
  end.
End Hook.

(** ** Counting channels: correctness *)

(** The number of ones of a byte, and of the first five bytes of a channel map. *)
Definition popcount (b : Z) : Z :=
  fold_right Z.add 0 (map (fun i => Z.b2z (Z.testbit b (Z.of_nat i))) (seq 0 8)).

Definition channels (octets : list Z) : Z :=
  fold_right Z.add 0 (map popcount (take 5 octets)).

(** The number of iterations of the inner loop. *)
Fixpoint bite_iters (fuel : nat) (bite : Z) : option Z :=
  if bite =? 0 then Some 0
  else match fuel with
       | O => None
       | S fuel => n ← bite_iters fuel (u8 (Z.land bite (bite - 1))); Some (n + 1)
       end.

Lemma count_bite_iters fuel bite n k :
  0 <= n -> n + k < 256 -> bite_iters fuel bite = Some k -> 0 <= k ->
  count_bite fuel bite n = Ok (n + k).
Proof.
  revert bite n k. induction fuel as [|fuel IH]; intros bite n k Hn Hk; cbn;
    destruct (bite =? 0); intros E Hk0; try done; try (injection E as <-; f_equal; lia).
  destruct (bite_iters fuel _) as [j|] eqn:Ej; [|done]. cbn in E. injection E as <-.
  assert (0 <= j).
  { clear -Ej. revert Ej. generalize (u8 (Z.land bite (bite - 1))). revert j.
    induction fuel as [|fuel IH]; intros j b; cbn; destruct (b =? 0); try done;
      try (intros [= <-]; lia).
    destruct (bite_iters fuel _) eqn:E; [|done]. cbn. intros [= <-]. apply IH in E. lia. }
  rewrite (u8_small (n + 1)) by lia. rewrite (IH _ _ j); auto; try lia. f_equal. lia.
Qed.

Lemma byte_cases (P : Z -> bool) :
  forallb P (map Z.of_nat (seq 0 256)) = true -> forall b, is_byte b = true -> P b = true.
Proof.
  intros H b Hb. rewrite forallb_forall in H. apply H. apply in_map_iff.
  unfold is_byte in Hb. exists (Z.to_nat b). split; [lia|]. apply in_seq. lia.
Qed.

Lemma bite_iters_popcount b :
  is_byte b = true -> bite_iters 8 b = Some (popcount b) /\ 0 <= popcount b <= 8.
Proof.
  intros Hb.
  pose (P := fun b => match bite_iters 8 b with
      | Some k => (k =? popcount b) && ((0 <=? k) && (k <=? 8)) | None => false end).
  assert (H : P b = true) by (apply byte_cases; [vm_compute; reflexivity|done]).
  unfold P in H. destruct (bite_iters 8 b) as [k|]; [|done].
  assert (k = popcount b) as -> by lia. split; [done|lia].
Qed.

Lemma count_octets_eq n octets k :
  Forall (fun b => is_byte b = true) octets -> (n <= length octets)%nat ->
  0 <= k -> k + 8 * Z.of_nat n < 256 ->
  count_octets n octets k = Ok (k + fold_right Z.add 0 (map popcount (take n octets))).
Proof.
  revert octets k. induction n as [|n IH]; intros octets k Hb Hl Hk Hlt;
    cbn [count_octets].
  { rewrite take_0. cbn [map fold_right]. f_equal. lia. }
  destruct octets as [|b octets]; [cbn in Hl; lia|]. apply Forall_cons in Hb as [Hb Hbs].
  destruct (bite_iters_popcount b Hb) as [Hi Hr]. cbn [length] in Hl.
  rewrite (count_bite_iters 8 b k (popcount b)) by (auto; lia). cbv [mbind res_bind].
  rewrite IH by (auto; lia). f_equal. cbn [take map fold_right]. lia.
Qed.

Lemma popcounts_bound (l : list Z) :
  Forall (fun b => is_byte b = true) l ->
  0 <= fold_right Z.add 0 (map popcount l) <= 8 * Z.of_nat (length l).
Proof.
  induction 1 as [|b l Hb _ IH]; cbn [map fold_right length]; [lia|].
  pose proof (bite_iters_popcount b Hb). lia.
Qed.

Lemma channels_bound octets :
  Forall (fun b => is_byte b = true) octets -> 0 <= channels octets <= 40.
Proof.
  intros Hb. pose proof (popcounts_bound (take 5 octets) (Forall_take _ _ _ Hb)).
  rewrite length_take in H. unfold channels. lia.
Qed.

Lemma count_one_channels octets :
  Forall (fun b => is_byte b = true) octets -> (5 <= length octets)%nat ->
  ifw_count_one octets = Ok (channels octets).
Proof. intros Hb Hl. unfold ifw_count_one. rewrite count_octets_eq by (auto; lia). done. Qed.

(** C22 — [ifw_count_one] terminates on every channel map of at least five bytes
    and returns the number of ones in its first five bytes, at most 40, without
    overflow of the 8-bit counter. *)
Theorem ifw_count_one_popcount octets :
  Forall (fun b => is_byte b = true) octets -> (5 <= length octets)%nat ->
  ifw_count_one octets = Ok (channels octets) /\ 0 <= channels octets <= 40.
Proof. intros Hb Hl. auto using count_one_channels, channels_bound. Qed.

Lemma ifw_count_one_popcount_witness :
  ifw_count_one [0xff; 0x03; 0x00; 0x80; 0x1f] = Ok 16 /\
  0 <= channels [0xff; 0x03; 0x00; 0x80; 0x1f] <= 40.
Proof.
  apply (ifw_count_one_popcount [0xff; 0x03; 0x00; 0x80; 0x1f]); [repeat constructor|cbn; lia].
Defined.
