(* ===== verification/ZephyrSpec.v ===== *)
(** * What the Zephyr firewall promises

    An abstract firewall whose whole state is one flag and two counters
    ([firewall], [fw_rx]), and the proof that the receive hook implements it: the
    parser of raw PDUs, the staging state, the policy lists, the cache of policies
    and the interpreter running the shipped bytecodes give, on every sequence of
    packets, exactly the verdicts of the abstract firewall. *)
From stdpp Require Import base tactics numbers list.
From Stdlib Require Import ZArith Lia.
From S2P Require Import Prelude Inst VM VMFacts Verifier Fsm PolicyCache PolicyExec ZephyrFsm ZephyrPolicies ZephyrParser.
Local Open Scope Z_scope.

(** ** The monitor with the shipped policies *)
Record zinv (m : monitor) : Prop := Zinv {
  zinv_cur : fsm_wf (curFSMState m);
  zinv_new : fsm_wf (newFSMState m);
  zinv_init : fsm_new_init m = false;
  zinv_cache : shipped (cache m);
}.

Lemma zinv_monitor0 : zinv (Monitor zero_fsm zero_fsm false zephyr_cache).
Proof. constructor; cbn; auto using zero_fsm_wf, shipped_zephyr_cache. Qed.

Lemma u16_int v : is_int (u16 v).
Proof. unfold is_int. clia. Qed.

Lemma class_val_u16 c : u16 (class_val c) = class_val c.
Proof. now destruct c. Qed.

Lemma class_size_bound c : (class_size c <= 15)%nat.
Proof. destruct c; cbn; lia. Qed.

Lemma check_update_mon m v t c :
  zinv m -> c <> IFW_STATE_CLASS_NUM -> 0 <= t < Z.of_nat (class_size c) ->
  exists s', set_slot c t (u16 v) (newFSMState m) = Ok s' /\
    IFW_FSM_CHECK_UPDATE m v t (class_val c) =
      Ok (Monitor (curFSMState m) s' false (cache m)) /\
    zinv (Monitor (curFSMState m) s' false (cache m)).
Proof.
  intros [Hc Hn Hi Hs] Hcl Ht. pose proof (class_size_bound c).
  destruct (set_slot_ok c t (u16 v) (newFSMState m) Hn (u16_int v) Ht) as (s' & Es & Hw).
  exists s'. split; [done|]. split; [|now constructor].
  unfold IFW_FSM_CHECK_UPDATE, ifw_fsm_check_update.
  rewrite class_val_u16, class_of_val, Hi, (u16_small t), Es by (auto; lia). cbn.
  now rewrite Hi.
Qed.

Lemma shipped_same m m' : shipped m -> same_tables m m' -> cache_wf m' -> shipped m'.
Proof. intros (_ & Ht & Ha) (vm & jvm & ->) Hw. split; [done|]. split; [exact Ht|exact Ha]. Qed.

Lemma slot_list_shipped m c t : shipped m -> slot_list m c t = slot_list zephyr_cache c t.
Proof. intros (_ & Ht & _). unfold slot_list. now rewrite Ht. Qed.

(** The verifier rejects when one of the C sources of the slot's policies does. *)
Lemma run_verifier_mon E m t c :
  env_ok E -> zinv m -> slot_in (class_val c) t ->
  exists m', IFW_RUN_VERIFIER E true m t (class_val c) =
      Ok (m', slot_rejects (newFSMState m) (class_val c) t) /\
    zinv m' /\ newFSMState m' = newFSMState m /\ curFSMState m' = curFSMState m.
Proof.
  intros HE [Hc Hn Hi Hs] Hin. destruct zephyr_port_ok as [Hp Hd].
  pose proof Hs as (Hwf & _ & _).
  destruct (run_policies_eq (P := zephyr_port) Hd E (cache m) (fsm_bytes (newFSMState m))
    (slot_list (cache m) (class_val c) t) (policy_val (newFSMState m))) as (ca & Er & Hca & Hw);
    [done|..].
  { eapply Forall_impl; [now apply shipped_pids|]. intros pid Hpid.
    now apply shipped_policy_returns. }
  exists (Monitor (curFSMState m) (newFSMState m) false ca).
  assert (Ht : 0 <= t < 2 ^ 16) by (destruct Hin as [_ Hin]; change IFW_DC_PARAM_NUM with 15 in Hin; lia).
  unfold IFW_RUN_VERIFIER, ifw_run_verifier, run_fsm_check_policy.
  rewrite class_val_u16, (u16_small t), table_get_ok by (auto; lia). cbn [mbind res_bind].
  rewrite Er. unfold slot_rejects. rewrite <- (slot_list_shipped (cache m)) by done.
  cbn [mbind res_bind]. rewrite fsm_of_bytes_bytes by done.
  split; [now destruct (existsb _ _)|]. split; [|done].
  constructor; cbn; auto. destruct Hca as [->|Hca]; [done|]. now apply (shipped_same (cache m)).
Qed.

(** ** What the policies of a slot reject *)

(** The only slot the policies of (c, t) read is (c, t), and they reject the
    words that satisfy [f]. *)
Definition slot_policy (c : ifw_state_class) (t : Z) (f : Z -> bool) : Prop :=
  forall s w, get_slot c t s = Ok w -> slot_rejects s (class_val c) t = f w.

Lemma policy_val_eq s pid f v :
  filter_of pid = Some f -> f s = Ok v -> policy_val s pid = v.
Proof. intros Hf Hv. unfold policy_val. now rewrite Hf, Hv. Qed.

Lemma slot_rejects_one s class type pid v :
  slot_list zephyr_cache class type = [pid] -> policy_val s pid = v ->
  slot_rejects s class type = (v =? IFW_OPERATION_REJECT).
Proof. intros Hl Hv. unfold slot_rejects. rewrite Hl. cbn. now rewrite Hv, orb_false_r. Qed.

(** A slot with one policy, whose source reads the slot and compares. *)
Lemma slot_policy_intro c t pid f (g : Z -> bool) :
  slot_list zephyr_cache (class_val c) t = [pid] -> filter_of pid = Some f ->
  (forall s w, get_slot c t s = Ok w ->
     f s = if g w then Ok IFW_OPERATION_REJECT else Ok IFW_OPERATION_PASS) ->
  slot_policy c t g.
Proof.
  intros Hl Hf H s w Hg. specialize (H s w Hg).
  rewrite (slot_rejects_one s _ _ pid (if g w then 1 else 0) Hl); [now destruct (g w)|].
  eapply policy_val_eq; [exact Hf|]. rewrite H. now destruct (g w).
Qed.

Ltac one_policy f :=
  eapply (slot_policy_intro _ _ _ f); [vm_compute; reflexivity|reflexivity|];
  intros s w Hg; unfold f; rewrite Hg; reflexivity.

Lemma chan_map_policy : slot_policy CONN (conn_val CHANNEL_MAP) (fun w => w <? 2).
Proof. one_policy conn_chan_map_filter. Qed.

Lemma chan_hop_policy :
  slot_policy CONN (conn_val CHANNEL_HOP) (fun w => (w <? 5) || (16 <? w)).
Proof. one_policy conn_chan_hop_filter. Qed.

Lemma interval_policy : slot_policy CONN (conn_val LLL_INTERVAL) (fun w => w =? 0).
Proof. one_policy lll_interval_filter. Qed.

Lemma scan_rsp_policy :
  slot_policy CONN (conn_val SCAN_RSP_LEN) (fun w => PDU_AC_SIZE_MAX <? w).
Proof. one_policy scan_rsp_len_filter. Qed.

Lemma len_req_policy : slot_policy DC (dc_val LLCP_LEN_REQ) (fun w => 1 <? w).
Proof. one_policy llcp_len_req_filter. Qed.

Lemma conn_param_req_policy :
  slot_policy DC (dc_val LLCP_CONN_PARAM_REQ) (fun w => 1 <? w).
Proof. one_policy llcp_conn_param_req_filter. Qed.

Lemma ble_role_policy s : slot_rejects s (class_val CORE) (core_val BLE_ROLE) = false.
Proof. unfold slot_rejects. replace (slot_list _ _ _) with (@nil Z); reflexivity. Qed.

Lemma nesn_policy s a n sn :
  get_slot DC (dc_val DC_ANCHOR_STATE) s = Ok a -> get_slot DC (dc_val NESN) s = Ok n ->
  get_slot DC (dc_val SN) s = Ok sn ->
  slot_rejects s (class_val DC) (dc_val NESN) = (a =? 1) && ((n =? 1) && (sn =? 1)).
Proof.
  intros Ha Hn Hs.
  rewrite (slot_rejects_one s (class_val DC) (dc_val NESN) 3
    (if (a =? 1) && ((n =? 1) && (sn =? 1)) then 1 else 0) ltac:(vm_compute; reflexivity)).
  - now destruct (_ && _).
  - eapply (policy_val_eq _ _ dc_nesn_filter); [reflexivity|]. unfold dc_nesn_filter.
    rewrite Ha, Hn, Hs. cbn.
    now destruct (a =? 1), (n =? 1), (sn =? 1).
Qed.

(** ** The operations of the hook *)

(** A slot of the staging state. *)
Definition slot (st : ll_parser) (c : ifw_state_class) (t : Z) : res Z :=
  get_slot c t (newFSMState (mon st)).

(** [st'] is [st] up to the slots in [ws] and the verdict. *)
Definition keeps (ws : list (ifw_state_class * Z)) (st st' : ll_parser) : Prop :=
  zinv (mon st') /\
  (forall c t, ~ In (c, t) ws -> slot st' c t = slot st c t) /\
  llcp_len_req_pending st' = llcp_len_req_pending st /\
  llcp_cpr_pending st' = llcp_cpr_pending st.

Lemma keeps_trans ws1 ws2 st1 st2 st3 :
  keeps ws1 st1 st2 -> keeps ws2 st2 st3 -> keeps (ws1 ++ ws2) st1 st3.
Proof.
  intros (_ & Hs1 & Hl1 & Hc1) (Hz & Hs2 & Hl2 & Hc2).
  split; [done|]. split; [|split; congruence].
  intros c t Hn. rewrite in_app_iff in Hn. rewrite Hs2, Hs1 by tauto. done.
Qed.

Lemma keeps_result ws st st' r : keeps ws st st' -> keeps ws st (set_result st' r).
Proof. intros H. exact H. Qed.

Lemma check_update_ok st v t c :
  zinv (mon st) -> c <> IFW_STATE_CLASS_NUM -> 0 <= t < Z.of_nat (class_size c) ->
  exists st', check_update st v t c = Ok st' /\ keeps [(c, t)] st st' /\
    slot st' c t = Ok (u16 v) /\ result st' = result st.
Proof.
  intros Hz Hc Ht. destruct (check_update_mon (mon st) v t c Hz Hc Ht) as (s' & Es & Eu & Hz').
  unfold check_update. rewrite Eu. cbn. eexists. split; [reflexivity|].
  split; [|split; [|done]].
  - split; [done|]. split; [|done]. intros c' t' Hn. unfold slot. cbn.
    eapply get_set_slot_ne; [exact Es|]. intros E. apply Hn. now left.
  - unfold slot. cbn. eapply get_set_slot_eq; exact Es.
Qed.

Lemma run_verifier_ok E st t c :
  env_ok E -> zinv (mon st) -> slot_in (class_val c) t ->
  exists st', run_verifier E st t c =
      Ok (st', slot_rejects (newFSMState (mon st)) (class_val c) t) /\
    keeps [] st st' /\ result st' = result st.
Proof.
  intros HE Hz Hin. destruct (run_verifier_mon E (mon st) t c HE Hz Hin) as
    (m' & Er & Hz' & Hn & _).
  unfold run_verifier. rewrite Er. cbn. eexists. split; [reflexivity|]. split; [|done].
  split; [done|]. split; [|done]. intros c' t' _. unfold slot. cbn. now rewrite Hn.
Qed.

(** Writing a slot and running its policies. *)
Lemma update_verify E st v t c f :
  env_ok E -> zinv (mon st) -> c <> IFW_STATE_CLASS_NUM ->
  0 <= t < Z.of_nat (class_size c) -> slot_policy c t f ->
  exists st1 st2, check_update st v t c = Ok st1 /\
    run_verifier E st1 t c = Ok (st2, f (u16 v)) /\
    keeps [(c, t)] st st2 /\ result st2 = result st.
Proof.
  intros HE Hz Hc Ht Hf. pose proof (class_size_bound c).
  destruct (check_update_ok st v t c Hz Hc Ht) as (st1 & E1 & K1 & Hs & R1).
  destruct (run_verifier_ok E st1 t c HE) as (st2 & E2 & K2 & R2); [apply K1| |].
  { split; [destruct c; done|]. change IFW_DC_PARAM_NUM with 15. lia. }
  exists st1, st2. split; [done|]. split; [|split; [|congruence]].
  - rewrite E2. unfold slot in Hs. now rewrite (Hf _ _ Hs).
  - exact (keeps_trans _ _ _ _ _ K1 K2).
Qed.

Lemma check_one_ok E st v t c f :
  env_ok E -> zinv (mon st) -> c <> IFW_STATE_CLASS_NUM ->
  0 <= t < Z.of_nat (class_size c) -> slot_policy c t f ->
  exists st', check_one E st v t c = Ok st' /\ keeps [(c, t)] st st' /\
    result st' = if f (u16 v) then IFW_OPERATION_REJECT else result st.
Proof.
  intros HE Hz Hc Ht Hf.
  destruct (update_verify E st v t c f HE Hz Hc Ht Hf) as (st1 & st2 & E1 & E2 & K & R).
  unfold check_one. rewrite E1. cbn. rewrite E2. cbn.
  destruct (f (u16 v)); eexists; (split; [reflexivity|]); split; auto using keeps_result.
Qed.

Lemma setup_role_ok E st r :
  env_ok E -> zinv (mon st) ->
  exists st', setup_role E st r = Ok st' /\ keeps [(CORE, core_val BLE_ROLE)] st st' /\
    result st' = result st.
Proof.
  intros HE Hz.
  destruct (check_update_ok st (ble_role_val r) (core_val BLE_ROLE) CORE Hz) as
    (st1 & E1 & K1 & _ & R1); [done|cbn; lia|].
  destruct (run_verifier_ok E st1 (core_val BLE_ROLE) CORE HE) as (st2 & E2 & K2 & R2);
    [apply K1|slot_range|].
  unfold setup_role. rewrite E1. cbn [mbind res_bind]. rewrite E2, ble_role_policy. cbn.
  exists st2. split; [done|]. split; [exact (keeps_trans _ _ _ _ _ K1 K2)|congruence].
Qed.

(** ** The abstract firewall *)
Record firewall := Firewall {
  anchor : bool;          (* no data PDU has passed since the connection began *)
  len_pending : Z;        (* length requests minus responses received *)
  cpr_pending : Z;        (* the same for connection parameter requests *)
}.

(** The fields of the PDUs, on lists that are long enough. *)
Definition byte_of (pdu : list Z) (i : nat) : Z := default 0 (pdu !! i).
Definition le16_of (pdu : list Z) (i : nat) : Z := byte_of pdu i + 256 * byte_of pdu (i + 1).

(** Does a CONNECT_IND carry illegal parameters? *)
Definition bad_connect_ind (pdu : list Z) : bool :=
  (channels (slice 30 5 pdu) <? 2) ||
  (let hop := Z.land (byte_of pdu 35) 0x1f in (hop <? 5) || (16 <? hop)) ||
  (le16_of pdu 24 =? 0).

Definition is_anchor_attack (pdu : list Z) : bool :=
  Z.testbit (byte_of pdu 0) 2 && Z.testbit (byte_of pdu 0) 3.

(** A control PDU: its effect on the counters and whether it is rejected. A counter
    reaches the policy as 16 bits. *)
Definition fw_ctrl (f : firewall) (pdu : list Z) : firewall * bool :=
  let op := byte_of pdu 3 in
  if op =? PDU_DATA_LLCTRL_TYPE_CONN_UPDATE_IND then (f, le16_of pdu 7 =? 0)
  else if op =? PDU_DATA_LLCTRL_TYPE_CHAN_MAP_IND then (f, channels (slice 4 5 pdu) <? 2)
  else if op =? PDU_DATA_LLCTRL_TYPE_LENGTH_REQ then
    let n := int_succ (len_pending f) in
    (Firewall (anchor f) n (cpr_pending f), 1 <? u16 n)
  else if op =? PDU_DATA_LLCTRL_TYPE_LENGTH_RSP then
    (Firewall (anchor f) (int_pred_pos (len_pending f)) (cpr_pending f), false)
  else if op =? PDU_DATA_LLCTRL_TYPE_CONN_PARAM_REQ then
    let n := int_succ (cpr_pending f) in
    (Firewall (anchor f) (len_pending f) n, 1 <? u16 n)
  else if op =? PDU_DATA_LLCTRL_TYPE_CONN_PARAM_RSP then
    (Firewall (anchor f) (len_pending f) (int_pred_pos (cpr_pending f)), false)
  else (f, false).

(** One packet: the next state and whether the packet is rejected. *)
Definition fw_rx (f : firewall) (rx : node_rx) : firewall * bool :=
  match rx with
  | NODE_RX_TYPE_CONNECTION lll pdu =>
      if role lll =? 1 then (Firewall true 0 0, bad_connect_ind pdu) else (f, false)
  | NODE_RX_TYPE_DC_PDU pdu =>
      if anchor f && is_anchor_attack pdu then (f, true)
      else
        let f := Firewall false (len_pending f) (cpr_pending f) in
        if Z.land (byte_of pdu 0) 3 =? PDU_DATA_LLID_CTRL then fw_ctrl f pdu else (f, false)
  | _ => (f, false)
  end.

(** Packets the controller can hand up: bytes, in buffers long enough for the
    fields that are read, and a one-bit role. *)
Definition rx_wf (rx : node_rx) : Prop :=
  match rx with
  | NODE_RX_TYPE_CONNECTION lll pdu =>
      Forall (fun b => is_byte b = true) pdu /\ (36 <= length pdu)%nat /\
      (role lll = 0 \/ role lll = 1)
  | NODE_RX_TYPE_DC_PDU pdu =>
      Forall (fun b => is_byte b = true) pdu /\ (9 <= length pdu)%nat
  | _ => True
  end.

(** The state of the hook represents an abstract state. *)
Record represents (st : ll_parser) (f : firewall) : Prop := Represents {
  rep_inv : zinv (mon st);
  rep_anchor : slot st DC (dc_val DC_ANCHOR_STATE) = Ok (Z.b2z (anchor f));
  rep_len : llcp_len_req_pending st = len_pending f;
  rep_cpr : llcp_cpr_pending st = cpr_pending f;
}.

(** ** Reading PDUs *)
Lemma pdu_byte_ok pdu i :
  (i < length pdu)%nat -> pdu_byte pdu (Z.of_nat i) = Ok (byte_of pdu i).
Proof.
  intros Hi. unfold pdu_byte, byte_of. destruct (lookup_lt_is_Some_2 pdu i Hi) as [b Hb].
  rewrite Hb. replace (arr_get pdu (Z.of_nat i)) with (Some b); [done|]. symmetry.
  apply arr_get_Some. rewrite Nat2Z.id. split; [lia|done].
Qed.

Lemma pdu_bytes_ok pdu off n :
  (off + n <= length pdu)%nat -> pdu_bytes pdu off n = Ok (slice off n pdu).
Proof. intros H. unfold pdu_bytes. apply Nat.leb_le in H. now rewrite H. Qed.

Lemma pdu_le16_ok pdu off :
  (off + 2 <= length pdu)%nat -> pdu_le16 pdu off = Ok (le16_of pdu off).
Proof.
  intros H. unfold pdu_le16. rewrite pdu_bytes_ok by done. cbn. f_equal.
  unfold le16_of, byte_of, slice.
  destruct (lookup_lt_is_Some_2 pdu off ltac:(lia)) as [x Hx].
  destruct (lookup_lt_is_Some_2 pdu (off + 1) ltac:(lia)) as [y Hy].
  rewrite (drop_S _ x) by done. rewrite (drop_S _ y) by (now rewrite <- Nat.add_1_r).
  cbn [take le_val]. rewrite Hx, Hy. unfold default, id.
  rewrite take_0. cbn [le_val]. lia.
Qed.

Lemma byte_of_byte pdu i :
  Forall (fun b => is_byte b = true) pdu -> 0 <= byte_of pdu i < 256.
Proof.
  intros H. unfold byte_of. destruct (pdu !! i) eqn:E; cbn; [|lia].
  apply (Forall_lookup_1 _ _ _ _ H) in E. unfold is_byte in E. lia.
Qed.

Lemma le16_of_u16 pdu i :
  Forall (fun b => is_byte b = true) pdu -> u16 (le16_of pdu i) = le16_of pdu i.
Proof.
  intros H. pose proof (byte_of_byte pdu i H). pose proof (byte_of_byte pdu (i + 1) H).
  unfold le16_of. apply u16_small. lia.
Qed.

Lemma land_1_testbit b k : 0 <= k -> Z.land (Z.shiftr b k) 1 = Z.b2z (Z.testbit b k).
Proof.
  intros Hk. change 1 with (Z.ones 1). rewrite Z.land_ones by lia. change (2 ^ 1) with 2.
  rewrite <- Z.bit0_mod, Z.shiftr_spec by lia. now replace (0 + k) with k by lia.
Qed.

Lemma slice_byte off n pdu :
  Forall (fun b => is_byte b = true) pdu -> Forall (fun b => is_byte b = true) (slice off n pdu).
Proof. intros H. now apply Forall_take, Forall_drop. Qed.

Lemma u16_b2z b : u16 (Z.b2z b) = Z.b2z b.
Proof. now destruct b. Qed.

(** ** The hook implements the abstract firewall *)
Lemma keeps_slot ws st st' c t v :
  keeps ws st st' -> ~ In (c, t) ws -> slot st c t = Ok v -> slot st' c t = Ok v.
Proof. intros (_ & Hs & _) Hn Hv. now rewrite Hs. Qed.

Lemma keeps_represents ws st st' f :
  represents st f -> keeps ws st st' -> ~ In (DC, dc_val DC_ANCHOR_STATE) ws ->
  represents st' f.
Proof.
  intros [Hi Ha Hl Hc] K Hn. pose proof (keeps_slot _ _ _ _ _ _ K Hn Ha).
  destruct K as (Hz & _ & Hl' & Hc'). constructor; congruence.
Qed.

Section Refine.
  Context (E : exec_env) (HE : env_ok E).

(** One stage of a handler: write a slot, run its policies, and stop with [A] or
    go on with [B]. *)
Lemma stage_ok st f v t c p :
  represents st f -> c <> IFW_STATE_CLASS_NUM -> 0 <= t < Z.of_nat (class_size c) ->
  slot_policy c t p -> (c, t) <> (DC, dc_val DC_ANCHOR_STATE) ->
  exists st', (forall T (A B : ll_parser -> res T),
     (st1 ← check_update st v t c;
      '(st2, rej) ← run_verifier E st1 t c;
      if (rej : bool) then A st2 else B st2) = (if p (u16 v) then A st' else B st')) /\
    represents st' f /\ result st' = result st.
Proof.
  intros Hrep Hc Ht Hp Hne.
  destruct (update_verify E st v t c p HE (rep_inv _ _ Hrep) Hc Ht Hp)
    as (st1 & st2 & E1 & E2 & K & R).
  exists st2. rewrite E1. cbn [mbind res_bind]. rewrite E2. split; [done|]. split; [|done].
  eapply keeps_represents; [exact Hrep|exact K|]. intros [H|[]]. now apply Hne.
Qed.

Lemma represents_result st f r : represents st f -> represents (set_result st r) f.
Proof. intros [? ? ? ?]. now constructor. Qed.

(** Arms the anchor flag and resets the counters. *)
Lemma arm_anchor st :
  zinv (mon st) ->
  exists st1, check_update (set_cpr_pending (set_len_pending st 0) 0) 1
      (dc_val DC_ANCHOR_STATE) DC = Ok st1 /\
    represents st1 (Firewall true 0 0) /\ result st1 = result st.
Proof.
  intros Hz.
  destruct (check_update_ok (set_cpr_pending (set_len_pending st 0) 0) 1
    (dc_val DC_ANCHOR_STATE) DC) as (st1 & E1 & (Hz1 & _ & Hl1 & Hc1) & S1 & R1);
    [done|done|cbn; lia|].
  exists st1. split; [done|]. split; [|done]. now constructor.
Qed.

Lemma peripheral_setup_refines st lll pdu :
  zinv (mon st) -> Forall (fun b => is_byte b = true) pdu -> (36 <= length pdu)%nat ->
  result st = IFW_OPERATION_PASS ->
  exists st' lll', ifw_peripheral_setup E st lll pdu = Ok (st', lll') /\
    represents st' (Firewall true 0 0) /\ result st' = Z.b2z (bad_connect_ind pdu).
Proof.
  intros Hz Hb Hl Hr. unfold ifw_peripheral_setup, pdu_adv_crc_init, pdu_adv_access_addr,
    pdu_adv_chan_map, pdu_adv_hop, pdu_adv_interval, bad_connect_ind.
  assert (E35 : pdu_byte pdu 35 = Ok (byte_of pdu 35)) by (apply (pdu_byte_ok pdu 35); lia).
  rewrite !pdu_bytes_ok, E35, pdu_le16_ok by lia. cbn [mbind res_bind].
  destruct (arm_anchor st Hz) as (st1 & -> & Hrep & Hr1). cbn [mbind res_bind].
  rewrite Hr in Hr1.
  rewrite count_one_channels by (auto using slice_byte; rewrite length_slice; lia).
  pose proof (channels_bound (slice 30 5 pdu) (slice_byte 30 5 pdu Hb)) as Hch.
  cbn [mbind res_bind]. rewrite (Z.mod_small (channels _) 64) by lia.
  cbn [data_chan_count data_chan_hop interval].
  destruct (stage_ok st1 (Firewall true 0 0) (channels (slice 30 5 pdu)) (conn_val CHANNEL_MAP) CONN (fun w => w <? 2))
    as (st2 & E2 & Hrep2 & Hr2); [exact Hrep|done|cbn; lia|exact chan_map_policy|done|].
  rewrite E2.
  rewrite (u16_small (channels _)) by lia.
  destruct (channels (slice 30 5 pdu) <? 2); cbn [orb].
  { eexists _, _. split; [reflexivity|]. auto using represents_result. }
  set (h := Z.land (byte_of pdu 35) 31).
  assert (Hh : 0 <= h < 2 ^ 8) by (apply land_bound; [lia|]; now apply byte_of_byte).
  destruct (stage_ok st2 (Firewall true 0 0) h (conn_val CHANNEL_HOP) CONN (fun w => (w <? 5) || (16 <? w)))
    as (st3 & E3 & Hrep3 & Hr3); [exact Hrep2|done|cbn; lia|exact chan_hop_policy|done|].
  rewrite E3.
  rewrite (u16_small h) by lia. destruct ((h <? 5) || (16 <? h)); cbn [orb].
  { eexists _, _. split; [reflexivity|]. auto using represents_result. }
  destruct (stage_ok st3 (Firewall true 0 0) (le16_of pdu 24) (conn_val LLL_INTERVAL) CONN (fun w => w =? 0))
    as (st4 & E4 & Hrep4 & Hr4); [exact Hrep3|done|cbn; lia|exact interval_policy|done|].
  rewrite E4.
  rewrite le16_of_u16 by done.
  destruct (le16_of pdu 24 =? 0); eexists _, _; (split; [reflexivity|]);
    split; auto using represents_result. now rewrite Hr4, Hr3, Hr2.
Qed.

Lemma check_one_refines st f v t c p :
  represents st f -> c <> IFW_STATE_CLASS_NUM -> 0 <= t < Z.of_nat (class_size c) ->
  slot_policy c t p -> (c, t) <> (DC, dc_val DC_ANCHOR_STATE) ->
  result st = IFW_OPERATION_PASS ->
  exists st', check_one E st v t c = Ok st' /\ represents st' f /\
    result st' = Z.b2z (p (u16 v)).
Proof.
  intros Hrep Hc Ht Hp Hne Hr. unfold check_one.
  destruct (stage_ok st f v t c p Hrep Hc Ht Hp Hne) as (st1 & E1 & Hrep1 & Hr1).
  rewrite E1. destruct (p (u16 v)); eexists; (split; [reflexivity|]); split;
    auto using represents_result. now rewrite Hr1, Hr.
Qed.

Lemma check_one_small st f v t c p :
  represents st f -> c <> IFW_STATE_CLASS_NUM -> 0 <= t < Z.of_nat (class_size c) ->
  slot_policy c t p -> (c, t) <> (DC, dc_val DC_ANCHOR_STATE) ->
  result st = IFW_OPERATION_PASS -> u16 v = v ->
  exists st', check_one E st v t c = Ok st' /\ represents st' f /\
    result st' = Z.b2z (p v).
Proof.
  intros Hrep Hc Ht Hp Hne Hr Hv.
  destruct (check_one_refines st f v t c p) as (st' & ? & ? & Hst); auto.
  exists st'. now rewrite Hv in Hst.
Qed.

Lemma ctrl_rx_refines st f pdu :
  represents st f -> Forall (fun b => is_byte b = true) pdu -> (9 <= length pdu)%nat ->
  result st = IFW_OPERATION_PASS ->
  exists st', ifw_ctrl_rx E st pdu = Ok st' /\ represents st' (fw_ctrl f pdu).1 /\
    result st' = Z.b2z (fw_ctrl f pdu).2.
Proof.
  intros Hrep Hb Hl Hr. unfold ifw_ctrl_rx, fw_ctrl, pdu_data_llctrl_opcode,
    pdu_data_conn_update_ind_interval, pdu_data_chan_map_ind_chm.
  assert (E3 : pdu_byte pdu 3 = Ok (byte_of pdu 3)) by (apply (pdu_byte_ok pdu 3); lia).
  rewrite E3, pdu_le16_ok, pdu_bytes_ok by lia. cbn [mbind res_bind].
  rewrite count_one_channels by (auto using slice_byte; rewrite length_slice; lia).
  pose proof (channels_bound (slice 4 5 pdu) (slice_byte 4 5 pdu Hb)) as Hch.
  cbn [mbind res_bind].
  destruct (byte_of pdu 3 =? PDU_DATA_LLCTRL_TYPE_CONN_UPDATE_IND).
  { apply (check_one_small _ _ _ _ _ (fun w => w =? 0)); [done|done|cbn; lia|
      exact interval_policy|done|done|now apply le16_of_u16]. }
  destruct (byte_of pdu 3 =? PDU_DATA_LLCTRL_TYPE_CHAN_MAP_IND).
  { apply (check_one_small _ _ _ _ _ (fun w => w <? 2)); [done|done|cbn; lia|
      exact chan_map_policy|done|done|apply u16_small; lia]. }
  destruct Hrep as [Hi Ha Hlp Hcp].
  destruct (byte_of pdu 3 =? PDU_DATA_LLCTRL_TYPE_LENGTH_REQ).
  { cbn [fst snd llcp_len_req_pending set_len_pending]. rewrite Hlp.
    apply (check_one_refines _ _ _ _ _ (fun w => 1 <? w)); [constructor; done|done|
      cbn; lia|exact len_req_policy|done|done]. }
  destruct (byte_of pdu 3 =? PDU_DATA_LLCTRL_TYPE_LENGTH_RSP).
  { eexists. split; [reflexivity|]. split; [constructor; first [exact Hi|exact Ha|cbn -[int_pred_pos]; congruence]|done]. }
  destruct (byte_of pdu 3 =? PDU_DATA_LLCTRL_TYPE_CONN_PARAM_REQ).
  { cbn [fst snd llcp_cpr_pending set_cpr_pending]. rewrite Hcp.
    apply (check_one_refines _ _ _ _ _ (fun w => 1 <? w)); [constructor; done|done|
      cbn; lia|exact conn_param_req_policy|done|done]. }
  destruct (byte_of pdu 3 =? PDU_DATA_LLCTRL_TYPE_CONN_PARAM_RSP);
    (eexists; split; [reflexivity|]; split; [constructor; first [exact Hi|exact Ha|cbn -[int_pred_pos]; congruence]|done]).
Qed.

(** The part of [ifw_conn_rx] up to the verdict on the sequence numbers. *)
Lemma nesn_stage st f pdu n s :
  represents st f -> pdu_data_nesn pdu = Ok (Z.b2z n) -> pdu_data_sn pdu = Ok (Z.b2z s) ->
  exists st1 st2 st3, check_update st (Z.b2z n) (dc_val NESN) DC = Ok st1 /\
    check_update st1 (Z.b2z s) (dc_val SN) DC = Ok st2 /\
    run_verifier E st2 (dc_val NESN) DC = Ok (st3, anchor f && (n && s)) /\
    represents st3 f /\ result st3 = result st.
Proof.
  intros Hrep Hn Hs.
  destruct (check_update_ok st (Z.b2z n) (dc_val NESN) DC) as (st1 & E1 & K1 & S1 & R1);
    [apply Hrep|done|cbn; lia|].
  destruct (check_update_ok st1 (Z.b2z s) (dc_val SN) DC) as (st2 & E2 & K2 & S2 & R2);
    [apply K1|done|cbn; lia|].
  assert (Hrep1 : represents st1 f)
    by (eapply keeps_represents; [exact Hrep|exact K1|intros [[=]|[]]]).
  assert (Hrep2 : represents st2 f)
    by (eapply keeps_represents; [exact Hrep1|exact K2|intros [[=]|[]]]).
  destruct (run_verifier_ok E st2 (dc_val NESN) DC HE) as (st3 & E3 & K3 & R3);
    [apply Hrep2|slot_range|].
  exists st1, st2, st3. split; [done|]. split; [done|].
  assert (S1' : slot st2 DC (dc_val NESN) = Ok (u16 (Z.b2z n)))
    by (eapply keeps_slot; [exact K2|intros [[=]|[]]|exact S1]).
  rewrite E3, (nesn_policy _ _ _ _ (rep_anchor _ _ Hrep2) S1' S2), !u16_b2z.
  split; [now destruct (anchor f), n, s|]. split; [|congruence].
  eapply keeps_represents; [exact Hrep2|exact K3|intros []].
Qed.

Lemma conn_rx_refines st f pdu :
  represents st f -> Forall (fun b => is_byte b = true) pdu -> (9 <= length pdu)%nat ->
  result st = IFW_OPERATION_PASS ->
  let '(f', rej) := fw_rx f (NODE_RX_TYPE_DC_PDU pdu) in
  exists st', ifw_conn_rx E st pdu = Ok st' /\ represents st' f' /\ result st' = Z.b2z rej.
Proof.
  intros Hrep Hb Hl Hr. cbn [fw_rx]. unfold is_anchor_attack.
  assert (E0 : pdu_byte pdu 0 = Ok (byte_of pdu 0)) by (apply (pdu_byte_ok pdu 0); lia).
  assert (En : pdu_data_nesn pdu = Ok (Z.b2z (Z.testbit (byte_of pdu 0) 2)))
    by (unfold pdu_data_nesn; rewrite E0; cbn [mbind res_bind]; now rewrite land_1_testbit by lia).
  assert (Es : pdu_data_sn pdu = Ok (Z.b2z (Z.testbit (byte_of pdu 0) 3)))
    by (unfold pdu_data_sn; rewrite E0; cbn [mbind res_bind]; now rewrite land_1_testbit by lia).
  destruct (nesn_stage st f pdu _ _ Hrep En Es) as (st1 & st2 & st3 & E1 & E2 & E3 & Hrep3 & R3).
  unfold ifw_conn_rx. rewrite En, Es. cbn [mbind res_bind]. rewrite E1. cbn [mbind res_bind].
  rewrite E2. cbn [mbind res_bind]. rewrite E3. cbn [mbind res_bind].
  destruct (anchor f && (Z.testbit (byte_of pdu 0) 2 && Z.testbit (byte_of pdu 0) 3)).
  { eexists. split; [reflexivity|]. split; [now apply represents_result|done]. }
  destruct (check_update_ok st3 0 (dc_val DC_ANCHOR_STATE) DC) as (st4 & E4 & K4 & S4 & R4);
    [apply Hrep3|done|cbn; lia|].
  rewrite E4. unfold pdu_data_ll_id. rewrite E0. cbn [mbind res_bind].
  assert (Hrep4 : represents st4 (Firewall false (len_pending f) (cpr_pending f))).
  { destruct Hrep3 as [? ? ? ?], K4 as (? & _ & ? & ?). constructor; first [assumption | exact S4 | cbn; congruence]. }
  assert (Hr4 : result st4 = IFW_OPERATION_PASS) by congruence.
  destruct (Z.land (byte_of pdu 0) 3 =? PDU_DATA_LLID_CTRL); [|now exists st4].
  destruct (ctrl_rx_refines st4 _ pdu Hrep4 Hb Hl Hr4) as (st5 & -> & Hrep5 & Hr5).
  destruct (fw_ctrl _ pdu) as [f' rej]. now exists st5.
Qed.

Lemma rx_refines st f rx :
  represents st f -> rx_wf rx ->
  exists st' lll, ifw_ll_packet_parser_rx E st rx = Ok (st', Z.b2z (fw_rx f rx).2, lll) /\
    represents st' (fw_rx f rx).1.
Proof.
  intros Hrep0 Hwf. unfold ifw_ll_packet_parser_rx.
  pose proof (represents_result _ _ IFW_OPERATION_PASS Hrep0) as Hrep.
  set (st1 := set_result st IFW_OPERATION_PASS) in *.
  assert (Hr : result st1 = IFW_OPERATION_PASS) by done. clearbody st1.
  destruct rx as [|lll pdu|pdu|]; try (eexists _, _; split; [try rewrite Hr; reflexivity|done]).
  - destruct Hwf as (Hb & Hl & Hrole). unfold ifw_conn_setup. cbn [fw_rx].
    destruct Hrole as [-> | ->]; cbn [Z.eqb Pos.eqb].
    + destruct (setup_role_ok E st1 IFW_BLE_ROLE_CENTRAL HE) as (st2 & E2 & K2 & R2);
        [apply Hrep|]. unfold ifw_central_setup. cbn [mbind res_bind]. rewrite E2.
      eexists _, _. split; [cbn; now rewrite R2, Hr|].
      eapply keeps_represents; [exact Hrep|exact K2|intros [[=]|[]]].
    + destruct (peripheral_setup_refines st1 lll pdu) as (st2 & lll2 & E2 & Hrep2 & R2);
        [apply Hrep|done|done|done|]. rewrite E2. cbn [mbind res_bind].
      destruct (setup_role_ok E st2 IFW_BLE_ROLE_PERIPHERAL HE) as (st3 & E3 & K3 & R3);
        [apply Hrep2|]. rewrite E3. eexists _, _. split; [cbn; now rewrite R3, R2|].
      eapply keeps_represents; [exact Hrep2|exact K3|intros [[=]|[]]].
  - destruct Hwf as [Hb Hl]. pose proof (conn_rx_refines st1 f pdu Hrep Hb Hl Hr) as H.
    destruct (fw_rx f (NODE_RX_TYPE_DC_PDU pdu)) as [f' rej]. destruct H as (st2 & -> & Hrep2 & R2).
    eexists _, _. split; [cbn; now rewrite R2|done].
Qed.
End Refine.

(** ** Sequences of packets *)

(** The hook on one packet after the other, with the verdicts. *)
Fixpoint rx_all (E : exec_env) (st : ll_parser) (rxs : list node_rx)
    : res (ll_parser * list Z) :=
  match rxs with
  | [] => Ok (st, [])
  | rx :: rxs =>
      '(st, v, _) ← ifw_ll_packet_parser_rx E st rx;
      '(st, vs) ← rx_all E st rxs;
      Ok (st, v :: vs)
  end.

Fixpoint fw_all (f : firewall) (rxs : list node_rx) : firewall * list bool :=
  match rxs with
  | [] => (f, [])
  | rx :: rxs =>
      let '(f, v) := fw_rx f rx in
      let '(f, vs) := fw_all f rxs in
      (f, v :: vs)
  end.

(** The device after [ifw_fsm_init] and [ifw_fsm_enable(JIT_OFF)]. *)
Definition boot : res ll_parser :=
  m ← ifw_fsm_enable policy_state0 (fun _ => true) false;
  Ok (LlParser (ifw_fsm_init (Monitor zero_fsm zero_fsm false m)) IFW_OPERATION_PASS 0 0).

Definition boot_state : ll_parser :=
  LlParser (ifw_fsm_init (Monitor zero_fsm zero_fsm false zephyr_cache)) IFW_OPERATION_PASS 0 0.

Lemma boot_ok : boot = Ok boot_state.
Proof.
  unfold boot, ifw_fsm_enable. rewrite load_all_policies_ok. reflexivity.
Qed.

Lemma init_core_int : Forall is_int ifw_core_state_num.
Proof. unfold is_int. repeat (constructor; [cbn; lia|]). constructor. Qed.

Lemma boot_represents : represents boot_state (Firewall false 0 0).
Proof.
  constructor; try reflexivity. constructor; cbn.
  - split; [intros []; reflexivity|]. unfold fsm_words. cbn [core_state shared_state
      conn_param dc_param spi_param hci_param]. rewrite !Forall_app.
    split; [exact init_core_int|]. repeat split; apply Forall_replicate; unfold is_int; lia.
  - apply zero_fsm_wf.
  - done.
  - apply shipped_zephyr_cache.
Qed.

Lemma rx_all_refines E st f rxs :
  env_ok E -> represents st f -> Forall rx_wf rxs ->
  exists st', rx_all E st rxs = Ok (st', map Z.b2z (fw_all f rxs).2) /\
    represents st' (fw_all f rxs).1.
Proof.
  intros HE Hrep Hwf. revert st f Hrep. induction Hwf as [|rx rxs Hrx _ IH]; intros st f Hrep.
  { now exists st. }
  destruct (rx_refines E HE st f rx Hrep Hrx) as (st1 & lll & E1 & Hrep1).
  cbn [rx_all fw_all]. rewrite E1. destruct (fw_rx f rx) as [f1 v]. cbn [fst snd] in *.
  destruct (IH st1 f1 Hrep1) as (st2 & E2 & Hrep2). destruct (fw_all f1 rxs) as [f2 vs].
  cbn [mbind res_bind]. rewrite E2. now exists st2.
Qed.

(** C3 — End to end: from the state after start-up, on every sequence of
    well-formed packets, the Zephyr receive hook (PDU parser, staging state,
    policy lists, policy cache and the interpreter on the shipped bytecodes)
    returns for every packet, without fault, exactly the verdict of the abstract
    firewall: a CONNECT_IND to a peripheral is rejected when it enables fewer than
    two channels, has a hop outside of 5..16 or a zero interval; a data PDU when
    it is the NESN = SN = 1 pattern before any data PDU has passed on the
    connection; a control PDU when it sets a zero interval, enables fewer than two
    channels, or is a second outstanding length or connection-parameter request. *)
Theorem zephyr_hook_refines E rxs :
  env_ok E -> Forall rx_wf rxs ->
  exists st', (st ← boot; rx_all E st rxs) =
      Ok (st', map Z.b2z (fw_all (Firewall false 0 0) rxs).2) /\
    represents st' (fw_all (Firewall false 0 0) rxs).1.
Proof.
  intros HE Hwf. rewrite boot_ok. cbn [mbind res_bind].
  apply rx_all_refines; auto using boot_represents.
Qed.

(** A connection to a peripheral, followed by the anchor attack. *)
Definition sample_connect_ind : list Z :=
  replicate 24 0 ++ [24; 0; 0; 0; 72; 0; 0xff; 0xff; 0xff; 0xff; 0x1f; 9].

Definition sample_trace : list node_rx :=
  [NODE_RX_TYPE_CONNECTION (LllConn 1 [] [] [] 0 0 0) sample_connect_ind;
   NODE_RX_TYPE_DC_PDU [0x0e; 0; 0; 0; 0; 0; 0; 0; 0]].

Lemma zephyr_hook_refines_witness :
  exists st', (st ← boot; rx_all ram_env st sample_trace) = Ok (st', [0; 1]) /\
    represents st' (Firewall true 0 0).
Proof.
  apply (zephyr_hook_refines ram_env sample_trace).
  - split; [vm_compute; repeat split; congruence|]. apply Nat.leb_le. reflexivity.
  - apply Forall_cons; split; [|apply Forall_cons; split; [|constructor]].
    + split; [repeat constructor|]. split; [cbn; lia|right; reflexivity].
    + split; [repeat constructor|cbn; lia].
Defined.

(** ** The transmit hook *)

(** C29 — The Zephyr transmit hook rejects a PDU exactly when it is a SCAN_RSP
    longer than [PDU_AC_SIZE_MAX] bytes, never faults, and does not disturb the
    state of the receive hook. *)
Theorem zephyr_tx_hook E st f pdu :
  env_ok E -> represents st f -> Forall (fun b => is_byte b = true) pdu ->
  (2 <= length pdu)%nat ->
  exists st', ifw_ll_packet_parser_tx E st (Some pdu) =
      Ok (st', Z.b2z ((Z.land (byte_of pdu 0) 0xf =? PDU_ADV_TYPE_SCAN_RSP) &&
                      (PDU_AC_SIZE_MAX <? byte_of pdu 1))) /\
    represents st' f.
Proof.
  intros HE Hrep Hb Hl. unfold ifw_ll_packet_parser_tx, pdu_adv_type, pdu_adv_len.
  assert (E0 : pdu_byte pdu 0 = Ok (byte_of pdu 0)) by (apply (pdu_byte_ok pdu 0); lia).
  assert (E1 : pdu_byte pdu 1 = Ok (byte_of pdu 1)) by (apply (pdu_byte_ok pdu 1); lia).
  rewrite E0, E1. cbn [mbind res_bind].
  destruct (Z.land (byte_of pdu 0) 15 =? PDU_ADV_TYPE_SCAN_RSP); cbn [andb]; [|now exists st].
  destruct (stage_ok E HE st f (byte_of pdu 1) (conn_val SCAN_RSP_LEN) CONN
    (fun w => PDU_AC_SIZE_MAX <? w)) as (st1 & Es & Hrep1 & _);
    [done|done|cbn; lia|exact scan_rsp_policy|done|].
  rewrite Es. pose proof (byte_of_byte pdu 1 Hb). rewrite u16_small by lia.
  exists st1. now destruct (PDU_AC_SIZE_MAX <? byte_of pdu 1).
Qed.

Lemma zephyr_tx_hook_witness :
  exists st', ifw_ll_packet_parser_tx ram_env boot_state (Some [0x04; 81]) = Ok (st', 1) /\
    represents st' (Firewall false 0 0).
Proof.
  apply (zephyr_tx_hook ram_env boot_state (Firewall false 0 0) [0x04; 81]).
  - split; [vm_compute; repeat split; congruence|]. apply Nat.leb_le. reflexivity.
  - exact boot_represents.
  - repeat constructor.
  - cbn. lia.
Defined.

(** ** Limits of the counters *)

(** A received length request. *)
Definition length_req : node_rx := NODE_RX_TYPE_DC_PDU [3; 0; 0; 0x14; 0; 0; 0; 0; 0].

(** The counter of outstanding length requests falls only on received
    responses: on one connection, once a length request has passed, every later
    one is rejected until a response is received, even after the device has sent
    its own response, which the receive hook does not see and the transmit hook
    does not count. *)
Theorem second_length_req_rejected E st f n :
  env_ok E -> represents st f -> len_pending f = 0 -> anchor f = false ->
  1 < Z.of_nat n < 65536 ->
  exists st', rx_all E st (replicate n length_req) = Ok (st', 0 :: replicate (n - 1) 1).
Proof.
  intros HE Hrep Hp Ha Hn.
  destruct (rx_all_refines E st f (replicate n length_req) HE Hrep) as (st' & -> & _).
  { apply Forall_replicate. split; [repeat constructor|cbn; lia]. }
  exists st'. do 2 f_equal. destruct f as [a lp cp]. cbn in Hp, Ha. subst a lp. clear Hrep.
  assert (Hreq : forall f, anchor f = false -> fw_rx f length_req =
    (Firewall false (int_succ (len_pending f)) (cpr_pending f),
     1 <? u16 (int_succ (len_pending f)))).
  { intros [a l c]. cbn. intros ->. reflexivity. }
  assert (Hall : forall k l, 1 <= l -> Z.of_nat k + l < 65536 ->
    map Z.b2z (fw_all (Firewall false l cp) (replicate k length_req)).2 = replicate k 1).
  { induction k as [|k IH]; intros l Hl Hk; [done|]. cbn [replicate fw_all].
    rewrite Hreq by done. cbn [len_pending cpr_pending].
    unfold int_succ at 1. rewrite s32_small by lia.
    specialize (IH (l + 1) ltac:(lia) ltac:(lia)).
    destruct (fw_all _ _) as [f' vs]. cbn [snd map] in *. rewrite IH.
    unfold int_succ. rewrite s32_small, u16_small by lia.
    destruct (Z.ltb_spec 1 (l + 1)); [done|lia]. }
  destruct n as [|n]; [lia|]. cbn [replicate fw_all]. rewrite Hreq by done.
  cbn [len_pending cpr_pending]. change (int_succ 0) with 1.
  specialize (Hall n 1 ltac:(lia) ltac:(lia)).
  destruct (fw_all _ _) as [f' vs]. cbn [snd map] in *. rewrite Hall.
  replace (S n - 1)%nat with n by lia. reflexivity.
Qed.

Lemma second_length_req_rejected_witness :
  exists st', rx_all ram_env boot_state (replicate 3 length_req) = Ok (st', [0; 1; 1]).
Proof.
  apply (second_length_req_rejected ram_env boot_state (Firewall false 0 0) 3).
  - split; [vm_compute; repeat split; congruence|]. apply Nat.leb_le. reflexivity.
  - exact boot_represents.
  - reflexivity.
  - reflexivity.
  - lia.
Defined.

(** The policies see 16 bits of the counters: when 65535 length requests are
    outstanding, the next one is accepted. *)
Theorem length_req_wraps E st f :
  env_ok E -> represents st f -> len_pending f = 65535 -> anchor f = false ->
  exists st' lll, ifw_ll_packet_parser_rx E st length_req = Ok (st', IFW_OPERATION_PASS, lll) /\
    represents st' (Firewall false 65536 (cpr_pending f)).
Proof.
  intros HE Hrep Hp Ha.
  destruct (rx_refines E HE st f length_req Hrep) as (st' & lll & E1 & Hrep1).
  { split; [repeat constructor|cbn; lia]. }
  destruct f as [a lp cp]. cbn in Hp, Ha. subst a lp. now exists st', lll.
Qed.

Lemma length_req_wraps_witness :
  exists st' lll, ifw_ll_packet_parser_rx ram_env (set_len_pending boot_state 65535) length_req =
      Ok (st', IFW_OPERATION_PASS, lll) /\ represents st' (Firewall false 65536 0).
Proof.
  apply (length_req_wraps ram_env (set_len_pending boot_state 65535) (Firewall false 65535 0)).
  - split; [vm_compute; repeat split; congruence|]. apply Nat.leb_le. reflexivity.
  - destruct boot_represents. constructor; assumption || reflexivity.
  - reflexivity.
  - reflexivity.
Defined.
