(* ===== verification/ZephyrL2cap.v ===== *)
(** * The L2CAP hook of the Zephyr port

    [ZephyrOS/zephyr/firewall/core/fsm_l2cap_pkt_parser.c], called first in
    [bt_l2cap_recv] for every packet the host receives: it peeks at the headers of
    the packet, and for an SMP Identity Address Information PDU that names a bonded
    address it stages the old and the new security parameters and runs the
    [smp_ident_check] policy. With it the lookups of the host it calls:
    [bt_l2cap_le_lookup_rx_cid] of [l2cap.c], [bt_keys_find_addr] of [keys.c] and
    [get_encryption_key_size] of [smp.c].

    The memory is a map from 32-bit addresses to bytes, in which a read of an address
    that is not mapped is a fault. The hook has a [struct net_buf *] but hands it to
    [ifw_net_buf_pull_mem] as a [struct net_buf_simple *]: the pointer that is read there
    as [data] is the first word of a [struct net_buf], the link to its fragments. Only
    [ifw_smp_ident_addr_info] reads the real [buf->data]. *)
From stdpp Require Import base tactics numbers list gmap.
From Stdlib Require Import ZArith Lia.
From S2P Require Import Prelude Inst VM VMFacts Verifier Fsm PolicyCache PolicyExec ZephyrFsm ZephyrPolicies ZephyrParser ZephyrSpec.
Local Open Scope Z_scope.

(** ** The objects of the host *)

(** The fields of [struct bt_smp] that are read. *)
Record bt_smp := BtSmp { smp_method : Z; preq : list Z; prsp : list Z }.

(** Only the channel of the security manager is part of a [struct bt_smp]. *)
Inductive bt_l2cap_chan := SmpChan (smp : bt_smp) | OtherChan.

(** The identity, the peer address (a type byte and six bytes) and the channels
    with their receive ids. *)
Record bt_conn := BtConn {
  conn_id : Z;
  le_dst : list Z;
  conn_channels : list (Z * bt_l2cap_chan);
}.

Record bt_keys := BtKeys {
  keys_id : Z;
  keys_addr : list Z;
  enc_size : Z;
  keys_flags : Z;
  keys_keys : Z;
}.

Fixpoint lookup_cid (l : list (Z * bt_l2cap_chan)) (cid : Z) : option bt_l2cap_chan :=
  match l with
  | [] => None
  | (rx_cid, chan) :: l => if rx_cid =? cid then Some chan else lookup_cid l cid
  end.

Definition bt_l2cap_le_lookup_rx_cid (conn : bt_conn) (cid : Z) : option bt_l2cap_chan :=
  lookup_cid (conn_channels conn) cid.

(** [memcmp] of two addresses is 0. *)
Definition bt_addr_le_eq (a b : list Z) : bool := bool_decide (a = b).

Fixpoint bt_keys_find_addr (key_pool : list bt_keys) (id : Z) (addr : list Z) : option bt_keys :=
  match key_pool with
  | [] => None
  | k :: key_pool =>
      if (keys_id k =? id) && bt_addr_le_eq (keys_addr k) addr then Some k
      else bt_keys_find_addr key_pool id addr
  end.

(** [max_key_size] is the fourth byte after the code of a pairing PDU. *)
Definition get_encryption_key_size (smp : bt_smp) : res Z :=
  req ← of_option ArrayOOB (arr_get (preq smp) 4);
  rsp ← of_option ArrayOOB (arr_get (prsp smp) 4);
  Ok (Z.min req rsp).

(** ** The memory *)
Definition read_byte (mem : gmap Z Z) (a : Z) : res Z := of_option MemFault (mem !! u32 a).

Fixpoint read_bytes (mem : gmap Z Z) (a : Z) (n : nat) : res (list Z) :=
  match n with
  | O => Ok []
  | S n => b ← read_byte mem a; bs ← read_bytes mem (a + 1) n; Ok (b :: bs)
  end.

(** The two pointers of [struct net_buf] that are read: its first word, a union of
    [node] and [frags], and [data]. *)
Record net_buf := NetBuf { frags : Z; nb_data : Z }.

(** ** The hook *)
Record l2cap_parser := L2capParser {
  l2_mon : monitor;
  l2_result : Z;
  peek_len_total : Z;
}.

(** [buf->data] of the parameter, a [struct net_buf_simple *], is the word at offset 0,
    which in the [struct net_buf] that is passed is [frags]. *)
Definition ifw_net_buf_pull_mem (st : l2cap_parser) (buf : net_buf) (len : Z) : l2cap_parser * Z :=
  (L2capParser (l2_mon st) (l2_result st) (s32 (peek_len_total st + len)), u32 (frags buf + peek_len_total st)).

Section L2cap.
  Variable E : exec_env.

Definition l2_update (st : l2cap_parser) (v : Z) (t : IFW_DC_PARAM) : res l2cap_parser :=
  m ← IFW_FSM_CHECK_UPDATE (l2_mon st) v (dc_val t) (class_val DC);
  Ok (L2capParser m (l2_result st) (peek_len_total st)).

(** [req->addr] is at the start of the data of the buffer. *)
Definition ifw_smp_ident_addr_info (st : l2cap_parser) (conn : bt_conn) (smp : bt_smp)
    (key_pool : list bt_keys) (mem : gmap Z Z) (buf : net_buf) : res l2cap_parser :=
  enc_size_bond ← get_encryption_key_size smp;
  let method_bond := smp_method smp in
  addr ← read_bytes mem (nb_data buf) 7;
  if negb (bt_addr_le_eq (le_dst conn) addr) then
    match bt_keys_find_addr key_pool (conn_id conn) addr with
    | None => Ok st
    | Some keys =>
        st ← l2_update st enc_size_bond SMP_ENC_SIZE_PREV;
        st ← l2_update st method_bond SMP_METHOD_PREV;
        st ← l2_update st (keys_keys keys) SMP_KEYS;
        st ← l2_update st (enc_size keys) SMP_ENC_SIZE;
        st ← l2_update st (keys_flags keys) SMP_KEYS_FLAGS;
        '(m, rej) ← IFW_RUN_VERIFIER E true (l2_mon st) (dc_val SMP_KEYS) (class_val DC);
        let st := L2capParser m (l2_result st) (peek_len_total st) in
        if (rej : bool)
        then Ok (L2capParser m IFW_OPERATION_REJECT (peek_len_total st))
        else Ok st
    end
  else Ok st.

(** Every channel is taken for the one of the security manager: a missing one is
    a null pointer, another one has other data behind it. *)
Definition ifw_bt_smp_recv (st : l2cap_parser) (conn : bt_conn) (chan : option bt_l2cap_chan)
    (key_pool : list bt_keys) (mem : gmap Z Z) (buf : net_buf) : res l2cap_parser :=
  let '(st, hdr) := ifw_net_buf_pull_mem st buf 1 in
  code ← read_byte mem hdr;
  if code =? 0x09 then
    match chan with
    | None => Crash NullDeref
    | Some OtherChan => Crash MemFault
    | Some (SmpChan smp) => ifw_smp_ident_addr_info st conn smp key_pool mem buf
    end
  else Ok st.

Definition ifw_l2cap_packet_parser_recv (st : l2cap_parser) (conn : bt_conn)
    (key_pool : list bt_keys) (mem : gmap Z Z) (buf : net_buf) : res (l2cap_parser * Z) :=
  let st := L2capParser (l2_mon st) IFW_OPERATION_PASS (peek_len_total st) in
  let '(st, hdr) := ifw_net_buf_pull_mem st buf 4 in
  lo ← read_byte mem (hdr + 2);
  hi ← read_byte mem (hdr + 3);
  let chan := bt_l2cap_le_lookup_rx_cid conn (lo + 256 * hi) in
  st ← ifw_bt_smp_recv st conn chan key_pool mem buf;
  Ok (st, l2_result st).

(** The hook over a sequence of packets, each with the memory at the time of the call. *)
Fixpoint l2cap_run (st : l2cap_parser) (conn : bt_conn) (key_pool : list bt_keys)
    (evs : list (gmap Z Z * net_buf)) : res (l2cap_parser * list Z) :=
  match evs with
  | [] => Ok (st, [])
  | (mem, buf) :: evs =>
      '(st, r) ← ifw_l2cap_packet_parser_recv st conn key_pool mem buf;
      '(st, rs) ← l2cap_run st conn key_pool evs;
      Ok (st, r :: rs)
  end.

(** ** What the policy checks *)

(** Does the new pairing lower the security of the bond? *)
Definition lowers_security (keys : bt_keys) (new_size method : Z) : bool :=
  negb (Z.land (keys_keys keys) (Z.lor BT_KEYS_LTK_P256 BT_KEYS_LTK) =? 0) &&
  ((new_size <? enc_size keys) ||
   negb (Z.land (keys_flags keys) BT_KEYS_AUTHENTICATED =? 0) && (method =? JUST_WORKS)).

Definition keys_wf (k : bt_keys) : Prop :=
  0 <= enc_size k < 256 /\ 0 <= keys_flags k < 256 /\ 0 <= keys_keys k < 65536.

(** The negotiated key size of a security manager whose PDUs are complete. *)
Definition key_size (smp : bt_smp) : Z := Z.min (byte_of (preq smp) 4) (byte_of (prsp smp) 4).

Definition smp_wf (smp : bt_smp) : Prop :=
  (length (preq smp) = 7)%nat /\ (length (prsp smp) = 7)%nat /\
  Forall (fun b => is_byte b = true) (preq smp) /\
  Forall (fun b => is_byte b = true) (prsp smp) /\ 0 <= smp_method smp < 256.

(** ** The verdict *)
Context (HE : env_ok E).

(** One staged parameter. *)
Lemma l2_update_ok st v t :
  zinv (l2_mon st) -> t <> IFW_DC_PARAM_LAST ->
  exists st', l2_update st v t = Ok st' /\ zinv (l2_mon st') /\
    l2_result st' = l2_result st /\ peek_len_total st' = peek_len_total st /\
    forall t', get_slot DC (dc_val t') (newFSMState (l2_mon st')) =
      if decide (dc_val t' = dc_val t) then Ok (u16 v)
      else get_slot DC (dc_val t') (newFSMState (l2_mon st)).
Proof.
  intros Hz Ht.
  destruct (check_update_mon (l2_mon st) v (dc_val t) DC Hz) as (s' & Es & Eu & Hz');
    [done|destruct t; cbn; (done || lia)|].
  unfold l2_update. rewrite Eu. cbn [mbind res_bind]. eexists. split; [reflexivity|].
  split; [done|]. split; [done|]. split; [done|]. intros t'. cbn [l2_mon newFSMState].
  destruct (decide (dc_val t' = dc_val t)) as [->|Hne].
  - eapply get_set_slot_eq; exact Es.
  - eapply get_set_slot_ne; [exact Es|]. congruence.
Qed.

Lemma smp_keys_policy s keys sz prev flags method :
  get_slot DC (dc_val SMP_KEYS) s = Ok keys -> get_slot DC (dc_val SMP_ENC_SIZE) s = Ok sz ->
  get_slot DC (dc_val SMP_ENC_SIZE_PREV) s = Ok prev ->
  get_slot DC (dc_val SMP_KEYS_FLAGS) s = Ok flags ->
  get_slot DC (dc_val SMP_METHOD_PREV) s = Ok method ->
  slot_rejects s (class_val DC) (dc_val SMP_KEYS) =
  negb (Z.land keys (Z.lor BT_KEYS_LTK_P256 BT_KEYS_LTK) =? 0) &&
  ((prev <? sz) || negb (Z.land flags BT_KEYS_AUTHENTICATED =? 0) && (method =? JUST_WORKS)).
Proof.
  intros H1 H2 H3 H4 H5.
  rewrite (slot_rejects_one s (class_val DC) (dc_val SMP_KEYS) 7
    (match smp_ident_check_filter s with Ok v => v | _ => 0 end)
    ltac:(vm_compute; reflexivity)); [|reflexivity].
  unfold smp_ident_check_filter. rewrite H1, H2, H3, H4, H5. cbn [mbind res_bind].
  destruct (Z.land keys _ =? 0); [reflexivity|]. destruct (prev <? sz); [reflexivity|].
  destruct (Z.land flags _ =? 0); [reflexivity|]. now destruct (method =? JUST_WORKS).
Qed.

Lemma key_size_ok smp : smp_wf smp -> get_encryption_key_size smp = Ok (key_size smp).
Proof.
  intros (H1 & H2 & _). unfold get_encryption_key_size, key_size, byte_of.
  destruct (preq smp) as [|? [|? [|? [|? [|? ?]]]]]; try discriminate.
  destruct (prsp smp) as [|? [|? [|? [|? [|? ?]]]]]; try discriminate.
  cbn [length] in *. unfold arr_get. cbn [length]. injection H1 as ->. injection H2 as ->.
  reflexivity.
Qed.

Lemma key_size_range smp : smp_wf smp -> 0 <= key_size smp < 256.
Proof.
  intros (_ & _ & H1 & H2 & _). unfold key_size.
  pose proof (byte_of_byte _ 4 H1). pose proof (byte_of_byte _ 4 H2). lia.
Qed.

(** The verdict on an address: whether it is another bonded one whose bond the
    new pairing would weaken. *)
Definition ident_verdict (conn : bt_conn) (smp : bt_smp) (key_pool : list bt_keys)
    (addr : list Z) : bool :=
  negb (bt_addr_le_eq (le_dst conn) addr) &&
  match bt_keys_find_addr key_pool (conn_id conn) addr with
  | None => false
  | Some keys => lowers_security keys (key_size smp) (smp_method smp)
  end.

Lemma find_addr_wf key_pool id addr k :
  Forall keys_wf key_pool -> bt_keys_find_addr key_pool id addr = Some k -> keys_wf k.
Proof.
  induction 1 as [|k' pool Hk _ IH]; cbn; [done|].
  destruct (_ && _); [congruence|]. exact IH.
Qed.

(** Five parameters staged one after the other. *)
Lemma five_updates st v1 v2 v3 v4 v5 :
  zinv (l2_mon st) ->
  exists st', (forall T (k : l2cap_parser -> res T),
     (st1 ← l2_update st v1 SMP_ENC_SIZE_PREV; st2 ← l2_update st1 v2 SMP_METHOD_PREV;
      st3 ← l2_update st2 v3 SMP_KEYS; st4 ← l2_update st3 v4 SMP_ENC_SIZE;
      st5 ← l2_update st4 v5 SMP_KEYS_FLAGS; k st5) = k st') /\
    zinv (l2_mon st') /\ l2_result st' = l2_result st /\
    peek_len_total st' = peek_len_total st /\
    slot_rejects (newFSMState (l2_mon st')) (class_val DC) (dc_val SMP_KEYS) =
    negb (Z.land (u16 v3) (Z.lor BT_KEYS_LTK_P256 BT_KEYS_LTK) =? 0) &&
    ((u16 v1 <? u16 v4) ||
     negb (Z.land (u16 v5) BT_KEYS_AUTHENTICATED =? 0) && (u16 v2 =? JUST_WORKS)).
Proof.
  intros Hz.
  destruct (l2_update_ok st v1 SMP_ENC_SIZE_PREV Hz ltac:(done)) as (s1 & E1 & Z1 & R1 & P1 & S1).
  destruct (l2_update_ok s1 v2 SMP_METHOD_PREV Z1 ltac:(done)) as (s2 & E2 & Z2 & R2 & P2 & S2).
  destruct (l2_update_ok s2 v3 SMP_KEYS Z2 ltac:(done)) as (s3 & E3 & Z3 & R3 & P3 & S3).
  destruct (l2_update_ok s3 v4 SMP_ENC_SIZE Z3 ltac:(done)) as (s4 & E4 & Z4 & R4 & P4 & S4).
  destruct (l2_update_ok s4 v5 SMP_KEYS_FLAGS Z4 ltac:(done)) as (s5 & E5 & Z5 & R5 & P5 & S5).
  exists s5. split.
  { intros T k. rewrite E1. cbn [mbind res_bind]. rewrite E2. cbn [mbind res_bind].
    rewrite E3. cbn [mbind res_bind]. rewrite E4. cbn [mbind res_bind]. rewrite E5. done. }
  split; [done|]. split; [congruence|]. split; [congruence|].
  apply smp_keys_policy; rewrite S5, ?S4, ?S3, ?S2, ?S1; reflexivity.
Qed.

Lemma ident_addr_info_verdict st conn smp key_pool mem buf addr :
  zinv (l2_mon st) -> smp_wf smp -> Forall keys_wf key_pool -> read_bytes mem (nb_data buf) 7 = Ok addr ->
  l2_result st = IFW_OPERATION_PASS ->
  exists st', ifw_smp_ident_addr_info st conn smp key_pool mem buf = Ok st' /\
    zinv (l2_mon st') /\ peek_len_total st' = peek_len_total st /\
    l2_result st' = Z.b2z (ident_verdict conn smp key_pool addr).
Proof.
  intros Hz Hs Hk Hl Hr. unfold ifw_smp_ident_addr_info, ident_verdict.
  rewrite key_size_ok, Hl by done. cbn [mbind res_bind].
  destruct (bt_addr_le_eq _ _); cbn [negb andb]; [now exists st|].
  destruct (bt_keys_find_addr _ _ _) as [k|] eqn:Ek; [|now exists st].
  destruct (find_addr_wf _ _ _ _ Hk Ek) as (K1 & K2 & K3).
  pose proof (key_size_range smp Hs). destruct Hs as (_ & _ & _ & _ & Hm).
  destruct (five_updates st (key_size smp) (smp_method smp) (keys_keys k) (enc_size k)
    (keys_flags k) Hz) as (st5 & E5 & Z5 & R5 & P5 & Hrej).
  rewrite E5. rewrite !u16_small in Hrej by lia.
  destruct (run_verifier_mon E (l2_mon st5) (dc_val SMP_KEYS) DC HE Z5 ltac:(slot_range))
    as (m' & Er & Zm & _). rewrite Er, Hrej. cbn [mbind res_bind]. fold (lowers_security k
    (key_size smp) (smp_method smp)).
  destruct (lowers_security _ _ _); eexists; (split; [reflexivity|]); cbn;
    (split; [done|]); (split; [done|]); [reflexivity|now rewrite R5, Hr].
Qed.

(** What the hook reads as the headers of a packet when it has consumed [k] bytes: the
    two bytes of the channel id and the code. *)
Definition peeked (mem : gmap Z Z) (buf : net_buf) (k : Z) : option (Z * Z * Z) :=
  let a := u32 (frags buf + k) in
  lo ← mem !! u32 (a + 2); hi ← mem !! u32 (a + 3); c ← mem !! u32 (frags buf + s32 (k + 4)); Some (lo, hi, c).

Lemma recv_peeked st conn key_pool mem buf :
  ifw_l2cap_packet_parser_recv st conn key_pool mem buf =
  match peeked mem buf (peek_len_total st) with
  | None => Crash MemFault
  | Some (lo, hi, c) =>
      let st := L2capParser (l2_mon st) IFW_OPERATION_PASS (s32 (s32 (peek_len_total st + 4) + 1)) in
      st ← (if c =? 9 then
              match bt_l2cap_le_lookup_rx_cid conn (lo + 256 * hi) with
              | None => Crash NullDeref
              | Some OtherChan => Crash MemFault
              | Some (SmpChan smp) => ifw_smp_ident_addr_info st conn smp key_pool mem buf
              end
            else Ok st);
      Ok (st, l2_result st)
  end.
Proof.
  unfold ifw_l2cap_packet_parser_recv, ifw_bt_smp_recv, ifw_net_buf_pull_mem, peeked, read_byte.
  cbn [peek_len_total l2_mon l2_result]. rewrite u32_u32.
  destruct (mem !! u32 (_ + 2)) as [lo|]; [|reflexivity]. cbn [of_option mbind res_bind option_bind].
  destruct (mem !! u32 (_ + 3)) as [hi|]; [|reflexivity]. cbn [of_option mbind res_bind option_bind].
  destruct (mem !! u32 (frags buf + _)) as [c|]; reflexivity.
Qed.

Lemma hook_verdict st conn smp key_pool mem buf lo hi c addr :
  zinv (l2_mon st) -> smp_wf smp -> Forall keys_wf key_pool ->
  peeked mem buf (peek_len_total st) = Some (lo, hi, c) ->
  bt_l2cap_le_lookup_rx_cid conn (lo + 256 * hi) = Some (SmpChan smp) ->
  read_bytes mem (nb_data buf) 7 = Ok addr ->
  exists st', ifw_l2cap_packet_parser_recv st conn key_pool mem buf =
      Ok (st', Z.b2z ((c =? 9) && ident_verdict conn smp key_pool addr)) /\
    zinv (l2_mon st') /\ peek_len_total st' = s32 (s32 (peek_len_total st + 4) + 1).
Proof.
  intros Hz Hs Hk Hp Hc Ha. rewrite recv_peeked, Hp. cbv zeta.
  destruct (c =? 9); cbn [andb]; [|eexists; split; [reflexivity|done]]. rewrite Hc.
  destruct (ident_addr_info_verdict (L2capParser (l2_mon st) IFW_OPERATION_PASS (s32 (s32 (peek_len_total st + 4) + 1)))
    conn smp key_pool mem buf addr Hz Hs Hk Ha eq_refl) as (st' & -> & Hz' & Hp' & Hr').
  cbn [mbind res_bind]. rewrite Hr'. exists st'. split; [reflexivity|]. done.
Qed.

(** ** Properties *)


(** The address is taken from the start of the packet instead of from behind its headers. *)
Lemma header_not_bonded conn smp key_pool x y :
  Forall (fun k => exists ty a, keys_addr k = ty :: a /\ ty < 8) key_pool ->
  ident_verdict conn smp key_pool [8; 0; 6; 0; 9; x; y] = false.
Proof.
  intros Hty. unfold ident_verdict. replace (bt_keys_find_addr _ _ _) with (@None bt_keys);
    [now rewrite andb_false_r|]. symmetry.
  induction Hty as [|k pool (ty & a & Ha & Ht) _ IH]; cbn [bt_keys_find_addr]; [done|].
  unfold bt_addr_le_eq. rewrite Ha, bool_decide_false; [now rewrite andb_false_r|]. intros [= -> _]. lia.
Qed.

(** A well-formed Identity Address Information packet (length 8, channel 6, code 9)
    passes even where the hook sees its code and channel, whatever identity it carries
    and whatever bonds exist, as long as every bonded address has an address type below
    8. *)
Theorem l2cap_ident_never_rejected st conn smp key_pool mem buf lo hi c x y :
  zinv (l2_mon st) -> smp_wf smp -> Forall keys_wf key_pool ->
  peeked mem buf (peek_len_total st) = Some (lo, hi, c) ->
  bt_l2cap_le_lookup_rx_cid conn (lo + 256 * hi) = Some (SmpChan smp) ->
  read_bytes mem (nb_data buf) 7 = Ok [8; 0; 6; 0; 9; x; y] ->
  Forall (fun k => exists ty a, keys_addr k = ty :: a /\ ty < 8) key_pool ->
  exists st', ifw_l2cap_packet_parser_recv st conn key_pool mem buf = Ok (st', IFW_OPERATION_PASS).
Proof.
  intros Hz Hs Hk Hp Hc Ha Hty. destruct (hook_verdict st conn smp key_pool mem buf lo hi c _ Hz Hs Hk Hp Hc Ha) as (st' & -> & _).
  exists st'. rewrite header_not_bonded by done. now rewrite andb_false_r.
Qed.

(** What is read as the code of the [k]-th packet when packets have no fragments. *)
Definition low_code (mem : gmap Z Z) (k : Z) : option Z :=
  _ ← mem !! (5 * k + 2); _ ← mem !! (5 * k + 3); mem !! (5 * k + 4).

Lemma peeked_low mem d k :
  0 <= k < 2 ^ 27 -> (fun '(_, _, c) => c) <$> peeked mem (NetBuf 0 d) (5 * k) = low_code mem k.
Proof.
  intros Hk. unfold peeked, low_code. cbn [frags]. rewrite !Z.add_0_l, s32_small by lia.
  rewrite !(u32_small (5 * k)), !u32_small by lia.
  destruct (mem !! (5 * k + 2)) as [lo|]; [|done]. destruct (mem !! (5 * k + 3)) as [hi|]; [|done]. now destruct (mem !! (5 * k + 4)).
Qed.

Fixpoint low_codes (k : Z) (evs : list (gmap Z Z * net_buf)) : list (option Z) :=
  match evs with
  | [] => []
  | (mem, _) :: evs => low_code mem k :: low_codes (k + 1) evs
  end.

Lemma low_run st conn key_pool evs k :
  peek_len_total st = 5 * k -> 0 <= k -> k + Z.of_nat (length evs) < 2 ^ 27 ->
  Forall (fun ev => frags ev.2 = 0) evs -> Some 9 ∉ low_codes k evs ->
  if bool_decide (None ∈ low_codes k evs) then l2cap_run st conn key_pool evs = Crash MemFault
  else exists st', l2cap_run st conn key_pool evs = Ok (st', replicate (length evs) IFW_OPERATION_PASS) /\
    peek_len_total st' = 5 * (k + Z.of_nat (length evs)).
Proof.
  intros Hp Hk Hn Hf. revert st k Hp Hk Hn. induction Hf as [|[mem [fr d]] evs Hfr Hf IH]; intros st k Hp Hk Hn H9.
  { exists st. split; [done|]. cbn [length]. lia. }
  cbn [frags snd fst] in Hfr. subst fr. cbn [length] in Hn. cbn [low_codes] in H9 |- *.
  apply not_elem_of_cons in H9 as [Hl H9]. cbn [l2cap_run].
  pose proof (peeked_low mem d k ltac:(lia)) as Hlow. rewrite recv_peeked, Hp.
  destruct (peeked mem (NetBuf 0 d) (5 * k)) as [[[lo hi] c]|]; cbn in Hlow; rewrite <- Hlow in Hl |- *.
  2: { rewrite bool_decide_true by left. reflexivity. }
  destruct (Z.eqb_spec c 9) as [-> |_]; [done|]. cbn [mbind res_bind l2_result].
  rewrite (s32_small (5 * k + 4)), s32_small by lia. replace (5 * k + 4 + 1) with (5 * (k + 1)) by lia.
  specialize (IH (L2capParser (l2_mon st) IFW_OPERATION_PASS (5 * (k + 1))) (k + 1) eq_refl ltac:(lia) ltac:(lia) H9).
  rewrite (bool_decide_ext (None ∈ Some c :: _) (None ∈ low_codes (k + 1) evs)) by
    (rewrite elem_of_cons; split; [intros [Ex|Ex]; [discriminate Ex|exact Ex]|auto]).
  destruct (bool_decide _); [now rewrite IH|]. destruct IH as (st' & -> & Hp'). exists st'. split; [done|].
  rewrite Hp'. cbn [length]. lia.
Qed.

(** C40 — The headers of a packet without fragments are never read. The link [frags] of
    its buffer is null, so that what the hook takes for the headers of the [k]-th packet
    is at the addresses [5 * k] to [5 * k + 4] of the memory, and the position that it
    reads from is never reset. Whatever the packets contain, and whatever their channels,
    they all pass, identity addresses included, as long as the bytes at these addresses
    can be read and the code among them is not 9; and where they cannot be read, the hook
    ends in a fault. *)
Theorem l2cap_headers_not_read st conn key_pool evs :
  peek_len_total st = 0 -> Z.of_nat (length evs) < 2 ^ 27 ->
  Forall (fun ev => frags ev.2 = 0) evs -> Some 9 ∉ low_codes 0 evs ->
  if bool_decide (None ∈ low_codes 0 evs) then l2cap_run st conn key_pool evs = Crash MemFault
  else exists st', l2cap_run st conn key_pool evs = Ok (st', replicate (length evs) IFW_OPERATION_PASS) /\
    peek_len_total st' = 5 * Z.of_nat (length evs).
Proof. intros Hp Hn. apply (low_run st conn key_pool evs 0); lia. Qed.
End L2cap.

(** ** Concrete packets *)
Definition sample_smp : bt_smp :=
  BtSmp 0 [1; 3; 0; 1; 7; 1; 1] [2; 3; 0; 1; 16; 1; 1].

Definition sample_conn : bt_conn :=
  BtConn 0 [1; 1; 2; 3; 4; 5; 0xc6] [(4, OtherChan); (6, SmpChan sample_smp)].

(** A bond with a 16-byte key, for an address that is the start of a packet. *)
Definition sample_keys : list bt_keys := [BtKeys 0 [8; 0; 6; 0; 9; 0; 0xaa] 16 0 4].

Definition l2cap0 : l2cap_parser := L2capParser (Monitor zero_fsm zero_fsm false zephyr_cache) 0 0.

Lemma sample_smp_wf : smp_wf sample_smp.
Proof. repeat split; try done; repeat constructor. Qed.

Lemma sample_keys_wf : Forall keys_wf sample_keys.
Proof. repeat constructor; cbn; lia. Qed.

Lemma ram_env_zephyr_ok : env_ok ram_env.
Proof. split; [vm_compute; repeat split; congruence|]. apply Nat.leb_le. reflexivity. Qed.

(** A memory with [bytes] at [a]. *)
Definition mem_at (a : Z) (bytes : list Z) : gmap Z Z := list_to_map (zip (seqZ a (Z.of_nat (length bytes))) bytes).

(** A packet at 0x2000 whose link is the address of bytes that read as its headers. *)
Definition sample_buf : net_buf := NetBuf 0x3000 0x2000.

Definition sample_mem (packet : list Z) : gmap Z Z := mem_at 0x2000 packet ∪ mem_at 0x3000 [0; 0; 6; 0; 9].


Lemma l2cap_ident_never_rejected_witness :
  exists st', ifw_l2cap_packet_parser_recv ram_env l2cap0 sample_conn
      [BtKeys 0 [0; 0xaa; 0xbb; 0xcc; 0xdd; 0xee; 0xff] 16 1 4]
      (sample_mem ([8; 0; 6; 0; 9] ++ [0; 0xaa; 0xbb; 0xcc; 0xdd; 0xee; 0xff])) sample_buf =
    Ok (st', IFW_OPERATION_PASS).
Proof.
  apply (l2cap_ident_never_rejected ram_env ram_env_zephyr_ok l2cap0 sample_conn sample_smp
    [BtKeys 0 [0; 0xaa; 0xbb; 0xcc; 0xdd; 0xee; 0xff] 16 1 4]
    (sample_mem ([8; 0; 6; 0; 9] ++ [0; 0xaa; 0xbb; 0xcc; 0xdd; 0xee; 0xff])) sample_buf 6 0 9 0 0xaa).
  - exact zinv_monitor0.
  - exact sample_smp_wf.
  - repeat constructor; cbn; lia.
  - vm_compute. reflexivity.
  - reflexivity.
  - vm_compute. reflexivity.
  - constructor; [|constructor]. eexists _, _. split; [reflexivity|lia].
Defined.

(** Three packets, the second one with an identity address, over a vector table whose
    entries are a stack pointer and handlers. *)
Definition low_mem (packet : list Z) : gmap Z Z :=
  mem_at 0 [0; 0x10; 0; 0x20; 0xc1; 0x01; 0; 0; 0x5d; 0x02; 0; 0; 0x61; 0x02; 0; 0] ∪ mem_at 0x2000 packet.

Definition low_events : list (gmap Z Z * net_buf) :=
  map (fun packet => (low_mem packet, NetBuf 0 0x2000)) [[3; 0; 4; 0; 0x0a; 1; 0]; [8; 0; 6; 0; 9; 0; 0xaa; 0xbb; 0xcc; 0xdd; 0xee; 0xff]; [1; 0; 6; 0; 5]].

Lemma l2cap_headers_not_read_witness :
  exists st', l2cap_run ram_env l2cap0 sample_conn sample_keys low_events = Ok (st', [0; 0; 0]) /\ peek_len_total st' = 15.
Proof.
  apply (l2cap_headers_not_read ram_env l2cap0 sample_conn sample_keys low_events).
  - reflexivity.
  - cbn. lia.
  - repeat constructor.
  - apply (bool_decide_unpack (Some 9 ∉ low_codes 0 low_events)). vm_compute. exact I.
Defined.
