(* ===== verification/MynewtFsm.v ===== *)
(** * The monitor of the Mynewt port

    [firewall/include/fsm_core.h] of the NimBLE port (the slots of this port) and
    [firewall/src/fsm_core.c]. Here [ifw_fsm_check_update] refreshes the staging
    state, checks ranges, runs the policies and commits the new value when they
    pass. The theorems say that a rejected update leaves the canonical state as it
    was, that an accepted one is exactly the write, and that the core state never
    leaves its enumerations. *)
From stdpp Require Import base tactics numbers list.
From Stdlib Require Import ZArith Lia.
From S2P Require Import Prelude Inst VM VMFacts Verifier Fsm PolicyCache.
Local Open Scope Z_scope.

(** ** Slots *)

(** The peer address takes the six slots from [BD_ADDR] on. *)
Inductive IFW_SHARED_STATE := BD_ADDR | BONDING | SC | IFW_SHARED_STATE_NUM.

Definition shared_val (t : IFW_SHARED_STATE) : Z :=
  match t with BD_ADDR => 0 | BONDING => 6 | SC => 7 | IFW_SHARED_STATE_NUM => 8 end.

Inductive IFW_CONN_PARAM :=
| CHANNEL_MAP | CHANNEL_HOP | SCAN_RSP_LEN | LLL_INTERVAL | TX_OPCODE | TX_IS_CTRL
| IFW_CONN_PARAM_NUM.

Definition conn_val (t : IFW_CONN_PARAM) : Z :=
  match t with
  | CHANNEL_MAP => 0 | CHANNEL_HOP => 1 | SCAN_RSP_LEN => 2 | LLL_INTERVAL => 3
  | TX_OPCODE => 4 | TX_IS_CTRL => 5 | IFW_CONN_PARAM_NUM => 6
  end.

Inductive IFW_DC_PARAM :=
| SN | NESN | SMP_MAX_ENC_SIZE | SMP_MAX_ENC_SIZE_PREV
| IFW_DC_PARAM_LAST.                   (* the source's IFW_DC_PARAM_NUM *)

Definition dc_val (t : IFW_DC_PARAM) : Z :=
  match t with
  | SN => 0 | NESN => 1 | SMP_MAX_ENC_SIZE => 2 | SMP_MAX_ENC_SIZE_PREV => 3
  | IFW_DC_PARAM_LAST => 4
  end.

#[export] Instance mynewt_layout : FsmLayout := {
  n_core := Z.to_nat (core_val IFW_CORE_STATE_NUM);
  n_shared := Z.to_nat (shared_val IFW_SHARED_STATE_NUM);
  n_conn := Z.to_nat (conn_val IFW_CONN_PARAM_NUM);
  n_dc := Z.to_nat (dc_val IFW_DC_PARAM_LAST);
  n_spi := Z.to_nat (spi_val IFW_SPI_PARAM_NUM);
  n_hci := Z.to_nat (hci_val IFW_HCI_PARAM_NUM);
}.

(** ** Policy ids *)
Inductive fsm_policy_tag :=
| PID_conn_chan_map | PID_keysize_confusion | PID_key_entropy_downgrade
| PID_LAST.                            (* the source's PID_NUM *)

Definition pid_val (t : fsm_policy_tag) : Z :=
  match t with
  | PID_conn_chan_map => 0 | PID_keysize_confusion => 1 | PID_key_entropy_downgrade => 2
  | PID_LAST => 3
  end.

#[export] Instance mynewt_port : PolicyPort := {
  port_layout := mynewt_layout;
  PID_NUM := pid_val PID_LAST;
  malloc_checked := true;
}.

Lemma mynewt_port_ok : 0 <= PID_NUM /\ (0 < n_dc <= 32)%nat.
Proof. cbn. lia. Qed.

(** ** The monitor *)
Record monitor := Monitor {
  curFSMState : FsmState;
  newFSMState : FsmState;
  cache : policy_state;
}.

Definition zero_fsm : FsmState :=
  FsmStateC (replicate n_core 0) (replicate n_shared 0) (replicate n_conn 0)
    (replicate n_dc 0) (replicate n_spi 0) (replicate n_hci 0).

Definition monitor0 : monitor := Monitor zero_fsm zero_fsm policy_state0.

(** The stub that stands for the flash circular buffer. *)
Definition ifw_fcb_init : Z := 0.

(** Whatever [ifw_fcb_init] returns, the function returns with the states set. *)
Definition ifw_fsm_init (st : monitor) : monitor :=
  Monitor (set_class_arr CORE ifw_core_state_num zero_fsm) zero_fsm (cache st).

Definition ifw_stage_refresh (st : monitor) : monitor :=
  Monitor (curFSMState st) (curFSMState st) (cache st).

(** [if (type < <class>_NUM) <class>[type] = state], and nothing otherwise. The
    parameters are [uint16_t]. *)
Definition ifw_fsm_state_update (st : monitor) (state type class : Z) : res monitor :=
  let '(state, type, class) := (u16 state, u16 type, u16 class) in
  match class_of class with
  | None => Ok st
  | Some c =>
      if type <? Z.of_nat (class_size c) then
        cur ← set_slot c type state (curFSMState st);
        Ok (Monitor cur (newFSMState st) (cache st))
      else Ok st
  end.

(** The guard of each case of the switch. *)
Definition update_guard (c : ifw_state_class) (state type : Z) : res bool :=
  if Z.of_nat (class_size c) <=? type then Ok false
  else match c with
       | CORE =>
           n ← of_option ArrayOOB (arr_get ifw_core_state_num type);
           Ok (negb (n <=? state))
       | _ => Ok true
       end.

Section Check.
  Variable E : exec_env.
  Variable ok : bool.        (* the machine, when it has to be created, was allocated *)

(** The policies run on [newFSMState] in place. *)
Definition check_policies (st : monitor) (type class : Z) : res (monitor * Z) :=
  '(m, r, bs) ← run_fsm_check_policy E ok (cache st) type class (fsm_bytes (newFSMState st));
  Ok (Monitor (curFSMState st) (fsm_of_bytes bs) m, r).

Definition ifw_fsm_check_update (st : monitor) (state type class : Z) : res (monitor * Z) :=
  let '(state, type, class) := (u16 state, u16 type, u16 class) in
  let st := ifw_stage_refresh st in
  match class_of class with
  | None => Ok (st, IFW_OPERATION_REJECT)
  | Some c =>
      g ← update_guard c state type;
      if negb g then Ok (st, IFW_OPERATION_REJECT)
      else
        new ← set_slot c type state (newFSMState st);
        let st := Monitor (curFSMState st) new (cache st) in
        '(st, r) ← check_policies st type class;
        if r =? IFW_OPERATION_REJECT then Ok (st, IFW_OPERATION_REJECT)
        else
          st ← ifw_fsm_state_update st state type class;
          Ok (st, IFW_OPERATION_PASS)
  end.

Definition ifw_run_verifier (st : monitor) (type class : Z) : res (monitor * Z) :=
  '(st, r) ← check_policies st (u16 type) (u16 class);
  if r =? IFW_OPERATION_REJECT then Ok (st, IFW_OPERATION_REJECT)
  else Ok (st, IFW_OPERATION_PASS).

(** The macro of the callers: true when the update was rejected. *)
Definition IFW_FSM_CHECK_UPDATE (st : monitor) (state type class : Z) : res (monitor * bool) :=
  '(st, r) ← ifw_fsm_check_update st state type class; Ok (st, r =? IFW_OPERATION_REJECT).
End Check.

(** ** The invariant *)

(** A core slot holds a value of its enumeration or, before the first update, the
    number of values, which stands for "unknown". *)
Definition core_wf (s : FsmState) : Prop :=
  forall k n v, ifw_core_state_num !! k = Some n -> core_state s !! k = Some v -> 0 <= v <= n.

(** The staging state is rebuilt by every update, so nothing is asked of it. *)
Definition mon_wf (st : monitor) : Prop :=
  fsm_wf (curFSMState st) /\ core_wf (curFSMState st).

Lemma mynewt_zero_fsm_wf : fsm_wf zero_fsm.
Proof.
  split; [intros []; reflexivity|]. unfold fsm_words, zero_fsm. cbn [core_state shared_state
    conn_param dc_param spi_param hci_param].
  rewrite !Forall_app. repeat split; apply Forall_replicate; unfold is_int; lia.
Qed.

Lemma ifw_fsm_init_wf st : mon_wf (ifw_fsm_init st).
Proof.
  split.
  - apply fsm_words_set; [apply mynewt_zero_fsm_wf|reflexivity|].
    unfold is_int. repeat (constructor; [cbn; lia|]). constructor.
  - intros k n v Hn Hv. cbn in Hv. rewrite Hn in Hv. injection Hv as <-.
    do 5 (destruct k as [|k]; [injection Hn as <-; cbn; lia|]). done.
Qed.

(** ** Updates *)
Lemma update_guard_core state type :
  update_guard CORE state type = Ok true ->
  exists n, arr_get ifw_core_state_num type = Some n /\ state < n.
Proof.
  unfold update_guard. case_match; [done|].
  destruct (arr_get ifw_core_state_num type) as [n|] eqn:E; cbn; [|done].
  intros [= Hn]. exists n. split; [done|]. lia.
Qed.

Lemma update_guard_total c state type : 0 <= type -> exists b, update_guard c state type = Ok b.
Proof.
  intros Ht. unfold update_guard. destruct (Z.leb_spec (Z.of_nat (class_size c)) type); [eauto|].
  destruct c; eauto. destruct (arr_get ifw_core_state_num type) eqn:E; [cbn; eauto|].
  apply arr_get_None in E. cbn in *. lia.
Qed.

Lemma update_guard_range c state type :
  update_guard c state type = Ok true -> type < Z.of_nat (class_size c).
Proof. unfold update_guard. destruct (Z.leb_spec (Z.of_nat (class_size c)) type); [done|lia]. Qed.

Lemma core_wf_set c type v s s' :
  core_wf s -> set_slot c type v s = Ok s' -> 0 <= v ->
  (c = CORE -> exists n, arr_get ifw_core_state_num type = Some n /\ v < n) -> core_wf s'.
Proof.
  intros Hs (Hc & Ht & ->)%set_slot_inv Hv Hn k n w Hk Hw.
  change (core_state ?x) with (class_arr CORE x) in Hw.
  rewrite class_arr_set in Hw by done.
  destruct (decide (c = CORE)) as [->|_]; [|now apply (Hs k)].
  destruct (decide (k = Z.to_nat type)) as [->|Hne].
  - rewrite list_lookup_insert_eq in Hw by lia. injection Hw as <-.
    destruct (Hn eq_refl) as (n' & [_ Hg]%arr_get_Some & Hlt). rewrite Hk in Hg.
    injection Hg as ->. lia.
  - rewrite list_lookup_insert_ne in Hw by done. now apply (Hs k).
Qed.

(** A write that the guard admits keeps the invariant. *)
Lemma guarded_write_wf c state type s s' :
  fsm_wf s -> core_wf s -> update_guard c (u16 state) (u16 type) = Ok true ->
  set_slot c (u16 type) (u16 state) s = Ok s' -> fsm_wf s' /\ core_wf s'.
Proof.
  intros Hs Hc Hg Hset. pose proof (u16_range state). pose proof (u16_range type). split.
  - pose proof (update_guard_range _ _ _ Hg).
    destruct (set_slot_ok c (u16 type) (u16 state) s) as (s1 & E1 & Hw1);
      [done|unfold is_int; lia|lia|]. congruence.
  - eapply core_wf_set; [exact Hc|exact Hset|lia|]. intros ->. now apply update_guard_core.
Qed.

Lemma check_policies_cur E ok st type class st' r :
  check_policies E ok st type class = Ok (st', r) -> curFSMState st' = curFSMState st.
Proof.
  unfold check_policies. intros ([[m r'] bs] & _ & H)%bind_Ok. now injection H as <- <-.
Qed.

Lemma state_update_guarded st c state type :
  update_guard c (u16 state) (u16 type) = Ok true -> c <> IFW_STATE_CLASS_NUM ->
  ifw_fsm_state_update st (u16 state) (u16 type) (class_val c) =
  (cur ← set_slot c (u16 type) (u16 state) (curFSMState st);
   Ok (Monitor cur (newFSMState st) (cache st))).
Proof.
  intros Hg%update_guard_range Hc. unfold ifw_fsm_state_update.
  rewrite !(u16_small (u16 _)) by apply u16_range.
  replace (u16 (class_val c)) with (class_val c) by now destruct c.
  rewrite class_of_val by done. destruct (Z.ltb_spec (u16 type) (Z.of_nat (class_size c))); [done|lia].
Qed.

(** What an update does to the canonical state, whatever the policies are. *)
Lemma check_update_cases E ok st state type class st' r :
  ifw_fsm_check_update E ok st state type class = Ok (st', r) ->
  (r = IFW_OPERATION_REJECT /\ curFSMState st' = curFSMState st) \/
  (r = IFW_OPERATION_PASS /\ exists c, class_of (u16 class) = Some c /\
     update_guard c (u16 state) (u16 type) = Ok true /\
     set_slot c (u16 type) (u16 state) (curFSMState st) = Ok (curFSMState st')).
Proof.
  unfold ifw_fsm_check_update. destruct (class_of (u16 class)) as [c|] eqn:Ec.
  2: { intros [= <- <-]. now left. }
  intros (g & Hg & H)%bind_Ok. destruct g; cbn [negb] in H; [|injection H as <- <-; now left].
  apply bind_Ok in H as (new & Hset & H). apply bind_Ok in H as ([st1 r1] & Hp & H).
  apply check_policies_cur in Hp. cbn in Hp.
  destruct (r1 =? IFW_OPERATION_REJECT); [injection H as <- <-; now left|].
  apply class_of_Some in Ec as [Ev Hne]. rewrite Ev, state_update_guarded in H by done.
  apply bind_Ok in H as (st2 & H2 & H). injection H as <- <-.
  apply bind_Ok in H2 as (cur & H2 & H3). injection H3 as <-. rewrite Hp in H2.
  right. split; [done|]. exists c. done.
Qed.

(** Whatever the policies are, also ones that write the staging state, a call that
    returns leaves the canonical state well formed, and has either rejected and left it
    as it was or passed and written the one slot. *)
Lemma check_update_wf E ok st state type class st' r :
  mon_wf st -> ifw_fsm_check_update E ok st state type class = Ok (st', r) ->
  mon_wf st' /\
  ((r = IFW_OPERATION_REJECT /\ curFSMState st' = curFSMState st) \/
   (r = IFW_OPERATION_PASS /\ exists c, class_of (u16 class) = Some c /\
      set_slot c (u16 type) (u16 state) (curFSMState st) = Ok (curFSMState st'))).
Proof.
  intros [Hs Hc] H. unfold mon_wf.
  destruct (check_update_cases _ _ _ _ _ _ _ _ H) as [[-> ->]|(-> & c & Ec & Hg & Hset)].
  - split; [done|]. now left.
  - split; [eapply guarded_write_wf; eassumption|]. right. eauto.
Qed.

(** ** What an update does *)

(** The guards: the class exists, the slot exists in it, and a core state is one of its
    enumeration. *)
Definition admitted (class type state : Z) : bool :=
  match class_of class with
  | None => false
  | Some c => (type <? Z.of_nat (class_size c)) &&
      match c with CORE => state <? nth (Z.to_nat type) ifw_core_state_num 0 | _ => true end
  end.

Lemma admitted_guard c state type :
  0 <= type -> c <> IFW_STATE_CLASS_NUM ->
  update_guard c state type = Ok (admitted (class_val c) type state).
Proof.
  intros Ht Hc. unfold update_guard, admitted. rewrite class_of_val by done.
  destruct (Z.leb_spec (Z.of_nat (class_size c)) type); destruct (Z.ltb_spec type (Z.of_nat (class_size c)));
    try lia; [done|]. cbn [andb]. destruct c; try done.
  destruct (arr_get ifw_core_state_num type) as [n|] eqn:E; [|apply arr_get_None in E; cbn in *; lia].
  apply arr_get_Some in E as [_ E]. cbn [of_option mbind res_bind]. f_equal.
  rewrite (nth_lookup_Some _ _ 0 n E). lia.
Qed.

(** Every slot of a class has an entry in the table of policies, though not one of its
    own: the rows are shorter than the classes. *)
Lemma class_index_range c type :
  c <> IFW_STATE_CLASS_NUM -> 0 <= type < Z.of_nat (class_size c) ->
  0 <= table_index (class_val c) type < Z.of_nat table_size.
Proof.
  intros Hc [Ht Ht2]. unfold table_index, IFW_DC_PARAM_NUM. change (Z.of_nat table_size) with 24. change (Z.of_nat n_dc) with 4.
  destruct c; try done; cbn in Ht2; cbn [class_val]; lia.
Qed.

(** The policies of a slot of the staging state [new], all of them legal. *)
Lemma check_policies_legal E cur new m type c :
  fsm_wf new -> cache_wf m -> placed 4 (env_fsm E) fsm_sizeof -> placed 8 (env_stk E) STACK_SIZE ->
  c <> IFW_STATE_CLASS_NUM -> 0 <= type < Z.of_nat (class_size c) ->
  Forall (slot_legal E m) (slot_list m (class_val c) type) ->
  exists m', same_tables m m' /\ cache_wf m' /\
    check_policies E true (Monitor cur new m) type (class_val c) =
    Ok (Monitor cur new m',
        if existsb (fun pid => policy_value E m (fsm_bytes new) pid =? IFW_OPERATION_REJECT)
             (slot_list m (class_val c) type)
        then IFW_OPERATION_REJECT else IFW_OPERATION_PASS).
Proof.
  intros Hs Hm Hf Hst Hc Ht Hl. destruct mynewt_port_ok as [Hp Hd].
  assert (Hr : runnable E (fsm_bytes new)).
  { assert (Hl1 : Z.of_nat (length (fsm_bytes new)) = fsm_sizeof)
      by (rewrite fsm_bytes_length by apply Hs; unfold fsm_sizeof; lia).
    unfold runnable. rewrite Hl1. split; [reflexivity|]. split; [exact Hf|exact Hst]. }
  pose proof (class_index_range c type Hc Ht) as Hi.
  assert (Hg : table_get m (class_val c) type = Ok (slot_list m (class_val c) type)).
  { unfold table_get, slot_list. destruct (arr_get _ _) eqn:E1; [done|].
    apply arr_get_None in E1. rewrite (wf_table _ Hm) in E1. lia. }
  destruct (run_policies_eq (P := mynewt_port) Hd E m (fsm_bytes new) (slot_list m (class_val c) type)
    (policy_value E m (fsm_bytes new)) Hm) as (m' & Er & Ht' & Hm').
  { eapply Forall_impl; [exact Hl|]. intros pid Hpid. now apply slot_legal_returns. }
  exists m'. split; [destruct Ht' as [->|Ht']; [apply same_tables_refl|done]|]. split; [done|].
  unfold check_policies, run_fsm_check_policy. cbn [cache newFSMState curFSMState].
  rewrite Hg. cbn [mbind res_bind]. rewrite Er. cbn [mbind res_bind]. now rewrite fsm_of_bytes_bytes.
Qed.

(** C17 — [ifw_fsm_check_update] of the Mynewt port, when every policy listed for the
    slot is interpreted and legal: an update whose class or slot does not exist, or whose
    core state is not in its enumeration, is rejected with no policy run and the canonical
    state as it was. Any other update is staged in a copy of the canonical state; it is
    rejected, with the canonical state as it was, exactly when the value of one of the
    listed policies on the staged state is [IFW_OPERATION_REJECT], and otherwise it
    passes and the canonical state is the staged one. The call always returns, and the
    canonical state stays well formed, with every core slot in its enumeration. *)
Theorem mynewt_update_atomic E st state type class :
  mon_wf st -> cache_wf (cache st) ->
  placed 4 (env_fsm E) fsm_sizeof -> placed 8 (env_stk E) STACK_SIZE ->
  Forall (slot_legal E (cache st)) (slot_list (cache st) (u16 class) (u16 type)) ->
  if admitted (u16 class) (u16 type) (u16 state) then
    exists c new m', class_of (u16 class) = Some c /\
      set_slot c (u16 type) (u16 state) (curFSMState st) = Ok new /\
      fsm_wf new /\ core_wf new /\ same_tables (cache st) m' /\ cache_wf m' /\
      ifw_fsm_check_update E true st state type class =
      Ok (if existsb (fun pid => policy_value E (cache st) (fsm_bytes new) pid =? IFW_OPERATION_REJECT)
               (slot_list (cache st) (u16 class) (u16 type))
          then (Monitor (curFSMState st) new m', IFW_OPERATION_REJECT)
          else (Monitor new new m', IFW_OPERATION_PASS))
  else ifw_fsm_check_update E true st state type class =
       Ok (Monitor (curFSMState st) (curFSMState st) (cache st), IFW_OPERATION_REJECT).
Proof.
  intros [Hs Hcore] Hm Hf Hst Hl. pose proof (u16_range type). pose proof (u16_range state).
  unfold ifw_fsm_check_update. destruct (class_of (u16 class)) as [c|] eqn:Ec.
  2: { unfold admitted. now rewrite Ec. }
  pose proof Ec as [Ev Hne]%class_of_Some. rewrite Ev in *.
  pose proof (admitted_guard c (u16 state) (u16 type) ltac:(lia) Hne) as Hg. rewrite Hg. cbn [mbind res_bind].
  destruct (admitted (class_val c) (u16 type) (u16 state)) eqn:Ea; cbn [negb]; [|done].
  pose proof (update_guard_range _ _ _ Hg) as Hr.
  destruct (set_slot_ok c (u16 type) (u16 state) (curFSMState st) Hs) as (new & Es & _);
    [unfold is_int; lia|lia|].
  destruct (guarded_write_wf _ _ _ _ _ Hs Hcore Hg Es) as [Hw Hwc].
  destruct (check_policies_legal E (curFSMState st) new (cache st) (u16 type) c) as (m' & Ht & Hm' & Ep);
    try done; [lia|].
  exists c, new, m'. do 6 (split; [done|]). cbn [ifw_stage_refresh newFSMState curFSMState cache].
  rewrite Es. cbn [mbind res_bind curFSMState cache]. rewrite Ep. cbn [mbind res_bind].
  destruct (existsb _ _); cbn [Z.eqb]; [done|]. change (IFW_OPERATION_PASS =? IFW_OPERATION_REJECT) with false.
  cbn iota. rewrite state_update_guarded by done. cbn [curFSMState newFSMState cache]. now rewrite Es.
Qed.
