(* ===== verification/MynewtPolicies.v ===== *)
(** * The policies of the Mynewt port

    The C sources ([firewall/policy/specification/eBPF_C_code/*.ebpf.c]), the
    shipped bytecodes ([firewall/policy/specification/include/*.h]) and their
    registration. The sources are compiled against [policy/include/fsm_for_ebpf.h],
    whose [struct FsmState] is not the one of [include/fsm_core.h] that the
    firewall passes to the policies; both layouts are here, and the theorems say
    what the bytecodes compute on each. *)
From stdpp Require Import base tactics numbers list.
From Stdlib Require Import ZArith Lia.
From S2P Require Import Prelude Inst VM VMFacts Verifier Fsm PolicyCache PolicyExec MynewtFsm.
Local Open Scope Z_scope.

(** ** C sources *)
Definition conn_chan_map_filter (fsm : FsmState) : res Z :=
  m ← get_slot CONN (conn_val CHANNEL_MAP) fsm;
  if m <? 2 then Ok IFW_OPERATION_REJECT else Ok IFW_OPERATION_PASS.

Definition key_entropy_downgrade_filter (fsm : FsmState) : res Z :=
  prev ← get_slot DC (dc_val SMP_MAX_ENC_SIZE_PREV) fsm;
  if prev =? 0 then Ok IFW_OPERATION_PASS
  else
    sz ← get_slot DC (dc_val SMP_MAX_ENC_SIZE) fsm;
    if negb (prev =? sz) then Ok IFW_OPERATION_REJECT else Ok IFW_OPERATION_PASS.

Definition keysize_confusion_filter (fsm : FsmState) : res Z :=
  prev ← get_slot DC (dc_val SMP_MAX_ENC_SIZE_PREV) fsm;
  if prev =? 0 then Ok IFW_OPERATION_PASS
  else
    sz ← get_slot DC (dc_val SMP_MAX_ENC_SIZE) fsm;
    if sz <? prev then Ok IFW_OPERATION_REJECT else Ok IFW_OPERATION_PASS.

(** ** Bytecodes *)
Definition conn_chan_map : list Z :=
  [0x61; 0x11; 0x20; 0x00; 0x00; 0x00; 0x00; 0x00;
   0x67; 0x01; 0x00; 0x00; 0x20; 0x00; 0x00; 0x00;
   0xc7; 0x01; 0x00; 0x00; 0x20; 0x00; 0x00; 0x00;
   0xb7; 0x00; 0x00; 0x00; 0x01; 0x00; 0x00; 0x00;
   0xb7; 0x02; 0x00; 0x00; 0x02; 0x00; 0x00; 0x00;
   0x6d; 0x12; 0x01; 0x00; 0x00; 0x00; 0x00; 0x00;
   0xb7; 0x00; 0x00; 0x00; 0x00; 0x00; 0x00; 0x00;
   0x95; 0x00; 0x00; 0x00; 0x00; 0x00; 0x00; 0x00;
   0x00].

Definition keysize_confusion : list Z :=
  [0xb7; 0x00; 0x00; 0x00; 0x00; 0x00; 0x00; 0x00;
   0x61; 0x12; 0x50; 0x00; 0x00; 0x00; 0x00; 0x00;
   0x15; 0x02; 0x04; 0x00; 0x00; 0x00; 0x00; 0x00;
   0x61; 0x11; 0x4c; 0x00; 0x00; 0x00; 0x00; 0x00;
   0xb7; 0x00; 0x00; 0x00; 0x01; 0x00; 0x00; 0x00;
   0x5d; 0x12; 0x01; 0x00; 0x00; 0x00; 0x00; 0x00;
   0xb7; 0x00; 0x00; 0x00; 0x00; 0x00; 0x00; 0x00;
   0x95; 0x00; 0x00; 0x00; 0x00; 0x00; 0x00; 0x00;
   0x00].

Definition key_entropy_downgrade : list Z :=
  [0xb7; 0x00; 0x00; 0x00; 0x00; 0x00; 0x00; 0x00;
   0x61; 0x12; 0x50; 0x00; 0x00; 0x00; 0x00; 0x00;
   0x15; 0x02; 0x04; 0x00; 0x00; 0x00; 0x00; 0x00;
   0x61; 0x11; 0x4c; 0x00; 0x00; 0x00; 0x00; 0x00;
   0xb7; 0x00; 0x00; 0x00; 0x01; 0x00; 0x00; 0x00;
   0x5d; 0x12; 0x01; 0x00; 0x00; 0x00; 0x00; 0x00;
   0xb7; 0x00; 0x00; 0x00; 0x00; 0x00; 0x00; 0x00;
   0x95; 0x00; 0x00; 0x00; 0x00; 0x00; 0x00; 0x00;
   0x00].

(** ** Registration *)
Definition load_all_policies (m : policy_state) (oks : nat -> bool) : res policy_state :=
  m ← ADD_POLICY m (oks 0%nat) (pid_val PID_conn_chan_map) conn_chan_map
        (class_val CONN) (conn_val CHANNEL_MAP);
  m ← ADD_POLICY m (oks 1%nat) (pid_val PID_keysize_confusion) keysize_confusion
        (class_val DC) (dc_val SMP_MAX_ENC_SIZE);
  ADD_POLICY m (oks 2%nat) (pid_val PID_key_entropy_downgrade) key_entropy_downgrade
    (class_val DC) (dc_val SMP_MAX_ENC_SIZE).

Definition ifw_fsm_enable (m : policy_state) (oks : nat -> bool) (jit : bool)
    : res policy_state :=
  m ← load_all_policies m oks;
  Ok (if jit then set_all_policy_jit_on m else m).

(** [struct fsm_policy] and the wrapper of [fsm_update_handle.c]; [len], [type]
    and [class] are [uint16_t] fields. *)
Record fsm_policy := FsmPolicy {
  index : option (list Z);
  len : Z;
  type : Z;
  class : Z;
}.

Definition ifw_add_policy (m : policy_state) (copy_ok node_ok : bool) (policy : fsm_policy)
    : res (policy_state * Z) :=
  ifw_install_policy m copy_ok node_ok (u16 (class policy)) (u16 (type policy))
    (index policy) (u16 (len policy)).

(** ** The layout the sources are compiled against *)

(** [policy/include/fsm_for_ebpf.h]: four connection parameters instead of six. *)
Definition ebpf_layout : FsmLayout := {|
  n_core := 5; n_shared := 8; n_conn := 4; n_dc := 4; n_spi := 5; n_hci := 0;
|}.

(** Runs a bytecode of [n] instructions and compares with [f]. *)
Ltac validate f n :=
  unfold f; cbv [mbind res_bind conn_val dc_val shared_val];
  repeat match goal with H : get_slot _ _ _ = Ok _ |- _ => rewrite H end;
  split; [repeat case_match; eauto|];
  change (length _ / 8)%nat with n; exec_policy; norm_words; split_ifs.

Lemma key_entropy_runs_ebpf :
  policy_runs (L := ebpf_layout) key_entropy_downgrade key_entropy_downgrade_filter.
Proof.
  apply (policy_runs_intro (L := ebpf_layout)). intros.
  with_slot DC 3%nat 80 prev. with_slot DC 2%nat 76 sz.
  validate key_entropy_downgrade_filter 8%nat.
Qed.

(** ** The layout the firewall uses *)

(** What the bytecodes compute on [include/fsm_core.h]'s struct: the word the
    first one takes for the channel map is the fourth byte of the peer address,
    and the words the other two take for the key sizes are NESN and SN. *)
Definition conn_chan_map_actual (fsm : FsmState) : res Z :=
  a ← get_slot SHARED (shared_val BD_ADDR + 3) fsm;
  if a <? 2 then Ok IFW_OPERATION_REJECT else Ok IFW_OPERATION_PASS.

Definition key_entropy_actual (fsm : FsmState) : res Z :=
  n ← get_slot DC (dc_val NESN) fsm;
  if n =? 0 then Ok IFW_OPERATION_PASS
  else
    s ← get_slot DC (dc_val SN) fsm;
    if negb (n =? s) then Ok IFW_OPERATION_REJECT else Ok IFW_OPERATION_PASS.

Lemma mynewt_conn_chan_map_runs : policy_runs (L := mynewt_layout) conn_chan_map conn_chan_map_actual.
Proof.
  apply (policy_runs_intro (L := mynewt_layout)). intros.
  with_slot SHARED 3%nat 32 w.
  unfold conn_chan_map_actual. change (shared_val BD_ADDR + 3) with 3.
  validate conn_chan_map_actual 8%nat.
Qed.

Lemma key_entropy_runs :
  policy_runs (L := mynewt_layout) key_entropy_downgrade key_entropy_actual.
Proof.
  apply (policy_runs_intro (L := mynewt_layout)). intros.
  with_slot DC 1%nat 80 n. with_slot DC 0%nat 76 s0.
  validate key_entropy_actual 8%nat.
Qed.

Lemma keysize_is_key_entropy : keysize_confusion = key_entropy_downgrade.
Proof. reflexivity. Qed.

(** The shipped [key_entropy_downgrade] bytecode implements its C source on
    the struct of [fsm_for_ebpf.h], the header the source is compiled with: for
    every well-formed state it returns the source's value and changes nothing. *)
Theorem mynewt_key_entropy_correct E s :
  fsm_wf (L := ebpf_layout) s -> placed 4 (env_fsm E) (fsm_sizeof (L := ebpf_layout)) ->
  (8 <= env_fuel E)%nat ->
  exists v, key_entropy_downgrade_filter s = Ok v /\
    policy_result E key_entropy_downgrade (fsm_bytes s) =
    Ok (v, cmem (init_cpu (env_fsm E) (env_stk E) (fsm_bytes s))).
Proof.
  intros Hs Hb Hf. destruct (key_entropy_runs_ebpf E s Hs Hb Hf) as [Hr [v Hv]].
  exists v. split; [done|]. rewrite Hr, Hv. done.
Qed.

Definition ram_env : exec_env :=
  ExecEnv 0x20000000 0x20001000 64 (HelperHeap [] None) Ok (fun _ _ _ => Timeout).

(** A state of [fsm_for_ebpf.h] with a previous key size of 7 and a new one of 16. *)
Definition key_growth : FsmState :=
  FsmStateC (replicate 5 0) (replicate 8 0) (replicate 4 0) [0; 0; 16; 7] (replicate 5 0) [].

Lemma key_growth_wf : fsm_wf (L := ebpf_layout) key_growth.
Proof.
  split; [intros []; reflexivity|]. unfold is_int, key_growth, fsm_words.
  repeat (constructor; [cbn; lia|]). constructor.
Qed.

Lemma mynewt_key_entropy_correct_witness :
  exists v, key_entropy_downgrade_filter key_growth = Ok v /\
    policy_result ram_env key_entropy_downgrade (fsm_bytes key_growth) =
    Ok (v, cmem (init_cpu 0x20000000 0x20001000 (fsm_bytes key_growth))).
Proof.
  apply (mynewt_key_entropy_correct ram_env key_growth).
  - exact key_growth_wf.
  - vm_compute; repeat split; congruence.
  - apply Nat.leb_le. reflexivity.
Defined.

(** The shipped [keysize_confusion] bytecode is, byte for byte, the
    [key_entropy_downgrade] one, so it does not implement its own source: when the
    maximum key size grows the source passes and the bytecode rejects. *)
Theorem mynewt_keysize_bytecode_wrong :
  keysize_confusion = key_entropy_downgrade /\
  keysize_confusion_filter key_growth = Ok IFW_OPERATION_PASS /\
  fst <$> policy_result ram_env keysize_confusion (fsm_bytes key_growth) =
    Ok IFW_OPERATION_REJECT.
Proof. split; [reflexivity|]. split; vm_compute; reflexivity. Qed.

(** C39 — On the struct that the firewall passes, the shipped Mynewt bytecodes
    read other slots than their sources name: [conn_chan_map] rejects when the
    fourth byte of the peer address is below 2, whatever the channel map is, and
    the two key-size policies compare NESN with SN. *)
Theorem mynewt_bytecode_actual E s :
  fsm_wf s -> placed 4 (env_fsm E) fsm_sizeof -> (8 <= env_fuel E)%nat ->
  let unchanged := cmem (init_cpu (env_fsm E) (env_stk E) (fsm_bytes s)) in
  policy_result E conn_chan_map (fsm_bytes s) =
    (v ← conn_chan_map_actual s; Ok (v, unchanged)) /\
  policy_result E key_entropy_downgrade (fsm_bytes s) =
    (v ← key_entropy_actual s; Ok (v, unchanged)) /\
  policy_result E keysize_confusion (fsm_bytes s) =
    (v ← key_entropy_actual s; Ok (v, unchanged)).
Proof.
  intros Hs Hb Hf. cbn zeta. rewrite keysize_is_key_entropy.
  split; [|split; apply key_entropy_runs; done]. apply mynewt_conn_chan_map_runs; done.
Qed.

Lemma mynewt_bytecode_actual_witness :
  policy_result ram_env conn_chan_map (fsm_bytes zero_fsm) =
    Ok (IFW_OPERATION_REJECT, cmem (init_cpu 0x20000000 0x20001000 (fsm_bytes zero_fsm))).
Proof.
  apply (mynewt_bytecode_actual ram_env zero_fsm mynewt_zero_fsm_wf).
  - vm_compute; repeat split; congruence.
  - apply Nat.leb_le. reflexivity.
Defined.
