(* ===== verification/MynewtParser.v ===== *)
(** * The hooks of the Mynewt port

    The parsers of [firewall/src]: [fsm_ll_parser.c] (advertising channel and data
    channel PDUs), [fsm_tx_parser.c], [fsm_l2cap_parser.c] and [fsm_smp_parser.c],
    over the chained buffers of [Mbuf]. The
    theorems follow the shipped bytecodes through whole runs of the hooks. *)
From stdpp Require Import base tactics numbers list.
From Stdlib Require Import ZArith Lia.
From S2P Require Import Prelude Inst VM VMFacts Verifier Fsm PolicyCache PolicyExec Mbuf MynewtFsm MynewtPolicies.
Local Open Scope Z_scope.

Definition IFW_BLE_LL_PDU_HDR_LEN : Z := 2.
Definition IFW_BLE_DEV_ADDR_LEN : Z := 6.
Definition IFW_BLE_LL_CONN_REQ_ADVA_OFF : Z := IFW_BLE_LL_PDU_HDR_LEN + IFW_BLE_DEV_ADDR_LEN.
Definition BLE_LL_CHAN_MAP_LEN : Z := 5.
Abbreviation BLE_ADV_PDU_TYPE_CONNECT_IND := 5 (only parsing).
Abbreviation BLE_LL_DATA_HDR_LLID_MASK := 0x03 (only parsing).
Abbreviation BLE_LL_LLID_CTRL := 3 (only parsing).

(** ** Link layer *)
Definition ifw_dc_ll_ctrl_parser (st : monitor) : res (monitor * Z) :=
  Ok (st, IFW_OPERATION_PASS).

Definition ifw_dc_l2cap_parser (st : monitor) : res (monitor * Z) :=
  Ok (st, IFW_OPERATION_PASS).

(** [for (i = 0; i < IFW_BLE_DEV_ADDR_LEN; i++)] over the bytes copied. *)
Fixpoint store_addr (st : monitor) (i : Z) (addr : list Z) : res monitor :=
  match addr with
  | [] => Ok st
  | b :: addr =>
      st ← ifw_fsm_state_update st b (shared_val BD_ADDR + i) (class_val SHARED);
      store_addr st (i + 1) addr
  end.

Definition ifw_ble_ll_conn_periph_start (st : monitor) (rxbuf : list Z)
    : res (monitor * Z) :=
  peer_addr ← buf_read rxbuf IFW_BLE_LL_PDU_HDR_LEN IFW_BLE_DEV_ADDR_LEN;
  st ← store_addr st 0 peer_addr;
  Ok (st, IFW_OPERATION_PASS).

Section Hooks.
  Variable E : exec_env.

Definition ifw_adv_ll_parser (st : monitor) (ptype : Z) (rxbuf : list Z) : res (monitor * Z) :=
  let dptr := IFW_BLE_LL_CONN_REQ_ADVA_OFF + IFW_BLE_DEV_ADDR_LEN in
  if ptype =? BLE_ADV_PDU_TYPE_CONNECT_IND then
    chan_map ← buf_read rxbuf (dptr + 16) BLE_LL_CHAN_MAP_LEN;
    c1 ← buf_byte chan_map 1;
    c0 ← buf_byte chan_map 0;
    let chan_map_check := u16 (Z.lor (Z.shiftl c1 8) c0) in
    '(st, rej) ← IFW_FSM_CHECK_UPDATE E true st chan_map_check (conn_val CHANNEL_MAP)
                   (class_val CONN);
    if (rej : bool) then Ok (st, IFW_OPERATION_REJECT)
    else
      '(st, r) ← ifw_ble_ll_conn_periph_start st rxbuf;
      if r =? IFW_OPERATION_REJECT then Ok (st, IFW_OPERATION_REJECT)
      else Ok (st, IFW_OPERATION_PASS)
  else Ok (st, IFW_OPERATION_PASS).

(** ** Transmission *)

(** The fields of the buffer header and of the connection that are read. *)
Record tx_info := TxInfo {
  hdr_byte : Z;
  pyld_len : Z;
  tx_offset : Z;
  pktlen : Z;
  eff_max_tx_octets : Z;
}.

(** The length the function computes last and does not use. *)
Definition next_txlen (t : tx_info) : Z :=
  let n := if tx_offset t + pyld_len t <? pktlen t
           then u16 (pktlen t - (tx_offset t + pyld_len t)) else eff_max_tx_octets t in
  if eff_max_tx_octets t <? n then eff_max_tx_octets t else n.

Definition ifw_ll_tx_parser (st : monitor) (t : tx_info) (om_data : list Z) : res monitor :=
  let llid := Z.land (hdr_byte t) BLE_LL_DATA_HDR_LLID_MASK in
  '(is_ctrl, opcode) ←
    (if llid =? BLE_LL_LLID_CTRL
     then op ← buf_byte om_data 0; Ok (1, op) else Ok (0, 0));
  st ← ifw_fsm_state_update st is_ctrl (conn_val TX_IS_CTRL) (class_val CONN);
  ifw_fsm_state_update st opcode (conn_val TX_OPCODE) (class_val CONN).

(** ** Security manager *)

(** [max_enc_key_size] is the fourth byte of [struct ifw_ble_sm_pair_cmd], which
    is read in the first fragment right after the opcode. *)
Definition ifw_smp_parser (st : monitor) (rx_buf : option os_mbuf) : res (monitor * Z) :=
  match rx_buf with
  | None => Ok (st, IFW_OPERATION_PASS)
  | Some om =>
      let '(bs, rc) := os_mbuf_copydata om 0 1 in
      if negb (rc =? 0) then Ok (st, IFW_OPERATION_PASS)
      else
        op ← buf_byte bs 0;
        if op =? 0x01 then
          om_data ← of_option NullDeref (head om);
          sz ← buf_byte om_data (1 + 3);
          '(st, rej) ← IFW_FSM_CHECK_UPDATE E true st sz (dc_val SMP_MAX_ENC_SIZE)
                         (class_val DC);
          if (rej : bool) then Ok (st, IFW_OPERATION_REJECT)
          else
            st ← ifw_fsm_state_update st sz (dc_val SMP_MAX_ENC_SIZE_PREV) (class_val DC);
            Ok (st, IFW_OPERATION_PASS)
        else Ok (st, IFW_OPERATION_PASS)
  end.
End Hooks.

(** ** The loaded cache *)
Definition mynewt_cache : policy_state :=
  match load_all_policies policy_state0 (fun _ => true) with Ok m => m | _ => policy_state0 end.

Lemma load_mynewt_cache : load_all_policies policy_state0 (fun _ => true) = Ok mynewt_cache.
Proof. vm_compute. reflexivity. Qed.

Lemma add_mynewt_wf m ok pid bytes class type m' :
  cache_wf m -> slot_in class type -> 0 <= pid < PID_NUM ->
  ADD_POLICY m ok pid bytes class type = Ok m' -> cache_wf m'.
Proof. destruct mynewt_port_ok. intros. eapply add_policy_wf; eauto. Qed.

Lemma load_mynewt_wf m oks m' :
  cache_wf m -> load_all_policies m oks = Ok m' -> cache_wf m'.
Proof.
  intros Hm H. unfold load_all_policies in H.
  repeat (apply bind_Ok in H as (? & H1 & H);
    apply add_mynewt_wf in H1; [clear Hm; rename H1 into Hm|done
      |split; vm_compute; split; congruence|cbn; lia]).
  apply add_mynewt_wf in H; [done|done|split; vm_compute; split; congruence|cbn; lia].
Qed.

Lemma mynewt_cache_wf : cache_wf mynewt_cache.
Proof.
  eapply load_mynewt_wf; [|apply load_mynewt_cache]. destruct mynewt_port_ok. now apply policy_state0_wf.
Qed.

(** The shipped bytecodes with what they compute. *)
Definition mynewt_actual : list (list Z * (FsmState -> res Z)) :=
  [(conn_chan_map, conn_chan_map_actual); (keysize_confusion, key_entropy_actual);
   (key_entropy_downgrade, key_entropy_actual)].

Lemma mynewt_actual_runs bytes f :
  In (bytes, f) mynewt_actual -> policy_runs bytes f /\ length bytes = 65%nat.
Proof.
  intros H. cbn in H. destruct_or! H; try done; injection H as <- <-; (split; [|reflexivity]);
    [apply mynewt_conn_chan_map_runs|rewrite keysize_is_key_entropy|]; apply key_entropy_runs.
Qed.

(** The native code of every shipped policy does what the bytecode does. *)
Definition native (E : exec_env) : Prop :=
  forall bytes f s v, In (bytes, f) mynewt_actual -> fsm_wf s -> f s = Ok v ->
  jit_returns E bytes 65 (fsm_bytes s) v.

Section Shipped.
  Variable j : bool.              (* the argument of [ifw_fsm_enable] *)

Definition shipped_arr : list policy_cache :=
  if j then map jit_on (policy_arr mynewt_cache) else policy_arr mynewt_cache.

(** A cache that holds the shipped policies and no others. *)
Definition shipped (m : policy_state) : Prop :=
  cache_wf m /\ policy_manager m = policy_manager mynewt_cache /\ policy_arr m = shipped_arr.

Definition env_ok (E : exec_env) : Prop :=
  if j then native E else placed 4 (env_fsm E) fsm_sizeof /\ (8 <= env_fuel E)%nat.

(** A shipped policy that computes [f] returns the value of [f]. *)
Lemma shipped_arr_returns E m s pid bytes f v :
  env_ok E -> fsm_wf s -> policy_arr m = shipped_arr -> In (bytes, f) mynewt_actual -> f s = Ok v ->
  arr_get (policy_arr mynewt_cache) pid = Some (PolicyCacheC 65 (Some bytes) false) ->
  0 <= pid < 3 -> policy_returns E m (fsm_bytes s) pid v.
Proof.
  intros HE Hs Ha Hin Hv Hg Hp. destruct (mynewt_actual_runs _ _ Hin) as [Hr Hl].
  assert (Hslot : get_policy_slot m pid = Some (PolicyCacheC 65 (Some bytes) j)).
  { unfold get_policy_slot. destruct (Z.ltb_spec pid 0); [lia|].
    destruct (Z.ltb_spec pid PID_NUM); [|cbn in *; lia]. rewrite Ha. unfold shipped_arr.
    destruct j; [|exact Hg]. apply arr_get_Some in Hg as [Hpid Hg]. apply arr_get_Some.
    split; [done|]. change (map jit_on) with (fmap jit_on : list _ -> list _).
    now rewrite list_lookup_fmap, Hg. }
  eexists _, bytes. split; [exact Hslot|]. cbn [size code jit]. split; [done|]. split; [done|].
  unfold env_ok in HE. destruct j; [eauto|]. destruct HE as [Hb Hfu].
  destruct (Hr E s Hs Hb) as [Hres _]; [rewrite Hl; exact Hfu|].
  eexists. rewrite Hres, Hv. done.
Qed.

Lemma shipped_returns E m s pid bytes f v :
  env_ok E -> fsm_wf s -> shipped m -> In (bytes, f) mynewt_actual -> f s = Ok v ->
  arr_get (policy_arr mynewt_cache) pid = Some (PolicyCacheC 65 (Some bytes) false) ->
  0 <= pid < 3 -> policy_returns E m (fsm_bytes s) pid v.
Proof. intros HE Hs (_ & _ & Ha). now apply shipped_arr_returns. Qed.

(** The policies of a slot, run on a state for which their values are known. *)
Lemma check_policies_eq E st type c l val :
  env_ok E -> fsm_wf (newFSMState st) -> shipped (cache st) ->
  table_get (cache st) (class_val c) type = Ok l ->
  Forall (fun pid => policy_returns E (cache st) (fsm_bytes (newFSMState st)) pid (val pid)) l ->
  exists m', check_policies E true st type (class_val c) =
    Ok (Monitor (curFSMState st) (newFSMState st) m',
        if existsb (fun pid => val pid =? IFW_OPERATION_REJECT) l
        then IFW_OPERATION_REJECT else IFW_OPERATION_PASS) /\ shipped m'.
Proof.
  intros HE Hs Hsh Hg Hl. destruct mynewt_port_ok as [Hp Hd]. pose proof Hsh as (Hw & Ht & Ha).
  destruct (run_policies_eq (P := mynewt_port) Hd E (cache st) (fsm_bytes (newFSMState st)) l val
    Hw Hl) as (m' & Er & Hm & Hw').
  exists m'. unfold check_policies, run_fsm_check_policy. rewrite Hg. cbn [mbind res_bind].
  rewrite Er. cbn [mbind res_bind]. rewrite fsm_of_bytes_bytes by done. split; [done|].
  destruct Hm as [->|(vm & jvm & ->)]; [done|]. split; [done|]. split; [exact Ht|exact Ha].
Qed.

(** ** Runs of the hooks *)

(** The calls the stack makes. *)
Inductive hook_event :=
| EvAdv (ptype : Z) (rxbuf : list Z)
| EvDcCtrl
| EvDcL2cap
| EvSmp (rx_buf : option os_mbuf)
| EvTx (t : tx_info) (om_data : list Z).

Definition hook_step (E : exec_env) (st : monitor) (ev : hook_event) : res (monitor * Z) :=
  match ev with
  | EvAdv ptype rxbuf => ifw_adv_ll_parser E st ptype rxbuf
  | EvDcCtrl => ifw_dc_ll_ctrl_parser st
  | EvDcL2cap => ifw_dc_l2cap_parser st
  | EvSmp rx_buf => ifw_smp_parser E st rx_buf
  | EvTx t om_data => st ← ifw_ll_tx_parser st t om_data; Ok (st, IFW_OPERATION_PASS)
  end.

Fixpoint hook_run (E : exec_env) (st : monitor) (evs : list hook_event)
    : res (monitor * list Z) :=
  match evs with
  | [] => Ok (st, [])
  | ev :: evs =>
      '(st, v) ← hook_step E st ev;
      '(st, vs) ← hook_run E st evs;
      Ok (st, v :: vs)
  end.

(** The buffers hold the fields that the hooks read: a CONNECT_IND is 35 bytes long, the
    first fragment of a pairing request, which the first byte of the packet tells, five,
    and a control PDU has an opcode. *)
Definition event_ok (ev : hook_event) : bool :=
  match ev with
  | EvAdv ptype rxbuf =>
      negb (ptype =? BLE_ADV_PDU_TYPE_CONNECT_IND) || (35 <=? Z.of_nat (length rxbuf))
  | EvSmp (Some om) =>
      match concat om, om with
      | op :: _, d :: _ => negb (op =? 0x01) || (5 <=? Z.of_nat (length d))
      | _, _ => true
      end
  | EvTx t om_data =>
      negb (Z.land (hdr_byte t) BLE_LL_DATA_HDR_LLID_MASK =? BLE_LL_LLID_CTRL) ||
      (1 <=? Z.of_nat (length om_data))
  | _ => true
  end.

(** What stays true: the fourth byte of the peer address and NESN are zero. *)
Record minv (st : monitor) : Prop := Minv {
  minv_cur : fsm_wf (curFSMState st);
  minv_cache : shipped (cache st);
  minv_addr : get_slot SHARED (shared_val BD_ADDR + 3) (curFSMState st) = Ok 0;
  minv_nesn : get_slot DC (dc_val NESN) (curFSMState st) = Ok 0;
}.

(** The slots [minv] speaks of. *)
Definition guarded (c : ifw_state_class) (t : Z) : Prop :=
  (c, t) = (SHARED, shared_val BD_ADDR + 3) \/ (c, t) = (DC, dc_val NESN).

Lemma minv_write st c t v cur new m :
  minv st -> fsm_wf cur -> shipped m -> ~ guarded c t ->
  set_slot c t v (curFSMState st) = Ok cur -> minv (Monitor cur new m).
Proof.
  intros [_ _ Ha Hn] Hw Hm Hg Hset. constructor; cbn; [done|done| |].
  - rewrite <- Ha. eapply get_set_slot_ne; [exact Hset|]. intros E. apply Hg. left. congruence.
  - rewrite <- Hn. eapply get_set_slot_ne; [exact Hset|]. intros E. apply Hg. right. congruence.
Qed.

Lemma state_update_minv st v t c :
  minv st -> c <> IFW_STATE_CLASS_NUM -> 0 <= t < Z.of_nat (class_size c) -> ~ guarded c t ->
  exists st', ifw_fsm_state_update st v t (class_val c) = Ok st' /\ minv st'.
Proof.
  intros Hi Hc Ht Hg. pose proof (u16_range v).
  assert (Ht16 : u16 t = t) by (apply u16_small; destruct c; cbn in Ht; lia).
  destruct (set_slot_ok c t (u16 v) (curFSMState st) (minv_cur _ Hi)) as (cur & Es & Hw);
    [unfold is_int; lia|done|].
  exists (Monitor cur (newFSMState st) (cache st)).
  split; [|eapply minv_write; eauto; apply Hi].
  unfold ifw_fsm_state_update. rewrite Ht16.
  replace (u16 (class_val c)) with (class_val c) by now destruct c.
  rewrite class_of_val by done.
  destruct (Z.ltb_spec t (Z.of_nat (class_size c))); [|lia]. now rewrite Es.
Qed.

(** An update of a slot of the classes without enumerated values, up to the
    policies. *)
Lemma check_update_eq E st v t c :
  minv st -> c <> IFW_STATE_CLASS_NUM -> c <> CORE -> 0 <= t < Z.of_nat (class_size c) ->
  exists s', set_slot c t (u16 v) (curFSMState st) = Ok s' /\ fsm_wf s' /\
    ifw_fsm_check_update E true st v t (class_val c) =
    ('(st1, r) ← check_policies E true (Monitor (curFSMState st) s' (cache st)) t (class_val c);
     if r =? IFW_OPERATION_REJECT then Ok (st1, IFW_OPERATION_REJECT)
     else st2 ← ifw_fsm_state_update st1 (u16 v) t (class_val c);
          Ok (st2, IFW_OPERATION_PASS)).
Proof.
  intros Hi Hc Hcore Ht. pose proof (u16_range v).
  assert (Ht16 : u16 t = t) by (apply u16_small; destruct c; cbn in Ht; lia).
  destruct (set_slot_ok c t (u16 v) (curFSMState st) (minv_cur _ Hi)) as (s' & Es & Hw);
    [unfold is_int; lia|done|].
  exists s'. split; [done|]. split; [done|]. unfold ifw_fsm_check_update. rewrite Ht16.
  replace (u16 (class_val c)) with (class_val c) by now destruct c.
  rewrite class_of_val by done. unfold update_guard.
  destruct (Z.leb_spec (Z.of_nat (class_size c)) t); [lia|].
  destruct c; try done; cbn [mbind res_bind negb ifw_stage_refresh newFSMState]; now rewrite Es.
Qed.

Lemma shipped_table st c t : shipped (cache st) ->
  table_get (cache st) (class_val c) t = table_get mynewt_cache (class_val c) t.
Proof. intros (_ & Ht & _). unfold table_get. now rewrite Ht. Qed.

(** The channel map is rejected: the policy looks at the peer address. *)
Lemma chan_map_rejected E st v :
  env_ok E -> minv st ->
  exists st', ifw_fsm_check_update E true st v (conn_val CHANNEL_MAP) (class_val CONN) =
    Ok (st', IFW_OPERATION_REJECT) /\ minv st'.
Proof.
  intros HE Hi.
  destruct (check_update_eq E st v (conn_val CHANNEL_MAP) CONN Hi) as (s' & Es & Hw & ->);
    [done|done|cbn; lia|].
  assert (Ha : get_slot SHARED (shared_val BD_ADDR + 3) s' = Ok 0)
    by (rewrite <- (minv_addr _ Hi); eapply get_set_slot_ne; [exact Es|discriminate]).
  destruct (check_policies_eq E (Monitor (curFSMState st) s' (cache st)) (conn_val CHANNEL_MAP)
    CONN [0] (fun _ => 1)) as (m' & -> & Hm'); [done|done|apply Hi| | |].
  - rewrite shipped_table by apply Hi. reflexivity.
  - constructor; [|constructor].
    apply (shipped_returns _ _ _ _ conn_chan_map conn_chan_map_actual);
      [done|done|apply Hi|cbn; tauto| |reflexivity|lia].
    unfold conn_chan_map_actual. cbn [newFSMState]. now rewrite Ha.
  - cbn. eexists. split; [reflexivity|]. destruct Hi. now constructor.
Qed.

(** The key size passes: the policies look at NESN and SN. *)
Lemma enc_size_passes E st v :
  env_ok E -> minv st ->
  exists st', ifw_fsm_check_update E true st v (dc_val SMP_MAX_ENC_SIZE) (class_val DC) =
    Ok (st', IFW_OPERATION_PASS) /\ minv st'.
Proof.
  intros HE Hi.
  destruct (check_update_eq E st v (dc_val SMP_MAX_ENC_SIZE) DC Hi) as (s' & Es & Hw & ->);
    [done|done|cbn; lia|].
  assert (Hn : get_slot DC (dc_val NESN) s' = Ok 0)
    by (rewrite <- (minv_nesn _ Hi); eapply get_set_slot_ne; [exact Es|discriminate]).
  destruct (check_policies_eq E (Monitor (curFSMState st) s' (cache st))
    (dc_val SMP_MAX_ENC_SIZE) DC [1; 2] (fun _ => 0)) as (m' & -> & Hm'); [done|done|apply Hi| | |].
  - rewrite shipped_table by apply Hi. reflexivity.
  - assert (Hf : key_entropy_actual s' = Ok 0) by (unfold key_entropy_actual; now rewrite Hn).
    constructor; [|constructor; [|constructor]].
    + apply (shipped_returns _ _ _ _ keysize_confusion key_entropy_actual);
        [done|done|apply Hi|cbn; tauto|done|reflexivity|lia].
    + apply (shipped_returns _ _ _ _ key_entropy_downgrade key_entropy_actual);
        [done|done|apply Hi|cbn; tauto|done|reflexivity|lia].
  - cbn [existsb orb Z.eqb IFW_OPERATION_REJECT IFW_OPERATION_PASS mbind res_bind
      curFSMState newFSMState].
    destruct (state_update_minv (Monitor (curFSMState st) s' m') (u16 v)
      (dc_val SMP_MAX_ENC_SIZE) DC) as (st2 & -> & Hi2); [|done|cbn; lia| |now exists st2].
    + destruct Hi. now constructor.
    + intros [[=]|[=]].
Qed.

Lemma adv_refines E st ptype rxbuf :
  env_ok E -> minv st ->
  exists st', minv st' /\ ifw_adv_ll_parser E st ptype rxbuf =
    if event_ok (EvAdv ptype rxbuf)
    then Ok (st', if ptype =? BLE_ADV_PDU_TYPE_CONNECT_IND
                  then IFW_OPERATION_REJECT else IFW_OPERATION_PASS)
    else Crash MemFault.
Proof.
  intros HE Hi. unfold ifw_adv_ll_parser, event_ok.
  destruct (ptype =? BLE_ADV_PDU_TYPE_CONNECT_IND); [|now exists st]. unfold buf_read.
  change (IFW_BLE_LL_CONN_REQ_ADVA_OFF + IFW_BLE_DEV_ADDR_LEN + 16) with 30.
  change (Z.to_nat 30) with 30%nat. change (Z.to_nat BLE_LL_CHAN_MAP_LEN) with 5%nat.
  unfold BLE_LL_CHAN_MAP_LEN. change (30 + 5) with 35. cbn [negb orb andb Z.leb Z.compare].
  destruct (Z.leb_spec 35 (Z.of_nat (length rxbuf))); [|now exists st]. cbn [mbind res_bind].
  assert (Hl : length (slice 30 5 rxbuf) = 5%nat) by (apply length_slice; lia).
  destruct (slice 30 5 rxbuf) as [|c0 [|c1 l]]; [done|done|].
  unfold buf_byte. cbn [length] in Hl.
  assert (E1 : arr_get (c0 :: c1 :: l) 1 = Some c1) by (apply arr_get_Some; split; [lia|done]).
  assert (E0 : arr_get (c0 :: c1 :: l) 0 = Some c0) by (apply arr_get_Some; split; [lia|done]).
  rewrite E1, E0. cbn [of_option mbind res_bind]. unfold IFW_FSM_CHECK_UPDATE.
  destruct (chan_map_rejected E st (u16 (Z.lor (Z.shiftl c1 8) c0)) HE Hi) as (st' & -> & Hi').
  now exists st'.
Qed.

(** A pairing request with its key size in the first fragment. *)
Lemma pairing_refines E st sz :
  env_ok E -> minv st ->
  exists st', minv st' /\
    ('(st, rej) ← IFW_FSM_CHECK_UPDATE E true st sz (dc_val SMP_MAX_ENC_SIZE) (class_val DC);
     if (rej : bool) then Ok (st, IFW_OPERATION_REJECT)
     else st ← ifw_fsm_state_update st sz (dc_val SMP_MAX_ENC_SIZE_PREV) (class_val DC);
          Ok (st, IFW_OPERATION_PASS)) = Ok (st', IFW_OPERATION_PASS).
Proof.
  intros HE Hi. unfold IFW_FSM_CHECK_UPDATE.
  destruct (enc_size_passes E st sz HE Hi) as (st1 & -> & Hi1). cbn [mbind res_bind].
  change (IFW_OPERATION_PASS =? IFW_OPERATION_REJECT) with false. cbn [mbind res_bind].
  destruct (state_update_minv st1 sz (dc_val SMP_MAX_ENC_SIZE_PREV) DC Hi1) as (st2 & -> & Hi2);
    [done|cbn; lia|intros [[=]|[=]]|]. now exists st2.
Qed.

Lemma smp_refines E st rx_buf :
  env_ok E -> minv st ->
  exists st', minv st' /\ ifw_smp_parser E st rx_buf =
    if event_ok (EvSmp rx_buf) then Ok (st', IFW_OPERATION_PASS) else Crash MemFault.
Proof.
  intros HE Hi. unfold ifw_smp_parser, event_ok. destruct rx_buf as [om|]; [|now exists st].
  rewrite copydata_flat by lia. change (Z.to_nat 0) with 0%nat. change (Z.to_nat 1) with 1%nat.
  destruct (concat om) as [|op bs] eqn:Ec; [now exists st|].
  destruct (Z.leb_spec (0 + 1) (Z.of_nat (length (op :: bs)))); [|cbn [length] in *; lia].
  cbn [slice take drop Z.eqb negb]. change (buf_byte (op :: take 0 bs) 0) with (@Ok Z op). cbn [mbind res_bind].
  destruct om as [|d om]; [done|]. destruct (op =? 1); [|now exists st].
  cbn [head of_option mbind res_bind negb orb]. unfold buf_byte. change (1 + 3) with 4.
  destruct (Z.leb_spec 5 (Z.of_nat (length d))).
  - destruct (arr_get d 4) as [sz|] eqn:E4; [|apply arr_get_None in E4; lia].
    cbn [of_option mbind res_bind]. now apply pairing_refines.
  - rewrite (proj2 (arr_get_None d 4)) by lia. now exists st.
Qed.

Lemma tx_refines st t om_data :
  minv st ->
  exists st', minv st' /\ ifw_ll_tx_parser st t om_data =
    if event_ok (EvTx t om_data) then Ok st' else Crash MemFault.
Proof.
  intros Hi. unfold ifw_ll_tx_parser, event_ok, buf_byte.
  assert (Hw : forall a o, exists st', minv st' /\ (st1 ← ifw_fsm_state_update st a (conn_val TX_IS_CTRL)
      (class_val CONN); ifw_fsm_state_update st1 o (conn_val TX_OPCODE) (class_val CONN)) = Ok st').
  { intros a o.
    destruct (state_update_minv st a (conn_val TX_IS_CTRL) CONN Hi) as (st1 & -> & Hi1);
      [done|cbn; lia|intros [[=]|[=]]|].
    destruct (state_update_minv st1 o (conn_val TX_OPCODE) CONN Hi1) as (st2 & H2 & Hi2);
      [done|cbn; lia|intros [[=]|[=]]|]. now exists st2. }
  destruct (_ =? BLE_LL_LLID_CTRL); cbn [negb orb]; [|apply Hw].
  destruct om_data as [|b om]; [now exists st|].
  destruct (Z.leb_spec 1 (Z.of_nat (length (b :: om)))); [|cbn [length] in *; lia]. apply Hw.
Qed.

(** The verdict of a hook on a device with the shipped policies. *)
Definition shipped_verdict (ev : hook_event) : Z :=
  match ev with
  | EvAdv ptype _ =>
      if ptype =? BLE_ADV_PDU_TYPE_CONNECT_IND then IFW_OPERATION_REJECT else IFW_OPERATION_PASS
  | _ => IFW_OPERATION_PASS
  end.

Lemma hook_step_verdict E st ev :
  env_ok E -> minv st ->
  exists st', minv st' /\
    hook_step E st ev = if event_ok ev then Ok (st', shipped_verdict ev) else Crash MemFault.
Proof.
  intros HE Hi. destruct ev as [ptype rxbuf| | |rx_buf|t om]; cbn [hook_step shipped_verdict].
  - now apply adv_refines.
  - now exists st.
  - now exists st.
  - now apply smp_refines.
  - destruct (tx_refines st t om Hi) as (st' & Hi' & ->). exists st'. now destruct (event_ok _).
Qed.

Lemma hook_run_verdicts E st evs :
  env_ok E -> minv st ->
  exists st', minv st' /\
    hook_run E st evs = if forallb event_ok evs then Ok (st', map shipped_verdict evs) else Crash MemFault.
Proof.
  intros HE. revert st. induction evs as [|ev evs IH]; intros st Hi; cbn [hook_run forallb].
  { now exists st. }
  destruct (hook_step_verdict E st ev HE Hi) as (st1 & Hi1 & ->). destruct (event_ok ev); [|now exists st].
  cbn [mbind res_bind andb]. destruct (IH st1 Hi1) as (st2 & Hi2 & ->). exists st2.
  split; [done|]. now destruct (forallb event_ok evs).
Qed.

(** The device after [ifw_fsm_init] and [ifw_fsm_enable(j)]. *)
Definition boot : res monitor :=
  m ← ifw_fsm_enable policy_state0 (fun _ => true) j;
  Ok (ifw_fsm_init (Monitor zero_fsm zero_fsm m)).

Definition boot_cache : policy_state := if j then set_all_policy_jit_on mynewt_cache else mynewt_cache.
Definition boot_state : monitor := ifw_fsm_init (Monitor zero_fsm zero_fsm boot_cache).

Lemma mynewt_boot_ok : boot = Ok boot_state.
Proof. unfold boot, ifw_fsm_enable. now rewrite load_mynewt_cache. Qed.

Lemma boot_cache_shipped : shipped boot_cache.
Proof.
  pose proof mynewt_cache_wf as Hw.
  unfold shipped, boot_cache, shipped_arr. destruct j; [|done]. split; [|done].
  destruct Hw. constructor; cbn; auto.
Qed.

Lemma boot_minv : minv boot_state.
Proof.
  constructor; try reflexivity; [apply (ifw_fsm_init_wf (Monitor zero_fsm zero_fsm boot_cache))|
    apply boot_cache_shipped].
Qed.
End Shipped.

Lemma mynewt_cache_shipped : shipped false mynewt_cache.
Proof. split; [exact mynewt_cache_wf|]. split; reflexivity. Qed.

(** C24 — The Mynewt hooks with the shipped bytecodes: from the state after start-up
    with [ifw_fsm_enable(j)], where the policies are interpreted or, when [j] is
    [JIT_ON], the native code does what the bytecode does, and on every sequence of
    calls: when every buffer holds the fields that the hooks read (a CONNECT_IND 35
    bytes, a pairing request its first five bytes in the first fragment, a transmitted
    control PDU an opcode), every CONNECT_IND is rejected whatever its channel map, and
    every other PDU passes, pairing requests with any key size included; otherwise the
    run ends in a read outside of the first buffer that does not. *)
Theorem mynewt_hooks_shipped j E evs :
  env_ok j E ->
  exists st', minv j st' /\
    (st ← boot j; hook_run E st evs) =
    if forallb event_ok evs then Ok (st', map shipped_verdict evs) else Crash MemFault.
Proof.
  intros HE. rewrite mynewt_boot_ok. cbn [mbind res_bind].
  apply hook_run_verdicts; auto using boot_minv.
Qed.

(** A CONNECT_IND that enables all 37 channels, a pairing request, and a two-byte
    Pairing Failed. *)
Definition sample_events : list hook_event :=
  [EvAdv 5 (replicate 30 0x11 ++ [0xff; 0xff; 0xff; 0xff; 0x1f]);
   EvSmp (Some [[0x01; 3; 0; 1; 7; 0; 0]]); EvSmp (Some [[0x05; 3]])].

Lemma mynewt_hooks_shipped_witness :
  exists st', minv false st' /\
    (st ← boot false; hook_run ram_env st sample_events) = Ok (st', [1; 0; 0]).
Proof.
  apply (mynewt_hooks_shipped false ram_env sample_events).
  split; [vm_compute; repeat split; congruence|]. apply Nat.leb_le. reflexivity.
Defined.

(** ** Registration on this port *)

(** On Mynewt the second dimension of the policy table is the number of DC
    parameters (4), not the largest number of slots of a class: the list of
    (CORE, IO_CAPACITY) is the list of (CONN, CHANNEL_MAP), so on a device with
    the shipped policies an update of the IO capability to any legal value is
    judged by the channel-map policy and rejected. *)
Theorem mynewt_table_aliases j m E st v :
  table_get m (class_val CORE) (core_val IO_CAPACITY) =
    table_get m (class_val CONN) (conn_val CHANNEL_MAP) /\
  (env_ok j E -> minv j st -> 0 <= v < io_capacity_val IFW_IO_CAPACITY_NUM ->
   exists st', ifw_fsm_check_update E true st v (core_val IO_CAPACITY) (class_val CORE) =
     Ok (st', IFW_OPERATION_REJECT)).
Proof.
  split; [reflexivity|]. intros HE Hi Hv. cbn [io_capacity_val] in Hv.
  unfold ifw_fsm_check_update. change (u16 (class_val CORE)) with 1.
  change (u16 (core_val IO_CAPACITY)) with 4. rewrite (u16_small v) by lia. cbn [class_of].
  change (update_guard CORE v 4) with (@Ok bool (negb (6 <=? v))).
  destruct (Z.leb_spec 6 v); [lia|]. cbn [mbind res_bind negb ifw_stage_refresh newFSMState].
  destruct (set_slot_ok CORE 4 v (curFSMState st) (minv_cur _ _ Hi)) as (s' & Es & Hw);
    [unfold is_int; lia|cbn; lia|]. rewrite Es. cbn [mbind res_bind].
  assert (Ha : get_slot SHARED (shared_val BD_ADDR + 3) s' = Ok 0)
    by (rewrite <- (minv_addr _ _ Hi); eapply get_set_slot_ne; [exact Es|discriminate]).
  destruct (check_policies_eq j E (Monitor (curFSMState st) s' (cache st)) 4 CORE [0] (fun _ => 1))
    as (m' & Ep & Hm'); [done|done|apply Hi| | |].
  - rewrite (shipped_table j) by apply Hi. reflexivity.
  - constructor; [|constructor].
    apply (shipped_returns j _ _ _ _ conn_chan_map conn_chan_map_actual);
      [done|done|apply Hi|cbn; tauto| |reflexivity|lia].
    unfold conn_chan_map_actual. cbn [newFSMState]. now rewrite Ha.
  - change (class_val CORE) with 1 in Ep. cbn [curFSMState cache ifw_stage_refresh] in *.
    rewrite Ep. eexists. reflexivity.
Qed.

Lemma ram_env_ok : env_ok false ram_env.
Proof. split; [vm_compute; repeat split; congruence|]. apply Nat.leb_le. reflexivity. Qed.

Lemma mynewt_table_aliases_witness :
  exists st', ifw_fsm_check_update ram_env true (boot_state false) 3 (core_val IO_CAPACITY)
    (class_val CORE) = Ok (st', IFW_OPERATION_REJECT).
Proof.
  apply (mynewt_table_aliases false mynewt_cache ram_env (boot_state false) 3).
  - exact ram_env_ok.
  - exact (boot_minv false).
  - cbn. lia.
Defined.

(** [ifw_fsm_enable] does not check what is registered already: every further
    call, which the sample application makes each time it starts to advertise,
    appends the same policies again, so after [n] calls each runs [n] times. *)
Theorem enable_accumulates n :
  exists m, Nat.iter n (fun r => m ← r; ifw_fsm_enable m (fun _ => true) false)
              (Ok policy_state0) = Ok m /\
    slot_list m (class_val CONN) (conn_val CHANNEL_MAP) = replicate n 0 /\ cache_wf m.
Proof.
  induction n as [|n IH].
  { exists policy_state0. split; [done|]. split; [reflexivity|].
    destruct mynewt_port_ok. now apply policy_state0_wf. }
  destruct IH as (m & Em & Hl & Hw). destruct mynewt_port_ok as [Hp Hd].
  change (Nat.iter (S n) ?f ?x) with (f (Nat.iter n f x)). cbn beta. rewrite Em. cbn [mbind res_bind].
  unfold ifw_fsm_enable, load_all_policies.
  assert (Hadd : forall m pid bytes class type, cache_wf m -> slot_in class type ->
    0 <= pid < PID_NUM -> exists m', ADD_POLICY m true pid bytes class type = Ok m' /\ cache_wf m' /\
      forall c t, slot_in c t -> slot_list m' c t =
        if decide ((class, type) = (c, t)) then slot_list m c t ++ [pid] else slot_list m c t).
  { intros m1 pid bytes c t Hm Hs Hpid. now apply (add_policy_ok (P := mynewt_port) Hd). }
  destruct (Hadd m (pid_val PID_conn_chan_map) conn_chan_map (class_val CONN)
    (conn_val CHANNEL_MAP) Hw) as (m1 & -> & Hw1 & H1);
    [split; vm_compute; split; congruence|cbn; lia|]. cbn [mbind res_bind].
  destruct (Hadd m1 (pid_val PID_keysize_confusion) keysize_confusion (class_val DC)
    (dc_val SMP_MAX_ENC_SIZE) Hw1) as (m2 & -> & Hw2 & H2);
    [split; vm_compute; split; congruence|cbn; lia|]. cbn [mbind res_bind].
  destruct (Hadd m2 (pid_val PID_key_entropy_downgrade) key_entropy_downgrade (class_val DC)
    (dc_val SMP_MAX_ENC_SIZE) Hw2) as (m3 & -> & Hw3 & H3);
    [split; vm_compute; split; congruence|cbn; lia|]. cbn [mbind res_bind].
  exists m3. split; [done|]. split; [|done].
  rewrite H3, H2, H1 by (split; vm_compute; split; congruence).
  rewrite !decide_False by discriminate. rewrite decide_True by done. rewrite Hl.
  now rewrite <- replicate_S_end.
Qed.

(** ** The theorems on the cache and on updates, on a loaded Mynewt cache *)
Lemma read_policy_guards :
  install_guards mynewt_cache (class_val DC) (dc_val SMP_MAX_ENC_SIZE) read_policy.
Proof.
  split; [split; vm_compute; split; congruence|]. split; [reflexivity|].
  apply verify_policy_allowed. reflexivity.
Qed.

Lemma install_policy_ok_witness :
  let m' := installed mynewt_cache (class_val DC) (dc_val SMP_MAX_ENC_SIZE) read_policy in
  ifw_install_policy mynewt_cache true true (class_val DC) (dc_val SMP_MAX_ENC_SIZE)
      (Some read_policy) 16 = Ok (m', 0) /\
  install_result mynewt_cache (class_val DC) (dc_val SMP_MAX_ENC_SIZE) read_policy m' /\
  cache_wf (set_table m' (policy_manager mynewt_cache)).
Proof.
  destruct mynewt_port_ok as [Hp Hd].
  apply (install_policy_ok (P := mynewt_port) Hp Hd mynewt_cache true).
  - exact mynewt_cache_wf.
  - exact read_policy_guards.
Defined.

Lemma register_remove_witness :
  exists m1 m2, register_policy mynewt_cache true (class_val CONN) (conn_val CHANNEL_HOP) 2 = Ok m1 /\
    slot_list m1 (class_val CONN) (conn_val CHANNEL_HOP) = [2] /\
    remove_policy m1 (class_val CONN) (conn_val CHANNEL_HOP) 2 = Ok m2 /\
    policy_manager m2 = policy_manager mynewt_cache.
Proof.
  destruct mynewt_port_ok as [Hp Hd].
  apply (register_remove (P := mynewt_port) Hd mynewt_cache).
  - exact mynewt_cache_wf.
  - split; vm_compute; split; congruence.
  - vm_compute. tauto.
Defined.

(** The shipped channel-map policy is legal up to the NUL of its literal. *)
Lemma conn_chan_map_legal : slot_legal ram_env mynewt_cache 0.
Proof.
  exists (PolicyCacheC 65 (Some conn_chan_map) false), (take 64 conn_chan_map), [0].
  split; [reflexivity|]. split; [reflexivity|]. split; [reflexivity|]. split; [discriminate|].
  split; [|apply Nat.leb_le; reflexivity]. split; [|apply verify_policy_allowed|..]; try reflexivity.
  vm_compute. repeat constructor.
Qed.

Lemma check_policy_disjunction_witness :
  exists m', run_fsm_check_policy ram_env true mynewt_cache (conn_val CHANNEL_MAP)
      (class_val CONN) (fsm_bytes zero_fsm) = Ok (m', IFW_OPERATION_REJECT, fsm_bytes zero_fsm) /\
    same_tables mynewt_cache m' /\ cache_wf m'.
Proof.
  destruct mynewt_port_ok as [Hp Hd].
  apply (check_policy_disjunction (P := mynewt_port) Hd ram_env mynewt_cache (fsm_bytes zero_fsm)
    (class_val CONN) (conn_val CHANNEL_MAP)).
  - exact mynewt_cache_wf.
  - split; vm_compute; split; congruence.
  - vm_compute; repeat split; congruence.
  - constructor; [exact conn_chan_map_legal|constructor].
Defined.

(** An update of the channel map is staged, judged and rejected. *)
Lemma mynewt_update_atomic_witness :
  exists new m', ifw_fsm_check_update ram_env true (boot_state false) 7 (conn_val CHANNEL_MAP) (class_val CONN) =
    Ok (Monitor (curFSMState (boot_state false)) new m', IFW_OPERATION_REJECT).
Proof.
  destruct (mynewt_update_atomic ram_env (boot_state false) 7 (conn_val CHANNEL_MAP) (class_val CONN))
    as (c & new & m' & Ec & Es & _ & _ & _ & _ & H).
  - exact (ifw_fsm_init_wf (Monitor zero_fsm zero_fsm mynewt_cache)).
  - exact mynewt_cache_wf.
  - vm_compute; repeat split; congruence.
  - vm_compute; repeat split; congruence.
  - constructor; [exact conn_chan_map_legal|constructor].
  - exists new, m'. rewrite H. vm_compute in Ec. injection Ec as <-. vm_compute in Es. injection Es as <-.
    vm_compute. reflexivity.
Defined.
