(* ===== verification/PatchRuns.v ===== *)
(** * Transfers of concrete patches

    The theorems of [Patch] on the shipped caches of the two ports: a policy
    written in two chunks, and over NimBLE in fragments. *)
From stdpp Require Import base tactics numbers list.
From Stdlib Require Import ZArith Lia.
From S2P Require Import Prelude Inst VM VMFacts Verifier Fsm PolicyCache Mbuf Patch MynewtFsm MynewtPolicies MynewtParser ZephyrFsm ZephyrPolicies.
Local Open Scope Z_scope.

Definition all_ok : allocs := Allocs true true.

(** [read_policy] in two chunks. *)
Definition two_chunks : list (list Z) := [take 10 read_policy; drop 10 read_policy].

(** A service on which a transfer was abandoned: five bytes are staged for another slot. *)
Definition abandoned (m : policy_state) : patch_state :=
  PatchState (replicate 256 7) 5 2 1 (-100) m.

Lemma abandoned_wf m : patch_wf (abandoned m).
Proof. split; [reflexivity|vm_compute; split; congruence]. Qed.

Lemma abandoned_cache m : patch_cache (abandoned m) = m.
Proof. reflexivity. Qed.

Lemma zephyr_patch_transfer_witness :
  exists st m', run_requests (zephyr_step (P := zephyr_port)) (abandoned zephyr_cache)
      (transfer (class_val DC) (dc_val NESN) two_chunks all_ok) = Ok (st, [2; 10; 6; 1]) /\
    ifw_install_policy (P := zephyr_port) zephyr_cache true true (class_val DC) (dc_val NESN)
      (Some read_policy) 16 = Ok (m', 0) /\
    patch_cache st = m' /\ read_status st 4 0 = Ok ([0; 0; 0; 0], 4).
Proof.
  pose proof (zephyr_patch_transfer (P := zephyr_port) (abandoned zephyr_cache) (class_val DC)
    (dc_val NESN) two_chunks all_ok (abandoned_wf _) ltac:(vm_compute; congruence)) as H.
  rewrite abandoned_cache in H.
  change (concat two_chunks) with read_policy in H.
  change (Z.of_nat (length read_policy)) with 16 in H.
  destruct (run_requests _ _ _) as [[st cs]| |];
    destruct (ifw_install_policy _ _ _ _ _ _ _) as [[m' rc]| |] eqn:E;
    try (vm_compute in E; discriminate); try contradiction.
  assert (rc = 0) as -> by (vm_compute in E; congruence).
  destruct H as (_ & _ & H1 & H2 & ->). exists st, m'. split; [reflexivity|]. split; [reflexivity|]. split; [exact H1|exact H2].
Defined.

(** The same over NimBLE, the header in two fragments. *)
Definition nimble_writes : list nimble_request :=
  [NimbleRequest Header (OmPkt 2 [[3]; [2]]) all_ok;
   NimbleRequest Body (OmPkt 10 [take 10 read_policy]) all_ok;
   NimbleRequest Body (OmPkt 6 [take 3 (drop 10 read_policy); drop 13 read_policy]) all_ok;
   NimbleRequest Commit (OmPkt 1 [[1]]) all_ok].

Lemma nimble_patch_transfer_witness :
  exists st cs m',
    run_requests (nimble_step (P := mynewt_port)) (abandoned mynewt_cache) nimble_writes =
      Ok (st, cs) /\ Forall (fun c => c = 0) cs /\
    ifw_install_policy (P := mynewt_port) mynewt_cache true true 3 2 (Some read_policy) 16 =
      Ok (m', 0) /\ patch_cache st = m'.
Proof.
  pose proof (nimble_patch_transfer (P := mynewt_port) (abandoned mynewt_cache) 3 2 two_chunks all_ok
    nimble_writes (abandoned_wf _) ltac:(vm_compute; congruence) ltac:(repeat constructor)
    ltac:(reflexivity)) as H.
  rewrite abandoned_cache in H.
  change (concat two_chunks) with read_policy in H.
  change (Z.of_nat (length read_policy)) with 16 in H.
  destruct (run_requests _ _ _) as [[st cs]| |];
    destruct (ifw_install_policy _ _ _ _ _ _ _) as [[m' rc]| |] eqn:E;
    try (vm_compute in E; discriminate); try contradiction.
  assert (rc = 0) as -> by (vm_compute in E; congruence).
  destruct H as (_ & H1 & H2 & _). exists st, cs, m'. auto.
Defined.

(** A header of three bytes is accepted. *)
Lemma nimble_patch_refines_witness :
  exists st, run_requests (nimble_step (P := mynewt_port)) (patch_state0 mynewt_cache)
      [NimbleRequest Header (OmPkt 3 [[3; 2]; [9]]) all_ok] = Ok (st, [0]) /\
    target_class st = 3 /\ target_type st = 2.
Proof.
  pose proof (nimble_patch_refines (P := mynewt_port) mynewt_cache
    [NimbleRequest Header (OmPkt 3 [[3; 2]; [9]]) all_ok] ltac:(repeat constructor)) as H.
  destruct (run_requests nimble_step _ _) as [[st cs]| |]; [|contradiction..].
  destruct H as [(_ & _ & _ & _ & Hc & Ht & _) ->]. exists st. auto.
Defined.
