(* ===== verification/Thumb2.v ===== *)
(** * Thumb-2 encodings

    [libebpf/include/jit_thumb2.h]: the functions that put together the machine
    instructions the JIT compiler emits, bit field by bit field. A register
    operand is an [s8], an immediate an [s32] or [s16]; the results are [u16] for
    the 16-bit and [u32] for the 32-bit encodings. *)
From stdpp Require Import base tactics numbers list.
From Stdlib Require Import ZArith Lia.
From S2P Require Import Prelude.
Local Open Scope Z_scope.
Local Open Scope bits_scope.

(** ** Opcode bits *)
Abbreviation THUMB2_IT := 0xbf00 (only parsing).
Abbreviation THUMB2_MOV_REG := 0x4600 (only parsing).
Abbreviation THUMB2_MOVW_REG := 0xea4f0000 (only parsing).
Abbreviation THUMB2_ASRW_REG := 0xfa40f000 (only parsing).
Abbreviation THUMB2_ASRW_IMM := 0xea4f0020 (only parsing).
Abbreviation THUMB2_LSLW_REG_T2 := 0xfa00f000 (only parsing).
Abbreviation THUMB2_LSRW_REG := 0xfa20f000 (only parsing).
Abbreviation THUMB2_LSRW_IMM := 0xea4f0010 (only parsing).
Abbreviation THUMB2_ORRW_REG := 0xea400000 (only parsing).
Abbreviation THUMB2_ORR_REG := 0x4300 (only parsing).
Abbreviation THUMB2_EOR_REG_T2 := 0xea800000 (only parsing).
Abbreviation THUMB2_RSBW_REG := 0xebc00000 (only parsing).
Abbreviation THUMB2_RSBW_IMM := 0xf1c00000 (only parsing).
Abbreviation THUMB2_STR_IMM := 0xf8400000 (only parsing).
Abbreviation THUMB2_STRB_IMM_T3 := 0xf8000800 (only parsing).
Abbreviation THUMB2_STRH_IMM_T3 := 0xf8200800 (only parsing).
Abbreviation THUMB2_STRD_IMM := 0xe8400000 (only parsing).
Abbreviation THUMB2_LDRB_IMM_T1 := 0x7800 (only parsing).
Abbreviation THUMB2_LDRB_IMM_T3 := 0xf8100000 (only parsing).
Abbreviation THUMB2_LDR_IMM_T4 := 0xf8500800 (only parsing).
Abbreviation THUMB2_LDRD_IMM := 0xe8500000 (only parsing).
Abbreviation THUMB2_PUSH_T1 := 0xb400 (only parsing).
Abbreviation THUMB2_PUSH_W := 0xe92d0000 (only parsing).
Abbreviation THUMB2_POP_W := 0xe8bd0000 (only parsing).
Abbreviation THUMB2_SUB_IMM_T1 := 0x1e00 (only parsing).
Abbreviation THUMB2_SUB_IMM_T2 := 0x3800 (only parsing).
Abbreviation THUMB2_SUB_REG_T1 := 0x1a00 (only parsing).
Abbreviation THUMB2_SUB_REG_T2 := 0xeba00000 (only parsing).
Abbreviation THUMB2_SUBW_IMM_T4 := 0xf2a00000 (only parsing).
Abbreviation THUMB2_ADD_IMM_T2 := 0x3000 (only parsing).
Abbreviation THUMB2_ADD_IMM_T4 := 0xf2000000 (only parsing).
Abbreviation THUMB2_ADD_REG_T2 := 0x4400 (only parsing).
Abbreviation THUMB2_ADDW_REG := 0xeb000000 (only parsing).
Abbreviation THUMB2_AND_REG_T1 := 0x4000 (only parsing).
Abbreviation THUMB2_AND_REG_T2 := 0xea000000 (only parsing).
Abbreviation THUMB2_CMP_REG_T1 := 0x4280 (only parsing).
Abbreviation THUMB2_CMP_REG_T2 := 0x4500 (only parsing).
Abbreviation THUMB2_MUL_REG_T2 := 0xfb00f000 (only parsing).
Abbreviation THUMB2_SBCW_REG := 0xeb600000 (only parsing).
Abbreviation THUMB2_B_COND_T1 := 0xd000 (only parsing).
Abbreviation THUMB2_B_T2 := 0xe000 (only parsing).
Abbreviation THUMB2_BLX_REG_T1 := 0x4780 (only parsing).
Abbreviation THUMB2_BW_COND_T3 := 0xf0008000 (only parsing).
Abbreviation THUMB2_MUL_T2 := 0xfb00f000 (only parsing).
Abbreviation THUMB2_UMULL_T2 := 0xfba00000 (only parsing).

Abbreviation IT_MASK_NONE := 8 (only parsing).
Abbreviation COND_EQ := 0 (only parsing).
Abbreviation COND_NE := 1 (only parsing).
Abbreviation COND_CS := 2 (only parsing).
Abbreviation COND_CC := 3 (only parsing).
Abbreviation COND_PL := 5 (only parsing).
Abbreviation COND_HI := 8 (only parsing).
Abbreviation COND_LS := 9 (only parsing).
Abbreviation COND_GE := 10 (only parsing).
Abbreviation COND_LT := 11 (only parsing).

Definition SRTYPE_LSL : Z := 0.
Definition SRTYPE_LSR : Z := 1.
Definition SRTYPE_ASR : Z := 2.
Definition SRTYPE_ROR : Z := 3.
Definition SRTYPE_ASL : Z := SRTYPE_LSL.
Abbreviation FLAG_NOS := 0 (only parsing).
Abbreviation FLAG_S := 1 (only parsing).

(** ** Multiplication and IT *)
Definition _thumb32_UMULL_T2 (RdLo RdHi Rn Rm : Z) : Z :=
  u32 (THUMB2_UMULL_T2 .| (Rn << 16) .| (RdLo << 12) .| (RdHi << 8) .| Rm).

Definition _thumb32_MUL_T2 (Rd Rn Rm : Z) : Z :=
  u32 (THUMB2_MUL_T2 .| (Rn << 16) .| (Rd << 8) .| Rm).

Definition _thumb16_IT_T1 (cond mask : Z) : Z := u16 (THUMB2_IT .| (cond << 4) .| mask).

(** ** Register forms with a shifted operand

    The 32-bit data-processing instructions share their layout: an opcode, the
    flag [S], [Rn], a five-bit shift amount in two fields, [Rd], the type of the
    shift and [Rm]. *)
Definition dp_reg (op Rd Rn Rm shiftImm5 srtype flagS : Z) : Z :=
  let imm3 := (shiftImm5 >> 2) .& 7 in
  let imm2 := shiftImm5 .& 3 in
  u32 (op .| (flagS << 20) .| (Rn << 16) .| (imm3 << 12) .| (Rd << 8) .| (imm2 << 6)
       .| (srtype << 4) .| Rm).

Definition _thumb32_RSBW_REG_T1 := dp_reg THUMB2_RSBW_REG.
Definition _thumb32_SBCW_T2 := dp_reg THUMB2_SBCW_REG.
Definition _thumb32_ADDW_REG_T3 := dp_reg THUMB2_ADDW_REG.
Definition _thumb32_AND_REG_T2 := dp_reg THUMB2_AND_REG_T2.
Definition _thumb32_SUB_REG_T2 := dp_reg THUMB2_SUB_REG_T2.
Definition _thumb32_EOR_REG_T2 := dp_reg THUMB2_EOR_REG_T2.

(** [return -1] of a [u32] function. *)
Definition _thumb32_ORRW_REG_T2 (Rd Rn Rm shiftImm5 srtype flagS : Z) : Z :=
  if (shiftImm5 <? 0) || (0x1f <? shiftImm5) then u32 (-1)
  else dp_reg THUMB2_ORRW_REG Rd Rn Rm shiftImm5 srtype flagS.

(** ** Branches *)
Definition _thumb16_B_T1 (offImm9 cond : Z) : Z :=
  let imm8 := u16 ((offImm9 >> 1) .& 0xff) in
  u16 (THUMB2_B_COND_T1 .| (cond << 8) .| imm8).

Definition _thumb16_B_T2 (offImm12 : Z) : Z :=
  let imm11 := u16 ((offImm12 >> 1) .& 0x7ff) in
  u16 (THUMB2_B_T2 .| imm11).

Definition _thumb16_BLX_REG_T1 (Rm : Z) : Z := u16 (THUMB2_BLX_REG_T1 .| (Rm << 3)).

Definition _thumb32_BW_T3 (offImm20 cond : Z) : Z :=
  let S := Z.b2z (offImm20 <? 0) in
  let imm11 := (offImm20 >> 1) .& 0x7ff in
  let imm6 := (offImm20 >> 12) .& 0x3f in
  let J1 := (offImm20 >> 18) .& 1 in
  let J2 := (offImm20 >> 19) .& 1 in
  u32 (THUMB2_BW_COND_T3 .| (S << 26) .| (cond << 22) .| (imm6 << 16) .| (J1 << 13)
       .| (J2 << 11) .| imm11).

(** The opcode is that of the conditional branch. *)
Definition _thumb32_BW_T4 (offImm23 : Z) : Z :=
  let S := Z.b2z (offImm23 <? 0) in
  let imm11 := (offImm23 >> 1) .& 0x7ff in
  let imm10 := (offImm23 >> 12) .& 0x3ff in
  let I1 := (offImm23 >> 18) .& 1 in
  let I2 := (offImm23 >> 19) .& 1 in
  let J1 := Z.lxor (Z.lnot I1) S .& 1 in
  let J2 := Z.lxor (Z.lnot I2) S .& 1 in
  u32 (THUMB2_BW_COND_T3 .| (S << 26) .| (imm10 << 16) .| (J1 << 13) .| (J2 << 11) .| imm11).

(** ** Comparison, addition, conjunction, moves *)
Definition _thumb16_CMP_REG_T1 (Rn Rm : Z) : Z := u16 (THUMB2_CMP_REG_T1 .| (Rm << 3) .| Rn).

Definition _thumb16_CMP_REG_T2 (Rn Rm : Z) : Z :=
  let N := u16 ((Rn .& 8) >> 3) in
  let Rn3 := u16 (Rn .& 7) in
  u16 (THUMB2_CMP_REG_T2 .| (N << 7) .| (Rm << 3) .| Rn3).

Definition _thumb32_MUL_REG_T2 (Rd Rn Rm : Z) : Z :=
  u32 (THUMB2_MUL_REG_T2 .| (Rn << 16) .| (Rd << 8) .| Rm).

Definition _thumb16_ADD_IMM_T2 (RDn imm8 : Z) : Z :=
  u16 (THUMB2_ADD_IMM_T2 .| (RDn << 8) .| u16 (imm8 .& 0xff)).

Definition _thumb32_ADD_IMM_T4 (Rd Rn imm12 : Z) : Z :=
  let i := (imm12 >> 11) .& 1 in
  let imm3 := (imm12 >> 8) .& 7 in
  let imm8 := imm12 .& 0xff in
  u32 (THUMB2_ADD_IMM_T4 .| (i << 26) .| (Rn << 16) .| (imm3 << 12) .| (Rd << 8) .| imm8).

Definition _thumb16_ADD_REG_T2 (RDn Rm : Z) : Z :=
  let DN := u16 ((RDn >> 3) .& 1) in
  let rdn := u16 (RDn .& 7) in
  u16 (THUMB2_ADD_REG_T2 .| (DN << 7) .| (Rm << 3) .| rdn).

Definition _thumb16_AND_REG_T1 (RDn Rm : Z) : Z := u16 (THUMB2_AND_REG_T1 .| (Rm << 3) .| RDn).

Definition _thumb16_MOV_REG_T1 (Rd Rm : Z) : Z :=
  let D := u16 ((Rd >> 3) .& 1) in
  let Rd3 := u16 (Rd .& 7) in
  u16 (THUMB2_MOV_REG .| (D << 7) .| (Rm << 3) .| Rd3).

Definition _thumb32_MOVW_REG_T3 (Rd Rm flagS : Z) : Z :=
  u32 (THUMB2_MOVW_REG .| (flagS << 20) .| (Rd << 8) .| Rm).

(** ** Subtraction *)
Definition _thumb32_RSBW_IMM_T2 (Rd Rn shiftImm12 flagS : Z) : Z :=
  let imm8 := shiftImm12 .& 0xff in
  let imm3 := (shiftImm12 >> 8) .& 7 in
  let i := (shiftImm12 >> 11) .& 1 in
  u32 (THUMB2_RSBW_IMM .| (i << 26) .| (flagS << 20) .| (Rn << 16) .| (imm3 << 12)
       .| (Rd << 8) .| imm8).

Definition _thumb16_SUB_IMM_T1 (Rd3 Rn3 imm3 : Z) : Z :=
  u16 (THUMB2_SUB_IMM_T1 .| ((imm3 .& 7) << 6) .| (Rn3 << 3) .| Rd3).

Definition _thumb16_SUB_IMM_T2 (Rdn3 imm8 : Z) : Z :=
  u16 (THUMB2_SUB_IMM_T2 .| (Rdn3 << 8) .| (imm8 .& 0xff)).

(** The three-bit field is masked with two bits; the flag is not used. *)
Definition _thumb32_SUBW_IMM_T4 (Rd Rn imm12 flagS : Z) : Z :=
  let i := (imm12 >> 11) .& 1 in
  let imm3 := (imm12 >> 8) .& 3 in
  let imm8 := imm12 .& 0xff in
  u32 (THUMB2_SUBW_IMM_T4 .| (i << 26) .| (Rn << 16) .| (imm3 << 12) .| (Rd << 8) .| imm8).

Definition _thumb16_SUB_REG_T1 (Rd Rn Rm : Z) : Z :=
  u16 (THUMB2_SUB_REG_T1 .| (Rm << 6) .| (Rn << 3) .| Rd).

(** ** Stack *)
Definition _thumb16_PUSH_T1 (reg_mask : Z) : Z :=
  let M := u16 ((reg_mask >> 14) .& 1) in
  let reg_list := u16 (reg_mask .& 0xff) in
  u16 (THUMB2_PUSH_T1 .| (M << 8) .| reg_list).

Definition _thumb32_PUSHW_T2 (reg_mask : Z) : Z :=
  let M := (reg_mask >> 14) .& 1 in
  let reg_list := reg_mask .& 0x1fff in
  u32 (THUMB2_PUSH_W .| (M << 14) .| reg_list).

Definition _thumb32_POPW_T2 (reg_mask : Z) : Z :=
  let M := (reg_mask >> 14) .& 1 in
  let P := (reg_mask >> 15) .& 1 in
  let reg_list := reg_mask .& 0x1fff in
  u32 (THUMB2_POP_W .| (P << 15) .| (M << 14) .| reg_list).

(** ** Loads and stores *)
Definition magnitude (off : Z) : Z := if 0 <? off then off else - off.

(** The offset is not masked. *)
Definition _thumb16_LDRB_IMM_T1 (Rt Rn offImm5 : Z) : Z :=
  u16 (THUMB2_LDRB_IMM_T1 .| (offImm5 << 6) .| (Rn << 3) .| Rt).

Definition _thumb32_LDRB_IMM_T3 (Rt Rn offImm8 : Z) : Z :=
  let imm8 := magnitude offImm8 in
  let U := Z.b2z (0 <=? offImm8) in
  let flag := 8 .| (1 << 2) .| (U << 1) .| 0 in
  u32 (THUMB2_LDRB_IMM_T3 .| (Rn << 16) .| (Rt << 12) .| (flag << 8) .| imm8).

Definition _thumb32_LDR_IMM_T4 (Rt Rn offImm8 : Z) : Z :=
  let imm8 := u32 (magnitude offImm8) in
  let P := Z.b2z (negb (offImm8 =? 0)) in
  let U := Z.b2z (0 <=? offImm8) in
  let flag := (P << 2) .| (U << 1) .| 0 in
  u32 (THUMB2_LDR_IMM_T4 .| (Rn << 16) .| (Rt << 12) .| (flag << 8) .| imm8).

(** A pair of registers is [(hi, lo)]: [Rt[0]] and [Rt[1]] of the source. *)
Definition _thumb32_LDRD_IMM_T1 (Rt : Z * Z) (Rn offImm8 : Z) : Z :=
  let P := Z.b2z (negb (offImm8 =? 0)) in
  let U := Z.b2z (0 <? offImm8) in
  let imm8 := (u32 (magnitude offImm8) >> 2) .& 0xff in
  let flag := 2 .| (P << 3) .| (U << 2) .| 0 in
  u32 (THUMB2_LDRD_IMM .| (flag << 21) .| (Rn << 16) .| (Rt.2 << 12) .| (Rt.1 << 8) .| imm8).

Definition strx_imm (op Rn Rt offImm8 : Z) : Z :=
  let P := Z.b2z (negb (offImm8 =? 0)) in
  let U := Z.b2z (0 <? offImm8) in
  let imm8 := u32 (magnitude offImm8) in
  let flag := 7 .| (P << 2) .| (U << 1) .| 0 in
  u32 (op .| (Rn << 16) .| (Rt << 12) .| (flag << 8) .| imm8).

Definition _thumb32_STRB_IMM_T3 := strx_imm THUMB2_STRB_IMM_T3.
Definition _thumb32_STRH_IMM_T3 := strx_imm THUMB2_STRH_IMM_T3.

Definition _thumb32_STRD_IMM_T1 (RnSrc : Z * Z) (RtDst offImm8 : Z) : Z :=
  let P := Z.b2z (negb (offImm8 =? 0)) in
  let U := Z.b2z (0 <? offImm8) in
  let imm8 := (u32 (magnitude offImm8) >> 2) .& 0xff in
  u32 (THUMB2_STRD_IMM .| (P << 24) .| (U << 23) .| (0 << 22) .| (RtDst << 16)
       .| (RnSrc.2 << 12) .| (RnSrc.1 << 8) .| imm8).

(** ** Shifts *)
Definition _thumb32_ASRW_IMM_T2 (Rd Rm imm5 flagS : Z) : Z :=
  let imm3 := (imm5 >> 2) .& 7 in
  let imm2 := imm5 .& 3 in
  u32 (THUMB2_ASRW_IMM .| (flagS << 20) .| (imm3 << 12) .| (Rd << 8) .| (imm2 << 6) .| Rm).

Definition shift_reg (op Rd Rn Rm flagS : Z) : Z :=
  u32 (op .| (flagS << 20) .| (Rn << 16) .| (Rd << 8) .| Rm).

Definition _thumb32_ASRW_REG_T2 := shift_reg THUMB2_ASRW_REG.
Definition _thumb32_LSLW_REG_T2 := shift_reg THUMB2_LSLW_REG_T2.
Definition _thumb32_LSRW_REG_T2 := shift_reg THUMB2_LSRW_REG.

Definition _thumb32_LSRW_IMM_T2 (Rd Rm shiftImm5 flagS : Z) : Z :=
  if (shiftImm5 <? 0) || (0x1f <? shiftImm5) then u32 (-1)
  else
    let imm3 := (shiftImm5 >> 2) .& 7 in
    let imm2 := shiftImm5 .& 3 in
    u32 (THUMB2_LSRW_IMM .| (flagS << 20) .| (imm3 << 12) .| (Rd << 8) .| (imm2 << 6) .| Rm).

(** The register fields are placed at bits 4 and 0. *)
Definition _thumb16_ORR_REG_T1 (RDn Rm : Z) : Z :=
  let RDn3 := u16 (RDn .& 7) in
  let Rm3 := u16 (Rm .& 7) in
  u16 (THUMB2_ORR_REG .| (RDn3 << 4) .| Rm3).
