(* ===== verification/Arm.v ===== *)
(** * The processor

    The language the JIT compiler writes: the part of Thumb-2 (ARMv7-M
    Architecture Reference Manual, the document [jit_thumb2.h] cites) that its
    encodings use. [decode16] and [decode32] follow the encoding tables of the
    manual, [exec] its pseudocode. An encoding that the manual leaves undefined or
    unpredictable, and one outside of this part, is [UndefInst].

    An immediate load whose bits P and U are set and W is clear is the unprivileged
    form LDRT of the manual; it reads the same bytes as LDR, on a device whose
    memory protection does not tell the two apart. *)
From stdpp Require Import base tactics numbers list.
From Stdlib Require Import ZArith Lia.
From S2P Require Import Prelude Inst VM.
Local Open Scope Z_scope.
Local Open Scope bits_scope.

(** ** State *)

(** [R] holds r0 to r14; the memory is that of [VM]: the monitor state and the
    stack of the processor. *)
Record arm := Arm {
  R : list Z;
  PC : Z;
  NF : bool; ZF : bool; CF : bool; VF : bool;
  M : memory;
}.

Definition FP : nat := 11.
Definition IP : nat := 12.
Definition SP : nat := 13.
Definition LR : nat := 14.

(** ** Instructions *)

(** The shift of a register operand, as [DecodeImmShift] gives it. *)
Inductive shift := SLSL (n : Z) | SLSR (n : Z) | SASR (n : Z) | SROR (n : Z) | SRRX.

Inductive dp_op := AND_op | ORR_op | EOR_op | ADD_op | ADC_op | SBC_op | SUB_op | RSB_op.

(** [s] tells whether the flags are set; [d], [n], [m], [t] are register numbers.
    The offset of a branch is relative to the next instruction: the PC reads as the
    address of the branch plus 4. *)
Inductive ainst :=
| AMovImm (s : bool) (d : nat) (imm : Z)
| AMovt (d : nat) (imm : Z)
| AMov (s : bool) (d m : nat) (sh : shift)
| ADp (op : dp_op) (s : bool) (d n m : nat) (sh : shift)
| ADpImm (op : dp_op) (s : bool) (d n : nat) (imm : Z)
| AShift (s : bool) (t : Z) (d n m : nat)
| ACmp (n m : nat)
| AMul (s : bool) (d n m : nat)
| AUmull (lo hi n m : nat)
| ALdr (size : Z) (t n : nat) (off : Z)
| AStr (size : Z) (t n : nat) (off : Z)
| ALdrd (t t2 n : nat) (off : Z)
| AStrd (t t2 n : nat) (off : Z)
| APush (regs : Z)
| APop (regs : Z)
| AB (cond : Z) (off : Z).

#[export] Instance shift_eq_dec : EqDecision shift.
Proof. solve_decision. Defined.
#[export] Instance dp_op_eq_dec : EqDecision dp_op.
Proof. solve_decision. Defined.
#[export] Instance ainst_eq_dec : EqDecision ainst.
Proof. solve_decision. Defined.

(** ** Decoding *)

(** Bits [lo .. lo+n-1] of an encoding, as a number and as a register. *)
Definition field (w lo n : Z) : Z := (w >> lo) .& Z.ones n.
Definition rfield (w lo n : Z) : nat := Z.to_nat (field w lo n).
Definition flag (w k : Z) : bool := Z.testbit w k.

(** [SignExtend] of the low [n] bits. *)
Definition sign_extend (n z : Z) : Z :=
  let v := z .& Z.ones n in if Z.testbit v (n - 1) then v - 2 ^ n else v.

Definition decode_imm_shift (t imm5 : Z) : shift :=
  if t =? 0 then SLSL imm5
  else if t =? 1 then SLSR (if imm5 =? 0 then 32 else imm5)
  else if t =? 2 then SASR (if imm5 =? 0 then 32 else imm5)
  else if imm5 =? 0 then SRRX else SROR imm5.

(** SP and PC are no operands of the 32-bit data-processing instructions. *)
Definition bad_reg (r : nat) : bool := (r =? 13)%nat || (r =? 15)%nat.

Definition guard_op {A} (bad : bool) (a : A) : option A := if bad then None else Some a.

(** A5.2.2: data processing on low registers, by the four opcode bits. *)
Definition decode_alu16 (h : Z) : option ainst :=
  let m := rfield h 3 3 in
  let dn := rfield h 0 3 in
  match field h 6 4 with
  | 0 => Some (ADp AND_op true dn dn m (SLSL 0))
  | 1 => Some (ADp EOR_op true dn dn m (SLSL 0))
  | 2 => Some (AShift true 0 dn dn m)
  | 3 => Some (AShift true 1 dn dn m)
  | 4 => Some (AShift true 2 dn dn m)
  | 5 => Some (ADp ADC_op true dn dn m (SLSL 0))
  | 6 => Some (ADp SBC_op true dn dn m (SLSL 0))
  | 9 => Some (ADpImm RSB_op true dn m 0)
  | 10 => Some (ACmp dn m)
  | 12 => Some (ADp ORR_op true dn dn m (SLSL 0))
  | 13 => Some (AMul true dn m dn)
  | _ => None
  end.

(** A5.2: the 16-bit encodings. *)
Definition decode16 (h : Z) : option ainst :=
  let d8 := rfield h 8 3 in
  let low0 := rfield h 0 3 in
  let low3 := rfield h 3 3 in
  let imm8 := field h 0 8 in
  let imm5 := field h 6 5 in
  if field h 13 3 =? 0 then
    match field h 11 2 with
    | 0 => Some (AMov true low0 low3 (decode_imm_shift 0 imm5))
    | 1 => Some (AMov true low0 low3 (decode_imm_shift 1 imm5))
    | 2 => Some (AMov true low0 low3 (decode_imm_shift 2 imm5))
    | _ =>
        let k := field h 6 3 in
        match field h 9 2 with
        | 0 => Some (ADp ADD_op true low0 low3 (Z.to_nat k) (SLSL 0))
        | 1 => Some (ADp SUB_op true low0 low3 (Z.to_nat k) (SLSL 0))
        | 2 => Some (ADpImm ADD_op true low0 low3 k)
        | _ => Some (ADpImm SUB_op true low0 low3 k)
        end
    end
  else if field h 12 4 =? 13 then
    guard_op (14 <=? field h 8 4) (AB (field h 8 4) (2 * sign_extend 8 h + 2))
  else if field h 11 5 =? 4 then Some (AMovImm true d8 imm8)
  else if field h 11 5 =? 6 then Some (ADpImm ADD_op true d8 d8 imm8)
  else if field h 11 5 =? 7 then Some (ADpImm SUB_op true d8 d8 imm8)
  else if field h 11 5 =? 8 then
    if field h 10 1 =? 0 then decode_alu16 h
    else
      let m := rfield h 3 4 in
      let dn := Z.to_nat (8 * field h 7 1 + field h 0 3) in
      let pc := (m =? 15)%nat || (dn =? 15)%nat in
      match field h 8 2 with
      | 0 => guard_op pc (ADp ADD_op false dn dn m (SLSL 0))
      | 1 => guard_op (pc || ((dn <? 8)%nat && (m <? 8)%nat)) (ACmp dn m)
      | 2 => guard_op pc (AMov false dn m (SLSL 0))
      | _ => None
      end
  else if field h 11 5 =? 15 then Some (ALdr 1 low0 low3 imm5)
  else if field h 11 5 =? 17 then Some (ALdr 2 low0 low3 (2 * imm5))
  else if field h 11 5 =? 28 then Some (AB 14 (2 * sign_extend 11 h + 2))
  else if field h 9 7 =? 0x5a then
    let regs := field h 0 8 .| (field h 8 1 << 14) in
    guard_op (regs =? 0) (APush regs)
  else None.

(** A5.3.11: data processing with a shifted register. *)
Definition decode_dp_reg (w : Z) : option ainst :=
  let s := flag w 20 in
  let n := rfield w 16 4 in
  let d := rfield w 8 4 in
  let m := rfield w 0 4 in
  let sh := decode_imm_shift (field w 4 2) (4 * field w 12 3 + field w 6 2) in
  let bad := flag w 15 || bad_reg d || bad_reg n || bad_reg m in
  match field w 21 4 with
  | 0 => guard_op bad (ADp AND_op s d n m sh)
  | 2 =>
      if (n =? 15)%nat then
        (* MOV between registers admits SP on one side, without flags *)
        let sp := negb s && (field w 4 2 =? 0) && (field w 12 3 =? 0) && (field w 6 2 =? 0) in
        guard_op (flag w 15 || (d =? 15)%nat || (m =? 15)%nat ||
                  ((d =? 13)%nat && negb (sp && negb (m =? 13)%nat)) ||
                  ((m =? 13)%nat && negb sp)) (AMov s d m sh)
      else guard_op bad (ADp ORR_op s d n m sh)
  | 4 => guard_op bad (ADp EOR_op s d n m sh)
  | 8 => guard_op bad (ADp ADD_op s d n m sh)
  | 10 => guard_op bad (ADp ADC_op s d n m sh)
  | 11 => guard_op bad (ADp SBC_op s d n m sh)
  | 13 => guard_op bad (ADp SUB_op s d n m sh)
  | 14 => guard_op bad (ADp RSB_op s d n m sh)
  | _ => None
  end.

(** A5.3.1 and A5.3.3: immediates. Of the modified immediates only the plain
    bytes are used. *)
Definition decode_imm (w : Z) : option ainst :=
  let n := rfield w 16 4 in
  let d := rfield w 8 4 in
  let imm12 := 2048 * field w 26 1 + 256 * field w 12 3 + field w 0 8 in
  let imm16 := 4096 * field w 16 4 + imm12 in
  if flag w 25 then
    match field w 20 5 with
    | 0 => guard_op ((d =? 15)%nat || (n =? 15)%nat) (ADpImm ADD_op false d n imm12)
    | 4 => guard_op (bad_reg d) (AMovImm false d imm16)
    | 10 => guard_op ((d =? 15)%nat || (n =? 15)%nat) (ADpImm SUB_op false d n imm12)
    | 12 => guard_op (bad_reg d) (AMovt d imm16)
    | _ => None
    end
  else if field w 21 4 =? 14 then
    guard_op (bad_reg d || bad_reg n || (256 <=? imm12)) (ADpImm RSB_op (flag w 20) d n imm12)
  else if field w 21 4 =? 13 then
    guard_op (bad_reg d || (n =? 15)%nat || (256 <=? imm12))
      (ADpImm SUB_op (flag w 20) d n imm12)
  else None.

(** A5.3.4: conditional branch. *)
Definition decode_branch (w : Z) : option ainst :=
  let cond := field w 22 4 in
  let imm := (field w 26 1 << 20) .| (field w 11 1 << 19) .| (field w 13 1 << 18)
             .| (field w 16 6 << 12) .| (field w 0 11 << 1) in
  guard_op (negb (field w 14 2 =? 2) || flag w 12 || (14 <=? cond))
    (AB cond (sign_extend 21 imm)).

(** A5.3.7 to A5.3.10: loads and stores of a byte, halfword or word. *)
Definition decode_mem (w : Z) : option ainst :=
  let n := rfield w 16 4 in
  let t := rfield w 12 4 in
  let load := flag w 20 in
  let size := match field w 21 2 with 0 => 1 | 1 => 2 | _ => 4 end in
  let off12 := field w 0 12 in
  let off8 := if flag w 9 then field w 0 8 else - field w 0 8 in
  let off := if flag w 23 then off12 else off8 in
  (* the 8-bit form: offset addressing, without write-back *)
  let bad8 := negb (flag w 23) && negb (flag w 11 && flag w 10 && negb (flag w 8)) in
  guard_op (flag w 24 || (field w 21 2 =? 3) || (n =? 15)%nat || bad_reg t || bad8)
    (if load then ALdr size t n off else AStr size t n off).

(** A5.3.6: loads and stores of two words, offset addressing. *)
Definition decode_dual (w : Z) : option ainst :=
  let n := rfield w 16 4 in
  let t := rfield w 12 4 in
  let t2 := rfield w 8 4 in
  let off := if flag w 23 then 4 * field w 0 8 else - (4 * field w 0 8) in
  guard_op (negb (flag w 24) || negb (flag w 22) || flag w 21 || (n =? 15)%nat ||
            bad_reg t || bad_reg t2 || (flag w 20 && (t =? t2)%nat))
    (if flag w 20 then ALdrd t t2 n off else AStrd t t2 n off).

(** A list of fewer than two registers is unpredictable. *)
Definition short_list (regs : Z) : bool := (regs .& (regs - 1)) =? 0.

(** A5.3: the 32-bit encodings, first halfword in the high half. *)
Definition decode32 (w : Z) : option ainst :=
  if field w 27 5 =? 0x1e then
    if flag w 15 then decode_branch w else decode_imm w
  else if field w 25 7 =? 0x75 then decode_dp_reg w
  else if field w 25 7 =? 0x74 then
    if field w 16 16 =? 0xe92d then
      guard_op (flag w 15 || flag w 13 || short_list (field w 0 16)) (APush (field w 0 16))
    else if field w 16 16 =? 0xe8bd then
      guard_op (flag w 13 || (flag w 15 && flag w 14) || short_list (field w 0 16))
        (APop (field w 0 16))
    else decode_dual w
  else if field w 25 7 =? 0x7c then decode_mem w
  else
    let n := rfield w 16 4 in
    let d := rfield w 8 4 in
    let m := rfield w 0 4 in
    let bad := bad_reg d || bad_reg n || bad_reg m in
    if (field w 23 9 =? 0x1f4) && (field w 12 4 =? 15) && (field w 4 4 =? 0) &&
       negb (field w 21 2 =? 3)
    then guard_op bad (AShift (flag w 20) (field w 21 2) d n m)
    else if (field w 20 12 =? 0xfb0) && (field w 12 4 =? 15) && (field w 4 4 =? 0)
    then guard_op bad (AMul false d n m)
    else if (field w 20 12 =? 0xfba) && (field w 4 4 =? 0)
    then guard_op (bad || bad_reg (rfield w 12 4) || (rfield w 12 4 =? d)%nat)
           (AUmull (rfield w 12 4) d n m)
    else None.

(** The first halfword tells the length of an instruction. *)
Definition is_wide (h : Z) : bool := 0x1d <=? field h 11 5.

(** ** Execution *)

Definition rget (st : arm) (r : nat) : res Z := of_option RegOOB (R st !! r).

Definition rset (st : arm) (r : nat) (v : Z) : arm :=
  Arm (<[r := v]> (R st)) (PC st) (NF st) (ZF st) (CF st) (VF st) (M st).

Definition set_mem (st : arm) (m : memory) : arm :=
  Arm (R st) (PC st) (NF st) (ZF st) (CF st) (VF st) m.

Definition set_pc (st : arm) (pc : Z) : arm :=
  Arm (R st) pc (NF st) (ZF st) (CF st) (VF st) (M st).

(** N and Z of a result, with C and V. *)
Definition set_flags (st : arm) (v : Z) (c o : bool) : arm :=
  Arm (R st) (PC st) (Z.testbit v 31) (v =? 0) c o (M st).

(** [Shift_C]: the shifted value and the carry out. *)
Definition shift_c (x : Z) (sh : shift) (c : bool) : Z * bool :=
  match sh with
  | SLSL n => if n =? 0 then (x, c) else (u32 (x << n), Z.testbit (x << n) 32)
  | SLSR n => if n =? 0 then (x, c) else (x >> n, Z.testbit x (n - 1))
  | SASR n => if n =? 0 then (x, c) else (u32 (s32 x >> n), Z.testbit (s32 x) (n - 1))
  | SROR n =>
      if n =? 0 then (x, c)
      else let v := (x >> (n mod 32)) .| u32 (x << (32 - n mod 32)) in (v, Z.testbit v 31)
  | SRRX => ((Z.b2z c << 31) .| (x >> 1), Z.testbit x 0)
  end.

(** [AddWithCarry]: result, carry out, overflow. *)
Definition add_with_carry (x y : Z) (c : bool) : Z * bool * bool :=
  let v := u32 (x + y + Z.b2z c) in
  (v, negb (v =? x + y + Z.b2z c), negb (s32 v =? s32 x + s32 y + Z.b2z c)).

Definition not32 (x : Z) : Z := u32 (Z.lnot x).

(** The result of an operation with its flags C and V. *)
Definition dp_result (st : arm) (op : dp_op) (x y : Z) (shc : bool) : Z * bool * bool :=
  match op with
  | AND_op => (x .& y, shc, VF st)
  | ORR_op => (x .| y, shc, VF st)
  | EOR_op => (Z.lxor x y, shc, VF st)
  | ADD_op => add_with_carry x y false
  | ADC_op => add_with_carry x y (CF st)
  | SBC_op => add_with_carry x (not32 y) (CF st)
  | SUB_op => add_with_carry x (not32 y) true
  | RSB_op => add_with_carry (not32 x) y true
  end.

Definition put_result (st : arm) (s : bool) (d : nat) (r : Z * bool * bool) : arm :=
  let '(v, c, o) := r in
  let st := rset st d v in
  if s then set_flags st v c o else st.

(** [ConditionPassed] (A7.3). *)
Definition cond_holds (st : arm) (cond : Z) : bool :=
  match cond with
  | 0 => ZF st
  | 1 => negb (ZF st)
  | 2 => CF st
  | 3 => negb (CF st)
  | 4 => NF st
  | 5 => negb (NF st)
  | 6 => VF st
  | 7 => negb (VF st)
  | 8 => CF st && negb (ZF st)
  | 9 => negb (CF st) || ZF st
  | 10 => Bool.eqb (NF st) (VF st)
  | 11 => negb (Bool.eqb (NF st) (VF st))
  | 12 => negb (ZF st) && Bool.eqb (NF st) (VF st)
  | 13 => ZF st || negb (Bool.eqb (NF st) (VF st))
  | _ => true
  end.

(** The registers of a list, lowest first, with their places in memory. *)
Definition reg_list (regs : Z) : list nat :=
  filter (fun r => Z.testbit regs (Z.of_nat r) = true) (seq 0 16).

Fixpoint store_regs (st : arm) (rs : list nat) (a : Z) : res arm :=
  match rs with
  | [] => Ok st
  | r :: rs =>
      v ← rget st r;
      m ← mstore (M st) a 4 v;
      store_regs (set_mem st m) rs (a + 4)
  end.

(** Loading the PC branches; bit 0 of the address selects Thumb state. *)
Definition load_pc (st : arm) (v : Z) : res arm :=
  if Z.testbit v 0 then Ok (set_pc st (v - 1)) else Crash UndefInst.

Fixpoint load_regs (st : arm) (rs : list nat) (a : Z) : res arm :=
  match rs with
  | [] => Ok st
  | r :: rs =>
      v ← mload (M st) a 4;
      st ← (if (r =? 15)%nat then load_pc st v else Ok (rset st r v));
      load_regs st rs (a + 4)
  end.

Definition aligned (a : Z) : res () := if a mod 4 =? 0 then Ok () else Crash MemFault.

(** [st] has its PC behind the instruction. *)
Definition exec (i : ainst) (st : arm) : res arm :=
  match i with
  | AMovImm s d imm => Ok (put_result st s d (imm, CF st, VF st))
  | AMovt d imm => v ← rget st d; Ok (rset st d ((v .& 0xffff) .| (imm << 16)))
  | AMov s d m sh =>
      x ← rget st m;
      let '(v, c) := shift_c x sh (CF st) in Ok (put_result st s d (v, c, VF st))
  | ADp op s d n m sh =>
      x ← rget st n; y ← rget st m;
      let '(y, c) := shift_c y sh (CF st) in
      Ok (put_result st s d (dp_result st op x y c))
  | ADpImm op s d n imm =>
      x ← rget st n; Ok (put_result st s d (dp_result st op x imm (CF st)))
  | AShift s t d n m =>
      x ← rget st n; y ← rget st m;
      let k := u8 y in
      let sh := match t with 0 => SLSL k | 1 => SLSR k | _ => SASR k end in
      let '(v, c) := shift_c x sh (CF st) in Ok (put_result st s d (v, c, VF st))
  | ACmp n m =>
      x ← rget st n; y ← rget st m;
      let '(v, c, o) := add_with_carry x (not32 y) true in Ok (set_flags st v c o)
  | AMul s d n m =>
      x ← rget st n; y ← rget st m;
      Ok (put_result st s d (u32 (x * y), CF st, VF st))
  | AUmull lo hi n m =>
      x ← rget st n; y ← rget st m;
      Ok (rset (rset st lo (u32 (x * y))) hi (u32 (x * y >> 32)))
  | ALdr size t n off =>
      b ← rget st n; v ← mload (M st) (u32 (b + off)) size; Ok (rset st t v)
  | AStr size t n off =>
      b ← rget st n; v ← rget st t; m ← mstore (M st) (u32 (b + off)) size v;
      Ok (set_mem st m)
  | ALdrd t t2 n off =>
      b ← rget st n;
      let a := u32 (b + off) in
      _ ← aligned a;
      v ← mload (M st) a 4; w ← mload (M st) (u32 (a + 4)) 4;
      Ok (rset (rset st t v) t2 w)
  | AStrd t t2 n off =>
      b ← rget st n;
      let a := u32 (b + off) in
      _ ← aligned a;
      v ← rget st t; w ← rget st t2;
      m ← mstore (M st) a 4 v; m ← mstore m (u32 (a + 4)) 4 w;
      Ok (set_mem st m)
  | APush regs =>
      sp ← rget st SP;
      let rs := reg_list regs in
      let a := u32 (sp - 4 * Z.of_nat (length rs)) in
      _ ← aligned a;
      st ← store_regs st rs a;
      Ok (rset st SP a)
  | APop regs =>
      sp ← rget st SP;
      let rs := reg_list regs in
      _ ← aligned sp;
      st ← load_regs st rs sp;
      Ok (rset st SP (u32 (sp + 4 * Z.of_nat (length rs))))
  | AB cond off =>
      Ok (if cond_holds st cond then set_pc st (u32 (PC st + off)) else st)
  end.

(** ** Programs *)
Section Run.
  Variable base : Z.            (* the address of the code *)
  Variable code : list Z.       (* its bytes *)

Definition fetch16 (pos : Z) : option Z :=
  if (0 <=? pos) && (pos + 2 <=? Z.of_nat (length code))
  then Some (le_val (slice (Z.to_nat pos) 2 code)) else None.

Definition arm_step (st : arm) : res arm :=
  let pos := PC st - base in
  h ← of_option FetchOOB (fetch16 pos);
  if is_wide h then
    h2 ← of_option FetchOOB (fetch16 (pos + 2));
    i ← of_option UndefInst (decode32 ((h << 16) .| h2));
    exec i (set_pc st (PC st + 4))
  else
    i ← of_option UndefInst (decode16 h);
    exec i (set_pc st (PC st + 2)).

(** Runs until the PC is the return address. *)
Fixpoint arm_run (ret : Z) (fuel : nat) (st : arm) : res arm :=
  match fuel with
  | O => Timeout
  | S fuel =>
      if PC st =? ret then Ok st
      else st ← arm_step st; arm_run ret fuel st
  end.
End Run.
