(* ===== verification/Jit.v ===== *)
(** * The JIT compiler

    [libebpf/src/jit_thumb2.c] with the state and the emitters of
    [libebpf/include/jit.h] and the memory of [libebpf/src/jit.c]: the register
    map, the code for each eBPF instruction, the two passes of [jit_compile], and
    [gen_jit_code]. A pair of processor registers is [(hi, lo)], as [dst[0]] and
    [dst[1]] in the source; a negative number stands for a slot of the scratch
    space below the frame pointer.

    An emitter is a computation that reads the compiler's state and collects the
    halfwords that [emit2] appends. [idx] is kept up to date while it runs; the
    bytes are written to the buffer by [emit_bytes] when it ends, which is
    equivalent since no emitter reads the buffer. *)
From stdpp Require Import base tactics numbers list.
From Stdlib Require Import ZArith Lia.
From S2P Require Import Prelude Inst VM Thumb2.
Local Open Scope Z_scope.
Local Open Scope bits_scope.

(** ** State *)

(** [prog] is the program behind [insts]. [jit_code] is the buffer of the code,
    [code_addr] its address and [code_ptr] the pointer the code is written
    through. [call_word] reads the word at an offset from [__bpf_call_base]. *)
Record jit_state := JitState {
  prog : list Z;
  inst_num : Z;
  jit_code : list Z;
  code_addr : Z;
  code_ptr : Z;
  idx : Z;
  epilogue_at : Z;               (* the field [epilogue_offset] *)
  offsets : list Z;
  needGen : bool;
  call_word : Z -> option Z;
}.

Definition set_idx (s : jit_state) (i : Z) : jit_state :=
  JitState (prog s) (inst_num s) (jit_code s) (code_addr s) (code_ptr s) i
    (epilogue_at s) (offsets s) (needGen s) (call_word s).

Definition set_code (s : jit_state) (c : list Z) : jit_state :=
  JitState (prog s) (inst_num s) c (code_addr s) (code_ptr s) (idx s)
    (epilogue_at s) (offsets s) (needGen s) (call_word s).

Definition set_offsets (s : jit_state) (o : list Z) : jit_state :=
  JitState (prog s) (inst_num s) (jit_code s) (code_addr s) (code_ptr s) (idx s)
    (epilogue_at s) o (needGen s) (call_word s).

(** The state at the start of a pass. *)
Definition set_pass (s : jit_state) (gen : bool) (epi : Z) : jit_state :=
  JitState (prog s) (inst_num s) (jit_code s) (code_addr s) (code_ptr s) 0
    epi (offsets s) gen (call_word s).

(** ** Emitters *)
Definition J (A : Type) : Type := jit_state -> res (list Z * A).

Definition advance (s : jit_state) (hs : list Z) : jit_state :=
  set_idx s (idx s + 2 * Z.of_nat (length hs)).

#[export] Instance J_ret : MRet J := fun A a s => Ok ([], a).
#[export] Instance J_bind : MBind J := fun A B f m s =>
  match m s with
  | Ok (l1, a) =>
      match f a (advance s l1) with
      | Ok (l2, b) => Ok (l1 ++ l2, b)
      | Crash e => Crash e
      | Timeout => Timeout
      end
  | Crash e => Crash e
  | Timeout => Timeout
  end.

Definition skip : J () := mret ().
Definition when (b : bool) (m : J ()) : J () := if b then m else skip.
Definition lift {A} (r : res A) : J A := fun s => a ← r; Ok ([], a).

Definition emit2 (x : Z) : J () := fun s => Ok ([u16 x], ()).
Definition emit4 (x : Z) : J () := emit2 (u32 x >> 16) ;; emit2 (u16 x).

(** ** Registers *)
Abbreviation ARM_R0 := 0 (only parsing).
Abbreviation ARM_FP := 11 (only parsing).
Definition ARM_IP : Z := 12.
Abbreviation ARM_SP := 13 (only parsing).
Definition ARM_LR : Z := 14.

Definition STACK_OFFSET (k : Z) : Z := -4 - k * 4.
Definition SCRATCH_SIZE : Z := 20 * 4.
Definition EBPF_STACK_SIZE : Z := 256.

(** The scratch slots come in the order R2, R3, R4, R5, R7, R8, R9, FP, TC, AX, the
    high word of each first. *)
Definition stacked_pair (k : Z) : Z * Z := (STACK_OFFSET (2 * k), STACK_OFFSET (2 * k + 1)).

Definition TMP_REG_1 : Z := MAX_BPF_EXT_REG + 0.
Definition TMP_REG_2 : Z := MAX_BPF_EXT_REG + 1.

Definition bpf2a32 : list (Z * Z) :=
  [ (1, 0); (3, 2);
    stacked_pair 0; stacked_pair 1; stacked_pair 2; stacked_pair 3;
    (5, 4);
    stacked_pair 4; stacked_pair 5; stacked_pair 6;
    stacked_pair 7;                     (* BPF_REG_FP *)
    stacked_pair 9;                     (* BPF_REG_AX *)
    (7, 6);                             (* TMP_REG_1 *)
    (9, 8);                             (* TMP_REG_2 *)
    stacked_pair 8 ].                   (* TCALL_CNT *)

(** [bpf2a32[r]]; the table ends before 15. *)
Definition a32_pair (r : Z) : res (Z * Z) := of_option ArrayOOB (arr_get bpf2a32 r).

Definition tmp1 : Z * Z := (7, 6).
Definition tmp2 : Z * Z := (9, 8).

Definition is_stacked (reg : Z) : bool := reg <? 0.

(** ** Loads, stores and moves *)
Definition _emit_ldr_i (Rt Rn off : Z) : J () :=
  if off =? 0 then emit4 (0xf8d00000 .| (Rn << 16) .| (Rt << 12) .| (off .& 0xfff))
  else emit4 (_thumb32_LDR_IMM_T4 Rt Rn off).

Definition _emit_ldrb_i (Rt Rn off : Z) : J () :=
  if (off <=? 0x1f) && (-0x1f <=? off) && (Rt <? 8) && (Rn <? 8)
  then emit2 (_thumb16_LDRB_IMM_T1 Rt Rn off)
  else if (off <=? 0xff) && (-0xff <=? off) then emit4 (_thumb32_LDRB_IMM_T3 Rt Rn off)
  else when ((off <=? 0xfff) && (-0xfff <=? off))
         (emit4 (0xf8900000 .| (Rn << 16) .| (Rt << 12) .| off)).

Definition _emit_ldrh_i (Rt Rn off : Z) : J () :=
  if (off <=? 0x1f) && (-0x1f <=? off)
  then emit2 (0x8800 .| ((off .& 0x1f) << 6) .| (Rn << 3) .| Rt)
  else if (off <=? 0xff) && (-0xff <=? off)
  then emit4 (0xf8300000 .| (Rn << 16) .| (Rt << 12) .| (14 << 8) .| (off .& 0xff))
  else when ((off <=? 0xfff) && (-0xfff <=? off))
         (emit4 (0xf8b00000 .| (Rn << 16) .| (Rt << 12) .| (off .& 0xfff))).

Definition _emit_ldrd_i (Rt : Z * Z) (Rn off : Z) : J () :=
  emit4 (_thumb32_LDRD_IMM_T1 Rt Rn off).

Definition _emit_str_i (RnSrc Rt off : Z) : J () :=
  let P := Z.b2z (negb (off =? 0)) in
  let U := Z.b2z (0 <? off) in
  let imm8 := u8 (magnitude off) in
  let flag := 8 .| (P << 2) .| (U << 1) .| 0 in
  emit4 (THUMB2_STR_IMM .| (RnSrc << 16) .| (Rt << 12) .| (flag << 8) .| imm8).

Definition _emit_strd_i (RnSrc : Z * Z) (RtDst off : Z) : J () :=
  emit4 (_thumb32_STRD_IMM_T1 RnSrc RtDst off).

Definition _emit_mov_reg (src dst : Z) : J () :=
  if negb (dst =? ARM_SP) && negb (src =? ARM_SP) then emit2 (_thumb16_MOV_REG_T1 dst src)
  else emit4 (_thumb32_MOVW_REG_T3 dst src FLAG_NOS).

Definition arm_bpf_get_reg32 (reg tmp : Z) : J Z :=
  if is_stacked reg then _emit_ldr_i tmp ARM_FP reg ;; mret tmp else mret reg.

Definition arm_bpf_put_reg32 (reg src : Z) : J () :=
  if is_stacked reg then _emit_str_i ARM_FP src reg
  else when (negb (reg =? src)) (_emit_mov_reg src reg).

Definition emit_a32_mov_reg (src dst : Z) : J () :=
  rt ← arm_bpf_get_reg32 src tmp1.1;
  arm_bpf_put_reg32 dst rt.

Definition arm_bpf_get_reg64 (reg tmp : Z * Z) : J (Z * Z) :=
  if is_stacked reg.2 then _emit_ldrd_i tmp ARM_FP reg.2 ;; mret tmp else mret reg.

Definition arm_bpf_put_reg64 (reg src : Z * Z) : J () :=
  if is_stacked reg.2 then _emit_strd_i src ARM_FP reg.2
  else
    when (negb (reg.2 =? src.2)) (emit_a32_mov_reg src.2 reg.2) ;;
    when (negb (reg.1 =? src.1)) (emit_a32_mov_reg src.1 reg.1).

Definition is_ldst_imm (off size : Z) : bool :=
  let off_max :=
    if (size =? EBPF_SIZE_B) || (size =? EBPF_SIZE_W) then 0xfff
    else if size =? EBPF_SIZE_H then 0xff
    else if size =? EBPF_SIZE_DW then 0xfff - 4 else 0 in
  (- off_max <=? off) && (off <=? off_max).

(** MOVW or MOVT with its 16-bit immediate split over four fields. *)
Definition mov16 (op rd v1 : Z) : Z :=
  let i4 := (v1 .& 0xf000) >> 12 in
  let i := (v1 .& 0x0800) >> 11 in
  let i3 := (v1 .& 0x0700) >> 8 in
  let i8 := v1 .& 0x00ff in
  u32 (op .| (i << 26) .| (i4 << 16) .| (i3 << 12) .| (rd << 8) .| i8).

(** [rd] is a [u8]: a scratch slot wraps to a number above 128. *)
Definition emit_mov_imm (rd val : Z) : J () :=
  let rd := u8 rd in
  let val := u32 val in
  if (val <=? 0xff) && (rd <? 8) then emit2 (0x2000 .| (rd << 8) .| val)
  else
    emit4 (mov16 0xf2400000 rd (val .& 0xffff)) ;;
    when (0xffff <? val) (emit4 (mov16 0xf2c00000 rd (val >> 16))).

Definition emit_mov_reg64 (is64 : bool) (dst src : Z * Z) : J () :=
  if negb is64 then emit_a32_mov_reg src.2 dst.2
  else if is_stacked src.2 && is_stacked dst.2 then
    _emit_ldrd_i tmp1 ARM_FP src.2 ;; _emit_strd_i tmp1 ARM_FP dst.2
  else if is_stacked src.2 then _emit_ldrd_i dst ARM_FP src.2
  else if is_stacked dst.2 then _emit_strd_i src ARM_FP dst.2
  else _emit_mov_reg src.2 dst.2 ;; _emit_mov_reg src.1 dst.1.

Definition emit_push_r64 (src : Z * Z) : J () :=
  rt ← arm_bpf_get_reg64 src tmp2;
  let reg_set := u16 ((1 << rt.2) .| (1 << rt.1)) in
  if ((rt.1 =? ARM_LR) || (rt.1 <? 8)) && ((rt.2 =? ARM_LR) || (rt.2 <? 8))
  then emit2 (_thumb16_PUSH_T1 reg_set)
  else emit4 (_thumb32_PUSHW_T2 reg_set).

Definition emit_mov_i64 (dst : Z * Z) (val : Z) : J () :=
  let rd := if is_stacked dst.2 then tmp1 else dst in
  emit_mov_imm rd.2 (u32 val) ;;
  emit_mov_imm rd.1 (u32 (val >> 32)) ;;
  arm_bpf_put_reg64 dst rd.

(** [val] is a [u32]; the 64-bit form sign-extends it. *)
Definition emit_mov_se_imm64 (is64 : bool) (dst : Z * Z) (val : Z) : J () :=
  let val := u32 val in
  if is64 then
    emit_mov_i64 dst (if Z.testbit val 31 then val .| 0xffffffff00000000 else val)
  else emit_mov_imm dst.2 val.

(** ** Arithmetic *)
Abbreviation EBPF_ALU_MUL := 0x20 (only parsing).
Abbreviation EBPF_ALU_DIV := 0x30 (only parsing).
Abbreviation EBPF_ALU_OR := 0x40 (only parsing).
Abbreviation EBPF_ALU_AND := 0x50 (only parsing).
Abbreviation EBPF_ALU_LSH := 0x60 (only parsing).
Abbreviation EBPF_ALU_RSH := 0x70 (only parsing).
Abbreviation EBPF_ALU_NEG := 0x80 (only parsing).
Abbreviation EBPF_ALU_XOR := 0xa0 (only parsing).
Abbreviation EBPF_ALU_ARSH := 0xc0 (only parsing).

Definition BPF_OP (code : Z) : Z := code .& 0xf0.
Definition BPF_CLASS (code : Z) : Z := code .& 0x07.
Definition BPF_SIZE (code : Z) : Z := code .& 0x18.
Definition BPF_SRC (code : Z) : Z := code .& 0x8.

Definition _emit_add_reg (dst src : Z) (is64 hi : bool) : J () :=
  if is64 then
    if hi then emit4 (0xeb400000 .| (src << 16) .| (dst << 8) .| dst)
    else emit4 (0xeb100000 .| (src << 16) .| (dst << 8) .| dst)
  else emit2 (_thumb16_ADD_REG_T2 dst src).

Definition _emit_add_imm (dst src val : Z) : J () :=
  if (0 <=? val) && (val <=? 255) && (dst =? src) && (dst <? 8)
  then emit2 (_thumb16_ADD_IMM_T2 dst val)
  else when ((0 <=? val) && (val <=? 4095)) (emit4 (_thumb32_ADD_IMM_T4 dst src val)).

Definition _emit_sub_imm (dst src val : Z) : J () :=
  if (val <? 0) || (4095 <? val) then skip
  else
    let low := (dst <? 8) && (0 <=? dst) && (src <? 8) && (0 <=? src) in
    if low && (dst =? src) && (val <=? 0xff) then emit2 (_thumb16_SUB_IMM_T2 dst val)
    else if low && (val <=? 0x7) then emit2 (_thumb16_SUB_IMM_T1 dst src val)
    else emit4 (_thumb32_SUBW_IMM_T4 dst src val FLAG_NOS).

Definition _emit_sub_reg (dst src : Z) (is64 hi : bool) : J () :=
  if is64 && negb hi then emit4 (_thumb32_SUB_REG_T2 dst dst src 0 SRTYPE_LSL FLAG_S)
  else if is64 && hi then emit4 (_thumb32_SBCW_T2 dst dst src 0 SRTYPE_LSL FLAG_NOS)
  else if (src <? 8) && (dst <? 8) then emit2 (_thumb16_SUB_REG_T1 dst dst src)
  else emit4 (_thumb32_SUB_REG_T2 dst dst src 0 SRTYPE_LSL FLAG_NOS).

Definition _emit_orr_reg (dst src : Z) : J () :=
  if (dst <? 8) && (src <? 8) then emit2 (_thumb16_ORR_REG_T1 dst src)
  else emit4 (_thumb32_ORRW_REG_T2 dst dst src 0 SRTYPE_ASL FLAG_NOS).

Definition _emit_and_reg (dst src : Z) : J () :=
  if (dst <? 8) && (src <? 8) then emit2 (_thumb16_AND_REG_T1 dst src)
  else emit4 (_thumb32_AND_REG_T2 dst dst src 0 SRTYPE_ASL FLAG_NOS).

Definition _emit_cmp_reg (Rn Rm : Z) : J () :=
  if (Rn <? 0x8) && (Rm <? 0x8) then emit2 (_thumb16_CMP_REG_T1 Rn Rm)
  else emit2 (_thumb16_CMP_REG_T2 Rn Rm).

(** The operation of [emit_alu32_reg] on two processor registers. An unknown [op]
    emits nothing. *)
Definition alu32_op (rd rn : Z) (is64 hi : bool) (op : Z) : J () :=
  let low := (0 <? rn) && (rn <? 8) && (0 <? rd) && (rd <? 8) in
  if op =? EBPF_ALU_ADD then _emit_add_reg rd rn is64 hi
  else if op =? EBPF_ALU_SUB then _emit_sub_reg rd rn is64 hi
  else if op =? EBPF_ALU_OR then _emit_orr_reg rd rn
  else if op =? EBPF_ALU_AND then _emit_and_reg rd rn
  else if op =? EBPF_ALU_XOR then
    if low then emit2 (0x4040 .| (rn << 3) .| rd)
    else emit4 (_thumb32_EOR_REG_T2 rd rn rd 0 SRTYPE_ROR FLAG_NOS)
  else if op =? EBPF_ALU_MUL then
    if low then emit2 (0x4340 .| (rn << 3) .| rd)
    else emit4 (_thumb32_MUL_REG_T2 rd rn rd)
  else if op =? EBPF_ALU_LSH then
    if low then emit2 (0x4080 .| (rn << 3) .| rd)
    else emit4 (_thumb32_LSLW_REG_T2 rd rd rn FLAG_NOS)
  else if op =? EBPF_ALU_RSH then
    if low then emit2 (0x40c0 .| (rn << 3) .| rd)
    else emit4 (_thumb32_LSRW_REG_T2 rd rd rn FLAG_NOS)
  else when (op =? EBPF_ALU_ARSH)
    (if low then emit2 (0x4100 .| (rn << 3) .| rd)
     else emit4 (_thumb32_ASRW_REG_T2 rd rd rn FLAG_NOS)).

Definition emit_alu32_reg (dst src : Z) (is64 hi : bool) (op : Z) : J () :=
  rn ← arm_bpf_get_reg32 src tmp1.2;
  rd ← arm_bpf_get_reg32 dst tmp1.1;
  alu32_op rd rn is64 hi op ;;
  arm_bpf_put_reg32 dst rd.

(** The 32-bit form passes [is64] on as [true], too. *)
Definition emit_alu64_reg (is64 : bool) (dst src : Z * Z) (op : Z) : J () :=
  rd ← arm_bpf_get_reg64 dst tmp1;
  (if is64 then
     rs ← arm_bpf_get_reg64 src tmp2;
     emit_alu32_reg rd.2 rs.2 true false op ;;
     emit_alu32_reg rd.1 rs.1 true true op
   else
     rs ← arm_bpf_get_reg32 src.2 tmp2.2;
     emit_alu32_reg rd.2 rs true false op) ;;
  arm_bpf_put_reg64 dst rd.

Definition emit_alu32_imm (dst val op : Z) : J () :=
  let val := u16 val in
  rd ← arm_bpf_get_reg32 dst tmp1.1;
  (if op =? EBPF_ALU_LSH then emit2 (0x0000 .| (val << 6) .| (rd << 3) .| rd)
   else if op =? EBPF_ALU_RSH then emit2 (0x0800 .| (val << 6) .| (rd << 3) .| rd)
   else if op =? EBPF_ALU_ARSH then emit2 (0x1000 .| (val << 6) .| (rd << 3) .| rd)
   else when (op =? EBPF_ALU_NEG) (emit2 (0x4240 .| (rd << 3) .| rd))) ;;
  arm_bpf_put_reg32 dst rd.

Definition emit_u32_div_mod (dst src : Z * Z) (code imm : Z) : J () :=
  rd_lo ← arm_bpf_get_reg32 dst.2 tmp2.2;
  rt ← (if BPF_SRC code =? EBPF_SRC_REG then arm_bpf_get_reg32 src.2 tmp2.1
        else emit_mov_imm tmp2.1 (u16 imm) ;; mret tmp2.1);
  (if BPF_OP code =? EBPF_ALU_DIV
   then emit4 (0xfbb0f0f0 .| (rd_lo << 16) .| (rd_lo << 8) .| rt)
   else
     emit4 (0xfbb0f0f0 .| (rd_lo << 16) .| (ARM_IP << 8) .| rt) ;;
     emit4 (0xfb000010 .| (rd_lo << 16) .| (ARM_IP << 12) .| (rd_lo << 8) .| rt)) ;;
  arm_bpf_put_reg32 dst.2 rd_lo.

(** ** Shifts of 64 bits *)
Definition _emit_lsh64_reg (dst src : Z * Z) : J () :=
  rt ← arm_bpf_get_reg32 src.2 tmp2.2;
  rd ← arm_bpf_get_reg64 dst tmp1;
  let t := tmp2.1 in
  emit4 (0xf1a00000 .| (rt << 16) .| (ARM_IP << 8) .| 32) ;;
  emit4 (THUMB2_LSLW_REG_T2 .| (rd.1 << 16) .| (t << 8) .| rt) ;;
  emit4 (THUMB2_LSLW_REG_T2 .| (rd.2 << 16) .| (ARM_IP << 8) .| ARM_IP) ;;
  emit4 (THUMB2_ORRW_REG .| (t << 16) .| (ARM_IP << 8) .| ARM_IP) ;;
  emit4 (0xf1c00000 .| (rt << 16) .| (t << 8) .| 32) ;;
  emit4 (THUMB2_LSLW_REG_T2 .| (rd.2 << 16) .| (t << 8) .| t) ;;
  emit4 (THUMB2_ORRW_REG .| (t << 16) .| (ARM_IP << 8) .| ARM_IP) ;;
  emit4 (THUMB2_LSLW_REG_T2 .| (rd.2 << 16) .| (t << 8) .| rt) ;;
  arm_bpf_put_reg32 dst.2 t ;;
  arm_bpf_put_reg32 dst.1 ARM_IP.

(** In the first instruction the low bits of the amount are placed at bit 4. *)
Definition _emit_lsh64_imm (dst : Z * Z) (val : Z) : J () :=
  let val := u16 val in
  rd ← arm_bpf_get_reg64 dst tmp1;
  (if val <? 32 then
     emit4 (0xea5f0000 .| (((val .& 28) >> 2) << 12) .| (tmp2.1 << 8) .| ((val .& 3) << 4)
            .| rd.1) ;;
     emit4 (0xea500010 .| (tmp2.1 << 16) .| ((((32 - val) .& 28) >> 2) << 12) .| (rd.1 << 8)
            .| (((32 - val) .& 3) << 6) .| rd.2) ;;
     emit2 (0x0000 .| (val << 6) .| (rd.2 << 3) .| rd.2)
   else
     (if val =? 32 then _emit_mov_reg rd.2 rd.1
      else emit2 (0x0000 .| ((val - 32) << 6) .| (rd.2 << 3) .| rd.1)) ;;
     emit2 (0x4040 .| (rd.2 << 3) .| rd.2)) ;;
  arm_bpf_put_reg64 dst rd.

Definition emit_a32_rsh_r64 (dst src : Z * Z) : J () :=
  rt ← arm_bpf_get_reg32 src.2 tmp2.2;
  rd ← arm_bpf_get_reg64 dst tmp1;
  emit4 (_thumb32_RSBW_IMM_T2 ARM_IP rt 32 FLAG_S) ;;
  emit4 (_thumb32_SUBW_IMM_T4 tmp2.1 rt 32 FLAG_S) ;;
  emit4 (_thumb32_LSRW_REG_T2 ARM_LR rd.2 rt FLAG_S) ;;
  emit4 (_thumb32_LSLW_REG_T2 rd.1 rd.1 ARM_IP FLAG_S) ;;
  emit4 (_thumb32_ORRW_REG_T2 ARM_LR ARM_LR rd.1 0 SRTYPE_LSL FLAG_S) ;;
  emit4 (_thumb32_LSRW_REG_T2 rd.1 rd.1 tmp2.1 FLAG_S) ;;
  emit4 (_thumb32_ORRW_REG_T2 ARM_LR ARM_LR rd.1 0 SRTYPE_LSL FLAG_S) ;;
  emit4 (_thumb32_LSRW_REG_T2 ARM_IP rd.1 rt FLAG_S) ;;
  arm_bpf_put_reg32 dst.2 ARM_LR ;;
  arm_bpf_put_reg32 dst.1 ARM_IP.

Definition emit_a32_rsh_i64 (dst : Z * Z) (val : Z) : J () :=
  let val := u16 val in
  rd ← arm_bpf_get_reg64 dst tmp1;
  (if val =? 0 then skip
   else if val <? 32 then
     emit4 (_thumb32_LSRW_IMM_T2 tmp2.2 rd.2 val FLAG_NOS) ;;
     emit4 (_thumb32_ORRW_REG_T2 rd.2 tmp2.2 rd.1 (32 - val) SRTYPE_LSL FLAG_NOS) ;;
     emit4 (_thumb32_LSRW_IMM_T2 rd.1 rd.1 val FLAG_NOS)
   else if val =? 32 then _emit_mov_reg rd.1 rd.2 ;; emit_mov_imm rd.1 0
   else
     emit4 (_thumb32_LSRW_IMM_T2 rd.2 rd.1 (val - 32) FLAG_NOS) ;;
     emit_mov_imm rd.1 0) ;;
  arm_bpf_put_reg64 dst rd.

Definition emit_a32_arsh_r64 (dst src : Z * Z) : J () :=
  rt ← arm_bpf_get_reg32 src.2 tmp2.2;
  rd ← arm_bpf_get_reg64 dst tmp1;
  emit4 (_thumb32_RSBW_IMM_T2 ARM_IP rt 32 FLAG_S) ;;
  emit4 (_thumb32_SUBW_IMM_T4 tmp2.1 rt 32 FLAG_S) ;;
  emit4 (_thumb32_LSRW_REG_T2 ARM_LR rd.2 rt FLAG_S) ;;
  emit4 (_thumb32_LSLW_REG_T2 rd.1 rd.1 tmp2.1 FLAG_NOS) ;;
  emit4 (_thumb32_ORRW_REG_T2 ARM_LR ARM_LR rd.1 0 SRTYPE_LSL FLAG_S) ;;
  emit4 (_thumb32_ASRW_REG_T2 rd.1 rd.1 tmp2.1 FLAG_NOS) ;;
  emit2 (_thumb16_IT_T1 COND_PL IT_MASK_NONE) ;;
  emit4 (_thumb32_ORRW_REG_T2 ARM_LR ARM_LR rd.1 0 SRTYPE_LSL FLAG_S) ;;
  emit4 (_thumb32_ASRW_REG_T2 ARM_IP rd.1 rt FLAG_S) ;;
  arm_bpf_put_reg32 dst.2 ARM_LR ;;
  arm_bpf_put_reg32 dst.1 ARM_IP.

Definition emit_a32_arsh_i64 (dst : Z * Z) (val : Z) : J () :=
  let val := u32 val in
  rd ← arm_bpf_get_reg64 dst tmp1;
  (if val =? 0 then skip
   else if val <? 32 then
     emit4 (_thumb32_LSRW_IMM_T2 tmp2.2 rd.2 val FLAG_S) ;;
     emit4 (_thumb32_ORRW_REG_T2 rd.2 tmp2.2 rd.1 (32 - val) SRTYPE_LSL FLAG_S) ;;
     emit4 (_thumb32_ASRW_IMM_T2 rd.1 rd.1 val FLAG_S)
   else if val =? 32 then
     _emit_mov_reg rd.1 rd.2 ;;
     emit4 (_thumb32_ASRW_IMM_T2 rd.1 rd.1 31 FLAG_S)
   else
     emit4 (_thumb32_ASRW_IMM_T2 rd.2 rd.1 (s32 (val - 32)) FLAG_S) ;;
     emit4 (_thumb32_ASRW_IMM_T2 rd.1 rd.1 31 FLAG_S)) ;;
  arm_bpf_put_reg64 dst rd.

(** ** Negation and multiplication of 64 bits *)
Definition emit_a32_neg64 (dst : Z * Z) : J () :=
  rd ← arm_bpf_get_reg64 dst tmp1;
  emit4 (_thumb32_RSBW_IMM_T2 rd.2 rd.2 0 FLAG_S) ;;
  emit4 (_thumb32_RSBW_IMM_T2 rd.1 rd.1 0 FLAG_S) ;;
  arm_bpf_put_reg64 dst rd.

Definition emit_a32_mul_r64 (dst src : Z * Z) : J () :=
  rd ← arm_bpf_get_reg64 dst tmp1;
  rt ← arm_bpf_get_reg64 src tmp2;
  emit4 (_thumb32_MUL_T2 ARM_IP rd.2 rt.1) ;;
  emit4 (_thumb32_MUL_T2 ARM_LR rd.1 rt.2) ;;
  emit2 (_thumb16_ADD_REG_T2 ARM_LR ARM_IP) ;;
  emit4 (_thumb32_UMULL_T2 ARM_IP rd.1 rd.2 rt.2) ;;
  emit2 (_thumb16_ADD_REG_T2 rd.1 ARM_LR) ;;
  arm_bpf_put_reg32 dst.2 ARM_IP ;;
  arm_bpf_put_reg32 dst.1 rd.1.

(** ** Memory accesses *)
Definition emit_ldx_reg (dst : Z * Z) (src off sz : Z) : J () :=
  let rd := if is_stacked dst.2 then tmp1 else dst in
  '(rm, off) ←
    (if negb (is_ldst_imm off sz) then
       emit_mov_imm tmp1.1 off ;;
       _emit_add_reg tmp1.1 src false false ;;
       mret (tmp1.1, 0)
     else if rd.2 =? src then emit_a32_mov_reg src tmp1.1 ;; mret (tmp1.1, off)
     else mret (src, off));
  (if sz =? EBPF_SIZE_B then _emit_ldrb_i rd.2 rm off
   else if sz =? EBPF_SIZE_H then _emit_ldrh_i rd.2 rm off
   else if sz =? EBPF_SIZE_W then _emit_ldr_i rd.2 rm off
   else _emit_ldr_i rd.2 rm off ;; _emit_ldr_i rd.1 rm (s16 (off + 4))) ;;
  arm_bpf_put_reg64 dst rd.

(** The stores take the base register first; here they get the value first. *)
Definition emit_str_reg (dst : Z) (src : Z * Z) (off sz : Z) : J () :=
  rd ← arm_bpf_get_reg32 dst tmp1.2;
  '(rd, off) ←
    (if negb (is_ldst_imm off sz) then
       emit_mov_imm tmp1.1 off ;;
       _emit_add_reg tmp1.1 rd false false ;;
       mret (tmp1.1, 0)
     else mret (rd, off));
  if sz =? EBPF_SIZE_B then emit4 (_thumb32_STRB_IMM_T3 src.2 rd off)
  else if sz =? EBPF_SIZE_H then emit4 (_thumb32_STRH_IMM_T3 src.2 rd off)
  else if sz =? EBPF_SIZE_W then _emit_str_i src.2 rd off
  else _emit_str_i src.2 rd off ;; _emit_str_i src.1 rd (s16 (off + 4)).

(** ** Branches *)
Abbreviation EBPF_JEQ := 0x10 (only parsing).
Abbreviation EBPF_JGT := 0x20 (only parsing).
Abbreviation EBPF_JGE := 0x30 (only parsing).
Abbreviation EBPF_JSET := 0x40 (only parsing).
Abbreviation EBPF_JNE := 0x50 (only parsing).
Abbreviation EBPF_JSGT := 0x60 (only parsing).
Abbreviation EBPF_JSGE := 0x70 (only parsing).
Abbreviation EBPF_JLT := 0xa0 (only parsing).
Abbreviation EBPF_JLE := 0xb0 (only parsing).
Abbreviation EBPF_JSLT := 0xc0 (only parsing).
Abbreviation EBPF_JSLE := 0xd0 (only parsing).

Definition _use_b4 (s : jit_state) : bool := 20 <? inst_num s.

Definition _emit_b_cond (off cond : Z) : J () := fun s =>
  if negb (_use_b4 s) && (-256 <=? off) && (off <=? 254)
  then emit2 (_thumb16_B_T1 off cond) s
  else when ((-1048576 <? off) && (off <? 1048574)) (emit4 (_thumb32_BW_T3 off cond)) s.

Definition _emit_b (off : Z) : J () :=
  if (-2048 <? off) && (off <? 2046) then emit2 (_thumb16_B_T2 off)
  else when ((-16777216 <? off) && (off <? 16777214)) (emit4 (_thumb32_BW_T4 off)).

(** The first operand is in [rd], [rt], the second in [rm], [rn]. *)
Definition _emit_cmp_cond (rd rt rm rn op : Z) (is_jmp64 : bool) : J () :=
  if op =? EBPF_JSET then
    if is_jmp64 then
      emit4 (_thumb32_ADDW_REG_T3 ARM_IP rt rn 0 SRTYPE_LSL FLAG_NOS) ;;
      emit4 (_thumb32_ADDW_REG_T3 ARM_LR rd rm 0 SRTYPE_LSL FLAG_NOS) ;;
      emit4 (_thumb32_ORRW_REG_T2 ARM_IP ARM_LR ARM_IP 0 SRTYPE_LSL FLAG_S)
    else emit4 (_thumb32_ADDW_REG_T3 ARM_IP rt rn 0 SRTYPE_LSL FLAG_S)
  else if (op =? EBPF_JEQ) || (op =? EBPF_JNE) || (op =? EBPF_JGT) || (op =? EBPF_JGE)
       || (op =? EBPF_JLE) || (op =? EBPF_JLT) then
    when is_jmp64 (_emit_cmp_reg rd rm) ;; _emit_cmp_reg rt rn
  else if (op =? EBPF_JSLE) || (op =? EBPF_JSGT) then
    _emit_cmp_reg rn rt ;;
    when is_jmp64 (emit4 (_thumb32_SBCW_T2 ARM_IP rm rd 0 SRTYPE_LSL FLAG_S))
  else when ((op =? EBPF_JSLT) || (op =? EBPF_JSGE))
    (_emit_cmp_reg rt rn ;;
     when is_jmp64 (emit4 (_thumb32_SBCW_T2 ARM_IP rd rm 0 SRTYPE_LSL FLAG_S))).

(** [op] is an [s8]: the opcodes from 0x80 on are negative and match no case. *)
Definition _emit_jump (jmp_off op : Z) : J () :=
  let op := s8 op in
  if (op =? EBPF_JNE) || (op =? EBPF_JSET) then _emit_b_cond jmp_off COND_NE
  else if op =? EBPF_JEQ then _emit_b_cond jmp_off COND_EQ
  else if op =? EBPF_JGT then _emit_b_cond jmp_off COND_HI
  else if op =? EBPF_JGE then _emit_b_cond jmp_off COND_CS
  else if op =? EBPF_JSGT then _emit_b_cond jmp_off COND_LT
  else if op =? EBPF_JSGE then _emit_b_cond jmp_off COND_GE
  else if op =? EBPF_JLE then _emit_b_cond jmp_off COND_LS
  else if op =? EBPF_JLT then _emit_b_cond jmp_off COND_CC
  else if op =? EBPF_JSLT then _emit_b_cond jmp_off COND_LT
  else when (op =? EBPF_JSLE) (_emit_b_cond jmp_off COND_GE).

Definition bpf2a32_offset (bpf_from bpf_to bsize : Z) : J Z := fun s =>
  if negb (needGen s) then Ok ([], 0)
  else
    to ← of_option ArrayOOB (arr_get (offsets s) bpf_to);
    from ← of_option ArrayOOB (arr_get (offsets s) bpf_from);
    Ok ([], to - (from - bsize) - 4).

Definition epilogue_offset : J Z := fun s =>
  Ok ([], if negb (needGen s) then 0 else epilogue_at s - idx s - 4).

(** ** One instruction

    [pc] is its index. The result is that of [build_inst]: 1 when the next slot
    belongs to the instruction, -1 to stop, 0 otherwise. [dst] and [src] are the
    accesses to the register map, made only where an operand is used. *)
Definition done : J Z := mret 0.

Definition build_mov (dst src : J (Z * Z)) (code imm : Z) (is64 : bool) : J Z :=
  dst ← dst;
  (if BPF_SRC code =? EBPF_SRC_REG then
     if imm =? 1 then emit_mov_imm dst.1 0 else src ← src; emit_mov_reg64 is64 dst src
   else emit_mov_se_imm64 is64 dst imm) ;;
  done.

Definition build_alu (dst src : J (Z * Z)) (code imm : Z) (is64 : bool) : J Z :=
  dst ← dst;
  (if BPF_SRC code =? EBPF_SRC_IMM then
     emit_mov_se_imm64 is64 tmp2 imm ;;
     emit_alu64_reg is64 dst tmp2 (BPF_OP code)
   else src ← src; emit_alu64_reg is64 dst src (BPF_OP code)) ;;
  done.

(** The immediate form does not read the source register. *)
Definition build_div (dst src : J (Z * Z)) (code imm : Z) : J Z :=
  dst ← dst;
  (if BPF_SRC code =? EBPF_SRC_REG then src ← src; emit_u32_div_mod dst src code imm
   else emit_u32_div_mod dst dst code imm) ;;
  done.

Definition build_shift_imm (dst : J (Z * Z)) (code imm : Z) : J Z :=
  if 31 <? imm then mret (-1)
  else if imm =? 0 then done
  else dst ← dst; emit_alu32_imm dst.2 imm (BPF_OP code) ;; done.

Definition build_mul64 (dst src : J (Z * Z)) (code imm : Z) (is64 : bool) : J Z :=
  dst ← dst;
  (if BPF_SRC code =? EBPF_SRC_IMM then
     emit_mov_se_imm64 is64 tmp2 imm ;; emit_a32_mul_r64 dst tmp2
   else src ← src; emit_a32_mul_r64 dst src) ;;
  done.

Definition build_st (dst : J (Z * Z)) (code off imm : Z) : J Z :=
  (if BPF_SIZE code =? EBPF_SIZE_DW then emit_mov_se_imm64 true tmp2 imm
   else emit_mov_imm tmp2.2 imm) ;;
  dst ← dst;
  emit_str_reg dst.2 tmp2 off (BPF_SIZE code) ;;
  done.

Definition build_ldx (dst src : J (Z * Z)) (code off : Z) : J Z :=
  src ← src;
  rn ← arm_bpf_get_reg32 src.2 tmp2.2;
  dst ← dst;
  emit_ldx_reg dst rn off (BPF_SIZE code) ;;
  done.

Definition build_stx (dst src : J (Z * Z)) (code off : Z) : J Z :=
  src ← src;
  rs ← arm_bpf_get_reg64 src tmp2;
  dst ← dst;
  emit_str_reg dst.2 rs off (BPF_SIZE code) ;;
  done.

Definition build_jmp (dst src : J (Z * Z)) (pc code off imm : Z) : J Z :=
  if negb (BPF_SRC code =? EBPF_SRC_REG) && (off =? 0) then done
  else
    '(rm, rn) ←
      (if BPF_SRC code =? EBPF_SRC_REG then
         src ← src;
         rm ← arm_bpf_get_reg32 src.1 tmp2.1;
         rn ← arm_bpf_get_reg32 src.2 tmp2.2;
         mret (rm, rn)
       else emit_mov_se_imm64 true tmp2 imm ;; mret (tmp2.1, tmp2.2));
    dst ← dst;
    rd ← arm_bpf_get_reg64 dst tmp1;
    _emit_cmp_cond rd.1 rd.2 rm rn (BPF_OP code) (BPF_CLASS code =? EBPF_CLS_JMP) ;;
    bsize ← ((fun s => Ok ([], if negb (_use_b4 s) then 2 else 4)) : J Z);
    jmp_offset ← bpf2a32_offset pc (pc + off) bsize;
    _emit_jump jmp_offset (BPF_OP code) ;;
    done.

Definition build_call (imm : Z) : J Z :=
  r0 ← lift (a32_pair 0); r1 ← lift (a32_pair 1); r2 ← lift (a32_pair 2);
  r3 ← lift (a32_pair 3); r4 ← lift (a32_pair 4); r5 ← lift (a32_pair 5);
  func ← ((fun s => f ← of_option MemFault (call_word s (imm * 4)); Ok ([], f)) : J Z);
  emit_mov_reg64 true r0 r1 ;;
  emit_mov_reg64 true r1 r2 ;;
  emit_push_r64 r5 ;;
  emit_push_r64 r4 ;;
  emit_push_r64 r3 ;;
  emit_mov_imm tmp1.2 func ;;
  emit2 (_thumb16_BLX_REG_T1 tmp1.2) ;;
  _emit_add_imm ARM_SP ARM_SP 24 ;;
  done.

Definition build_exit (pc : Z) : J Z := fun s =>
  (if pc =? inst_num s - 1 then done
   else jmp_offset ← epilogue_offset; _emit_b jmp_offset ;; done) s.

(** An emitter on the destination, and on both operands. *)
Definition build_dst (dst : J (Z * Z)) (f : Z * Z -> J ()) : J Z := dst ← dst; f dst ;; done.

Definition build_dst_src (dst src : J (Z * Z)) (f : Z * Z -> Z * Z -> J ()) : J Z :=
  dst ← dst; src ← src; f dst src ;; done.

(** [next] is the slot behind the instruction. *)
Definition build_inst (i : ebpf_inst) (pc : Z) (next : option ebpf_inst) : J Z :=
  let dst := lift (a32_pair (dst i)) in
  let src := lift (a32_pair (src i)) in
  let code := opcode i in
  let off := offset i in
  let imm := imm i in
  let is64 := BPF_CLASS code =? EBPF_CLS_ALU64 in
  match opcode_of code with
  | None => done
  | Some o =>
      match o with
      | EBPF_OP_MOV_IMM | EBPF_OP_MOV_REG | EBPF_OP_MOV64_IMM | EBPF_OP_MOV64_REG =>
          build_mov dst src code imm is64
      | EBPF_OP_ADD_IMM | EBPF_OP_ADD_REG | EBPF_OP_SUB_IMM | EBPF_OP_SUB_REG
      | EBPF_OP_OR_IMM | EBPF_OP_OR_REG | EBPF_OP_AND_IMM | EBPF_OP_AND_REG
      | EBPF_OP_XOR_IMM | EBPF_OP_XOR_REG | EBPF_OP_MUL_IMM | EBPF_OP_MUL_REG
      | EBPF_OP_LSH_REG | EBPF_OP_RSH_REG | EBPF_OP_ARSH_REG
      | EBPF_OP_ADD64_IMM | EBPF_OP_ADD64_REG | EBPF_OP_SUB64_IMM | EBPF_OP_SUB64_REG
      | EBPF_OP_OR64_IMM | EBPF_OP_OR64_REG | EBPF_OP_AND64_IMM | EBPF_OP_AND64_REG
      | EBPF_OP_XOR64_IMM | EBPF_OP_XOR64_REG =>
          build_alu dst src code imm is64
      | EBPF_OP_DIV_IMM | EBPF_OP_DIV_REG | EBPF_OP_MOD_IMM | EBPF_OP_MOD_REG
      | EBPF_OP_DIV64_IMM | EBPF_OP_DIV64_REG | EBPF_OP_MOD64_IMM | EBPF_OP_MOD64_REG =>
          build_div dst src code imm
      | EBPF_OP_LSH_IMM | EBPF_OP_RSH_IMM | EBPF_OP_ARSH_IMM => build_shift_imm dst code imm
      | EBPF_OP_LSH64_REG => build_dst_src dst src _emit_lsh64_reg
      | EBPF_OP_LSH64_IMM => build_dst dst (fun d => _emit_lsh64_imm d imm)
      | EBPF_OP_RSH64_REG => build_dst_src dst src emit_a32_rsh_r64
      | EBPF_OP_RSH64_IMM => build_dst dst (fun d => emit_a32_rsh_i64 d imm)
      | EBPF_OP_ARSH64_REG => build_dst_src dst src emit_a32_arsh_r64
      | EBPF_OP_ARSH64_IMM => build_dst dst (fun d => emit_a32_arsh_i64 d imm)
      | EBPF_OP_NEG => build_dst dst (fun d => emit_alu32_imm d.2 0 (BPF_OP code))
      | EBPF_OP_NEG64 => build_dst dst emit_a32_neg64
      | EBPF_OP_MUL64_IMM | EBPF_OP_MUL64_REG => build_mul64 dst src code imm is64
      | EBPF_OP_LE | EBPF_OP_BE => mret (-1)
      | EBPF_OP_LDDW =>
          hi ← lift (of_option FetchOOB next);
          dst ← dst;
          emit_mov_i64 dst (u32 imm .| (u32 (Inst.imm hi) << 32)) ;;
          mret 1
      | EBPF_OP_LDXW | EBPF_OP_LDXH | EBPF_OP_LDXB | EBPF_OP_LDXDW =>
          build_ldx dst src code off
      | EBPF_OP_STW | EBPF_OP_STH | EBPF_OP_STB | EBPF_OP_STDW => build_st dst code off imm
      | EBPF_OP_STXW | EBPF_OP_STXH | EBPF_OP_STXB | EBPF_OP_STXDW =>
          build_stx dst src code off
      | EBPF_OP_JA =>
          if off =? 0 then done
          else jmp_offset ← bpf2a32_offset pc (pc + off) 2; _emit_b jmp_offset ;; done
      | EBPF_OP_CALL => build_call imm
      | EBPF_OP_EXIT => build_exit pc
      | _ => build_jmp dst src pc code off imm
      end
  end.

(** ** The passes *)

(** [memcpy] to [jit_code + idx]; a write outside of the buffer is a fault. *)
Definition emit_bytes (s : jit_state) (data : list Z) : res jit_state :=
  let len := Z.of_nat (length data) in
  s ← (if needGen s then
         let pos := code_ptr s - code_addr s + idx s in
         if (0 <=? pos) && (pos + len <=? Z.of_nat (length (jit_code s)))
         then Ok (set_code s (splice (Z.to_nat pos) data (jit_code s)))
         else Crash ArrayOOB
       else Ok s);
  Ok (set_idx s (idx s + len)).

Fixpoint emit_all (s : jit_state) (hs : list Z) : res jit_state :=
  match hs with
  | [] => Ok s
  | h :: hs => s ← emit_bytes s (le_bytes 2 h); emit_all s hs
  end.

(** Runs an emitter and writes what it collected. *)
Definition run_emit {A} (m : J A) (s : jit_state) : res (jit_state * A) :=
  '(hs, a) ← m s;
  s ← emit_all s hs;
  Ok (s, a).

Definition build_prologue : J () :=
  emit4 (_thumb32_PUSHW_T2 (0x3f0 .| (1 << ARM_FP) .| (1 << ARM_LR))) ;;
  _emit_mov_reg ARM_SP ARM_FP ;;
  bpf_r1 ← lift (a32_pair 1);
  bpf_fp ← lift (a32_pair 10);
  emit_mov_imm bpf_r1.1 0 ;;
  _emit_sub_imm bpf_r1.2 ARM_SP SCRATCH_SIZE ;;
  _emit_sub_imm ARM_SP ARM_SP EBPF_STACK_SIZE ;;
  emit_mov_reg64 true bpf_fp bpf_r1 ;;
  _emit_mov_reg ARM_R0 bpf_r1.2 ;;
  emit_mov_imm bpf_r1.1 0.

Definition build_epilogue : J () :=
  _emit_mov_reg ARM_FP ARM_SP ;;
  emit4 (_thumb32_POPW_T2 (0x3f0 .| (1 << ARM_FP) .| (1 << 15))).

(** [offsets[i] = idx], a [uint8_t], in the first pass. *)
Definition record_offset (s : jit_state) (i : Z) : res jit_state :=
  if needGen s then Ok s
  else
    o ← of_option ArrayOOB (arr_set (offsets s) i (u8 (idx s)));
    Ok (set_offsets s o).

(** The loop from instruction [i] on; [fuel] bounds the number of iterations. *)
Fixpoint build_body (fuel : nat) (i : Z) (s : jit_state) : res jit_state :=
  match fuel with
  | O => Ok s
  | S fuel =>
      if inst_num s <=? i then Ok s
      else
        inst ← of_option FetchOOB (inst_at (prog s) i);
        '(s, ret) ← run_emit (build_inst inst i (inst_at (prog s) (i + 1))) s;
        if 0 <? ret then
          s ← record_offset s (i + 1);
          build_body fuel (i + 2) s
        else
          s ← record_offset s i;
          if ret <? 0 then Ok s else build_body fuel (i + 1) s
  end.

Definition body (s : jit_state) : res jit_state := build_body (Z.to_nat (inst_num s)) 0 s.

Definition jit_compile (s : jit_state) : res jit_state :=
  let s := set_pass s false (epilogue_at s) in
  '(s, _) ← run_emit build_prologue s;
  s ← body s;
  let s := set_pass s true (idx s) in
  '(s, _) ← run_emit build_prologue s;
  s ← body s;
  '(s, _) ← run_emit build_epilogue s;
  Ok s.

(** ** Memory and the entry point *)
Record jit_mem := JitMem { mem_code : list Z; mem_addr : Z; jmp_offsets : list Z }.

(** [malloc] of the two buffers gave [addr] for the code, or failed. *)
Definition jit_mem_allocate (ok : bool) (addr insts_num : Z) : res jit_mem :=
  if ok
  then Ok (JitMem (replicate (Z.to_nat (10 * insts_num + 16)) 0) addr
             (replicate (Z.to_nat (4 * insts_num + 16)) 0))
  else Crash NullDeref.

Definition jit_state_set_mem (s : jit_state) (mem : jit_mem) : jit_state :=
  JitState (prog s) (inst_num s) (mem_code mem) (mem_addr mem)
    (mem_addr mem .& Z.lnot 3) (idx s) (epilogue_at s) (jmp_offsets mem) (needGen s)
    (call_word s).

(** The state in which [jit_compile] leaves the compiler of [gen_jit_code]. *)
Definition gen_state (ok : bool) (addr : Z) (calls : Z -> option Z) (prog : list Z) (n : Z)
    : res jit_state :=
  mem ← jit_mem_allocate ok addr n;
  jit_compile (jit_state_set_mem (JitState prog n [] 0 0 0 0 [] false calls) mem).

(** The machine code of a program of [n] instructions and the address it is
    called at: [jit_func] is [jmem->jit_code | 1], whose bit 0 selects Thumb. *)
Definition compile (ok : bool) (addr : Z) (calls : Z -> option Z) (prog : list Z) (n : Z)
    : res (list Z * Z) :=
  s ← gen_state ok addr calls prog n;
  Ok (jit_code s, code_addr s .| 1).
