(* ===== verification/Thumb2Facts.v ===== *)
(** * Encoding and decoding

    Each encoder of [Thumb2] against the decoder of [Arm]: which instruction the
    processor executes for the bits the compiler emits. An encoding is brought to
    the form of a concatenation of bit fields ([cat]), of which the decoder's fields
    are read off. *)
From stdpp Require Import base tactics numbers list.
From Stdlib Require Import ZArith Lia Btauto.
From S2P Require Import Prelude Inst VM Thumb2 Arm Jit.
Local Open Scope Z_scope.
Local Open Scope bits_scope.

(** ** Concatenation of fields *)

(** [a] above the [k] bits of [b]. *)
Definition cat (a k b : Z) : Z := a * 2 ^ k + b.

Definition fits (b k : Z) : Prop := 0 <= k /\ 0 <= b < 2 ^ k.

Lemma lor_shl a b p k j :
  p = k + j -> 0 <= k -> fits b j -> (a << p) .| (b << k) = cat a j b << k.
Proof.
  intros -> Hk [Hj Hb]. rewrite Z.add_comm, <- Z.shiftl_shiftl, <- Z.shiftl_lor by lia.
  f_equal. rewrite Z.lor_comm, lor_shiftl_add by done. unfold cat. lia.
Qed.

Lemma lor_cat a b k : fits b k -> (a << k) .| b = cat a k b.
Proof. intros [Hk Hb]. rewrite Z.lor_comm, lor_shiftl_add by done. unfold cat. lia. Qed.

Lemma field_hi a k b lo n d :
  lo - k = d -> 0 <= d -> 0 <= n -> fits b k -> field (cat a k b) lo n = field a d n.
Proof.
  intros <- Hd Hn [Hk Hb]. unfold field, cat. f_equal. rewrite !Z.shiftr_div_pow2 by lia.
  replace lo with (k + (lo - k)) at 1 by lia. rewrite Z.pow_add_r, <- Z.div_div by lia.
  f_equal. rewrite Z.div_add_l, Z.div_small by lia. lia.
Qed.

Lemma field_lo a k b lo n :
  0 <= lo -> 0 <= n -> lo + n <= k -> field (cat a k b) lo n = field b lo n.
Proof.
  intros. unfold field, cat. rewrite !Z.land_ones, !Z.shiftr_div_pow2 by lia.
  replace (a * 2 ^ k) with (a * 2 ^ (k - lo - n) * 2 ^ n * 2 ^ lo)
    by (rewrite <- !Z.mul_assoc, <- !Z.pow_add_r by lia; f_equal; f_equal; lia).
  rewrite Z.div_add_l by lia. rewrite Z.add_comm, Z.mod_add by lia. done.
Qed.

Lemma field_span a k b lo n m d :
  k - lo = m -> n - m = d -> 0 <= lo -> 0 <= m -> 0 <= d -> fits b k ->
  field (cat a k b) lo n = cat (field a 0 d) m (field b lo m).
Proof.
  intros <- <- H0 H1 H2 [Hk Hb]. unfold field, cat.
  rewrite !Z.land_ones, !Z.shiftr_div_pow2 by lia. rewrite Z.div_1_r.
  replace (a * 2 ^ k) with (a * 2 ^ (k - lo) * 2 ^ lo)
    by (rewrite <- Z.mul_assoc, <- Z.pow_add_r by lia; f_equal; f_equal; lia).
  rewrite Z.div_add_l by lia.
  assert (b / 2 ^ lo < 2 ^ (k - lo)).
  { apply Z.div_lt_upper_bound; [lia|]. rewrite <- Z.pow_add_r by lia.
    replace (lo + (k - lo)) with k by lia. lia. }
  assert (0 <= b / 2 ^ lo) by (apply Z.div_pos; lia).
  rewrite (Z.mod_small (b / 2 ^ lo)) by lia.
  replace n with ((k - lo) + (n - (k - lo))) at 1 by lia. rewrite Z.pow_add_r by lia.
  rewrite Z.rem_mul_r by lia.
  rewrite (Z.div_add_l a), (Z.div_small (b / _)), Z.add_0_r by lia.
  rewrite (Z.add_comm (a * _)), Z.mod_add, (Z.mod_small (b / _)) by lia. lia.
Qed.

Lemma field_all b n : fits b n -> field b 0 n = b.
Proof.
  intros [Hn Hb]. rewrite <- (Z.mod_small b (2 ^ n)) at 2 by lia. unfold field.
  now rewrite Z.land_ones by lia.
Qed.

Lemma flag_field w k : 0 <= k -> flag w k = (field w k 1 =? 1).
Proof.
  intros. unfold flag, field.
  now rewrite Z.testbit_eqb, Z.land_ones, Z.shiftr_div_pow2 by lia.
Qed.

Lemma land_mask z m k : 0 <= k -> m = Z.ones k -> z .& m = z mod 2 ^ k.
Proof. intros Hk ->. now apply Z.land_ones. Qed.

(** The number of zero bits below the lowest one. *)
Fixpoint trailing (p : positive) : Z :=
  match p with xO p => 1 + trailing p | _ => 0 end.

(** ** Tactics *)
Ltac fits :=
  lazymatch goal with
  | |- fits _ _ =>
      first [assumption
            | unfold fits in *; split; [lia|pow_cst; cbn [Z.b2z negb]; Z.div_mod_to_equations; lia]]
  end.

(** Reads fields off concatenations. *)
Ltac fields :=
  repeat match goal with
  | |- context [flag ?w ?k] => rewrite (flag_field w k) by lia
  | |- context [field (cat ?a ?k ?b) ?lo ?n] =>
      let c := eval vm_compute in (k <=? lo, lo + n <=? k) in
      lazymatch c with
      | (true, _) =>
          let d := eval vm_compute in (lo - k) in
          rewrite (field_hi a k b lo n d) by (first [reflexivity|lia|fits])
      | (_, true) => rewrite (field_lo a k b lo n) by lia
      | _ =>
          let m := eval vm_compute in (k - lo) in
          let d := eval vm_compute in (n - (k - lo)) in
          rewrite (field_span a k b lo n m d) by (first [reflexivity|lia|fits])
      end
  | |- context [field ?z ?lo ?n] =>
      first
        [ zcst z; let v := eval vm_compute in (field z lo n) in change (field z lo n) with v
        | rewrite (field_all z n) by fits ]
  end.

(** Proves that an encoding is a given concatenation. *)
Ltac masks :=
  repeat match goal with
  | |- context [?z .& Zpos ?m] =>
      let k := eval vm_compute in (Z.log2 (Zpos m + 1)) in
      rewrite (land_mask z (Zpos m) k) by (lia || reflexivity)
  end;
  rewrite ?Z.shiftr_div_pow2 by lia.

Ltac lors :=
  cbv zeta; masks; rewrite ?Z.lor_0_l;
  repeat match goal with
  | |- context [Zpos ?c .| _] =>
      let p := eval vm_compute in (trailing c) in
      let a := eval vm_compute in (Z.shiftr (Zpos c) p) in
      change (Zpos c) with (a << p)
  | |- context [(?a << ?p) .| (?b << ?k)] =>
      let j := eval vm_compute in (p - k) in
      rewrite (lor_shl a b p k j) by (first [reflexivity|lia|fits])
  | |- context [(?a << ?p) .| ?b] => rewrite (lor_cat a b p) by fits
  end;
  unfold fits in *;
  rewrite ?u16_small, ?u32_small by (unfold cat; pow_cst; Z.div_mod_to_equations; lia);
  unfold cat; pow_cst; Z.div_mod_to_equations; lia.

(** Decides the first test of a field. *)
Ltac test_field lo n v :=
  match goal with
  | |- context [if field ?w lo n =? _ then _ else _] =>
      replace (field w lo n) with v by (fields; reflexivity); cbn [Z.eqb Pos.eqb andb]
  end.

Lemma dp_reg_cat op d n m sh t s :
  fits d 4 -> fits n 4 -> fits m 4 -> fits sh 5 -> fits t 2 -> fits s 1 -> fits op 11 ->
  dp_reg (op << 21) d n m sh t s =
  cat (cat (cat (cat (cat (cat (cat (cat op 1 s) 4 n) 1 0) 3 (sh / 4)) 4 d) 2 (sh mod 4))
    2 t) 4 m.
Proof.
  intros. unfold dp_reg. lors.
Qed.

(** ** Data processing with a shifted register *)

(** A register that is neither SP nor PC. *)
Definition good (r : Z) : Prop := 0 <= r < 15 /\ r <> 13.

Lemma good_bad r : good r -> bad_reg (Z.to_nat r) = false.
Proof. unfold good, bad_reg. intros. apply orb_false_iff. rewrite !Nat.eqb_neq. lia. Qed.

Lemma good_fits r : good r -> fits r 4.
Proof. unfold good, fits. pow_cst. lia. Qed.

Create HintDb fits.
#[export] Hint Resolve good_fits : fits.

Definition dp_code (o : dp_op) : Z :=
  match o with
  | AND_op => 0x750 | ORR_op => 0x752 | EOR_op => 0x754 | ADD_op => 0x758
  | ADC_op => 0x75a | SBC_op => 0x75b | SUB_op => 0x75d | RSB_op => 0x75e
  end.

Lemma decode_dp_enc o d n m sh t s :
  good d -> good n -> good m -> fits sh 5 -> fits t 2 -> fits s 1 ->
  decode32 (dp_reg (dp_code o << 21) d n m sh t s) =
  Some (ADp o (s =? 1) (Z.to_nat d) (Z.to_nat n) (Z.to_nat m) (decode_imm_shift t sh)).
Proof.
  intros Hd Hn Hm Hsh Ht Hs.
  rewrite dp_reg_cat by (auto with fits; destruct o; vm_compute; repeat split; congruence).
  pose proof (good_fits d Hd); pose proof (good_fits n Hn); pose proof (good_fits m Hm).
  assert (N15 : (Z.to_nat n =? 15)%nat = false) by (apply Nat.eqb_neq; unfold good in *; lia).
  assert (Esh : 4 * (sh / 4) + sh mod 4 = sh) by (rewrite <- Z.div_mod by lia; done).
  destruct o; unfold decode32; cbn [dp_code]; test_field 27 5 0x1d; test_field 25 7 0x75;
    unfold decode_dp_reg, rfield; cbv zeta; fields;
    rewrite ?N15, !good_bad, Esh by done; reflexivity.
Qed.

(** ** Moves between registers, with a shift *)

(** Equality up to the order of the disjuncts. *)
Ltac lor_ac :=
  apply Z.bits_inj'; let k := fresh in intros k ?; rewrite ?Z.lor_spec; btauto.

Lemma lsrw_imm_dp d m sh s :
  0 <= sh < 32 ->
  _thumb32_LSRW_IMM_T2 d m sh s = dp_reg THUMB2_ORRW_REG d 15 m sh SRTYPE_LSR s.
Proof.
  intros H. unfold _thumb32_LSRW_IMM_T2. destruct (Z.ltb_spec sh 0); [lia|].
  destruct (Z.ltb_spec 0x1f sh); [lia|]. cbn [orb]. unfold dp_reg. cbv zeta. f_equal.
  change THUMB2_LSRW_IMM with (THUMB2_ORRW_REG .| (15 << 16) .| (SRTYPE_LSR << 4)). lor_ac.
Qed.

Lemma asrw_imm_dp d m sh s :
  _thumb32_ASRW_IMM_T2 d m sh s = dp_reg THUMB2_ORRW_REG d 15 m sh SRTYPE_ASR s.
Proof.
  unfold _thumb32_ASRW_IMM_T2, dp_reg. cbv zeta. f_equal.
  change THUMB2_ASRW_IMM with (THUMB2_ORRW_REG .| (15 << 16) .| (SRTYPE_ASR << 4)). lor_ac.
Qed.

Lemma decode_mov_enc d m sh t s :
  good d -> good m -> fits sh 5 -> fits t 2 -> fits s 1 ->
  decode32 (dp_reg THUMB2_ORRW_REG d 15 m sh t s) =
  Some (AMov (s =? 1) (Z.to_nat d) (Z.to_nat m) (decode_imm_shift t sh)).
Proof.
  intros Hd Hm Hsh Ht Hs. change THUMB2_ORRW_REG with (0x752 << 21).
  rewrite dp_reg_cat by (auto with fits; fits).
  pose proof (good_fits d Hd); pose proof (good_fits m Hm).
  assert (Esh : 4 * (sh / 4) + sh mod 4 = sh) by (rewrite <- Z.div_mod by lia; done).
  unfold decode32. test_field 27 5 0x1d. test_field 25 7 0x75. unfold decode_dp_reg, rfield. cbv zeta. fields.
  rewrite Esh. unfold guard_op.
  replace ((Z.to_nat d =? 13)%nat) with false by (symmetry; apply Nat.eqb_neq; unfold good in *; lia).
  replace ((Z.to_nat m =? 13)%nat) with false by (symmetry; apply Nat.eqb_neq; unfold good in *; lia).
  replace ((Z.to_nat d =? 15)%nat) with false by (symmetry; apply Nat.eqb_neq; unfold good in *; lia).
  replace ((Z.to_nat m =? 15)%nat) with false by (symmetry; apply Nat.eqb_neq; unfold good in *; lia).
  reflexivity.
Qed.

(** ** Immediates *)
Lemma mov16_cat op rd v :
  op = 0x24 \/ op = 0x2c -> good rd -> fits v 16 ->
  mov16 (cat 0x1e 7 op << 20) rd v =
  cat (cat (cat (cat (cat (cat (cat 0x1e 1 (v / 2 ^ 11 mod 2)) 6 op) 4 (v / 2 ^ 12)) 1 0)
    3 (v / 2 ^ 8 mod 8)) 4 rd) 8 (v mod 256).
Proof.
  intros Hop Hrd Hv. apply good_fits in Hrd. unfold mov16. cbv zeta.
  rewrite !Z.shiftr_land.
  change (0xf000 >> 12) with 15. change (0x0800 >> 11) with 1. change (0x0700 >> 8) with 7.
  masks. rewrite (Z.mod_small (v / 2 ^ 12)) by (unfold fits in *; pow_cst; Z.div_mod_to_equations; lia).
  assert (Hi : v / 2 ^ 11 mod 2 ^ 1 = 0 \/ v / 2 ^ 11 mod 2 ^ 1 = 1)
    by (pow_cst; Z.div_mod_to_equations; lia).
  change (2 ^ 1) with 2 in *. change (2 ^ 3) with 8. change (2 ^ 8 ) with 256 in *.
  assert (fits (v / 2 ^ 12) 4) by (unfold fits in *; pow_cst; Z.div_mod_to_equations; lia).
  assert (fits (v / 256 mod 8) 3) by (unfold fits in *; pow_cst; Z.div_mod_to_equations; lia).
  assert (fits (v mod 256) 8) by (unfold fits in *; pow_cst; Z.div_mod_to_equations; lia).
  destruct Hop as [-> | ->], Hi as [-> | ->];
    match goal with |- context [?a .| (?b << 26)] =>
      let c := eval vm_compute in (a .| (b << 26)) in change (a .| (b << 26)) with c end;
    set (x := v / 2 ^ 12) in *; set (y := v / 256 mod 8) in *; set (z := v mod 256) in *;
    clearbody x y z; lors.
Qed.

Lemma imm16_fields v :
  fits v 16 ->
  4096 * (v / 2 ^ 12) + (2048 * (v / 2 ^ 11 mod 2) + 256 * (v / 2 ^ 8 mod 8) + v mod 256) = v.
Proof. unfold fits. pow_cst. intros. Z.div_mod_to_equations. lia. Qed.

Ltac imm16_fits v :=
  assert (fits (v / 2 ^ 12) 4) by (unfold fits in *; pow_cst; Z.div_mod_to_equations; lia);
  assert (fits (v / 2 ^ 11 mod 2) 1) by (unfold fits in *; pow_cst; Z.div_mod_to_equations; lia);
  assert (fits (v / 2 ^ 8 mod 8) 3) by (unfold fits in *; pow_cst; Z.div_mod_to_equations; lia);
  assert (fits (v mod 256) 8) by (unfold fits in *; pow_cst; Z.div_mod_to_equations; lia).

Lemma decode_mov16 op rd v :
  op = 0x24 \/ op = 0x2c -> good rd -> fits v 16 ->
  decode32 (mov16 (cat 0x1e 7 op << 20) rd v) =
  Some (if op =? 0x24 then AMovImm false (Z.to_nat rd) v else AMovt (Z.to_nat rd) v).
Proof.
  intros Hop Hrd Hv. rewrite mov16_cat by done. pose proof (imm16_fields v Hv) as Ev.
  imm16_fits v. pose proof (good_fits rd Hrd).
  destruct Hop as [-> | ->]; unfold decode32; test_field 27 5 0x1e;
    unfold decode_imm, rfield; cbv zeta; fields;
    cbn [Z.eqb Pos.eqb]; rewrite Ev, good_bad by done; reflexivity.
Qed.

Lemma u32_mov16 op rd v : u32 (mov16 op rd v) = mov16 op rd v.
Proof. unfold mov16. cbv zeta. apply u32_u32. Qed.

Lemma decode_movw rd v :
  good rd -> fits v 16 ->
  decode32 (mov16 0xf2400000 rd v) = Some (AMovImm false (Z.to_nat rd) v).
Proof. intros. now apply (decode_mov16 0x24); [left|..]. Qed.

Lemma decode_movt rd v :
  good rd -> fits v 16 -> decode32 (mov16 0xf2c00000 rd v) = Some (AMovt (Z.to_nat rd) v).
Proof. intros. now apply (decode_mov16 0x2c); [right|..]. Qed.

Lemma decode_movs rd v :
  fits rd 3 -> fits v 8 ->
  decode16 (u16 (0x2000 .| (rd << 8) .| v)) = Some (AMovImm true (Z.to_nat rd) v).
Proof.
  intros Hr Hv. assert (u16 (0x2000 .| (rd << 8) .| v) = cat (cat 4 3 rd) 8 v) as -> by lors.
  unfold decode16, rfield. cbv zeta. test_field 13 3 1. test_field 12 4 2. test_field 11 5 4. fields. done.
Qed.

(** ** Loads *)

(** A load with a positive 8-bit offset. *)
Definition mem_size (op : Z) : Z := if op =? 0xf81 then 1 else if op =? 0xf83 then 2 else 4.

Lemma decode_load_cat op rt rn off :
  op = 0xf81 \/ op = 0xf83 \/ op = 0xf85 -> good rt -> good rn -> fits off 8 ->
  decode32 (cat (cat (cat (cat op 4 rn) 4 rt) 4 0xe) 8 off) =
  Some (ALdr (mem_size op) (Z.to_nat rt) (Z.to_nat rn) off).
Proof.
  intros Hop Ht Hn Ho. pose proof (good_fits rt Ht); pose proof (good_fits rn Hn).
  assert (N15 : (Z.to_nat rn =? 15)%nat = false) by (apply Nat.eqb_neq; unfold good in *; lia).
  destruct_or! Hop; subst op; unfold decode32; test_field 27 5 0x1f; test_field 25 7 0x7c;
    unfold decode_mem, rfield; cbv zeta; fields; rewrite N15, good_bad by done; reflexivity.
Qed.

Lemma u32_load op rt rn off :
  op = 0xf81 \/ op = 0xf83 \/ op = 0xf85 -> fits rt 4 -> fits rn 4 -> fits off 8 ->
  u32 (cat (cat (cat (cat op 4 rn) 4 rt) 4 0xe) 8 off) = cat (cat (cat (cat op 4 rn) 4 rt) 4 0xe) 8 off.
Proof.
  unfold fits, cat. pow_cst. intros Hop Ht Hn Ho. apply u32_small. pow_cst.
  destruct_or! Hop; subst op; lia.
Qed.

Lemma ldr_t4_cat rt rn off :
  fits rt 4 -> fits rn 4 -> 0 < off < 256 ->
  _thumb32_LDR_IMM_T4 rt rn off = cat (cat (cat (cat 0xf85 4 rn) 4 rt) 4 0xe) 8 off.
Proof.
  intros Ht Hn Ho. assert (fits off 8) by (split; [lia|pow_cst; lia]).
  unfold _thumb32_LDR_IMM_T4, magnitude.
  destruct (Z.ltb_spec 0 off); [|lia]. destruct (Z.eqb_spec off 0); [lia|].
  destruct (Z.leb_spec 0 off); [|lia]. rewrite (u32_small off) by (pow_cst; lia).
  cbv zeta. cbn [negb Z.b2z].
  transitivity (u32 (0xf8500000 .| (rn << 16) .| (rt << 12) .| (0xe << 8) .| off)); [|lors].
  f_equal. change (0xe << 8) with (0x800 .| (((1 << 2) .| (1 << 1) .| 0) << 8)).
  change THUMB2_LDR_IMM_T4 with (0xf8500000 .| 0x800). lor_ac.
Qed.

Lemma ldrb_t3_cat rt rn off :
  fits rt 4 -> fits rn 4 -> fits off 8 ->
  _thumb32_LDRB_IMM_T3 rt rn off = cat (cat (cat (cat 0xf81 4 rn) 4 rt) 4 0xe) 8 off.
Proof.
  intros Ht Hn Ho. unfold _thumb32_LDRB_IMM_T3.
  assert (magnitude off = off) as ->
    by (unfold magnitude, fits in *; destruct (Z.ltb_spec 0 off); lia).
  assert ((0 <=? off) = true) as -> by (unfold fits in *; lia). cbv zeta.
  change (8 .| (1 << 2) .| (Z.b2z true << 1) .| 0) with 0xe.
  change THUMB2_LDRB_IMM_T3 with 0xf8100000. lors.
Qed.

Lemma ldrh_cat rt rn off :
  fits rt 4 -> fits rn 4 -> fits off 8 ->
  u32 (0xf8300000 .| (rn << 16) .| (rt << 12) .| (14 << 8) .| (off .& 0xff)) =
  cat (cat (cat (cat 0xf83 4 rn) 4 rt) 4 0xe) 8 off.
Proof.
  intros Ht Hn Ho. masks. rewrite (Z.mod_small off) by (unfold fits in *; lia). lors.
Qed.

Lemma u16_ldrb rt rn off : u16 (_thumb16_LDRB_IMM_T1 rt rn off) = _thumb16_LDRB_IMM_T1 rt rn off.
Proof. unfold _thumb16_LDRB_IMM_T1. clia. Qed.

Lemma decode_ldrb_t1 rt rn off :
  fits rt 3 -> fits rn 3 -> fits off 5 ->
  decode16 (_thumb16_LDRB_IMM_T1 rt rn off) =
  Some (ALdr 1 (Z.to_nat rt) (Z.to_nat rn) off).
Proof.
  intros Ht Hn Ho. unfold _thumb16_LDRB_IMM_T1. change THUMB2_LDRB_IMM_T1 with 0x7800.
  assert (u16 (0x7800 .| (off << 6) .| (rn << 3) .| rt) = cat (cat (cat 0xf 5 off) 3 rn) 3 rt)
    as -> by lors.
  unfold decode16, rfield. cbv zeta. test_field 13 3 3. test_field 12 4 7. test_field 11 5 15. fields. reflexivity.
Qed.

(** ** Shifts of low registers *)
Lemma decode_lsl16 rd rm v :
  fits rd 3 -> fits rm 3 -> fits v 5 ->
  decode16 (u16 (0x0000 .| (v << 6) .| (rm << 3) .| rd)) =
  Some (AMov true (Z.to_nat rd) (Z.to_nat rm) (SLSL v)).
Proof.
  intros Hd Hm Hv.
  assert (u16 (0x0000 .| (v << 6) .| (rm << 3) .| rd) = cat (cat (cat 0 5 v) 3 rm) 3 rd)
    as -> by lors.
  unfold decode16, rfield. cbv zeta. test_field 13 3 0. fields. reflexivity.
Qed.

(** ** Branches *)
Lemma sign_extend_mod n z x :
  0 < n -> - 2 ^ (n - 1) <= x < 2 ^ (n - 1) -> z mod 2 ^ n = x mod 2 ^ n ->
  sign_extend n z = x.
Proof.
  intros Hn Hx E. unfold sign_extend. cbv zeta. rewrite Z.land_ones, E by lia.
  assert (Hp : 2 ^ n = 2 * 2 ^ (n - 1)) by (rewrite <- Z.pow_succ_r by lia; f_equal; lia).
  set (h := 2 ^ (n - 1)) in *. assert (0 < h) by (apply Z.pow_pos_nonneg; lia).
  rewrite Z.testbit_eqb by lia. fold h. rewrite Hp.
  destruct (Z.lt_ge_cases x 0).
  - assert (Ex : x mod (2 * h) = x + 2 * h).
    { symmetry. apply Z.mod_unique with (-1); lia. }
    rewrite Ex. assert (Eq : (x + 2 * h) / h = 1)
      by (symmetry; apply Z.div_unique with (x + h); lia).
    rewrite Eq. change (1 mod 2 =? 1) with true. cbv iota. lia.
  - rewrite (Z.mod_small x) by lia. rewrite (Z.div_small x h) by lia. done.
Qed.

Lemma decode_b_t1 off cond :
  0 <= cond < 14 -> -256 <= off <= 254 -> off mod 2 = 0 ->
  decode16 (_thumb16_B_T1 off cond) = Some (AB cond (off + 2)).
Proof.
  intros Hc Ho He. unfold _thumb16_B_T1. cbv zeta. masks.
  set (x := off / 2 ^ 1 mod 2 ^ 8).
  assert (Hx : fits x 8) by (unfold x, fits; pow_cst; Z.div_mod_to_equations; lia).
  rewrite (u16_small x) by (unfold fits in Hx; pow_cst; lia).
  assert (Es : 2 * sign_extend 8 (cat (cat 13 4 cond) 8 x) + 2 = off + 2).
  { rewrite (sign_extend_mod 8 _ (off / 2)); [|lia|pow_cst; Z.div_mod_to_equations; lia|].
    - Z.div_mod_to_equations. lia.
    - unfold cat. rewrite Z.add_comm, Z.mod_add by lia. unfold x. now rewrite Z.mod_mod by lia. }
  clearbody x. change THUMB2_B_COND_T1 with 0xd000.
  assert (fits cond 4) by (split; [lia|pow_cst; lia]).
  replace (u16 _) with (cat (cat 13 4 cond) 8 x) by lors.
  rewrite <- Es. unfold decode16, rfield. cbv zeta. test_field 13 3 6. test_field 12 4 13.
  fields. destruct (Z.leb_spec 14 cond); [lia|]. reflexivity.
Qed.

Lemma decode_b_t2 off :
  -2048 <= off < 2048 -> off mod 2 = 0 ->
  decode16 (_thumb16_B_T2 off) = Some (AB 14 (off + 2)).
Proof.
  intros Ho He. unfold _thumb16_B_T2. cbv zeta. masks.
  set (x := off / 2 ^ 1 mod 2 ^ 11).
  assert (Hx : fits x 11) by (unfold x, fits; pow_cst; Z.div_mod_to_equations; lia).
  rewrite (u16_small x) by (unfold fits in Hx; pow_cst; lia).
  assert (Es : 2 * sign_extend 11 (cat 28 11 x) + 2 = off + 2).
  { rewrite (sign_extend_mod 11 _ (off / 2)); [|lia|pow_cst; Z.div_mod_to_equations; lia|].
    - Z.div_mod_to_equations. lia.
    - unfold cat. rewrite Z.add_comm, Z.mod_add by lia. unfold x. now rewrite Z.mod_mod by lia. }
  clearbody x. change THUMB2_B_T2 with 0xe000.
  replace (u16 (0xe000 .| x)) with (cat 28 11 x) by lors.
  rewrite <- Es. unfold decode16, rfield. cbv zeta. test_field 13 3 7. test_field 12 4 14. test_field 11 5 28. done.
Qed.

Lemma bw_t3_cat off cond :
  0 <= cond < 14 -> - 2 ^ 20 <= off < 2 ^ 20 ->
  _thumb32_BW_T3 off cond =
  cat (cat (cat (cat (cat (cat (cat (cat 0x1e 1 (off / 2 ^ 20 mod 2)) 4 cond) 6 (off / 2 ^ 12 mod 64))
    2 2) 1 (off / 2 ^ 18 mod 2)) 1 0) 1 (off / 2 ^ 19 mod 2)) 11 (off / 2 mod 2048).
Proof.
  intros Hc Ho. unfold _thumb32_BW_T3. cbv zeta. masks.
  assert (Z.b2z (off <? 0) = off / 2 ^ 20 mod 2) as ->.
  { pow_cst. destruct (Z.ltb_spec off 0); cbn [Z.b2z]; Z.div_mod_to_equations; lia. }
  change (2 ^ 1) with 2. change (2 ^ 6) with 64. change (2 ^ 11) with 2048.
  set (s := off / 2 ^ 20 mod 2). set (j1 := off / 2 ^ 18 mod 2). set (j2 := off / 2 ^ 19 mod 2).
  set (i6 := off / 2 ^ 12 mod 64). set (i11 := off / 2 mod 2048).
  assert (fits s 1 /\ fits j1 1 /\ fits j2 1 /\ fits i6 6 /\ fits i11 11) as (?&?&?&?&?).
  { repeat split; try lia; subst s j1 j2 i6 i11; pow_cst; Z.div_mod_to_equations; lia. }
  assert (fits cond 4) by (split; [lia|pow_cst; lia]).
  clearbody s j1 j2 i6 i11.
  transitivity (u32 (0xf0000000 .| (s << 26) .| (cond << 22) .| (i6 << 16) .| (1 << 15)
    .| (j1 << 13) .| (j2 << 11) .| i11)); [|lors].
  f_equal. change THUMB2_BW_COND_T3 with (0xf0000000 .| (1 << 15)). lor_ac.
Qed.

Lemma decode_bw_t3 off cond :
  0 <= cond < 14 -> - 2 ^ 20 <= off < 2 ^ 20 -> off mod 2 = 0 ->
  decode32 (_thumb32_BW_T3 off cond) = Some (AB cond off).
Proof.
  intros Hc Ho He. rewrite bw_t3_cat by done.
  set (s := off / 2 ^ 20 mod 2). set (j1 := off / 2 ^ 18 mod 2). set (j2 := off / 2 ^ 19 mod 2).
  set (i6 := off / 2 ^ 12 mod 64). set (i11 := off / 2 mod 2048).
  assert (fits s 1 /\ fits j1 1 /\ fits j2 1 /\ fits i6 6 /\ fits i11 11) as (?&?&?&?&?).
  { repeat split; try lia; subst s j1 j2 i6 i11; pow_cst; Z.div_mod_to_equations; lia. }
  assert (fits cond 4) by (split; [lia|pow_cst; lia]).
  assert (Es : sign_extend 21 ((s << 20) .| (j2 << 19) .| (j1 << 18) .| (i6 << 12) .| (i11 << 1))
    = off).
  { apply sign_extend_mod; [lia|exact Ho|].
    transitivity (cat (cat (cat (cat (cat s 1 j2) 1 j1) 6 i6) 11 i11) 1 0 mod 2 ^ 21).
    - f_equal. rewrite <- (Z.lor_0_r (_ .| _ .| _ .| _ .| _)). lors.
    - assert (off / 2 ^ 20 = off / 2 ^ 19 / 2 /\ off / 2 ^ 19 = off / 2 ^ 18 / 2 /\
        off / 2 ^ 18 = off / 2 ^ 12 / 64 /\ off / 2 ^ 12 = off / 2 / 2048) as (E1 & E2 & E3 & E4)
        by (rewrite !Z.div_div by lia; done).
      unfold cat. subst s j1 j2 i6 i11. rewrite E1, E2, E3, E4. set (h := off / 2).
      assert (Eo : off = 2 * h) by (unfold h; Z.div_mod_to_equations; lia).
      clearbody h. subst off. pow_cst. clear. Z.div_mod_to_equations. lia. }
  clearbody s j1 j2 i6 i11. unfold decode32. test_field 27 5 0x1e.
  unfold decode_branch. cbv zeta. fields. rewrite Es. cbn [Z.eqb Pos.eqb].
  destruct (Z.leb_spec 14 cond); [lia|]. reflexivity.
Qed.
