(* ===== verification/ArmFacts.v ===== *)
(** * Facts about the processor

    Runs of straight-line code at a place of a program ([code_at], [run_straight]),
    runs as sequences of steps ([star]) and their relation to [arm_run], and the
    stack as an array of words. *)
From stdpp Require Import base tactics numbers list.
From Stdlib Require Import ZArith Lia.
From S2P Require Import Prelude Inst VM Arm.
Local Open Scope Z_scope.
Local Open Scope bits_scope.

(** ** Fields of fields *)
Lemma field_div w lo n : 0 <= lo -> 0 <= n -> field w lo n = (w / 2 ^ lo) mod 2 ^ n.
Proof. intros. unfold field. now rewrite Z.land_ones, Z.shiftr_div_pow2 by lia. Qed.

Lemma field_field w a n b m :
  0 <= a -> 0 <= b -> 0 <= m -> b + m <= n -> field (field w a n) b m = field w (a + b) m.
Proof.
  intros. unfold field. rewrite Z.shiftr_land, Z.shiftr_shiftr by lia.
  rewrite <- Z.land_assoc. f_equal. apply Z.bits_inj'. intros k Hk.
  rewrite Z.land_spec, Z.shiftr_spec, !Z.testbit_ones_nonneg by lia.
  destruct (Z.ltb_spec k m); [|now rewrite andb_false_r].
  destruct (Z.ltb_spec (k + b) n); [done|lia].
Qed.

Lemma field_range w lo n : 0 <= n -> 0 <= field w lo n < 2 ^ n.
Proof. intros. unfold field. rewrite Z.land_ones by lia. apply Z.mod_pos_bound. lia. Qed.

(** The length of an instruction is as [is_wide] says. *)
Lemma decode32_wide w i : decode32 w = Some i -> (0x1d <=? field w 27 5) = true.
Proof.
  assert (F : forall a n v, 0 <= a <= 27 -> 5 + (27 - a) <= n -> field w a n = v ->
    field w 27 5 = field v (27 - a) 5).
  { intros a n v Ha Hn <-. rewrite field_field by lia. f_equal; lia. }
  unfold decode32. intros H.
  destruct (Z.eqb_spec (field w 27 5) 0x1e) as [->|_]; [done|].
  destruct (Z.eqb_spec (field w 25 7) 0x75) as [E|_]; [now rewrite (F 25 7 _ ltac:(lia) ltac:(lia) E)|].
  destruct (Z.eqb_spec (field w 25 7) 0x74) as [E|_]; [now rewrite (F 25 7 _ ltac:(lia) ltac:(lia) E)|].
  destruct (Z.eqb_spec (field w 25 7) 0x7c) as [E|_]; [now rewrite (F 25 7 _ ltac:(lia) ltac:(lia) E)|].
  destruct (Z.eqb_spec (field w 23 9) 0x1f4) as [E|_]; [now rewrite (F 23 9 _ ltac:(lia) ltac:(lia) E)|].
  destruct (Z.eqb_spec (field w 20 12) 0xfb0) as [E|_]; [now rewrite (F 20 12 _ ltac:(lia) ltac:(lia) E)|].
  destruct (Z.eqb_spec (field w 20 12) 0xfba) as [E|_]; [now rewrite (F 20 12 _ ltac:(lia) ltac:(lia) E)|].
  discriminate.
Qed.

Lemma decode16_narrow h i : decode16 h = Some i -> is_wide h = false.
Proof.
  unfold is_wide. assert (T : field h 13 3 = field (field h 11 5) 2 3)
    by (rewrite field_field by lia; f_equal; lia).
  assert (F : field h 12 4 = field (field h 11 5) 1 4) by (rewrite field_field by lia; f_equal; lia).
  assert (P : field h 11 5 = field (field h 9 7) 2 5) by (rewrite field_field by lia; f_equal; lia).
  pose proof (field_range h 11 5 ltac:(lia)) as Hr. change (2 ^ 5) with 32 in Hr.
  unfold decode16. intros H.
  destruct (Z.leb_spec 0x1d (field h 11 5)) as [Hw|]; [|done]. exfalso.
  assert (field h 11 5 = 0x1d \/ field h 11 5 = 0x1e \/ field h 11 5 = 0x1f) as E by lia.
  destruct_or! E; rewrite T, F, E in H; cbn in H;
    (destruct (Z.eqb_spec (field h 9 7) 0x5a) as [E'|]; [rewrite P, E' in E; discriminate|discriminate]).
Qed.

(** ** Bytes overwritten in a list *)
Lemma length_splice {A} off (xs l : list A) :
  (off + length xs <= length l)%nat -> length (splice off xs l) = length l.
Proof. intros H. unfold splice. rewrite !length_app, length_take, length_drop. lia. Qed.

Lemma slice_splice_eq {A} off (xs l : list A) :
  (off + length xs <= length l)%nat -> slice off (length xs) (splice off xs l) = xs.
Proof.
  intros H. unfold splice.
  assert (length (take off l) = off) as Hl by (rewrite length_take; lia).
  rewrite slice_app_r by lia. rewrite Hl, Nat.sub_diag, slice_app_l by lia.
  unfold slice. now rewrite drop_0, take_ge by lia.
Qed.

Lemma slice_splice_ne {A} off (xs l : list A) a n :
  (off + length xs <= length l)%nat -> (a + n <= length l)%nat ->
  (a + n <= off \/ off + length xs <= a)%nat ->
  slice a n (splice off xs l) = slice a n l.
Proof.
  intros H Ha Hd. unfold splice.
  assert (length (take off l) = off) as Hl by (rewrite length_take; lia).
  destruct Hd as [Hd|Hd].
  - rewrite slice_app_l by lia. rewrite <- (take_drop off l) at 2.
    now rewrite slice_app_l by lia.
  - rewrite !slice_app_r by lia. unfold slice. rewrite drop_drop. do 2 f_equal. lia.
Qed.

(** ** Straight-line code *)
Fixpoint decode_all (hs : list Z) : option (list ainst) :=
  match hs with
  | [] => Some []
  | h :: hs =>
      if is_wide h then
        match hs with
        | h2 :: hs =>
            i ← decode32 ((h << 16) .| h2); l ← decode_all hs; Some (i :: l)
        | [] => None
        end
      else i ← decode16 h; l ← decode_all hs; Some (i :: l)
  end.

Definition straight (i : ainst) : bool :=
  match i with AB _ _ => false | APop _ => false | _ => true end.

Fixpoint exec_all (l : list ainst) (st : arm) : res arm :=
  match l with
  | [] => Ok st
  | i :: l => st ← exec i st; exec_all l st
  end.

(** The two halfwords of a 32-bit instruction, as [emit4] writes them. *)
Definition wide (x : Z) : list Z := [u16 (u32 x >> 16); u16 (u16 x)].

Lemma wide_join x : (u16 (u32 x >> 16) << 16) .| u16 (u16 x) = u32 x.
Proof.
  rewrite Z.lor_comm, lor_shiftl_add by (lia || apply u16_range).
  rewrite Z.shiftr_div_pow2 by lia. clia.
Qed.

Lemma decode_all_wide x i hs l :
  decode32 (u32 x) = Some i -> decode_all hs = Some l ->
  decode_all (wide x ++ hs) = Some (i :: l).
Proof.
  intros Hi Hl. unfold wide. cbn [app decode_all].
  assert (is_wide (u16 (u32 x >> 16)) = true) as ->.
  { apply decode32_wide in Hi. unfold is_wide. rewrite <- Hi. f_equal.
    rewrite !field_div, Z.shiftr_div_pow2 by lia. clia. }
  rewrite wide_join, Hi. cbn. now rewrite Hl.
Qed.

Lemma decode_all_narrow h i hs l :
  decode16 h = Some i -> decode_all hs = Some l ->
  decode_all (h :: hs) = Some (i :: l).
Proof.
  intros Hi Hl. cbn [decode_all]. rewrite (decode16_narrow _ _ Hi), Hi. cbn. now rewrite Hl.
Qed.

Lemma decode_all_nil hs : decode_all hs = Some [] -> hs = [].
Proof.
  destruct hs as [|h hs]; [done|]. cbn [decode_all]. intros H. exfalso.
  destruct (is_wide h); [destruct hs as [|h2 hs]; [done|]; destruct (decode32 _)|
    destruct (decode16 _)]; try done; cbn in H; (destruct (decode_all hs); done).
Qed.

Lemma decode_all_cons hs i l :
  decode_all hs = Some (i :: l) ->
  exists h1 h2, hs = h1 ++ h2 /\ decode_all h1 = Some [i] /\ decode_all h2 = Some l.
Proof.
  destruct hs as [|h hs]; [done|]. cbn [decode_all]. intros H. destruct (is_wide h) eqn:Ew.
  - destruct hs as [|h2 hs]; [done|]. destruct (decode32 _) as [j|] eqn:Ej; [|done]. cbn in H.
    destruct (decode_all hs) eqn:E; [|done]. injection H as -> ->.
    exists [h; h2], hs. cbn [decode_all]. rewrite Ew, Ej. done.
  - destruct (decode16 _) as [j|] eqn:Ej; [|done]. cbn in H.
    destruct (decode_all hs) eqn:E; [|done]. injection H as -> ->.
    exists [h], hs. cbn [decode_all]. rewrite Ew, Ej. done.
Qed.

Lemma decode_all_app hs1 hs2 l1 l2 :
  decode_all hs1 = Some l1 -> decode_all hs2 = Some l2 ->
  decode_all (hs1 ++ hs2) = Some (l1 ++ l2).
Proof.
  intros H1 H2. revert l1 H1.
  induction hs1 as [hs1 IH] using (induction_ltof1 _ (@length Z)); unfold ltof in IH.
  intros l1 H1. destruct hs1 as [|h hs1]; cbn [decode_all app] in *.
  { injection H1 as <-. done. }
  destruct (is_wide h).
  - destruct hs1 as [|h2 hs1]; [done|]. cbn [app].
    destruct (decode32 _) as [i|]; [|done]. cbn in *.
    destruct (decode_all hs1) as [l|] eqn:E; [|done]. injection H1 as <-.
    rewrite (IH hs1) with (l1 := l); [done|cbn; lia|done].
  - destruct (decode16 _) as [i|]; [|done]. cbn in *.
    destruct (decode_all hs1) as [l|] eqn:E; [|done]. injection H1 as <-.
    rewrite (IH hs1) with (l1 := l); [done|cbn; lia|done].
Qed.

Lemma exec_all_app l1 l2 st : exec_all (l1 ++ l2) st = (st ← exec_all l1 st; exec_all l2 st).
Proof.
  revert st. induction l1 as [|i l1 IH]; intros st; cbn; [done|].
  destruct (exec i st); cbn; [apply IH|done|done].
Qed.

(** A straight instruction neither reads nor writes the PC. *)
Definition lift_pc (p : Z) (r : res arm) : res arm := st ← r; Ok (set_pc st p).

Lemma store_regs_pc rs a st p :
  store_regs (set_pc st p) rs a = lift_pc p (store_regs st rs a).
Proof.
  revert a st. induction rs as [|r rs IH]; intros a st; [done|]. cbn.
  unfold rget. cbn [R set_pc M]. destruct (R st !! r); cbn; [|done].
  destruct (mstore _ _ _ _); cbn; [|done|done].
  change (set_mem (set_pc st p) a0) with (set_pc (set_mem st a0) p). apply IH.
Qed.

Lemma exec_pc i st p : straight i = true -> exec i (set_pc st p) = lift_pc p (exec i st).
Proof.
  intros Hi. destruct i; try discriminate Hi; unfold lift_pc; cbn [exec]; unfold rget;
    cbn [R set_pc M CF VF];
    repeat (match goal with
      | |- context [of_option ?e ?o] => destruct o; cbn [of_option mbind res_bind]
      | |- context [shift_c ?a ?b ?c] => destruct (shift_c a b c)
      | |- context [add_with_carry ?a ?b ?c] => destruct (add_with_carry a b c) as [[??]?]
      | |- context [mload ?a ?b ?c] => destruct (mload a b c); cbn [mbind res_bind]
      | |- context [mstore ?a ?b ?c ?d] => destruct (mstore a b c d); cbn [mbind res_bind]
      | |- context [aligned ?a] => destruct (aligned a); cbn [mbind res_bind]
      | |- context [store_regs (set_pc _ _) _ _] => rewrite store_regs_pc; unfold lift_pc
      | |- context [store_regs ?a ?b ?c] => destruct (store_regs a b c); cbn [mbind res_bind]
      end; try reflexivity);
    unfold put_result;
    repeat match goal with o : dp_op |- _ => destruct o | b : bool |- _ => destruct b end;
    reflexivity.
Qed.

Lemma exec_all_pc l st p :
  forallb straight l = true -> exec_all l (set_pc st p) = lift_pc p (exec_all l st).
Proof.
  revert st. induction l as [|i l IH]; intros st Hl; [done|]. cbn in *.
  apply andb_prop in Hl as [Hi Hl]. rewrite exec_pc by done. unfold lift_pc.
  destruct (exec i st); cbn; [|done|done]. now rewrite IH.
Qed.

Section Star.
  Variable base : Z.
  Variable code : list Z.

(** The halfwords [hs] are in the code at [pos]. *)
Definition code_at (pos : Z) (hs : list Z) : Prop :=
  0 <= pos /\ pos + 2 * Z.of_nat (length hs) <= Z.of_nat (length code) /\
  forall k h, hs !! k = Some h -> fetch16 code (pos + 2 * Z.of_nat k) = Some h.

Lemma code_at_app pos hs1 hs2 :
  code_at pos (hs1 ++ hs2) ->
  code_at pos hs1 /\ code_at (pos + 2 * Z.of_nat (length hs1)) hs2.
Proof.
  intros (H0 & H1 & H). rewrite length_app in H1. repeat split; try lia.
  - intros k h Hk. apply H. now apply lookup_app_l_Some.
  - intros k h Hk. rewrite <- Z.add_assoc, <- Z.mul_add_distr_l, <- Nat2Z.inj_add. apply H.
    rewrite lookup_app_r by lia. now replace (length hs1 + k - length hs1)%nat with k by lia.
Qed.

(** [n] steps lead from one state to another. *)
Inductive star : nat -> arm -> arm -> Prop :=
| star_refl st : star 0 st st
| star_step n st st1 st2 :
    arm_step base code st = Ok st1 -> star n st1 st2 -> star (S n) st st2.

Lemma star_one st st' : arm_step base code st = Ok st' -> star 1 st st'.
Proof. intros. eapply star_step; [done|apply star_refl]. Qed.

Lemma star_trans n1 n2 st1 st2 st3 : star n1 st1 st2 -> star n2 st2 st3 -> star (n1 + n2) st1 st3.
Proof. induction 1; intros; [done|]. cbn. eapply star_step; eauto. Qed.

(** Every state from which a step is made has its PC in the code. *)
Lemma arm_step_in st st' :
  arm_step base code st = Ok st' -> base <= PC st < base + Z.of_nat (length code).
Proof.
  unfold arm_step, fetch16. set (pos := PC st - base). destruct ((0 <=? pos) && _) eqn:E; cbn; intros H; [clear H|discriminate H].
  rewrite andb_true_iff, !Z.leb_le in E. lia.
Qed.

Lemma star_run n st st' ret fuel :
  star n st st' -> PC st' = ret -> ~ (base <= ret < base + Z.of_nat (length code)) ->
  (n < fuel)%nat -> arm_run base code ret fuel st = Ok st'.
Proof.
  intros Hs He Hr. revert fuel. induction Hs as [st|n st st1 st2 H1 H2 IH]; intros fuel Hf;
    (destruct fuel as [|fuel]; [lia|]); cbn [arm_run].
  - now rewrite He, Z.eqb_refl.
  - apply arm_step_in in H1 as Hin. destruct (Z.eqb_spec (PC st) ret); [lia|].
    rewrite H1. cbn. apply IH; [done|lia].
Qed.

(** A step at a decoded instruction. *)
Lemma arm_step_at st pos hs i :
  code_at pos hs -> PC st = base + pos -> decode_all hs = Some [i] ->
  arm_step base code st = exec i (set_pc st (base + pos + 2 * Z.of_nat (length hs))).
Proof.
  intros (H0 & H1 & H) Hp Hd. unfold arm_step. rewrite Hp.
  replace (base + pos - base) with pos by lia.
  destruct hs as [|h hs]; [done|]. cbn [decode_all] in Hd.
  pose proof (H 0%nat h eq_refl) as F. rewrite Z.mul_0_r, Z.add_0_r in F. rewrite F.
  cbn [of_option mbind res_bind].
  destruct (is_wide h).
  - destruct hs as [|h2 hs]; [done|]. pose proof (H 1%nat h2 eq_refl) as F2.
    change (2 * Z.of_nat 1) with 2 in F2. rewrite F2. cbn [of_option mbind res_bind].
    destruct (decode32 _) as [j|]; [|done]. cbn in Hd |- *.
    destruct (decode_all hs) eqn:E; [|done]. injection Hd as -> ->.
    now rewrite (decode_all_nil _ E).
  - destruct (decode16 _) as [j|]; [|done]. cbn in Hd |- *.
    destruct (decode_all hs) eqn:E; [|done]. injection Hd as -> ->.
    now rewrite (decode_all_nil _ E).
Qed.

(** ** Triples

    From a state of [P] at the start of the halfwords, the processor comes to their
    end in a state of [Q], in at most as many steps as there are halfwords. *)
Definition runs (P : arm -> Prop) (hs : list Z) (Q : arm -> Prop) : Prop :=
  forall pos st, code_at pos hs -> PC st = base + pos -> P st ->
  exists n st', (n <= length hs)%nat /\ star n st st' /\
    PC st' = base + pos + 2 * Z.of_nat (length hs) /\ Q st'.

Lemma runs_nil (P : arm -> Prop) : runs P [] P.
Proof. intros pos st _ Hp HP. exists 0%nat, st. repeat split; [lia|apply star_refl|cbn; lia|done]. Qed.

Lemma runs_app P hs1 Q hs2 (S : arm -> Prop) : runs P hs1 Q -> runs Q hs2 S -> runs P (hs1 ++ hs2) S.
Proof.
  intros H1 H2 pos st [Hc1 Hc2]%code_at_app Hp HP.
  destruct (H1 pos st Hc1 Hp HP) as (n1 & st1 & Hn1 & Hs1 & Hp1 & HQ).
  destruct (H2 _ st1 Hc2 ltac:(lia) HQ) as (n2 & st2 & Hn2 & Hs2 & Hp2 & HS).
  exists (n1 + n2)%nat, st2. rewrite length_app. repeat split; [lia| |lia|done].
  eauto using star_trans.
Qed.

Lemma runs_weaken (P P' Q Q' : arm -> Prop) hs :
  (forall st, P' st -> P st) -> (forall st, Q st -> Q' st) -> runs P hs Q -> runs P' hs Q'.
Proof.
  intros HP HQ H pos st Hc Hp Hst. destruct (H pos st Hc Hp (HP _ Hst)) as (n & st' & ?&?&?&?).
  exists n, st'. auto.
Qed.

Lemma runs_one (P Q : arm -> Prop) hs i :
  decode_all hs = Some [i] -> straight i = true ->
  (forall st p, P st -> exists st', exec i st = Ok st' /\ Q (set_pc st' p)) -> runs P hs Q.
Proof.
  intros Hd Hi H pos st Hc Hp HP. set (p := base + pos + 2 * Z.of_nat (length hs)).
  destruct (H st p HP) as (st' & He & HQ). exists 1%nat, (set_pc st' p). repeat split; [|..|done].
  - destruct hs; [done|cbn; lia].
  - apply star_one. rewrite (arm_step_at st pos hs i Hc Hp Hd). rewrite exec_pc by done.
    now rewrite He.
Qed.

(** Several instructions without a branch. *)
Lemma runs_straight (P Q : arm -> Prop) hs l :
  decode_all hs = Some l -> forallb straight l = true ->
  (forall st p, P st -> exists st', exec_all l st = Ok st' /\ Q (set_pc st' p)) -> runs P hs Q.
Proof.
  revert P hs. induction l as [|i l IH]; intros P hs Hd Hs H.
  { rewrite (decode_all_nil _ Hd). intros pos st _ Hp HP.
    destruct (H st (PC st) HP) as (st' & [= <-] & HQ). exists 0%nat, st.
    repeat split; [lia|apply star_refl|cbn; lia|]. now destruct st. }
  destruct (decode_all_cons _ _ _ Hd) as (h1 & h2 & -> & Hi & Hl).
  cbn in Hs. apply andb_prop in Hs as [Hsi Hsl].
  apply runs_app with (fun st => exists st', P st' /\
    exists st1 p, exec i st' = Ok st1 /\ st = set_pc st1 p).
  - apply (runs_one _ _ _ i Hi Hsi). intros st p HP. destruct (H st p HP) as (st' & He & _).
    cbn in He. apply bind_Ok in He as (st1 & He1 & _). exists st1. eauto 10.
  - apply (IH _ h2 Hl Hsl). intros st p (st0 & HP & st1 & p1 & He & ->).
    destruct (H st0 p HP) as (st' & He' & HQ). cbn in He'. rewrite He in He'. cbn in He'.
    exists (set_pc st' p1). split; [|now destruct st'].
    rewrite (exec_all_pc l st1 p1 Hsl), He'. done.
Qed.
End Star.
