(* ===== verification/JitLogic.v ===== *)
(** * A program logic for the emitters

    [emits P m Q]: the code that the emitter [m] appends takes the processor from
    the states of [P] to those of [Q]. The states of the processor inside of the
    generated function are described by one function ([rep]) from locations to
    words, where a location is a processor register or, when negative, a slot of the
    scratch space below the frame pointer, as in the compiler's register map. *)
From stdpp Require Import base tactics numbers list.
From Stdlib Require Import ZArith Lia.
From S2P Require Import Prelude Inst VM VMFacts Thumb2 Arm Jit Thumb2Facts ArmFacts.
Local Open Scope Z_scope.
Local Open Scope bits_scope.

(** ** The frame of the generated function *)

(** The frame pointer, the monitor state in memory, the stack of the processor, the
    words that the prologue pushed, and r10, which the code does not use. *)
Record frame := Frame {
  f_fp : Z;
  f_mem : Z;  f_bytes : list Z;
  f_stk : Z;  f_len : nat;
  f_saved : list Z;
  f_r10 : Z;
}.

Record frame_ok (F : frame) : Prop := FrameOk {
  fp_align : f_fp F mod 4 = 0;
  fp_low : f_stk F <= f_fp F - EBPF_STACK_SIZE;
  fp_high : f_fp F + 32 <= f_stk F + Z.of_nat (f_len F);
  stk_low : 0 <= f_stk F;
  stk_high : f_stk F + Z.of_nat (f_len F) <= 2 ^ 32;
  mem_align : f_mem F mod 4 = 0;
  mem_low : 0 <= f_mem F;
  mem_high : f_mem F + Z.of_nat (length (f_bytes F)) <= 2 ^ 32;
  mem_disjoint : f_mem F + Z.of_nat (length (f_bytes F)) <= f_stk F \/
                 f_stk F + Z.of_nat (f_len F) <= f_mem F;
  saved_len : length (f_saved F) = 8%nat;
  mem_is_bytes : Forall (fun b => is_byte b = true) (f_bytes F);
}.

Definition slot (z : Z) : Prop := -80 <= z <= -4 /\ z mod 4 = 0.
Definition loc (z : Z) : Prop := slot z \/ 0 <= z < 15.
Definition word (v : Z) : Prop := 0 <= v < 2 ^ 32.

Definition upd (f : Z -> Z) (z v : Z) : Z -> Z := fun x => if x =? z then v else f x.

Lemma upd_eq f z v : upd f z v z = v.
Proof. unfold upd. now rewrite Z.eqb_refl. Qed.
Lemma upd_ne f z v x : x <> z -> upd f z v x = f x.
Proof. unfold upd. intros. now destruct (Z.eqb_spec x z). Qed.

Section Rep.
  Variable F : frame.

(** The objects in memory; only the contents of the stack change. *)
Record shape (m : memory) : Prop := Shape {
  sh_mem : mem_base m = f_mem F;
  sh_bytes : mem_bytes m = f_bytes F;
  sh_stk : stk_base m = f_stk F;
  sh_len : length (stk_bytes m) = f_len F;
}.

Record rep (f : Z -> Z) (st : arm) : Prop := Rep {
  rep_len : length (R st) = 15%nat;
  rep_reg : forall r, (r < 15)%nat -> R st !! r = Some (f (Z.of_nat r));
  rep_slot : forall z, slot z -> mload (M st) (f_fp F + z) 4 = Ok (f z);
  rep_saved : forall k v, f_saved F !! k = Some v ->
    mload (M st) (f_fp F + 4 * Z.of_nat k) 4 = Ok v;
  rep_word : forall z, loc z -> word (f z);
  rep_fp : f 11 = f_fp F;
  rep_sp : f 13 = f_fp F - EBPF_STACK_SIZE;
  rep_r10 : f 10 = f_r10 F;
  rep_mem : shape (M st);
}.

(** ** States that represent a function *)
Lemma rep_ext f g st : (forall z, loc z -> f z = g z) -> rep f st -> rep g st.
Proof.
  intros E []. constructor; auto.
  - intros r Hr. rewrite <- E; [auto|right; lia].
  - intros z Hz. rewrite <- E; [auto|now left].
  - intros z Hz. rewrite <- E; auto.
  - rewrite <- E; [auto|right; lia].
  - rewrite <- E; [auto|right; lia].
  - rewrite <- E; [auto|right; lia].
Qed.

Lemma rep_set_pc f st p : rep f st -> rep f (set_pc st p).
Proof. intros []. now constructor. Qed.

Lemma rep_set_flags f st v c o : rep f st -> rep f (set_flags st v c o).
Proof. intros []. now constructor. Qed.

Lemma rep_rset f st d v :
  rep f st -> (d < 15)%nat -> d <> 10%nat -> d <> 11%nat -> d <> 13%nat -> word v ->
  rep (upd f (Z.of_nat d) v) (rset st d v).
Proof.
  intros [] Hd H10 H11 H13 Hv. constructor; cbn [R M rset]; auto.
  - now rewrite length_insert.
  - intros r Hr. destruct (decide (r = d)) as [->|Hne].
    + rewrite upd_eq. apply list_lookup_insert_eq. lia.
    + rewrite upd_ne, list_lookup_insert_ne by lia. auto.
  - intros z Hz. rewrite upd_ne by (unfold slot in Hz; lia). auto.
  - intros z Hz. unfold upd. destruct (_ =? _); auto.
  - rewrite upd_ne by lia. done.
  - rewrite upd_ne by lia. done.
  - rewrite upd_ne by lia. done.
Qed.

Lemma rep_put f st s d v c o :
  rep f st -> (d < 15)%nat -> d <> 10%nat -> d <> 11%nat -> d <> 13%nat -> word v ->
  rep (upd f (Z.of_nat d) v) (put_result st s d (v, c, o)).
Proof. intros. unfold put_result. destruct s; auto using rep_set_flags, rep_rset. Qed.

Lemma rep_rget f st r : rep f st -> (r < 15)%nat -> rget st r = Ok (f (Z.of_nat r)).
Proof. intros [] Hr. unfold rget. now rewrite rep_reg0. Qed.

End Rep.

(** ** The scratch space *)
Section Slots.
  Variable F : frame.
  Hypothesis HF : frame_ok F.

(** The part of the stack that the function owns. *)
Lemma stack_word z :
  - EBPF_STACK_SIZE <= z <= 28 ->
  0 <= f_fp F + z /\ f_fp F + z + 4 <= 2 ^ 32 /\
  in_region (f_mem F) (f_bytes F) (f_fp F + z) 4 = false /\
  f_stk F <= f_fp F + z /\ f_fp F + z + 4 <= f_stk F + Z.of_nat (f_len F).
Proof.
  unfold EBPF_STACK_SIZE. intros Hz. destruct HF. unfold in_region, EBPF_STACK_SIZE in *.
  repeat split; lia.
Qed.

Lemma mload_stack m z :
  - EBPF_STACK_SIZE <= z <= 28 -> shape F m ->
  mload m (f_fp F + z) 4 =
  Ok (le_val (slice (Z.to_nat (f_fp F + z - f_stk F)) 4 (stk_bytes m))).
Proof.
  intros Hz [E1 E2 E3 E4]. destruct (stack_word z Hz) as (_ & _ & Hm & Hl & Hh).
  unfold mload. rewrite E1, E2, Hm, E3. unfold in_region.
  rewrite E4, (proj2 (Z.leb_le _ _) Hl), (proj2 (Z.leb_le _ _) Hh). done.
Qed.

(** A word stored on the stack. *)
Lemma mem_store m z v :
  shape F m -> - EBPF_STACK_SIZE <= z <= 28 -> word v ->
  exists m', mstore m (f_fp F + z) 4 v = Ok m' /\ shape F m' /\
    mload m' (f_fp F + z) 4 = Ok v /\
    forall y, - EBPF_STACK_SIZE <= y <= 28 -> y + 4 <= z \/ z + 4 <= y ->
      mload m' (f_fp F + y) 4 = mload m (f_fp F + y) 4.
Proof.
  intros Hs Hz Hv. pose proof Hs as [E1 E2 E3 E4].
  destruct (stack_word z Hz) as (_ & _ & Hm & Hl & Hh).
  set (off := Z.to_nat (f_fp F + z - f_stk F)).
  set (bs := splice off (le_bytes 4 v) (stk_bytes m)).
  assert (Hoff : (off + length (le_bytes 4 v) <= length (stk_bytes m))%nat)
    by (rewrite length_le_bytes; lia).
  assert (Hs' : shape F (Memory (f_mem F) (f_bytes F) (f_stk F) bs))
    by (constructor; cbn; [done..|]; unfold bs; now rewrite length_splice).
  eexists. split.
  { unfold mstore. rewrite E1, E2, Hm, E3. unfold in_region.
    rewrite E4, (proj2 (Z.leb_le _ _) Hl), (proj2 (Z.leb_le _ _) Hh). cbn [andb].
    change (Z.to_nat 4) with 4%nat. fold off bs. reflexivity. }
  split; [exact Hs'|]. split.
  - rewrite mload_stack by done. cbn [stk_bytes]. fold off. f_equal.
    pose proof (slice_splice_eq _ _ _ Hoff) as Hsl. rewrite length_le_bytes in Hsl.
    unfold bs. rewrite Hsl, le_val_le_bytes. apply Z.mod_small. exact Hv.
  - intros y Hy Hd. rewrite !mload_stack by done. cbn [stk_bytes]. do 2 f_equal.
    destruct (stack_word y Hy) as (_ & _ & _ & ? & ?).
    apply slice_splice_ne; rewrite ?length_le_bytes in *; lia.
Qed.

Lemma rep_store f st z v :
  rep F f st -> slot z -> word v ->
  exists m, mstore (M st) (f_fp F + z) 4 v = Ok m /\ rep F (upd f z v) (set_mem st m).
Proof.
  intros [] [Hz Ha] Hv.
  destruct (mem_store (M st) z v rep_mem0) as (m & Hm & Hs & Hl & Ho);
    [unfold EBPF_STACK_SIZE; lia|done|].
  exists m. split; [done|]. constructor; cbn [R M set_mem]; auto.
  - intros r Hr. rewrite upd_ne by lia. auto.
  - intros y [Hy Hya]. destruct (decide (y = z)) as [->|Hne]; [now rewrite upd_eq|].
    rewrite upd_ne, Ho by (done || (unfold EBPF_STACK_SIZE; lia) || (Z.div_mod_to_equations; lia)).
    now apply rep_slot0.
  - intros k x Hk. rewrite Ho; [now apply rep_saved0|..];
      apply lookup_lt_Some in Hk; destruct HF; unfold EBPF_STACK_SIZE; lia.
  - intros y Hy. unfold upd. destruct (_ =? _); auto.
  - rewrite upd_ne by lia. done.
  - rewrite upd_ne by lia. done.
  - rewrite upd_ne by lia. done.
Qed.
End Slots.

(** ** Instructions on a represented state *)

(** A register that the code may write, and one that it may read. *)
Definition wreg (d : Z) : Prop := 0 <= d < 15 /\ d <> 10 /\ d <> 11 /\ d <> 13.
Definition rreg (r : Z) : Prop := 0 <= r < 15.

(** A word, halfword or byte of the monitor state. *)
Definition state_load (F : frame) (off size : Z) : Z :=
  le_val (slice (Z.to_nat off) (Z.to_nat size) (f_bytes F)).

Lemma state_load_bound F off size :
  frame_ok F -> 0 <= size -> 0 <= off -> off + size <= Z.of_nat (length (f_bytes F)) ->
  0 <= state_load F off size < 2 ^ (8 * size).
Proof.
  intros HF Hs Ho Hl. unfold state_load. pose proof (le_val_bound (slice (Z.to_nat off) (Z.to_nat size) (f_bytes F))) as H.
  rewrite length_slice in H by lia. rewrite Z2Nat.id in H by lia. apply H, slice_bytes, HF.
Qed.

Lemma mload_state F m off size :
  frame_ok F -> mem_base m = f_mem F -> mem_bytes m = f_bytes F ->
  0 <= off -> off + size <= Z.of_nat (length (f_bytes F)) ->
  mload m (f_mem F + off) size = Ok (state_load F off size).
Proof.
  intros HF E1 E2 Ho Hl. unfold mload, in_region. rewrite E1, E2.
  destruct (_ && _) eqn:E; [|lia]. unfold state_load. do 4 f_equal. lia.
Qed.

Section Instr.
  Variable F : frame.
  Hypothesis HF : frame_ok F.
  Variables (f : Z -> Z) (st : arm).
  Hypothesis Hst : rep F f st.

Lemma rep_get r : rreg r -> rget st (Z.to_nat r) = Ok (f r).
Proof.
  intros Hr. rewrite (rep_rget F f) by (done || (unfold rreg in Hr; lia)).
  f_equal. f_equal. unfold rreg in Hr. lia.
Qed.

Lemma rep_set s d v c o :
  wreg d -> word v -> rep F (upd f d v) (put_result st s (Z.to_nat d) (v, c, o)).
Proof.
  intros Hd Hv. replace (upd f d v) with (upd f (Z.of_nat (Z.to_nat d)) v)
    by (f_equal; unfold wreg in Hd; lia).
  apply rep_put; unfold wreg in Hd; auto; lia.
Qed.

Lemma rep_rset' d v : wreg d -> word v -> rep F (upd f d v) (rset st (Z.to_nat d) v).
Proof. intros. now apply (rep_set false d v false false). Qed.

Lemma rep_is_word z : loc z -> word (f z).
Proof. apply (rep_word _ _ _ Hst). Qed.

Lemma exec_mov_imm s d v :
  wreg d -> word v ->
  exists st', exec (AMovImm s (Z.to_nat d) v) st = Ok st' /\ rep F (upd f d v) st'.
Proof. intros. eexists. split; [reflexivity|]. now apply rep_set. Qed.

Lemma exec_movt d v :
  wreg d -> 0 <= v < 2 ^ 16 ->
  exists st', exec (AMovt (Z.to_nat d) v) st = Ok st' /\
    rep F (upd f d (f d mod 2 ^ 16 + v * 2 ^ 16)) st'.
Proof.
  intros Hd Hv. cbn [exec]. rewrite rep_get by (unfold rreg, wreg in *; lia). cbn.
  eexists. split; [reflexivity|].
  replace ((f d .& 0xffff) .| (v << 16)) with (f d mod 2 ^ 16 + v * 2 ^ 16).
  - apply rep_rset'; [done|]. unfold word. pow_cst. Z.div_mod_to_equations. lia.
  - change 0xffff with (Z.ones 16). rewrite Z.land_ones, lor_shiftl_add by (lia || (apply Z.mod_pos_bound; lia)).
    done.
Qed.

Lemma exec_mov s d m sh v :
  wreg d -> rreg m -> fst (shift_c (f m) sh (CF st)) = v -> word v ->
  exists st', exec (AMov s (Z.to_nat d) (Z.to_nat m) sh) st = Ok st' /\ rep F (upd f d v) st'.
Proof.
  intros Hd Hm Hv Hw. cbn [exec]. rewrite rep_get by done. cbn.
  destruct (shift_c _ _ _) as [x c]. cbn in Hv. subst x. eexists. split; [reflexivity|].
  now apply rep_set.
Qed.

Lemma exec_ldr size t n off v :
  wreg t -> rreg n -> mload (M st) (u32 (f n + off)) size = Ok v -> word v ->
  exists st', exec (ALdr size (Z.to_nat t) (Z.to_nat n) off) st = Ok st' /\ rep F (upd f t v) st'.
Proof.
  intros Ht Hn Hv Hw. cbn [exec]. rewrite rep_get by done. cbn. rewrite Hv. cbn.
  eexists. split; [reflexivity|]. now apply rep_rset'.
Qed.

Lemma slot_addr z : slot z -> u32 (f 11 + z) = f_fp F + z /\ (f_fp F + z) mod 4 = 0.
Proof.
  intros [Hz Ha]. rewrite (rep_fp _ _ _ Hst).
  destruct (stack_word F HF z ltac:(unfold EBPF_STACK_SIZE; lia)) as (? & ? & _).
  split; [apply u32_small; lia|]. pose proof (fp_align F HF). Z.div_mod_to_equations. lia.
Qed.

Lemma exec_ldrd_slot t t2 z :
  wreg t -> wreg t2 -> slot z -> slot (z + 4) ->
  exists st', exec (ALdrd (Z.to_nat t) (Z.to_nat t2) (Z.to_nat 11) z) st = Ok st' /\
    rep F (upd (upd f t (f z)) t2 (f (z + 4))) st'.
Proof.
  intros Ht Ht2 Hz Hz4. cbn [exec]. rewrite (rep_get 11) by (unfold rreg; lia). cbn.
  destruct (slot_addr z Hz) as [-> Hal]. destruct (slot_addr (z + 4) Hz4) as [E _].
  rewrite (rep_fp _ _ _ Hst) in E. unfold aligned. rewrite Hal. cbn.
  rewrite (rep_slot _ _ _ Hst z Hz). cbn. rewrite <- Z.add_assoc, E.
  rewrite (rep_slot _ _ _ Hst _ Hz4). cbn. eexists. split; [reflexivity|].
  assert (H : rep F (upd f t (f z)) (rset st (Z.to_nat t) (f z)))
    by (apply rep_rset'; [done|apply rep_is_word; now left]).
  replace (upd (upd f t (f z)) t2 (f (z + 4)))
    with (upd (upd f t (f z)) (Z.of_nat (Z.to_nat t2)) (f (z + 4)))
    by (f_equal; unfold wreg in *; lia).
  apply rep_rset; [done| | | | |apply rep_is_word; now left]; unfold wreg in *; lia.
Qed.

Lemma exec_strd_slot t t2 z :
  rreg t -> rreg t2 -> slot z -> slot (z + 4) ->
  exists st', exec (AStrd (Z.to_nat t) (Z.to_nat t2) (Z.to_nat 11) z) st = Ok st' /\
    rep F (upd (upd f z (f t)) (z + 4) (f t2)) st'.
Proof.
  intros Ht Ht2 Hz Hz4. cbn [exec]. rewrite (rep_get 11) by (unfold rreg; lia). cbn.
  destruct (slot_addr z Hz) as [-> Hal]. destruct (slot_addr (z + 4) Hz4) as [E _].
  rewrite (rep_fp _ _ _ Hst) in E. unfold aligned. rewrite Hal. cbn.
  rewrite !rep_get by done. cbn.
  destruct (rep_store F HF f st z (f t) Hst Hz) as (m & Hm & Hr); [apply rep_is_word; now right|].
  rewrite Hm. cbn. rewrite <- Z.add_assoc, E.
  destruct (rep_store F HF _ _ (z + 4) (f t2) Hr Hz4) as (m2 & Hm2 & Hr2);
    [apply rep_is_word; now right|].
  cbn [M set_mem] in Hm2. rewrite Hm2. cbn. eexists. split; [reflexivity|]. exact Hr2.
Qed.

Lemma exec_str_slot t z :
  rreg t -> slot z ->
  exists st', exec (AStr 4 (Z.to_nat t) (Z.to_nat 11) z) st = Ok st' /\ rep F (upd f z (f t)) st'.
Proof.
  intros Ht Hz. cbn [exec]. rewrite (rep_get 11) by (unfold rreg; lia). cbn.
  destruct (slot_addr z Hz) as [-> _]. rewrite rep_get by done. cbn.
  destruct (rep_store F HF f st z (f t) Hst Hz) as (m & Hm & Hr); [apply rep_is_word; now right|].
  rewrite Hm. cbn. eauto.
Qed.

Lemma exec_ldr_slot t z :
  wreg t -> slot z ->
  exists st', exec (ALdr 4 (Z.to_nat t) (Z.to_nat 11) z) st = Ok st' /\ rep F (upd f t (f z)) st'.
Proof.
  intros Ht Hz. apply exec_ldr; [done|unfold rreg; lia| |apply rep_is_word; now left].
  destruct (slot_addr z Hz) as [-> _]. now apply (rep_slot _ _ _ Hst).
Qed.

Lemma exec_dp op s d n m sh r :
  wreg d -> rreg n -> rreg m ->
  dp_result st op (f n) (fst (shift_c (f m) sh (CF st))) (snd (shift_c (f m) sh (CF st))) = r ->
  word r.1.1 ->
  exists st', exec (ADp op s (Z.to_nat d) (Z.to_nat n) (Z.to_nat m) sh) st = Ok st' /\
    rep F (upd f d r.1.1) st' /\ (s = true -> CF st' = r.1.2).
Proof.
  intros Hd Hn Hm Hr Hw. cbn [exec]. rewrite !rep_get by done. cbn.
  destruct (shift_c _ _ _) as [x c]. cbn in Hr. rewrite Hr. destruct r as [[v c'] o].
  eexists. split; [reflexivity|]. split; [now apply rep_set|]. intros ->. reflexivity.
Qed.
End Instr.

(** ** Triples of emitters *)
Lemma advance_app s l1 l2 : advance s (l1 ++ l2) = advance (advance s l1) l2.
Proof.
  unfold advance, set_idx. cbn [prog inst_num jit_code code_addr code_ptr idx epilogue_at offsets needGen call_word].
  rewrite length_app. f_equal. lia.
Qed.

Section Emits.
  Variables (base : Z) (code : list Z) (F : frame).

Definition emits {A} (P : arm -> Prop) (m : J A) (Q : A -> arm -> Prop) : Prop :=
  forall s hs a, m s = Ok (hs, a) -> runs base code P hs (Q a).

(** The emitter returns [a] and takes the locations from [f] to [g]. *)
Definition emits_fn {A} (f : Z -> Z) (m : J A) (a : A) (g : Z -> Z) : Prop :=
  emits (rep F f) m (fun b st => b = a /\ rep F g st).

Lemma emits_ret {A} (P : arm -> Prop) (a : A) : emits P (mret a) (fun b st => b = a /\ P st).
Proof.
  intros s hs b [= <- <-]. apply (runs_weaken base code P P P); [done|naive_solver|apply runs_nil].
Qed.

Lemma emits_bind {A B} (P : arm -> Prop) (m : J A) Q (k : A -> J B) (S : B -> arm -> Prop) :
  emits P m Q -> (forall a, emits (Q a) (k a) S) -> emits P (m ≫= k) S.
Proof.
  intros Hm Hk s hs b E. unfold mbind, J_bind in E.
  destruct (m s) as [[l1 a]| |] eqn:E1; try done.
  destruct (k a _) as [[l2 b']| |] eqn:E2; try done. injection E as <- <-.
  eapply runs_app; [exact (Hm _ _ _ E1)|exact (Hk _ _ _ _ E2)].
Qed.

Lemma emits_weaken {A} (P P' : arm -> Prop) (m : J A) (Q Q' : A -> arm -> Prop) :
  (forall st, P' st -> P st) -> (forall a st, Q a st -> Q' a st) ->
  emits P m Q -> emits P' m Q'.
Proof. intros HP HQ H s hs a E. eapply runs_weaken; [exact HP|apply HQ|exact (H _ _ _ E)]. Qed.

Lemma emits_pure {A} (phi : Prop) (P : arm -> Prop) (m : J A) Q :
  (phi -> emits P m Q) -> emits (fun st => phi /\ P st) m Q.
Proof. intros H s hs a E pos st Hc Hp [Hphi HP]. exact (H Hphi s hs a E pos st Hc Hp HP). Qed.

Lemma emits_ex {A X} (P : X -> arm -> Prop) (m : J A) Q :
  (forall x, emits (P x) m Q) -> emits (fun st => exists x, P x st) m Q.
Proof. intros H s hs a E pos st Hc Hp [x HP]. exact (H x s hs a E pos st Hc Hp HP). Qed.

Lemma emits_assume {A} (P : arm -> Prop) (m : J A) Q :
  (forall st, P st -> emits P m Q) -> emits P m Q.
Proof. intros H s hs a E pos st Hc Hp HP. exact (H st HP s hs a E pos st Hc Hp HP). Qed.

Lemma emits_lift {A} (P : arm -> Prop) (r : res A) :
  emits P (lift r) (fun a st => r = Ok a /\ P st).
Proof.
  intros s hs a E. unfold lift in E. destruct r as [x| |]; try done. injection E as <- <-.
  apply (runs_weaken base code P P P); [done|naive_solver|apply runs_nil].
Qed.

Lemma emits_fn_ret {A} f (a : A) : emits_fn f (mret a) a f.
Proof. apply emits_ret. Qed.

Lemma emits_fn_bind {A B} f (m : J A) a g (k : A -> J B) Q :
  emits_fn f m a g -> emits (rep F g) (k a) Q -> emits (rep F f) (m ≫= k) Q.
Proof.
  intros Hm Hk. eapply emits_bind; [exact Hm|]. intros b. apply emits_pure. now intros ->.
Qed.

Lemma emits_fn_end f (m : J ()) g Q :
  emits_fn f m () g -> (forall st, rep F g st -> Q () st) -> emits (rep F f) m Q.
Proof. intros H HQ. eapply emits_weaken; [done| |exact H]. intros [] st [_ ?]. auto. Qed.

Lemma emits_fn_unit f (m : J ()) g : emits (rep F f) m (fun _ => rep F g) -> emits_fn f m () g.
Proof. intros H. eapply emits_weaken; [done| |exact H]. now intros []. Qed.

(** ** From decoded instructions to triples *)

(** What the processor reads from the code of an emitter. *)
Definition decodes {A} (m : J A) (l : list ainst) : Prop :=
  forall s hs a, m s = Ok (hs, a) -> decode_all hs = Some l.

Definition decodes_b {A} (m : J A) (l : list ainst) (s : jit_state) : bool :=
  match m s with Ok (hs, _) => bool_decide (decode_all hs = Some l) | _ => false end.

Lemma decodes_of_b {A} (m : J A) l : (forall s, decodes_b m l s = true) -> decodes m l.
Proof.
  intros H s hs a E. specialize (H s). unfold decodes_b in H. rewrite E in H.
  now apply bool_decide_eq_true in H.
Qed.

Lemma decodes_emit2 x i : decode16 (u16 x) = Some i -> decodes (emit2 x) [i].
Proof. intros H s hs a [= <- <-]. now apply decode_all_narrow. Qed.

Lemma decodes_emit4 x i : decode32 (u32 x) = Some i -> decodes (emit4 x) [i].
Proof.
  intros H s hs a E. cbn in E. injection E as <- <-. now apply (decode_all_wide x i [] []).
Qed.

Lemma emits_decodes (P : arm -> Prop) (m : J ()) l (Q : arm -> Prop) :
  decodes m l -> forallb straight l = true ->
  (forall st p, P st -> exists st', exec_all l st = Ok st' /\ Q (set_pc st' p)) ->
  emits P m (fun _ => Q).
Proof. intros Hd Hs H s hs a E. apply runs_straight with l; [exact (Hd _ _ _ E)|done|done]. Qed.

Lemma emits_fn_one (m : J ()) i f g :
  decodes m [i] -> straight i = true ->
  (forall st, rep F f st -> exists st', exec i st = Ok st' /\ rep F g st') ->
  emits_fn f m () g.
Proof.
  intros Hd Hs H. eapply emits_weaken; [done| |apply (emits_decodes (rep F f) m [i] (rep F g) Hd)].
  - intros [] st ?. done.
  - cbn. now rewrite Hs.
  - intros st p Hst. destruct (H st Hst) as (st' & He & Hr). exists st'. cbn. rewrite He.
    split; [done|]. now apply rep_set_pc.
Qed.
End Emits.
