(* ===== verification/JitEmit.v ===== *)
(** * What the emitters' code does

    A triple for each emitter of [Jit] that the supported instructions use: moves
    between the scratch space and registers, immediates, 64-bit arithmetic on pairs
    of registers, shifts, loads and comparisons. *)
From stdpp Require Import base tactics numbers list.
From Stdlib Require Import ZArith Lia.
From S2P Require Import Prelude Inst VM VMFacts Thumb2 Arm Jit Thumb2Facts ArmFacts JitLogic.
Local Open Scope Z_scope.
Local Open Scope bits_scope.

(** ** The pairs of the register map *)
Definition reg_pairs : list (Z * Z) := [(1, 0); (3, 2); (5, 4)].
Definition work_pairs : list (Z * Z) := [(1, 0); (3, 2); (5, 4); tmp1; tmp2].
Definition slots : list Z := (fun k => -8 * k - 8) <$> seqZ 0 10.
Definition work_regs : list Z := seqZ 0 10.

Record slot_pair (p : Z * Z) : Prop := {
  slot_pair_in : In p.2 slots;
  slot_pair_hi : p.1 = p.2 + 4;
  slot_pair_lo : slot p.2;
  slot_pair_hi' : slot p.1;
}.

Record work_pair (p : Z * Z) : Prop := {
  work_pair_in : In p work_pairs;
  work_pair_hi : p.1 = p.2 + 1;
  work_pair_lo : 0 <= p.2 <= 8;
  work_pair_even : p.2 mod 2 = 0;
}.

Definition pair_ok (p : Z * Z) : Prop :=
  (is_stacked p.2 = true /\ is_stacked p.1 = true /\ slot_pair p) \/
  (is_stacked p.2 = false /\ is_stacked p.1 = false /\ work_pair p).

(** A pair that holds an eBPF register is none of the temporary ones. *)
Definition bpf_pair (p : Z * Z) : Prop := pair_ok p /\ p.2 <= 4.

Lemma in_work_pair p : In p work_pairs -> work_pair p.
Proof.
  intros H. split; [done|..]; cbn in H; destruct_or! H; try done; subst p; cbn; (lia || reflexivity).
Qed.

Lemma bpf2a32_ok r p : a32_pair r = Ok p -> 0 <= r <= 10 -> bpf_pair p.
Proof.
  unfold a32_pair, arr_get. intros H Hr. change (Z.of_nat (length bpf2a32)) with 15 in H.
  replace (_ && _) with true in H by lia.
  assert (r = 0 \/ r = 1 \/ r = 2 \/ r = 3 \/ r = 4 \/ r = 5 \/ r = 6 \/ r = 7 \/ r = 8 \/ r = 9 \/
    r = 10) as E by lia.
  destruct_or! E; subst r; injection H as <-;
    (split; [|vm_compute; discriminate]);
    first [left; split_and!; [reflexivity|reflexivity|]; split;
             [vm_compute; tauto|reflexivity|split; [split; vm_compute; discriminate|reflexivity]..]
          |right; split_and!; [reflexivity|reflexivity|apply in_work_pair; cbn; tauto]].
Qed.

(** The registers that stand for a pair: its own, or those of [tmp]. *)
Definition rd_of (p tmp : Z * Z) : Z * Z := if is_stacked p.2 then tmp else p.

Lemma tmp1_work : work_pair tmp1.
Proof. apply in_work_pair. cbn. tauto. Qed.
Lemma tmp2_work : work_pair tmp2.
Proof. apply in_work_pair. cbn. tauto. Qed.

Lemma rd_of_work p tmp : pair_ok p -> work_pair tmp -> work_pair (rd_of p tmp).
Proof. intros [(E & _ & _)|(E & _ & H)] Ht; unfold rd_of; now rewrite E. Qed.

Lemma work_wreg p : work_pair p -> wreg p.1 /\ wreg p.2.
Proof. intros []. unfold wreg. lia. Qed.

Lemma wreg_rreg d : wreg d -> rreg d.
Proof. unfold wreg, rreg. lia. Qed.

Lemma in_work_regs r : In r work_regs <-> 0 <= r < 10.
Proof. unfold work_regs. rewrite <- list_elem_of_In, elem_of_seqZ. lia. Qed.

(** ** Decoding by enumeration *)
Lemma enum1 {A B} (la : list A) (m : A -> J B) (l : A -> list ainst) :
  (forall s, forallb (fun a => decodes_b (m a) (l a) s) la = true) ->
  forall a, In a la -> decodes (m a) (l a).
Proof.
  intros H a Ha. apply decodes_of_b. intros s. specialize (H s).
  rewrite List.forallb_forall in H. auto.
Qed.

Lemma enum2 {A B C} (la : list A) (lb : list B) (m : A -> B -> J C) (l : A -> B -> list ainst) :
  (forall s, forallb (fun a => forallb (fun b => decodes_b (m a b) (l a b) s) lb) la = true) ->
  forall a b, In a la -> In b lb -> decodes (m a b) (l a b).
Proof.
  intros H a b Ha Hb. apply decodes_of_b. intros s. specialize (H s).
  rewrite List.forallb_forall in H. specialize (H a Ha).
  rewrite List.forallb_forall in H. auto.
Qed.

Lemma dec_ldrd p z :
  In p work_pairs -> In z slots ->
  decodes (_emit_ldrd_i p ARM_FP z) [ALdrd (Z.to_nat p.2) (Z.to_nat p.1) (Z.to_nat 11) z].
Proof. revert p z. apply enum2. intros s. vm_compute. reflexivity. Qed.

Lemma dec_strd p z :
  In p work_pairs -> In z slots ->
  decodes (_emit_strd_i p ARM_FP z) [AStrd (Z.to_nat p.2) (Z.to_nat p.1) (Z.to_nat 11) z].
Proof. revert p z. apply enum2. intros s. vm_compute. reflexivity. Qed.

(** Every word of the scratch space. *)
Definition all_slots : list Z := (fun k => -4 * k - 4) <$> seqZ 0 20.

Lemma dec_ldr_slot t z :
  In t work_regs -> In z all_slots ->
  decodes (_emit_ldr_i t ARM_FP z) [ALdr 4 (Z.to_nat t) (Z.to_nat 11) z].
Proof. revert t z. apply enum2. intros s. vm_compute. reflexivity. Qed.

Definition put_regs : list Z := work_regs ++ [ARM_IP; ARM_LR].

Lemma in_put_regs r : In r put_regs <-> 0 <= r < 10 \/ r = 12 \/ r = 14.
Proof.
  unfold put_regs. rewrite List.in_app_iff, in_work_regs. cbn. unfold ARM_IP, ARM_LR. lia.
Qed.

Lemma in_all_slots z : In z all_slots <-> slot z.
Proof.
  unfold all_slots, slot. rewrite <- list_elem_of_In, list_elem_of_fmap. split.
  - intros (k & -> & Hk%elem_of_seqZ). split; [lia|]. Z.div_mod_to_equations. lia.
  - intros [Hz Ha]. exists (- (z + 4) / 4). rewrite elem_of_seqZ. Z.div_mod_to_equations. lia.
Qed.

Lemma dec_str_slot t z :
  In t put_regs -> In z all_slots ->
  decodes (_emit_str_i ARM_FP t z) [AStr 4 (Z.to_nat t) (Z.to_nat 11) z].
Proof. revert t z. apply enum2. intros s. vm_compute. reflexivity. Qed.

Lemma dec_mov_reg t d :
  In t put_regs -> In d work_regs ->
  decodes (_emit_mov_reg t d) [AMov false (Z.to_nat d) (Z.to_nat t) (SLSL 0)].
Proof. revert t d. apply enum2. intros s. vm_compute. reflexivity. Qed.

(** The operations on registers. *)
Lemma dec_adds rd rn :
  In rd work_regs -> In rn work_regs ->
  decodes (_emit_add_reg rd rn true false)
    [ADp ADD_op true (Z.to_nat rd) (Z.to_nat rn) (Z.to_nat rd) (SLSL 0)].
Proof. revert rd rn. apply enum2. intros s. vm_compute. reflexivity. Qed.

Lemma dec_adc rd rn :
  In rd work_regs -> In rn work_regs ->
  decodes (_emit_add_reg rd rn true true)
    [ADp ADC_op false (Z.to_nat rd) (Z.to_nat rn) (Z.to_nat rd) (SLSL 0)].
Proof. revert rd rn. apply enum2. intros s. vm_compute. reflexivity. Qed.

Lemma dec_subs rd rn :
  In rd work_regs -> In rn work_regs ->
  decodes (_emit_sub_reg rd rn true false)
    [ADp SUB_op true (Z.to_nat rd) (Z.to_nat rd) (Z.to_nat rn) (SLSL 0)].
Proof. revert rd rn. apply enum2. intros s. vm_compute. reflexivity. Qed.

Lemma dec_sbc rd rn :
  In rd work_regs -> In rn work_regs ->
  decodes (_emit_sub_reg rd rn true true)
    [ADp SBC_op false (Z.to_nat rd) (Z.to_nat rd) (Z.to_nat rn) (SLSL 0)].
Proof. revert rd rn. apply enum2. intros s. vm_compute. reflexivity. Qed.

Definition low (rd rn : Z) : bool := (rd <? 8) && (rn <? 8).

Lemma dec_and rd rn :
  In rd work_regs -> In rn work_regs ->
  decodes (_emit_and_reg rd rn)
    [ADp AND_op (low rd rn) (Z.to_nat rd) (Z.to_nat rd) (Z.to_nat rn) (SLSL 0)].
Proof. revert rd rn. apply enum2. intros s. vm_compute. reflexivity. Qed.

Lemma dec_orr rd rn :
  In rd work_regs -> In rn [8; 9] ->
  decodes (_emit_orr_reg rd rn)
    [ADp ORR_op false (Z.to_nat rd) (Z.to_nat rd) (Z.to_nat rn) (SLSL 0)].
Proof. revert rd rn. apply enum2. intros s. vm_compute. reflexivity. Qed.

Lemma dec_cmp rn rm :
  In rn work_regs -> In rm work_regs ->
  decodes (_emit_cmp_reg rn rm) [ACmp (Z.to_nat rn) (Z.to_nat rm)].
Proof. revert rn rm. apply enum2. intros s. vm_compute. reflexivity. Qed.

Lemma dec_sbcs rn rm :
  In rn work_regs -> In rm work_regs ->
  decodes (emit4 (_thumb32_SBCW_T2 ARM_IP rn rm 0 SRTYPE_LSL FLAG_S))
    [ADp SBC_op true (Z.to_nat 12) (Z.to_nat rn) (Z.to_nat rm) (SLSL 0)].
Proof. revert rn rm. apply enum2. intros s. vm_compute. reflexivity. Qed.

(** ** Arithmetic on two words *)
Lemma add_words a b c d :
  word a -> word b -> word c -> word d ->
  let v := u32 (c + a + Z.b2z false) in
  v + 2 ^ 32 * u32 (d + b + Z.b2z (negb (v =? c + a + Z.b2z false))) =
  u64 (a + 2 ^ 32 * b + (c + 2 ^ 32 * d)).
Proof.
  intros Ha Hb Hc Hd. cbv zeta. unfold word in *. cbn [Z.b2z].
  destruct (Z.eqb_spec (u32 (c + a + 0)) (c + a + 0)); cbn [negb Z.b2z]; clia.
Qed.

Lemma not32_word y : word y -> not32 y = 2 ^ 32 - 1 - y.
Proof. unfold word, not32, Z.lnot. intros. clia. Qed.

Lemma sub_words a b c d :
  word a -> word b -> word c -> word d ->
  let v := u32 (a + not32 c + Z.b2z true) in
  v + 2 ^ 32 * u32 (b + not32 d + Z.b2z (negb (v =? a + not32 c + Z.b2z true))) =
  u64 (a + 2 ^ 32 * b - (c + 2 ^ 32 * d)).
Proof.
  intros Ha Hb Hc Hd. cbv zeta. rewrite !not32_word by done. unfold word in *. cbn [Z.b2z].
  match goal with |- context [?x =? ?y] => destruct (Z.eqb_spec x y) end; cbn [negb Z.b2z]; clia.
Qed.

Lemma testbit_words a b k :
  word a -> 0 <= k ->
  Z.testbit (a + 2 ^ 32 * b) k = if k <? 32 then Z.testbit a k else Z.testbit b (k - 32).
Proof.
  intros Ha Hk. rewrite Z.mul_comm, <- lor_shiftl_add by (lia || done).
  rewrite Z.lor_spec, Z.shiftl_spec by lia. destruct (Z.ltb_spec k 32).
  - rewrite (Z.testbit_neg_r b) by lia. apply orb_false_r.
  - rewrite (testbit_above a 32) by (lia || done). done.
Qed.

Lemma bitop_words (op : Z -> Z -> Z) (bop : bool -> bool -> bool) a b c d :
  (forall x y k, Z.testbit (op x y) k = bop (Z.testbit x k) (Z.testbit y k)) ->
  word a -> word c -> word (op a c) ->
  op (a + 2 ^ 32 * b) (c + 2 ^ 32 * d) = op a c + 2 ^ 32 * op b d.
Proof.
  intros Hop Ha Hc Hac. apply Z.bits_inj'. intros k Hk.
  rewrite Hop, !testbit_words by done. rewrite !Hop. now destruct (k <? 32).
Qed.

Lemma word_land a b : word a -> word b -> word (a .& b).
Proof. unfold word. intros. apply land_bound; lia. Qed.

Lemma lor_word a b : word a -> word b -> word (a .| b).
Proof. unfold word. intros. apply lor_bound; lia. Qed.

(** A shift to the right moves the low bits of the high word down. *)
Lemma shr_words a b k :
  word a -> 0 < k < 32 ->
  (a + 2 ^ 32 * b) >> k = ((a >> k) .| u32 (b << (32 - k))) + 2 ^ 32 * (b >> k).
Proof.
  intros Ha Hk.
  assert (Hw : word ((a >> k) .| u32 (b << (32 - k)))).
  { apply lor_word; [unfold word in *; apply shiftr_bound; lia|apply u32_range]. }
  apply Z.bits_inj'. intros j Hj.
  rewrite Z.shiftr_spec, !testbit_words by (done || lia). unfold u32.
  destruct (Z.ltb_spec j 32).
  - rewrite Z.lor_spec, Z.mod_pow2_bits_low, Z.shiftl_spec, Z.shiftr_spec by lia.
    destruct (Z.ltb_spec (j + k) 32).
    + rewrite (Z.testbit_neg_r b) by lia. now rewrite orb_false_r.
    + rewrite (testbit_above a 32) by (done || lia). cbn [orb]. f_equal. lia.
  - destruct (Z.ltb_spec (j + k) 32); [lia|]. rewrite Z.shiftr_spec by lia. f_equal. lia.
Qed.

Lemma shr_words_high a b k :
  word a -> 32 <= k -> (a + 2 ^ 32 * b) >> k = b >> (k - 32).
Proof.
  intros Ha Hk. replace k with (32 + (k - 32)) at 1 by lia. rewrite <- Z.shiftr_shiftr by lia.
  f_equal. rewrite Z.shiftr_div_pow2 by lia. unfold word in Ha.
  rewrite Z.mul_comm, Z.div_add, Z.div_small by lia. lia.
Qed.

Lemma s64_words a b : word a -> word b -> s64 (a + 2 ^ 32 * b) = a + 2 ^ 32 * s32 b.
Proof. unfold word. intros. clia. Qed.

Lemma u64_words a b : word a -> u64 (a + 2 ^ 32 * b) = a + 2 ^ 32 * u32 b.
Proof. unfold word. intros. clia. Qed.

Lemma u32_shl_s32 b k : 0 <= k -> u32 (s32 b << k) = u32 (b << k).
Proof.
  intros Hk. rewrite !Z.shiftl_mul_pow2 by lia. unfold u32.
  rewrite <- (Z.mul_mod_idemp_l (s32 b)), <- (Z.mul_mod_idemp_l b) by lia.
  f_equal. f_equal. fold (u32 (s32 b)) (u32 b). apply u32_s32.
Qed.

Lemma shr_sign x n k : 0 <= n <= k -> - 2 ^ n <= x < 2 ^ n -> x >> k = if x <? 0 then -1 else 0.
Proof.
  intros Hk Hx. rewrite Z.shiftr_div_pow2 by lia.
  assert (2 ^ n <= 2 ^ k) by (apply Z.pow_le_mono_r; lia).
  destruct (Z.ltb_spec x 0).
  - symmetry. apply Z.div_unique with (x + 2 ^ k); lia.
  - apply Z.div_small. lia.
Qed.

Lemma s32_shr31 b k : 31 <= k -> s32 b >> k = s32 b >> 31.
Proof.
  intros Hk. pose proof (s32_range b). now rewrite !(shr_sign _ 31) by lia.
Qed.

Lemma asr_words b : u64 b = u32 b + 2 ^ 32 * u32 (b >> 32).
Proof. rewrite Z.shiftr_div_pow2 by lia. clia. Qed.

Lemma shl_words a b k :
  word a -> 32 <= k < 64 -> u64 ((a + 2 ^ 32 * b) << k) = 0 + 2 ^ 32 * u32 (a << (k - 32)).
Proof.
  intros Ha Hk. rewrite !Z.shiftl_mul_pow2 by lia.
  replace (2 ^ k) with (2 ^ 32 * 2 ^ (k - 32)) by (rewrite <- Z.pow_add_r by lia; f_equal; lia).
  unfold u64, u32. change (2 ^ 64) with (2 ^ 32 * 2 ^ 32).
  replace ((a + 2 ^ 32 * b) * (2 ^ 32 * 2 ^ (k - 32)))
    with (2 ^ 32 * (a * 2 ^ (k - 32) + (b * 2 ^ (k - 32)) * 2 ^ 32)) by ring.
  rewrite Z.mul_mod_distr_l, Z.mod_add by lia. lia.
Qed.

(** ** Moves *)
Section Moves.
  Context (base : Z) (code : list Z) (F : frame) (HF : frame_ok F).
  Local Abbreviation emits_fn := (emits_fn base code F).
  Local Abbreviation emits := (emits base code).

Lemma emit_ldrd f p q :
  work_pair p -> slot_pair q ->
  emits_fn f (_emit_ldrd_i p ARM_FP q.2) () (upd (upd f p.2 (f q.2)) p.1 (f q.1)).
Proof.
  intros Hp [Hin Hhi Hlo Hhi']. destruct (work_wreg p Hp).
  eapply emits_fn_one; [apply dec_ldrd; [apply Hp|done]|done|].
  intros st Hst. rewrite Hhi in *. now apply (exec_ldrd_slot F HF).
Qed.

Lemma emit_strd f p q :
  work_pair p -> slot_pair q ->
  emits_fn f (_emit_strd_i p ARM_FP q.2) () (upd (upd f q.2 (f p.2)) q.1 (f p.1)).
Proof.
  intros Hp [Hin Hhi Hlo Hhi']. destruct (work_wreg p Hp).
  eapply emits_fn_one; [apply dec_strd; [apply Hp|done]|done|].
  intros st Hst. rewrite Hhi in *. apply (exec_strd_slot F HF); auto using wreg_rreg.
Qed.

Lemma emit_mov f t d :
  In t put_regs -> In d work_regs -> emits_fn f (_emit_mov_reg t d) () (upd f d (f t)).
Proof.
  intros Ht Hd. eapply emits_fn_one; [now apply dec_mov_reg|done|].
  rewrite in_put_regs in Ht. rewrite in_work_regs in Hd.
  intros st Hst. apply (exec_mov F _ _ Hst); [unfold wreg; lia|unfold rreg; lia|reflexivity|].
  apply (rep_is_word F _ _ Hst). right. lia.
Qed.

(** Reads and writes of a pair. *)
Definition got64 (f : Z -> Z) (p tmp : Z * Z) : Z -> Z :=
  if is_stacked p.2 then upd (upd f tmp.2 (f p.2)) tmp.1 (f p.1) else f.

Definition put64 (f : Z -> Z) (p tmp : Z * Z) : Z -> Z :=
  if is_stacked p.2 then upd (upd f p.2 (f tmp.2)) p.1 (f tmp.1) else f.

Lemma get_reg64_spec f p tmp :
  pair_ok p -> work_pair tmp -> emits_fn f (arm_bpf_get_reg64 p tmp) (rd_of p tmp) (got64 f p tmp).
Proof.
  unfold arm_bpf_get_reg64, rd_of, got64. intros [(-> & _ & Hs)|(-> & _)] Ht.
  - eapply emits_fn_bind; [now apply emit_ldrd|]. apply emits_fn_ret.
  - apply emits_fn_ret.
Qed.

Lemma put_reg64_spec f p tmp :
  pair_ok p -> work_pair tmp -> emits_fn f (arm_bpf_put_reg64 p (rd_of p tmp)) () (put64 f p tmp).
Proof.
  unfold arm_bpf_put_reg64, rd_of, put64. intros [(-> & _ & Hs)|(-> & _)] Ht.
  - now apply emit_strd.
  - rewrite !Z.eqb_refl. cbn [negb when]. eapply emits_fn_bind; apply emits_fn_ret.
Qed.

Lemma get_reg32_spec f z tmp :
  In z all_slots \/ 0 <= z -> In tmp work_regs ->
  emits_fn f (arm_bpf_get_reg32 z tmp) (if is_stacked z then tmp else z)
    (if is_stacked z then upd f tmp (f z) else f).
Proof.
  unfold arm_bpf_get_reg32, is_stacked. intros Hz Ht. destruct (Z.ltb_spec z 0) as [Hn|Hn].
  - destruct Hz as [Hz|]; [|lia]. apply in_all_slots in Hz as Hs. apply in_work_regs in Ht as Ht'.
    eapply emits_fn_bind; [|apply emits_fn_ret].
    eapply emits_fn_one; [now apply dec_ldr_slot|done|].
    intros st Hst. apply (exec_ldr_slot F HF _ _ Hst); [unfold wreg; lia|done].
  - apply emits_fn_ret.
Qed.

(** ** Immediates *)
Lemma emit_mov_imm_spec f rd v :
  In rd work_regs -> word v -> emits_fn f (emit_mov_imm rd v) () (upd f rd v).
Proof.
  intros Hr%in_work_regs Hv. apply emits_fn_unit. unfold emit_mov_imm.
  rewrite (u8_small rd), (u32_small v) by (pow_cst; unfold word in Hv; lia). cbv zeta.
  assert (wreg rd) by (unfold wreg; lia).
  destruct (_ && _) eqn:E.
  - eapply emits_fn_end; [eapply emits_fn_one|].
    + apply decodes_emit2, decode_movs; unfold word in Hv; split; pow_cst; lia.
    + done.
    + intros st Hst. now apply (exec_mov_imm F _ _ Hst).
    + done.
  - assert (good rd) by (unfold good; lia).
    rewrite (land_mask v 0xffff 16) by (lia || reflexivity).
    rewrite Z.shiftr_div_pow2 by lia.
    assert (Hlo : 0 <= v mod 2 ^ 16 < 2 ^ 16) by (apply Z.mod_pos_bound; lia).
    eapply emits_fn_bind; [eapply emits_fn_one|].
    + apply decodes_emit4. rewrite u32_mov16. now apply decode_movw.
    + done.
    + intros st Hst. apply (exec_mov_imm F _ _ Hst); [done|unfold word; lia].
    + destruct (Z.ltb_spec 0xffff v).
      * cbn [when]. assert (0 <= v / 2 ^ 16 < 2 ^ 16) by (unfold word in Hv; pow_cst; Z.div_mod_to_equations; lia).
        eapply emits_fn_end; [eapply emits_fn_one|].
        -- apply decodes_emit4. rewrite u32_mov16. apply decode_movt; [done|split; [lia|done]].
        -- done.
        -- intros st Hst. now apply (exec_movt F _ _ Hst).
        -- intros st. apply rep_ext. intros z _. rewrite upd_eq, Z.mod_mod by lia.
           destruct (Z.eq_dec z rd) as [->|]; [rewrite !upd_eq|now rewrite !upd_ne].
           rewrite Z.add_comm, Z.mul_comm. symmetry. now apply Z.div_mod.
      * eapply emits_fn_end; [apply emits_fn_ret|]. intros st. apply rep_ext. intros z _.
        now rewrite Z.mod_small by (unfold word in Hv; lia).
Qed.

(** ** Values of pairs *)
Definition pv (f : Z -> Z) (p : Z * Z) : Z := f p.2 + 2 ^ 32 * f p.1.

(** [g] is [f] with the value of [p] set to [v] and the registers of [clob] changed. *)
Definition sets (f : Z -> Z) (p : Z * Z) (v : Z) (clob : list Z) (g : Z -> Z) : Prop :=
  pv g p = v /\ forall z, z <> p.1 -> z <> p.2 -> ~ In z clob -> g z = f z.

Definition emits_set {A} (f : Z -> Z) (m : J A) (p : Z * Z) (v : Z) (clob : list Z) : Prop :=
  emits (rep F f) m (fun _ st => exists g, rep F g st /\ sets f p v clob g).

Lemma emits_set_end f g (m : J ()) h p v clob :
  emits_fn g m () h -> sets f p v clob h ->
  emits (rep F g) m (fun _ st => exists h, rep F h st /\ sets f p v clob h).
Proof. intros H Hs. eapply emits_fn_end; [exact H|]. eauto. Qed.

Lemma emits_set_bind {A B} f (m : J A) p v clob (k : A -> J B) Q :
  emits_set f m p v clob ->
  (forall g a, sets f p v clob g -> emits (rep F g) (k a) Q) -> emits (rep F f) (m ≫= k) Q.
Proof.
  intros Hm Hk. eapply emits_bind; [exact Hm|]. intros a. apply emits_ex. intros g.
  eapply emits_weaken; [| |apply (emits_pure _ _ (sets f p v clob g) (rep F g))]; [tauto|done|].
  intros. now apply Hk.
Qed.

(** Reads a pair, changes it in registers and writes it back. *)
Lemma with_dst {A} f p (m : Z * Z -> J A) v clob :
  bpf_pair p ->
  (forall g, pv g (rd_of p tmp1) = pv f p -> (forall z, ~ In z [6; 7] -> g z = f z) ->
     emits_set g (m (rd_of p tmp1)) (rd_of p tmp1) v clob) ->
  emits_set f (rd ← arm_bpf_get_reg64 p tmp1; m rd ;; arm_bpf_put_reg64 p rd) p v
    ([6; 7] ++ clob).
Proof.
  intros [Hp Hlow] Hm. eapply emits_fn_bind; [apply get_reg64_spec; [done|apply tmp1_work]|].
  eapply emits_set_bind; [apply Hm|].
  - unfold pv, got64, rd_of. now destruct (is_stacked p.2).
  - intros z Hz. unfold got64. destruct (is_stacked p.2); [|done]. cbn in *.
    rewrite !upd_ne by lia. done.
  - intros g a [Hv Hz]. eapply emits_set_end; [apply put_reg64_spec; [done|apply tmp1_work]|].
    unfold put64, rd_of in *. destruct Hp as [(E & E' & Hs)|(E & E' & Hw)]; rewrite E in *.
    + split.
      * rewrite <- Hv. unfold pv. rewrite upd_eq, upd_ne, upd_eq; [done|].
        destruct Hs. lia.
      * intros z H1 H2 H3. rewrite !upd_ne by done. rewrite Hz.
        -- unfold got64. rewrite E. cbn in *. rewrite !upd_ne by lia. done.
        -- cbn in *. lia.
        -- cbn in *. lia.
        -- cbn in *. tauto.
    + split; [done|]. intros z H1 H2 H3. rewrite Hz by (cbn in *; tauto).
      unfold got64. now rewrite E.
Qed.

(** ** 64-bit immediates *)
Lemma emit_mov_i64_spec f p val :
  pair_ok p -> emits_set f (emit_mov_i64 p val) p (u64 val) [6; 7].
Proof.
  intros Hp. pose proof (rd_of_work p tmp1 Hp tmp1_work) as Hw. unfold emit_mov_i64.
  fold (rd_of p tmp1). assert (Hr : 0 <= (rd_of p tmp1).2 <= 8) by apply Hw.
  assert (Hh : (rd_of p tmp1).1 = (rd_of p tmp1).2 + 1) by apply Hw.
  eapply emits_fn_bind; [apply emit_mov_imm_spec; [apply in_work_regs; lia|apply u32_range]|].
  eapply emits_fn_bind; [apply emit_mov_imm_spec; [apply in_work_regs; lia|apply u32_range]|].
  eapply emits_set_end; [apply put_reg64_spec; [done|apply tmp1_work]|].
  assert (Ev : u32 val + 2 ^ 32 * u32 (val >> 32) = u64 val)
    by (rewrite Z.shiftr_div_pow2 by lia; clia).
  unfold put64, rd_of in *. destruct Hp as [(E & _ & Hs)|(E & _ & _)]; rewrite E in *.
  - split.
    + rewrite <- Ev. unfold pv. set (h := upd (upd f tmp1.2 _) tmp1.1 _).
      rewrite (upd_ne _ p.1), !upd_eq by (destruct Hs; lia). reflexivity.
    + intros z H1 H2 H3. rewrite !upd_ne by (done || (cbn in *; lia)). done.
  - split.
    + unfold pv. rewrite upd_eq, upd_ne, upd_eq by lia. done.
    + intros z H1 H2 H3. now rewrite !upd_ne by done.
Qed.

Lemma sext_imm v :
  - 2 ^ 31 <= v < 2 ^ 31 ->
  (if Z.testbit (u32 v) 31 then u32 v .| 0xffffffff00000000 else u32 v) = u64 v.
Proof.
  intros Hv. rewrite Z.testbit_eqb by lia. change 0xffffffff00000000 with (0xffffffff << 32).
  rewrite lor_shiftl_add by (lia || apply u32_range).
  destruct (Z.eqb_spec ((u32 v / 2 ^ 31) mod 2) 1); clia.
Qed.

Lemma emit_mov_se_spec f p v :
  pair_ok p -> - 2 ^ 31 <= v < 2 ^ 31 ->
  emits_set f (emit_mov_se_imm64 true p v) p (u64 v) [6; 7].
Proof.
  intros Hp Hv. unfold emit_mov_se_imm64. cbv zeta. rewrite sext_imm by done.
  rewrite <- (u64_u64 v) at 2. now apply emit_mov_i64_spec.
Qed.

(** ** Arithmetic on pairs *)
Lemma emit_alu32_in (P Q : arm -> Prop) dst src is64 hi op :
  0 <= dst -> 0 <= src -> emits P (alu32_op dst src is64 hi op) (fun _ => Q) ->
  emits P (emit_alu32_reg dst src is64 hi op) (fun _ => Q).
Proof.
  intros Hd Hs H. unfold emit_alu32_reg, arm_bpf_get_reg32, arm_bpf_put_reg32, is_stacked.
  destruct (Z.ltb_spec src 0), (Z.ltb_spec dst 0); try lia.
  eapply emits_bind; [apply emits_ret|]. intros rn. apply emits_pure. intros ->.
  eapply emits_bind; [apply emits_ret|]. intros rd. apply emits_pure. intros ->.
  rewrite Z.eqb_refl. cbn [negb when]. eapply emits_bind; [exact H|]. intros [].
  eapply emits_weaken; [done| |apply emits_ret]. now intros [] st [_ ?].
Qed.

(** An operation on the low words, then one on the high words that may use the
    carry of the first. *)
Lemma emit_alu64_in g rd rs op i1 i2 v1 v2 (c : bool -> Prop) :
  work_pair rd -> work_pair rs ->
  decodes (alu32_op rd.2 rs.2 true false op) [i1] -> straight i1 = true ->
  decodes (alu32_op rd.1 rs.1 true true op) [i2] -> straight i2 = true ->
  (forall st, rep F g st ->
     exists st', exec i1 st = Ok st' /\ rep F (upd g rd.2 v1) st' /\ c (CF st')) ->
  (forall st, rep F (upd g rd.2 v1) st -> c (CF st) ->
     exists st', exec i2 st = Ok st' /\ rep F (upd (upd g rd.2 v1) rd.1 v2) st') ->
  emits_fn g (emit_alu32_reg rd.2 rs.2 true false op ;; emit_alu32_reg rd.1 rs.1 true true op)
    () (upd (upd g rd.2 v1) rd.1 v2).
Proof.
  intros Hd Hs D1 S1 D2 S2 H1 H2. destruct Hd, Hs. apply emits_fn_unit.
  eapply emits_bind with (fun _ st => rep F (upd g rd.2 v1) st /\ c (CF st)).
  - apply emit_alu32_in; [lia..|]. eapply emits_decodes; [exact D1|cbn; now rewrite S1|].
    intros st p Hst. destruct (H1 st Hst) as (st1 & E1 & R1 & HC). exists st1. cbn. rewrite E1.
    split; [done|]. split; [now apply rep_set_pc|done].
  - intros []. apply emit_alu32_in; [lia..|].
    eapply emits_decodes; [exact D2|cbn; now rewrite S2|].
    intros st p [Hst HC]. destruct (H2 st Hst HC) as (st1 & E1 & R1). exists st1. cbn. rewrite E1.
    split; [done|]. now apply rep_set_pc.
Qed.

(** The values of the operations with correct code. *)
Definition alu_value (op x y : Z) : Z :=
  if op =? EBPF_ALU_ADD then u64 (x + y)
  else if op =? EBPF_ALU_SUB then u64 (x - y)
  else if op =? EBPF_ALU_AND then x .& y
  else x .| y.

Lemma sets_pair g rd v1 v2 v :
  rd.1 <> rd.2 -> v1 + 2 ^ 32 * v2 = v -> sets g rd v [] (upd (upd g rd.2 v1) rd.1 v2).
Proof.
  intros Hne <-. split.
  - unfold pv. rewrite (upd_ne _ rd.1), !upd_eq by done. done.
  - intros z H1 H2 _. now rewrite !upd_ne by done.
Qed.

Lemma work_odd p q : work_pair p -> work_pair q -> p.1 <> q.2.
Proof. intros [] []. Z.div_mod_to_equations. lia. Qed.

Lemma work_in p : work_pair p -> In p.1 work_regs /\ In p.2 work_regs.
Proof. intros []. rewrite !in_work_regs. lia. Qed.

Lemma work_words g st p : rep F g st -> work_pair p -> word (g p.1) /\ word (g p.2).
Proof. intros H []. split; apply (rep_is_word F _ _ H); right; lia. Qed.

(** An operation [o] on the low words with carry [c], on the high words with [o']. *)
Lemma alu64_dp g rd rs op o o' s s' v1 v2 v (c : bool -> Prop) (sw : bool) :
  work_pair rd -> work_pair rs ->
  let a p := if sw then p rs else p rd in
  let b p := if sw then p rd else p rs in
  decodes (alu32_op rd.2 rs.2 true false op)
    [ADp o s (Z.to_nat rd.2) (Z.to_nat (a snd)) (Z.to_nat (b snd)) (SLSL 0)] ->
  decodes (alu32_op rd.1 rs.1 true true op)
    [ADp o' s' (Z.to_nat rd.1) (Z.to_nat (a fst)) (Z.to_nat (b fst)) (SLSL 0)] ->
  (forall st, rep F g st -> exists cy ov, dp_result st o (g (a snd)) (g (b snd)) (CF st) = (v1, cy, ov) /\
     word v1 /\ (s = true -> c cy) /\ (s = false -> forall b, c b)) ->
  (forall st, rep F (upd g rd.2 v1) st -> c (CF st) ->
     exists cy ov, dp_result st o' (g (a fst)) (g (b fst)) (CF st) = (v2, cy, ov) /\ word v2) ->
  v1 + 2 ^ 32 * v2 = v ->
  emits_set g (emit_alu32_reg rd.2 rs.2 true false op ;; emit_alu32_reg rd.1 rs.1 true true op)
    rd v [].
Proof.
  intros Hd Hs a b D1 D2 H1 H2 Hv. destruct (work_wreg rd Hd), (work_wreg rs Hs).
  pose proof (work_odd rd rd Hd Hd). pose proof (work_odd rs rd Hs Hd).
  assert (Ha : rreg (a snd) /\ rreg (b snd) /\ rreg (a fst) /\ rreg (b fst))
    by (unfold a, b; destruct sw; auto using wreg_rreg). destruct Ha as (? & ? & ? & ?).
  refine (emits_set_end _ _ _ _ _ _ _
    (emit_alu64_in g rd rs op _ _ v1 v2 c Hd Hs D1 eq_refl D2 eq_refl _ _) _).
  - intros st Hst. destruct (H1 st Hst) as (cy & ov & Er & Hw & Hc & Hc').
    destruct (exec_dp F g st Hst o s rd.2 (a snd) (b snd) (SLSL 0) (v1, cy, ov))
      as (st' & He & Hr & HC); try done. exists st'. split_and!; [done|done|].
    destruct s; [rewrite HC by done; auto|auto].
  - intros st Hst Hc. destruct (H2 st Hst Hc) as (cy & ov & Er & Hw).
    destruct (exec_dp F _ st Hst o' s' rd.1 (a fst) (b fst) (SLSL 0) (v2, cy, ov))
      as (st' & He & Hr & HC); try done; [|exists st'; done].
    rewrite <- Er. cbn. rewrite !upd_ne; [done|..]; unfold a, b; destruct sw; done.
  - apply sets_pair; done.
Qed.

Lemma alu64_add g rd rs :
  work_pair rd -> work_pair rs ->
  emits_set g (emit_alu32_reg rd.2 rs.2 true false EBPF_ALU_ADD ;;
               emit_alu32_reg rd.1 rs.1 true true EBPF_ALU_ADD) rd (u64 (pv g rd + pv g rs)) [].
Proof.
  intros Hd Hs. apply emits_assume. intros st0 H0. destruct (work_in rd Hd), (work_in rs Hs).
  destruct (work_words _ _ _ H0 Hd), (work_words _ _ _ H0 Hs).
  eapply (alu64_dp g rd rs _ ADD_op ADC_op true false _ _ _
    (eq (negb (u32 (g rs.2 + g rd.2 + Z.b2z false) =? g rs.2 + g rd.2 + Z.b2z false))) true);
    [done|done|now apply dec_adds|now apply dec_adc|..].
  - intros st Hst. do 2 eexists. split; [reflexivity|]. split; [apply u32_range|]. split; done.
  - intros st Hst Hc. do 2 eexists. split; [cbn [dp_result]; rewrite <- Hc; reflexivity|].
    apply u32_range.
  - now apply add_words.
Qed.
Lemma alu64_sub g rd rs :
  work_pair rd -> work_pair rs ->
  emits_set g (emit_alu32_reg rd.2 rs.2 true false EBPF_ALU_SUB ;;
               emit_alu32_reg rd.1 rs.1 true true EBPF_ALU_SUB) rd (u64 (pv g rd - pv g rs)) [].
Proof.
  intros Hd Hs. apply emits_assume. intros st0 H0. destruct (work_in rd Hd), (work_in rs Hs).
  destruct (work_words _ _ _ H0 Hd), (work_words _ _ _ H0 Hs).
  eapply (alu64_dp g rd rs _ SUB_op SBC_op true false _ _ _
    (eq (negb (u32 (g rd.2 + not32 (g rs.2) + Z.b2z true) =? g rd.2 + not32 (g rs.2) + Z.b2z true)))
    false); [done|done|now apply dec_subs|now apply dec_sbc|..].
  - intros st Hst. do 2 eexists. split; [reflexivity|]. split; [apply u32_range|]. split; done.
  - intros st Hst Hc. do 2 eexists. split; [cbn [dp_result]; rewrite <- Hc; reflexivity|].
    apply u32_range.
  - now apply sub_words.
Qed.

Lemma alu64_and g rd rs :
  work_pair rd -> work_pair rs ->
  emits_set g (emit_alu32_reg rd.2 rs.2 true false EBPF_ALU_AND ;;
               emit_alu32_reg rd.1 rs.1 true true EBPF_ALU_AND) rd (pv g rd .& pv g rs) [].
Proof.
  intros Hd Hs. apply emits_assume. intros st0 H0. destruct (work_in rd Hd), (work_in rs Hs).
  destruct (work_words _ _ _ H0 Hd), (work_words _ _ _ H0 Hs).
  eapply (alu64_dp g rd rs _ AND_op AND_op _ _ _ _ _ (fun _ => True) false);
    [done|done|now apply dec_and|now apply dec_and|..].
  - intros st Hst. do 2 eexists. split; [reflexivity|]. split; [now apply word_land|]. split; done.
  - intros st Hst _. do 2 eexists. split; [reflexivity|]. now apply word_land.
  - symmetry. apply (bitop_words Z.land andb); auto using Z.land_spec, word_land.
Qed.

(** The 16-bit encoding of ORR is wrong; the 32-bit one serves the temporary pair. *)
Lemma alu64_or g rd :
  work_pair rd ->
  emits_set g (emit_alu32_reg rd.2 tmp2.2 true false EBPF_ALU_OR ;;
               emit_alu32_reg rd.1 tmp2.1 true true EBPF_ALU_OR) rd (pv g rd .| pv g tmp2) [].
Proof.
  intros Hd. pose proof tmp2_work as Hs. apply emits_assume. intros st0 H0.
  destruct (work_in rd Hd), (work_in tmp2 Hs).
  destruct (work_words _ _ _ H0 Hd), (work_words _ _ _ H0 Hs).
  eapply (alu64_dp g rd tmp2 _ ORR_op ORR_op _ _ _ _ _ (fun _ => True) false);
    [done|done|apply dec_orr; [done|cbn; tauto]|apply dec_orr; [done|cbn; tauto]|..].
  - intros st Hst. do 2 eexists. split; [reflexivity|]. split; [now apply lor_word|]. split; done.
  - intros st Hst _. do 2 eexists. split; [reflexivity|]. now apply lor_word.
  - symmetry. apply (bitop_words Z.lor orb); auto using Z.lor_spec, lor_word.
Qed.

(** [emit_alu64_reg], with the second operand in a register of the program or in
    the temporary pair. *)
Lemma emit_alu64_spec f dst src op :
  bpf_pair dst -> bpf_pair src \/ src = tmp2 ->
  op = EBPF_ALU_ADD \/ op = EBPF_ALU_SUB \/ op = EBPF_ALU_AND \/ (op = EBPF_ALU_OR /\ src = tmp2) ->
  emits_set f (emit_alu64_reg true dst src op) dst (alu_value op (pv f dst) (pv f src)) [6; 7; 8; 9].
Proof.
  intros Hd Hs Hop. assert (Hp : pair_ok src)
    by (destruct Hs as [[]| ->]; [done|right; auto using tmp2_work]).
  unfold emit_alu64_reg.
  apply (with_dst f dst (fun rd => rs ← arm_bpf_get_reg64 src tmp2;
    emit_alu32_reg rd.2 rs.2 true false op ;; emit_alu32_reg rd.1 rs.1 true true op) _ [8; 9] Hd).
  intros g Hg Hz. pose proof (rd_of_work dst tmp1 (proj1 Hd) tmp1_work) as Hw.
  pose proof (rd_of_work src tmp2 Hp tmp2_work) as Hw2.
  assert (Hrd : (rd_of dst tmp1).2 <= 6) by (unfold rd_of; destruct (is_stacked dst.2), Hd; cbn; lia).
  eapply emits_fn_bind; [apply get_reg64_spec; [done|apply tmp2_work]|].
  set (h := got64 g src tmp2). set (rd := rd_of dst tmp1) in *. set (rs := rd_of src tmp2) in *.
  assert (Ed : pv h rd = pv f dst).
  { rewrite <- Hg. unfold pv, h, got64. destruct (is_stacked src.2); [|done]. cbn.
    destruct Hw. rewrite !upd_ne by lia. done. }
  assert (Es : pv h rs = pv f src).
  { unfold h, rs, pv, got64, rd_of. destruct Hp as [(E & _ & Hp)|(E & _ & Hp)]; rewrite E.
    - cbn. unfold upd. cbn. destruct Hp as [_ ? [] []]. rewrite !Hz by (cbn; lia). done.
    - destruct Hs as [[_ Hs]| ->]; [|now rewrite !Hz by (cbn; lia)].
      destruct Hp. rewrite !Hz by (cbn; lia). done. }
  rewrite <- Ed, <- Es.
  apply emits_weaken with (P := rep F h) (Q := fun _ st => exists g', rep F g' st /\
    sets h rd (alu_value op (pv h rd) (pv h rs)) [] g').
  - done.
  - intros _ st (g' & Hst & [Hv Hfr]). exists g'. split; [done|]. split; [done|].
    intros z H1 H2 H3. rewrite Hfr by (done || cbn; tauto). unfold h, got64.
    destruct (is_stacked src.2); [|done]. cbn in H3 |- *. rewrite !upd_ne by lia. done.
  - destruct_or! Hop; [subst op..|destruct Hop as [-> ->]].
    + now apply alu64_add.
    + now apply alu64_sub.
    + now apply alu64_and.
    + now apply alu64_or.
Qed.
End Moves.
