(* ===== verification/JitOps.v ===== *)
(** * What the emitters' code does: copies, shifts, loads, comparisons *)
From stdpp Require Import base tactics numbers list.
From Stdlib Require Import ZArith Lia.
From S2P Require Import Prelude Inst VM VMFacts Thumb2 Arm Jit Thumb2Facts ArmFacts JitLogic JitEmit.
Local Open Scope Z_scope.
Local Open Scope bits_scope.

Section Ops.
  Context (base : Z) (code : list Z) (F : frame) (HF : frame_ok F).
  Local Abbreviation emits_fn := (emits_fn base code F).
  Local Abbreviation emits_set := (emits_set base code F).
  Local Abbreviation emits := (emits base code).

(** ** Copies *)
Lemma emit_mov_reg64_spec f dst src :
  bpf_pair dst -> bpf_pair src ->
  emits_set f (emit_mov_reg64 true dst src) dst (pv f src) [6; 7].
Proof.
  intros [Hd Hd4] [Hs Hs4]. unfold emit_mov_reg64. cbn [negb].
  destruct Hs as [(Es & _ & Hs)|(Es & _ & Hs)], Hd as [(Ed & _ & Hd)|(Ed & _ & Hd)];
    rewrite Es, Ed; cbn [andb].
  - eapply emits_fn_bind; [apply emit_ldrd; auto using tmp1_work|].
    eapply emits_set_end; [apply emit_strd; auto using tmp1_work|]. split.
    + unfold pv. set (h := upd (upd f tmp1.2 _) tmp1.1 _).
      rewrite (upd_ne _ dst.1), !upd_eq by (destruct Hd; lia). reflexivity.
    + intros z H1 H2 H3. rewrite !upd_ne by (done || (cbn in *; lia)). done.
  - eapply emits_set_end; [apply emit_ldrd; auto|]. split.
    + unfold pv. rewrite (upd_ne _ dst.1), !upd_eq by (destruct Hd; lia). done.
    + intros z H1 H2 H3. now rewrite !upd_ne by done.
  - eapply emits_set_end; [apply emit_strd; auto|]. split.
    + unfold pv. rewrite (upd_ne _ dst.1), !upd_eq by (destruct Hd; lia). done.
    + intros z H1 H2 H3. now rewrite !upd_ne by done.
  - destruct (work_in dst Hd), (work_in src Hs).
    pose proof (work_odd src dst Hs Hd). pose proof (work_odd dst dst Hd Hd).
    eapply emits_fn_bind; [apply emit_mov; [apply in_put_regs; rewrite in_work_regs in *; lia|done]|].
    eapply emits_set_end; [apply emit_mov; [apply in_put_regs; rewrite in_work_regs in *; lia|done]|].
    split.
    + unfold pv. rewrite (upd_ne _ dst.1), upd_eq, !(upd_ne _ dst.2), !upd_eq by done. done.
    + intros z ???. now rewrite !upd_ne by done.
Qed.

(** ** Shifts by a constant *)
Lemma shift_amount x t sh c :
  0 < sh < 32 ->
  shift_c x (decode_imm_shift t sh) c =
  if t =? 0 then (u32 (x << sh), Z.testbit (x << sh) 32)
  else if t =? 1 then (x >> sh, Z.testbit x (sh - 1))
  else if t =? 2 then (u32 (s32 x >> sh), Z.testbit (s32 x) (sh - 1))
  else shift_c x (SROR sh) c.
Proof.
  intros Hs. unfold decode_imm_shift. assert ((sh =? 0) = false) as -> by lia.
  repeat case_match; unfold shift_c; assert ((sh =? 0) = false) as -> by lia; done.
Qed.

Lemma emit_lsr f d m sh s :
  In d put_regs -> In m work_regs -> 0 < sh < 32 -> s = 0 \/ s = 1 ->
  emits_fn f (emit4 (_thumb32_LSRW_IMM_T2 d m sh s)) () (upd f d (f m >> sh)).
Proof.
  intros Hd%in_put_regs Hm%in_work_regs Hsh Hs. eapply emits_fn_one.
  - apply decodes_emit4. rewrite lsrw_imm_dp by lia. unfold dp_reg. cbv zeta. rewrite u32_u32.
    apply (decode_mov_enc d m sh SRTYPE_LSR s); unfold good, fits, SRTYPE_LSR; pow_cst; lia.
  - done.
  - intros st Hst. apply (exec_mov F _ _ Hst); [unfold wreg; lia|unfold rreg; lia|..].
    + now rewrite shift_amount by lia.
    + apply shiftr_bound; [lia|]. apply (rep_is_word F _ _ Hst). right. lia.
Qed.

Lemma emit_asr f d m sh s :
  In d put_regs -> In m work_regs -> 0 < sh < 32 -> s = 0 \/ s = 1 ->
  emits_fn f (emit4 (_thumb32_ASRW_IMM_T2 d m sh s)) () (upd f d (u32 (s32 (f m) >> sh))).
Proof.
  intros Hd%in_put_regs Hm%in_work_regs Hsh Hs. eapply emits_fn_one.
  - apply decodes_emit4. rewrite asrw_imm_dp. unfold dp_reg. cbv zeta. rewrite u32_u32.
    apply (decode_mov_enc d m sh SRTYPE_ASR s); unfold good, fits, SRTYPE_ASR; pow_cst; lia.
  - done.
  - intros st Hst. apply (exec_mov F _ _ Hst); [unfold wreg; lia|unfold rreg; lia|..].
    + now rewrite shift_amount by lia.
    + apply u32_range.
Qed.

Lemma emit_orr_lsl f d r m sh s :
  In d work_regs -> In r work_regs -> In m work_regs -> 0 < sh < 32 -> s = 0 \/ s = 1 ->
  emits_fn f (emit4 (_thumb32_ORRW_REG_T2 d r m sh SRTYPE_LSL s)) ()
    (upd f d (f r .| u32 (f m << sh))).
Proof.
  intros Hd%in_work_regs Hr%in_work_regs Hm%in_work_regs Hsh Hs. eapply emits_fn_one.
  - apply decodes_emit4. unfold _thumb32_ORRW_REG_T2.
    destruct (Z.ltb_spec sh 0), (Z.ltb_spec 0x1f sh); try lia. cbn [orb].
    unfold dp_reg. cbv zeta. rewrite u32_u32.
    apply (decode_dp_enc ORR_op d r m sh SRTYPE_LSL s); unfold good, fits, SRTYPE_LSL; pow_cst; lia.
  - done.
  - intros st Hst. pose proof (rep_is_word F _ _ Hst r ltac:(right; lia)).
    destruct (exec_dp F _ _ Hst ORR_op (s =? 1) d r m (decode_imm_shift SRTYPE_LSL sh)
      (f r .| u32 (f m << sh), Z.testbit (f m << sh) 32, VF st)) as (st' & He & Hr' & _);
      [unfold wreg; lia|unfold rreg; lia|unfold rreg; lia|..].
    + now rewrite shift_amount by lia.
    + cbn. apply lor_word; [done|apply u32_range].
    + exists st'. auto.
Qed.

(** The pair in which [with_dst] puts the destination. *)
Definition low_pair (p : Z * Z) : Prop := work_pair p /\ p.2 <= 6.

Lemma rd_of_low p : bpf_pair p -> low_pair (rd_of p tmp1).
Proof.
  intros [Hp H4]. split; [apply rd_of_work; [done|apply tmp1_work]|].
  unfold rd_of. destruct (is_stacked p.2); cbn; lia.
Qed.

Lemma emits_bind_assoc {A B C} P (m : J A) (k : A -> J B) (h : B -> J C) Q :
  emits P ((m ≫= k) ≫= h) Q -> emits P (m ≫= (fun a => k a ≫= h)) Q.
Proof.
  intros H s hs c E. apply (H s hs c). revert E. unfold mbind, J_bind.
  destruct (m s) as [[l1 a]| |]; try done.
  destruct (k a (advance s l1)) as [[l2 b]| |]; try done.
  rewrite <- advance_app. destruct (h b _) as [[l3 c']| |]; try done. now rewrite app_assoc.
Qed.

(** Proves what a chain of updates makes of a pair. *)
Ltac upds :=
  repeat match goal with
  | |- context [upd ?f ?z ?v ?z] => rewrite (upd_eq f z v)
  | |- context [upd ?f ?z ?v ?x] => rewrite (upd_ne f z v x) by (cbn; lia)
  end.

Lemma rsh_small g rd k s :
  low_pair rd -> 0 < k < 32 -> s = 0 \/ s = 1 ->
  emits_fn g (emit4 (_thumb32_LSRW_IMM_T2 tmp2.2 rd.2 k s) ;;
              emit4 (_thumb32_ORRW_REG_T2 rd.2 tmp2.2 rd.1 (32 - k) SRTYPE_LSL s)) ()
    (upd (upd g tmp2.2 (g rd.2 >> k)) rd.2 ((g rd.2 >> k) .| u32 (g rd.1 << (32 - k)))).
Proof.
  intros [Hw H6] Hk Hs. pose proof (work_in rd Hw) as [Hi1 Hi2]. destruct Hw.
  eapply emits_fn_bind; [apply emit_lsr; [apply in_put_regs; cbn; lia|done|lia|done]|].
  eapply emits_weaken; [done| |apply emit_orr_lsl; [done|apply in_work_regs; cbn; lia|done|lia|done]].
  intros [] st [_ Hst]. split; [done|]. revert Hst. apply rep_ext. intros z _. f_equal.
  f_equal; upds; done.
Qed.

Lemma emit_rsh_imm_spec f dst k :
  bpf_pair dst -> 0 < k < 64 ->
  emits_set f (emit_a32_rsh_i64 dst k) dst (pv f dst >> k) [6; 7; 8].
Proof.
  intros Hd Hk. unfold emit_a32_rsh_i64. rewrite u16_small by (pow_cst; lia). cbv zeta.
  apply (with_dst base code F HF f dst (fun rd => _) _ [8] Hd). intros g Hg _. rewrite <- Hg.
  pose proof (rd_of_low dst Hd) as Hl. set (rd := rd_of dst tmp1) in *. clearbody rd.
  pose proof (work_in rd (proj1 Hl)) as [Hi1 Hi2]. pose proof Hl as [[] H6].
  apply emits_assume. intros st0 H0. destruct (work_words F _ _ _ H0 (proj1 Hl)) as [Wh Wl].
  assert (word 0) by (unfold word; lia).
  destruct (Z.eqb_spec k 0); [lia|]. destruct (Z.ltb_spec k 32); [|destruct (Z.eqb_spec k 32)].
  - eapply emits_bind_assoc. eapply emits_fn_bind; [apply rsh_small; [done|lia|auto]|].
    eapply emits_set_end; [apply emit_lsr; [apply in_put_regs; lia|done|lia|auto]|]. split.
    + unfold pv. upds. now rewrite shr_words.
    + intros z ?? Hz. cbn in Hz. now upds.
  - eapply emits_fn_bind; [apply emit_mov; [apply in_put_regs; lia|done]|].
    eapply emits_set_end; [now apply emit_mov_imm_spec|]. split.
    + unfold pv. upds. subst k. rewrite shr_words_high by (done || lia). rewrite Z.shiftr_0_r. lia.
    + intros z ???. now upds.
  - eapply emits_fn_bind; [apply emit_lsr; [apply in_put_regs; lia|done|lia|auto]|].
    eapply emits_set_end; [now apply emit_mov_imm_spec|]. split.
    + unfold pv. upds. rewrite shr_words_high by (done || lia). lia.
    + intros z ???. now upds.
Qed.

Lemma emit_arsh_imm_spec f dst k :
  bpf_pair dst -> 0 < k < 64 ->
  emits_set f (emit_a32_arsh_i64 dst k) dst (u64 (s64 (pv f dst) >> k)) [6; 7; 8].
Proof.
  intros Hd Hk. unfold emit_a32_arsh_i64. rewrite u32_small by (pow_cst; lia). cbv zeta.
  apply (with_dst base code F HF f dst (fun rd => _) _ [8] Hd). intros g Hg _. rewrite <- Hg.
  pose proof (rd_of_low dst Hd) as Hl. set (rd := rd_of dst tmp1) in *. clearbody rd.
  pose proof (work_in rd (proj1 Hl)) as [Hi1 Hi2]. pose proof Hl as [[] H6].
  apply emits_assume. intros st0 H0. destruct (work_words F _ _ _ H0 (proj1 Hl)) as [Wh Wl].
  unfold pv at 1. rewrite s64_words by done.
  destruct (Z.eqb_spec k 0); [lia|]. destruct (Z.ltb_spec k 32); [|destruct (Z.eqb_spec k 32)].
  - eapply emits_bind_assoc. eapply emits_fn_bind; [apply rsh_small; [done|lia|auto]|].
    eapply emits_set_end; [apply emit_asr; [apply in_put_regs; lia|done|lia|auto]|]. split.
    + unfold pv. upds. rewrite shr_words, u32_shl_s32, u64_words; [done|..|lia|done|lia].
      apply lor_word; [unfold word in *; apply shiftr_bound; lia|apply u32_range].
    + intros z ?? Hz. cbn in Hz. now upds.
  - eapply emits_fn_bind; [apply emit_mov; [apply in_put_regs; lia|done]|].
    eapply emits_set_end; [apply emit_asr; [apply in_put_regs; lia|done|lia|auto]|]. split.
    + unfold pv. upds. rewrite shr_words_high by (done || lia). subst k. rewrite Z.shiftr_0_r.
      now rewrite asr_words, u32_s32, (s32_shr31 _ 32), (u32_small (g rd.1)) by (done || lia).
    + intros z ???. now upds.
  - eapply emits_fn_bind; [apply emit_asr; [apply in_put_regs; lia|done|unfold s32; pow_cst; Z.div_mod_to_equations; lia|auto]|].
    eapply emits_set_end; [apply emit_asr; [apply in_put_regs; lia|done|lia|auto]|]. split.
    + unfold pv. upds. rewrite shr_words_high, (s32_small (k - 32)) by (done || lia).
      now rewrite asr_words, Z.shiftr_shiftr, (s32_shr31 _ (k - 32 + 32)) by lia.
    + intros z ???. now upds.
Qed.

Definition low_pairs : list (Z * Z) := [(1, 0); (3, 2); (5, 4); tmp1].

Lemma in_low_pairs p : low_pair p -> In p low_pairs.
Proof.
  intros [[Hin _ _ _] H6]. cbn in *. destruct_or! Hin; subst p; try tauto. cbn in H6. lia.
Qed.

Lemma dec_lsl p k :
  In p low_pairs -> In k (seqZ 33 31) ->
  decodes (emit2 (0x0000 .| ((k - 32) << 6) .| (p.2 << 3) .| p.1))
    [AMov true (Z.to_nat p.1) (Z.to_nat p.2) (SLSL (k - 32))].
Proof. revert p k. apply enum2. intros s. vm_compute. reflexivity. Qed.

Lemma dec_eor p :
  In p low_pairs ->
  decodes (emit2 (0x4040 .| (p.2 << 3) .| p.2))
    [ADp EOR_op true (Z.to_nat p.2) (Z.to_nat p.2) (Z.to_nat p.2) (SLSL 0)].
Proof. revert p. apply enum1. intros s. vm_compute. reflexivity. Qed.

Lemma emit_clear f p :
  low_pair p -> emits_fn f (emit2 (0x4040 .| (p.2 << 3) .| p.2)) () (upd f p.2 0).
Proof.
  intros Hp. eapply emits_fn_one; [apply dec_eor, in_low_pairs, Hp|done|].
  destruct Hp as [[] H6]. intros st Hst.
  destruct (exec_dp F _ _ Hst EOR_op true p.2 p.2 p.2 (SLSL 0) (0, CF st, VF st))
    as (st' & He & Hr & _); [unfold wreg; lia|unfold rreg; lia|unfold rreg; lia|..].
  - cbn. now rewrite Z.lxor_nilpotent.
  - unfold word. cbn. lia.
  - eauto.
Qed.

(** The amounts from 32 on. *)
Lemma emit_lsh_imm_spec f dst k :
  bpf_pair dst -> 32 <= k < 64 ->
  emits_set f (_emit_lsh64_imm dst k) dst (u64 (pv f dst << k)) [6; 7].
Proof.
  intros Hd Hk. unfold _emit_lsh64_imm. rewrite u16_small by (pow_cst; lia). cbv zeta.
  apply (with_dst base code F HF f dst (fun rd => _) _ [] Hd). intros g Hg _. rewrite <- Hg.
  pose proof (rd_of_low dst Hd) as Hl. set (rd := rd_of dst tmp1) in *. clearbody rd.
  pose proof (work_in rd (proj1 Hl)) as [Hi1 Hi2]. pose proof Hl as [[] H6].
  apply emits_assume. intros st0 H0. destruct (work_words F _ _ _ H0 (proj1 Hl)) as [Wh Wl].
  destruct (Z.ltb_spec k 32); [lia|].
  eapply emits_fn_bind with (g := upd g rd.1 (u32 (g rd.2 << (k - 32)))).
  - destruct (Z.eqb_spec k 32) as [->|].
    + cbn [Z.sub Z.opp Z.add Z.pos_sub Pos.compare]. rewrite Z.shiftl_0_r, u32_small by done.
      apply emit_mov; [apply in_put_regs; lia|done].
    + eapply emits_fn_one; [apply dec_lsl; [now apply in_low_pairs|]|done|].
      * apply list_elem_of_In, elem_of_seqZ. lia.
      * intros st Hst. apply (exec_mov F _ _ Hst); [unfold wreg; lia|unfold rreg; lia| |apply u32_range].
        cbn. destruct (Z.eqb_spec (k - 32) 0); [lia|done].
  - eapply emits_set_end; [now apply emit_clear|]. split.
    + unfold pv. upds. now rewrite shl_words by (done || lia).
    + intros z ???. now upds.
Qed.

(** ** Loads *)
Lemma dec_ldr0 t r :
  In t work_regs -> In r work_regs ->
  decodes (emit4 (0xf8d00000 .| (r << 16) .| (t << 12) .| (0 .& 0xfff)))
    [ALdr 4 (Z.to_nat t) (Z.to_nat r) 0].
Proof. revert t r. apply enum2. intros s. vm_compute. reflexivity. Qed.

Definition size_bytes (sz : Z) : Z :=
  if sz =? EBPF_SIZE_B then 1 else if sz =? EBPF_SIZE_H then 2 else 4.

(** The access sizes and offsets with correct code. *)
Definition good_load (sz off : Z) : Prop :=
  0 <= off <= 255 /\
  (sz = EBPF_SIZE_W \/ sz = EBPF_SIZE_B \/ (sz = EBPF_SIZE_H /\ 32 <= off)).

Definition emit_load (sz t r off : Z) : J () :=
  if sz =? EBPF_SIZE_B then _emit_ldrb_i t r off
  else if sz =? EBPF_SIZE_H then _emit_ldrh_i t r off
  else _emit_ldr_i t r off.

Lemma dec_load sz t r off :
  good_load sz off -> 0 <= t < 8 -> 0 <= r < 10 ->
  decodes (emit_load sz t r off) [ALdr (size_bytes sz) (Z.to_nat t) (Z.to_nat r) off].
Proof.
  intros [Ho Hsz] Ht Hr. assert (good t /\ good r) as [Gt Gr] by (unfold good; lia).
  assert (fits t 4 /\ fits r 4) as [Ft Fr] by auto using good_fits.
  assert (Fo : fits off 8) by (split; pow_cst; lia).
  destruct_or! Hsz; [subst sz|subst sz|destruct Hsz as [-> H32]]; unfold emit_load; cbn [Z.eqb].
  - unfold _emit_ldr_i. cbn. destruct (Z.eqb_spec off 0) as [->|].
    + apply dec_ldr0; apply in_work_regs; lia.
    + apply decodes_emit4. rewrite ldr_t4_cat by (done || lia). rewrite u32_load by auto.
      apply (decode_load_cat 0xf85); auto.
  - unfold _emit_ldrb_i. cbn -[Z.leb Z.ltb Z.opp]. destruct (_ && (r <? 8)) eqn:E.
    + apply decodes_emit2. rewrite u16_ldrb. apply decode_ldrb_t1; split; pow_cst; lia.
    + destruct (Z.leb_spec off 0xff); [|lia]. destruct (Z.leb_spec (-0xff) off); [|lia]. cbn [andb].
      apply decodes_emit4. rewrite ldrb_t3_cat by done. rewrite u32_load by auto.
      apply (decode_load_cat 0xf81); auto.
  - unfold _emit_ldrh_i. cbn -[Z.leb Z.ltb Z.opp]. destruct (Z.leb_spec off 0x1f); [lia|]. cbn [andb].
    destruct (Z.leb_spec off 0xff); [|lia]. destruct (Z.leb_spec (-0xff) off); [|lia]. cbn [andb].
    apply decodes_emit4. rewrite ldrh_cat by done. apply (decode_load_cat 0xf83); auto.
Qed.

Lemma emit_load_spec f sz t r off :
  good_load sz off -> 0 <= t < 8 -> 0 <= r < 10 -> f r = f_mem F ->
  off + size_bytes sz <= Z.of_nat (length (f_bytes F)) ->
  emits_fn f (emit_load sz t r off) () (upd f t (state_load F off (size_bytes sz))).
Proof.
  intros Hg Ht Hr Em Hl. eapply emits_fn_one; [now apply dec_load|done|].
  assert (Hsz : size_bytes sz = 1 \/ size_bytes sz = 2 \/ size_bytes sz = 4)
    by (unfold size_bytes; repeat case_match; auto).
  intros st Hst. apply (exec_ldr F _ _ Hst); [unfold wreg; lia|unfold rreg; lia|..].
  - destruct Hg as [Ho _]. pose proof (mem_low F HF). pose proof (mem_high F HF).
    rewrite Em, u32_small by lia. destruct (rep_mem _ _ _ Hst).
    apply mload_state; auto; lia.
  - pose proof (state_load_bound F off (size_bytes sz) HF ltac:(lia) ltac:(destruct Hg; lia) Hl) as H.
    unfold word. assert (2 ^ (8 * size_bytes sz) <= 2 ^ 32) by (apply Z.pow_le_mono_r; lia). lia.
Qed.

(** A load of the monitor state leaves the high word open. *)
Lemma emit_ldx_spec f dst r off sz :
  bpf_pair dst -> 0 <= r < 6 \/ r = 8 -> good_load sz off -> f r = f_mem F ->
  off + size_bytes sz <= Z.of_nat (length (f_bytes F)) ->
  emits (rep F f) (emit_ldx_reg dst r off sz) (fun _ st => exists g hi, rep F g st /\ word hi /\
    sets f dst (state_load F off (size_bytes sz) + 2 ^ 32 * hi) [6; 7] g).
Proof.
  intros Hd Hr Hg Em Hl. unfold emit_ldx_reg. fold (rd_of dst tmp1).
  assert (is_ldst_imm off sz = true) as ->.
  { destruct Hg as [Ho Hs]. unfold is_ldst_imm. destruct_or! Hs; [subst sz|subst sz|destruct Hs as [-> _]];
      cbn -[Z.leb]; lia. }
  cbn [negb]. pose proof (rd_of_low dst Hd) as Hlow.
  set (v := state_load F off (size_bytes sz)).
  assert (Hput : forall h, h (rd_of dst tmp1).2 = v ->
    (forall z, z <> (rd_of dst tmp1).2 -> ~ In z [6; 7] -> h z = f z) ->
    emits (rep F h) (arm_bpf_put_reg64 dst (rd_of dst tmp1))
      (fun _ st => exists g hi, rep F g st /\ word hi /\ sets f dst (v + 2 ^ 32 * hi) [6; 7] g)).
  { intros h Hv Hz. apply emits_assume. intros st0 H0.
    destruct (work_words F _ _ _ H0 (proj1 Hlow)) as [Wh _].
    eapply emits_fn_end; [apply put_reg64_spec; [done|apply Hd|apply tmp1_work]|].
    intros st Hst. do 2 eexists. split; [exact Hst|]. split; [exact Wh|]. split.
    - rewrite <- Hv. unfold pv, put64, rd_of. destruct Hd as [[(E & _ & Hs)|(E & _)] _]; rewrite E; [|done].
      rewrite (upd_ne _ dst.1), !upd_eq by (destruct Hs; lia). done.
    - intros z H1 H2 H3. unfold put64. destruct (is_stacked dst.2) eqn:E.
      + rewrite !upd_ne by done. apply Hz; [|done]. unfold rd_of. rewrite E. cbn in *. lia.
      + apply Hz; [|done]. unfold rd_of. now rewrite E. }
  destruct Hlow as [Hw H6]. pose proof Hw as [_ _ Hlo _].
  assert (Hgo : forall h rm, h rm = f_mem F -> 0 <= rm < 10 -> (forall z, ~ In z [6; 7] -> h z = f z) ->
    emits (rep F h) ((if sz =? EBPF_SIZE_B then _emit_ldrb_i (rd_of dst tmp1).2 rm off
      else if sz =? EBPF_SIZE_H then _emit_ldrh_i (rd_of dst tmp1).2 rm off
      else if sz =? EBPF_SIZE_W then _emit_ldr_i (rd_of dst tmp1).2 rm off
      else _emit_ldr_i (rd_of dst tmp1).2 rm off ;;
           _emit_ldr_i (rd_of dst tmp1).1 rm (s16 (off + 4))) ;;
      arm_bpf_put_reg64 dst (rd_of dst tmp1))
      (fun _ st => exists g hi, rep F g st /\ word hi /\ sets f dst (v + 2 ^ 32 * hi) [6; 7] g)).
  { intros h rm Hm Hrm Hz. eapply emits_fn_bind with (g := upd h (rd_of dst tmp1).2 v).
    - replace (if sz =? EBPF_SIZE_B then _ else _) with (emit_load sz (rd_of dst tmp1).2 rm off).
      + apply emit_load_spec; auto. lia.
      + destruct Hg as [_ Hs]. destruct_or! Hs; [subst sz|subst sz|destruct Hs as [-> _]]; done.
    - apply Hput; [now rewrite upd_eq|]. intros z H1 H2. rewrite upd_ne by done. auto. }
  destruct (Z.eqb_spec (rd_of dst tmp1).2 r) as [Er|Er].
  - eapply emits_fn_bind with (a := (tmp1.1, off)) (g := upd f 7 (f r)).
    + eapply emits_fn_bind with (a := ()) (g := upd f 7 (f r)); [|apply emits_fn_ret].
      unfold emit_a32_mov_reg, arm_bpf_get_reg32, arm_bpf_put_reg32, is_stacked.
      destruct (Z.ltb_spec r 0); [lia|]. eapply emits_fn_bind; [apply emits_fn_ret|].
      cbn [tmp1 fst snd Z.ltb Z.compare]. destruct (Z.eqb_spec 7 r); [lia|]. cbn [negb when].
      apply emit_mov; [apply in_put_regs|apply in_work_regs]; lia.
    + cbn [fst]. apply Hgo; [now rewrite upd_eq|cbn; lia|]. intros z Hz. rewrite upd_ne by (cbn in Hz; lia). done.
  - eapply emits_fn_bind; [apply emits_fn_ret|]. cbn [fst]. apply Hgo; auto. lia.
Qed.

(** ** Comparisons *)

(** What the code of a conditional jump decides, on the values of two pairs: the
    unsigned comparisons look at the low words only. *)
Definition jmp_value (op x y : Z) : bool :=
  if op =? EBPF_JEQ then u32 x =? u32 y
  else if op =? EBPF_JNE then negb (u32 x =? u32 y)
  else if op =? EBPF_JGT then u32 y <? u32 x
  else if op =? EBPF_JGE then u32 y <=? u32 x
  else if op =? EBPF_JSGT then s64 y <? s64 x
  else s64 y <=? s64 x.

Definition jmp_cond (op : Z) : Z :=
  if op =? EBPF_JEQ then COND_EQ
  else if op =? EBPF_JNE then COND_NE
  else if op =? EBPF_JGT then COND_HI
  else if op =? EBPF_JGE then COND_CS
  else if op =? EBPF_JSGT then COND_LT
  else COND_GE.

Definition good_jmp (op : Z) : Prop :=
  op = EBPF_JEQ \/ op = EBPF_JNE \/ op = EBPF_JGT \/ op = EBPF_JGE \/ op = EBPF_JSGT \/
  op = EBPF_JSGE.

Lemma cmp_flags x y v c o :
  word x -> word y -> add_with_carry x (not32 y) true = (v, c, o) ->
  (v =? 0) = (x =? y) /\ c = (y <=? x).
Proof.
  intros Hx Hy E. unfold add_with_carry in E. rewrite not32_word in E by done.
  injection E as <- <- _. unfold word in *. cbn [Z.b2z].
  split; apply eq_bool_prop_intro; rewrite !Is_true_true, ?negb_true_iff, ?Z.eqb_eq, ?Z.eqb_neq, ?Z.leb_le;
    clia.
Qed.

(** The sign of a difference of 64 bits, after CMP and SBCS. *)
Lemma sbcs_flags xl xh yl yh v c o :
  word xl -> word xh -> word yl -> word yh ->
  add_with_carry xh (not32 yh) (yl <=? xl) = (v, c, o) ->
  Bool.eqb (Z.testbit v 31) o = (s64 (yl + 2 ^ 32 * yh) <=? s64 (xl + 2 ^ 32 * xh)).
Proof.
  intros Hxl Hxh Hyl Hyh E. rewrite !s64_words by done. unfold add_with_carry in E.
  rewrite not32_word in E by done.
  assert (Es : s32 (2 ^ 32 - 1 - yh) = - 1 - s32 yh) by (unfold word in *; clia).
  rewrite Es in E. injection E as <- _ <-.
  set (sum := xh + (2 ^ 32 - 1 - yh) + Z.b2z (yl <=? xl)).
  set (S := s32 xh + (-1 - s32 yh) + Z.b2z (yl <=? xl)).
  assert (Hv : u32 sum = u32 S) by (subst sum S; unfold word in *; clia).
  assert (Ht : Z.testbit (u32 sum) 31 = (s32 (u32 sum) <? 0)).
  { rewrite Z.testbit_eqb by lia. apply eq_bool_prop_intro.
    rewrite !Is_true_true, Z.eqb_eq, Z.ltb_lt. generalize (u32_range sum). generalize (u32 sum). intros z Hz. split; clia. }
  rewrite Ht, Hv, s32_u32.
  assert (HS : - 2 ^ 32 <= S < 2 ^ 32)
    by (subst S; pose proof (s32_range xh); pose proof (s32_range yh); destruct (yl <=? xl); cbn [Z.b2z]; lia).
  assert (Hle : (s64 (yl + 2 ^ 32 * yh) <=? s64 (xl + 2 ^ 32 * xh)) = (0 <=? S)).
  { rewrite !s64_words by done. subst S. unfold word in *.
    destruct (Z.leb_spec yl xl); cbn [Z.b2z]; apply eq_bool_prop_intro;
      rewrite !Is_true_true, !Z.leb_le; lia. }
  rewrite s64_words in Hle by done. rewrite s64_words in Hle by done. rewrite Hle.
  destruct (Z.eqb_spec (s32 S) S) as [E|E]; cbn [negb].
  - rewrite E. destruct (Z.ltb_spec S 0), (Z.leb_spec 0 S); done || lia.
  - assert (H : s32 S < 0 <-> 0 <= S) by clia.
    destruct (Z.ltb_spec (s32 S) 0), (Z.leb_spec 0 S); done || lia.
Qed.

Lemma exec_cmp f st a b :
  rep F f st -> rreg a -> rreg b ->
  exists st', exec (ACmp (Z.to_nat a) (Z.to_nat b)) st = Ok st' /\ rep F f st' /\
    ZF st' = (f a =? f b) /\ CF st' = (f b <=? f a).
Proof.
  intros Hst Ha Hb. cbn [exec]. rewrite !(rep_get F f st Hst) by done. cbn -[add_with_carry].
  destruct (add_with_carry _ _ _) as [[v c] o] eqn:E.
  apply cmp_flags in E as [Ez Ec]; [|apply (rep_is_word F f st Hst); now right..].
  eexists. split; [reflexivity|]. split; [now apply rep_set_flags|]. done.
Qed.

Lemma emit_cmp f a b :
  0 <= a < 10 -> 0 <= b < 10 ->
  emits (rep F f) (_emit_cmp_reg a b)
    (fun _ st => rep F f st /\ ZF st = (f a =? f b) /\ CF st = (f b <=? f a)).
Proof.
  intros Ha Hb. eapply emits_decodes; [apply dec_cmp; now apply in_work_regs|done|].
  intros st p Hst. destruct (exec_cmp f st a b Hst) as (st' & He & Hr & Hz & Hc);
    [unfold rreg; lia..|].
  exists st'. cbn [exec_all]. rewrite He. cbn. split; [done|]. split; [now apply rep_set_pc|done].
Qed.

(** SBCS after CMP decides the signed comparison of two pairs. *)
Lemma emit_sbcs f p q :
  work_pair p -> work_pair q ->
  emits (fun st => rep F f st /\ CF st = (f q.2 <=? f p.2))
    (emit4 (_thumb32_SBCW_T2 ARM_IP p.1 q.1 0 SRTYPE_LSL FLAG_S))
    (fun _ st => exists g, rep F g st /\ (forall z, z <> 12 -> g z = f z) /\
       Bool.eqb (NF st) (VF st) = (s64 (pv f q) <=? s64 (pv f p))).
Proof.
  intros Hp Hq. destruct (work_in p Hp), (work_in q Hq), (work_wreg p Hp), (work_wreg q Hq).
  eapply emits_decodes; [now apply dec_sbcs|done|]. intros st pc [Hst Hc].
  destruct (work_words F _ _ _ Hst Hp), (work_words F _ _ _ Hst Hq).
  cbn [exec_all exec]. rewrite !(rep_get F f st Hst) by now apply wreg_rreg. cbn -[add_with_carry].
  destruct (add_with_carry _ _ _) as [[v c] o] eqn:E. rewrite Hc in E.
  assert (Hw : word v) by (unfold add_with_carry in E; injection E as <- _ _; apply u32_range).
  apply sbcs_flags in E; [|done..].
  eexists. split; [reflexivity|]. exists (upd f 12 v). split.
  - apply rep_set_pc. apply (rep_put F f st true 12 v c o Hst); done || lia.
  - split; [intros; now rewrite upd_ne|]. exact E.
Qed.

Lemma emit_cmp_spec f rd rs op :
  work_pair rd -> work_pair rs -> good_jmp op ->
  emits (rep F f) (_emit_cmp_cond rd.1 rd.2 rs.1 rs.2 op true)
    (fun _ st => exists g, rep F g st /\ (forall z, z <> 12 -> g z = f z) /\
       cond_holds st (jmp_cond op) = jmp_value op (pv f rd) (pv f rs)).
Proof.
  intros Hd Hs Hop. pose proof Hd as [_ Hdh Hdl _]. pose proof Hs as [_ Hsh Hsl _].
  apply emits_assume. intros st0 H0. destruct (work_words F _ _ _ H0 Hd) as [_ Wd].
  destruct (work_words F _ _ _ H0 Hs) as [_ Ws].
  assert (Ed : u32 (pv f rd) = f rd.2) by (unfold pv, word in *; clia).
  assert (Es : u32 (pv f rs) = f rs.2) by (unfold pv, word in *; clia).
  assert (Hlow : forall Q, (forall st, rep F f st -> ZF st = (f rd.2 =? f rs.2) ->
      CF st = (f rs.2 <=? f rd.2) -> Q () st) ->
    emits (rep F f) (_emit_cmp_reg rd.1 rs.1 ;; _emit_cmp_reg rd.2 rs.2) Q).
  { intros Q HQ. eapply emits_bind; [apply emit_cmp; lia|]. intros [].
    eapply emits_weaken; [| |apply (emit_cmp f); lia]; [now intros st []|].
    intros [] st (? & ? & ?). auto. }
  unfold good_jmp in Hop. destruct_or! Hop; subst op; cbn [_emit_cmp_cond].
  all: unfold _emit_cmp_cond, jmp_cond, jmp_value; cbn [Z.eqb Pos.eqb orb when].
  1-4: apply Hlow; intros st Hst Hz Hc; exists f; split; [done|]; split; [done|];
    rewrite Ed, Es; unfold cond_holds; cbn; rewrite ?Hz, ?Hc.
  - done.
  - done.
  - destruct (Z.leb_spec (f rs.2) (f rd.2)), (Z.eqb_spec (f rd.2) (f rs.2)),
      (Z.ltb_spec (f rs.2) (f rd.2)); done || lia.
  - done.
  - eapply emits_bind; [apply (emit_cmp f rs.2 rd.2); lia|]. intros [].
    eapply emits_weaken; [| |apply (emit_sbcs f rs rd Hs Hd)]; [intros st (? & ? & ?); auto|].
    intros [] st (g & Hst & Hz & He). exists g. split; [done|]. split; [done|].
    unfold cond_holds. cbn. rewrite He. now rewrite Z.leb_antisym, negb_involutive.
  - eapply emits_bind; [apply (emit_cmp f rd.2 rs.2); lia|]. intros [].
    eapply emits_weaken; [| |apply (emit_sbcs f rd rs Hd Hs)]; [intros st (? & ? & ?); auto|].
    intros [] st (g & Hst & Hz & He). exists g. split; [done|]. split; [done|]. exact He.
Qed.
End Ops.
