(* ===== verification/JitPasses.v ===== *)
(** * The two passes of the compiler

    The first pass only counts bytes and records where each instruction ends; the
    second one writes the code and takes its branch offsets from that record. Here
    is that the two agree: every instruction gets as many halfwords in the second
    pass as in the first ([passes_agree]), so that it starts where the record says.

    Most emitters do not look at the compiler's state at all ([uniform]); the ones
    that do are the branches, whose length depends on the distance. *)
From stdpp Require Import base tactics numbers list relations.
From Stdlib Require Import ZArith Lia.
From S2P Require Import Prelude Inst VM VMFacts Thumb2 Arm Jit Thumb2Facts ArmFacts JitLogic.
Local Open Scope Z_scope.
Local Open Scope bits_scope.

(** ** Emitters that do not depend on the state *)
Definition uniform {A} (m : J A) : Prop := forall s s', m s = m s'.

(** All that is emitted are halfwords. *)
Definition halfword (h : Z) : Prop := 0 <= h < 2 ^ 16.
Definition halfwords {A} (m : J A) : Prop :=
  forall s hs a, m s = Ok (hs, a) -> Forall halfword hs.

Lemma uniform_ret {A} (a : A) : uniform (mret a).
Proof. done. Qed.
Lemma uniform_emit2 x : uniform (emit2 x).
Proof. done. Qed.
Lemma uniform_lift {A} (r : res A) : uniform (lift r).
Proof. done. Qed.

Lemma uniform_bind {A B} (m : J A) (k : A -> J B) :
  uniform m -> (forall a, uniform (k a)) -> uniform (m ≫= k).
Proof.
  intros Hm Hk s s'. unfold mbind, J_bind. rewrite (Hm s s').
  destruct (m s') as [[l a]| |]; try done. now rewrite (Hk a (advance s l) (advance s' l)).
Qed.

Lemma halfwords_ret {A} (a : A) : halfwords (mret a).
Proof. intros s hs b [= <- <-]. constructor. Qed.
Lemma halfwords_emit2 x : halfwords (emit2 x).
Proof. intros s hs b [= <- <-]. repeat constructor; apply u16_range. Qed.
Lemma halfwords_lift {A} (r : res A) : halfwords (lift r).
Proof. intros s hs a E. unfold lift in E. destruct r; try done. injection E as <- <-. constructor. Qed.
Lemma halfwords_read {A} (g : jit_state -> res A) : halfwords (fun s => a ← g s; Ok ([], a)).
Proof. intros s hs a E. destruct (g s); try done. injection E as <- <-. constructor. Qed.

Lemma halfwords_bind {A B} (m : J A) (k : A -> J B) :
  halfwords m -> (forall a, halfwords (k a)) -> halfwords (m ≫= k).
Proof.
  intros Hm Hk s hs b E. unfold mbind, J_bind in E.
  destruct (m s) as [[l a]| |] eqn:E1; try done.
  destruct (k a _) as [[l2 b']| |] eqn:E2; try done. injection E as <- <-.
  apply Forall_app. split; [exact (Hm _ _ _ E1)|exact (Hk _ _ _ _ E2)].
Qed.

(** Both together. *)
Definition steady {A} (m : J A) : Prop := uniform m /\ halfwords m.

Lemma steady_ret {A} (a : A) : steady (mret a).
Proof. split; auto using uniform_ret, halfwords_ret. Qed.
Lemma steady_emit2 x : steady (emit2 x).
Proof. split; auto using uniform_emit2, halfwords_emit2. Qed.
Lemma steady_lift {A} (r : res A) : steady (lift r).
Proof. split; auto using uniform_lift, halfwords_lift. Qed.
Lemma steady_bind {A B} (m : J A) (k : A -> J B) :
  steady m -> (forall a, steady (k a)) -> steady (m ≫= k).
Proof.
  intros [Hm Hm'] Hk. split; [apply uniform_bind|apply halfwords_bind]; auto; intros a; apply Hk.
Qed.
Lemma steady_halfwords {A} (m : J A) : steady m -> halfwords m.
Proof. now intros []. Qed.

Create HintDb emitter.
#[export] Hint Resolve steady_ret steady_emit2 steady_lift
  halfwords_ret halfwords_emit2 halfwords_lift halfwords_read : emitter.

(** Goes through the structure of an emitter. *)
Ltac unfold_emitters :=
  cbv [build_mov build_alu build_div build_shift_imm build_mul64 build_st build_ldx build_stx
    build_dst build_dst_src done skip when
    emit4 _emit_ldr_i _emit_ldrb_i _emit_ldrh_i _emit_ldrd_i _emit_str_i _emit_strd_i _emit_mov_reg
    arm_bpf_get_reg32 arm_bpf_put_reg32 emit_a32_mov_reg arm_bpf_get_reg64 arm_bpf_put_reg64
    emit_mov_imm emit_mov_reg64 emit_push_r64 emit_mov_i64 emit_mov_se_imm64
    _emit_add_reg _emit_add_imm _emit_sub_imm _emit_sub_reg _emit_orr_reg _emit_and_reg
    _emit_cmp_reg alu32_op emit_alu32_reg emit_alu64_reg emit_alu32_imm emit_u32_div_mod
    _emit_lsh64_reg _emit_lsh64_imm emit_a32_rsh_r64 emit_a32_rsh_i64 emit_a32_arsh_r64
    emit_a32_arsh_i64 emit_a32_neg64 emit_a32_mul_r64 emit_ldx_reg emit_str_reg _emit_cmp_cond
    build_prologue build_epilogue].

Ltac emitter :=
  repeat match goal with
  | |- forall _, _ => intro
  | |- steady (_ ≫= _) => apply steady_bind
  | |- halfwords (_ ≫= _) => apply halfwords_bind
  | |- _ (let '(_, _) := ?p in _) => destruct p
  | |- _ (if ?b then _ else _) => destruct b
  | |- _ => solve [auto with emitter nocore]
  end.

(** The cases of [build_inst]. *)
Section Builders.
  Context (dst src : J (Z * Z)) (Hd : steady dst) (Hs : steady src).

Lemma build_mov_steady c im is64 : steady (build_mov dst src c im is64).
Proof. unfold_emitters. emitter. Qed.
Lemma build_alu_steady c im is64 : steady (build_alu dst src c im is64).
Proof. unfold_emitters. emitter. Qed.
Lemma build_div_steady c im : steady (build_div dst src c im).
Proof. unfold_emitters. emitter. Qed.
Lemma build_shift_imm_steady c im : steady (build_shift_imm dst c im).
Proof. unfold_emitters. emitter. Qed.
Lemma build_mul64_steady c im is64 : steady (build_mul64 dst src c im is64).
Proof. unfold_emitters. emitter. Qed.
Lemma build_st_steady c off im : steady (build_st dst c off im).
Proof. unfold_emitters. emitter. Qed.
Lemma build_ldx_steady c off : steady (build_ldx dst src c off).
Proof. unfold_emitters. emitter. Qed.
Lemma build_stx_steady c off : steady (build_stx dst src c off).
Proof. unfold_emitters. emitter. Qed.
End Builders.

#[export] Hint Resolve build_mov_steady build_alu_steady build_div_steady build_shift_imm_steady
  build_mul64_steady build_st_steady build_ldx_steady build_stx_steady : emitter.

(** The instructions whose code does not depend on where it is. *)
Definition movable (o : ebpf_op) : bool :=
  match o with
  | EBPF_OP_JA | EBPF_OP_CALL | EBPF_OP_EXIT
  | EBPF_OP_JEQ_IMM | EBPF_OP_JEQ_REG | EBPF_OP_JGT_IMM | EBPF_OP_JGT_REG
  | EBPF_OP_JGE_IMM | EBPF_OP_JGE_REG | EBPF_OP_JSET_IMM | EBPF_OP_JSET_REG
  | EBPF_OP_JNE_IMM | EBPF_OP_JNE_REG | EBPF_OP_JSGT_IMM | EBPF_OP_JSGT_REG
  | EBPF_OP_JSGE_IMM | EBPF_OP_JSGE_REG | EBPF_OP_JLT_IMM | EBPF_OP_JLT_REG
  | EBPF_OP_JLE_IMM | EBPF_OP_JLE_REG | EBPF_OP_JSLT_IMM | EBPF_OP_JSLT_REG
  | EBPF_OP_JSLE_IMM | EBPF_OP_JSLE_REG => false
  | _ => true
  end.

Definition is_jcc (o : ebpf_op) : bool :=
  negb (movable o) && match o with EBPF_OP_JA | EBPF_OP_CALL | EBPF_OP_EXIT => false | _ => true end.

Lemma build_inst_steady i p next o :
  opcode_of (opcode i) = Some o -> movable o = true -> steady (build_inst i p next).
Proof.
  intros Ho Hm. unfold build_inst. rewrite Ho.
  destruct o; try discriminate Hm; clear Ho Hm;
    first [solve [auto with emitter nocore] | unfold_emitters; emitter].
Qed.

Lemma halfwords_pure {A} (g : jit_state -> A) : halfwords (fun s => Ok ([], g s)).
Proof. intros s hs a [= <- _]. constructor. Qed.

Lemma halfwords_at {A} (c : jit_state -> bool) (m1 m2 : J A) :
  halfwords m1 -> halfwords m2 -> halfwords (fun s => if c s then m1 s else m2 s).
Proof. intros H1 H2 s hs a. destruct (c s); [apply H1|apply H2]. Qed.

Lemma halfwords_b_cond off cond : halfwords (_emit_b_cond off cond).
Proof.
  unfold _emit_b_cond.
  apply (halfwords_at (fun s => negb (_use_b4 s) && (-256 <=? off) && (off <=? 254)));
    unfold_emitters; emitter.
Qed.

Lemma halfwords_b off : halfwords (_emit_b off).
Proof. unfold _emit_b. unfold_emitters. emitter. Qed.

Lemma halfwords_jump off op : halfwords (_emit_jump off op).
Proof. pose proof (halfwords_b_cond off). unfold _emit_jump. unfold_emitters. emitter. Qed.

Lemma halfwords_offset a b c : halfwords (bpf2a32_offset a b c).
Proof.
  intros s hs x E. unfold bpf2a32_offset in E. destruct (needGen s); cbn in E.
  - apply bind_Ok in E as (t & _ & E). apply bind_Ok in E as (f & _ & E). injection E as <- _. constructor.
  - injection E as <- _. constructor.
Qed.

#[export] Hint Resolve halfwords_pure halfwords_b_cond halfwords_b halfwords_jump halfwords_offset
  : emitter.

Lemma build_jmp_halfwords dst src p c off im :
  halfwords dst -> halfwords src -> halfwords (build_jmp dst src p c off im).
Proof. intros. unfold build_jmp. unfold_emitters. emitter. Qed.

Lemma build_exit_halfwords p : halfwords (build_exit p).
Proof.
  intros s hs a. unfold build_exit. destruct (p =? inst_num s - 1); [apply halfwords_ret|].
  apply halfwords_bind; [apply halfwords_pure|]. unfold_emitters. emitter.
Qed.

Lemma build_call_halfwords im : halfwords (build_call im).
Proof. unfold build_call. unfold_emitters. emitter. Qed.

Lemma build_inst_halfwords i p next : halfwords (build_inst i p next).
Proof.
  destruct (opcode_of (opcode i)) as [o|] eqn:Ho.
  - destruct (movable o) eqn:Hm; [eapply steady_halfwords, build_inst_steady; eassumption|].
    unfold build_inst. rewrite Ho.
    destruct o; try discriminate Hm;
      first [ apply build_jmp_halfwords; apply halfwords_lift
            | apply build_call_halfwords | apply build_exit_halfwords
            | unfold_emitters; emitter ].
  - unfold build_inst. rewrite Ho. apply halfwords_ret.
Qed.

(** ** Relations between states *)

(** States on which an emitter does the same: they may differ in the buffer, and in
    the first pass also in the record. *)
Record alike (s s' : jit_state) : Prop := Alike {
  al_num : inst_num s = inst_num s';
  al_idx : idx s = idx s';
  al_call : call_word s = call_word s';
  al_gen : needGen s = needGen s';
  al_offsets : needGen s = true -> offsets s = offsets s' /\ epilogue_at s = epilogue_at s';
}.

(** A state of the first pass and one of the second at the same position. *)
Definition even_byte (o : Z) : Prop := 0 <= o < 256 /\ o mod 2 = 0.

Record passes (s1 s2 : jit_state) : Prop := Passes {
  ps_num : inst_num s1 = inst_num s2;
  ps_idx : idx s1 = idx s2;
  ps_call : call_word s1 = call_word s2;
  ps_gen1 : needGen s1 = false;
  ps_gen2 : needGen s2 = true;
  ps_even : Forall even_byte (offsets s2);
}.

Lemma alike_advance s s' l : alike s s' -> alike (advance s l) (advance s' l).
Proof. intros []. constructor; cbn; auto. lia. Qed.

Lemma passes_advance s s' l l' :
  passes s s' -> length l = length l' -> passes (advance s l) (advance s' l').
Proof. intros [] E. constructor; cbn; auto. lia. Qed.

Definition respects {A} (m : J A) : Prop := forall s s', alike s s' -> m s = m s'.

Definition sized {A} (m : J A) : Prop :=
  forall s1 s2 hs2 a, passes s1 s2 -> m s2 = Ok (hs2, a) ->
  exists hs1, m s1 = Ok (hs1, a) /\ length hs1 = length hs2.

Lemma uniform_respects {A} (m : J A) : uniform m -> respects m.
Proof. intros H s s' _. apply H. Qed.

Lemma uniform_sized {A} (m : J A) : uniform m -> sized m.
Proof. intros H s1 s2 hs2 a _ E. exists hs2. now rewrite (H s1 s2). Qed.

Lemma respects_bind {A B} (m : J A) (k : A -> J B) :
  respects m -> (forall a, respects (k a)) -> respects (m ≫= k).
Proof.
  intros Hm Hk s s' H. unfold mbind, J_bind. rewrite (Hm s s' H).
  destruct (m s') as [[l a]| |]; try done.
  now rewrite (Hk a (advance s l) (advance s' l) (alike_advance _ _ l H)).
Qed.

Lemma sized_bind {A B} (m : J A) (k : A -> J B) :
  sized m -> (forall a, sized (k a)) -> sized (m ≫= k).
Proof.
  intros Hm Hk s1 s2 hs2 b H E. unfold mbind, J_bind in *.
  destruct (m s2) as [[l2 a]| |] eqn:E2; try done.
  destruct (Hm _ _ _ _ H E2) as (l1 & E1 & Hl). rewrite E1.
  destruct (k a (advance s2 l2)) as [[k2 b']| |] eqn:Ek2; try done. injection E as <- <-.
  destruct (Hk _ _ _ _ _ (passes_advance _ _ l1 l2 H Hl) Ek2) as (k1 & Ek1 & Hk1).
  rewrite Ek1. eexists. split; [reflexivity|]. rewrite !length_app. lia.
Qed.

Lemma steady_both {A} (m : J A) : steady m -> respects m /\ sized m.
Proof. intros [H _]. auto using uniform_respects, uniform_sized. Qed.

(** ** Branches *)

(** A conditional branch on the recorded offsets has the size of the first pass. *)
Definition jcc_tail (p t op : Z) : J Z :=
  bsize ← ((fun s => Ok ([], if negb (_use_b4 s) then 2 else 4)) : J Z);
  jmp_offset ← bpf2a32_offset p t bsize;
  _emit_jump jmp_offset op ;;
  done.

Lemma respects_b_cond off cond : respects (_emit_b_cond off cond).
Proof.
  intros s s' H. unfold _emit_b_cond, _use_b4. rewrite (al_num _ _ H).
  destruct (negb _ && _ && _); [done|]. unfold when. destruct (_ && _); [|done].
  reflexivity.
Qed.

Lemma respects_jump off op : respects (_emit_jump off op).
Proof.
  pose proof (respects_b_cond off). unfold _emit_jump, when, skip.
  repeat case_match; auto using uniform_respects, uniform_ret.
Qed.

Lemma respects_offset p t b : respects (bpf2a32_offset p t b).
Proof.
  intros s s' H. unfold bpf2a32_offset. rewrite (al_gen _ _ H).
  destruct (needGen s') eqn:E; [|done]. cbn.
  destruct (al_offsets _ _ H) as [-> _]; [rewrite (al_gen _ _ H); done|done].
Qed.

Lemma respects_jcc p t op : respects (jcc_tail p t op).
Proof.
  unfold jcc_tail. apply respects_bind.
  { intros s s' H. unfold _use_b4. now rewrite (al_num _ _ H). }
  intros b. apply respects_bind; [apply respects_offset|]. intros o.
  apply respects_bind; [apply respects_jump|]. intros _. now apply uniform_respects.
Qed.

Lemma offset_bounds s p t b hs o :
  Forall even_byte (offsets s) -> needGen s = true -> bpf2a32_offset p t b s = Ok (hs, o) ->
  hs = [] /\ -256 + b - 2 <= o <= 252 + b - 2 /\ (o - b) mod 2 = 0.
Proof.
  intros He Hg E. unfold bpf2a32_offset in E. rewrite Hg in E. cbn in E.
  apply bind_Ok in E as (to & E1 & E). apply bind_Ok in E as (from & E2 & E).
  injection E as <- <-.
  destruct (arr_get (offsets s) t) as [x|] eqn:E3; [|done].
  destruct (arr_get (offsets s) p) as [y|] eqn:E4; [|done].
  injection E1 as ->. injection E2 as ->.
  apply arr_get_Some in E3 as [_ E3]. apply arr_get_Some in E4 as [_ E4].
  pose proof (Forall_lookup_1 _ _ _ _ He E3) as [H1 H2].
  pose proof (Forall_lookup_1 _ _ _ _ He E4) as [H3 H4].
  split; [done|]. split; [|Z.div_mod_to_equations; lia]. Z.div_mod_to_equations; lia.
Qed.

(** The number of halfwords of a conditional branch. *)
Lemma b_cond_size s off cond :
  (if negb (_use_b4 s) then 2 else 4) = 2 -> -256 <= off <= 254 ->
  exists h, _emit_b_cond off cond s = Ok ([h], ()).
Proof.
  intros Hb Ho. unfold _emit_b_cond. destruct (negb (_use_b4 s)); [|done]. cbn [andb].
  destruct (Z.leb_spec (-256) off), (Z.leb_spec off 254); try lia. cbn. eauto.
Qed.

Lemma b_cond_size4 s off cond :
  (if negb (_use_b4 s) then 2 else 4) = 4 -> -1000 <= off <= 1000 ->
  exists h h', _emit_b_cond off cond s = Ok ([h; h'], ()).
Proof.
  intros Hb Ho. unfold _emit_b_cond. destruct (negb (_use_b4 s)); [done|]. cbn [andb].
  destruct (Z.ltb_spec (-1048576) off), (Z.ltb_spec off 1048574); try lia. cbn. eauto.
Qed.

Lemma jump_size s s' off off' op b :
  (if negb (_use_b4 s) then 2 else 4) = b -> (if negb (_use_b4 s') then 2 else 4) = b ->
  -256 + b - 2 <= off <= 252 + b - 2 -> -256 + b - 2 <= off' <= 252 + b - 2 ->
  exists hs hs', _emit_jump off op s = Ok (hs, ()) /\ _emit_jump off' op s' = Ok (hs', ()) /\
    length hs = length hs'.
Proof.
  intros Hb Hb' Ho Ho'.
  assert (H : forall cond, exists hs hs', _emit_b_cond off cond s = Ok (hs, ()) /\
    _emit_b_cond off' cond s' = Ok (hs', ()) /\ length hs = length hs').
  { intros cond. assert (b = 2 \/ b = 4) as [-> | ->] by (rewrite <- Hb; destruct (negb _); auto).
    - destruct (b_cond_size s off cond) as [h ->]; [done|lia|].
      destruct (b_cond_size s' off' cond) as [h' ->]; [done|lia|]. eauto.
    - destruct (b_cond_size4 s off cond) as (h1 & h2 & ->); [done|lia|].
      destruct (b_cond_size4 s' off' cond) as (h3 & h4 & ->); [done|lia|]. eauto. }
  unfold _emit_jump, when, skip. repeat case_match; first [apply H|exists [], []; done].
Qed.

Lemma sized_jcc p t op : sized (jcc_tail p t op).
Proof.
  intros s1 s2 hs2 a H E. unfold jcc_tail in *. unfold mbind, J_bind in *.
  assert (Eu : _use_b4 s1 = _use_b4 s2) by (unfold _use_b4; now rewrite (ps_num _ _ H)).
  rewrite Eu. set (b := if negb (_use_b4 s2) then 2 else 4) in *.
  assert (Hb : b = 2 \/ b = 4) by (unfold b; destruct (negb _); auto).
  destruct (bpf2a32_offset p t b (advance s2 [])) as [[l o]| |] eqn:Eo; try done.
  apply offset_bounds in Eo as (-> & Ho & _); [|apply H|apply H].
  unfold bpf2a32_offset at 1. cbn [needGen advance set_idx]. rewrite (ps_gen1 _ _ H). cbn [negb].
  destruct (jump_size (advance (advance s1 []) []) (advance (advance s2 []) []) 0 o op b)
    as (k1 & k2 & E1 & E2 & Hk);
    [unfold b; rewrite <- Eu; reflexivity|reflexivity|lia|done|].
  rewrite E1. rewrite E2 in E. cbn in *. injection E as <- <-. eexists. split; [reflexivity|].
  rewrite !length_app. cbn. lia.
Qed.

Lemma build_jmp_alt dst src p c off im :
  build_jmp dst src p c off im =
  (if negb (BPF_SRC c =? EBPF_SRC_REG) && (off =? 0) then done
   else
     '(rm, rn) ←
       (if BPF_SRC c =? EBPF_SRC_REG then
          src ← src;
          rm ← arm_bpf_get_reg32 src.1 tmp2.1;
          rn ← arm_bpf_get_reg32 src.2 tmp2.2;
          mret (rm, rn)
        else emit_mov_se_imm64 true tmp2 im ;; mret (tmp2.1, tmp2.2));
     dst ← dst;
     rd ← arm_bpf_get_reg64 dst tmp1;
     _emit_cmp_cond rd.1 rd.2 rm rn (BPF_OP c) (BPF_CLASS c =? EBPF_CLS_JMP) ;;
     jcc_tail p (p + off) (BPF_OP c)).
Proof. reflexivity. Qed.

Lemma build_jmp_both dst src p c off im :
  steady dst -> steady src ->
  respects (build_jmp dst src p c off im) /\ sized (build_jmp dst src p c off im).
Proof.
  intros Hd Hs. rewrite build_jmp_alt. destruct (_ && _); [apply steady_both, steady_ret|].
  assert (Hget : forall z t, steady (arm_bpf_get_reg32 z t)) by (intros; unfold_emitters; emitter).
  assert (Hop : steady (if BPF_SRC c =? EBPF_SRC_REG then
      src ← src; rm ← arm_bpf_get_reg32 src.1 tmp2.1; rn ← arm_bpf_get_reg32 src.2 tmp2.2;
      mret (rm, rn)
    else emit_mov_se_imm64 true tmp2 im ;; mret (tmp2.1, tmp2.2))) by (unfold_emitters; emitter).
  assert (H64 : forall q t, steady (arm_bpf_get_reg64 q t)) by (intros; unfold_emitters; emitter).
  assert (Hcmp : forall a b c d o e, steady (_emit_cmp_cond a b c d o e))
    by (intros; unfold_emitters; emitter).
  split.
  - apply respects_bind; [now apply steady_both|]. intros [rm rn].
    apply respects_bind; [now apply steady_both|]. intros q.
    apply respects_bind; [now apply steady_both|]. intros rd.
    apply respects_bind; [now apply steady_both|]. intros _. apply respects_jcc.
  - apply sized_bind; [now apply steady_both|]. intros [rm rn].
    apply sized_bind; [now apply steady_both|]. intros q.
    apply sized_bind; [now apply steady_both|]. intros rd.
    apply sized_bind; [now apply steady_both|]. intros _. apply sized_jcc.
Qed.

Lemma build_call_both im : respects (build_call im) /\ sized (build_call im).
Proof.
  assert (Hk : forall r0 r1 r2 r3 r4 r5 func, steady (
    emit_mov_reg64 true r0 r1 ;; emit_mov_reg64 true r1 r2 ;; emit_push_r64 r5 ;;
    emit_push_r64 r4 ;; emit_push_r64 r3 ;; emit_mov_imm tmp1.2 func ;;
    emit2 (_thumb16_BLX_REG_T1 tmp1.2) ;; _emit_add_imm ARM_SP ARM_SP 24 ;; done))
    by (intros; unfold_emitters; emitter).
  assert (Hf : respects ((fun s => f ← of_option MemFault (call_word s (im * 4)); Ok ([], f)) : J Z)).
  { intros s s' H. now rewrite (al_call _ _ H). }
  assert (Hf' : sized ((fun s => f ← of_option MemFault (call_word s (im * 4)); Ok ([], f)) : J Z)).
  { intros s s' hs a H E. rewrite (ps_call _ _ H). eauto. }
  unfold build_call. split.
  - repeat (apply respects_bind; [apply steady_both, steady_lift|intros ?]).
    apply respects_bind; [exact Hf|]. intros f. apply steady_both, Hk.
  - repeat (apply sized_bind; [apply steady_both, steady_lift|intros ?]).
    apply sized_bind; [exact Hf'|]. intros f. apply steady_both, Hk.
Qed.

Lemma b_short s off : -2048 < off < 2046 -> exists h, _emit_b off s = Ok ([h], ()).
Proof.
  intros Ho. unfold _emit_b. destruct (Z.ltb_spec (-2048) off), (Z.ltb_spec off 2046); try lia.
  cbn. eauto.
Qed.

Lemma b_uniform off : uniform (_emit_b off).
Proof. enough (steady (_emit_b off)) by apply H. unfold _emit_b. unfold_emitters. emitter. Qed.

Definition ja_tail (p t : Z) : J Z :=
  jmp_offset ← bpf2a32_offset p t 2; _emit_b jmp_offset ;; done.

Lemma ja_both p t : respects (ja_tail p t) /\ sized (ja_tail p t).
Proof.
  split.
  - apply respects_bind; [apply respects_offset|]. intros o.
    apply respects_bind; [apply uniform_respects, b_uniform|]. intros _. now apply uniform_respects.
  - intros s1 s2 hs2 a H E. unfold ja_tail, mbind, J_bind in *.
    destruct (bpf2a32_offset p t 2 s2) as [[l o]| |] eqn:Eo; try done.
    apply offset_bounds in Eo as (-> & Ho & _); [|apply H|apply H].
    unfold bpf2a32_offset. rewrite (ps_gen1 _ _ H). cbn [negb].
    destruct (b_short (advance s1 []) 0 ltac:(lia)) as [h E1].
    destruct (b_short (advance s2 []) o ltac:(lia)) as [h' E2].
    rewrite E1. rewrite E2 in E. cbn in *. injection E as <- <-. eauto.
Qed.

(** The distance of the epilogue is not a byte: the second pass may need a long
    branch where the first one counted a short one. *)
Definition epilogue_near (s : jit_state) : Prop := -2048 < epilogue_at s - idx s - 4 < 2046.

Lemma exit_respects p : respects (build_exit p).
Proof.
  intros s s' H. unfold build_exit. rewrite (al_num _ _ H). destruct (_ =? _); [done|].
  unfold mbind, J_bind, epilogue_offset. rewrite (al_gen _ _ H), (al_idx _ _ H).
  destruct (needGen s') eqn:E; cbn [negb].
  - destruct (al_offsets _ _ H) as [_ ->]; [rewrite (al_gen _ _ H); done|].
    now rewrite (b_uniform _ (advance s []) (advance s' [])).
  - now rewrite (b_uniform _ (advance s []) (advance s' [])).
Qed.

Lemma exit_sized p s1 s2 hs2 a :
  passes s1 s2 -> epilogue_near s2 -> build_exit p s2 = Ok (hs2, a) ->
  exists hs1, build_exit p s1 = Ok (hs1, a) /\ length hs1 = length hs2.
Proof.
  intros H Hn E. unfold build_exit in *. rewrite (ps_num _ _ H). destruct (_ =? _); [eauto|].
  unfold mbind, J_bind, epilogue_offset in *. rewrite (ps_gen1 _ _ H). rewrite (ps_gen2 _ _ H) in E.
  cbn [negb] in *.
  destruct (b_short (advance s1 []) 0 ltac:(lia)) as [h E1].
  destruct (b_short (advance s2 []) _ Hn) as [h' E2].
  rewrite E1. rewrite E2 in E. cbn in *. injection E as <- <-. eauto.
Qed.

(** ** One instruction in two states *)
Lemma build_inst_respects i p next : respects (build_inst i p next).
Proof.
  destruct (opcode_of (opcode i)) as [o|] eqn:Ho;
    [|unfold build_inst; rewrite Ho; apply steady_both, steady_ret].
  destruct (movable o) eqn:Hm; [eapply steady_both, build_inst_steady; eassumption|].
  unfold build_inst. rewrite Ho. destruct o; try discriminate Hm; clear Ho Hm;
    first [ apply build_jmp_both; apply steady_lift | apply build_call_both | apply exit_respects
          | destruct (_ =? 0); [apply steady_both, steady_ret|apply ja_both] ].
Qed.

Lemma build_inst_sized i p next s1 s2 hs2 a :
  passes s1 s2 -> epilogue_near s2 -> build_inst i p next s2 = Ok (hs2, a) ->
  exists hs1, build_inst i p next s1 = Ok (hs1, a) /\ length hs1 = length hs2.
Proof.
  intros H Hn.
  destruct (opcode_of (opcode i)) as [o|] eqn:Ho;
    [|unfold build_inst; rewrite Ho; revert H; apply steady_both, steady_ret].
  destruct (movable o) eqn:Hm.
  { revert H. eapply steady_both, build_inst_steady; eassumption. }
  unfold build_inst. rewrite Ho. destruct o; try discriminate Hm; clear Ho Hm;
    first [ now apply exit_sized | revert H; apply build_jmp_both; apply steady_lift
          | revert H; apply build_call_both
          | destruct (_ =? 0); revert H; [apply steady_both, steady_ret|apply ja_both] ].
Qed.
