(* ===== verification/JitLayout.v ===== *)
(** * Where the code is

    [next s] steps from an instruction and its position to the next ones, for the
    code that the state [s] emits; [reached] are the pairs of the whole pass. The
    first pass records the end of each instruction ([count_body]); the second one
    puts the code of each instruction at its position ([gen_body]). With
    [JitPasses], an instruction behind a jump target starts where the record says
    ([compile_layout]). *)
From stdpp Require Import base tactics numbers list relations.
From Stdlib Require Import ZArith Lia.
From S2P Require Import Prelude Inst VM VMFacts Thumb2 Arm Jit Thumb2Facts ArmFacts JitLogic JitPasses.
Local Open Scope Z_scope.
Local Open Scope bits_scope.

(** The code of instruction [i] at position [pos]. *)
Definition code_of (s : jit_state) (i pos : Z) : option (list Z * Z) :=
  if inst_num s <=? i then None
  else
    inst ← inst_at (prog s) i;
    match build_inst inst i (inst_at (prog s) (i + 1)) (set_idx s pos) with
    | Ok r => Some r
    | _ => None
    end.

(** The number of slots of an instruction that [build_inst] returned [r] for. *)
Definition slots_of (r : Z) : Z := if 0 <? r then 2 else 1.

Definition next (s : jit_state) (a b : Z * Z) : Prop :=
  exists hs r, code_of s a.1 a.2 = Some (hs, r) /\ 0 <= r /\
    b = (a.1 + slots_of r, a.2 + 2 * Z.of_nat (length hs)).

(** ** Writing halfwords *)
Lemma emit_all_count s hs : needGen s = false -> emit_all s hs = Ok (advance s hs).
Proof.
  revert s. induction hs as [|h hs IH]; intros s Hg; cbn [emit_all].
  - unfold advance, set_idx. cbn. rewrite Z.add_0_r. now destruct s.
  - unfold emit_bytes. rewrite Hg, length_le_bytes. cbn [mbind res_bind].
    rewrite IH by done. f_equal. unfold advance, set_idx. cbn [idx prog inst_num jit_code code_addr
      code_ptr epilogue_at offsets needGen call_word length]. f_equal. lia.
Qed.

(** The fields that writing code leaves alone. *)
Record kept (s s' : jit_state) : Prop := Kept {
  kp_prog : prog s' = prog s;
  kp_num : inst_num s' = inst_num s;
  kp_addr : code_addr s' = code_addr s;
  kp_ptr : code_ptr s' = code_ptr s;
  kp_epi : epilogue_at s' = epilogue_at s;
  kp_offsets : offsets s' = offsets s;
  kp_gen : needGen s' = needGen s;
  kp_call : call_word s' = call_word s;
}.

Lemma kept_refl s : kept s s.
Proof. done. Qed.
Lemma kept_trans s1 s2 s3 : kept s1 s2 -> kept s2 s3 -> kept s1 s3.
Proof. intros [] []. constructor; congruence. Qed.

(** What the second pass has written up to the end. *)
Record wrote (s s' : jit_state) : Prop := Wrote {
  wr_kept : kept s s';
  wr_idx : idx s <= idx s';
  wr_len : length (jit_code s') = length (jit_code s);
  wr_take : take (Z.to_nat (idx s)) (jit_code s') = take (Z.to_nat (idx s)) (jit_code s);
}.

Lemma wrote_refl s : wrote s s.
Proof. constructor; auto using kept_refl. lia. Qed.

Lemma take_take_eq {A} (l l' : list A) n m : (m <= n)%nat -> take n l = take n l' -> take m l = take m l'.
Proof.
  intros Hm E. replace (take m l) with (take m (take n l)) by (rewrite take_take; f_equal; lia).
  rewrite E, take_take. f_equal. lia.
Qed.

Lemma wrote_trans s1 s2 s3 : 0 <= idx s1 -> wrote s1 s2 -> wrote s2 s3 -> wrote s1 s3.
Proof.
  intros H0 [] []. constructor; [eapply kept_trans; eassumption|lia|congruence|].
  rewrite <- wr_take0. apply take_take_eq with (Z.to_nat (idx s2)); [lia|done].
Qed.

(** A state of the second pass that writes through the start of the buffer. *)
Record ready (s : jit_state) : Prop := Ready {
  rd_gen : needGen s = true;
  rd_ptr : code_ptr s = code_addr s;
  rd_idx : 0 <= idx s;
  rd_fit : idx s <= Z.of_nat (length (jit_code s));
}.

Lemma wrote_ready s s' :
  ready s -> wrote s s' -> idx s' <= Z.of_nat (length (jit_code s')) -> ready s'.
Proof. intros [] [[] ]. constructor; [congruence|congruence|lia|lia]. Qed.

Lemma fetch16_take c c' k p :
  take k c = take k c' -> length c = length c' -> p + 2 <= Z.of_nat k ->
  fetch16 c p = fetch16 c' p.
Proof.
  intros E El Hp. unfold fetch16. rewrite El. destruct (_ && _) eqn:H; [|done].
  do 2 f_equal. unfold slice. rewrite !take_drop_commute.
  f_equal. apply take_take_eq with k; [lia|done].
Qed.

Lemma code_at_take c c' k pos hs :
  code_at c pos hs -> take k c = take k c' -> length c = length c' ->
  pos + 2 * Z.of_nat (length hs) <= Z.of_nat k -> code_at c' pos hs.
Proof.
  intros (H0 & H1 & H) E El Hk. split; [done|]. split; [lia|]. intros j h Hj.
  rewrite <- (H j h Hj). symmetry. apply fetch16_take with k; [done|done|].
  apply lookup_lt_Some in Hj. lia.
Qed.

Lemma emit_bytes_gen s h s' :
  ready s -> halfword h -> emit_bytes s (le_bytes 2 h) = Ok s' ->
  wrote s s' /\ ready s' /\ idx s' = idx s + 2 /\ code_at (jit_code s') (idx s) [h].
Proof.
  intros Hr Hh E. pose proof Hr as [Hg Hp Hi _]. unfold emit_bytes in E. rewrite Hg, length_le_bytes in E.
  replace (code_ptr s - code_addr s + idx s) with (idx s) in E by lia.
  destruct (_ && _) eqn:Hb; [|done]. cbn -[le_bytes] in E. injection E as <-.
  change [h mod 256; (h / 256) mod 256] with (le_bytes 2 h).
  cbn [idx set_idx set_code jit_code]. rewrite andb_true_iff, !Z.leb_le in Hb. change (Z.of_nat 2) with 2 in *.
  assert (Hl : (Z.to_nat (idx s) + length (le_bytes 2 h) <= length (jit_code s))%nat)
    by (rewrite length_le_bytes; lia).
  match goal with |- wrote _ ?s' /\ _ => assert (Hw : wrote s s') end.
  { constructor; cbn; [done|lia|now apply length_splice|].
    unfold splice. rewrite take_app_le by (rewrite length_take; lia). rewrite take_take. f_equal. lia. }
  split; [done|]. split; [|split; [lia|]].
  - eapply wrote_ready; [done|exact Hw|]. cbn. rewrite length_splice by done. lia.
  - split; [done|]. split; [cbn; rewrite length_splice by done; lia|].
    intros [|k] x Hx; [|done]. cbn in Hx. injection Hx as <-.
    unfold fetch16. rewrite length_splice by done. cbn [Z.of_nat Z.mul]. rewrite Z.add_0_r.
    destruct (_ && _) eqn:Hb'; [|lia]. f_equal.
    pose proof (slice_splice_eq _ _ _ Hl) as Hs. rewrite length_le_bytes in Hs.
    rewrite Hs, le_val_le_bytes. apply Z.mod_small. exact Hh.
Qed.

Lemma code_at_cons c pos h hs :
  code_at c pos [h] -> code_at c (pos + 2) hs -> code_at c pos (h :: hs).
Proof.
  intros (H0 & H1 & H) (G0 & G1 & G). split; [done|]. cbn [length] in *. split; [lia|].
  intros [|k] x Hx; [now apply H|]. rewrite <- (G k x Hx). f_equal. lia.
Qed.

Lemma emit_all_gen s hs s' :
  ready s -> Forall halfword hs -> emit_all s hs = Ok s' ->
  wrote s s' /\ ready s' /\ idx s' = idx s + 2 * Z.of_nat (length hs) /\
  code_at (jit_code s') (idx s) hs.
Proof.
  revert s. induction hs as [|h hs IH]; intros s Hr Hh E; cbn [emit_all] in E.
  { injection E as <-. split; [apply wrote_refl|]. split; [done|]. split; [cbn; lia|].
    destruct Hr. split; [done|]. split; [cbn; lia|]. now intros k h Hk. }
  apply bind_Ok in E as (s1 & E1 & E2). inversion_clear Hh.
  apply emit_bytes_gen in E1 as (W1 & R1 & I1 & C1); [|done..].
  apply IH in E2 as (W2 & R2 & I2 & C2); [|done..].
  split; [eapply wrote_trans; [apply Hr|eassumption..]|]. split; [done|]. cbn [length].
  split; [lia|]. apply code_at_cons; [|now rewrite <- I1].
  destruct W2. apply code_at_take with (jit_code s1) (Z.to_nat (idx s1)); [done|done|done|].
  destruct R1. cbn. lia.
Qed.

(** ** The loop over the instructions *)
Record same_source (s s' : jit_state) : Prop := SameSource {
  ss_prog : prog s = prog s';
  ss_num : inst_num s = inst_num s';
  ss_call : call_word s = call_word s';
  ss_gen : needGen s = needGen s';
  ss_offsets : needGen s = true -> offsets s = offsets s' /\ epilogue_at s = epilogue_at s';
}.

Lemma kept_source s s' : kept s s' -> same_source s s'.
Proof. intros []. constructor; try congruence. intros _. split; congruence. Qed.

Lemma code_of_source s s' i pos : same_source s s' -> code_of s i pos = code_of s' i pos.
Proof.
  intros []. unfold code_of. rewrite ss_prog0, ss_num0. destruct (_ <=? _); [done|].
  destruct (inst_at _ i) as [inst|]; [|done]. cbn.
  rewrite (build_inst_respects inst i _ (set_idx s pos) (set_idx s' pos)); [done|].
  constructor; cbn; auto.
Qed.

Lemma next_source s s' a b : same_source s s' -> next s a b <-> next s' a b.
Proof. intros H. unfold next. rewrite (code_of_source s s' _ _ H). done. Qed.

Lemma reach_source s s' a b : same_source s s' -> rtc (next s) a b -> rtc (next s') a b.
Proof. intros H. apply rtc_subrel. intros x y. apply (next_source s s' x y H). Qed.

(** The instruction at the current position. *)
Lemma code_of_here s i inst :
  i < inst_num s -> inst_at (prog s) i = Some inst ->
  code_of s i (idx s) =
  match build_inst inst i (inst_at (prog s) (i + 1)) s with Ok r => Some r | _ => None end.
Proof.
  intros Hi E. unfold code_of. destruct (Z.leb_spec (inst_num s) i); [lia|]. rewrite E. cbn.
  rewrite (build_inst_respects inst i _ (set_idx s (idx s)) s); [done|]. now constructor.
Qed.

Lemma next_end s i pos b : inst_num s <= i -> ~ next s (i, pos) b.
Proof.
  intros Hi (hs & r & E & _). unfold code_of in E. cbn in E.
  destruct (Z.leb_spec (inst_num s) i); [done|lia].
Qed.

(** What is known of a pass from its reached positions. *)
Lemma reach_cases s i pos hs r (P : Z * Z -> Prop) :
  code_of s i pos = Some (hs, r) -> P (i, pos) ->
  (0 <= r -> forall b, rtc (next s) (i + slots_of r, pos + 2 * Z.of_nat (length hs)) b -> P b) ->
  forall b, rtc (next s) (i, pos) b -> P b.
Proof.
  intros E H0 H b Hb. apply rtc_inv in Hb as [<-|([i' p'] & (hs' & r' & E' & Hr & [= -> ->]) & Hb)]; [done|].
  cbn in *. rewrite E in E'. injection E' as <- <-. auto.
Qed.

(** The second pass puts the code of every instruction at its position. *)
Definition generated (s s' : jit_state) (a : Z * Z) : Prop :=
  a.2 <= idx s' /\ (inst_num s <= a.1 -> a.2 = idx s') /\
  (a.1 < inst_num s -> exists hs r, code_of s a.1 a.2 = Some (hs, r) /\
     code_at (jit_code s') a.2 hs /\ a.2 + 2 * Z.of_nat (length hs) <= idx s').

Lemma gen_body fuel i s s' :
  ready s -> build_body fuel i s = Ok s' -> inst_num s <= i + Z.of_nat fuel ->
  wrote s s' /\ ready s' /\ forall b, rtc (next s) (i, idx s) b -> generated s s' b.
Proof.
  revert i s. induction fuel as [|fuel IH]; intros i s Hr E Hf; cbn [build_body] in E.
  { injection E as <-. split; [apply wrote_refl|]. split; [done|]. intros b Hb.
    apply rtc_inv in Hb as [<-|(c & Hc & _)]; [|now apply next_end in Hc; [|lia]].
    split; cbn; [lia|]. split; [done|]. lia. }
  destruct (Z.leb_spec (inst_num s) i) as [Hi|Hi].
  { injection E as <-. split; [apply wrote_refl|]. split; [done|]. intros b Hb.
    apply rtc_inv in Hb as [<-|(c & Hc & _)]; [|now apply next_end in Hc].
    split; cbn; [lia|]. split; [done|]. lia. }
  destruct (inst_at (prog s) i) as [inst|] eqn:Ei; [|done]. cbn in E.
  pose proof (code_of_here s i inst Hi Ei) as Ec.
  unfold run_emit in E. destruct (build_inst _ _ _ s) as [[hs r]| |] eqn:Eb; try done. cbn in E.
  destruct (emit_all s hs) as [s1| |] eqn:Ea; try done. cbn in E.
  apply emit_all_gen in Ea as (W1 & R1 & I1 & C1);
    [|done|exact (build_inst_halfwords _ _ _ _ _ _ Eb)].
  pose proof (kept_source _ _ (wr_kept _ _ W1)) as Hsrc.
  assert (Hcont : forall i' s2, build_body fuel i' s1 = Ok s2 -> s2 = s' -> i' = i + slots_of r -> 0 <= r ->
    wrote s s' /\ ready s' /\ forall b, rtc (next s) (i, idx s) b -> generated s s' b).
  { intros i' s2 E2 -> -> Hr0. apply IH in E2 as (W2 & R2 & H2); [|done|].
    2: { rewrite (kp_num _ _ (wr_kept _ _ W1)). unfold slots_of. destruct (0 <? r); lia. }
    split; [eapply wrote_trans; [apply Hr|done..]|]. split; [done|].
    assert (Hle : idx s1 <= idx s') by apply W2.
    apply (reach_cases s i (idx s) hs r _ Ec).
    - split; cbn; [lia|]. split; [lia|]. intros _. exists hs, r. split; [done|]. split; [|lia].
      apply code_at_take with (jit_code s1) (Z.to_nat (idx s1)); [done|symmetry; apply W2|symmetry; apply W2|].
      destruct R1. lia.
    - intros _ b Hb. rewrite <- I1 in Hb. apply (reach_source _ _ _ _ Hsrc) in Hb.
      destruct (H2 b Hb) as (G1 & G2 & G3). rewrite (kp_num _ _ (wr_kept _ _ W1)) in *.
      split; [done|]. split; [done|]. intros Hj. destruct (G3 Hj) as (hs' & r' & E' & ?).
      exists hs', r'. now rewrite (code_of_source _ _ _ _ Hsrc). }
  unfold record_offset in E. rewrite (rd_gen _ R1) in E. cbn in E.
  destruct (Z.ltb_spec 0 r) as [Hr0|Hr0]; [|destruct (Z.ltb_spec r 0) as [Hr1|Hr1]].
  - apply (Hcont _ _ E); [done| |lia]. unfold slots_of. destruct (Z.ltb_spec 0 r); lia.
  - injection E as <-. split; [done|]. split; [done|].
    apply (reach_cases s i (idx s) hs r _ Ec); [|lia].
    split; cbn; [lia|]. split; [lia|]. intros _. exists hs, r. split; [done|]. split; [done|lia].
  - apply (Hcont _ _ E); [done| |lia]. unfold slots_of. destruct (Z.ltb_spec 0 r); lia.
Qed.

(** The first pass records the end of each instruction at its last slot. *)
Definition counted (s s' : jit_state) (a : Z * Z) : Prop :=
  a.2 <= idx s' /\ (inst_num s <= a.1 -> a.2 = idx s') /\
  forall b, next s a b -> b.2 <= idx s' /\ arr_get (offsets s') (b.1 - 1) = Some (u8 b.2).

(** What the first pass does to the state. *)
Record marked (i : Z) (s s' : jit_state) : Prop := Marked {
  mk_source : same_source s s';
  mk_code : jit_code s' = jit_code s /\ code_addr s' = code_addr s /\ code_ptr s' = code_ptr s;
  mk_idx : idx s <= idx s' /\ idx s' mod 2 = 0;
  mk_even : Forall even_byte (offsets s');
  mk_low : forall k, k < i -> arr_get (offsets s') k = arr_get (offsets s) k;
}.

Lemma u8_even z : z mod 2 = 0 -> even_byte (u8 z).
Proof. unfold even_byte, u8. pow_cst. intros. Z.div_mod_to_equations. lia. Qed.

Lemma record_offset_marked i s s' :
  needGen s = false -> idx s mod 2 = 0 -> Forall even_byte (offsets s) ->
  record_offset s i = Ok s' ->
  marked i s s' /\ idx s' = idx s /\ arr_get (offsets s') i = Some (u8 (idx s)) /\
  forall k, k <> i -> arr_get (offsets s') k = arr_get (offsets s) k.
Proof.
  intros Hg Hi He E. unfold record_offset in E. rewrite Hg in E.
  destruct (arr_set (offsets s) i (u8 (idx s))) as [o|] eqn:Eo; [|done]. injection E as <-. cbn.
  assert (Hne : forall k, k <> i -> arr_get o k = arr_get (offsets s) k)
    by (intros k Hk; eapply arr_get_set_ne; [exact Eo|done]).
  split; [|split; [done|split; [eapply arr_get_set_eq, Eo|done]]].
  constructor; cbn; [|done|lia| |intros; apply Hne; lia].
  - constructor; cbn; auto. congruence.
  - apply arr_set_Some in Eo as [_ ->]. apply Forall_insert; [done|]. now apply u8_even.
Qed.

Lemma marked_refl i s : idx s mod 2 = 0 -> Forall even_byte (offsets s) -> marked i s s.
Proof. intros. now constructor. Qed.

Lemma marked_trans i j s1 s2 s3 :
  needGen s1 = false -> i <= j -> marked i s1 s2 -> marked j s2 s3 -> marked i s1 s3.
Proof.
  intros Hg Hij [[] (? & ? & ?) [] ? M1] [[] (? & ? & ?) [] ? M2].
  constructor; [constructor; congruence|split_and!; congruence|lia|done|].
  intros k Hk. rewrite M2, M1 by lia. done.
Qed.

Lemma advance_source s hs : same_source s (advance s hs).
Proof. now constructor. Qed.

Lemma count_body fuel i s s' :
  needGen s = false -> idx s mod 2 = 0 -> Forall even_byte (offsets s) ->
  build_body fuel i s = Ok s' -> inst_num s <= i + Z.of_nat fuel ->
  marked i s s' /\ forall b, rtc (next s) (i, idx s) b -> counted s s' b.
Proof.
  revert i s. induction fuel as [|fuel IH]; intros i s Hg Hev He E Hf; cbn [build_body] in E.
  { injection E as <-. split; [now apply marked_refl|]. intros b Hb.
    apply rtc_inv in Hb as [<-|(c & Hc & _)]; [|now apply next_end in Hc; [|lia]].
    split; cbn; [lia|]. split; [done|]. intros c Hc. now apply next_end in Hc; [|lia]. }
  destruct (Z.leb_spec (inst_num s) i) as [Hi|Hi].
  { injection E as <-. split; [now apply marked_refl|]. intros b Hb.
    apply rtc_inv in Hb as [<-|(c & Hc & _)]; [|now apply next_end in Hc].
    split; cbn; [lia|]. split; [done|]. intros c Hc. now apply next_end in Hc. }
  destruct (inst_at (prog s) i) as [inst|] eqn:Ei; [|done]. cbn in E.
  pose proof (code_of_here s i inst Hi Ei) as Ec.
  unfold run_emit in E. destruct (build_inst _ _ _ s) as [[hs r]| |] eqn:Eb; try done. cbn in E.
  rewrite emit_all_count in E by done. cbn in E.
  assert (Hcont : forall j, j + 1 = i + slots_of r -> 0 <= r ->
    (s2 ← record_offset (advance s hs) j; build_body fuel (j + 1) s2) = Ok s' ->
    marked i s s' /\ forall b, rtc (next s) (i, idx s) b -> counted s s' b).
  { intros j Hj Hr0 E2. apply bind_Ok in E2 as (s2 & E1 & E2).
    assert (Hij : i <= j) by (unfold slots_of in Hj; destruct (0 <? r); lia).
    apply record_offset_marked in E1 as (M1 & I1 & G1 & N1);
      [|done|cbn; Z.div_mod_to_equations; lia|done].
    assert (Hsrc : same_source s s2).
    { destruct M1 as [[] _ _ _ _]. constructor; cbn in *; auto. }
    assert (Hg2 : needGen s2 = false) by (rewrite <- (ss_gen _ _ Hsrc); done).
    apply IH in E2 as (M2 & H2); [|done|apply M1|apply M1|rewrite <- (ss_num _ _ Hsrc); lia].
    assert (M0 : marked j s s2).
    { destruct M1 as [_ ? [? ?] ? ?]. constructor; auto. cbn in *. lia. }
    split; [apply marked_trans with (j + 1) s2; [done|lia| |done]|].
    { destruct M0 as [? ? ? ? L]. constructor; auto. intros k Hk. apply L. lia. }
    cbn in I1. rewrite I1 in H2.
    assert (Hle : idx s2 <= idx s') by apply M2.
    apply (reach_cases s i (idx s) hs r _ Ec).
    - split; cbn; [lia|]. split; [lia|]. intros b (hs' & r' & E' & _ & ->). cbn in *.
      rewrite Ec in E'. injection E' as <- <-. split; [lia|].
      replace (i + slots_of r - 1) with j by lia. rewrite (mk_low _ _ _ M2) by lia.
      now rewrite G1.
    - intros _ b Hb. rewrite <- Hj in Hb. apply (reach_source _ _ _ _ Hsrc) in Hb.
      destruct (H2 b Hb) as (G2 & G3 & G4). rewrite <- (ss_num _ _ Hsrc) in G3.
      split; [done|]. split; [done|]. intros c Hc. apply G4. now apply (next_source _ _ _ _ Hsrc). }
  destruct (Z.ltb_spec 0 r) as [Hr0|Hr0]; [|destruct (Z.ltb_spec r 0) as [Hr1|Hr1]].
  - apply (Hcont (i + 1)); [unfold slots_of; destruct (Z.ltb_spec 0 r); lia|lia|].
    now replace (i + 1 + 1) with (i + 2) by lia.
  - apply bind_Ok in E as (s2 & E1 & [= ->]).
    apply record_offset_marked in E1 as (M1 & I1 & G1 & N1);
      [|done|cbn; Z.div_mod_to_equations; lia|done].
    cbn in I1. split.
    { destruct M1 as [[] ? [? ?] ? ?]. constructor; cbn in *; auto; [constructor; cbn in *; auto|lia]. }
    apply (reach_cases s i (idx s) hs r _ Ec); [|lia].
    split; cbn; [lia|]. split; [lia|]. intros b (hs' & r' & E' & ? & ->). cbn in *.
    rewrite Ec in E'. injection E' as <- <-. lia.
  - apply (Hcont i); [unfold slots_of; destruct (Z.ltb_spec 0 r); lia|lia|done].
Qed.

(** ** Both passes *)
Lemma count_idx fuel i s s' :
  needGen s = false -> build_body fuel i s = Ok s' -> idx s <= idx s'.
Proof.
  revert i s. induction fuel as [|fuel IH]; intros i s Hg E; cbn [build_body] in E.
  { injection E as <-. lia. }
  destruct (_ <=? _); [injection E as <-; lia|].
  destruct (inst_at (prog s) i) as [inst|]; [|done]. cbn in E.
  unfold run_emit in E. destruct (build_inst _ _ _ s) as [[hs r]| |]; try done. cbn in E.
  rewrite emit_all_count in E by done. cbn in E.
  assert (Hrec : forall j s2, record_offset (advance s hs) j = Ok s2 ->
    needGen s2 = false /\ idx s <= idx s2).
  { intros j s2 H. unfold record_offset in H. cbn [needGen advance set_idx] in H. rewrite Hg in H.
    apply bind_Ok in H as (o & _ & [= <-]). cbn. split; [done|lia]. }
  destruct (0 <? r); [|destruct (r <? 0)]; apply bind_Ok in E as (s2 & E1 & E);
    apply Hrec in E1 as [Hg2 Hi2].
  - apply IH in E; [lia|done].
  - injection E as <-. lia.
  - apply IH in E; [lia|done].
Qed.

(** The second pass ends where the first one ended. *)
Lemma body_lockstep fuel i s1 s2 s1' s2' :
  passes s1 s2 -> prog s1 = prog s2 -> ready s2 ->
  build_body fuel i s1 = Ok s1' -> build_body fuel i s2 = Ok s2' ->
  epilogue_at s2 = idx s1' -> epilogue_at s2 < 2048 -> idx s2' = idx s1'.
Proof.
  revert i s1 s2. induction fuel as [|fuel IH]; intros i s1 s2 Hp Hprog Hr E1 E2 Hepi Hnear.
  { injection E1 as <-. injection E2 as <-. symmetry. apply Hp. }
  pose proof (count_idx _ _ _ _ (ps_gen1 _ _ Hp) E1) as Hle.
  cbn [build_body] in E1, E2. rewrite (ps_num _ _ Hp), Hprog in E1.
  destruct (_ <=? _). { injection E1 as <-. injection E2 as <-. symmetry. apply Hp. }
  destruct (inst_at (prog s2) i) as [inst|]; [|done]. cbn in E1, E2.
  unfold run_emit in E1, E2.
  destruct (build_inst inst i _ s2) as [[h2 r]| |] eqn:B2; try done.
  destruct (build_inst_sized inst i (inst_at (prog s2) (i + 1)) s1 s2 h2 r Hp) as (h1 & B1 & Hl); [|done|].
  { pose proof (rd_idx _ Hr). pose proof (ps_idx _ _ Hp). unfold epilogue_near. lia. }
  rewrite B1 in E1. cbn in E1, E2. rewrite emit_all_count in E1 by apply Hp. cbn in E1.
  destruct (emit_all s2 h2) as [s3| |] eqn:Ea; try done. cbn in E2.
  apply emit_all_gen in Ea as (W & R3 & I3 & _); [|done|exact (build_inst_halfwords _ _ _ _ _ _ B2)].
  unfold record_offset in E2. rewrite (rd_gen _ R3) in E2. cbn in E2.
  assert (Hstep : forall j k s4, record_offset (advance s1 h1) j = Ok s4 ->
    build_body fuel k s4 = Ok s1' -> build_body fuel k s3 = Ok s2' -> idx s2' = idx s1').
  { intros j k s4 H4 F1 F2. unfold record_offset in H4. cbn [needGen advance set_idx] in H4.
    rewrite (ps_gen1 _ _ Hp) in H4. apply bind_Ok in H4 as (o & Ho & [= <-]).
    destruct W as [[] _ _ _], Hp. eapply (IH k); [| | |exact F1|exact F2|..]; try congruence; cbn; auto.
    - constructor; cbn; congruence.
    - congruence. }
  destruct (0 <? r); [|destruct (r <? 0)]; apply bind_Ok in E1 as (s4 & H4 & E1).
  - now apply (Hstep _ _ _ H4 E1).
  - injection E1 as <-. injection E2 as <-. unfold record_offset in H4.
    cbn [needGen advance set_idx] in H4. rewrite (ps_gen1 _ _ Hp) in H4.
    apply bind_Ok in H4 as (o & Ho & [= <-]). cbn. rewrite I3, (ps_idx _ _ Hp). lia.
  - now apply (Hstep _ _ _ H4 E1).
Qed.

Definition halfwords_of (m : J ()) : list Z :=
  match m (JitState [] 0 [] 0 0 0 0 [] false (fun _ => None)) with Ok (hs, _) => hs | _ => [] end.

Definition prologue_code : list Z := halfwords_of build_prologue.
Definition epilogue_code : list Z := halfwords_of build_epilogue.

Lemma prologue_eq s : build_prologue s = Ok (prologue_code, ()).
Proof. reflexivity. Qed.
Lemma epilogue_eq s : build_epilogue s = Ok (epilogue_code, ()).
Proof. reflexivity. Qed.

(** The size of the prologue. *)
Definition body_start : Z := 26.

Lemma prologue_length : 2 * Z.of_nat (length prologue_code) = body_start.
Proof. vm_compute. reflexivity. Qed.

Lemma fixed_halfwords : Forall halfword prologue_code /\ Forall halfword epilogue_code.
Proof.
  assert (H : forall l, forallb (fun h => (0 <=? h) && (h <? 65536)) l = true -> Forall halfword l).
  { intros l Hl. apply Forall_forall. intros h Hh%list_elem_of_In.
    rewrite List.forallb_forall in Hl. apply Hl in Hh. unfold halfword. pow_cst. lia. }
  split; apply H; vm_compute; reflexivity.
Qed.

(** What holds of the code of a compiled program. *)
Record laid_out (s : jit_state) : Prop := LaidOut {
  lo_ready : ready s;
  lo_prologue : code_at (jit_code s) 0 prologue_code;
  lo_epilogue : code_at (jit_code s) (epilogue_at s) epilogue_code;
  lo_code : forall i pos, rtc (next s) (0, body_start) (i, pos) -> i < inst_num s ->
    exists hs r, code_of s i pos = Some (hs, r) /\ code_at (jit_code s) pos hs;
  lo_end : forall i pos, rtc (next s) (0, body_start) (i, pos) ->
    body_start <= pos <= epilogue_at s /\ (inst_num s <= i -> pos = epilogue_at s);
  lo_offsets : forall a i pos, rtc (next s) (0, body_start) a -> next s a (i, pos) ->
    arr_get (offsets s) (i - 1) = Some (u8 pos);
  lo_even : Forall even_byte (offsets s);
}.

(** A pass does not move backwards. *)
Lemma reach_pos s a b : rtc (next s) a b -> a.2 <= b.2.
Proof.
  induction 1 as [|x y z (hs & r & _ & _ & ->) _ IH]; [lia|]. cbn in IH. lia.
Qed.

Lemma code_at_kept s s' pos hs :
  wrote s s' -> ready s -> code_at (jit_code s) pos hs -> pos + 2 * Z.of_nat (length hs) <= idx s ->
  code_at (jit_code s') pos hs.
Proof.
  intros W Hr H Hp. apply code_at_take with (jit_code s) (Z.to_nat (idx s)); [done|..].
  - symmetry. apply W.
  - symmetry. apply W.
  - destruct Hr. lia.
Qed.

Lemma run_emit_count (m : J ()) hs s :
  m s = Ok (hs, ()) -> needGen s = false -> run_emit m s = Ok (advance s hs, ()).
Proof. intros E Hg. unfold run_emit. rewrite E. cbn. now rewrite emit_all_count. Qed.

Lemma run_emit_gen (m : J ()) hs s s' :
  m s = Ok (hs, ()) -> ready s -> Forall halfword hs -> run_emit m s = Ok (s', ()) ->
  wrote s s' /\ ready s' /\ idx s' = idx s + 2 * Z.of_nat (length hs) /\
  code_at (jit_code s') (idx s) hs.
Proof.
  intros E Hr Hh H. unfold run_emit in H. rewrite E in H. cbn in H.
  apply bind_Ok in H as (s1 & H & [= <-]). now apply emit_all_gen.
Qed.

(** A step of the second pass is one of the first. *)
Lemma next_agree s1 s2 a b :
  passes (set_idx s1 a.2) (set_idx s2 a.2) -> prog s1 = prog s2 -> epilogue_near (set_idx s2 a.2) ->
  next s2 a b -> next s1 a b.
Proof.
  intros Hp Hprog Hn (hs & r & E & Hr & ->). unfold code_of in E.
  destruct (_ <=? _) eqn:Ei; [done|]. destruct (inst_at _ a.1) as [inst|] eqn:Einst; [|done]. cbn in E.
  destruct (build_inst _ _ _ (set_idx s2 a.2)) as [[h2 r2]| |] eqn:B2; try done. injection E as -> ->.
  destruct (build_inst_sized _ _ _ _ _ _ _ Hp Hn B2) as (h1 & B1 & Hl).
  exists h1, r. rewrite Hl. split; [|done]. unfold code_of.
  pose proof (ps_num _ _ Hp) as En. cbn in En. rewrite En, Ei, Hprog, Einst. cbn. now rewrite B1.
Qed.

Lemma jit_compile_eq s :
  jit_compile s =
  ('(s, _) ← run_emit build_prologue (set_pass s false (epilogue_at s));
   s ← body s;
   '(s, _) ← run_emit build_prologue (set_pass s true (idx s));
   s ← body s;
   '(s, _) ← run_emit build_epilogue s;
   Ok s).
Proof. reflexivity. Qed.

(** The states between the phases of [jit_compile]: [s1] and [s2] before and after the
    body of the first pass, [s4] and [s5] of the second. *)
Record phases (s s1 s2 s4 s5 s' : jit_state) : Prop := Phases {
  ph_source : prog s1 = prog s /\ inst_num s1 = inst_num s /\ offsets s1 = offsets s /\ needGen s1 = false;
  ph_buffer : code_addr s1 = code_addr s /\ code_ptr s1 = code_ptr s /\ jit_code s1 = jit_code s;
  ph_start1 : idx s1 = body_start;
  ph_body1 : build_body (Z.to_nat (inst_num s1)) 0 s1 = Ok s2;
  ph_marked : marked 0 s1 s2;
  ph_counted : forall b, rtc (next s1) (0, body_start) b -> counted s1 s2 b;
  ph_prologue : wrote (set_pass s2 true (idx s2)) s4 /\ ready s4 /\ code_at (jit_code s4) 0 prologue_code;
  ph_start2 : idx s4 = body_start;
  ph_body2 : build_body (Z.to_nat (inst_num s4)) 0 s4 = Ok s5;
  ph_wrote : wrote s4 s5 /\ ready s5;
  ph_generated : forall b, rtc (next s4) (0, body_start) b -> generated s4 s5 b;
  ph_epilogue : wrote s5 s' /\ ready s' /\ code_at (jit_code s') (idx s5) epilogue_code;
  ph_end : idx s' = idx s5 + 8;
}.

Lemma compile_phases s s' :
  jit_compile s = Ok s' -> code_ptr s = code_addr s -> Forall even_byte (offsets s) ->
  0 <= inst_num s -> exists s1 s2 s4 s5, phases s s1 s2 s4 s5 s'.
Proof.
  intros E Hptr Hev Hn. rewrite jit_compile_eq in E.
  apply bind_Ok in E as ((s1 & []) & E1 & E).
  rewrite (run_emit_count build_prologue prologue_code) in E1 by (apply prologue_eq || reflexivity).
  injection E1 as E1.
  assert (I1 : idx s1 = body_start)
    by (rewrite <- E1; unfold advance; cbn [idx set_idx set_pass]; now rewrite prologue_length).
  assert (Hs1 : prog s1 = prog s /\ inst_num s1 = inst_num s /\ offsets s1 = offsets s /\ needGen s1 = false)
    by (rewrite <- E1; done).
  assert (Hb1 : code_addr s1 = code_addr s /\ code_ptr s1 = code_ptr s /\ jit_code s1 = jit_code s)
    by (rewrite <- E1; done).
  clear E1. apply bind_Ok in E as (s2 & E2 & E). unfold body in E2.
  apply bind_Ok in E as ((s4 & []) & E4 & E). apply bind_Ok in E as (s5 & E5 & E). unfold body in E5.
  apply bind_Ok in E as ((s6 & []) & E6 & [= ->]).
  destruct fixed_halfwords as [Hp He]. destruct Hs1 as (Hp1 & Hn1 & Ho1 & Hg1), Hb1 as (Ha1 & Hptr1 & Hc1).
  pose proof E2 as C2. apply count_body in C2 as (Mk & HC); [|done|now rewrite I1|congruence|lia].
  destruct (mk_code _ _ _ Mk) as (Mc & Ma & Mp). destruct (mk_idx _ _ _ Mk) as [Mi _].
  apply (run_emit_gen _ prologue_code) in E4 as (W4 & R4 & I4 & C4); [|apply prologue_eq| |done].
  2: { constructor; cbn; [done|congruence|lia|lia]. }
  change (idx (set_pass s2 true (idx s2))) with 0 in I4, C4.
  rewrite prologue_length, Z.add_0_l in I4.
  pose proof E5 as G5. apply gen_body in G5 as (W5 & R5 & HG); [|done|lia].
  apply (run_emit_gen _ epilogue_code) in E6 as (W6 & R6 & I6 & C6); [|apply epilogue_eq|done..].
  exists s1, s2, s4, s5. rewrite I1 in HC. rewrite I4 in HG. constructor; auto.
Qed.

Lemma compile_layout s s' :
  jit_compile s = Ok s' -> code_ptr s = code_addr s -> Forall even_byte (offsets s) ->
  0 <= inst_num s -> epilogue_at s' < 2048 ->
  laid_out s' /\ prog s' = prog s /\ inst_num s' = inst_num s /\ code_addr s' = code_addr s /\
  length (jit_code s') = length (jit_code s).
Proof.
  intros E Hptr Hev Hn Hnear.
  destruct (compile_phases s s' E Hptr Hev Hn) as (s1 & s2 & s4 & s5 & []).
  destruct ph_source0 as (Hp1 & Hn1 & Ho1 & Hg1), ph_buffer0 as (Ha1 & Hptr1 & Hc1).
  destruct ph_marked0 as [[Sp Sn Sc Sg _] (Mc & Ma & Mp) [Mi _] Me _].
  destruct ph_prologue0 as (W4 & R4 & C4), ph_wrote0 as (W5 & R5), ph_epilogue0 as (W6 & R6 & C6).
  rename ph_start3 into I1, ph_start4 into I4, ph_body3 into E2, ph_body4 into E5, ph_end0 into I6.
  rename ph_counted0 into HC, ph_generated0 into HG.
  pose proof (wr_kept _ _ W4) as K4. pose proof (wr_kept _ _ W5) as K5. pose proof (wr_kept _ _ W6) as K6.
  assert (Kp4 : prog s4 = prog s1) by (rewrite (kp_prog _ _ K4); exact (eq_sym Sp)).
  assert (Kn4 : inst_num s4 = inst_num s1) by (rewrite (kp_num _ _ K4); exact (eq_sym Sn)).
  assert (Kc4 : call_word s4 = call_word s1) by (rewrite (kp_call _ _ K4); exact (eq_sym Sc)).
  assert (Ke4 : epilogue_at s4 = idx s2) by (rewrite (kp_epi _ _ K4); done).
  assert (Ko4 : offsets s4 = offsets s2) by (rewrite (kp_offsets _ _ K4); done).
  assert (K46 : kept s4 s') by (eapply kept_trans; eassumption).
  assert (Hpass : forall p, passes (set_idx s1 p) (set_idx s4 p)).
  { intros p. constructor; cbn; auto; [apply R4|now rewrite Ko4]. }
  assert (Hep : epilogue_at s' = idx s2) by (rewrite (kp_epi _ _ K46); done).
  assert (Hidx : idx s5 = idx s2).
  { rewrite Kn4 in E5. eapply (body_lockstep _ 0 s1 s4 s2 s5); [|congruence|done|exact E2|exact E5|done|congruence].
    constructor; auto; [congruence|apply R4|now rewrite Ko4]. }
  assert (Hsrc : same_source s' s4).
  { destruct (kept_source _ _ K46) as [? ? ? ? Ho]. constructor; try congruence.
    intros H. destruct Ho; [apply R4|]. split; congruence. }
  assert (HG' : forall b, rtc (next s') (0, body_start) b -> generated s4 s5 b).
  { intros b Hb. apply HG. now apply (reach_source s'). }
  assert (Hagree : forall a, rtc (next s') (0, body_start) a -> forall b, next s' a b -> next s1 a b).
  { intros a Ha b Hab. apply (next_agree s1 s4); [apply Hpass|congruence| |].
    - destruct (HG' a Ha) as (Hle & _). pose proof (reach_pos _ _ _ Ha) as H0. cbn in H0.
      unfold epilogue_near, body_start in *. cbn. lia.
    - now apply (next_source s'). }
  assert (HR1 : forall a, rtc (next s') (0, body_start) a -> rtc (next s1) (0, body_start) a).
  { apply (rtc_ind_r (fun a => rtc (next s1) (0, body_start) a)); [constructor|].
    intros x y Hx Hxy IH. eapply rtc_r; [exact IH|]. now apply Hagree. }
  split; [|split_and!; [rewrite (kp_prog _ _ K46), Kp4|rewrite (kp_num _ _ K46), Kn4|
    rewrite (kp_addr _ _ K46), (kp_addr _ _ K4); cbn; rewrite Ma|
    rewrite (wr_len _ _ W6), (wr_len _ _ W5), (wr_len _ _ W4); cbn; congruence]; done].
  constructor.
  - done.
  - apply (code_at_kept _ _ _ _ W6 R5); [apply (code_at_kept _ _ _ _ W5 R4); [done|]|].
    + rewrite I4, prologue_length. lia.
    + pose proof (wr_idx _ _ W5). rewrite I4 in *. rewrite prologue_length. lia.
  - rewrite Hep, <- Hidx. done.
  - intros i pos Hr Hi. destruct (HG' _ Hr) as (_ & _ & H). cbn in H.
    rewrite (kp_num _ _ K46) in Hi. destruct (H Hi) as (hs & r & Ec & Hc & Hle). exists hs, r.
    rewrite (code_of_source _ _ _ _ Hsrc). split; [done|]. now apply (code_at_kept _ _ _ _ W6 R5).
  - intros i pos Hr. pose proof (reach_pos _ _ _ Hr) as H0. cbn in H0.
    destruct (HG' _ Hr) as (Hle & He' & _). cbn in *. rewrite (kp_num _ _ K46), Hep, <- Hidx. split; [lia|done].
  - intros a i pos Ha Hab. destruct (HC a (HR1 a Ha)) as (_ & _ & H).
    destruct (H (i, pos) (Hagree _ Ha _ Hab)) as [_ Ho]. now rewrite (kp_offsets _ _ K46), Ko4.
  - now rewrite (kp_offsets _ _ K46), Ko4.
Qed.
