(* ===== verification/JitFlow.v ===== *)
(** * The programs that the compiler translates correctly, one instruction at a time

    The generated code keeps an eBPF register in two words and is sloppy with the
    high one: a load does not clear it, and the unsigned comparisons do not look at
    it. [flow] is a type system for such programs: it tracks, for each register,
    whether both words of the pair are right ([full]), whether the value fits in the
    low word ([small]), and whether it is the pointer to the monitor state. A step of
    the interpreter and the code of a well-typed instruction lead from related states
    to related states ([flow_sound]). *)
From stdpp Require Import base tactics numbers list.
From Stdlib Require Import ZArith Lia.
From S2P Require Import Prelude Inst VM VMFacts Thumb2 Arm Jit Thumb2Facts ArmFacts JitLogic JitEmit JitOps.
Local Open Scope Z_scope.
Local Open Scope bits_scope.

Inductive rinfo := Unknown | Ctx | Known (full small : bool).

Definition astate := list rinfo.

(** [a] says at least what [b] says. *)
Definition le_info (a b : rinfo) : bool :=
  match a, b with
  | _, Unknown => true
  | Ctx, Ctx => true
  | Known f s, Known f' s' => implb f' f && implb s' s
  | _, _ => false
  end.

Definition le_state (A B : astate) : bool :=
  (length A =? length B)%nat && forallb (fun '(a, b) => le_info a b) (zip A B).

Definition good_load_b (sz off len : Z) : bool :=
  (0 <=? off) && (off <=? 255) && (off + size_bytes sz <=? len) && (off mod size_bytes sz =? 0) &&
  ((sz =? EBPF_SIZE_W) || (sz =? EBPF_SIZE_B) || ((sz =? EBPF_SIZE_H) && (32 <=? off))).

(** The state behind an instruction that is no jump; [None]: not supported. *)
Definition flow (len : Z) (A : astate) (i : ebpf_inst) (o : ebpf_op) : option astate :=
  let set x := arr_set A (dst i) x in
  let pos := 0 <=? imm i in
  d ← arr_get A (dst i);
  match o with
  | EBPF_OP_MOV64_IMM => set (Known true pos)
  | EBPF_OP_LDDW => set (Known true false)
  | EBPF_OP_MOV64_REG => s ← arr_get A (src i); if imm i =? 1 then None else set s
  | EBPF_OP_LDXW => s ← arr_get A (src i);
      if good_load_b EBPF_SIZE_W (offset i) len then
        match s with Ctx => set (Known false true) | _ => None end else None
  | EBPF_OP_LDXH => s ← arr_get A (src i);
      if good_load_b EBPF_SIZE_H (offset i) len then
        match s with Ctx => set (Known false true) | _ => None end else None
  | EBPF_OP_LDXB => s ← arr_get A (src i);
      if good_load_b EBPF_SIZE_B (offset i) len then
        match s with Ctx => set (Known false true) | _ => None end else None
  | _ =>
      match d with
      | Known f s =>
          match o with
          | EBPF_OP_ADD64_IMM | EBPF_OP_SUB64_IMM => set (Known f false)
          | EBPF_OP_AND64_IMM => set (Known (f || pos) (s || pos))
          | EBPF_OP_OR64_IMM => set (Known f (s && pos))
          | EBPF_OP_LSH64_IMM =>
              if (32 <=? imm i) && (imm i <? 64) then set (Known true false) else None
          | EBPF_OP_RSH64_IMM =>
              if f && (0 <? imm i) && (imm i <? 64) then set (Known true (32 <=? imm i)) else None
          | EBPF_OP_ARSH64_IMM =>
              if f && (0 <? imm i) && (imm i <? 64) then set (Known true false) else None
          | EBPF_OP_ADD64_REG | EBPF_OP_SUB64_REG =>
              x ← arr_get A (src i);
              match x with Known f' _ => set (Known (f && f') false) | _ => None end
          | EBPF_OP_AND64_REG =>
              x ← arr_get A (src i);
              match x with Known f' s' => set (Known (f && f') (s || s')) | _ => None end
          | _ => None
          end
      | _ => None
      end
  end.

(** ** Related states *)

(** The value [v] in the pair [p]. *)
Definition info_ok (F : frame) (x : rinfo) (f : Z -> Z) (p : Z * Z) (v : Z) : Prop :=
  match x with
  | Unknown => True
  | Ctx => v = f_mem F /\ f p.2 = v
  | Known full small =>
      f p.2 = u32 v /\ (full = true -> pv f p = v) /\ (small = true -> v < 2 ^ 32)
  end.

Definition pair_of (r : Z) : Z * Z := match arr_get bpf2a32 r with Some p => p | None => (0, 0) end.

Record related (F : frame) (A : astate) (f : Z -> Z) (rs : list Z) : Prop := Related {
  rl_astate : length A = 11%nat;
  rl_regs : length rs = 12%nat;
  rl_range : Forall (fun v => 0 <= v < 2 ^ 64) rs;
  rl_info : forall r x v, arr_get A r = Some x -> arr_get rs r = Some v ->
    info_ok F x f (pair_of r) v;
}.

Lemma le_info_ok F a b f p v : le_info a b = true -> info_ok F a f p v -> info_ok F b f p v.
Proof.
  destruct a as [| |f1 s1], b as [| |f2 s2]; try done. cbn. intros [H1 H2]%andb_prop (E & Hf & Hs).
  split_and!; [done| |]; intros ->; cbn in *; auto.
Qed.

Lemma le_state_get A B r b :
  le_state A B = true -> arr_get B r = Some b -> exists a, arr_get A r = Some a /\ le_info a b = true.
Proof.
  intros [Hl H]%andb_prop [Hr Hb]%arr_get_Some. apply Nat.eqb_eq in Hl.
  destruct (lookup_lt_is_Some_2 A (Z.to_nat r)) as [a Ha];
    [rewrite Hl; now apply lookup_lt_Some in Hb|].
  exists a. split; [now apply arr_get_Some|].
  rewrite List.forallb_forall in H. apply (H (a, b)), list_elem_of_In, list_elem_of_lookup_2 with (Z.to_nat r).
  now apply lookup_zip_Some.
Qed.

Lemma related_le F A B f rs : le_state A B = true -> related F A f rs -> related F B f rs.
Proof.
  intros Hle []. constructor; auto.
  - apply andb_prop in Hle as [Hl _]. apply Nat.eqb_eq in Hl. lia.
  - intros r b v Hb Hv. destruct (le_state_get A B r b Hle Hb) as (a & Ha & Hab).
    eapply le_info_ok; eauto.
Qed.

Lemma related_get F A f rs r x :
  related F A f rs -> arr_get A r = Some x ->
  exists v, arr_get rs r = Some v /\ 0 <= v < 2 ^ 64 /\ 0 <= r <= 10 /\
    a32_pair r = Ok (pair_of r) /\ bpf_pair (pair_of r) /\ info_ok F x f (pair_of r) v.
Proof.
  intros [HA Hrs Hr H] Hx. apply arr_get_Some in Hx as Hx'. destruct Hx' as [H0 Hl%lookup_lt_Some].
  destruct (lookup_lt_is_Some_2 rs (Z.to_nat r)) as [v Hv]; [lia|].
  assert (Hp : a32_pair r = Ok (pair_of r)).
  { unfold a32_pair, pair_of. destruct (arr_get bpf2a32 r) eqn:E; [done|].
    apply arr_get_None in E. change (Z.of_nat (length bpf2a32)) with 15 in E. lia. }
  assert (Hv' : arr_get rs r = Some v) by now apply arr_get_Some.
  exists v. split_and!; auto; try lia.
  - exact (proj1 (Forall_lookup_1 _ _ _ _ Hr Hv)).
  - exact (proj2 (Forall_lookup_1 _ _ _ _ Hr Hv)).
  - apply (bpf2a32_ok r); [done|lia].
Qed.

(** Pairs of different registers have no location in common. *)
Definition temps : list Z := [6; 7; 8; 9; 12; 14].

Lemma pair_disjoint r r' :
  0 <= r <= 10 -> 0 <= r' <= 10 -> r <> r' ->
  let p := pair_of r in let q := pair_of r' in
  (q.1 <> p.1 /\ q.1 <> p.2 /\ ~ In q.1 temps) /\ (q.2 <> p.1 /\ q.2 <> p.2 /\ ~ In q.2 temps).
Proof.
  intros Hr Hr' Hne p q.
  assert (H : forallb (fun r => forallb (fun r' => (r =? r') ||
    (let p := pair_of r in let q := pair_of r' in
     forallb (fun z => negb (existsb (Z.eqb z) (p.1 :: p.2 :: temps))) [q.1; q.2]))
     (seqZ 0 11)) (seqZ 0 11) = true) by (vm_compute; reflexivity).
  rewrite List.forallb_forall in H. specialize (H r). rewrite List.forallb_forall in H.
  specialize (H ltac:(apply list_elem_of_In, elem_of_seqZ; lia) r'
    ltac:(apply list_elem_of_In, elem_of_seqZ; lia)).
  destruct (Z.eqb_spec r r'); [done|]. cbn [orb] in H.
  assert (Hz : forall z, In z [q.1; q.2] -> z <> p.1 /\ z <> p.2 /\ ~ In z temps).
  { intros z Hz. rewrite List.forallb_forall in H. specialize (H z Hz).
    assert (Hn : ~ In z (p.1 :: p.2 :: temps)).
    { intros Hin. assert (E : existsb (Z.eqb z) (p.1 :: p.2 :: temps) = true).
      { apply List.existsb_exists. exists z. split; [done|apply Z.eqb_refl]. }
      subst p. rewrite E in H. discriminate H. }
    cbn [In] in Hn. split_and!; intros E; apply Hn; auto. }
  split; apply Hz; cbn; auto.
Qed.

Lemma info_ok_ext F x f g p v :
  f p.1 = g p.1 -> f p.2 = g p.2 -> info_ok F x f p v -> info_ok F x g p v.
Proof. intros E1 E2. unfold info_ok, pv. now rewrite E1, E2. Qed.

Lemma related_set F A A' f g rs d x v V clob :
  related F A f rs -> arr_set A d x = Some A' -> sets f (pair_of d) V clob g ->
  (forall z, In z clob -> In z temps) -> 0 <= v < 2 ^ 64 -> info_ok F x g (pair_of d) v ->
  related F A' g (<[Z.to_nat d := v]> rs).
Proof.
  intros [HA Hrs Hr H] Hset [_ Hfr] Hclob Hv Hx.
  pose proof (arr_set_length _ _ _ _ Hset) as HA'. apply arr_set_Some in Hset as Hd. destruct Hd as [Hd _].
  rewrite HA in Hd. constructor.
  - lia.
  - now rewrite length_insert.
  - now apply Forall_insert.
  - intros r y w Hy Hw. destruct (Z.eq_dec r d) as [->|Hne].
    + rewrite (arr_get_set_eq _ _ _ _ Hset) in Hy. injection Hy as <-.
      apply arr_get_Some in Hw as [_ Hw]. rewrite list_lookup_insert_eq in Hw by lia.
      now injection Hw as <-.
    + rewrite (arr_get_set_ne _ _ _ _ _ Hset) in Hy by done.
      apply arr_get_Some in Hw as [H0 Hw]. rewrite list_lookup_insert_ne in Hw by lia.
      apply arr_get_Some in Hy as Hr'. destruct Hr' as [_ Hr'%lookup_lt_Some].
      destruct (pair_disjoint d r) as [(? & ? & ?) (? & ? & ?)]; [lia|lia|done|].
      eapply info_ok_ext; [symmetry; apply Hfr; auto..|].
      apply (H r y w Hy). now apply arr_get_Some.
Qed.

Lemma bpf_pair_words F g st p : rep F g st -> bpf_pair p -> word (g p.1) /\ word (g p.2).
Proof.
  intros Hst [[(_ & _ & [])|(_ & _ & Hw)] _].
  - split; apply (rep_is_word F _ _ Hst); now left.
  - now apply (work_words F _ st).
Qed.

Lemma pair_low F g st p : rep F g st -> bpf_pair p -> u32 (pv g p) = g p.2.
Proof.
  intros Hst Hp. destruct (bpf_pair_words F g st p Hst Hp) as [Wh Wl]. unfold pv, word in *. clia.
Qed.

(** ** Arithmetic and the low words *)
Definition alu_ok (op : Z) : Prop :=
  op = EBPF_ALU_ADD \/ op = EBPF_ALU_SUB \/ op = EBPF_ALU_AND \/ op = EBPF_ALU_OR.

Lemma u32_land a b : u32 (a .& b) = u32 a .& u32 b.
Proof.
  unfold u32. rewrite <- !Z.land_ones by lia. apply Z.bits_inj'. intros k _.
  rewrite !Z.land_spec. now destruct (Z.testbit a k), (Z.testbit b k), (Z.testbit (Z.ones 32) k).
Qed.

Lemma u32_lor a b : u32 (a .| b) = u32 a .| u32 b.
Proof.
  unfold u32. rewrite <- !Z.land_ones by lia. apply Z.bits_inj'. intros k _.
  rewrite ?Z.land_spec, ?Z.lor_spec, ?Z.land_spec.
  now destruct (Z.testbit a k), (Z.testbit b k), (Z.testbit (Z.ones 32) k).
Qed.

Lemma alu_low op x x' y y' :
  alu_ok op -> u32 x = u32 x' -> u32 y = u32 y' ->
  u32 (alu_value op x y) = u32 (alu_value op x' y').
Proof.
  intros Hop Ex Ey. destruct_or! Hop; subst op; cbn.
  - clia.
  - clia.
  - now rewrite !u32_land, Ex, Ey.
  - now rewrite !u32_lor, Ex, Ey.
Qed.

Lemma alu_range op x y :
  alu_ok op -> 0 <= x < 2 ^ 64 -> 0 <= y < 2 ^ 64 -> 0 <= alu_value op x y < 2 ^ 64.
Proof.
  intros Hop Hx Hy. destruct_or! Hop; subst op; cbn -[Z.pow].
  - apply u64_range.
  - apply u64_range.
  - apply land_bound; lia.
  - apply lor_bound; lia.
Qed.

(** A conjunction with a small number. *)
Lemma land_small x x' y : 0 <= y < 2 ^ 32 -> u32 x = u32 x' -> x .& y = x' .& y.
Proof.
  intros Hy E.
  assert (H : forall z, z .& y = u32 z .& y).
  { intros z. unfold u32. rewrite <- Z.land_ones by lia. rewrite <- Z.land_assoc.
    f_equal. rewrite Z.land_comm, Z.land_ones by lia. symmetry. apply Z.mod_small. lia. }
  rewrite (H x), (H x'). now rewrite E.
Qed.

Lemma land_lt a b n : 0 <= n -> 0 <= b < 2 ^ n -> 0 <= a .& b < 2 ^ n.
Proof. intros. rewrite Z.land_comm. now apply land_bound. Qed.

Lemma shl_low x y k : 32 <= k < 64 -> u32 x = u32 y -> u64 (x << k) = u64 (y << k).
Proof.
  intros Hk E. rewrite !Z.shiftl_mul_pow2 by lia.
  replace (2 ^ k) with (2 ^ 32 * 2 ^ (k - 32)) by (rewrite <- Z.pow_add_r by lia; f_equal; lia).
  unfold u64. change (2 ^ 64) with (2 ^ 32 * 2 ^ 32).
  rewrite !(Z.mul_comm (2 ^ 32) (2 ^ (k - 32))), !Z.mul_assoc, !Z.mul_mod_distr_r by lia.
  f_equal. rewrite <- (Z.mul_mod_idemp_l x), <- (Z.mul_mod_idemp_l y) by lia.
  f_equal. f_equal. exact E.
Qed.

Section Sound.
  Context (base : Z) (code : list Z) (F : frame) (HF : frame_ok F).
  Local Abbreviation emits := (emits base code).
  Local Abbreviation emits_set := (emits_set base code F).
  Context (bpf : list Z) (helpers : option (list (option ext_func))) (mem_len : Z).
  Local Abbreviation dispatch := (dispatch bpf false helpers mem_len).

(** The result of an instruction's code. *)
Definition leads (A : astate) (rs : list Z) (ret : Z) (r : Z) (st : arm) : Prop :=
  r = ret /\ exists g, rep F g st /\ related F A g rs.

Lemma emits_pair f r (k : Z * Z -> J Z) Q :
  a32_pair r = Ok (pair_of r) -> emits (rep F f) (k (pair_of r)) Q ->
  emits (rep F f) (lift (a32_pair r) ≫= k) Q.
Proof.
  intros E H. eapply emits_bind; [apply emits_lift|]. intros p. apply emits_pure. rewrite E.
  now intros [= <-].
Qed.

Lemma emits_done {A} f (m : J A) d V clob A0 A' rs x v ret :
  emits_set f m (pair_of d) V clob -> (forall z, In z clob -> In z temps) ->
  related F A0 f rs -> bpf_pair (pair_of d) -> arr_set A0 d x = Some A' -> 0 <= v < 2 ^ 64 ->
  (forall g, pv g (pair_of d) = V -> g (pair_of d).2 = u32 V -> info_ok F x g (pair_of d) v) ->
  emits (rep F f) (m ;; mret ret) (leads A' (<[Z.to_nat d := v]> rs) ret).
Proof.
  intros Hm Hc Hrel Hp Hset Hv Hx. eapply emits_set_bind; [exact Hm|]. intros g _ Hs.
  apply emits_assume. intros st Hst. destruct (bpf_pair_words F g st _ Hst Hp) as [Wh Wl].
  eapply emits_weaken; [done| |apply emits_ret]. intros r st' [-> Hst']. split; [done|].
  exists g. split; [done|]. eapply related_set; eauto. apply Hx; [apply Hs|].
  rewrite <- (proj1 Hs). unfold pv, word in *. clia.
Qed.

Context (A A' : astate) (f : Z -> Z) (rs : list Z) (Hrel : related F A f rs).
Context (i : ebpf_inst).
Context (Himm : - 2 ^ 31 <= imm i < 2 ^ 31).
Context (q : Z) (m : memory) (Hm : mem_base m = f_mem F /\ mem_bytes m = f_bytes F).
Context (p : Z) (nxt : option ebpf_inst).
Local Abbreviation c := (Cpu q rs m).
Local Abbreviation len := (Z.of_nat (length (f_bytes F))).

(** The instruction takes both machines on. *)
Definition sound (o : ebpf_op) : Prop :=
  opcode_of (opcode i) = Some o -> flow len A i o = Some A' ->
  exists rs', dispatch c i o = Ok (Continue (Cpu q rs' m)) /\
    emits (rep F f) (build_inst i p nxt) (leads A' rs' 0).

Lemma get_ok r v : arr_get rs r = Some v -> get_reg c r = Ok v.
Proof. intros H. unfold get_reg. cbn. now rewrite H. Qed.

Lemma set_ok d x v :
  arr_set A d x = Some A' -> set_reg c d v = Ok (Continue (Cpu q (<[Z.to_nat d := v]> rs) m)).
Proof.
  intros [H _]%arr_set_Some. rewrite (rl_astate _ _ _ _ Hrel) in H.
  apply (set_reg_ok c); [apply Hrel|lia].
Qed.

Ltac with_dst_info Hset :=
  unfold flow in Hset;
  match type of Hset with context [arr_get A (dst i)] =>
    let d := fresh "d" in
    destruct (arr_get A (dst i)) as [d|] eqn:Ed; cbn in Hset; [|done];
    destruct (related_get _ _ _ _ _ _ Hrel Ed) as (v & Ev & Hv & Hd & Ea & Hp & Hinfo);
    pose proof (get_ok _ _ Ev) as Gv
  end.

Ltac with_src_info Hset :=
  match type of Hset with context [arr_get A (src i)] =>
    let d := fresh "s" in
    destruct (arr_get A (src i)) as [d|] eqn:Es; cbn in Hset; [|done];
    destruct (related_get _ _ _ _ _ _ Hrel Es) as (w & Ew & Hw & Hs & Eb & Hq & Hinfo');
    pose proof (get_ok _ _ Ew) as Gw
  end.

(** The case of the instruction in [build_inst], with its opcode bits evaluated. *)
Ltac open_inst Ho :=
  unfold build_inst; rewrite Ho; apply opcode_of_Some in Ho; rewrite ?Ho; cbv zeta;
  unfold build_mov, build_alu, build_dst, build_ldx;
  change (BPF_SRC _ =? EBPF_SRC_REG) with false || change (BPF_SRC _ =? EBPF_SRC_REG) with true
    || idtac;
  change (BPF_SRC _ =? EBPF_SRC_IMM) with false || change (BPF_SRC _ =? EBPF_SRC_IMM) with true
    || idtac;
  change (BPF_CLASS _ =? EBPF_CLS_ALU64) with true || idtac; cbv iota.

Ltac in_temps := let z := fresh in let H := fresh in intros z H; cbn in *; tauto.

Lemma sound_mov_imm : sound EBPF_OP_MOV64_IMM.
Proof.
  intros Ho Hset. with_dst_info Hset.
  eexists. split; [apply (set_ok _ _ _ Hset)|]. open_inst Ho. apply emits_pair; [done|].
  eapply emits_done; [apply emit_mov_se_spec; [exact HF|exact (proj1 Hp)|exact Himm]|in_temps|..]; eauto.
  - apply u64_range.
  - intros g Hg Hl. cbn. rewrite u32_u64 in *. split; [done|]. split; [done|]. intros H0. clia.
Qed.

(** The operations with an immediate load it into the temporary pair. *)
Lemma emit_alu_imm g p0 op v :
  bpf_pair p0 -> alu_ok op -> - 2 ^ 31 <= v < 2 ^ 31 ->
  emits_set g (emit_mov_se_imm64 true tmp2 v ;; emit_alu64_reg true p0 tmp2 op) p0
    (alu_value op (pv g p0) (u64 v)) [6; 7; 8; 9].
Proof.
  intros Hp Hop Hv. assert (Hok : pair_ok tmp2) by (right; auto using tmp2_work).
  eapply emits_set_bind; [apply (emit_mov_se_spec base code F HF); [exact Hok|exact Hv]|].
  intros h _ [Hh Hfr].
  assert (Hloc : forall z, z = p0.1 \/ z = p0.2 -> ~ In z temps).
  { destruct Hp as [[(_ & _ & [_ ? [] []])|(_ & _ & [_ ? ? _])] ?]; cbn; lia. }
  assert (E : pv h p0 = pv g p0).
  { unfold pv. rewrite !Hfr; [done|..];
      match goal with |- context [p0.1] => pose proof (Hloc p0.1) | _ => pose proof (Hloc p0.2) end;
      cbn in *; intuition lia. }
  eapply emits_weaken; [done| |apply (emit_alu64_spec base code F HF h p0 tmp2 op Hp)];
    [|now right|destruct_or! Hop; auto].
  intros _ st (k & Hst & [Hk Hfr']). exists k. split; [done|]. rewrite <- E, <- Hh. split; [done|].
  intros z H1 H2 H3. rewrite Hfr' by done. apply Hfr; cbn in *; lia.
Qed.

(** An operation with an immediate. *)
Lemma sound_alu_imm o op full small :
  In (o, op) [(EBPF_OP_ADD64_IMM, EBPF_ALU_ADD); (EBPF_OP_SUB64_IMM, EBPF_ALU_SUB);
              (EBPF_OP_AND64_IMM, EBPF_ALU_AND); (EBPF_OP_OR64_IMM, EBPF_ALU_OR)] ->
  opcode_of (opcode i) = Some o -> forall f0 s0, arr_get A (dst i) = Some (Known f0 s0) ->
  arr_set A (dst i) (Known full small) = Some A' ->
  (full = true -> f0 = true \/ (op = EBPF_ALU_AND /\ 0 <= imm i)) ->
  (forall v, 0 <= v < 2 ^ 64 -> small = true -> (s0 = true -> v < 2 ^ 32) ->
     alu_value op v (u64 (imm i)) < 2 ^ 32) ->
  exists rs', dispatch c i o = Ok (Continue (Cpu q rs' m)) /\
    emits (rep F f) (build_inst i p nxt) (leads A' rs' 0).
Proof.
  intros Hin Ho f0 s0 Ed Hset Hfull Hsmall.
  destruct (related_get _ _ _ _ _ _ Hrel Ed) as (v & Ev & Hv & Hd & Ea & Hp & (El & Ef & Es)).
  assert (Hop : alu_ok op) by (cbn in Hin; destruct_or! Hin; try done; injection Hin as <- <-; unfold alu_ok; auto).
  exists (<[Z.to_nat (dst i) := alu_value op v (u64 (imm i))]> rs). split.
  { pose proof (get_ok _ _ Ev) as Gv. cbn in Hin.
    destruct_or! Hin; try done; injection Hin as <- <-; cbn; rewrite Gv; cbn; apply (set_ok _ _ _ Hset). }
  assert (Eb : build_inst i p nxt = (d ← lift (a32_pair (dst i));
    (emit_mov_se_imm64 true tmp2 (imm i) ;; emit_alu64_reg true d tmp2 op) ;; done)).
  { cbn in Hin. destruct_or! Hin; try done; injection Hin as <- <-; unfold build_inst; rewrite Ho;
      apply opcode_of_Some in Ho as ->; reflexivity. }
  rewrite Eb. apply emits_pair; [done|]. apply emits_assume. intros st Hst.
  pose proof (pair_low _ _ _ _ Hst Hp) as Elow. rewrite El in Elow.
  eapply emits_done; [now apply emit_alu_imm|in_temps|..]; eauto.
  - apply alu_range; auto using u64_range.
  - intros g Hg Hl. split_and!.
    + rewrite Hl. now apply alu_low.
    + intros Hf. rewrite Hg. destruct (Hfull Hf) as [Hf0|[-> Hi]]; [now rewrite Ef|].
      cbn. apply land_small; [rewrite u64_small; lia|done].
    + intros Hsm. now apply Hsmall.
Qed.

Lemma sound_imm_ops o :
  In o [EBPF_OP_ADD64_IMM; EBPF_OP_SUB64_IMM; EBPF_OP_AND64_IMM; EBPF_OP_OR64_IMM] -> sound o.
Proof.
  intros Hin Ho Hset. unfold flow in Hset.
  destruct (arr_get A (dst i)) as [[| |f0 s0]|] eqn:Ed; cbn in Hin; destruct_or! Hin; try done;
    subst o; cbn in Hset; try done.
  - eapply (sound_alu_imm _ EBPF_ALU_ADD); [cbn; tauto|done|exact Ed|exact Hset|tauto|done].
  - eapply (sound_alu_imm _ EBPF_ALU_SUB); [cbn; tauto|done|exact Ed|exact Hset|tauto|done].
  - eapply (sound_alu_imm _ EBPF_ALU_AND); [cbn; tauto|done|exact Ed|exact Hset|..].
    + intros [|]%orb_prop; [now left|right; split; [done|lia]].
    + intros v Hv [Hs|Hs]%orb_prop Hs0; cbn -[Z.pow].
      * apply land_bound; [lia|]. split; [lia|auto].
      * apply land_lt; [lia|]. rewrite u64_small by lia. lia.
  - eapply (sound_alu_imm _ EBPF_ALU_OR); [cbn; tauto|done|exact Ed|exact Hset|tauto|].
    intros v Hv [Hs Hi]%andb_prop Hs0. cbn -[Z.pow]. apply lor_bound; [lia| |].
    + split; [lia|auto].
    + rewrite u64_small by lia. lia.
Qed.

Lemma sound_reg_ops o :
  In o [EBPF_OP_ADD64_REG; EBPF_OP_SUB64_REG; EBPF_OP_AND64_REG] -> sound o.
Proof.
  intros Hin Ho Hset.
  set (op := BPF_OP (opcode_code o)).
  assert (Hop : op = EBPF_ALU_ADD \/ op = EBPF_ALU_SUB \/ op = EBPF_ALU_AND)
    by (cbn in Hin; destruct_or! Hin; try done; subst o; subst op; cbn; auto).
  assert (Hal : alu_ok op) by (unfold alu_ok; tauto).
  unfold flow in Hset. destruct (arr_get A (dst i)) as [d|] eqn:Ed; cbn in Hset; [|done].
  assert (H : exists f0 s0 f1 s1 small, d = Known f0 s0 /\ arr_get A (src i) = Some (Known f1 s1) /\
    arr_set A (dst i) (Known (f0 && f1) small) = Some A' /\
    (small = true -> op = EBPF_ALU_AND /\ (s0 || s1 = true))).
  { destruct d as [| |f0 s0]; cbn in Hin; destruct_or! Hin; try done; subst o; cbn in Hset; try done;
      (destruct (arr_get A (src i)) as [[| |f1 s1]|]; try done; cbn in Hset);
      exists f0, s0, f1, s1; eexists; split_and!; try done; exact Hset || done. }
  destruct H as (f0 & s0 & f1 & s1 & small & -> & Es & Hset' & Hsm).
  destruct (related_get _ _ _ _ _ _ Hrel Ed) as (v & Ev & Hv & Hd & Ea & Hp & (El & Ef & Ess)).
  destruct (related_get _ _ _ _ _ _ Hrel Es) as (w & Ew & Hw & Hs & Eb & Hq & (El' & Ef' & Ess')).
  exists (<[Z.to_nat (dst i) := alu_value op v w]> rs). split.
  { pose proof (get_ok _ _ Ev) as Gv. pose proof (get_ok _ _ Ew) as Gw. cbn in Hin.
    destruct_or! Hin; try done; subst o; cbn; rewrite Gv, Gw; cbn; apply (set_ok _ _ _ Hset'). }
  assert (Ebuild : build_inst i p nxt = (d ← lift (a32_pair (dst i));
    (s ← lift (a32_pair (src i)); emit_alu64_reg true d s op) ;; done)).
  { cbn in Hin. destruct_or! Hin; try done; subst o; unfold build_inst; rewrite Ho;
      apply opcode_of_Some in Ho as ->; reflexivity. }
  rewrite Ebuild. apply emits_pair; [done|]. apply emits_assume. intros st Hst.
  pose proof (pair_low _ _ _ _ Hst Hp) as Elow. rewrite El in Elow.
  pose proof (pair_low _ _ _ _ Hst Hq) as Elow'. rewrite El' in Elow'.
  eapply emits_done with (V := alu_value op (pv f (pair_of (dst i))) (pv f (pair_of (src i))))
    (clob := [6; 7; 8; 9]); [|in_temps|..]; eauto.
  - eapply emits_bind; [apply emits_lift|]. intros s. apply emits_pure. rewrite Eb. intros [= <-].
    apply (emit_alu64_spec base code F HF); [done|now left|tauto].
  - now apply alu_range.
  - intros g Hg Hl. split_and!.
    + rewrite Hl. now apply alu_low.
    + intros [Hf0 Hf1]%andb_prop. now rewrite Hg, Ef, Ef'.
    + intros [-> Hs01]%Hsm. cbn -[Z.pow]. apply orb_prop in Hs01 as [H|H].
      * apply land_bound; [lia|]. split; [lia|auto].
      * apply land_lt; [lia|]. split; [lia|auto].
Qed.

Lemma sound_mov_reg : sound EBPF_OP_MOV64_REG.
Proof.
  intros Ho Hset. with_dst_info Hset. with_src_info Hset.
  destruct (Z.eqb_spec (imm i) 1) as [|Hi]; [done|].
  eexists. split; [cbn; rewrite Gw; apply (set_ok _ _ _ Hset)|]. open_inst Ho.
  apply emits_pair; [done|]. apply emits_assume. intros st Hst.
  pose proof (pair_low _ _ _ _ Hst Hq) as Elow'.
  eapply emits_done with (V := pv f (pair_of (src i))) (clob := [6; 7]); [|in_temps|..]; eauto.
  - destruct (Z.eqb_spec (imm i) 1); [done|].
    eapply emits_bind; [apply emits_lift|]. intros x. apply emits_pure. rewrite Eb. intros [= <-].
    now apply (emit_mov_reg64_spec base code F HF).
  - intros g Hg Hl. destruct s as [| |full small]; cbn in *; [done| |].
    + now rewrite Hl, Elow'.
    + destruct Hinfo' as (E1 & E2 & E3). split_and!; [congruence| |done]. intros Hf. rewrite Hg. auto.
Qed.

Lemma sound_shifts o :
  In o [EBPF_OP_LSH64_IMM; EBPF_OP_RSH64_IMM; EBPF_OP_ARSH64_IMM] -> sound o.
Proof.
  intros Hin Ho Hset. cbn in Hin.
  destruct (arr_get A (dst i)) as [[| |f0 s0]|] eqn:Ed;
    unfold flow in Hset; rewrite Ed in Hset; cbn in Hset; destruct_or! Hin; try done; subst o; try done.
  all: destruct (related_get _ _ _ _ _ _ Hrel Ed) as (v & Ev & Hv & Hd & Ea & Hp & (El & Ef & Ess));
    pose proof (get_ok _ _ Ev) as Gv;
    match type of Hset with (if ?b then _ else _) = _ => destruct b eqn:Hb; [|done] end.
  - eexists. split.
    { cbn. rewrite Gv. cbn. unfold shl_c. replace (_ || _) with false by lia. cbn. apply (set_ok _ _ _ Hset). }
    open_inst Ho. apply emits_pair; [done|]. apply emits_assume. intros st Hst.
    pose proof (pair_low _ _ _ _ Hst Hp) as Elow. rewrite El in Elow.
    eapply emits_done; [apply (emit_lsh_imm_spec base code F HF); [done|lia]|in_temps|..]; eauto.
    + apply u64_range.
    + intros g Hg Hl. assert (E : u64 (pv f (pair_of (dst i)) << imm i) = u64 (v << imm i)).
      { now apply shl_low; [lia|]. }
      split_and!; [congruence|congruence|done].
  - assert (Hf : f0 = true) by (destruct f0; done). eexists. split.
    { cbn. rewrite Gv. cbn. unfold shr_c. replace (_ || _) with false by lia. cbn. apply (set_ok _ _ _ Hset). }
    open_inst Ho. apply emits_pair; [done|].
    eapply emits_done; [apply (emit_rsh_imm_spec base code F HF); [done|lia]|in_temps|..]; eauto.
    + apply shiftr_bound; lia.
    + intros g Hg Hl. rewrite (Ef Hf) in *. split_and!; [done|done|]. intros H32.
      rewrite Z.shiftr_div_pow2 by lia. apply Z.div_lt_upper_bound; [lia|].
      apply Z.lt_le_trans with (2 ^ 64); [lia|]. rewrite <- Z.pow_add_r by lia.
      apply Z.pow_le_mono_r; lia.
  - assert (Hf : f0 = true) by (destruct f0; done). eexists. split.
    { cbn. rewrite Gv. cbn. unfold shr_c. replace (_ || _) with false by lia. cbn. apply (set_ok _ _ _ Hset). }
    open_inst Ho. apply emits_pair; [done|].
    eapply emits_done; [apply (emit_arsh_imm_spec base code F HF); [done|lia]|in_temps|..]; eauto.
    + apply u64_range.
    + intros g Hg Hl. rewrite (Ef Hf) in *. split_and!; done.
Qed.

(** Loads of the monitor state. *)
Lemma sound_load o sz :
  In (o, sz) [(EBPF_OP_LDXW, EBPF_SIZE_W); (EBPF_OP_LDXH, EBPF_SIZE_H); (EBPF_OP_LDXB, EBPF_SIZE_B)] ->
  sound o.
Proof.
  intros Hin Ho Hset. unfold flow in Hset.
  destruct (arr_get A (dst i)) as [d|] eqn:Ed; cbn in Hset; [|done].
  assert (H : arr_get A (src i) = Some Ctx /\ good_load_b sz (offset i) len = true /\
    arr_set A (dst i) (Known false true) = Some A').
  { cbn in Hin. destruct_or! Hin; try done; injection Hin as <- <-; cbn in Hset;
      (destruct (arr_get A (src i)) as [s|]; cbn in Hset; [|done]);
      match type of Hset with context [good_load_b ?a ?b ?c] => destruct (good_load_b a b c) eqn:E end;
      try done; destruct s; try done. }
  destruct H as (Es & Hg & Hset'). clear Hset. unfold good_load_b in Hg.
  assert (Hgl : good_load sz (offset i)) by (unfold good_load; lia).
  assert (Hfit : offset i + size_bytes sz <= len) by lia.
  assert (Hoff : 0 <= offset i) by lia. assert (Hal : offset i mod size_bytes sz = 0) by lia. clear Hg.
  assert (Hsz4 : size_bytes sz = 1 \/ size_bytes sz = 2 \/ size_bytes sz = 4)
    by (unfold size_bytes; repeat case_match; auto).
  assert (Hsz : 1 <= size_bytes sz <= 4) by lia.
  destruct (related_get _ _ _ _ _ _ Hrel Ed) as (v & Ev & Hv & Hd & Ea & Hp & _).
  destruct (related_get _ _ _ _ _ _ Hrel Es) as (w & Ew & Hw & Hs & Eb & Hq & [Ew' El]).
  set (x := state_load F (offset i) (size_bytes sz)).
  assert (Hx : 0 <= x < 2 ^ 32).
  { pose proof (state_load_bound F (offset i) (size_bytes sz) HF ltac:(lia) Hoff Hfit) as H.
    assert (2 ^ (8 * size_bytes sz) <= 2 ^ 32) by (apply Z.pow_le_mono_r; lia). unfold x. lia. }
  exists (<[Z.to_nat (dst i) := x]> rs). split.
  { assert (Hl : step_load false mem_len c i (size_bytes sz) =
      Ok (Continue (Cpu q (<[Z.to_nat (dst i) := x]> rs) m))).
    { unfold step_load, BOUNDS_CHECK. rewrite (get_ok _ _ Ew). cbn -[cload].
      pose proof (mem_low F HF). pose proof (mem_high F HF). rewrite Ew', u32_small by lia.
      rewrite cload_aligned by (apply (aligned_access 4); [apply (mem_align F HF)|lia..|exact Hal]).
      rewrite (mload_state F) by (tauto || lia). cbn. apply (set_ok _ _ _ Hset'). }
    rewrite <- Hl. cbn in Hin. destruct_or! Hin; try done; injection Hin as <- <-; reflexivity. }
  assert (Ebuild : build_inst i p nxt = (s ← lift (a32_pair (src i));
    rn ← arm_bpf_get_reg32 s.2 tmp2.2; d ← lift (a32_pair (dst i));
    emit_ldx_reg d rn (offset i) sz ;; done)).
  { cbn in Hin. destruct_or! Hin; try done; injection Hin as <- <-; unfold build_inst; rewrite Ho;
      apply opcode_of_Some in Ho as ->; reflexivity. }
  rewrite Ebuild. apply emits_pair; [done|].
  set (z := (pair_of (src i)).2) in *.
  assert (Hz : (is_stacked z = true /\ In z all_slots) \/ (is_stacked z = false /\ 0 <= z < 6)).
  { destruct Hq as [[(E & _ & [])|(E & _ & [])] ?]; [left|right]; split; auto;
      [now apply in_all_slots|unfold z; lia]. }
  eapply emits_fn_bind; [apply (get_reg32_spec base code F HF f z 8); [|apply in_work_regs; lia]|].
  { destruct Hz as [[]|[]]; [now left|right; lia]. }
  apply emits_pair; [done|].
  eapply emits_bind; [apply (emit_ldx_spec base code F HF _ (pair_of (dst i)) _ (offset i) sz Hp)|].
  - destruct Hz as [[-> _]|[-> Hz]]; [now right|now left].
  - done.
  - destruct Hz as [[-> _]|[-> _]]; [rewrite upd_eq|]; congruence.
  - done.
  - intros []. apply emits_ex. intros g. apply emits_ex. intros hi.
    eapply emits_weaken; [intros st H; exact H| |apply emits_ret].
    intros r st [-> (Hst & Whi & Hsets)]. split; [done|]. exists g. split; [done|].
    eapply (related_set F A A' f g rs (dst i) _ x _ [6; 7; 8]); eauto; [|in_temps|lia|].
    + split; [exact (proj1 Hsets)|]. intros y H1 H2 H3. rewrite (proj2 Hsets) by (done || (cbn in *; tauto)).
      destruct (is_stacked z); [|done]. apply upd_ne. cbn in H3. lia.
    + pose proof (pair_low _ _ _ _ Hst Hp) as E. rewrite (proj1 Hsets) in E.
      split_and!; [|done|lia]. rewrite <- E. fold x. unfold word in Whi. clia.
Qed.

Lemma flow_sound o : o <> EBPF_OP_LDDW -> sound o.
Proof.
  intros Hne. destruct o;
    first [ done
          | apply sound_mov_imm | apply sound_mov_reg
          | apply sound_imm_ops; cbn; tauto | apply sound_reg_ops; cbn; tauto
          | apply sound_shifts; cbn; tauto
          | apply (sound_load _ EBPF_SIZE_W); cbn; tauto
          | apply (sound_load _ EBPF_SIZE_H); cbn; tauto
          | apply (sound_load _ EBPF_SIZE_B); cbn; tauto
          | intros Ho Hset; unfold flow in Hset;
            destruct (arr_get A (dst i)) as [[| |]|]; discriminate Hset ].
Qed.

Lemma lor_lddw a b : u32 a .| (u32 b << 32) = u32 a + u32 b * 2 ^ 32.
Proof. apply lor_shiftl_add; [lia|apply u32_range]. Qed.

(** The load of a 64-bit immediate takes two slots. *)
Lemma lddw_sound hi :
  opcode_of (opcode i) = Some EBPF_OP_LDDW -> flow len A i EBPF_OP_LDDW = Some A' ->
  nxt = Some hi -> inst_at bpf q = Some hi ->
  exists rs', dispatch c i EBPF_OP_LDDW = Ok (Continue (Cpu (u16 (q + 1)) rs' m)) /\
    emits (rep F f) (build_inst i p nxt) (leads A' rs' 1).
Proof.
  intros Ho Hset -> Hhi. with_dst_info Hset.
  set (x := u32 (imm i) .| (u32 (imm hi) << 32)).
  assert (Hx : 0 <= x < 2 ^ 64).
  { unfold x. rewrite lor_lddw. pose proof (u32_range (imm i)). pose proof (u32_range (imm hi)).
    change (2 ^ 64) with (2 ^ 32 * 2 ^ 32). nia. }
  exists (<[Z.to_nat (dst i) := x]> rs). split.
  { unfold dispatch. cbn -[Z.pow]. rewrite Hhi. cbn -[Z.pow].
    apply (set_reg_ok (Cpu (u16 (q + 1)) rs m)); [apply Hrel|lia]. }
  unfold build_inst. rewrite Ho. cbv zeta. eapply emits_bind; [apply emits_lift|].
  intros h. apply emits_pure. intros [= <-]. apply emits_pair; [done|].
  eapply emits_done with (V := u64 x); [apply (emit_mov_i64_spec base code F HF), Hp|in_temps|..]; eauto.
  intros g Hg Hl. rewrite u64_small in * by done. done.
Qed.
End Sound.
