(* ===== verification/JitEntry.v ===== *)
(** * Entry and exit of the generated function

    The prologue brings the processor from a call of the function, with the address
    of the monitor state in r0, to a state that the logic of [JitLogic] describes;
    the epilogue restores the registers of the caller and returns. *)
From stdpp Require Import base tactics numbers list.
From Stdlib Require Import ZArith Lia.
From S2P Require Import Prelude Inst VM VMFacts Thumb2 Arm Jit Thumb2Facts ArmFacts JitLogic JitEmit JitPasses JitLayout.
Local Open Scope Z_scope.
Local Open Scope bits_scope.

Definition reg (st : arm) (r : nat) : Z := default 0 (R st !! r).

(** The registers the prologue pushes, r4 to r9, r11 and the return address. *)
Definition pushed : list nat := [4; 5; 6; 7; 8; 9; 11; 14]%nat.

Definition frame_of (st : arm) : frame :=
  Frame (reg st 13 - 32) (mem_base (M st)) (mem_bytes (M st)) (stk_base (M st))
    (length (stk_bytes (M st))) (reg st <$> pushed) (reg st 10).

(** A call [f(mem)] that returns to [ret]: the AAPCS passes the argument in r0 and the
    return address, with bit 0 set for Thumb state, in lr. *)
Record called (ret : Z) (st : arm) : Prop := Called {
  cl_len : length (R st) = 15%nat;
  cl_words : Forall word (R st);
  cl_arg : reg st 0 = mem_base (M st);
  cl_lr : reg st 14 = ret + 1;
  cl_ret : ret mod 2 = 0;
  cl_frame : frame_ok (frame_of st);
  cl_bytes : Forall (fun b => is_byte b = true) (stk_bytes (M st));
}.

Lemma reg_lookup st r : length (R st) = 15%nat -> (r < 15)%nat -> R st !! r = Some (reg st r).
Proof.
  intros Hl Hr. unfold reg. destruct (lookup_lt_is_Some_2 (R st) r) as [v ->]; [lia|done].
Qed.

Lemma reg_word st r : Forall word (R st) -> word (reg st r).
Proof.
  intros H. unfold reg. destruct (R st !! r) as [v|] eqn:E; [|unfold word; cbn; lia].
  exact (Forall_lookup_1 _ _ _ _ H E).
Qed.

Section Frame.
  Variable F : frame.
  Hypothesis HF : frame_ok F.

(** PUSH stores its registers one after the other. *)
Lemma store_regs_spec rs st z :
  shape F (M st) -> Forall word (R st) -> length (R st) = 15%nat -> Forall (fun r => r < 15)%nat rs ->
  - EBPF_STACK_SIZE <= z -> z + 4 * Z.of_nat (length rs) <= 32 ->
  exists m, store_regs st rs (f_fp F + z) = Ok (set_mem st m) /\ shape F m /\
    (forall k r, rs !! k = Some r -> mload m (f_fp F + z + 4 * Z.of_nat k) 4 = Ok (reg st r)) /\
    (forall y, - EBPF_STACK_SIZE <= y -> y + 4 <= z -> mload m (f_fp F + y) 4 = mload (M st) (f_fp F + y) 4).
Proof.
  revert st z. induction rs as [|r rs IH]; intros st z Hs Hw Hl Hr Hz Hh.
  { exists (M st). cbn. split; [now destruct st|]. done. }
  inversion_clear Hr as [|? ? Hr0 Hrs]. cbn [length] in Hh.
  destruct (mem_store F HF (M st) z (reg st r) Hs) as (m1 & E1 & S1 & L1 & O1);
    [lia|now apply reg_word|].
  destruct (IH (set_mem st m1) (z + 4)) as (m & E & Sm & Lm & Om); auto; [lia|lia|].
  exists m. split_and!; auto.
  - cbn [store_regs]. unfold rget. rewrite reg_lookup by done. cbn [of_option mbind res_bind].
    rewrite E1. cbn [mbind res_bind]. rewrite <- Z.add_assoc, E. now destruct st.
  - intros [|k] r' Hk; cbn in Hk.
    + injection Hk as <-. rewrite Z.mul_0_r, Z.add_0_r, Om by lia. done.
    + change (reg st r') with (reg (set_mem st m1) r'). rewrite <- (Lm k r' Hk). f_equal. lia.
  - intros y Hy Hd. rewrite Om by lia. cbn. apply O1; lia.
Qed.
End Frame.

Definition prologue : list ainst :=
  [APush 0x4bf0; AMov false 11 13 (SLSL 0); AMovImm true 3 0; ADpImm SUB_op false 2 13 80;
   ADpImm SUB_op false 13 13 256; AStrd 2 3 11 (-64); AMov false 2 0 (SLSL 0); AMovImm true 3 0].

Definition epilogue : list ainst := [AMov false 13 11 (SLSL 0); APop 0x8bf0].

Lemma decode_prologue : decode_all prologue_code = Some prologue.
Proof. vm_compute. reflexivity. Qed.
Lemma decode_epilogue : decode_all epilogue_code = Some epilogue.
Proof. vm_compute. reflexivity. Qed.

Lemma sub_imm x k : word x -> 0 <= k <= x -> u32 (x + not32 k + Z.b2z true) = x - k.
Proof. unfold word. intros. rewrite not32_word by (unfold word; lia). cbn [Z.b2z]. clia. Qed.

(** The words of the stack below the frame pointer, as a function. *)
Definition stack_fn (F : frame) (m : memory) (z : Z) : Z :=
  match mload m (f_fp F + z) 4 with Ok v => v | _ => 0 end.

Definition state_fn (F : frame) (st : arm) (z : Z) : Z :=
  if z <? 0 then stack_fn F (M st) z else reg st (Z.to_nat z).

Lemma state_rep F st :
  frame_ok F -> length (R st) = 15%nat -> Forall word (R st) -> mem_wf (M st) -> shape F (M st) ->
  (forall k v, f_saved F !! k = Some v -> mload (M st) (f_fp F + 4 * Z.of_nat k) 4 = Ok v) ->
  reg st 11 = f_fp F -> reg st 13 = f_fp F - EBPF_STACK_SIZE -> reg st 10 = f_r10 F ->
  rep F (state_fn F st) st.
Proof.
  intros HF Hl Hw Hm Hs Hsv H11 H13 H10.
  assert (Hslot : forall z, slot z -> exists v, mload (M st) (f_fp F + z) 4 = Ok v /\ word v).
  { intros z [Hz _]. rewrite (mload_stack F HF) by (done || (unfold EBPF_STACK_SIZE; lia)).
    eexists. split; [reflexivity|].
    destruct (stack_word F HF z ltac:(unfold EBPF_STACK_SIZE; lia)) as (_ & _ & _ & ? & ?).
    pose proof (sh_len _ _ Hs).
    match goal with |- word (le_val ?l) => pose proof (le_val_bound l (slice_bytes _ _ _ (proj2 Hm))) as Hb end.
    rewrite length_slice in Hb by lia. exact Hb. }
  constructor; auto.
  - intros r Hr. unfold state_fn. destruct (Z.ltb_spec (Z.of_nat r) 0); [lia|].
    rewrite Nat2Z.id. now apply reg_lookup.
  - intros z Hz. unfold state_fn. destruct (Z.ltb_spec z 0); [|destruct Hz; lia].
    unfold stack_fn. destruct (Hslot z Hz) as (v & -> & _). done.
  - intros z [Hz|Hz]; unfold state_fn.
    + destruct (Z.ltb_spec z 0); [|destruct Hz; lia].
      unfold stack_fn. now destruct (Hslot z Hz) as (v & -> & Hv).
    + destruct (Z.ltb_spec z 0); [lia|]. now apply reg_word.
Qed.

Lemma exec_all_cons i l st st1 st2 :
  exec i st = Ok st1 -> exec_all l st1 = Ok st2 -> exec_all (i :: l) st = Ok st2.
Proof. intros E1 E2. cbn [exec_all]. now rewrite E1. Qed.

Lemma store_regs_wf rs st a st' : store_regs st rs a = Ok st' -> mem_wf (M st) -> mem_wf (M st').
Proof.
  revert st a. induction rs as [|r rs IH]; intros st a E Hm; cbn in E; [now injection E as <-|].
  apply bind_Ok in E as (v & _ & E). apply bind_Ok in E as (m & Em & E).
  apply IH in E; [done|]. cbn. eapply mstore_wf; eassumption.
Qed.

Lemma push_spec ret st :
  called ret st ->
  let F := frame_of st in
  exists m, exec (APush 0x4bf0) st = Ok (rset (set_mem st m) SP (f_fp F)) /\ shape F m /\ mem_wf m /\
    forall k v, f_saved F !! k = Some v -> mload m (f_fp F + 4 * Z.of_nat k) 4 = Ok v.
Proof.
  intros [Hl Hw Harg Hlr Hret HF Hb] F.
  destruct (store_regs_spec F HF pushed st 0) as (m & E & Hs & Hm & _);
    [done|done|done|repeat constructor|unfold EBPF_STACK_SIZE; lia|cbn; lia|].
  assert (Hsp : u32 (reg st 13 - 4 * Z.of_nat (length (reg_list 0x4bf0))) = f_fp F).
  { change (Z.of_nat (length (reg_list 0x4bf0))) with 8. pose proof (reg_word st 13 Hw) as W.
    destruct HF. cbn in *. unfold EBPF_STACK_SIZE, word in *. rewrite u32_small; lia. }
  assert (Hal : aligned (f_fp F) = Ok ()) by (unfold aligned; now rewrite (fp_align F HF)).
  exists m. split_and!.
  - cbn [exec]. unfold rget. rewrite reg_lookup by (done || (unfold SP; lia)).
    cbn [of_option mbind res_bind]. change (reg st SP) with (reg st 13). rewrite Hsp, Hal.
    cbn [mbind res_bind]. change (reg_list 0x4bf0) with pushed.
    rewrite Z.add_0_r in E. rewrite E. done.
  - done.
  - apply (store_regs_wf _ _ _ _ E). split; [apply HF|done].
  - intros k v Hk. cbn [F f_saved frame_of] in Hk. apply list_lookup_fmap_Some in Hk as (r & -> & Hk).
    rewrite <- (Hm k r Hk). f_equal. lia.
Qed.

(** Executes an instruction on a state whose registers are listed. *)
Ltac eval_exec :=
  cbv [exec rget rset put_result set_flags set_pc set_mem R PC NF ZF CF VF M of_option mbind res_bind
    lookup list_lookup insert list_insert dp_result add_with_carry shift_c Z.eqb SP].

Lemma prologue_spec ret st :
  called ret st ->
  let F := frame_of st in
  exists st' f, exec_all prologue st = Ok st' /\ rep F f st' /\ f 2 = f_mem F /\ f 3 = 0.
Proof.
  intros Hc F. destruct (push_spec ret st Hc) as (m1 & E1 & S1 & W1 & Hsv).
  destruct Hc as [Hl Hw Harg Hlr Hret HF Hb]. fold F in E1, S1, Hsv, HF.
  pose proof (fp_low F HF) as Hfp. pose proof (stk_low F HF). pose proof (stk_high F HF).
  pose proof (fp_high F HF). unfold EBPF_STACK_SIZE in Hfp.
  assert (Wfp : word (f_fp F)) by (unfold word; lia).
  assert (Hal : aligned (f_fp F + -64) = Ok ()).
  { unfold aligned. pose proof (fp_align F HF).
    replace ((f_fp F + -64) mod 4) with 0 by (Z.div_mod_to_equations; lia). done. }
  destruct (mem_store F HF m1 (-64) (f_fp F - 80) S1) as (m2 & E2 & S2 & _ & O2);
    [unfold EBPF_STACK_SIZE; lia|unfold word; lia|].
  destruct (mem_store F HF m2 (-60) 0 S2) as (m3 & E3 & S3 & _ & O3);
    [unfold EBPF_STACK_SIZE; lia|unfold word; lia|].
  assert (E3' : mstore m2 (u32 (f_fp F + -64 + 4)) 4 0 = Ok m3).
  { rewrite u32_small by lia. now replace (f_fp F + -64 + 4) with (f_fp F + -60) by lia. }
  pose proof (mstore_wf _ _ _ _ _ W1 E2) as W2. pose proof (mstore_wf _ _ _ _ _ W2 E3) as W3.
  assert (Hr : exists x0 x1 x2 x3 x4 x5 x6 x7 x8 x9 x10 x11 x12 x13 x14,
    R st = [x0; x1; x2; x3; x4; x5; x6; x7; x8; x9; x10; x11; x12; x13; x14]).
  { clear -Hl. destruct st as [l]. cbn in *. do 15 (destruct l as [|? l]; [done|]).
    destruct l; [|done]. do 15 eexists. reflexivity. }
  destruct Hr as (x0 & x1 & x2 & x3 & x4 & x5 & x6 & x7 & x8 & x9 & x10 & x11 & x12 & x13 & x14 & Er).
  set (fp := f_fp F) in *.
  set (Rn := [x0; x1; x0; 0; x4; x5; x6; x7; x8; x9; x10; fp; x12; fp - 256; x14]).
  assert (He : exec_all prologue st = Ok (Arm Rn (PC st) false true (CF st) (VF st) m3)).
  { eapply exec_all_cons; [exact E1|]. destruct st as [l pc0 n0 z0 c0 v0 m0]. cbn in Er. subst l.
    do 2 (eapply exec_all_cons; [reflexivity|]).
    eapply exec_all_cons; [eval_exec; rewrite sub_imm by (done || lia); reflexivity|].
    eapply exec_all_cons; [eval_exec; rewrite sub_imm by (done || lia); reflexivity|].
    eapply exec_all_cons.
    { eval_exec. rewrite (u32_small (fp + -64)) by lia. rewrite Hal, E2, E3'. reflexivity. }
    do 2 (eapply exec_all_cons; [reflexivity|]). reflexivity. }
  eexists _, (state_fn F (Arm Rn (PC st) false true (CF st) (VF st) m3)). split; [exact He|].
  assert (Hx0 : x0 = f_mem F) by (change (f_mem F) with (mem_base (M st)); rewrite <- Harg; unfold reg; now rewrite Er).
  assert (Hx10 : x10 = f_r10 F) by (change (f_r10 F) with (reg st 10); unfold reg; now rewrite Er).
  split; [|done]. rewrite Er in Hw. apply state_rep; cbn [R M]; auto.
  - repeat (apply Forall_cons in Hw as [? Hw]).
    unfold Rn. repeat (apply Forall_cons; split); auto; unfold word; lia.
  - intros k v Hk. rewrite O3, O2 by (apply lookup_lt_Some in Hk; pose proof (saved_len F HF);
      unfold EBPF_STACK_SIZE; lia).
    now apply Hsv.
Qed.

(** ** The epilogue *)

(** Back from the end of the code: the result in r1:r0, the registers that a
    function has to preserve as before, and the PC at the return address. *)
Record returned (F : frame) (ret v : Z) (st : arm) : Prop := Returned {
  rt_pc : PC st = ret;
  rt_value : reg st 0 + 2 ^ 32 * reg st 1 = v;
  rt_saved : (reg st <$> [4; 5; 6; 7; 8; 9; 11])%nat = take 7 (f_saved F);
  rt_r10 : reg st 10 = f_r10 F;
  rt_sp : reg st 13 = f_fp F + 32;
  rt_mem : mem_bytes (M st) = f_bytes F;
}.

Lemma saved_words F ret :
  frame_ok F -> f_saved F !! 7%nat = Some (ret + 1) ->
  exists s0 s1 s2 s3 s4 s5 s6, f_saved F = [s0; s1; s2; s3; s4; s5; s6; ret + 1].
Proof.
  intros HF Hlr. pose proof (saved_len F HF) as Hsl. destruct (f_saved F) as [|? l]; [done|].
  do 7 (destruct l as [|? l]; [done|]). destruct l; [|done]. injection Hlr as ->. do 7 eexists. reflexivity.
Qed.

Lemma rep_regs F f st :
  rep F f st ->
  R st = [f 0; f 1; f 2; f 3; f 4; f 5; f 6; f 7; f 8; f 9; f 10; f 11; f 12; f 13; f 14].
Proof.
  intros [Hl Hr]. apply list_eq. intros k. destruct (decide (k < 15)%nat) as [Hk|Hk].
  - rewrite (Hr k Hk). do 15 (destruct k as [|k]; [done|]). lia.
  - rewrite !lookup_ge_None_2; [done|cbn; lia|lia].
Qed.

(** POP of the saved words, the last one into the PC. *)
Lemma load_saved m fp s0 s1 s2 s3 s4 s5 s6 ret x0 x1 x2 x3 x4 x5 x6 x7 x8 x9 x10 x11 x12 x13 x14 p n z c v :
  (forall k w, [s0; s1; s2; s3; s4; s5; s6; ret + 1] !! k = Some w -> mload m (fp + 4 * Z.of_nat k) 4 = Ok w) ->
  ret mod 2 = 0 ->
  load_regs (Arm [x0; x1; x2; x3; x4; x5; x6; x7; x8; x9; x10; x11; x12; x13; x14] p n z c v m)
    (reg_list 0x8bf0) fp =
  Ok (Arm [x0; x1; x2; x3; s0; s1; s2; s3; s4; s5; x10; s6; x12; x13; x14] ret n z c v m).
Proof.
  intros Hsv Hret. change (reg_list 0x8bf0) with [4; 5; 6; 7; 8; 9; 11; 15]%nat.
  assert (Hpc : Z.testbit (ret + 1) 0 = true).
  { rewrite Z.testbit_eqb by lia. rewrite Z.div_1_r. apply Z.eqb_eq. Z.div_mod_to_equations. lia. }
  assert (L : forall k w b, [s0; s1; s2; s3; s4; s5; s6; ret + 1] !! k = Some w ->
    b = fp + 4 * Z.of_nat k -> mload m b 4 = Ok w) by (intros; subst; auto).
  cbn [load_regs Nat.eqb M].
  rewrite (L 0%nat _ fp eq_refl) by lia. cbn [mbind res_bind rset R M].
  rewrite (L 1%nat _ (fp + 4) eq_refl) by lia. cbn [mbind res_bind rset R M].
  rewrite (L 2%nat _ (fp + 4 + 4) eq_refl) by lia. cbn [mbind res_bind rset R M].
  rewrite (L 3%nat _ (fp + 4 + 4 + 4) eq_refl) by lia. cbn [mbind res_bind rset R M].
  rewrite (L 4%nat _ (fp + 4 + 4 + 4 + 4) eq_refl) by lia. cbn [mbind res_bind rset R M].
  rewrite (L 5%nat _ (fp + 4 + 4 + 4 + 4 + 4) eq_refl) by lia. cbn [mbind res_bind rset R M].
  rewrite (L 6%nat _ (fp + 4 + 4 + 4 + 4 + 4 + 4) eq_refl) by lia. cbn [mbind res_bind rset R M].
  rewrite (L 7%nat _ (fp + 4 + 4 + 4 + 4 + 4 + 4 + 4) eq_refl) by lia. cbn [mbind res_bind].
  unfold load_pc. rewrite Hpc. replace (ret + 1 - 1) with ret by lia. reflexivity.
Qed.

Lemma epilogue_spec F f st ret p :
  frame_ok F -> f_fp F + 32 < 2 ^ 32 -> rep F f st ->
  f_saved F !! 7%nat = Some (ret + 1) -> ret mod 2 = 0 ->
  exists st1 st2, exec (AMov false 13 11 (SLSL 0)) st = Ok st1 /\
    exec (APop 0x8bf0) (set_pc st1 p) = Ok st2 /\ returned F ret (pv f (1, 0)) st2.
Proof.
  intros HF Hfp Hst Hlr Hret. pose proof (rep_regs F f st Hst) as Er.
  destruct Hst as [Hl Hr _ Hsv Hw H11 H13 H10 Hm].
  destruct (saved_words F ret HF Hlr) as (s0 & s1 & s2 & s3 & s4 & s5 & s6 & Es).
  pose proof (fp_low F HF) as Hlow. pose proof (stk_low F HF). unfold EBPF_STACK_SIZE in Hlow.
  assert (Hal : aligned (f_fp F) = Ok ()) by (unfold aligned; now rewrite (fp_align F HF)).
  destruct st as [l pc0 n0 z0 c0 v0 m0]. cbn in Er, Hm, Hsv. subst l.
  rewrite Es in Hsv. eexists _, _. split; [reflexivity|]. split.
  { cbn -[load_regs reg_list u32 f_fp].
    rewrite H11, Hal. cbn -[load_regs reg_list u32 f_fp].
    match goal with |- context [load_regs ?s ?r ?a] =>
      eassert (load_regs s r a = Ok _) as -> by (eapply load_saved; eassumption) end.
    change (length (reg_list 0x8bf0)) with 8%nat. cbn -[u32].
    rewrite u32_small by lia. reflexivity. }
  constructor; cbn; auto.
  - now rewrite Es.
  - apply Hm.
Qed.
