(* ===== verification/JitBranch.v ===== *)
(** * Branches of the generated code

    [branches] is the triple of [JitLogic] for code that ends at the position [fin] and
    need not leave the processor there. The second pass computes the
    distance of a jump from the record of the first one ([tail_jumps]); the code of a
    comparison decides like the interpreter where [jcc_ok] holds ([jcc_sound]). *)
From stdpp Require Import base tactics numbers list.
From Stdlib Require Import ZArith Lia.
From S2P Require Import Prelude Inst VM VMFacts Thumb2 Arm Jit Thumb2Facts ArmFacts JitLogic JitEmit JitOps JitPasses JitFlow.
Local Open Scope Z_scope.
Local Open Scope bits_scope.

(** The data of the second pass that an emitter sees. *)
Record second (n epi : Z) (offs : list Z) (s : jit_state) : Prop := Second {
  sc_num : inst_num s = n;
  sc_epi : epilogue_at s = epi;
  sc_offs : offsets s = offs;
  sc_gen : needGen s = true;
}.

Lemma second_advance n epi offs s l : second n epi offs s -> second n epi offs (advance s l).
Proof. now intros []. Qed.

Section Branches.
  Context (base : Z) (code : list Z) (n epi : Z) (offs : list Z) (fin : Z).
  Local Abbreviation emits := (emits base code).
  Local Abbreviation second := (second n epi offs).

Definition branches {A} (P : arm -> Prop) (m : J A) (T : A -> arm -> Prop) : Prop :=
  forall s hs a, second s -> m s = Ok (hs, a) -> idx s + 2 * Z.of_nat (length hs) = fin ->
  forall st, code_at code (idx s) hs -> PC st = base + idx s -> P st ->
  exists k st', (k <= length hs)%nat /\ star base code k st st' /\ T a st'.

Lemma branches_bind {A B} P (m : J A) Q (k : A -> J B) T :
  emits P m Q -> (forall a, branches (Q a) (k a) T) -> branches P (m ≫= k) T.
Proof.
  intros Hm Hk s hs b Hs E Hf st Hc Hp HP. unfold mbind, J_bind in E.
  destruct (m s) as [[l1 a]| |] eqn:E1; try done.
  destruct (k a _) as [[l2 b']| |] eqn:E2; try done. injection E as <- <-.
  apply code_at_app in Hc as [Hc1 Hc2].
  destruct (Hm _ _ _ E1 (idx s) st Hc1 Hp HP) as (k1 & st1 & Hk1 & S1 & P1 & Q1).
  rewrite length_app in Hf |- *.
  destruct (Hk a _ _ _ (second_advance _ _ _ _ l1 Hs) E2 ltac:(cbn; lia) st1 Hc2)
    as (k2 & st2 & Hk2 & S2 & T2); [rewrite P1; cbn; lia|done|].
  exists (k1 + k2)%nat, st2. split_and!; [lia|eauto using star_trans|done].
Qed.

Lemma branches_emits {A} P (m : J A) Q :
  emits P m Q -> branches P m (fun a st => PC st = base + fin /\ Q a st).
Proof.
  intros H s hs a _ E Hf st Hc Hp HP. destruct (H s hs a E (idx s) st Hc Hp HP) as (k & st' & ? & ? & Hp' & ?).
  exists k, st'. split_and!; auto. lia.
Qed.

Lemma branches_weaken {A} (P P' : arm -> Prop) (m : J A) (T T' : A -> arm -> Prop) :
  (forall st, P' st -> P st) -> (forall a st, T a st -> T' a st) ->
  branches P m T -> branches P' m T'.
Proof.
  intros HP HT H s hs a Hs E Hf st Hc Hp Hst.
  destruct (H s hs a Hs E Hf st Hc Hp (HP _ Hst)) as (k & st' & ?&?&?).
  exists k, st'. auto.
Qed.

Lemma branches_ex {A X} (P : X -> arm -> Prop) (m : J A) T :
  (forall x, branches (P x) m T) -> branches (fun st => exists x, P x st) m T.
Proof. intros H s hs a Hs E Hf st Hc Hp [x HP]. exact (H x s hs a Hs E Hf st Hc Hp HP). Qed.

Lemma branches_pure {A} (phi : Prop) (P : arm -> Prop) (m : J A) T :
  (phi -> branches P m T) -> branches (fun st => phi /\ P st) m T.
Proof. intros H s hs a Hs E Hf st Hc Hp [Hphi HP]. exact (H Hphi s hs a Hs E Hf st Hc Hp HP). Qed.

Lemma branches_assume {A} (P : arm -> Prop) (m : J A) T :
  (forall st, P st -> branches P m T) -> branches P m T.
Proof. intros H s hs a Hs E Hf st Hc Hp HP. exact (H st HP s hs a Hs E Hf st Hc Hp HP). Qed.

Lemma branches_fn_bind {A B} F f (m : J A) a g (k : A -> J B) T :
  emits_fn base code F f m a g -> branches (rep F g) (k a) T -> branches (rep F f) (m ≫= k) T.
Proof.
  intros Hm Hk. eapply branches_bind; [exact Hm|]. intros b. apply branches_pure. now intros ->.
Qed.

Lemma branches_pair {A} F f r (k : Z * Z -> J A) T :
  a32_pair r = Ok (pair_of r) -> branches (rep F f) (k (pair_of r)) T ->
  branches (rep F f) (lift (a32_pair r) ≫= k) T.
Proof.
  intros E H. eapply branches_bind; [apply emits_lift|]. intros p. apply branches_pure. rewrite E.
  now intros [= <-].
Qed.

(** ** Branch instructions *)
Context (Hbase : 0 <= base) (Hhigh : base + Z.of_nat (length code) <= 2 ^ 32).

(** A branch to the position [t]. *)
Lemma branch_step st pos hs cond off t :
  code_at code pos hs -> PC st = base + pos -> decode_all hs = Some [AB cond off] ->
  pos + 2 * Z.of_nat (length hs) + off = t -> 0 <= t -> t <= Z.of_nat (length code) - 1 ->
  star base code 1 st
    (set_pc st (base + if cond_holds st cond then t else pos + 2 * Z.of_nat (length hs))).
Proof.
  intros Hc Hp Hd Ht H0 H1. apply star_one. rewrite (arm_step_at _ _ _ _ _ _ Hc Hp Hd).
  cbn [exec]. set (e := base + pos + 2 * Z.of_nat (length hs)).
  assert (Ec : cond_holds (set_pc st e) cond = cond_holds st cond) by (now destruct st).
  rewrite Ec. destruct (cond_holds st cond); cbn [set_pc PC].
  - rewrite u32_small by lia. f_equal. unfold set_pc. cbn. f_equal. lia.
  - f_equal. unfold set_pc. f_equal. lia.
Qed.

Lemma even_get k v : Forall even_byte offs -> arr_get offs k = Some v -> even_byte v.
Proof. intros H [_ Hk]%arr_get_Some. exact (Forall_lookup_1 _ _ _ _ H Hk). Qed.

Lemma jump_cond s off op :
  good_jmp op -> _emit_jump off op s = _emit_b_cond off (jmp_cond op) s.
Proof. intros H. unfold good_jmp in H. destruct_or! H; subst op; reflexivity. Qed.

Lemma jmp_cond_range op : good_jmp op -> 0 <= jmp_cond op < 14.
Proof. intros H. unfold good_jmp in H. destruct_or! H; subst op; vm_compute; intuition discriminate. Qed.

(** The code of [_emit_b_cond], at the end of a conditional jump. *)
Lemma b_cond_decodes s off cond hs :
  0 <= cond < 14 -> -256 <= off <= 254 -> off mod 2 = 0 -> _emit_b_cond off cond s = Ok (hs, ()) ->
  decode_all hs = Some [AB cond (off + if negb (_use_b4 s) then 2 else 0)] /\
  2 * Z.of_nat (length hs) = if negb (_use_b4 s) then 2 else 4.
Proof.
  intros Hc Ho He. unfold _emit_b_cond. destruct (negb (_use_b4 s)); cbn [andb].
  - replace (_ && _) with true by lia. intros [= <-]. split; [|done].
    apply decode_all_narrow; [|done]. unfold _thumb16_B_T1. cbv zeta. rewrite (u16_small (u16 _)) by apply u16_range.
    now apply decode_b_t1.
  - unfold when. replace (_ && _) with true by lia. intros [= <-]. split; [|done].
    rewrite Z.add_0_r. apply (decode_all_wide (_thumb32_BW_T3 off cond) _ []); [|done].
    unfold _thumb32_BW_T3. cbv zeta. rewrite u32_u32. apply decode_bw_t3; pow_cst; lia.
Qed.

Lemma jcc_tail_jumps P p t op to :
  Forall even_byte offs -> arr_get offs t = Some to -> arr_get offs p = Some fin ->
  to < Z.of_nat (length code) -> good_jmp op ->
  branches P (jcc_tail p t op) (fun a st => a = 0 /\ exists st0, P st0 /\
    st = set_pc st0 (base + if cond_holds st0 (jmp_cond op) then to else fin)).
Proof.
  intros Hev Ht Hp Hto Hop s hs a Hs E Hf st Hc Hpc HP.
  destruct (even_get _ _ Hev Ht) as [Hto0 Hto2]. destruct (even_get _ _ Hev Hp) as [Hfin0 Hfin2].
  unfold jcc_tail, mbind, J_bind, bpf2a32_offset in E. cbn [advance set_idx needGen offsets] in E.
  rewrite (sc_gen _ _ _ _ Hs), (sc_offs _ _ _ _ Hs), Ht, Hp in E. cbn [negb of_option mbind res_bind] in E.
  set (b := if negb (_use_b4 s) then 2 else 4) in *.
  set (off := to - (fin - b) - 4) in *. rewrite jump_cond in E by done.
  match type of E with context [_emit_b_cond off _ ?x] => set (s1 := x) in E end.
  assert (Hu : _use_b4 s1 = _use_b4 s) by reflexivity.
  destruct (_emit_b_cond off (jmp_cond op) s1) as [[l []]| |] eqn:Eb; try done.
  cbn in E. rewrite app_nil_r in E. injection E as <- <-.
  assert (Hb : b = 2 \/ b = 4) by (unfold b; destruct (negb _); auto).
  apply b_cond_decodes in Eb as [Hd Hl]; [|now apply jmp_cond_range|unfold off; Z.div_mod_to_equations; lia..].
  rewrite Hu in Hd, Hl. fold b in Hl.
  exists 1%nat. eexists. split; [lia|]. split; [|split; [done|]; exists st; split; [done|]; reflexivity].
  rewrite <- Hf. apply (branch_step st (idx s) l (jmp_cond op) _ to Hc Hpc Hd); [|lia|lia].
  unfold off, b in *. destruct (negb _); lia.
Qed.

Lemma b_decodes s off hs :
  -2048 < off < 2046 -> off mod 2 = 0 -> _emit_b off s = Ok (hs, ()) ->
  decode_all hs = Some [AB 14 (off + 2)] /\ length hs = 1%nat.
Proof.
  intros Ho He. unfold _emit_b. replace (_ && _) with true by lia. intros [= <-]. split; [|done].
  apply decode_all_narrow; [|done]. unfold _thumb16_B_T2. cbv zeta. rewrite (u16_small (u16 _)) by apply u16_range.
  apply decode_b_t2; [lia|done].
Qed.

Lemma ja_tail_jumps P p t to :
  Forall even_byte offs -> arr_get offs t = Some to -> arr_get offs p = Some fin ->
  to < Z.of_nat (length code) ->
  branches P (ja_tail p t) (fun a st => a = 0 /\ exists st0, P st0 /\ st = set_pc st0 (base + to)).
Proof.
  intros Hev Ht Hp Hto s hs a Hs E Hf st Hc Hpc HP.
  destruct (even_get _ _ Hev Ht) as [Hto0 Hto2]. destruct (even_get _ _ Hev Hp) as [Hfin0 Hfin2].
  unfold ja_tail, mbind, J_bind, bpf2a32_offset in E.
  rewrite (sc_gen _ _ _ _ Hs), (sc_offs _ _ _ _ Hs), Ht, Hp in E. cbn [negb of_option mbind res_bind] in E.
  set (off := to - (fin - 2) - 4) in *.
  destruct (_emit_b off _) as [[l []]| |] eqn:Eb; try done.
  cbn in E. rewrite app_nil_r in E. injection E as <- <-.
  apply b_decodes in Eb as [Hd Hl]; [|lia|unfold off; Z.div_mod_to_equations; lia].
  exists 1%nat. eexists. split; [lia|].
  split; [apply (branch_step st (idx s) l 14 _ to Hc Hpc Hd); [unfold off; lia|lia..]|]. eauto.
Qed.

(** EXIT goes to the epilogue, which follows the last instruction. *)
Lemma exit_jumps P p :
  (p = n - 1 -> fin = epi) -> 0 <= epi < 1024 -> epi < Z.of_nat (length code) -> 0 <= fin < 1024 ->
  epi mod 2 = 0 -> fin mod 2 = 0 ->
  branches P (build_exit p) (fun a st => a = 0 /\ exists st0, P st0 /\ st = set_pc st0 (base + epi)).
Proof.
  intros Hlast Hepi Hlen Hfin He2 Hf2 s hs a Hs E Hf st Hc Hpc HP. unfold build_exit in E.
  rewrite (sc_num _ _ _ _ Hs) in E. destruct (Z.eqb_spec p (n - 1)) as [Hp|Hp].
  - injection E as <- <-. exists 0%nat, st. split; [lia|]. split; [apply star_refl|]. split; [done|].
    exists st. split; [done|]. cbn in Hf. rewrite <- (Hlast Hp), <- Hf, Z.add_0_r, <- Hpc. now destruct st.
  - unfold mbind, J_bind, epilogue_offset in E. rewrite (sc_gen _ _ _ _ Hs), (sc_epi _ _ _ _ Hs) in E.
    cbn [negb] in E. set (off := epi - idx s - 4) in *.
    destruct (_emit_b off _) as [[l []]| |] eqn:Eb; try done.
    cbn in E. rewrite app_nil_r in E. injection E as <- <-. destruct Hc as [Hi Hc0].
    assert (idx s mod 2 = 0) by (Z.div_mod_to_equations; lia).
    apply b_decodes in Eb as [Hd Hl]; [|lia|unfold off; Z.div_mod_to_equations; lia].
    exists 1%nat. eexists. split; [lia|].
    split; [apply (branch_step st (idx s) l 14 _ epi (conj Hi Hc0) Hpc Hd); [unfold off; lia|lia..]|]. eauto.
Qed.
End Branches.

(** ** Comparisons *)
Definition is_small (x : rinfo) : bool := match x with Known _ s => s | _ => false end.
Definition is_full (x : rinfo) : bool := match x with Known f _ => f | _ => false end.

(** The code compares 64-bit operands by their low words when they are unsigned. *)
Definition jcc_ok (A : astate) (i : ebpf_inst) (o : ebpf_op) : bool :=
  let d := default Unknown (arr_get A (dst i)) in
  let s := default Unknown (arr_get A (src i)) in
  match o with
  | EBPF_OP_JEQ_IMM | EBPF_OP_JNE_IMM => is_small d && (0 <=? imm i)
  | EBPF_OP_JGT_IMM | EBPF_OP_JGE_IMM => is_small d
  | EBPF_OP_JSGT_IMM | EBPF_OP_JSGE_IMM => is_full d
  | EBPF_OP_JEQ_REG | EBPF_OP_JNE_REG | EBPF_OP_JGT_REG | EBPF_OP_JGE_REG => is_small d && is_small s
  | EBPF_OP_JSGT_REG | EBPF_OP_JSGE_REG => is_full d && is_full s
  | _ => false
  end.

Lemma bpf_pair_temps p : bpf_pair p -> ~ In p.1 temps /\ ~ In p.2 temps.
Proof. intros [[(_ & _ & [_ ? [] []])|(_ & _ & [_ ? ? _])] ?]; cbn; lia. Qed.

(** The temporary registers hold no eBPF register. *)
Lemma related_temps F A f g rs :
  (forall z, ~ In z temps -> g z = f z) -> related F A f rs -> related F A g rs.
Proof.
  intros Hg Hrel. pose proof Hrel as [HA Hrs Hr H]. constructor; auto. intros r x v Hx Hv.
  destruct (related_get _ _ _ _ _ _ Hrel Hx) as (_ & _ & _ & _ & _ & Hp & _).
  destruct (bpf_pair_temps _ Hp) as [H1 H2].
  eapply info_ok_ext; [symmetry; now apply Hg..|]. now apply (H r).
Qed.

Section Jcc.
  Context (base : Z) (code : list Z) (n epi : Z) (offs : list Z) (fin : Z).
  Context (Hbase : 0 <= base) (Hhigh : base + Z.of_nat (length code) <= 2 ^ 32).
  Context (F : frame) (HF : frame_ok F).
  Local Abbreviation emits := (emits base code).
  Local Abbreviation branches := (branches base code n epi offs fin).

(** [X] loads the second operand, with the value [w], into [rs]. *)
Definition operand (f : Z -> Z) (X : J (Z * Z)) (rs : Z * Z) (w : Z) : Prop :=
  emits (rep F f) X (fun r st => r = rs /\ exists g, rep F g st /\ pv g rs = w /\
    forall z, ~ In z temps -> g z = f z).

Lemma operand_imm f v :
  - 2 ^ 31 <= v < 2 ^ 31 ->
  operand f (emit_mov_se_imm64 true tmp2 v ;; mret (tmp2.1, tmp2.2)) tmp2 (u64 v).
Proof.
  intros Hv. eapply emits_set_bind; [apply (emit_mov_se_spec base code F HF); [|done]|].
  { right. auto using tmp2_work. }
  intros g _ [Hg Hfr]. eapply emits_weaken; [intros st H; exact H| |apply emits_ret].
  intros r st [-> Hst]. split; [done|]. exists g. split_and!; [done..|].
  intros z Hz. apply Hfr; cbn in *; lia.
Qed.

Lemma operand_reg f p :
  bpf_pair p ->
  operand f (rm ← arm_bpf_get_reg32 p.1 tmp2.1; rn ← arm_bpf_get_reg32 p.2 tmp2.2; mret (rm, rn))
    (rd_of p tmp2) (pv f p).
Proof.
  intros [Hp H4]. unfold operand.
  assert (Hin : forall z, z = p.1 \/ z = p.2 -> In z all_slots \/ 0 <= z).
  { destruct Hp as [(_ & _ & [])|(_ & _ & [])]; intros z [->| ->];
      [left; now apply in_all_slots|left; now apply in_all_slots|right; lia|right; lia]. }
  eapply emits_fn_bind; [apply (get_reg32_spec base code F HF f p.1 tmp2.1);
    [auto|apply in_work_regs; cbn; lia]|].
  eapply emits_fn_bind; [apply (get_reg32_spec base code F HF _ p.2 tmp2.2);
    [auto|apply in_work_regs; cbn; lia]|].
  eapply emits_weaken; [intros st H; exact H| |apply emits_ret]. intros r st [-> Hst].
  unfold rd_of, pv. destruct Hp as [(E2 & E1 & Hs)|(E2 & E1 & Hw)]; rewrite E1, E2 in *.
  - split; [done|]. eexists. split; [exact Hst|]. destruct Hs as [_ ? [] []]. cbn [tmp2 fst snd].
    split; [|intros z Hz; rewrite !upd_ne; [done|cbn in Hz; lia..]].
    rewrite upd_eq, (upd_ne _ 8 _ 9), upd_eq, upd_ne by lia. done.
  - split; [now destruct p|]. eexists. split; [exact Hst|]. done.
Qed.

(** The operands of a comparison, and what follows. *)
Lemma compare_then A f rs0 X rs w d x op (k : J Z) T :
  related F A f rs0 -> arr_get A d = Some x ->
  operand f X rs w -> rs = tmp2 \/ bpf_pair rs /\ work_pair rs ->
  (forall h rd, work_pair rd -> (forall z, ~ In z temps -> h z = f z) ->
     pv h rd = pv f (pair_of d) -> pv h rs = w ->
     branches (rep F h) (_emit_cmp_cond rd.1 rd.2 rs.1 rs.2 op true ;; k) T) ->
  branches (rep F f)
    ('(rm, rn) ← X; dst ← lift (a32_pair d); rd ← arm_bpf_get_reg64 dst tmp1;
     _emit_cmp_cond rd.1 rd.2 rm rn op true ;; k) T.
Proof.
  intros Hrel Hx HX Hrs Hk.
  destruct (related_get _ _ _ _ _ _ Hrel Hx) as (v' & Hv' & _ & _ & Ea & Hd & _).
  eapply branches_bind; [exact HX|]. intros [rm rn]. apply branches_pure. intros Er.
  apply branches_ex. intros g. eapply branches_weaken; [|intros a st H; exact H|apply branches_pure].
  { intros st (H1 & H2 & H3). exact (conj (conj H2 H3) H1). }
  intros [Hw Hfr]. apply branches_pair; [done|].
  eapply branches_fn_bind; [apply (get_reg64_spec base code F HF); [exact (proj1 Hd)|apply tmp1_work]|].
  set (rd := rd_of (pair_of d) tmp1). set (h := got64 g (pair_of d) tmp1).
  destruct (bpf_pair_temps _ Hd) as [Hd1 Hd2].
  replace rm with rs.1 by now rewrite <- Er. replace rn with rs.2 by now rewrite <- Er.
  apply Hk.
  - apply rd_of_work; [exact (proj1 Hd)|apply tmp1_work].
  - intros z Hz. rewrite <- Hfr by done. unfold h, got64. destruct (is_stacked _); [|done].
    rewrite !upd_ne; [done|cbn in *; lia..].
  - unfold pv, h, rd, got64, rd_of. destruct (is_stacked _); cbn [tmp1 fst snd].
    + rewrite upd_eq, (upd_ne _ 7 _ 6), upd_eq by lia. now rewrite !Hfr.
    + now rewrite !Hfr.
  - rewrite <- Hw. unfold pv, h, got64. destruct (is_stacked _); [|done]. cbn [tmp1 fst snd].
    assert (Hrs' : rs.1 <> 6 /\ rs.1 <> 7 /\ rs.2 <> 6 /\ rs.2 <> 7).
    { destruct Hrs as [->|[Hb' _]]; [cbn; lia|]. destruct (bpf_pair_temps _ Hb') as [A1 A2].
      cbn in A1, A2. lia. }
    rewrite !upd_ne by lia. done.
Qed.

Lemma operand_work rs : rs = tmp2 \/ bpf_pair rs /\ work_pair rs -> work_pair rs.
Proof. intros [->|[]]; auto using tmp2_work. Qed.

(** The comparison and the branch behind it. *)
Lemma compare_jumps A f rs0 X rs w d x op p t to (b : bool) :
  related F A f rs0 -> arr_get A d = Some x ->
  operand f X rs w -> rs = tmp2 \/ bpf_pair rs /\ work_pair rs -> good_jmp op ->
  Forall even_byte offs -> arr_get offs t = Some to -> arr_get offs p = Some fin ->
  to < Z.of_nat (length code) ->
  jmp_value op (pv f (pair_of d)) w = b ->
  branches (rep F f)
    ('(rm, rn) ← X; dst ← lift (a32_pair d); rd ← arm_bpf_get_reg64 dst tmp1;
     _emit_cmp_cond rd.1 rd.2 rm rn op true ;; jcc_tail p t op)
    (fun a st => a = 0 /\ PC st = base + (if b then to else fin) /\
       exists g, rep F g st /\ related F A g rs0).
Proof.
  intros Hrel Hx HX Hrs Hop Hev Ht Hp Hto Hb.
  eapply (compare_then A f rs0 X rs w d x op); eauto. intros h rd Wd Hh Hhd Hhs.
  eapply branches_bind; [apply (emit_cmp_spec base code F h rd rs op); auto using operand_work|].
  intros u. eapply branches_weaken; [intros st H; exact H| |apply (jcc_tail_jumps _ _ _ _ _ _ Hbase Hhigh _ p t op to); auto].
  intros a st [-> (st0 & (k & Hst & Hk & Hc) & ->)]. split; [done|].
  rewrite Hc, Hhd, Hhs, Hb. split; [done|]. exists k. split; [now apply rep_set_pc|].
  apply (related_temps F A f); [|done]. intros z Hz. rewrite Hk by (cbn in Hz; lia). now apply Hh.
Qed.

(** ** The jumps that the compiler loses *)

(** JLT, JLE, JSLT and JSLE. *)
Definition less_op (op : Z) : Prop := op = EBPF_JLT \/ op = EBPF_JLE \/ op = EBPF_JSLT \/ op = EBPF_JSLE.

Lemma cmp_less_spec f rd rs op :
  work_pair rd -> work_pair rs -> less_op op ->
  emits (rep F f) (_emit_cmp_cond rd.1 rd.2 rs.1 rs.2 op true)
    (fun _ st => exists g, rep F g st /\ forall z, z <> 12 -> g z = f z).
Proof.
  intros Hd Hs Hop.
  assert (H : exists op', good_jmp op' /\ _emit_cmp_cond rd.1 rd.2 rs.1 rs.2 op true =
    _emit_cmp_cond rd.1 rd.2 rs.1 rs.2 op' true).
  { unfold good_jmp. destruct Hop as [->|[->|[->| ->]]];
      [exists EBPF_JEQ|exists EBPF_JEQ|exists EBPF_JSGE|exists EBPF_JSGT]; split; auto 10; reflexivity. }
  destruct H as (op' & Hg & ->).
  eapply emits_weaken; [intros st Hst; exact Hst| |apply (emit_cmp_spec base code F f rd rs op'); auto].
  intros _ st (g & Hst & Hz & _). eauto.
Qed.

(** [_emit_jump] emits nothing for them. *)
Lemma less_tail_nil P p t op :
  less_op op -> branches P (jcc_tail p t op) (fun a st => a = 0 /\ PC st = base + fin /\ P st).
Proof.
  intros Hop s hs a Hs E Hf st Hc Hp HP. unfold jcc_tail, mbind, J_bind, bpf2a32_offset in E.
  cbn [advance set_idx needGen offsets] in E. rewrite (sc_gen _ _ _ _ Hs), (sc_offs _ _ _ _ Hs) in E.
  cbn [negb] in E. destruct (arr_get offs t) as [to|]; [|done]. destruct (arr_get offs p) as [from|]; [|done].
  cbn [of_option mbind res_bind] in E.
  assert (Hj : forall off s, _emit_jump off op s = Ok ([], ()))
    by (intros; destruct Hop as [->|[->|[->| ->]]]; reflexivity).
  rewrite Hj in E. cbn in E. injection E as <- <-. cbn in Hf.
  exists 0%nat, st. split; [cbn; lia|]. split; [apply star_refl|]. split; [done|]. split; [lia|done].
Qed.

Lemma compare_falls A f rs0 X rs w d x op p t :
  related F A f rs0 -> arr_get A d = Some x ->
  operand f X rs w -> rs = tmp2 \/ bpf_pair rs /\ work_pair rs -> less_op op ->
  branches (rep F f)
    ('(rm, rn) ← X; dst ← lift (a32_pair d); rd ← arm_bpf_get_reg64 dst tmp1;
     _emit_cmp_cond rd.1 rd.2 rm rn op true ;; jcc_tail p t op)
    (fun a st => a = 0 /\ PC st = base + fin /\ exists g, rep F g st /\ related F A g rs0).
Proof.
  intros Hrel Hx HX Hrs Hop. eapply (compare_then A f rs0 X rs w d x op); eauto. intros h rd Wd Hh _ _.
  eapply branches_bind; [apply (cmp_less_spec h rd rs op); auto using operand_work|].
  intros u. eapply branches_weaken; [intros st H; exact H| |apply (less_tail_nil _ p t op Hop)].
  intros a st (-> & Hp & g & Hst & Hg). split; [done|]. split; [done|]. exists g. split; [done|].
  apply (related_temps F A f); [|done]. intros z Hz. rewrite Hg by (cbn in Hz; lia). now apply Hh.
Qed.

Context (A : astate) (f : Z -> Z) (rs : list Z) (Hrel : related F A f rs).
Context (i : ebpf_inst) (Himm : - 2 ^ 31 <= imm i < 2 ^ 31) (p : Z) (nxt : option ebpf_inst).
Context (to : Z) (Hev : Forall even_byte offs) (Hto : to < Z.of_nat (length code)).
Context (Ht : arr_get offs (p + offset i) = Some to) (Hp : arr_get offs p = Some fin).

(** Where the code of a jump on [b] goes. *)
Definition jumped (b : bool) (a : Z) (st : arm) : Prop :=
  a = 0 /\ PC st = base + (if b then to else fin) /\ exists g, rep F g st /\ related F A g rs.

Lemma jcc_imm_code o op x b :
  In (o, op) [(EBPF_OP_JEQ_IMM, EBPF_JEQ); (EBPF_OP_JNE_IMM, EBPF_JNE); (EBPF_OP_JGT_IMM, EBPF_JGT);
              (EBPF_OP_JGE_IMM, EBPF_JGE); (EBPF_OP_JSGT_IMM, EBPF_JSGT); (EBPF_OP_JSGE_IMM, EBPF_JSGE)] ->
  opcode_of (opcode i) = Some o -> arr_get A (dst i) = Some x ->
  jmp_value op (pv f (pair_of (dst i))) (u64 (imm i)) = b ->
  branches (rep F f) (build_inst i p nxt) (jumped b).
Proof.
  intros Hin Ho Hx Hb.
  assert (Hop : good_jmp op).
  { unfold good_jmp. cbn in Hin. destruct_or! Hin; try done; injection Hin as <- <-; auto 10. }
  assert (Ei : build_inst i p nxt = (if offset i =? 0 then done else
    '(rm, rn) ← (emit_mov_se_imm64 true tmp2 (imm i) ;; mret (tmp2.1, tmp2.2));
    dst ← lift (a32_pair (dst i)); rd ← arm_bpf_get_reg64 dst tmp1;
    _emit_cmp_cond rd.1 rd.2 rm rn op true ;; jcc_tail p (p + offset i) op)).
  { cbn in Hin. destruct_or! Hin; try done; injection Hin as <- <-; unfold build_inst; rewrite Ho;
      apply opcode_of_Some in Ho as ->; reflexivity. }
  rewrite Ei. destruct (Z.eqb_spec (offset i) 0) as [E0|_].
  - assert (Ef : to = fin) by (rewrite E0, Z.add_0_r in Ht; congruence).
    eapply branches_weaken; [intros st Hst; exact Hst| |apply branches_emits, emits_ret].
    intros a st (Hpc & -> & Hst). split; [done|]. split; [rewrite Ef; now destruct b|]. eauto.
  - eapply (compare_jumps A f rs _ tmp2 (u64 (imm i)) (dst i) x op); eauto. now apply operand_imm.
Qed.

(** The lost jumps, with an immediate and with a register. *)
Lemma less_imm_code o op x :
  In (o, op) [(EBPF_OP_JLT_IMM, EBPF_JLT); (EBPF_OP_JLE_IMM, EBPF_JLE);
              (EBPF_OP_JSLT_IMM, EBPF_JSLT); (EBPF_OP_JSLE_IMM, EBPF_JSLE)] ->
  opcode_of (opcode i) = Some o -> arr_get A (dst i) = Some x ->
  branches (rep F f) (build_inst i p nxt)
    (fun a st => a = 0 /\ PC st = base + fin /\ exists g, rep F g st /\ related F A g rs).
Proof using HF Hrel Himm.
  intros Hin Ho Hx.
  assert (Hop : less_op op).
  { unfold less_op. cbn in Hin. destruct_or! Hin; try done; injection Hin as <- <-; auto. }
  assert (Ei : build_inst i p nxt = (if offset i =? 0 then done else
    '(rm, rn) ← (emit_mov_se_imm64 true tmp2 (imm i) ;; mret (tmp2.1, tmp2.2));
    dst ← lift (a32_pair (dst i)); rd ← arm_bpf_get_reg64 dst tmp1;
    _emit_cmp_cond rd.1 rd.2 rm rn op true ;; jcc_tail p (p + offset i) op)).
  { cbn in Hin. destruct_or! Hin; try done; injection Hin as <- <-; unfold build_inst; rewrite Ho;
      apply opcode_of_Some in Ho as ->; reflexivity. }
  rewrite Ei. destruct (Z.eqb_spec (offset i) 0) as [E0|_].
  - eapply branches_weaken; [intros st Hst; exact Hst| |apply branches_emits, emits_ret].
    intros a st (Hpc & -> & Hst). eauto.
  - eapply (compare_falls A f rs _ tmp2 (u64 (imm i)) (dst i) x op); eauto. now apply operand_imm.
Qed.

Lemma less_reg_code o op x y :
  In (o, op) [(EBPF_OP_JLT_REG, EBPF_JLT); (EBPF_OP_JLE_REG, EBPF_JLE);
              (EBPF_OP_JSLT_REG, EBPF_JSLT); (EBPF_OP_JSLE_REG, EBPF_JSLE)] ->
  opcode_of (opcode i) = Some o -> arr_get A (dst i) = Some x -> arr_get A (src i) = Some y ->
  branches (rep F f) (build_inst i p nxt)
    (fun a st => a = 0 /\ PC st = base + fin /\ exists g, rep F g st /\ related F A g rs).
Proof using HF Hrel.
  intros Hin Ho Hx Hy.
  assert (Hop : less_op op).
  { unfold less_op. cbn in Hin. destruct_or! Hin; try done; injection Hin as <- <-; auto. }
  assert (Ei : build_inst i p nxt = (
    '(rm, rn) ← (src ← lift (a32_pair (src i)); rm ← arm_bpf_get_reg32 src.1 tmp2.1;
                 rn ← arm_bpf_get_reg32 src.2 tmp2.2; mret (rm, rn));
    dst ← lift (a32_pair (dst i)); rd ← arm_bpf_get_reg64 dst tmp1;
    _emit_cmp_cond rd.1 rd.2 rm rn op true ;; jcc_tail p (p + offset i) op)).
  { cbn in Hin. destruct_or! Hin; try done; injection Hin as <- <-; unfold build_inst; rewrite Ho;
      apply opcode_of_Some in Ho as ->; reflexivity. }
  destruct (related_get _ _ _ _ _ _ Hrel Hy) as (w & _ & _ & _ & Eb & Hq & _).
  rewrite Ei. eapply (compare_falls A f rs _ (rd_of (pair_of (src i)) tmp2)); eauto.
  - eapply emits_bind; [apply emits_lift|]. intros s. apply emits_pure. rewrite Eb. intros [= <-].
    now apply operand_reg.
  - destruct Hq as [[(E & _ & _)|(E & E' & Hw)] H4]; unfold rd_of; rewrite E; [now left|].
    right. split; [|done]. split; [|done]. right. auto.
Qed.

Lemma jcc_reg_code o op x y b :
  In (o, op) [(EBPF_OP_JEQ_REG, EBPF_JEQ); (EBPF_OP_JNE_REG, EBPF_JNE); (EBPF_OP_JGT_REG, EBPF_JGT);
              (EBPF_OP_JGE_REG, EBPF_JGE); (EBPF_OP_JSGT_REG, EBPF_JSGT); (EBPF_OP_JSGE_REG, EBPF_JSGE)] ->
  opcode_of (opcode i) = Some o -> arr_get A (dst i) = Some x -> arr_get A (src i) = Some y ->
  jmp_value op (pv f (pair_of (dst i))) (pv f (pair_of (src i))) = b ->
  branches (rep F f) (build_inst i p nxt) (jumped b).
Proof.
  intros Hin Ho Hx Hy Hb.
  assert (Hop : good_jmp op).
  { unfold good_jmp. cbn in Hin. destruct_or! Hin; try done; injection Hin as <- <-; auto 10. }
  assert (Ei : build_inst i p nxt = (
    '(rm, rn) ← (src ← lift (a32_pair (src i)); rm ← arm_bpf_get_reg32 src.1 tmp2.1;
                 rn ← arm_bpf_get_reg32 src.2 tmp2.2; mret (rm, rn));
    dst ← lift (a32_pair (dst i)); rd ← arm_bpf_get_reg64 dst tmp1;
    _emit_cmp_cond rd.1 rd.2 rm rn op true ;; jcc_tail p (p + offset i) op)).
  { cbn in Hin. destruct_or! Hin; try done; injection Hin as <- <-; unfold build_inst; rewrite Ho;
      apply opcode_of_Some in Ho as ->; reflexivity. }
  destruct (related_get _ _ _ _ _ _ Hrel Hy) as (w & _ & _ & _ & Eb & Hq & _).
  rewrite Ei. eapply (compare_jumps A f rs _ (rd_of (pair_of (src i)) tmp2)); eauto.
  - eapply emits_bind; [apply emits_lift|]. intros s. apply emits_pure. rewrite Eb. intros [= <-].
    now apply operand_reg.
  - destruct Hq as [[(E & _ & _)|(E & E' & Hw)] H4]; unfold rd_of; rewrite E; [now left|].
    right. split; [|done]. split; [|done]. right. auto.
Qed.

Context (bpf : list Z) (helpers : option (list (option ext_func))) (mem_len q : Z) (m : memory).

Lemma low_small v r full small :
  0 <= v < 2 ^ 64 -> (exists st, rep F f st) -> bpf_pair (pair_of r) ->
  info_ok F (Known full small) f (pair_of r) v -> small = true -> u32 (pv f (pair_of r)) = v.
Proof.
  intros Hv [st Hst] Hr (El & _ & Hs) Hsm. rewrite (pair_low _ _ _ _ Hst Hr), El.
  apply u32_small. specialize (Hs Hsm). lia.
Qed.

(** Both machines decide alike. *)
Lemma jcc_sound o :
  opcode_of (opcode i) = Some o -> jcc_ok A i o = true -> (exists st, rep F f st) ->
  exists b, dispatch bpf false helpers mem_len (Cpu q rs m) i o = jump (Cpu q rs m) i b /\
    branches (rep F f) (build_inst i p nxt) (jumped b).
Proof.
  intros Ho Hj Hst. unfold jcc_ok in Hj.
  destruct (arr_get A (dst i)) as [[| |fd sd]|] eqn:Ed; cbn [default is_small is_full] in Hj;
    [destruct o; discriminate Hj..| |destruct o; discriminate Hj].
  destruct (related_get _ _ _ _ _ _ Hrel Ed) as (v & Ev & Hv & Hd & Ea & Hpd & Hinfo).
  assert (Gv : get_reg (Cpu q rs m) (dst i) = Ok v) by (unfold get_reg; cbn; now rewrite Ev).
  pose proof (low_small v (dst i) fd sd Hv Hst Hpd Hinfo) as Low.
  destruct Hinfo as (_ & Full & _).
  assert (Hs : match o with EBPF_OP_JEQ_REG | EBPF_OP_JNE_REG | EBPF_OP_JGT_REG | EBPF_OP_JGE_REG
    | EBPF_OP_JSGT_REG | EBPF_OP_JSGE_REG =>
      exists y w, arr_get A (src i) = Some y /\ get_reg (Cpu q rs m) (src i) = Ok w /\
        (is_small y = true -> u32 (pv f (pair_of (src i))) = w) /\
        (is_full y = true -> pv f (pair_of (src i)) = w) | _ => True end).
  { destruct (arr_get A (src i)) as [[| |fs ss]|] eqn:Es; cbn [default is_small is_full] in Hj;
      [destruct o; try done; now rewrite andb_false_r in Hj..| |
       destruct o; try done; now rewrite andb_false_r in Hj].
    destruct (related_get _ _ _ _ _ _ Hrel Es) as (w & Ew & Hw & Hsr & Eb & Hq & Hinfo').
    pose proof (low_small w (src i) fs ss Hw Hst Hq Hinfo') as Low'. destruct Hinfo' as (_ & Full' & _).
    destruct o; try done; exists (Known fs ss), w; split_and!; auto; unfold get_reg; cbn; now rewrite Ew. }
  destruct o; try discriminate Hj; cbn in Hs;
    try (destruct Hs as (y & w & Es & Gw & Low' & Full'); rewrite Es in Hj; cbn [default] in Hj;
         apply andb_prop in Hj as [Hj1 Hj2]);
    (eexists; split; [cbn; rewrite Gv, ?Gw; cbn; reflexivity|]).
  all: match type of Ho with _ = Some ?o =>
         let op := eval vm_compute in (BPF_OP (opcode_code o)) in
         first [ eapply (jcc_reg_code o op); [cbn; tauto|eassumption..|]
               | eapply (jcc_imm_code o op); [cbn; tauto|eassumption..|] ]
       end;
    cbv [jmp_value Z.eqb Pos.eqb].
  all: try (apply andb_prop in Hj as [Hj ?Hi]; apply Z.leb_le in Hi;
    rewrite (u64_small (imm i)), (u32_small (imm i)) by lia).
  all: rewrite ?u32_u64, ?s64_u64, ?Low, ?Low', ?Full, ?Full' by assumption; try reflexivity.
  all: now rewrite (s64_small (imm i)) by lia.
Qed.
End Jcc.
