(* ===== verification/JitCheck.v ===== *)
(** * Checking programs for the compiler

    [jit_ok] decides, by the type system of [JitFlow] and a compilation, that the
    machine code of a program does what the interpreter does. All jumps go forward,
    so that one pass over the program infers the types ([infer]); the types are then
    checked ([well_typed]). This file has the checker and the structure of a program;
    [JitSim] proves the checker sound. *)
From stdpp Require Import base tactics numbers list relations.
From Stdlib Require Import ZArith Lia.
From S2P Require Import Prelude Inst VM VMFacts Thumb2 Arm Jit Thumb2Facts ArmFacts JitLogic JitEmit JitOps JitPasses JitLayout JitFlow JitBranch.
Local Open Scope Z_scope.
Local Open Scope bits_scope.

Definition op_at (prog : list Z) (i : Z) : option (ebpf_inst * ebpf_op) :=
  inst ← inst_at prog i;
  o ← opcode_of (opcode inst);
  Some (inst, o).

(** The number of slots of the instruction at [i]. *)
Definition width (prog : list Z) (i : Z) : Z :=
  match op_at prog i with Some (_, EBPF_OP_LDDW) => 2 | _ => 1 end.

(** The instructions from [i] on. *)
Fixpoint starts (prog : list Z) (n : Z) (fuel : nat) (i : Z) : list Z :=
  match fuel with
  | O => []
  | S fuel => if n <=? i then [] else i :: starts prog n fuel (i + width prog i)
  end.

Definition sweep (prog : list Z) (n i : Z) : list Z := starts prog n (Z.to_nat (n - i)) i.

(** [build_inst] does not stop the compilation. *)
Definition plain (o : ebpf_op) : bool :=
  match o with
  | EBPF_OP_LE | EBPF_OP_BE | EBPF_OP_LSH_IMM | EBPF_OP_RSH_IMM | EBPF_OP_ARSH_IMM => false
  | _ => true
  end.

(** The types at entry: r1 points to the monitor state. *)
Definition entry_state : astate := <[1%nat := Ctx]> (replicate 11 Unknown).

(** ** Checking *)
Section Checker.
  Context (prog : list Z) (n len : Z) (cert : list (option astate)).

(** The program may go on at [t], behind [i'], with the types [A]. *)
Definition edge (i' : Z) (A : astate) (t : Z) : bool :=
  existsb (Z.eqb t) (sweep prog n i') &&
  match arr_get cert t with Some (Some B) => le_state A B | _ => false end.

Definition check_inst (i : Z) (inst : ebpf_inst) (o : ebpf_op) (A : astate) : bool :=
  match o with
  | EBPF_OP_EXIT => is_full (default Unknown (arr_get A 0))
  | EBPF_OP_JA => (0 <=? offset inst) && edge (i + 1) A (i + 1 + offset inst)
  | EBPF_OP_LDDW =>
      match inst_at prog (i + 1), flow len A inst o with
      | Some _, Some A' => edge (i + 2) A' (i + 2)
      | _, _ => false
      end
  | _ =>
      if is_jcc o
      then jcc_ok A inst o && (0 <=? offset inst) &&
           edge (i + 1) A (i + 1) && edge (i + 1) A (i + 1 + offset inst)
      else match flow len A inst o with Some A' => edge (i + 1) A' (i + 1) | None => false end
  end.

Definition check_at (i : Z) : bool :=
  match op_at prog i with
  | None => false
  | Some (inst, o) =>
      plain o &&
      match arr_get cert i with
      | Some (Some A) => check_inst i inst o A
      | Some None => true
      | None => false
      end
  end.

Definition well_typed : bool :=
  (0 <? n) && (n <? 2 ^ 15) && forallb check_at (sweep prog n 0) &&
  match arr_get cert 0 with Some (Some B) => le_state entry_state B | _ => false end.
End Checker.

(** ** Inference *)
Definition join_info (a b : rinfo) : rinfo :=
  match a, b with
  | Ctx, Ctx => Ctx
  | Known f s, Known f' s' => Known (f && f') (s && s')
  | _, _ => Unknown
  end.

Definition join (a : option astate) (B : astate) : astate :=
  match a with None => B | Some A => zip_with join_info A B end.

Definition join_at (cert : list (option astate)) (t : Z) (B : astate) : list (option astate) :=
  default cert (arr_set cert t (Some (join (mjoin (arr_get cert t)) B))).

Definition infer_inst (prog : list Z) (len : Z) (cert : list (option astate)) (i : Z)
    : list (option astate) :=
  match op_at prog i, mjoin (arr_get cert i) with
  | Some (inst, o), Some A =>
      match o with
      | EBPF_OP_EXIT => cert
      | EBPF_OP_JA => join_at cert (i + 1 + offset inst) A
      | _ =>
          if is_jcc o then join_at (join_at cert (i + 1) A) (i + 1 + offset inst) A
          else match flow len A inst o with
               | Some A' => join_at cert (i + width prog i) A'
               | None => cert
               end
      end
  | _, _ => cert
  end.

Definition infer (prog : list Z) (n len : Z) : list (option astate) :=
  foldl (infer_inst prog len) (join_at (replicate (Z.to_nat n) None) 0 entry_state) (sweep prog n 0).

(** ** The structure of a program *)
Definition hop (prog : list Z) (n i j : Z) : Prop := i < n /\ j = i + width prog i.

Lemma width_pos prog i : 1 <= width prog i <= 2.
Proof. unfold width. repeat case_match; lia. Qed.

Lemma hops_le prog n i t : rtc (hop prog n) i t -> i <= t.
Proof. induction 1 as [|i j t [_ ->] _ IH]; [lia|]. pose proof (width_pos prog i). lia. Qed.

Lemma starts_hops prog n fuel i t :
  In t (starts prog n fuel i) -> rtc (hop prog n) i t /\ t < n.
Proof.
  revert i. induction fuel as [|fuel IH]; intros i; cbn [starts]; [done|].
  destruct (Z.leb_spec n i) as [Hi|Hi]; [done|]. intros [->|H].
  - split; [constructor|done].
  - destruct (IH _ H) as [H1 H2]. split; [|done]. eapply rtc_l; [|exact H1]. done.
Qed.

Lemma hops_starts prog n fuel i t :
  rtc (hop prog n) i t -> t < n -> n - i <= Z.of_nat fuel -> In t (starts prog n fuel i).
Proof.
  intros H Ht. revert fuel. induction H as [i|i j t [Hi ->] H IH]; intros fuel Hf;
    (destruct fuel as [|fuel]; [pose proof (width_pos prog i);
       try (apply hops_le in H); lia|]); cbn [starts].
  - destruct (Z.leb_spec n i); [lia|now left].
  - destruct (Z.leb_spec n i); [lia|]. right. apply IH; [done|]. pose proof (width_pos prog i). lia.
Qed.

Lemma sweep_spec prog n i t : In t (sweep prog n i) <-> rtc (hop prog n) i t /\ t < n.
Proof.
  split; [apply starts_hops|]. intros [H Ht]. apply hops_starts; [done|done|].
  pose proof (hops_le _ _ _ _ H). lia.
Qed.

Lemma edge_spec prog n cert i' A t :
  edge prog n cert i' A t = true ->
  rtc (hop prog n) i' t /\ t < n /\ exists B, arr_get cert t = Some (Some B) /\ le_state A B = true.
Proof.
  intros [H1 H2]%andb_prop. apply List.existsb_exists in H1 as (t' & Hin & ->%Z.eqb_eq).
  apply sweep_spec in Hin as [H Ht]. split_and!; [done..|].
  destruct (arr_get cert t') as [[B|]|]; try done. eauto.
Qed.

(** ** The results of [build_inst] *)
Definition returns {A} (m : J A) (r : A) : Prop := forall s hs a, m s = Ok (hs, a) -> a = r.

Lemma returns_ret {A} (r : A) : returns (mret r) r.
Proof. now intros s hs a [= _ <-]. Qed.

Lemma returns_bind {A B} (m : J A) (k : A -> J B) r : (forall a, returns (k a) r) -> returns (m ≫= k) r.
Proof.
  intros H s hs b. unfold mbind, J_bind. destruct (m s) as [[l1 a]| |]; try done.
  destruct (k a _) as [[l2 b']| |] eqn:E; try done. intros [= _ <-]. exact (H _ _ _ _ E).
Qed.

#[local] Hint Resolve returns_ret returns_bind : core.

Lemma build_inst_returns i p nxt o :
  opcode_of (opcode i) = Some o -> plain o = true ->
  returns (build_inst i p nxt) (match o with EBPF_OP_LDDW => 1 | _ => 0 end).
Proof.
  intros Ho Hp. unfold build_inst. rewrite Ho. cbv zeta.
  assert (Hd : returns done 0) by apply returns_ret.
  destruct o; try discriminate Hp; clear Ho Hp;
    try (unfold build_mov, build_alu, build_div, build_mul64, build_st, build_ldx, build_stx,
           build_call, build_dst, build_dst_src; repeat (apply returns_bind; intros); auto; fail).
  all: try (unfold build_jmp; destruct (_ && _); [done|]; apply returns_bind; intros [rm rn];
    repeat (apply returns_bind; intros); auto; fail).
  - destruct (_ =? 0); [done|]. repeat (apply returns_bind; intros); auto.
  - intros s hs a. unfold build_exit. destruct (_ =? _); [apply Hd|].
    revert s hs a. repeat (apply returns_bind; intros). auto.
Qed.
