(* ===== verification/JitSim.v ===== *)
(** * The code of a well-typed program does what the interpreter does

    The states of the interpreter and of the processor at an instruction are related
    by the types there. One instruction leads from related states to related states
    at a later instruction, or both machines are done ([step_sim]); as jumps go
    forward, both runs end ([body_sim]). *)
From stdpp Require Import base tactics numbers list relations.
From Stdlib Require Import ZArith Lia.
From S2P Require Import Prelude Inst VM VMFacts Thumb2 Arm Jit Thumb2Facts ArmFacts JitLogic JitEmit JitOps JitPasses JitLayout JitFlow JitBranch JitCheck.
Local Open Scope Z_scope.
Local Open Scope bits_scope.

Section Sim.
  Context (s : jit_state) (Hs : laid_out s).
  Local Abbreviation base := (code_addr s).
  Local Abbreviation code := (jit_code s).
  Local Abbreviation bpf := (prog s).
  Local Abbreviation n := (inst_num s).
  Local Abbreviation epi := (epilogue_at s).
  Context (Hepi : epi < 256) (Hbase : 0 <= base) (Hhigh : base + Z.of_nat (length code) <= 2 ^ 32).
  Context (F : frame) (HF : frame_ok F).
  Local Abbreviation len := (Z.of_nat (length (f_bytes F))).
  Context (cert : list (option astate)) (Hwt : well_typed bpf n len cert = true).
  Context (helpers : option (list (option ext_func))) (mem_len : Z).
  Context (m : memory) (Hm : mem_base m = f_mem F /\ mem_bytes m = f_bytes F).
  Local Abbreviation step := (step bpf false helpers mem_len).
  Local Abbreviation run := (run bpf false helpers mem_len).
  Local Abbreviation star := (star base code).
  Local Abbreviation reached := (rtc (next s) (0, body_start)).
  Local Abbreviation hops := (rtc (hop bpf n)).

Lemma wt_bounds : 0 < n < 2 ^ 15.
Proof. unfold well_typed in Hwt. pow_cst. lia. Qed.

Lemma wt_check i : hops 0 i -> i < n -> check_at bpf n len cert i = true.
Proof.
  intros Hi Hn. unfold well_typed in Hwt. rewrite !andb_true_iff in Hwt. destruct Hwt as ((_ & H) & _).
  rewrite List.forallb_forall in H. apply H. now apply sweep_spec.
Qed.

Lemma wt_entry : exists A, arr_get cert 0 = Some (Some A) /\ le_state entry_state A = true.
Proof.
  unfold well_typed in Hwt. rewrite !andb_true_iff in Hwt. destruct Hwt as (_ & H).
  destruct (arr_get cert 0) as [[A|]|]; try done. eauto.
Qed.

(** The code of the instruction at [i]. *)
Record located (i pos : Z) (inst : ebpf_inst) (o : ebpf_op) (hs : list Z) : Prop := Located {
  lc_inst : inst_at bpf i = Some inst;
  lc_op : opcode_of (opcode inst) = Some o;
  lc_build : build_inst inst i (inst_at bpf (i + 1)) (set_idx s pos) =
    Ok (hs, match o with EBPF_OP_LDDW => 1 | _ => 0 end);
  lc_code : code_at code pos hs;
  lc_next : next s (i, pos) (i + width bpf i, pos + 2 * Z.of_nat (length hs));
}.

Lemma op_at_Some i inst o :
  op_at bpf i = Some (inst, o) -> inst_at bpf i = Some inst /\ opcode_of (opcode inst) = Some o.
Proof.
  unfold op_at. destruct (inst_at bpf i) as [x|]; [|done]. cbn.
  destruct (opcode_of (opcode x)) as [y|] eqn:E; [|done]. cbn. now intros [= -> ->].
Qed.

Lemma locate i pos :
  hops 0 i -> i < n -> reached (i, pos) -> exists inst o hs, located i pos inst o hs.
Proof.
  intros Hi Hn Hr. pose proof (wt_check i Hi Hn) as Hc. unfold check_at in Hc.
  destruct (op_at bpf i) as [[inst o]|] eqn:Eo; [|done]. apply andb_prop in Hc as [Hpl _].
  destruct (op_at_Some _ _ _ Eo) as [Ei Ho].
  destruct (lo_code s Hs i pos Hr Hn) as (hs & r & Ec & Hc). pose proof Ec as Ec'.
  unfold code_of in Ec. destruct (Z.leb_spec n i); [done|]. rewrite Ei in Ec. cbn in Ec.
  destruct (build_inst inst i _ (set_idx s pos)) as [[hs' r']| |] eqn:Eb; try done.
  injection Ec as -> ->. pose proof (build_inst_returns _ _ _ _ Ho Hpl _ _ _ Eb) as Er. subst r.
  exists inst, o, hs. split; auto. eexists hs, _. split; [exact Ec'|].
  split; [destruct o; lia|]. cbn [fst snd]. f_equal. unfold width. rewrite Eo. now destruct o.
Qed.

(** Every instruction has its place. *)
Lemma hops_reach i t pos :
  hops i t -> hops 0 i -> reached (i, pos) -> exists pos', rtc (next s) (i, pos) (t, pos').
Proof.
  intros H. revert pos. induction H as [i|i j t [Hi ->] H IH]; intros pos H0 Hr.
  - exists pos. constructor.
  - destruct (locate i pos H0 Hi Hr) as (inst & o & hs & [_ _ _ _ Hn]).
    destruct (IH (pos + 2 * Z.of_nat (length hs))) as [pos' Hp].
    + eapply rtc_r; [exact H0|done].
    + eapply rtc_r; [exact Hr|done].
    + exists pos'. eapply rtc_l; [exact Hn|exact Hp].
Qed.

Lemma even_pos i pos : reached (i, pos) -> pos mod 2 = 0.
Proof.
  intros H. remember (0, body_start) as a eqn:Ea. remember (i, pos) as b eqn:Eb.
  assert (E : a.2 mod 2 = 0) by (now subst a). clear Ea. revert i pos Eb.
  induction H as [a|a b c (hs & r & _ & _ & ->) _ IH]; intros i pos ->; [done|].
  eapply IH; [|done]. cbn. Z.div_mod_to_equations. lia.
Qed.

Lemma pos_bounds i pos : reached (i, pos) -> body_start <= pos <= epi.
Proof. intros H. apply (lo_end s Hs i pos H). Qed.

(** The record of the first pass for a place behind a reached one. *)
Lemma recorded a i pos :
  reached a -> next s a (i, pos) -> arr_get (offsets s) (i - 1) = Some pos.
Proof.
  intros Ha Hn. rewrite (lo_offsets s Hs a i pos Ha Hn). f_equal. apply u8_small.
  pose proof (pos_bounds i pos ltac:(eapply rtc_r; [exact Ha|done])). unfold body_start in *. pow_cst. lia.
Qed.

Lemma recorded_behind a b i pos :
  reached a -> next s a b -> rtc (next s) b (i, pos) -> arr_get (offsets s) (i - 1) = Some pos.
Proof.
  intros Ha Hab Hb. assert (H : exists c, reached c /\ next s c (i, pos)).
  { revert Hb. apply (rtc_ind_r (fun c => exists d, reached d /\ next s d c)); [eauto|].
    intros x y _ Hxy (d & Hd & Hdx). exists x. split; [|done]. eapply rtc_r; eauto. }
  destruct H as (c & Hc & Hn). exact (recorded c i pos Hc Hn).
Qed.

(** ** One instruction *)
Record at_inst (i pos : Z) (rs : list Z) (st : arm) : Prop := AtInst {
  ai_hops : hops 0 i;
  ai_lt : i < n;
  ai_reached : reached (i, pos);
  ai_pc : PC st = base + pos;
  ai_types : exists A f, arr_get cert i = Some (Some A) /\ rep F f st /\ related F A f rs;
}.

Definition advances (i pos : Z) (rs : list Z) (st : arm) : Prop :=
  exists i' pos' rs' st' k, step (Cpu i rs m) = Ok (Continue (Cpu i' rs' m)) /\ i < i' /\
    star k st st' /\ 2 * Z.of_nat k <= pos' - pos /\ at_inst i' pos' rs' st'.

Definition finishes (i pos : Z) (rs : list Z) (st : arm) : Prop :=
  exists v g st' k, step (Cpu i rs m) = Ok (Return v m) /\ star k st st' /\
    2 * Z.of_nat k <= epi - pos /\ PC st' = base + epi /\ rep F g st' /\ pv g (1, 0) = v.

(** Where an edge of the program leads in the code. *)
Record target (i fin : Z) (A : astate) (t to : Z) : Prop := Target {
  tg_offset : arr_get (offsets s) (t - 1) = Some to;
  tg_behind : fin <= to;
  tg_le : to <= epi;
  tg_lt : t < n;
  tg_ge : i < t;
  tg_at : forall f rs st, PC st = base + to -> rep F f st -> related F A f rs -> at_inst t to rs st;
}.

Lemma edge_target i pos inst o hs A t :
  located i pos inst o hs -> hops 0 i -> i < n -> reached (i, pos) ->
  edge bpf n cert (i + width bpf i) A t = true ->
  exists to, target i (pos + 2 * Z.of_nat (length hs)) A t to.
Proof.
  intros Hl Hi Hn Hr He. destruct (edge_spec _ _ _ _ _ _ He) as (Hh & Ht & B & HB & Hle).
  pose proof (lc_next _ _ _ _ _ Hl) as Hnext.
  assert (Hi' : hops 0 (i + width bpf i)) by (eapply rtc_r; [exact Hi|done]).
  assert (Hr' : reached (i + width bpf i, pos + 2 * Z.of_nat (length hs))) by (eapply rtc_r; eauto).
  destruct (hops_reach _ _ _ Hh Hi' Hr') as [to Hto].
  assert (Hrt : reached (t, to)) by (etrans; eauto).
  exists to. constructor.
  - exact (recorded_behind _ _ _ _ Hr Hnext Hto).
  - exact (reach_pos _ _ _ Hto).
  - apply (pos_bounds _ _ Hrt).
  - done.
  - pose proof (hops_le _ _ _ _ Hh). pose proof (width_pos bpf i). lia.
  - intros f rs st Hpc Hrep Hrel. constructor; auto; [etrans; eauto|].
    exists B, f. split_and!; [done..|]. eapply related_le; eauto.
Qed.

Lemma located_fin i pos inst o hs :
  located i pos inst o hs -> reached (i, pos) -> width bpf i = 1 ->
  arr_get (offsets s) i = Some (pos + 2 * Z.of_nat (length hs)).
Proof.
  intros Hl Hr Hw. pose proof (lc_next _ _ _ _ _ Hl) as Hn. rewrite Hw in Hn.
  pose proof (recorded _ _ _ Hr Hn) as H. now replace (i + 1 - 1) with i in H by lia.
Qed.

Lemma step_at i inst o rs :
  inst_at bpf i = Some inst -> opcode_of (opcode inst) = Some o -> 0 <= i < n ->
  step (Cpu i rs m) = dispatch bpf false helpers mem_len (Cpu (i + 1) rs m) inst o.
Proof.
  intros Hi Ho Hn. unfold VM.step. cbn [pc regs cmem]. rewrite Hi. cbn. rewrite Ho.
  pose proof wt_bounds. rewrite u16_small by (pow_cst; lia). done.
Qed.

Lemma located_width i pos inst o hs :
  located i pos inst o hs -> width bpf i = match o with EBPF_OP_LDDW => 2 | _ => 1 end.
Proof. intros [Hi Ho _ _ _]. unfold width, op_at. now rewrite Hi; cbn; rewrite Ho. Qed.

Lemma inst_imm i inst : inst_at bpf i = Some inst -> - 2 ^ 31 <= imm inst < 2 ^ 31.
Proof.
  unfold inst_at. destruct (i <? 0); [done|]. generalize (slice (8 * Z.to_nat i) 8 bpf). intros l.
  do 8 (destruct l as [|? l]; [done|]). destruct l; [|done]. intros [= <-]. cbn -[s32 le_val]. apply s32_range.
Qed.

Lemma second_pass pos : second n epi (offsets s) (set_idx s pos).
Proof. constructor; try done. apply (rd_gen _ (lo_ready s Hs)). Qed.

Section One.
  Context (i pos : Z) (rs : list Z) (st : arm) (inst : ebpf_inst) (o : ebpf_op) (hs : list Z).
  Context (Hi : hops 0 i) (Hn : i < n) (Hr : reached (i, pos)) (Hpc : PC st = base + pos).
  Context (Hl : located i pos inst o hs).
  Context (A : astate) (f : Z -> Z) (Hrep : rep F f st) (Hrel : related F A f rs).
  Local Abbreviation fin := (pos + 2 * Z.of_nat (length hs)).

Lemma i_range : 0 <= i < n.
Proof. split; [exact (hops_le _ _ _ _ Hi)|done]. Qed.

(** The code of an instruction that goes on with the next one. *)
Lemma run_straight A' rs' ret :
  emits base code (rep F f) (build_inst inst i (inst_at bpf (i + 1))) (leads F A' rs' ret) ->
  exists k st' g, (k <= length hs)%nat /\ star k st st' /\ PC st' = base + fin /\
    rep F g st' /\ related F A' g rs'.
Proof.
  intros He. destruct (He _ _ _ (lc_build _ _ _ _ _ Hl) pos st (lc_code _ _ _ _ _ Hl) Hpc Hrep)
    as (k & st' & Hk & Hst & Hp & _ & g & Hg & Hg').
  exists k, st', g. split_and!; auto. lia.
Qed.

Lemma next_target A' t to k st' g rs' i' :
  target i fin A' t to -> step (Cpu i rs m) = Ok (Continue (Cpu i' rs' m)) -> i' = t ->
  (k <= length hs)%nat -> star k st st' -> PC st' = base + to -> rep F g st' -> related F A' g rs' ->
  advances i pos rs st.
Proof.
  intros [_ Hb _ _ Hlt Hat] Hstep -> Hk Hst Hp Hg Hg'. exists t, to, rs', st', k.
  split_and!; auto; [lia|]. eapply Hat; eauto.
Qed.

(** The target of the edge to the next instruction. *)
Lemma edge_falls A' to t :
  target i fin A' t to -> t = i + width bpf i -> to = fin.
Proof.
  intros [Ho _ _ _ _ _] ->. pose proof (recorded _ _ _ Hr (lc_next _ _ _ _ _ Hl)) as H. congruence.
Qed.

Lemma sim_flow A' :
  o <> EBPF_OP_LDDW -> flow len A inst o = Some A' -> edge bpf n cert (i + 1) A' (i + 1) = true ->
  advances i pos rs st.
Proof.
  intros Hne Hfl He. pose proof (located_width _ _ _ _ _ Hl) as Hw.
  assert (Hw1 : width bpf i = 1) by (rewrite Hw; now destruct o).
  rewrite <- Hw1 in He. destruct (edge_target _ _ _ _ _ _ _ Hl Hi Hn Hr He) as [to Ht].
  pose proof (lc_inst _ _ _ _ _ Hl) as Hin. pose proof (lc_op _ _ _ _ _ Hl) as Ho.
  destruct (flow_sound base code F HF bpf helpers mem_len A A' f rs Hrel inst (inst_imm _ _ Hin)
    (i + 1) m Hm i (inst_at bpf (i + 1)) o Hne Ho Hfl) as (rs' & Hd & Hem).
  destruct (run_straight _ _ _ Hem) as (k & st' & g & Hk & Hst & Hp & Hg & Hg').
  pose proof (edge_falls _ _ _ Ht eq_refl) as ->.
  eapply (next_target A' _ _ k st' g rs' (i + 1) Ht); auto; [|lia].
  rewrite (step_at _ _ _ _ Hin Ho i_range). exact Hd.
Qed.

Lemma sim_lddw A' :
  o = EBPF_OP_LDDW -> flow len A inst o = Some A' -> is_Some (inst_at bpf (i + 1)) ->
  edge bpf n cert (i + 2) A' (i + 2) = true -> advances i pos rs st.
Proof.
  intros Eo Hfl [hi Hhi] He. pose proof (located_width _ _ _ _ _ Hl) as Hw. rewrite Eo in Hw, Hfl.
  rewrite <- Hw in He. destruct (edge_target _ _ _ _ _ _ _ Hl Hi Hn Hr He) as [to Ht].
  pose proof (lc_inst _ _ _ _ _ Hl) as Hin. pose proof (lc_op _ _ _ _ _ Hl) as Ho.
  pose proof Ho as Ho'. rewrite Eo in Ho'.
  destruct (lddw_sound base code F HF bpf helpers mem_len A A' f rs Hrel inst (inst_imm _ _ Hin)
    (i + 1) m Hm i (inst_at bpf (i + 1)) hi Ho' Hfl Hhi Hhi) as (rs' & Hd & Hem).
  destruct (run_straight _ _ _ Hem) as (k & st' & g & Hk & Hst & Hp & Hg & Hg').
  pose proof (edge_falls _ _ _ Ht eq_refl) as ->.
  eapply (next_target A' _ _ k st' g rs' (u16 (i + 1 + 1)) Ht); auto.
  - rewrite (step_at _ _ _ _ Hin Ho i_range), Eo. exact Hd.
  - pose proof wt_bounds. pose proof i_range. rewrite u16_small by (pow_cst; lia). lia.
Qed.

(** The code of an instruction that may branch. *)
Lemma run_branches T :
  branches base code n epi (offsets s) fin (rep F f) (build_inst inst i (inst_at bpf (i + 1))) T ->
  exists k st' r, (k <= length hs)%nat /\ star k st st' /\ T r st'.
Proof.
  intros He. destruct (He _ _ _ (second_pass pos) (lc_build _ _ _ _ _ Hl) eq_refl st
    (lc_code _ _ _ _ _ Hl) Hpc Hrep) as (k & st' & Hk & Hst & HT). eauto 10.
Qed.

Lemma epi_in : epi < Z.of_nat (length code).
Proof.
  destruct (lo_epilogue s Hs) as (_ & H & _). change (length epilogue_code) with 4%nat in H. lia.
Qed.

Lemma jump_pc (j : Z) : 0 <= j < n -> u16 j = j.
Proof. intros Hj. pose proof wt_bounds. apply u16_small. pow_cst. lia. Qed.

Lemma sim_jcc :
  is_jcc o = true -> jcc_ok A inst o = true -> 0 <= offset inst ->
  edge bpf n cert (i + 1) A (i + 1) = true -> edge bpf n cert (i + 1) A (i + 1 + offset inst) = true ->
  advances i pos rs st.
Proof.
  intros Hj Hok Hoff He1 He2. pose proof (located_width _ _ _ _ _ Hl) as Hw.
  assert (Hw1 : width bpf i = 1) by (rewrite Hw; now destruct o).
  rewrite <- Hw1 in He1, He2 at 1.
  destruct (edge_target _ _ _ _ _ _ _ Hl Hi Hn Hr He1) as [to1 Ht1].
  destruct (edge_target _ _ _ _ _ _ _ Hl Hi Hn Hr He2) as [to2 Ht2].
  pose proof (lc_inst _ _ _ _ _ Hl) as Hin. pose proof (lc_op _ _ _ _ _ Hl) as Ho.
  pose proof (located_fin _ _ _ _ _ Hl Hr Hw1) as Hf. pose proof (tg_offset _ _ _ _ _ Ht2) as Ho2.
  replace (i + 1 + offset inst - 1) with (i + offset inst) in Ho2 by lia.
  pose proof (tg_le _ _ _ _ _ Ht2) as Hle2. pose proof epi_in.
  destruct (jcc_sound base code n epi (offsets s) fin Hbase Hhigh F HF A f rs Hrel inst (inst_imm _ _ Hin)
    i (inst_at bpf (i + 1)) to2 (lo_even s Hs) ltac:(lia) Ho2 Hf bpf helpers mem_len (i + 1) m o Ho Hok
    ltac:(eauto)) as (b & Hd & Hbr).
  destruct (run_branches _ Hbr) as (k & st' & r & Hk & Hst & _ & Hp & g & Hg & Hg').
  pose proof (edge_falls _ _ _ Ht1 ltac:(lia)) as ->.
  assert (Hstep : step (Cpu i rs m) = Ok (Continue (Cpu (if b then i + 1 + offset inst else i + 1) rs m))).
  { rewrite (step_at _ _ _ _ Hin Ho i_range), Hd. unfold jump. destruct b; [|done]. cbn [pc regs cmem].
    rewrite jump_pc by (pose proof i_range; pose proof (tg_lt _ _ _ _ _ Ht2); lia). done. }
  destruct b; [apply (next_target A _ _ k st' g rs _ Ht2 Hstep)|apply (next_target A _ _ k st' g rs _ Ht1 Hstep)];
    solve [assumption | lia].
Qed.

Lemma sim_ja :
  o = EBPF_OP_JA -> 0 <= offset inst -> edge bpf n cert (i + 1) A (i + 1 + offset inst) = true ->
  advances i pos rs st.
Proof.
  intros Eo Hoff He. pose proof (located_width _ _ _ _ _ Hl) as Hw1. rewrite Eo in Hw1.
  rewrite <- Hw1 in He at 1. destruct (edge_target _ _ _ _ _ _ _ Hl Hi Hn Hr He) as [to Ht].
  pose proof (lc_inst _ _ _ _ _ Hl) as Hin. pose proof (lc_op _ _ _ _ _ Hl) as Ho.
  pose proof (located_fin _ _ _ _ _ Hl Hr Hw1) as Hf. pose proof (tg_offset _ _ _ _ _ Ht) as Ho2.
  replace (i + 1 + offset inst - 1) with (i + offset inst) in Ho2 by lia.
  pose proof (tg_le _ _ _ _ _ Ht) as Hle. pose proof epi_in.
  assert (Hbr : branches base code n epi (offsets s) fin (rep F f) (build_inst inst i (inst_at bpf (i + 1)))
    (fun _ st => PC st = base + to /\ rep F f st)).
  { unfold build_inst. rewrite Ho, Eo. cbv zeta. destruct (Z.eqb_spec (offset inst) 0) as [E0|_].
    - rewrite E0, Z.add_0_r, Hf in Ho2. injection Ho2 as <-.
      eapply branches_weaken; [intros x Hx; exact Hx| |apply branches_emits, emits_ret].
      now intros a x (? & _ & ?).
    - eapply branches_weaken; [intros x Hx; exact Hx| |apply (ja_tail_jumps _ _ _ _ _ _ Hbase Hhigh _ i (i + offset inst) to)];
        [|apply (lo_even s Hs)|done|done|lia].
      intros a x (_ & y & Hy & ->). split; [done|]. now apply rep_set_pc. }
  destruct (run_branches _ Hbr) as (k & st' & r & Hk & Hst & Hp & Hg).
  apply (next_target A _ _ k st' f rs (u16 (i + 1 + offset inst)) Ht); try assumption.
  - rewrite (step_at _ _ _ _ Hin Ho i_range), Eo. done.
  - apply jump_pc. pose proof i_range. pose proof (tg_lt _ _ _ _ _ Ht). lia.
Qed.

Lemma sim_exit :
  o = EBPF_OP_EXIT -> is_full (default Unknown (arr_get A 0)) = true -> epi mod 2 = 0 ->
  finishes i pos rs st.
Proof.
  intros Eo Hfull Heven. pose proof (located_width _ _ _ _ _ Hl) as Hw1. rewrite Eo in Hw1.
  pose proof (lc_inst _ _ _ _ _ Hl) as Hin. pose proof (lc_op _ _ _ _ _ Hl) as Ho.
  pose proof (lc_next _ _ _ _ _ Hl) as Hnext. rewrite Hw1 in Hnext.
  assert (Hr' : reached (i + 1, fin)) by (eapply rtc_r; eauto).
  pose proof (pos_bounds _ _ Hr') as Hb. pose proof (even_pos _ _ Hr') as He. pose proof epi_in.
  unfold body_start in Hb.
  destruct (arr_get A 0) as [[| |[] small]|] eqn:EA; try done.
  destruct (related_get _ _ _ _ _ _ Hrel EA) as (v & Ev & _ & _ & _ & _ & (_ & Hv & _)).
  assert (Hbr : branches base code n epi (offsets s) fin (rep F f) (build_inst inst i (inst_at bpf (i + 1)))
    (fun _ st => PC st = base + epi /\ rep F f st)).
  { unfold build_inst. rewrite Ho, Eo. cbv zeta.
    eapply branches_weaken; [intros x Hx; exact Hx| |apply (exit_jumps _ _ _ _ _ _ Hbase Hhigh _ i)]; try lia.
    - intros a x (_ & y & Hy & ->). split; [done|]. now apply rep_set_pc.
    - intros Hlast. apply (lo_end s Hs _ _ Hr'). lia. }
  destruct (run_branches _ Hbr) as (k & st' & r & Hk & Hst & Hp & Hg).
  exists v, f, st', k. split_and!; [|done|lia|done|done|now apply Hv].
  rewrite (step_at _ _ _ _ Hin Ho i_range), Eo. cbn. unfold get_reg. cbn. now rewrite Ev.
Qed.
End One.

(** The pass reaches the end of the program, so the epilogue is at an even position. *)
Lemma epi_even : epi mod 2 = 0.
Proof.
  assert (H : forall fuel i pos, n - i <= Z.of_nat fuel -> hops 0 i -> reached (i, pos) ->
    exists j p, n <= j /\ reached (j, p)).
  { induction fuel as [|fuel IH]; intros i pos Hf Hi Hr; (destruct (Z.le_gt_cases n i); [eauto|]); [lia|].
    destruct (locate i pos Hi ltac:(lia) Hr) as (inst & o & hs & Hl). pose proof (lc_next _ _ _ _ _ Hl) as Hn.
    apply (IH (i + width bpf i) (pos + 2 * Z.of_nat (length hs))).
    - pose proof (width_pos bpf i). lia.
    - eapply rtc_r; [exact Hi|]. split; [lia|done].
    - eapply rtc_r; eauto. }
  destruct (H (Z.to_nat n) 0 body_start) as (j & p & Hj & Hr); [lia|constructor..|].
  rewrite <- (proj2 (lo_end s Hs j p Hr) Hj). exact (even_pos _ _ Hr).
Qed.

Lemma step_sim i pos rs st :
  at_inst i pos rs st -> advances i pos rs st \/ finishes i pos rs st.
Proof.
  intros [Hi Hn Hr Hpc (A & f & HA & Hrep & Hrel)].
  destruct (locate i pos Hi Hn Hr) as (inst & o & hs & Hl).
  pose proof (wt_check i Hi Hn) as Hc. unfold check_at, op_at in Hc.
  rewrite (lc_inst _ _ _ _ _ Hl) in Hc. cbn in Hc. rewrite (lc_op _ _ _ _ _ Hl), HA in Hc. cbn in Hc.
  apply andb_prop in Hc as [_ Hc]. unfold check_inst in Hc.
  pose proof epi_even as Heven.
  destruct (decide (o = EBPF_OP_EXIT)) as [->|H1]; [right; eapply sim_exit; eauto|left].
  destruct (decide (o = EBPF_OP_JA)) as [->|H2].
  { apply andb_prop in Hc as [Ho He]. apply Z.leb_le in Ho. eapply sim_ja; eauto. }
  destruct (decide (o = EBPF_OP_LDDW)) as [->|H3].
  { destruct (inst_at bpf (i + 1)) as [hi|] eqn:Eh; [|done]. destruct (flow _ _ _ _) as [A'|] eqn:Ef; [|done].
    eapply sim_lddw; eauto. }
  assert (Hc' : (if is_jcc o then jcc_ok A inst o && (0 <=? offset inst) &&
      edge bpf n cert (i + 1) A (i + 1) && edge bpf n cert (i + 1) A (i + 1 + offset inst)
    else match flow len A inst o with Some A' => edge bpf n cert (i + 1) A' (i + 1) | None => false end) = true)
    by (destruct o; done). clear Hc.
  destruct (is_jcc o) eqn:Ej.
  - rewrite !andb_true_iff, Z.leb_le in Hc'. destruct Hc' as [[[? ?] ?] ?]. eapply sim_jcc; eauto.
  - destruct (flow _ _ _ _) as [A'|] eqn:Ef; [|done]. eapply sim_flow; eauto.
Qed.

(** ** The body of the function *)
Lemma body_sim fuel i pos rs st :
  n - i <= Z.of_nat fuel -> at_inst i pos rs st ->
  exists v g st' k, run fuel (Cpu i rs m) = Ok (v, m) /\ star k st st' /\
    2 * Z.of_nat k <= epi - pos /\ PC st' = base + epi /\ rep F g st' /\ pv g (1, 0) = v.
Proof.
  revert i pos rs st. induction fuel as [|fuel IH]; intros i pos rs st Hf Hat.
  { pose proof (ai_lt _ _ _ _ Hat). lia. }
  cbn [VM.run]. destruct (step_sim _ _ _ _ Hat) as [(i' & pos' & rs' & st' & k & E & Hlt & Hst & Hk & Hat')|H].
  - rewrite E. cbn. destruct (IH i' pos' rs' st' ltac:(lia) Hat') as (v & g & st2 & k2 & Er & Hst2 & Hk2 & H).
    exists v, g, st2, (k + k2)%nat. split; [exact Er|]. split; [eauto using star_trans|]. split; [lia|done].
  - destruct H as (v & g & st' & k & E & H). rewrite E. cbn. eauto 10.
Qed.
End Sim.
