(* ===== verification/JitCorrect.v ===== *)
(** * Correctness of the compiler

    [jit_ok] accepts a program when it is well typed and its code fits into the
    buffer. The machine code of an accepted program, at any aligned address, does what
    the interpreter does ([jit_runs]). *)
From stdpp Require Import base tactics numbers list relations.
From Stdlib Require Import ZArith Lia.
From S2P Require Import Prelude Inst VM VMFacts Thumb2 Arm Jit Thumb2Facts ArmFacts JitLogic JitEmit JitOps JitPasses JitLayout JitFlow JitEntry JitBranch JitCheck JitSim.
Local Open Scope Z_scope.
Local Open Scope bits_scope.

(** The size of the code without its epilogue; a jump distance is computed from bytes. *)
Definition fits (calls : Z -> option Z) (prog : list Z) (n : Z) : bool :=
  match gen_state true 0 calls prog n with Ok s => epilogue_at s <? 256 | _ => false end.

Definition jit_ok (calls : Z -> option Z) (prog : list Z) (n len : Z) : bool :=
  well_typed prog n len (infer prog n len) && fits calls prog n.

(** ** The address of the code does not matter *)
Definition moved (a : Z) (s : jit_state) : jit_state :=
  JitState (prog s) (inst_num s) (jit_code s) a a (idx s) (epilogue_at s) (offsets s) (needGen s)
    (call_word s).

Section Moved.
  Variable a : Z.

Lemma emit_bytes_moved s d s' :
  code_ptr s = code_addr s -> emit_bytes s d = Ok s' ->
  emit_bytes (moved a s) d = Ok (moved a s') /\ code_ptr s' = code_addr s'.
Proof.
  intros Hp. unfold emit_bytes. cbn [moved needGen code_ptr code_addr idx jit_code].
  rewrite Hp, !Z.sub_diag, !Z.add_0_l. destruct (needGen s); cbn [mbind res_bind].
  - destruct (_ && _); [|done]. cbn. intros [= <-]. done.
  - intros [= <-]. done.
Qed.

Lemma emit_all_moved hs s s' :
  code_ptr s = code_addr s -> emit_all s hs = Ok s' ->
  emit_all (moved a s) hs = Ok (moved a s') /\ code_ptr s' = code_addr s'.
Proof.
  revert s. induction hs as [|h hs IH]; intros s Hp; cbn [emit_all]; [now intros [= <-]|].
  intros (s1 & H1 & H)%bind_Ok. apply emit_bytes_moved in H1 as [H1 Hp1]; [|done].
  rewrite H1. cbn. now apply IH.
Qed.

Lemma run_emit_moved {A} (m : J A) s s' r :
  respects m -> code_ptr s = code_addr s -> run_emit m s = Ok (s', r) ->
  run_emit m (moved a s) = Ok (moved a s', r) /\ code_ptr s' = code_addr s'.
Proof.
  intros Hm Hp. unfold run_emit. rewrite (Hm (moved a s) s) by (constructor; done).
  intros ([hs x] & E & H)%bind_Ok. rewrite E. cbn. apply bind_Ok in H as (s1 & H & [= <- <-]).
  apply emit_all_moved in H as [-> H]; done.
Qed.

Lemma record_moved s i s' :
  code_ptr s = code_addr s -> record_offset s i = Ok s' ->
  record_offset (moved a s) i = Ok (moved a s') /\ code_ptr s' = code_addr s'.
Proof.
  intros Hp. unfold record_offset. cbn [moved needGen offsets idx].
  destruct (needGen s); [now intros [= <-]|]. intros (o & E & [= <-])%bind_Ok. rewrite E. done.
Qed.

Lemma build_body_moved fuel i s s' :
  code_ptr s = code_addr s -> build_body fuel i s = Ok s' ->
  build_body fuel i (moved a s) = Ok (moved a s') /\ code_ptr s' = code_addr s'.
Proof.
  revert i s. induction fuel as [|fuel IH]; intros i s Hp; cbn [build_body]; [now intros [= <-]|].
  cbn [moved inst_num prog]. destruct (_ <=? _); [now intros [= <-]|].
  intros (inst & Ei & H)%bind_Ok. rewrite Ei. cbn [mbind res_bind].
  apply bind_Ok in H as ([s1 r] & E & H). apply run_emit_moved in E as [-> Hp1]; [|apply build_inst_respects|done].
  cbn [mbind res_bind]. destruct (0 <? r).
  - apply bind_Ok in H as (s2 & E & H). apply record_moved in E as [-> Hp2]; [|done]. cbn. now apply IH.
  - apply bind_Ok in H as (s2 & E & H). apply record_moved in E as [-> Hp2]; [|done]. cbn.
    destruct (r <? 0); [injection H as <-; done|now apply IH].
Qed.

Lemma jit_compile_moved s s' :
  code_ptr s = code_addr s -> jit_compile s = Ok s' -> jit_compile (moved a s) = Ok (moved a s').
Proof.
  assert (Rp : respects build_prologue) by (intros x y _; now rewrite !prologue_eq).
  assert (Re : respects build_epilogue) by (intros x y _; now rewrite !epilogue_eq).
  intros Hp E. rewrite jit_compile_eq in *. unfold body in *.
  apply bind_Ok in E as ([s1 []] & E1 & E). apply run_emit_moved in E1 as [E1 Hp1]; [|done|done].
  change (set_pass (moved a s) false (epilogue_at (moved a s))) with (moved a (set_pass s false (epilogue_at s))).
  rewrite E1. cbn [mbind res_bind].
  apply bind_Ok in E as (s2 & E2 & E). apply build_body_moved in E2 as [E2 Hp2]; [|done].
  change (inst_num (moved a s1)) with (inst_num s1). rewrite E2. cbn [mbind res_bind].
  apply bind_Ok in E as ([s3 []] & E3 & E). apply run_emit_moved in E3 as [E3 Hp3]; [|done|done].
  change (set_pass (moved a s2) true (idx (moved a s2))) with (moved a (set_pass s2 true (idx s2))).
  rewrite E3. cbn [mbind res_bind].
  apply bind_Ok in E as (s4 & E4 & E). apply build_body_moved in E4 as [E4 Hp4]; [|done].
  change (inst_num (moved a s3)) with (inst_num s3). rewrite E4. cbn [mbind res_bind].
  apply bind_Ok in E as ([s5 []] & E5 & [= <-]). apply run_emit_moved in E5 as [-> _]; done.
Qed.
End Moved.

Lemma align_land addr : addr mod 4 = 0 -> addr .& Z.lnot 3 = addr.
Proof.
  intros H. rewrite <- Z.ldiff_land. change 3 with (Z.ones 2). rewrite Z.ldiff_ones_r by lia.
  rewrite Z.shiftr_div_pow2, Z.shiftl_mul_pow2 by lia. Z.div_mod_to_equations. lia.
Qed.

Lemma thumb_bit addr : addr mod 4 = 0 -> addr .| 1 = addr + 1.
Proof.
  intros H. replace addr with ((addr / 4) << 2) at 1
    by (rewrite Z.shiftl_mul_pow2 by lia; Z.div_mod_to_equations; lia).
  rewrite Z.lor_comm, lor_shiftl_add by lia. Z.div_mod_to_equations. lia.
Qed.

(** The state that [jit_compile] starts with. *)
Definition state0 (addr : Z) (calls : Z -> option Z) (prog : list Z) (n : Z) : jit_state :=
  JitState prog n (replicate (Z.to_nat (10 * n + 16)) 0) addr addr 0 0
    (replicate (Z.to_nat (4 * n + 16)) 0) false calls.

Lemma gen_state_eq addr calls prog n :
  addr mod 4 = 0 -> gen_state true addr calls prog n = jit_compile (state0 addr calls prog n).
Proof.
  intros Ha. unfold state0. rewrite <- (align_land addr Ha) at 3. reflexivity.
Qed.

Lemma compile_Ok addr calls prog n s :
  addr mod 4 = 0 -> gen_state true addr calls prog n = Ok s -> code_addr s = addr ->
  compile true addr calls prog n = Ok (jit_code s, addr + 1).
Proof. intros Ha E <-. unfold compile. rewrite E, <- thumb_bit by done. reflexivity. Qed.

Lemma fits_state calls prog n :
  fits calls prog n = true -> exists s, gen_state true 0 calls prog n = Ok s /\ epilogue_at s < 256.
Proof. unfold fits. destruct (gen_state _ _ _ _ _) as [s| |]; try done. exists s. split; [done|lia]. Qed.

Lemma gen_state_moved addr calls prog n s :
  addr mod 4 = 0 -> gen_state true 0 calls prog n = Ok s ->
  gen_state true addr calls prog n = Ok (moved addr s).
Proof.
  intros Ha. rewrite !gen_state_eq by done. intros E. now apply (jit_compile_moved addr) in E.
Qed.

Lemma gen_state_layout addr calls prog n s :
  addr mod 4 = 0 -> 0 <= n -> gen_state true addr calls prog n = Ok s -> epilogue_at s < 256 ->
  laid_out s /\ Jit.prog s = prog /\ inst_num s = n /\ code_addr s = addr /\
  length (jit_code s) = Z.to_nat (10 * n + 16).
Proof.
  intros Ha Hn E He. rewrite gen_state_eq in E by done.
  apply compile_layout in E as (H1 & H2 & H3 & H4 & H5);
    [|done|apply Forall_replicate; done|done|lia].
  split_and!; auto. rewrite H5. apply length_replicate.
Qed.


(** ** The whole function *)
Section Whole.
  Context (s : jit_state) (Hs : laid_out s).
  Local Abbreviation base := (code_addr s).
  Local Abbreviation code := (jit_code s).

Lemma run_prologue ret st :
  called ret st -> PC st = base ->
  exists k st' f, (k <= 13)%nat /\ star base code k st st' /\ PC st' = base + body_start /\
    rep (frame_of st) f st' /\ f 2 = mem_base (M st).
Proof.
  intros Hc Hpc. destruct (prologue_spec ret st Hc) as (st1 & f & He & Hf & H2 & _).
  assert (Hr : runs base code (fun x => x = st) prologue_code (fun x => rep (frame_of st) f x)).
  { apply (runs_straight _ _ _ _ _ prologue decode_prologue eq_refl). intros x p ->.
    exists st1. split; [done|]. now apply rep_set_pc. }
  destruct (Hr 0 st (lo_prologue s Hs) ltac:(lia) eq_refl) as (k & st' & Hk & Hst & Hp & Hrep).
  exists k, st', f. split_and!; auto. rewrite Hp, Z.add_0_r, prologue_length. done.
Qed.

Lemma run_epilogue F f st ret :
  frame_ok F -> f_fp F + 32 < 2 ^ 32 -> rep F f st -> PC st = base + epilogue_at s ->
  f_saved F !! 7%nat = Some (ret + 1) -> ret mod 2 = 0 ->
  exists st', star base code 2 st st' /\ returned F ret (pv f (1, 0)) st'.
Proof.
  intros HF Hfp Hst Hpc Hlr Hret.
  destruct (decode_all_cons _ _ _ decode_epilogue) as (h1 & h2 & Eh & D1 & D2).
  pose proof (lo_epilogue s Hs) as Hc. rewrite Eh in Hc. apply code_at_app in Hc as [C1 C2].
  set (p1 := base + epilogue_at s + 2 * Z.of_nat (length h1)).
  set (p2 := p1 + 2 * Z.of_nat (length h2)).
  destruct (epilogue_spec F f st ret p2 HF Hfp Hst Hlr Hret) as (st1 & st2 & E1 & E2 & Hr).
  exists st2. split; [|done]. apply (star_step _ _ 1 st (set_pc st1 p1)); [|apply star_one].
  - rewrite (arm_step_at _ _ _ _ _ _ C1 Hpc D1), exec_pc, E1 by done. reflexivity.
  - assert (Hp1 : PC (set_pc st1 p1) = base + (epilogue_at s + 2 * Z.of_nat (length h1)))
      by (cbn; unfold p1; lia).
    rewrite (arm_step_at _ _ _ _ _ _ C2 Hp1 D2).
    rewrite <- E2. f_equal.
Qed.
End Whole.

Lemma entry_related F f mem stack bytes :
  frame_ok F -> f_mem F = mem -> f 2 = mem ->
  related F entry_state f (regs (init_cpu mem stack bytes)).
Proof.
  intros HF Em Ef. pose proof (mem_low F HF). pose proof (mem_high F HF). constructor; try done.
  - pose proof (u32_range (stack + STACK_SIZE)).
    repeat (constructor; [pow_cst; lia|]). constructor.
  - intros r x v Hx Hv. apply arr_get_Some in Hx as [Hr Hx]. apply arr_get_Some in Hv as [_ Hv].
    destruct (decide (Z.to_nat r = 1%nat)) as [E|E].
    + rewrite E in Hx, Hv. injection Hx as <-. injection Hv as <-.
      assert (r = 1) as -> by lia. split; [done|]. exact Ef.
    + unfold entry_state in Hx. rewrite list_lookup_insert_ne in Hx by done.
      apply lookup_replicate in Hx as [-> _]. done.
Qed.

(** From the call to the return. *)
Lemma run_code s len cert ret st stack helpers mem_len fuel fuel' :
  laid_out s -> epilogue_at s < 256 -> 0 <= code_addr s ->
  code_addr s + Z.of_nat (length (jit_code s)) <= 2 ^ 32 ->
  well_typed (prog s) (inst_num s) len cert = true ->
  called ret st -> PC st = code_addr s -> Z.of_nat (length (mem_bytes (M st))) = len ->
  ~ (code_addr s <= ret < code_addr s + Z.of_nat (length (jit_code s))) ->
  inst_num s <= Z.of_nat fuel -> (256 <= fuel')%nat ->
  let c0 := init_cpu (mem_base (M st)) stack (mem_bytes (M st)) in
  exists v st', run (prog s) false helpers mem_len fuel c0 = Ok (v, cmem c0) /\
    arm_run (code_addr s) (jit_code s) ret fuel' st = Ok st' /\ returned (frame_of st) ret v st'.
Proof.
  intros Hlay Hf Ha0 Hhigh Hwt Hc Hpc Hbytes Hret Hfuel Hfuel' c0.
  pose proof (cl_frame _ _ Hc) as HF.
  assert (Hfp : f_fp (frame_of st) + 32 < 2 ^ 32).
  { pose proof (reg_word st 13 (cl_words _ _ Hc)) as Hw. unfold word in Hw. cbn. lia. }
  destruct (run_prologue s Hlay ret st Hc Hpc) as (k1 & st1 & f & Hk1 & S1 & P1 & R1 & F2).
  change (mem_bytes (M st)) with (f_bytes (frame_of st)) in Hbytes. subst len.
  assert (Hm : mem_base (cmem c0) = f_mem (frame_of st) /\ mem_bytes (cmem c0) = f_bytes (frame_of st)) by done.
  destruct (wt_entry s (frame_of st) cert Hwt) as (A & HA & Hle).
  assert (Hat : at_inst s (frame_of st) cert 0 body_start (regs c0) st1).
  { constructor; [constructor|apply (wt_bounds s _ cert Hwt)|constructor|done|]. exists A, f. split_and!; [done..|].
    eapply related_le; [exact Hle|]. now apply entry_related. }
  destruct (body_sim s Hlay Hf Ha0 Hhigh _ HF cert Hwt helpers mem_len (cmem c0) Hm fuel 0 body_start
    (regs c0) st1 ltac:(lia) Hat) as (v & g & st2 & k2 & Hrun & S2 & Hk2 & P2 & R2 & Hv).
  destruct (run_epilogue s Hlay _ g st2 ret HF Hfp R2 P2) as (st3 & S3 & Hret3);
    [cbn; now rewrite (cl_lr _ _ Hc)|apply Hc|].
  exists v, st3. split; [exact Hrun|]. rewrite Hv in Hret3. split; [|exact Hret3].
  assert (Hk : (k1 + (k2 + 2) < fuel')%nat) by (unfold body_start in *; lia).
  eapply star_run; [|apply Hret3|done|exact Hk]. eauto using star_trans.
Qed.

Lemma jit_runs calls prog n len addr :
  jit_ok calls prog n len = true -> addr mod 4 = 0 -> 0 <= addr -> addr + (10 * n + 16) <= 2 ^ 32 ->
  exists code, compile true addr calls prog n = Ok (code, addr + 1) /\
  Z.of_nat (length code) = 10 * n + 16 /\ forall ret st stack helpers mem_len fuel fuel',
  called ret st -> PC st = addr -> Z.of_nat (length (mem_bytes (M st))) = len ->
  ~ (addr <= ret < addr + Z.of_nat (length code)) -> n <= Z.of_nat fuel -> (256 <= fuel')%nat ->
  let c0 := init_cpu (mem_base (M st)) stack (mem_bytes (M st)) in
  exists v st', run prog false helpers mem_len fuel c0 = Ok (v, cmem c0) /\
    arm_run addr code ret fuel' st = Ok st' /\ returned (frame_of st) ret v st'.
Proof.
  intros [Hwt Hf]%andb_prop Ha Ha0 Hhigh.
  destruct (fits_state _ _ _ Hf) as (s0 & E0 & Hf0).
  pose proof (gen_state_moved addr calls prog n s0 Ha E0) as E.
  assert (Hn : 0 < n) by (unfold well_typed in Hwt; lia).
  set (s := moved addr s0) in *. assert (Hf' : epilogue_at s < 256) by exact Hf0.
  destruct (gen_state_layout addr calls prog n s Ha ltac:(lia) E Hf') as (Hlay & Hprog & Hnum & Haddr & Hlen).
  exists (jit_code s). split; [now apply compile_Ok|]. split; [lia|].
  intros ret st stack helpers mem_len fuel fuel' Hc Hpc Hbytes Hret Hfuel Hfuel'.
  clearbody s. clear s0 E0 Hf0. subst prog n addr.
  eapply (run_code s len); eauto; lia.
Qed.
