(* ===== verification/JitOverflow.v ===== *)
(** * Code that does not fit

    The second pass of the compiler fails in no other way than the first one, except
    that it may write outside of the buffer or look up a jump target outside of the
    record ([body_survives]). With [JitLayout], code that the first pass measured to be
    longer than the buffer is written past its end ([compile_overflows]). *)
From stdpp Require Import base tactics numbers list relations.
From Stdlib Require Import ZArith Lia.
From S2P Require Import Prelude Inst VM VMFacts Thumb2 Arm Jit Thumb2Facts ArmFacts JitLogic JitPasses JitLayout JitCheck JitCorrect.
Local Open Scope Z_scope.

(** An outcome of the second pass. *)
Definition done_or_oob {A} (r : res A) : Prop := (exists a, r = Ok a) \/ r = Crash ArrayOOB.

Lemma oob_bind {A B} (r : res A) (k : A -> res B) :
  done_or_oob r -> (forall a, r = Ok a -> done_or_oob (k a)) -> done_or_oob (r ≫= k).
Proof. intros [[a ->]| ->] H; [now apply H|now right]. Qed.

Lemma oob_Ok {A} (a : A) : done_or_oob (Ok a).
Proof. left. eauto. Qed.

Create HintDb oob.
#[export] Hint Resolve oob_Ok : oob.

(** ** Emitters *)
Definition survives {A} (m : J A) : Prop :=
  forall s1 s2 hs1 a, passes s1 s2 -> m s1 = Ok (hs1, a) -> done_or_oob (m s2).

Lemma uniform_survives {A} (m : J A) : uniform m -> survives m.
Proof. intros H s1 s2 hs1 a _ E. left. exists (hs1, a). now rewrite (H s2 s1). Qed.

Lemma steady_survives {A} (m : J A) : steady m -> survives m.
Proof. intros [H _]. now apply uniform_survives. Qed.

Lemma survives_bind {A B} (m : J A) (k : A -> J B) :
  survives m -> sized m -> (forall a, survives (k a)) -> survives (m ≫= k).
Proof.
  intros Hm Hz Hk s1 s2 hs1 b H E. unfold mbind, J_bind in *.
  destruct (m s1) as [[l1 a]| |] eqn:E1; try done.
  destruct (Hm _ _ _ _ H E1) as [[[l2 a2] E2]| ->]; [|now right]. rewrite E2.
  destruct (Hz _ _ _ _ H E2) as (l1' & E1' & Hl). rewrite E1 in E1'. injection E1' as <- <-.
  destruct (k a (advance s1 l1)) as [[k1 b1]| |] eqn:Ek; try done.
  destruct (Hk a _ _ _ _ (passes_advance _ _ l1 l2 H Hl) Ek) as [[[k2 b2] ->]| ->]; [|now right].
  left. eauto.
Qed.

Lemma steady_bind_survives {A B} (m : J A) (k : A -> J B) :
  steady m -> (forall a, survives (k a)) -> survives (m ≫= k).
Proof. intros Hm. apply survives_bind; [now apply steady_survives|now apply steady_both]. Qed.

Lemma offset_survives p t b s : done_or_oob (bpf2a32_offset p t b s).
Proof.
  unfold bpf2a32_offset. destruct (negb _); [auto with oob|].
  destruct (arr_get (offsets s) t); [|now right]. destruct (arr_get (offsets s) p); [|now right].
  left. eauto.
Qed.

Lemma b_cond_total off cond s : exists r, _emit_b_cond off cond s = Ok r.
Proof. unfold _emit_b_cond, when, skip. repeat case_match; eexists; reflexivity. Qed.

Lemma jump_total off op s : exists r, _emit_jump off op s = Ok r.
Proof. unfold _emit_jump, when, skip. repeat case_match; auto using b_cond_total; eexists; reflexivity. Qed.

Lemma b_total off s : exists r, _emit_b off s = Ok r.
Proof. unfold _emit_b, when, skip. repeat case_match; eexists; reflexivity. Qed.

(** A branch on the recorded offsets. *)
Lemma tail_survives {A} p t b (m : Z -> J A) :
  (forall o s, exists r, m o s = Ok r) -> survives (o ← bpf2a32_offset p t b; m o).
Proof.
  intros Hm s1 s2 hs1 a _ _. unfold mbind, J_bind.
  destruct (offset_survives p t b s2) as [[[l o] ->]| ->]; [|now right].
  destruct (Hm o (advance s2 l)) as [[l' a'] ->]. left. eauto.
Qed.

Lemma done_total (m : J ()) s : (exists r, m s = Ok r) -> exists r, (m ;; Jit.done) s = Ok r.
Proof. intros [[l []] E]. unfold mbind, J_bind. rewrite E. eexists. reflexivity. Qed.

Lemma jcc_survives p t op : survives (jcc_tail p t op).
Proof.
  intros s1 s2 hs1 a H E. unfold jcc_tail in *.
  assert (Hb : forall s (k : Z -> J Z), (((fun s => Ok ([], if negb (_use_b4 s) then 2 else 4)) : J Z) ≫= k) s =
    match k (if negb (_use_b4 s) then 2 else 4) (advance s []) with
    | Ok (l, b) => Ok (l, b) | Crash f => Crash f | Timeout => Timeout end) by reflexivity.
  rewrite Hb. set (k := if negb (_use_b4 s2) then 2 else 4).
  assert (Hs : done_or_oob ((o ← bpf2a32_offset p t k; _emit_jump o op ;; Jit.done) (advance s2 []))).
  { unfold mbind at 1, J_bind at 1. destruct (offset_survives p t k (advance s2 [])) as [[[l o] ->]| ->]; [|now right].
    destruct (done_total (_emit_jump o op) (advance (advance s2 []) l) (jump_total _ _ _)) as [[l' a'] ->].
    left. eauto. }
  destruct Hs as [[[l b] ->]| ->]; [left; eauto|now right].
Qed.

Lemma ja_survives p t : survives (ja_tail p t).
Proof. apply tail_survives. intros o s. apply done_total, b_total. Qed.

Lemma exit_survives p : survives (build_exit p).
Proof.
  intros s1 s2 hs1 a _ _. unfold build_exit. destruct (_ =? _); [left; eexists; reflexivity|].
  unfold mbind at 1, J_bind at 1, epilogue_offset.
  destruct (done_total (_emit_b (if negb (needGen s2) then 0 else epilogue_at s2 - idx s2 - 4)) (advance s2 [])
    (b_total _ _)) as [[l b] ->]. left. eauto.
Qed.

Lemma jmp_survives dst src p c off im :
  steady dst -> steady src -> survives (build_jmp dst src p c off im).
Proof.
  intros Hd Hs. rewrite build_jmp_alt. destruct (_ && _); [apply steady_survives, steady_ret|].
  apply steady_bind_survives; [unfold_emitters; emitter|]. intros [rm rn].
  apply steady_bind_survives; [done|]. intros q.
  apply steady_bind_survives; [unfold_emitters; emitter|]. intros rd.
  apply steady_bind_survives; [unfold_emitters; emitter|]. intros _. apply jcc_survives.
Qed.

Lemma call_survives im : survives (build_call im).
Proof.
  unfold build_call. repeat (apply steady_bind_survives; [apply steady_lift|intros ?]).
  apply survives_bind.
  - intros s s' hs x H E. left. rewrite <- (ps_call _ _ H). eauto.
  - intros s s' hs x H E. rewrite (ps_call _ _ H). eauto.
  - intros f. apply steady_survives. unfold_emitters. emitter.
Qed.

Lemma build_inst_survives i p next : survives (build_inst i p next).
Proof.
  destruct (opcode_of (opcode i)) as [o|] eqn:Ho;
    [|unfold build_inst; rewrite Ho; apply steady_survives, steady_ret].
  destruct (movable o) eqn:Hm; [eapply steady_survives, build_inst_steady; eassumption|].
  unfold build_inst. rewrite Ho. destruct o; try discriminate Hm; clear Ho Hm;
    first [ apply exit_survives | apply jmp_survives; apply steady_lift | apply call_survives
          | destruct (_ =? 0); [apply steady_survives, steady_ret|apply ja_survives] ].
Qed.

(** ** The passes *)
Lemma emit_all_oob s hs : done_or_oob (emit_all s hs).
Proof.
  revert s. induction hs as [|h hs IH]; intros s; cbn [emit_all]; [auto with oob|].
  apply oob_bind; [|auto]. unfold emit_bytes. apply oob_bind; [|auto with oob].
  repeat case_match; auto with oob. now right.
Qed.

(** When the first pass gets through the loop, the second one does or leaves an array. *)
Lemma body_survives fuel i s1 s2 s1' :
  passes s1 s2 -> prog s1 = prog s2 -> ready s2 ->
  build_body fuel i s1 = Ok s1' -> epilogue_at s2 = idx s1' -> epilogue_at s2 < 2048 ->
  done_or_oob (build_body fuel i s2).
Proof.
  revert i s1 s2. induction fuel as [|fuel IH]; intros i s1 s2 Hp Hprog Hr E1 Hepi Hnear; [apply oob_Ok|].
  pose proof (count_idx _ _ _ _ (ps_gen1 _ _ Hp) E1) as Hle.
  cbn [build_body] in E1 |- *. rewrite (ps_num _ _ Hp), Hprog in E1.
  destruct (_ <=? _); [apply oob_Ok|].
  destruct (inst_at (prog s2) i) as [inst|]; [|done]. cbn in E1 |- *. unfold run_emit in *.
  destruct (build_inst inst i _ s1) as [[h1 r1]| |] eqn:B1; try done. cbn in E1.
  destruct (build_inst_survives inst i _ _ _ _ _ Hp B1) as [[[h2 r] B2]| ->]; [|now right].
  rewrite B2. destruct (build_inst_sized inst i (inst_at (prog s2) (i + 1)) s1 s2 h2 r Hp) as (h1' & B1' & Hl); [|exact B2|].
  { pose proof (rd_idx _ Hr). pose proof (ps_idx _ _ Hp). unfold epilogue_near. lia. }
  rewrite B1 in B1'. injection B1' as <- <-. rewrite emit_all_count in E1 by apply Hp. cbn in E1 |- *.
  destruct (emit_all_oob s2 h2) as [[s3 Ea]| ->]; [|now right]. rewrite Ea. cbn.
  apply emit_all_gen in Ea as (W & R3 & I3 & _); [|done|exact (build_inst_halfwords _ _ _ _ _ _ B2)].
  unfold record_offset at 1 2. rewrite (rd_gen _ R3). cbn.
  assert (Hstep : forall j k s4, record_offset (advance s1 h1) j = Ok s4 ->
    build_body fuel k s4 = Ok s1' -> done_or_oob (build_body fuel k s3)).
  { intros j k s4 H4 F1. unfold record_offset in H4. cbn [needGen advance set_idx] in H4.
    rewrite (ps_gen1 _ _ Hp) in H4. apply bind_Ok in H4 as (o & Ho & [= <-]).
    destruct W as [[] _ _ _], Hp. eapply (IH k); [| | |exact F1|..]; try congruence; cbn; auto.
    - constructor; cbn; congruence.
    - congruence. }
  destruct (0 <? r1); [|destruct (r1 <? 0)]; apply bind_Ok in E1 as (s4 & H4 & E1).
  - now apply (Hstep _ _ _ H4 E1).
  - apply oob_Ok.
  - now apply (Hstep _ _ _ H4 E1).
Qed.

Lemma run_emit_oob (m : J ()) hs s : m s = Ok (hs, ()) -> done_or_oob (run_emit m s).
Proof.
  intros E. unfold run_emit. rewrite E. apply oob_bind; [auto with oob|]. intros [l u] [= <- <-].
  apply oob_bind; [apply emit_all_oob|auto with oob].
Qed.

(** The state after the first pass, from the state [s] of the compiler. *)
Definition first_pass (s : jit_state) : res jit_state :=
  '(s, _) ← run_emit build_prologue s;
  body s.

Section Overflow.
  Variables s0 s : jit_state.
  Hypothesis Hgen : needGen s0 = false.
  Hypothesis Hidx : idx s0 = 0.
  Hypothesis Hptr : code_ptr s0 = code_addr s0.
  Hypothesis Heven : Forall even_byte (offsets s0).
  Hypothesis Hnum : 0 <= inst_num s0.
  Hypothesis Hpass : first_pass s0 = Ok s.

  Local Abbreviation s1 := (advance s0 prologue_code).

Lemma first_pass_states :
  run_emit build_prologue s0 = Ok (s1, ()) /\ body s1 = Ok s /\ idx s1 = body_start /\ marked 0 s1 s.
Proof.
  assert (E1 : run_emit build_prologue s0 = Ok (s1, ())) by (apply run_emit_count; [apply prologue_eq|done]).
  pose proof Hpass as E. unfold first_pass in E. rewrite E1 in E. cbn [mbind res_bind] in E.
  assert (I1 : idx s1 = body_start).
  { unfold advance. cbn [idx set_idx]. now rewrite prologue_length, Hidx. }
  split; [done|]. split; [done|]. split; [done|]. unfold body in E.
  apply count_body in E as [Mk _]; [exact Mk|exact Hgen|now rewrite I1|exact Heven|].
  cbn [inst_num advance set_idx]. lia.
Qed.

(** The code ends with the eight bytes of the epilogue. *)
Lemma compile_overflows :
  idx s < 2048 -> Z.of_nat (length (jit_code s0)) < idx s + 8 ->
  s0 = set_pass s0 false (epilogue_at s0) -> jit_compile s0 = Crash ArrayOOB.
Proof.
  intros Hnear Hbig Hset. destruct first_pass_states as (E1 & E2 & I1 & Mk).
  rewrite jit_compile_eq, <- Hset, E1. cbn [mbind res_bind]. rewrite E2. cbn [mbind res_bind].
  destruct Mk as [[Sp Sn Sc Sg _] (Mc & Ma & Mp) [Mi _] Me _]. destruct fixed_halfwords as [Hp He].
  cbn [prog inst_num call_word needGen jit_code code_addr code_ptr advance set_idx] in Sp, Sn, Sc, Sg, Mc, Ma, Mp.
  destruct (run_emit_oob build_prologue _ (set_pass s true (idx s)) (prologue_eq _)) as [[[s4 []] E4]| ->]; [|done].
  rewrite E4. cbn [mbind res_bind].
  apply (run_emit_gen _ prologue_code) in E4 as (W4 & R4 & I4 & _); [|apply prologue_eq| |done].
  2: { constructor; cbn [needGen set_pass code_ptr code_addr idx]; [done|congruence|lia|lia]. }
  change (idx (set_pass s true (idx s))) with 0 in I4. rewrite prologue_length, Z.add_0_l in I4.
  pose proof (wr_kept _ _ W4) as [K1 K2 _ _ K5 K6 _ K8].
  cbn [prog inst_num epilogue_at offsets call_word set_pass] in K1, K2, K5, K6, K8.
  assert (Hps : passes s1 s4).
  { constructor; [cbn [inst_num advance set_idx]; congruence|congruence|
      cbn [call_word advance set_idx]; congruence|done|apply R4|now rewrite K6]. }
  assert (Hn4 : inst_num s4 = inst_num s1) by (cbn [inst_num advance set_idx]; congruence).
  assert (Hp4 : prog s1 = prog s4) by (cbn [prog advance set_idx]; congruence). unfold body in *.
  destruct (body_survives (Z.to_nat (inst_num s4)) 0 s1 s4 s Hps Hp4 R4) as [[s5 E5]| ->];
    [now rewrite Hn4|done|lia| |done].
  rewrite E5. cbn [mbind res_bind].
  assert (I5 : idx s5 = idx s).
  { rewrite Hn4 in E5. apply (body_lockstep _ 0 s1 s4 s s5 Hps Hp4 R4 E2 E5 K5). lia. }
  apply gen_body in E5 as (W5 & R5 & _); [|done|rewrite Hn4; cbn [inst_num advance set_idx]; lia].
  destruct (run_emit_oob build_epilogue _ s5 (epilogue_eq _)) as [[[s6 []] E6]| ->]; [|done].
  apply (run_emit_gen _ epilogue_code) in E6 as (W6 & R6 & I6 & _); [|apply epilogue_eq|done..].
  exfalso. pose proof (rd_fit _ R6) as Hfit. rewrite (wr_len _ _ W6), (wr_len _ _ W5), (wr_len _ _ W4) in Hfit.
  cbn [jit_code set_pass] in Hfit. rewrite Mc in Hfit.
  change (2 * Z.of_nat (length epilogue_code)) with 8 in I6. lia.
Qed.
End Overflow.
