(* ===== verification/JitEnv.v ===== *)
(** * The compiler and the processor as an execution environment

    [thumb_env] runs the policies whose [jit] flag is set the way the firmware does:
    [gen_jit_code] compiles the code of the machine ([Jit.compile]) into a buffer at
    [t_addr], and the call of [jit_func] runs the processor ([Arm.arm_run]) from there
    until it returns. A policy that [jit_ok] accepts and that computes [f] when it is
    interpreted computes [f] natively, too ([native_returns]). *)
From stdpp Require Import base tactics numbers list.
From Stdlib Require Import ZArith Lia.
From S2P Require Import Prelude Inst VM VMFacts Verifier Fsm PolicyCache PolicyExec Thumb2 Arm Jit Thumb2Facts ArmFacts JitLogic JitLayout JitEntry JitCheck JitCorrect.
Local Open Scope Z_scope.

(** The processor at the call: where the monitor state, the code buffer and the
    caller are, the registers, and the stack, with sp in register 13. [t_calls] reads
    the helper table. *)
Record thumb := Thumb {
  t_fsm : Z;
  t_addr : Z;
  t_ret : Z;
  t_calls : Z -> option Z;
  t_regs : list Z;
  t_stk : Z;
  t_stack : list Z;
}.

Definition t_sp (K : thumb) : Z := default 0 (t_regs K !! 13%nat).

(** [jit_func(newState, dsize)] by the AAPCS. *)
Definition call_state (K : thumb) (bs : list Z) (dsize : Z) : arm :=
  Arm (<[0%nat := t_fsm K]> (<[1%nat := u16 dsize]> (<[14%nat := t_ret K + 1]> (t_regs K))))
    (t_addr K) false false false false (Memory (t_fsm K) bs (t_stk K) (t_stack K)).

Definition thumb_gen (K : thumb) (vm : ebpf_vm) : res ebpf_vm :=
  bytes ← of_option NullDeref (insts vm);
  '(c, _) ← compile true (t_addr K) (t_calls K) bytes (num_insts vm);
  Ok (EbpfVm (insts vm) (num_insts vm) (bounds_check_enabled vm) (helper_func vm) (Some c) (use_jit vm)).

Definition thumb_call (K : thumb) (vm : ebpf_vm) (bs : list Z) (dsize : Z) : res (Z * list Z) :=
  c ← of_option NullDeref (jit_func vm);
  st ← arm_run (t_addr K) c (t_ret K) 256 (call_state K bs dsize);
  Ok (reg st 0 + 2 ^ 32 * reg st 1, mem_bytes (M st)).

(** The fields of the interpreter are not used. *)
Definition thumb_env (K : thumb) : exec_env :=
  ExecEnv (t_fsm K) 0 64 (HelperHeap [] None) (thumb_gen K) (thumb_call K).

(** What a call needs: an aligned buffer of up to 1024 bytes that does not contain the
    return address, words in the registers, 288 bytes of stack below an aligned sp,
    and a monitor state of [size] bytes apart from the stack. *)
Record thumb_ok (K : thumb) (size : Z) : Prop := ThumbOk {
  tk_align : t_addr K mod 4 = 0;
  tk_addr : 0 <= t_addr K;
  tk_high : t_addr K + 1024 <= 2 ^ 32;
  tk_ret : t_ret K mod 2 = 0;
  tk_ret_range : 0 <= t_ret K < 2 ^ 32;
  tk_outside : ~ (t_addr K <= t_ret K < t_addr K + 1024);
  tk_len : length (t_regs K) = 15%nat;
  tk_words : Forall word (t_regs K);
  tk_bytes : Forall (fun b => is_byte b = true) (t_stack K);
  tk_sp_align : t_sp K mod 4 = 0;
  tk_sp_low : t_stk K + 288 <= t_sp K;
  tk_sp_high : t_sp K <= t_stk K + Z.of_nat (length (t_stack K));
  tk_stk : 0 <= t_stk K;
  tk_stk_high : t_stk K + Z.of_nat (length (t_stack K)) <= 2 ^ 32;
  tk_fsm_align : t_fsm K mod 4 = 0;
  tk_fsm : 0 <= t_fsm K < 2 ^ 32;
  tk_fsm_high : t_fsm K + size <= 2 ^ 32;
  tk_disjoint : t_fsm K + size <= t_stk K \/ t_stk K + Z.of_nat (length (t_stack K)) <= t_fsm K;
}.

Lemma call_called K size bs dsize :
  thumb_ok K size -> Z.of_nat (length bs) = size -> Forall (fun b => is_byte b = true) bs ->
  called (t_ret K) (call_state K bs dsize).
Proof.
  intros [] Hl Hb.
  assert (Hr13 : reg (call_state K bs dsize) 13 = t_sp K)
    by (unfold reg, call_state; cbn [R]; now rewrite !list_lookup_insert_ne by done).
  constructor.
  - unfold call_state. cbn [R]. now rewrite !length_insert.
  - unfold call_state. cbn [R]. repeat apply Forall_insert; [done|..]; unfold word; try done.
    + Z.div_mod_to_equations. lia.
    + pose proof (u16_range dsize). pow_cst. lia.
  - unfold reg, call_state. cbn [R M mem_base]. rewrite list_lookup_insert_eq; [done|].
    rewrite !length_insert. lia.
  - unfold reg, call_state. cbn [R]. rewrite !list_lookup_insert_ne by done.
    rewrite list_lookup_insert_eq; [done|lia].
  - done.
  - unfold frame_of. constructor; cbn [f_fp f_mem f_bytes f_stk f_len f_saved];
      rewrite ?Hr13; cbn [call_state M mem_base mem_bytes stk_base stk_bytes];
      unfold EBPF_STACK_SIZE; try done; try lia.
    Z.div_mod_to_equations. lia.
  - done.
Qed.

Lemma bind_eq {A B} (r : res A) (a : A) (k : A -> res B) : r = Ok a -> (x ← r; k x) = k a.
Proof. now intros ->. Qed.

Lemma thumb_gen_Ok K vm bytes c e :
  insts vm = Some bytes -> compile true (t_addr K) (t_calls K) bytes (num_insts vm) = Ok (c, e) ->
  exists vm', thumb_gen K vm = Ok vm' /\ jit_func vm' = Some c /\ use_jit vm' = use_jit vm.
Proof.
  intros Hi Hc. eexists. split.
  - unfold thumb_gen. rewrite (bind_eq _ bytes) by now rewrite Hi. rewrite (bind_eq _ _ _ Hc). reflexivity.
  - split; reflexivity.
Qed.

Lemma thumb_call_Ok K vm c bs dsize st v :
  jit_func vm = Some c -> arm_run (t_addr K) c (t_ret K) 256 (call_state K bs dsize) = Ok st ->
  reg st 0 + 2 ^ 32 * reg st 1 = v -> mem_bytes (M st) = bs -> thumb_call K vm bs dsize = Ok (v, bs).
Proof.
  intros Hj Hr <- <-. unfold thumb_call. rewrite (bind_eq _ c) by now rewrite Hj.
  rewrite (bind_eq _ _ _ Hr). reflexivity.
Qed.

Section Native.
  Context `{L : FsmLayout}.

(** A policy of at most 64 instructions that computes [f]. *)
Lemma native_returns K bytes f s v :
  thumb_ok K fsm_sizeof -> policy_runs bytes f ->
  let n := u16 (Z.of_nat (length bytes)) / 8 in
  jit_ok (t_calls K) bytes n fsm_sizeof = true -> n <= 64 ->
  Z.of_nat (length bytes) < 2 ^ 16 -> fsm_wf s -> f s = Ok v ->
  jit_returns (thumb_env K) bytes (Z.of_nat (length bytes)) (fsm_bytes s) v.
Proof.
  intros HK Hr n Hok Hn Hlen Hs Hv vm Hu.
  pose proof (fsm_bytes_length s Hs) as Hsize. pose proof (fsm_bytes_byte s) as Hbyte.
  assert (Hn0 : 0 <= n) by (unfold n; pose proof (u16_range (Z.of_nat (length bytes))); Z.div_mod_to_equations; lia).
  destruct (jit_runs _ _ _ _ (t_addr K) Hok (tk_align _ _ HK) (tk_addr _ _ HK)) as (c & Ec & Hc & Hrun);
    [pose proof (tk_high _ _ HK); lia|].
  set (st := call_state K (fsm_bytes s) 64).
  destruct (Hrun (t_ret K) st 0 None 64 64%nat 256%nat) as (v' & st' & Ei & Ea & Hret);
    [now apply (call_called K fsm_sizeof)|done|done|pose proof (tk_outside _ _ HK); lia|lia|lia|].
  destruct (Hr (thumb_env K) s Hs) as [Hres _].
  { split_and!; apply HK. }
  { cbn [env_fuel thumb_env]. unfold n in Hn. rewrite u16_small in Hn by lia.
    apply Nat2Z.inj_le. rewrite Nat2Z.inj_div. exact Hn. }
  unfold policy_result in Hres. cbn [env_fuel thumb_env env_fsm env_stk] in Hres.
  change (mem_base (M st)) with (t_fsm K) in Ei. change (mem_bytes (M st)) with (fsm_bytes s) in Ei.
  rewrite Ei, Hv in Hres. injection Hres as ->.
  destruct (thumb_gen_Ok K (ebpf_vm_set_inst vm bytes (Z.of_nat (length bytes))) bytes c _ eq_refl Ec)
    as (vm' & Eg & Ej & Eu).
  exists vm'. split; [exact Eg|]. split; [now rewrite Eu|].
  apply (thumb_call_Ok K vm' c (fsm_bytes s) 64 st' v Ej Ea); apply Hret.
Qed.
End Native.

(** A Cortex-M with the state and the code in RAM and a stack of 512 bytes. *)
Definition ram_core : thumb :=
  Thumb 0x20000000 0x20001000 0x08000100 (fun _ => None)
    [0; 0; 0; 0; 4; 5; 6; 7; 8; 9; 10; 11; 12; 0x20002180; 0] 0x20002000 (replicate 512 0).

Lemma ram_core_ok size : 0 <= size <= 4096 -> thumb_ok ram_core size.
Proof.
  intros Hs.
  assert (Hsp : t_sp ram_core = 0x20002180) by reflexivity.
  assert (Hlen : Z.of_nat (length (t_stack ram_core)) = 512)
    by (cbn [ram_core t_stack]; now rewrite length_replicate).
  constructor; rewrite ?Hsp, ?Hlen; cbn [ram_core t_addr t_ret t_regs t_stk t_fsm]; try (pow_cst; lia).
  - reflexivity.
  - reflexivity.
  - reflexivity.
  - unfold word. repeat (constructor; [pow_cst; lia|]). constructor.
  - apply Forall_replicate. reflexivity.
  - reflexivity.
  - reflexivity.
Qed.
