(* ===== verification/JitHooks.v ===== *)
(** * The Mynewt hooks with native code

    The sample application [apps/bleprph] calls [ifw_fsm_enable(JIT_ON)]: its policies
    are compiled before every run. With the environment of [JitEnv] the hooks give the
    verdicts of the interpreted policies. *)
From stdpp Require Import base tactics numbers list.
From Stdlib Require Import ZArith Lia.
From S2P Require Import Prelude Inst VM Verifier Fsm PolicyCache PolicyExec Mbuf MynewtFsm MynewtPolicies MynewtParser Thumb2 Arm Jit JitLogic JitCheck JitCorrect JitEnv.
Local Open Scope Z_scope.

(** The compiler accepts the three policies. *)
Lemma mynewt_jit_ok calls bytes f :
  In (bytes, f) mynewt_actual -> jit_ok calls bytes 8 fsm_sizeof = true.
Proof.
  intros H. cbn in H. destruct_or! H; try done; injection H as <- _; vm_compute; reflexivity.
Qed.

Lemma thumb_native K : thumb_ok K fsm_sizeof -> native (thumb_env K).
Proof.
  intros HK bytes f s v Hin Hs Hv. destruct (mynewt_actual_runs _ _ Hin) as [Hr Hl].
  replace 65 with (Z.of_nat (length bytes)) by now rewrite Hl.
  apply (native_returns K bytes f s v HK Hr); rewrite ?Hl; [|vm_compute; discriminate|pow_cst; lia|done..].
  change (u16 (Z.of_nat 65) / 8) with 8. exact (mynewt_jit_ok (t_calls K) bytes f Hin).
Qed.

(** C23 — The Mynewt device as [apps/bleprph] configures it, with [JIT_ON]: from the
    state after start-up and on every sequence of calls, each policy is compiled to
    Thumb-2 code and run on the processor, and the outcome is that of the interpreted
    policies. When every buffer holds the fields that the hooks read (a CONNECT_IND 35
    bytes, a pairing request its first five bytes in the first fragment, a transmitted
    control PDU an opcode), every call returns, every CONNECT_IND is rejected and every
    other PDU passes; otherwise the run ends in a read outside of the first buffer that
    does not. *)
Theorem mynewt_hooks_native K evs :
  thumb_ok K fsm_sizeof ->
  exists st', minv true st' /\
    (st ← boot true; hook_run (thumb_env K) st evs) =
    if forallb event_ok evs then Ok (st', map shipped_verdict evs) else Crash MemFault.
Proof.
  intros HK. rewrite mynewt_boot_ok. cbn [mbind res_bind].
  apply hook_run_verdicts; [exact (thumb_native K HK)|apply boot_minv].
Qed.

Lemma mynewt_hooks_native_witness :
  exists st', minv true st' /\
    (st ← boot true; hook_run (thumb_env ram_core) st sample_events) = Ok (st', [1; 0; 0]).
Proof.
  apply (mynewt_hooks_native ram_core sample_events).
  apply ram_core_ok. vm_compute. intuition congruence.
Defined.
