(* ===== verification/Device.v ===== *)
(** * A device with compiled and patched policies

    The parts of the Mynewt port put together: the policies that [ifw_fsm_enable(JIT_ON)]
    loads run as machine code, a patch that arrives over the air is verified, installed
    and interpreted, and both decide a check. *)
From stdpp Require Import base tactics numbers list.
From Stdlib Require Import ZArith Lia.
From S2P Require Import Prelude Inst VM VMFacts Verifier Fsm PolicyCache PolicyExec Mbuf Patch MynewtFsm MynewtPolicies MynewtParser PatchRuns Thumb2 Arm Jit JitCheck JitCorrect JitEnv JitHooks.
Local Open Scope Z_scope.

(** The processor of [K] with the interpreter's stack at [stk]. *)
Definition device_env (K : thumb) (stk : Z) : exec_env :=
  ExecEnv (t_fsm K) stk 64 (HelperHeap [] None) (thumb_gen K) (thumb_call K).

(** What the shipped policy [pid] returns on a state. *)
Definition shipped_value (s : FsmState) (pid : Z) : Z :=
  match arr_get mynewt_actual pid with
  | Some (_, f) => match f s with Ok v => v | _ => 0 end
  | None => 0
  end.

Lemma device_native K stk : thumb_ok K fsm_sizeof -> native (device_env K stk).
Proof.
  intros HK. assert (Hg : gen_jit_code (device_env K stk) = gen_jit_code (thumb_env K)) by reflexivity.
  assert (Hc : jit_call (device_env K stk) = jit_call (thumb_env K)) by reflexivity.
  unfold native, jit_returns. rewrite Hg, Hc. exact (thumb_native K HK).
Qed.

Lemma shipped_value_returns K stk s m pid :
  thumb_ok K fsm_sizeof -> fsm_wf s -> policy_arr m = shipped_arr true -> 0 <= pid < 3 ->
  policy_returns (device_env K stk) m (fsm_bytes s) pid (shipped_value s pid).
Proof.
  intros HK Hs Hm Hp. assert (Hc : pid = 0 \/ pid = 1 \/ pid = 2) by lia.
  assert (H : exists bytes f, In (bytes, f) mynewt_actual /\ arr_get mynewt_actual pid = Some (bytes, f) /\
    arr_get (policy_arr mynewt_cache) pid = Some (PolicyCacheC 65 (Some bytes) false)).
  { destruct Hc as [-> |[-> | ->]]; do 2 eexists; (split; [|split; reflexivity]); cbn; tauto. }
  destruct H as (bytes & f & Hin & Ef & Ea). destruct (mynewt_actual_runs _ _ Hin) as [Hr Hl].
  destruct (Hr (device_env K stk) s Hs) as [_ [v Hv]].
  { split_and!; apply HK. }
  { rewrite Hl. cbn [device_env env_fuel]. apply Nat.leb_le. reflexivity. }
  unfold shipped_value. rewrite Ef, Hv.
  apply (shipped_arr_returns true (device_env K stk) m s pid bytes f v); auto. exact (device_native K stk HK).
Qed.

(** A device in use: the shipped policies are compiled, and any number of patches, with
    legal code, have been installed so far into any slots; any bytes may be staged. *)
Record device_ok (K : thumb) (stk : Z) (st : patch_state) : Prop := DeviceOk {
  dev_patch : patch_wf st;
  dev_cache : cache_wf (patch_cache st);
  dev_arr : policy_arr (patch_cache st) = shipped_arr true;
  dev_patches : forall pid, 3 <= pid < 3 + runtime_policy_count (patch_cache st) ->
    slot_legal (device_env K stk) (patch_cache st) pid;
}.

(** What a policy of the device, shipped or patched, returns on a state. *)
Definition device_value (K : thumb) (stk : Z) (m : policy_state) (s : FsmState) (pid : Z) : Z :=
  if pid <? 3 then shipped_value s pid else policy_value (device_env K stk) m (fsm_bytes s) pid.

Lemma device_runnable K stk s :
  thumb_ok K fsm_sizeof -> placed 8 stk STACK_SIZE -> fsm_wf s ->
  runnable (device_env K stk) (fsm_bytes s).
Proof.
  intros HK Hstk Hs. pose proof (fsm_bytes_length s Hs) as Hl.
  split; [apply Z.eq_le_incl; now symmetry|]. rewrite Hl. split; [|exact Hstk]. split_and!; apply HK.
Qed.

Lemma device_returns K stk st s class type :
  thumb_ok K fsm_sizeof -> placed 8 stk STACK_SIZE -> fsm_wf s -> device_ok K stk st ->
  let m := patch_cache st in
  Forall (fun pid => policy_returns (device_env K stk) m (fsm_bytes s) pid (device_value K stk m s pid))
    (slot_list m class type).
Proof.
  intros HK Hstk Hs [_ Hc Ha Hp] m. eapply Forall_impl; [exact (slot_list_pids m class type Hc)|].
  intros pid Hpid. cbn beta in Hpid. change PID_NUM with 3 in Hpid. unfold device_value. destruct (Z.ltb_spec pid 3).
  - apply shipped_value_returns; auto. lia.
  - apply slot_legal_returns; [apply Hp; exact (conj H (proj2 Hpid))|now apply device_runnable].
Qed.

(** The device after an installation. *)
Lemma device_installed K stk st st' class type bytes :
  device_ok K stk st -> install_guards (patch_cache st) class type bytes -> policy_legal bytes ->
  (length bytes / 8 <= 64)%nat -> patch_wf st' ->
  patch_cache st' = installed (patch_cache st) class type bytes -> device_ok K stk st'.
Proof.
  intros [_ Hc Ha Hp] Hg Hl Hf Hw Em. destruct mynewt_port_ok as [Hp0 Hd].
  destruct (installed_result (P := mynewt_port) Hp0 Hd _ _ _ _ Hc Hg) as (Hc' & _ & Hnew & Hold & _).
  constructor; rewrite ?Em; [done|exact Hc'|exact Ha|]. intros pid Hpid.
  change (runtime_policy_count (installed _ _ _ _)) with (runtime_policy_count (patch_cache st) + 1) in Hpid.
  destruct (Z.eq_dec pid (3 + runtime_policy_count (patch_cache st))) as [->|Hne].
  - exists (PolicyCacheC (Z.of_nat (length bytes)) (Some bytes) false), bytes, [].
    split; [exact Hnew|]. split; [done|]. rewrite app_nil_r. split; [done|].
    destruct (legal_allowed _ Hl) as (Hlen & Hn & _). split; [cbn; lia|]. split; [done|exact Hf].
  - destruct (Hp pid) as (p & c & tl & Hs & H); [lia|]. exists p, c, tl.
    split; [rewrite <- Hs; apply Hold; exact Hne|exact H].
Qed.


(** The device after start-up. *)
Lemma device_boot_ok K stk : device_ok K stk (patch_state0 (boot_cache true)).
Proof.
  destruct (boot_cache_shipped true) as (Hc & _ & Ha).
  constructor; [apply patch_state0_patch_wf|exact Hc|exact Ha|].
  intros pid Hpid. exfalso. change (runtime_policy_count _) with 0 in Hpid. lia.
Qed.

(** [read_policy] returns the second word of the state, here REJECT. *)
Definition reject_state : FsmState := set_class_arr CORE [0; 1; 0; 0; 0] zero_fsm.

Lemma reject_state_wf : fsm_wf reject_state.
Proof.
  apply fsm_words_set; [apply mynewt_zero_fsm_wf|reflexivity|].
  unfold is_int. repeat (constructor; [lia|]). constructor.
Qed.

