(* ===== verification/JitZephyr.v ===== *)
(** * The Zephyr policies as native code

    Eight of the ten shipped policies fit into the buffer that [jit_mem_allocate]
    sizes by the number of instructions; their code computes the C sources. The code
    of the other two is written past the end of the buffer. *)
From stdpp Require Import base tactics numbers list.
From Stdlib Require Import ZArith Lia.
From S2P Require Import Prelude Inst VM Verifier Fsm PolicyCache PolicyExec ZephyrFsm ZephyrPolicies Thumb2 Arm Jit JitLogic JitLayout JitPasses JitCheck JitCorrect JitOverflow JitEnv.
Local Open Scope Z_scope.

(** All policies but [dc_nesn] and [smp_ident_check]. *)
Definition fitting_sources : list (list Z * (FsmState -> res Z)) :=
  take 3 zephyr_sources ++ take 3 (drop 4 zephyr_sources) ++ drop 8 zephyr_sources.

Lemma fitting_runs : Forall (fun '(bytes, f) => policy_runs bytes f) fitting_sources.
Proof.
  pose proof zephyr_sources_run as H. unfold fitting_sources. rewrite !Forall_app.
  split_and!; [now apply Forall_take|now apply Forall_take, Forall_drop|now apply Forall_drop].
Qed.

Definition insts_of (bytes : list Z) : Z := u16 (Z.of_nat (length bytes)) / 8.

Lemma fitting_jit_ok calls :
  Forall (fun '(bytes, _) => jit_ok calls bytes (insts_of bytes) fsm_sizeof = true /\
    insts_of bytes <= 64 /\ Z.of_nat (length bytes) < 2 ^ 16) fitting_sources.
Proof.
  unfold fitting_sources, zephyr_sources. cbn [take drop app].
  repeat (apply Forall_cons; split;
    [split; [vm_compute; reflexivity|split; [vm_compute; discriminate|reflexivity]]|]).
  constructor.
Qed.

(** C12 — The machine code of eight of the ten Zephyr policies computes their C sources:
    on every well-formed state and for every placement of code, stack and state, the
    compiler succeeds and the call of its code returns the value of the source and
    leaves the state as it is. *)
Theorem zephyr_native_correct K s :
  thumb_ok K fsm_sizeof -> fsm_wf s ->
  Forall (fun '(bytes, f) => exists v, f s = Ok v /\
    jit_returns (thumb_env K) bytes (Z.of_nat (length bytes)) (fsm_bytes s) v) fitting_sources.
Proof.
  intros HK Hs. pose proof fitting_runs as Hr. pose proof (fitting_jit_ok (t_calls K)) as Hj.
  rewrite Forall_forall in *. intros [bytes f] Hin.
  destruct (Hj _ Hin) as (Hok & Hn & Hl). pose proof (Hr _ Hin) as Hrun. cbn in Hrun.
  destruct (Hrun (ExecEnv 0 0 (length bytes / 8) (HelperHeap [] None) Ok (fun _ _ _ => Timeout)) s Hs)
    as [_ [v Hv]]; [vm_compute; repeat split; discriminate|cbn; lia|].
  exists v. split; [done|]. now apply (native_returns K bytes f).
Qed.

Lemma zephyr_native_correct_witness :
  exists K, Forall (fun '(bytes, f) => exists v, f zero_fsm = Ok v /\
    jit_returns (thumb_env K) bytes (Z.of_nat (length bytes)) (fsm_bytes zero_fsm) v) fitting_sources.
Proof.
  exists ram_core. apply (zephyr_native_correct ram_core zero_fsm).
  - apply ram_core_ok. vm_compute. intuition congruence.
  - exact zero_fsm_wf.
Defined.

(** C31 — The compiler writes past the end of its buffer: whenever the code that the first
    pass measured, shorter than 2048 bytes and with the eight bytes of the epilogue, does
    not fit into the [10 * n + 16] bytes that are allocated for [n] instructions, the
    compilation writes outside of the buffer. The code of the shipped policies [dc_nesn]
    and [smp_ident_check] is of this kind at every address. *)
Theorem jit_buffer_overflow addr calls :
  addr mod 4 = 0 ->
  (forall prog n s, 0 <= n -> first_pass (state0 addr calls prog n) = Ok s ->
     idx s < 2048 -> 10 * n + 16 < idx s + 8 -> compile true addr calls prog n = Crash ArrayOOB) /\
  compile true addr calls dc_nesn 9 = Crash ArrayOOB /\
  compile true addr calls smp_ident_check 19 = Crash ArrayOOB.
Proof.
  intros Ha.
  assert (H : forall prog n s, 0 <= n -> first_pass (state0 addr calls prog n) = Ok s ->
    idx s < 2048 -> 10 * n + 16 < idx s + 8 -> compile true addr calls prog n = Crash ArrayOOB).
  { intros prog n s Hn E Hnear Hbig. unfold compile. rewrite gen_state_eq by done.
    rewrite (compile_overflows (state0 addr calls prog n) s); try done.
    - apply Forall_replicate. done.
    - cbn [state0 jit_code]. rewrite length_replicate. lia. }
  split; [exact H|]. split; (eapply H; [lia|vm_compute; reflexivity|reflexivity|reflexivity]).
Qed.

(** One instruction takes more than the 26 bytes that it gets. *)
Lemma jit_buffer_overflow_witness :
  compile true 0x20001000 (fun _ => None) [0x95; 0; 0; 0; 0; 0; 0; 0] 1 = Crash ArrayOOB /\
  compile true 0x20001000 (fun _ => None) dc_nesn 9 = Crash ArrayOOB.
Proof.
  destruct (jit_buffer_overflow 0x20001000 (fun _ => None)) as (H & H1 & _); [reflexivity|].
  split; [|exact H1]. eapply H; [lia|vm_compute; reflexivity|reflexivity|reflexivity].
Defined.
