(* ===== verification/JitProps.v ===== *)
(** * Properties of the JIT compiler

    The theorems on [libebpf/src/jit_thumb2.c]: what the generated code does, where
    it is, that the encoders and the decoder of the processor agree, that the passes
    end, and programs for which the code does something else than the interpreter. *)
From stdpp Require Import base tactics numbers list relations.
From Stdlib Require Import ZArith Lia.
From S2P Require Import Prelude Inst VM VMFacts Thumb2 Arm Jit Thumb2Facts ArmFacts JitLogic JitEmit JitPasses JitLayout JitFlow JitEntry JitBranch JitCheck JitCorrect JitEnv.
Local Open Scope Z_scope.
Local Open Scope bits_scope.

(** ** Correctness *)

(** C2 — Correctness of the JIT compiler: for a program that the checker accepts,
    [gen_jit_code] succeeds at every aligned address, and every call of the code with
    the monitor state in r0 returns to the caller within 256 instructions, with the
    value that the interpreter computes in r1:r0, the registers and the stack pointer
    of the caller restored and the monitor state unchanged; the interpreter returns
    within as many steps as the program has instructions. *)
Theorem jit_correct calls prog n len addr :
  jit_ok calls prog n len = true -> addr mod 4 = 0 -> 0 <= addr -> addr + (10 * n + 16) <= 2 ^ 32 ->
  exists code, compile true addr calls prog n = Ok (code, addr + 1) /\
  forall ret st stack helpers mem_len,
  called ret st -> PC st = addr -> Z.of_nat (length (mem_bytes (M st))) = len ->
  ~ (addr <= ret < addr + Z.of_nat (length code)) ->
  let c0 := init_cpu (mem_base (M st)) stack (mem_bytes (M st)) in
  exists v st', run prog false helpers mem_len (Z.to_nat n) c0 = Ok (v, cmem c0) /\
    arm_run addr code ret 256 st = Ok st' /\ returned (frame_of st) ret v st'.
Proof.
  intros Hok Ha Ha0 Hhigh. destruct (jit_runs _ _ _ _ _ Hok Ha Ha0 Hhigh) as (code & Ec & _ & H).
  exists code. split; [exact Ec|]. intros ret st stack helpers mem_len Hc Hp Hl Hr.
  apply H; auto. lia.
Qed.

(** [if (word 2 of the state is 2) return 1; return 0], and two more [exit]s. *)
Definition sample_prog : list Z :=
  [0x61; 0x12; 0x08; 0; 0; 0; 0; 0;  0xb7; 0; 0; 0; 1; 0; 0; 0;
   0x15; 0x02; 0x01; 0; 2; 0; 0; 0;  0xb7; 0; 0; 0; 0; 0; 0; 0;  0x95; 0; 0; 0; 0; 0; 0; 0;
   0x95; 0; 0; 0; 0; 0; 0; 0;  0x95; 0; 0; 0; 0; 0; 0; 0].

Lemma jit_correct_witness :
  exists code, compile true 0x20001000 (fun _ => None) sample_prog 7 = Ok (code, 0x20001001) /\
  forall ret st stack helpers mem_len,
  called ret st -> PC st = 0x20001000 -> Z.of_nat (length (mem_bytes (M st))) = 16 ->
  ~ (0x20001000 <= ret < 0x20001000 + Z.of_nat (length code)) ->
  let c0 := init_cpu (mem_base (M st)) stack (mem_bytes (M st)) in
  exists v st', run sample_prog false helpers mem_len (Z.to_nat 7) c0 = Ok (v, cmem c0) /\
    arm_run 0x20001000 code ret 256 st = Ok st' /\ returned (frame_of st) ret v st'.
Proof.
  apply (jit_correct (fun _ => None) sample_prog 7 16 0x20001000);
    [vm_compute; reflexivity|reflexivity|lia|pow_cst; lia].
Defined.

(** ** Layout *)

(** C25 — The two passes of [jit_compile] agree: when the compilation succeeds and the code
    is shorter than 2048 bytes, the second pass puts the code of every instruction
    where the first one counted it, between the prologue and the epilogue, the last
    one ends at the epilogue, and the recorded offsets that jumps are computed from
    are these positions modulo 256. *)
Theorem passes_agree addr calls prog n s :
  addr mod 4 = 0 -> 0 <= n -> gen_state true addr calls prog n = Ok s -> epilogue_at s < 2048 ->
  laid_out s /\ Jit.prog s = prog /\ inst_num s = n.
Proof.
  intros Ha Hn E He. rewrite gen_state_eq in E by done.
  apply compile_layout in E as (H1 & H2 & H3 & _); [|done|apply Forall_replicate; done|done|done].
  done.
Qed.

Lemma passes_agree_witness :
  exists s, gen_state true 0 (fun _ => None) sample_prog 7 = Ok s /\ laid_out s.
Proof.
  destruct (gen_state true 0 (fun _ => None) sample_prog 7) as [s| |] eqn:E;
    [|vm_compute in E; discriminate E..].
  exists s. split; [reflexivity|]. apply (passes_agree 0 (fun _ => None) sample_prog 7 s);
    [reflexivity|lia|exact E|]. vm_compute in E. injection E as <-. reflexivity.
Defined.

(** ** Termination *)

Lemma emit_all_num hs s s' : emit_all s hs = Ok s' -> inst_num s' = inst_num s.
Proof.
  revert s. induction hs as [|h hs IH]; intros s E; cbn [emit_all] in E; [now injection E as <-|].
  apply bind_Ok in E as (s1 & E1 & E2). rewrite (IH _ E2). unfold emit_bytes in E1.
  apply bind_Ok in E1 as (s2 & E1 & [= <-]). cbn.
  destruct (needGen s); [|now injection E1 as <-].
  case_match; [|done]. now injection E1 as <-.
Qed.

Lemma record_offset_num s i s' : record_offset s i = Ok s' -> inst_num s' = inst_num s.
Proof.
  unfold record_offset. destruct (needGen s); intros E; [now injection E as <-|].
  apply bind_Ok in E as (o & _ & [= <-]). done.
Qed.

(** The loop of [build_body] ends: it makes at most as many iterations as there are
    instructions left, so that more fuel does not change its result. *)
Theorem build_body_terminates fuel k i s :
  inst_num s <= i + Z.of_nat fuel -> build_body (fuel + k) i s = build_body fuel i s.
Proof.
  revert i s. induction fuel as [|fuel IH]; intros i s Hf; cbn [Nat.add build_body].
  { destruct k as [|k]; [done|]. cbn [build_body]. destruct (Z.leb_spec (inst_num s) i); [done|lia]. }
  destruct (Z.leb_spec (inst_num s) i) as [|Hi]; [done|].
  destruct (inst_at (prog s) i) as [inst|]; cbn [of_option mbind res_bind]; [|done].
  unfold run_emit. destruct (build_inst _ _ _ s) as [[hs r]| |]; cbn [mbind res_bind]; try done.
  destruct (emit_all s hs) as [s1| |] eqn:E; cbn [mbind res_bind]; try done.
  apply emit_all_num in E. destruct (0 <? r).
  all: destruct (record_offset s1 _) as [s2| |] eqn:Er; cbn [mbind res_bind]; try done.
  all: apply record_offset_num in Er.
  - apply IH. lia.
  - destruct (r <? 0); [done|]. apply IH. lia.
Qed.

Lemma build_body_terminates_witness :
  build_body (7 + 93) 0 (state0 0 (fun _ => None) sample_prog 7) =
  build_body 7 0 (state0 0 (fun _ => None) sample_prog 7).
Proof. apply (build_body_terminates 7 93). cbn. lia. Defined.

(** ** Encodings *)

(** The encoders of the data-processing instructions on registers. *)
Definition dp_encoders : list ((Z -> Z -> Z -> Z -> Z -> Z -> Z) * dp_op) :=
  [(_thumb32_RSBW_REG_T1, RSB_op); (_thumb32_SBCW_T2, SBC_op); (_thumb32_ADDW_REG_T3, ADD_op);
   (_thumb32_AND_REG_T2, AND_op); (_thumb32_SUB_REG_T2, SUB_op); (_thumb32_EOR_REG_T2, EOR_op);
   (_thumb32_ORRW_REG_T2, ORR_op)].

Lemma dp_encoders_spec rd rn rm sh t fl :
  good rd -> good rn -> good rm -> 0 <= sh < 32 -> 0 <= t < 4 -> 0 <= fl < 2 ->
  Forall (fun '(enc, o) => decode32 (enc rd rn rm sh t fl) =
    Some (ADp o (fl =? 1) (Z.to_nat rd) (Z.to_nat rn) (Z.to_nat rm) (decode_imm_shift t sh)))
    dp_encoders.
Proof.
  intros Hd Hn Hm Hs Ht Hf.
  assert (H : forall o, decode32 (dp_reg (dp_code o << 21) rd rn rm sh t fl) =
    Some (ADp o (fl =? 1) (Z.to_nat rd) (Z.to_nat rn) (Z.to_nat rm) (decode_imm_shift t sh))).
  { intros o. apply decode_dp_enc; try done; split; pow_cst; lia. }
  assert (Ho : _thumb32_ORRW_REG_T2 rd rn rm sh t fl = dp_reg (dp_code ORR_op << 21) rd rn rm sh t fl).
  { unfold _thumb32_ORRW_REG_T2. destruct (Z.ltb_spec sh 0); [lia|].
    destruct (Z.ltb_spec 0x1f sh); [lia|]. reflexivity. }
  unfold dp_encoders. repeat (apply Forall_cons; split); [..|constructor].
  - exact (H RSB_op).
  - exact (H SBC_op).
  - exact (H ADD_op).
  - exact (H AND_op).
  - exact (H SUB_op).
  - exact (H EOR_op).
  - rewrite Ho. exact (H ORR_op).
Qed.

(** C26 — The encoders of [jit_thumb2.h] and the decoder of the processor are inverse for
    the instructions that correct code is made of: branches carry every even distance
    of their range (relative to the PC, which is 4 bytes ahead of the branch), MOVW
    and MOVT every 16-bit constant, the data-processing instructions on registers
    every shift amount, shift type and flag, and LDRB every small offset. *)
Theorem encodings_roundtrip off cond rd rn rm v sh t fl :
  off mod 2 = 0 -> 0 <= cond < 14 -> good rd -> good rn -> good rm ->
  0 <= v < 2 ^ 16 -> 0 <= sh < 32 -> 0 <= t < 4 -> 0 <= fl < 2 ->
  (-256 <= off <= 254 -> decode16 (_thumb16_B_T1 off cond) = Some (AB cond (off + 2))) /\
  (-2048 <= off < 2048 -> decode16 (_thumb16_B_T2 off) = Some (AB 14 (off + 2))) /\
  (- 2 ^ 20 <= off < 2 ^ 20 -> decode32 (_thumb32_BW_T3 off cond) = Some (AB cond off)) /\
  decode32 (mov16 0xf2400000 rd v) = Some (AMovImm false (Z.to_nat rd) v) /\
  decode32 (mov16 0xf2c00000 rd v) = Some (AMovt (Z.to_nat rd) v) /\
  Forall (fun '(enc, o) => decode32 (enc rd rn rm sh t fl) =
    Some (ADp o (fl =? 1) (Z.to_nat rd) (Z.to_nat rn) (Z.to_nat rm) (decode_imm_shift t sh)))
    dp_encoders /\
  (rd < 8 -> rn < 8 -> decode16 (_thumb16_LDRB_IMM_T1 rd rn sh) =
    Some (ALdr 1 (Z.to_nat rd) (Z.to_nat rn) sh)).
Proof.
  intros Ho Hc Hd Hn Hm Hv Hsh Ht Hfl.
  split_and!; intros; [apply decode_b_t1|apply decode_b_t2|apply decode_bw_t3
    |apply decode_movw|apply decode_movt|apply dp_encoders_spec|apply decode_ldrb_t1].
  all: try done; unfold good, Thumb2Facts.fits in *; pow_cst; lia.
Qed.

Lemma encodings_roundtrip_witness :
  decode32 (_thumb32_BW_T3 (-1000) 1) = Some (AB 1 (-1000)) /\
  decode32 (mov16 0xf2400000 7 0xbeef) = Some (AMovImm false 7 0xbeef).
Proof.
  destruct (encodings_roundtrip (-1000) 1 7 1 2 0xbeef 5 1 1) as (_ & _ & H3 & H4 & _);
    [reflexivity|unfold good; pow_cst; lia..|].
  split; [apply H3; pow_cst; lia|exact H4].
Defined.

(** ** Divergence *)

Definition less_jumps : list ebpf_op :=
  [EBPF_OP_JLT_IMM; EBPF_OP_JLE_IMM; EBPF_OP_JSLT_IMM; EBPF_OP_JSLE_IMM;
   EBPF_OP_JLT_REG; EBPF_OP_JLE_REG; EBPF_OP_JSLT_REG; EBPF_OP_JSLE_REG].

(** The condition on which these jumps are taken, for the operands [v] and [w]. *)
Definition less_holds (o : ebpf_op) (v w im : Z) : bool :=
  match o with
  | EBPF_OP_JLT_IMM => v <? u32 im
  | EBPF_OP_JLE_IMM => v <=? u32 im
  | EBPF_OP_JSLT_IMM => s64 v <? im
  | EBPF_OP_JSLE_IMM => s64 v <=? im
  | EBPF_OP_JLT_REG => v <? w
  | EBPF_OP_JLE_REG => v <=? w
  | EBPF_OP_JSLT_REG => s64 v <? s64 w
  | EBPF_OP_JSLE_REG => s64 v <=? s64 w
  | _ => false
  end.

(** Every eBPF register is in its pair of locations. *)
Definition exact_regs : astate := replicate 11 (Known true false).

(** The code that the second pass emits for [i], in the code at [base] and run from its
    first instruction on a processor that holds the eBPF registers [rs] and the monitor
    state, always gets to the instruction behind it, with all of these as they were. *)
Definition falls_through (base : Z) (code : list Z) (F : frame) (i : ebpf_inst) (p : Z)
    (nxt : option ebpf_inst) : Prop :=
  forall s hs a f rs st, needGen s = true -> build_inst i p nxt s = Ok (hs, a) ->
    related F exact_regs f rs -> rep F f st -> code_at code (idx s) hs -> PC st = base + idx s ->
    exists k st', (k <= length hs)%nat /\ star base code k st st' /\
      PC st' = base + idx s + 2 * Z.of_nat (length hs) /\
      exists g, rep F g st' /\ related F exact_regs g rs.

(** C30 — The compiler loses the jumps JLT, JLE, JSLT and JSLE, with an immediate and with
    a register: the interpreter takes them exactly when the comparison holds; but the
    code that [build_inst] emits in the second pass, wherever it lies and whatever the
    operands are, always runs to its end and goes on with the next instruction, with
    every eBPF register and the monitor state as they were. *)
Theorem jit_loses_jumps base code F i o p nxt :
  frame_ok F -> In o less_jumps -> opcode_of (opcode i) = Some o ->
  0 <= dst i <= 10 -> 0 <= src i <= 10 -> - 2 ^ 31 <= imm i < 2 ^ 31 ->
  (forall bpf checked helpers mem_len q rs m v w,
     arr_get rs (dst i) = Some v -> arr_get rs (src i) = Some w ->
     dispatch bpf checked helpers mem_len (Cpu q rs m) i o =
     jump (Cpu q rs m) i (less_holds o v w (imm i))) /\
  falls_through base code F i p nxt.
Proof.
  intros HF Hin Ho Hd Hs Him. split.
  { intros bpf checked helpers mem_len q rs m v w Hv Hw.
    cbn in Hin. destruct_or! Hin; try done; subst o; cbn; unfold get_reg; cbn; now rewrite Hv, ?Hw. }
  intros s hs a f rs st Hg E Hrel Hst Hc Hp.
  assert (Hx : forall r, 0 <= r <= 10 -> arr_get exact_regs r = Some (Known true false)).
  { intros r Hr. apply arr_get_Some. split; [lia|]. apply lookup_replicate. split; [done|lia]. }
  assert (Hb : branches base code (inst_num s) (epilogue_at s) (offsets s) (idx s + 2 * Z.of_nat (length hs))
    (rep F f) (build_inst i p nxt) (fun a st => a = 0 /\ PC st = base + (idx s + 2 * Z.of_nat (length hs)) /\
       exists g, rep F g st /\ related F exact_regs g rs)).
  { cbn in Hin. destruct_or! Hin; try done; subst o;
      match type of Ho with _ = Some ?o =>
        let op := eval vm_compute in (BPF_OP (opcode_code o)) in
        first [ eapply (less_imm_code base code _ _ _ _ F HF exact_regs f rs Hrel i Him p nxt o op); [cbn; tauto|done|auto]
              | eapply (less_reg_code base code _ _ _ _ F HF exact_regs f rs Hrel i p nxt o op); [cbn; tauto|done|auto|auto] ]
      end. }
  destruct (Hb s hs a) with (st := st) as (k & st' & Hk & Hstar & _ & Hpc & H); [now constructor|done..|].
  exists k, st'. split_and!; try done. lia.
Qed.

(** [if r1 < 5 goto +2] with 3 in r1, in a frame in RAM. *)
Lemma jit_loses_jumps_witness :
  let i := EbpfInst 0xa5 1 0 2 5 in
  let c := Cpu 1 (replicate 12 3) (Memory 0x20000000 [] 0x20001000 []) in
  dispatch [] false None 0 c i EBPF_OP_JLT_IMM = jump c i true /\
  falls_through 0x20001000 (replicate 86 0)
    (Frame 0x20002100 0x20000000 [] 0x20002000 512 (replicate 8 0) 0) i 0 None.
Proof.
  destruct (jit_loses_jumps 0x20001000 (replicate 86 0)
    (Frame 0x20002100 0x20000000 [] 0x20002000 512 (replicate 8 0) 0)
    (EbpfInst 0xa5 1 0 2 5) EBPF_OP_JLT_IMM 0 None) as [H1 H2].
  - constructor; cbn; unfold EBPF_STACK_SIZE; try reflexivity; try (pow_cst; lia). constructor.
  - now left.
  - reflexivity.
  - cbn; lia.
  - cbn; lia.
  - cbn; pow_cst; lia.
  - split; [|exact H2]. apply (H1 [] false None 0 1 (replicate 12 3) _ 3 3); reflexivity.
Defined.

Definition asm (o : ebpf_op) (d s off im : Z) : ebpf_inst := EbpfInst (opcode_code o) d s off im.
Definition mov (d v : Z) : ebpf_inst := asm EBPF_OP_MOV64_IMM d 0 0 v.
Definition exit : ebpf_inst := asm EBPF_OP_EXIT 0 0 0 0.

(** [d = hi << 32 | lo]. *)
Definition lddw (d hi lo : Z) : list ebpf_inst :=
  [asm EBPF_OP_LDDW d 0 0 lo; EbpfInst 0 0 0 0 hi].

(** What the interpreter and the compiled code return for a program, on a state of 64
    zero bytes. *)
Definition interpreted (l : list ebpf_inst) : res Z :=
  '(v, _) ← run (flat_map inst_bytes l) false None 64 64 (init_cpu (t_fsm ram_core) 0 (replicate 64 0));
  Ok v.

Definition compiled (l : list ebpf_inst) : res Z :=
  vm ← thumb_gen ram_core
         (EbpfVm (Some (flat_map inst_bytes l)) (Z.of_nat (length l)) false None None true);
  '(v, _) ← thumb_call ram_core vm (replicate 64 0) 64;
  Ok v.

Definition miscompiled : list (list ebpf_inst * Z * Z) :=
  [([mov 0 1; mov 6 3; asm EBPF_OP_JLT_IMM 6 0 1 5; mov 0 0; exit], 1, 0);
   ([mov 0 1; mov 6 3; asm EBPF_OP_JSLE_IMM 6 0 1 5; mov 0 0; exit], 1, 0);
   (mov 0 1 :: lddw 6 1 7 ++ [asm EBPF_OP_JEQ_IMM 6 0 1 7; mov 0 0; exit], 0, 1);
   (lddw 0 1 7 ++ [asm EBPF_OP_LSH64_IMM 0 0 0 5; exit; exit; exit], 137438953696, 224);
   ([mov 0 3; mov 6 5; asm EBPF_OP_XOR64_REG 0 6 0 0; exit; exit], 6, 4);
   ([mov 0 3; mov 6 5; asm EBPF_OP_OR64_REG 0 6 0 0; exit; exit], 7, 3);
   ([mov 0 3; asm EBPF_OP_NEG64 0 0 0 0; exit; exit; exit], 18446744073709551613, 4294967293);
   (lddw 0 1 7 ++ [asm EBPF_OP_LDXW 0 1 4 0; exit; exit], 0, 4294967296);
   (lddw 0 1 7 ++ [asm EBPF_OP_MOV_IMM 0 0 0 4; exit; exit], 4, 4294967300)].

(** Programs outside of what [jit_correct] covers, for which the compiled code returns
    another value than the interpreter: JLT and JSLE (as JLE and JSLT) emit no branch;
    JEQ compares the low words only; a 64-bit left shift by less than 32, the 64-bit
    XOR, OR and NEG compute something else; LDXW and the 32-bit moves leave the
    high word of the destination as it was. *)
Theorem jit_miscompiles :
  Forall (fun '(l, v, w) => interpreted l = Ok v /\ compiled l = Ok w /\ v <> w) miscompiled.
Proof. repeat constructor; vm_compute; first [reflexivity|congruence]. Qed.
