(* ===== verification/Maps.v ===== *)
(** * The arrays and the sorted map of libebpf

    [libebpf/src/map.c] with [ebpf_realloc] of [ebpf_allocator.c]: the growing array
    [darray] and the map [arraymap], two parallel arrays ordered by key. Keys and values
    are the 32-bit pointers that the code stores; NULL is 0. A block of memory is the
    list of its words; what an allocation returns, its contents included, is an argument. *)
From stdpp Require Import base tactics numbers list gmap sorting.
From Stdlib Require Import ZArith Lia.
From S2P Require Import Prelude.
Local Open Scope Z_scope.

(** ** Memory *)

(** What a pointer points to; [None] is NULL. *)
Definition block : Type := option (list Z).

Definition word_at (b : block) (i : Z) : res Z :=
  l ← of_option NullDeref b; of_option ArrayOOB (arr_get l i).

Definition set_word (b : block) (i v : Z) : res block :=
  l ← of_option NullDeref b;
  l' ← of_option ArrayOOB (arr_set l i v);
  Ok (Some l').

(** The sizes of a pointer and of the two fields of a [darray]. *)
Definition ptr_size : Z := 4.
Definition darray_size : Z := 8.

(** [pnew] is what [ebpf_malloc(newsize)] returns. [memcpy] copies the [orisize] bytes
    that the caller says the block has. *)
Definition ebpf_realloc {A} (rmem : option (list A)) (orisize newsize : Z) (pnew : option (list A))
    : res (option (list A)) :=
  if newsize =? 0 then Ok None
  else
    match rmem with
    | None => Ok pnew
    | Some old =>
        if newsize <=? orisize then Ok rmem
        else
          match pnew with
          | None => Ok None
          | Some new =>
              let n := Z.to_nat (orisize / ptr_size) in
              if (n <=? length old)%nat && (n <=? length new)%nat
              then Ok (Some (take n old ++ drop n new))
              else Crash ArrayOOB
          end
    end.

Definition MAP_GROW : Z := 4.

(** ** Searching *)

(** The result of arithmetic on [int]. *)
Definition int_val (z : Z) : res Z :=
  if (- 2 ^ 31 <=? z) && (z <? 2 ^ 31) then Ok z else Crash SignedOverflow.

Lemma int_val_Ok z : - 2 ^ 31 <= z < 2 ^ 31 -> int_val z = Ok z.
Proof. intros H. unfold int_val. now rewrite (proj2 (Z.leb_le _ _)), (proj2 (Z.ltb_lt _ _)) by lia. Qed.

(** Each round of a loop takes a unit of fuel. *)
Fixpoint search_loop (fuel : nat) (arr : block) (start end_ val : Z) : res Z :=
  match fuel with
  | O => Timeout
  | S fuel =>
      if start <=? end_ then
        sum ← int_val (start + end_);
        let mid := sum / 2 in
        m ← word_at arr mid;
        if m =? val then Ok mid
        else if val <? m then search_loop fuel arr start (mid - 1) val
        else search_loop fuel arr (mid + 1) end_ val
      else Ok (-1)
  end.

(** Sizes are an [int]: 32 rounds halve any of them to nothing. *)
Definition binary_search (arr : block) (size val : Z) : res Z :=
  end_ ← int_val (size - 1);
  search_loop 32 arr 0 end_ val.

Fixpoint bound_loop (fuel : nat) (arr : block) (start end_ val : Z) : res Z :=
  match fuel with
  | O => Timeout
  | S fuel =>
      if start + 1 <? end_ then
        sum ← int_val (start + end_);
        let mid := sum / 2 in
        m ← word_at arr mid;
        if m <? val then bound_loop fuel arr mid end_ val else bound_loop fuel arr start mid val
      else Ok end_
  end.

Definition lower_bound (arr : block) (size val : Z) : res Z := bound_loop 32 arr 0 size val.

(** ** The growing array *)
Record darray := Darray { d_cur : Z; d_max : Z; d_vals : list Z }.

(** [ebpf_malloc] gave a block with the words [mem] behind the two fields, or NULL. *)
Definition darray_new (initial_size : Z) (mem : block) : res darray :=
  l ← of_option NullDeref mem;
  if Z.of_nat (length l) <? initial_size then Crash ArrayOOB
  else Ok (Darray 0 initial_size
             (replicate (Z.to_nat initial_size) 0 ++ drop (Z.to_nat initial_size) l)).

(** The first free slot among the [n] from [i] on. *)
Fixpoint find_free (n : nat) (i : Z) (l : list Z) : res (option Z) :=
  match n with
  | O => Ok None
  | S n =>
      v ← of_option ArrayOOB (arr_get l i);
      if v =? 0 then Ok (Some i) else find_free n (i + 1) l
  end.

(** The index, the array, and whether it was moved: then the block that the caller's
    pointer refers to has been freed, since only the local [arr] is updated. [pnew] is
    the block of a growing array, its first two words holding the fields. *)
Definition darray_add (arr : darray) (val : Z) (pnew : block) : res (Z * darray * bool) :=
  free ← find_free (Z.to_nat (d_cur arr)) 0 (d_vals arr);
  match free with
  | Some i =>
      l ← of_option ArrayOOB (arr_set (d_vals arr) i val);
      Ok (i, Darray (d_cur arr) (d_max arr) l, false)
  | None =>
      let idx := d_cur arr in
      let cur := idx + 1 in
      if d_max arr <=? cur then
        let new_size := d_max arr + MAP_GROW in
        let ori_size := darray_size + d_max arr * ptr_size in
        b ← ebpf_realloc (Some (cur :: d_max arr :: d_vals arr)) ori_size
              (darray_size + new_size * ptr_size) pnew;
        l ← of_option NullDeref b;
        vals ← of_option ArrayOOB (arr_set (drop 2 l) idx val);
        Ok (idx, Darray cur new_size vals, true)
      else
        vals ← of_option ArrayOOB (arr_set (d_vals arr) idx val);
        Ok (idx, Darray cur (d_max arr) vals, false)
  end.

Definition darray_get (arr : darray) (key : Z) : res Z :=
  if key <? d_cur arr then of_option ArrayOOB (arr_get (d_vals arr) key) else Ok 0.

Definition darray_set (arr : darray) (key val : Z) : res darray :=
  if key <? d_max arr then
    l ← of_option ArrayOOB (arr_set (d_vals arr) key val);
    Ok (Darray (d_cur arr) (d_max arr) l)
  else Ok arr.

Definition darray_del (arr : darray) (key : Z) : res darray :=
  if key <? d_cur arr then
    l ← of_option ArrayOOB (arr_set (d_vals arr) key 0);
    Ok (Darray (d_cur arr) (d_max arr) l)
  else Ok arr.

(** ** The sorted map *)
Record arraymap := Arraymap { max_size : Z; cur_size : Z; keys : block; vals : block }.

(** [ok]: the allocation of the struct succeeded; [kb] and [vb] are the two blocks. *)
Definition arraymap_new (initial_size : Z) (ok : bool) (kb vb : block) : res arraymap :=
  if ok then Ok (Arraymap (u16 initial_size) 0 kb vb) else Crash NullDeref.

(** [n] rounds of the loop that moves the entries up, from index [i] down. *)
Fixpoint shift_up (n : nat) (i : Z) (kb vb : block) : res (block * block) :=
  match n with
  | O => Ok (kb, vb)
  | S n =>
      k ← word_at kb (i - 1); kb ← set_word kb i k;
      v ← word_at vb (i - 1); vb ← set_word vb i v;
      shift_up n (i - 1) kb vb
  end.

(** [n] rounds of the loop that closes the gap at index [i]. *)
Fixpoint shift_down (n : nat) (i : Z) (kb vb : block) : res (block * block) :=
  match n with
  | O => Ok (kb, vb)
  | S n =>
      k ← word_at kb (i + 1); kb ← set_word kb i k;
      v ← word_at vb (i + 1); vb ← set_word vb i v;
      shift_down n (i + 1) kb vb
  end.

(** [nk] and [nv] are the blocks that growing allocates. *)
Definition arraymap_set (map : arraymap) (key val : Z) (nk nv : block) : res arraymap :=
  if cur_size map =? 0 then
    kb ← set_word (keys map) 0 key;
    vb ← set_word (vals map) 0 val;
    Ok (Arraymap (max_size map) (u16 (cur_size map + 1)) kb vb)
  else
    insert ← lower_bound (keys map) (cur_size map) key;
    k ← word_at (keys map) insert;
    if k =? key then
      vb ← set_word (vals map) insert val;
      Ok (Arraymap (max_size map) (cur_size map) (keys map) vb)
    else
      map ← (if max_size map <=? cur_size map then
               let new_size := max_size map + MAP_GROW in
               let ori_size := darray_size + max_size map * ptr_size in
               kb ← ebpf_realloc (keys map) ori_size (new_size * ptr_size) nk;
               vb ← ebpf_realloc (vals map) ori_size (new_size * ptr_size) nv;
               Ok (Arraymap (u16 new_size) (cur_size map) kb vb)
             else Ok map);
      '(kb, vb) ← shift_up (Z.to_nat (cur_size map - insert)) (cur_size map) (keys map) (vals map);
      kb ← set_word kb insert key;
      vb ← set_word vb insert val;
      Ok (Arraymap (max_size map) (u16 (cur_size map + 1)) kb vb).

Definition arraymap_get (map : arraymap) (key : Z) : res Z :=
  idx ← binary_search (keys map) (cur_size map) key;
  if idx =? -1 then Ok 0 else word_at (vals map) idx.

Definition arraymap_del (map : arraymap) (key : Z) : res arraymap :=
  idx ← binary_search (keys map) (cur_size map) key;
  if idx =? -1 then Ok map
  else
    '(kb, vb) ← shift_down (Z.to_nat (cur_size map - idx)) idx (keys map) (vals map);
    let cur := u16 (cur_size map - 1) in
    kb ← set_word kb cur 0;
    vb ← set_word vb cur 0;
    Ok (Arraymap (max_size map) cur kb vb).

(** ** Facts on memory *)
Lemma word_at_Ok l i v : word_at (Some l) i = Ok v <-> 0 <= i /\ l !! Z.to_nat i = Some v.
Proof.
  unfold word_at. cbn. rewrite <- arr_get_Some. destruct (arr_get l i); cbn; [naive_solver|].
  split; [done|naive_solver].
Qed.

Lemma word_at_app a x b i : i = Z.of_nat (length a) -> word_at (Some (a ++ x :: b)) i = Ok x.
Proof. intros ->. apply word_at_Ok. split; [lia|]. rewrite Nat2Z.id. now apply list_lookup_middle. Qed.

Lemma set_word_app a x b i v :
  i = Z.of_nat (length a) -> set_word (Some (a ++ x :: b)) i v = Ok (Some (a ++ v :: b)).
Proof.
  intros ->. unfold set_word. cbn. rewrite arr_set_in by (rewrite length_app; cbn; lia). cbn.
  rewrite Nat2Z.id, insert_app_r_alt, Nat.sub_diag by lia. done.
Qed.

Lemma word_at_outside l i : Z.of_nat (length l) <= i -> word_at (Some l) i = Crash ArrayOOB.
Proof. intros H. unfold word_at. cbn. now rewrite (proj2 (arr_get_None l i)) by lia. Qed.

(** A new block takes over the words of the old one. *)
Lemma realloc_grows {A} (old new : list A) orisize newsize :
  orisize < newsize -> 0 < newsize -> orisize = ptr_size * Z.of_nat (length old) ->
  (length old <= length new)%nat ->
  ebpf_realloc (Some old) orisize newsize (Some new) = Ok (Some (old ++ drop (length old) new)).
Proof.
  intros Hs Hn Ho Hl. unfold ebpf_realloc, ptr_size in *.
  rewrite (proj2 (Z.eqb_neq _ _)) by lia. rewrite (proj2 (Z.leb_gt _ _)) by lia.
  replace (Z.to_nat (orisize / 4)) with (length old) by (subst orisize; rewrite Z.mul_comm, Z.div_mul; lia).
  rewrite Nat.leb_refl, (proj2 (Nat.leb_le _ _)) by done. cbn. now rewrite take_ge by done.
Qed.

(** ** Searching

    [l !! i] below is the [i]-th word; the searched part of the block is [ks]. *)
Definition sorted (ks : list Z) : Prop := StronglySorted Z.lt ks.

Lemma sorted_lookup ks i j x y :
  sorted ks -> ks !! i = Some x -> ks !! j = Some y -> (i < j)%nat <-> x < y.
Proof.
  intros Hs. assert (L : forall i j x y, ks !! i = Some x -> ks !! j = Some y -> (i < j)%nat -> x < y).
  { clear -Hs. induction Hs as [|a l Hl IH Ha]; [done|]. intros [|i] [|j] x y Hi Hj Hij; try lia.
    - cbn in *. injection Hi as ->. rewrite Forall_lookup in Ha. now apply (Ha j).
    - cbn in *. apply (IH i j); [done|done|lia]. }
  intros Hi Hj. split; [now apply L|]. intros Hxy.
  destruct (decide (i < j)%nat) as [|Hij]; [done|]. exfalso.
  destruct (decide (i = j)) as [->|]; [simplify_eq; lia|].
  assert (y < x) by (apply (L j i); [done|done|lia]). lia.
Qed.

Lemma prefix_word ks sp i x :
  0 <= i -> ks !! Z.to_nat i = Some x -> word_at (Some (ks ++ sp)) i = Ok x.
Proof. intros Hi Hx. apply word_at_Ok. split; [done|]. now apply lookup_app_l_Some. Qed.

Section Search.
  Context (ks sp : list Z) (val : Z).
  Hypothesis Hsort : sorted ks.
  Hypothesis Hfit : Z.of_nat (length ks) <= 2 ^ 30.

Lemma get_index (i : Z) : 0 <= i < Z.of_nat (length ks) -> exists x, ks !! Z.to_nat i = Some x.
Proof. intros Hi. apply lookup_lt_is_Some. lia. Qed.

(** The result is the index of [val], if it is between [start] and [end_]. *)
Definition found (lo hi r : Z) : Prop :=
  (r = -1 /\ forall i, lo <= i <= hi -> 0 <= i -> ks !! Z.to_nat i <> Some val) \/
  (lo <= r <= hi /\ ks !! Z.to_nat r = Some val).

Lemma search_loop_spec fuel start end_ :
  0 <= start -> end_ < Z.of_nat (length ks) -> end_ - start + 1 < 2 ^ Z.of_nat fuel ->
  exists r, search_loop (S fuel) (Some (ks ++ sp)) start end_ val = Ok r /\ found start end_ r.
Proof.
  revert start end_. induction fuel as [|fuel IH]; intros start end_ Hs He Hf.
  { exists (-1). cbn in Hf. cbn [search_loop]. rewrite (proj2 (Z.leb_gt _ _)) by lia.
    split; [done|]. left. split; [done|]. intros i Hi. lia. }
  rewrite Nat2Z.inj_succ, Z.pow_succ_r in Hf by lia.
  cbn [search_loop]. destruct (Z.leb_spec start end_) as [Hle|Hgt]; cycle 1.
  { exists (-1). split; [done|]. left. split; [done|]. lia. }
  rewrite int_val_Ok by lia. cbn [mbind res_bind].
  set (mid := (start + end_) / 2).
  assert (Hm : start <= mid <= end_ /\ 2 * mid <= start + end_ < 2 * mid + 2)
    by (unfold mid; Z.div_mod_to_equations; lia).
  destruct (get_index mid) as [m Em]; [lia|]. rewrite (prefix_word ks sp mid m) by (lia || done).
  cbn [mbind res_bind]. destruct (Z.eqb_spec m val) as [->|Hne].
  { exists mid. split; [done|]. right. split; [lia|done]. }
  destruct (Z.ltb_spec val m) as [Hlt|Hge].
  - destruct (IH start (mid - 1)) as (r & E & Hr); [lia..|]. exists r. split; [exact E|].
    destruct Hr as [[-> Hr]|[? ?]]; [left; split; [done|]|right; split; [lia|done]].
    intros i Hi H0 Hv. destruct (decide (i < mid)) as [|Hi']; [apply (Hr i); [lia|done|done]|].
    pose proof (sorted_lookup _ _ _ _ _ Hsort Hv Em). lia.
  - destruct (IH (mid + 1) end_) as (r & E & Hr); [lia..|]. exists r. split; [exact E|].
    destruct Hr as [[-> Hr]|[? ?]]; [left; split; [done|]|right; split; [lia|done]].
    intros i Hi H0 Hv. destruct (decide (mid < i)) as [|Hi']; [apply (Hr i); [lia|done|done]|].
    pose proof (sorted_lookup _ _ _ _ _ Hsort Em Hv). lia.
Qed.

(** [end_] separates the smaller entries behind the first from the others. *)
Lemma bound_loop_spec fuel start end_ :
  0 <= start < end_ -> end_ <= Z.of_nat (length ks) -> end_ - start <= 2 ^ Z.of_nat fuel ->
  (forall x, 0 < start -> ks !! Z.to_nat start = Some x -> x < val) ->
  (forall x, ks !! Z.to_nat end_ = Some x -> val <= x) ->
  exists r, bound_loop (S fuel) (Some (ks ++ sp)) start end_ val = Ok r /\ start < r <= end_ /\
    (forall i x, 0 < i < r -> ks !! Z.to_nat i = Some x -> x < val) /\
    (forall x, ks !! Z.to_nat r = Some x -> val <= x).
Proof.
  revert start end_. induction fuel as [|fuel IH]; intros start end_ Hs He Hf Hlo Hhi.
  all: cbn [bound_loop]; destruct (Z.ltb_spec (start + 1) end_) as [Hlt|Hge].
  1: { cbn in Hf. lia. }
  1,3: exists end_; split; [done|]; split; [lia|]; split; [|done]; intros i x Hi Hx;
    destruct (decide (0 < start)) as [H0|H0]; [|lia];
    destruct (get_index start) as [y Hy]; [lia|]; pose proof (Hlo y H0 Hy);
    destruct (decide (i = start)) as [->|]; [simplify_eq; lia|];
    pose proof (sorted_lookup _ _ _ _ _ Hsort Hx Hy); lia.
  rewrite Nat2Z.inj_succ, Z.pow_succ_r in Hf by lia.
  rewrite int_val_Ok by lia. cbn [mbind res_bind].
  set (mid := (start + end_) / 2).
  assert (Hm : start < mid < end_ /\ 2 * mid <= start + end_ < 2 * mid + 2)
    by (unfold mid; Z.div_mod_to_equations; lia).
  destruct (get_index mid) as [m Em]; [lia|]. rewrite (prefix_word ks sp mid m) by (lia || done).
  cbn [mbind res_bind]. destruct (Z.ltb_spec m val) as [Hmv|Hmv].
  - destruct (IH mid end_) as (r & E & Hr & H1 & H2); [lia..|naive_solver|done|].
    exists r. split; [exact E|]. split; [lia|done].
  - destruct (IH start mid) as (r & E & Hr & H1 & H2); [lia..|done|naive_solver|].
    exists r. split; [exact E|]. split; [lia|done].
Qed.
End Search.

(** ** Moving entries *)
Lemma shift_up_spec n i (a b c a' b' c' : list Z) x x' :
  length b = n -> length b' = n -> length a = length a' -> i = Z.of_nat (length a + n) ->
  shift_up n i (Some (a ++ b ++ x :: c)) (Some (a' ++ b' ++ x' :: c')) =
  Ok (Some (a ++ default x (head b) :: b ++ c), Some (a' ++ default x' (head b') :: b' ++ c')).
Proof.
  revert i b c x b' c' x'. induction n as [|n IH]; intros i b c x b' c' x' Hb Hb' Ha Hi.
  { destruct b, b'; done. }
  destruct b as [|y b _] using rev_ind; [done|]. destruct b' as [|y' b' _] using rev_ind; [done|].
  rewrite length_app in Hb, Hb'. cbn in Hb, Hb'. cbn [shift_up].
  assert (E : forall (p q : list Z) z w r, p ++ (q ++ [z]) ++ w :: r = (p ++ q) ++ z :: w :: r)
    by (intros; now rewrite <- !(assoc_L (++))).
  rewrite !E, (word_at_app (a ++ b)), (word_at_app (a' ++ b')) by (rewrite length_app; lia).
  cbn [mbind res_bind]. rewrite <- (E a b), <- (E a' b'), (assoc_L (++) a), (assoc_L (++) a').
  rewrite (set_word_app (a ++ _)), (set_word_app (a' ++ _)) by (rewrite !length_app; cbn; lia).
  cbn [mbind res_bind]. rewrite <- !(assoc_L (++)). cbn [app]. rewrite IH by lia.
  rewrite !head_app. destruct b, b'; done.
Qed.

Lemma shift_down_spec n i (a b c a' b' c' : list Z) x x' :
  length b = n -> length b' = n -> length a = length a' -> i = Z.of_nat (length a) ->
  shift_down n i (Some (a ++ x :: b ++ c)) (Some (a' ++ x' :: b' ++ c')) =
  Ok (Some (a ++ b ++ default x (last b) :: c), Some (a' ++ b' ++ default x' (last b') :: c')).
Proof.
  revert i a b x a' b' x'. induction n as [|n IH]; intros i a b x a' b' x' Hb Hb' Ha Hi.
  { destruct b, b'; done. }
  destruct b as [|y b]; [done|]. destruct b' as [|y' b']; [done|]. injection Hb as Hb. injection Hb' as Hb'.
  cbn [shift_down app].
  assert (E : forall (p : list Z) z w r, p ++ z :: w :: r = (p ++ [z]) ++ w :: r)
    by (intros; now rewrite <- (assoc_L (++))).
  rewrite !E, (word_at_app (a ++ _)), (word_at_app (a' ++ _)) by (rewrite length_app; cbn; lia).
  cbn [mbind res_bind]. rewrite <- !E, (set_word_app a), (set_word_app a') by lia.
  cbn [mbind res_bind]. rewrite !E, IH by (rewrite ?length_app; cbn; lia).
  rewrite <- !(assoc_L (++)). cbn [app].
  rewrite !last_cons. do 3 f_equal; destruct (last _); done.
Qed.

(** ** The two searches on a sorted array *)
Lemma binary_search_spec ks sp k :
  sorted ks -> Z.of_nat (length ks) <= 2 ^ 30 ->
  ((k ∉ ks) /\ binary_search (Some (ks ++ sp)) (Z.of_nat (length ks)) k = Ok (-1)) \/
  (exists a b, ks = a ++ k :: b /\
     binary_search (Some (ks ++ sp)) (Z.of_nat (length ks)) k = Ok (Z.of_nat (length a))).
Proof.
  intros Hs Hl. unfold binary_search. rewrite int_val_Ok by lia. cbn [mbind res_bind].
  destruct (search_loop_spec ks sp k Hs Hl 31 0 (Z.of_nat (length ks) - 1)) as (r & E & Hr); [lia..|].
  rewrite E. destruct Hr as [[-> Hr]|[Hr Hk]].
  - left. split; [|done]. intros [i Hi]%list_elem_of_lookup. apply (Hr (Z.of_nat i)); [|lia|now rewrite Nat2Z.id].
    apply lookup_lt_Some in Hi. lia.
  - right. exists (take (Z.to_nat r) ks), (drop (S (Z.to_nat r)) ks).
    split; [symmetry; now apply take_drop_middle|]. f_equal. rewrite length_take. lia.
Qed.

Lemma lower_bound_spec ks sp k k0 :
  sorted ks -> Z.of_nat (length ks) <= 2 ^ 30 -> k0 ∈ ks -> k0 < k ->
  exists a b, ks = a ++ b /\
    lower_bound (Some (ks ++ sp)) (Z.of_nat (length ks)) k = Ok (Z.of_nat (length a)) /\
    Forall (fun x => x < k) a /\ Forall (fun x => k <= x) b.
Proof.
  intros Hs Hl [i0 H0]%list_elem_of_lookup Hk. pose proof (lookup_lt_Some _ _ _ H0) as Hi0. unfold lower_bound.
  destruct (bound_loop_spec ks sp k Hs Hl 31 0 (Z.of_nat (length ks))) as (r & E & Hr & H1 & H2); try lia.
  { intros x Hx%lookup_lt_Some. lia. }
  exists (take (Z.to_nat r) ks), (drop (Z.to_nat r) ks). split; [symmetry; apply take_drop|].
  split; [rewrite E; f_equal; rewrite length_take; lia|]. split; apply Forall_lookup.
  - intros i x Hx. apply lookup_take_Some in Hx as [Hx Hi]. destruct i as [|i].
    + pose proof (sorted_lookup _ _ _ _ _ Hs H0 Hx). lia.
    + apply (H1 (Z.of_nat (S i)) x); [lia|now rewrite Nat2Z.id].
  - intros i x Hx. rewrite lookup_drop in Hx.
    destruct (lookup_lt_is_Some_2 ks (Z.to_nat r)) as [y Hy]; [apply lookup_lt_Some in Hx; lia|].
    pose proof (H2 y Hy). pose proof (sorted_lookup _ _ _ _ _ Hs Hx Hy). lia.
Qed.

Lemma sorted_app a b :
  sorted (a ++ b) <-> sorted a /\ sorted b /\ forall x y, x ∈ a -> y ∈ b -> x < y.
Proof.
  unfold sorted. induction a as [|z a IH]; cbn.
  { split; [intros H|intros (_ & H & _)]; [|done]. split; [constructor|]. split; [done|]. set_solver. }
  split.
  - intros [H1 H2]%StronglySorted_inv. apply IH in H1 as (Ha & Hb & Hab).
    apply Forall_app in H2 as [H2 H3]. split; [now constructor|]. split; [done|].
    intros x y [->|Hx]%elem_of_cons Hy; [rewrite Forall_forall in H3; now apply H3|now apply Hab].
  - intros ([H1 H2]%StronglySorted_inv & Hb & Hab). constructor.
    + apply IH. split; [done|]. split; [done|]. intros x y Hx Hy. apply Hab; set_solver.
    + apply Forall_app. split; [done|]. apply Forall_forall. intros y Hy. apply Hab; set_solver.
Qed.

Lemma sorted_middle a k b :
  sorted (a ++ k :: b) <->
  sorted (a ++ b) /\ Forall (fun x => x < k) a /\ Forall (fun x => k < x) b.
Proof.
  rewrite !sorted_app, !Forall_forall. unfold sorted. split.
  - intros (Ha & [Hb Hkb]%StronglySorted_inv & Hab). rewrite Forall_forall in Hkb. set_solver.
  - intros ((Ha & Hb & Hab) & Hak & Hkb). split; [done|]. split; [now constructor; [|apply Forall_forall]|].
    intros x y Hx [->|Hy]%elem_of_cons; auto.
Qed.

(** ** Refinement to a finite map

    [G] are the values that fresh memory may hold. *)
Section Refinement.
  Context (G : Z -> Prop).

Definition contents (ks vs : list Z) : gmap Z Z := list_to_map (zip ks vs).

Record holds (m : arraymap) (ks vs sk sv : list Z) : Prop := Holds {
  h_keys : keys m = Some (ks ++ sk);
  h_vals : vals m = Some (vs ++ sv);
  h_cur : cur_size m = Z.of_nat (length ks);
  h_len : length vs = length ks;
  h_spare : length sv = length sk;
  h_max : max_size m = Z.of_nat (length ks + length sk);
  h_u16 : max_size m < 2 ^ 16;
  h_sorted : sorted ks;
  h_fresh : Forall G sk;
}.

Definition am_rep (m : arraymap) (t : gmap Z Z) : Prop :=
  exists ks vs sk sv, holds m ks vs sk sv /\ t = contents ks vs.

Lemma contents_middle a a' k v b b' :
  length a = length a' -> k ∉ a -> contents (a ++ k :: b) (a' ++ v :: b') = <[k:=v]> (contents (a ++ b) (a' ++ b')).
Proof.
  intros Hl Hk. unfold contents. rewrite !zip_with_app by done. cbn. rewrite !list_to_map_app. cbn.
  rewrite insert_union_r; [done|]. apply not_elem_of_list_to_map_1. rewrite fst_zip by lia. done.
Qed.

Lemma contents_None ks vs k : length vs = length ks -> contents ks vs !! k = None <-> k ∉ ks.
Proof.
  intros Hl. unfold contents. split.
  - intros H%not_elem_of_list_to_map_2. now rewrite fst_zip in H by lia.
  - intros H. apply not_elem_of_list_to_map_1. now rewrite fst_zip by lia.
Qed.

Lemma contents_size ks vs : sorted ks -> length vs = length ks -> size (contents ks vs) = length ks.
Proof.
  revert vs. induction ks as [|k ks IH]; intros [|v vs] Hs Hl; try done. injection Hl as Hl.
  apply StronglySorted_inv in Hs as [Hs Hk]. unfold contents in *. cbn.
  rewrite map_size_insert_None; [now rewrite IH|]. apply contents_None; [done|].
  intros Hin. rewrite Forall_forall in Hk. specialize (Hk k Hin). lia.
Qed.

Lemma holds_small m ks vs sk sv : holds m ks vs sk sv -> Z.of_nat (length ks) < 2 ^ 16.
Proof. intros []. lia. Qed.

Lemma arraymap_get_spec m t k : am_rep m t -> arraymap_get m k = Ok (default 0 (t !! k)).
Proof.
  intros (ks & vs & sk & sv & H & ->). pose proof (holds_small _ _ _ _ _ H) as Hsm. destruct H.
  unfold arraymap_get. rewrite h_keys0, h_vals0, h_cur0.
  destruct (binary_search_spec ks sk k) as [[Hk ->]|(a & b & -> & ->)]; [done|lia|..]; cbn [mbind res_bind].
  { now rewrite (proj2 (contents_None ks vs k h_len0)) by done. }
  rewrite length_app in h_len0. cbn in h_len0. rewrite (proj2 (Z.eqb_neq _ _)) by lia.
  rewrite <- (take_drop (length a) vs). destruct (drop (length a) vs) as [|v b'] eqn:Eb.
  { apply (f_equal length) in Eb. rewrite length_drop in Eb. cbn in Eb. lia. }
  assert (La : length (take (length a) vs) = length a) by (rewrite length_take; lia).
  rewrite <- (assoc_L (++)). cbn [app]. rewrite word_at_app by lia.
  apply sorted_middle in h_sorted0 as (_ & Hlt & _). rewrite contents_middle by
    (done || intros Hin; rewrite Forall_forall in Hlt; specialize (Hlt k Hin); lia).
  now rewrite lookup_insert_eq.
Qed.

(** Keys can be set that are present or fit in, and that are greater than some key. *)
Definition settable (max : Z) (t : gmap Z Z) (k : Z) : Prop :=
  (t = ∅ /\ 0 < max) \/
  ((exists k0, is_Some (t !! k0) /\ k0 < k) /\ (is_Some (t !! k) \/ (Z.of_nat (size t) < max /\ ~ G k))).

Lemma holds_elem ks vs k : length vs = length ks -> is_Some (contents ks vs !! k) -> k ∈ ks.
Proof.
  intros Hl Hk. destruct (decide (k ∈ ks)) as [|Hn]; [done|].
  apply (contents_None ks vs) in Hn; [|done]. rewrite Hn in Hk. now destruct Hk.
Qed.

(** The entries of both arrays, split where the keys are split. *)
Lemma split_vals {a b vs : list Z} :
  length vs = length (a ++ b) -> exists a' b', vs = a' ++ b' /\ length a = length a' /\ length b = length b'.
Proof.
  intros H. rewrite length_app in H. exists (take (length a) vs), (drop (length a) vs).
  split; [symmetry; apply take_drop|]. rewrite length_take, length_drop. lia.
Qed.

Lemma set_update m a k b vs sk sv v nk nv :
  holds m (a ++ k :: b) vs sk sv -> a <> [] ->
  lower_bound (Some ((a ++ k :: b) ++ sk)) (Z.of_nat (length (a ++ k :: b))) k = Ok (Z.of_nat (length a)) ->
  exists m' vs', arraymap_set m k v nk nv = Ok m' /\ holds m' (a ++ k :: b) vs' sk sv /\
    max_size m' = max_size m /\ contents (a ++ k :: b) vs' = <[k:=v]> (contents (a ++ k :: b) vs).
Proof.
  intros H Ha E. pose proof H as []. destruct (split_vals h_len0) as (a' & [|v0 b'] & -> & La & Lb); [done|].
  unfold arraymap_set. rewrite h_keys0, h_vals0, h_cur0, E.
  rewrite (proj2 (Z.eqb_neq _ _)) by (rewrite length_app; cbn; lia). cbn [mbind res_bind].
  rewrite <- (assoc_L (++)). cbn [app]. rewrite word_at_app by done. cbn [mbind res_bind].
  rewrite Z.eqb_refl, <- (assoc_L (++)). cbn [app]. rewrite set_word_app by lia. cbn [mbind res_bind].
  eexists _, (a' ++ v :: b'). split; [reflexivity|].
  assert (Hk : k ∉ a).
  { apply sorted_middle in h_sorted0 as (_ & Hlt & _). rewrite Forall_forall in Hlt. intros Hin%Hlt. lia. }
  split; [|split; [done|]].
  - constructor; cbn [keys vals cur_size max_size]; rewrite <- ?(assoc_L (++)); try done.
    rewrite !length_app in h_len0 |- *. cbn in h_len0 |- *. lia.
  - rewrite !contents_middle by done. now rewrite insert_insert_eq.
Qed.

Lemma set_insert m a b vs sk sv k v nk nv :
  holds m (a ++ b) vs sk sv -> a <> [] -> sk <> [] -> ~ G k ->
  lower_bound (Some ((a ++ b) ++ sk)) (Z.of_nat (length (a ++ b))) k = Ok (Z.of_nat (length a)) ->
  Forall (fun x => x < k) a -> Forall (fun x => k < x) b ->
  exists m' vs' sk' sv', arraymap_set m k v nk nv = Ok m' /\ holds m' (a ++ k :: b) vs' sk' sv' /\
    max_size m' = max_size m /\ contents (a ++ k :: b) vs' = <[k:=v]> (contents (a ++ b) vs).
Proof.
  intros H Ha Hsk Hg E Hlt Hgt. pose proof H as []. destruct (split_vals h_len0) as (a' & b' & -> & La & Lb).
  destruct sk as [|x sk]; [done|]. destruct sv as [|x' sv]; [done|].
  rewrite length_app in h_max0. cbn in h_max0.
  unfold arraymap_set. rewrite h_keys0, h_vals0, h_cur0, E.
  rewrite (proj2 (Z.eqb_neq _ _)) by (rewrite length_app; destruct a; cbn; [done|lia]). cbn [mbind res_bind].
  assert (Hw : exists y, word_at (Some ((a ++ b) ++ x :: sk)) (Z.of_nat (length a)) = Ok y /\ (y =? k) = false).
  { destruct b as [|y b].
    - rewrite app_nil_r. exists x. split; [now apply word_at_app|]. apply Z.eqb_neq. intros ->.
      inversion h_fresh0; done.
    - exists y. rewrite <- (assoc_L (++)). split; [now apply word_at_app|]. apply Z.eqb_neq.
      inversion Hgt; lia. }
  destruct Hw as (y & -> & Hy). cbn [mbind res_bind]. rewrite Hy.
  rewrite (proj2 (Z.leb_gt _ _)) by (rewrite length_app; cbn in h_max0; lia). cbn [mbind res_bind].
  rewrite h_keys0, h_vals0, h_cur0, <- !(assoc_L (++)).
  replace (Z.to_nat _) with (length b) by (rewrite length_app; lia).
  rewrite shift_up_spec by (rewrite ?length_app; lia || done). cbn [mbind res_bind].
  rewrite !set_word_app by lia. cbn [mbind res_bind].
  eexists _, (a' ++ v :: b'), sk, sv. split; [reflexivity|].
  assert (Hk : k ∉ a) by (intros Hin; rewrite Forall_forall in Hlt; specialize (Hlt k Hin); lia).
  split; [|split; [done|now apply contents_middle]].
  constructor; cbn [keys vals cur_size max_size]; rewrite <- ?(assoc_L (++)); try done.
  - rewrite u16_small; rewrite !length_app; cbn; pow_cst; lia.
  - rewrite !length_app. cbn. lia.
  - now injection h_spare0.
  - rewrite !length_app. cbn. lia.
  - now apply sorted_middle.
  - now inversion h_fresh0.
Qed.

Lemma contents_empty ks vs : sorted ks -> length vs = length ks -> contents ks vs = ∅ -> ks = [].
Proof.
  intros Hs Hl H. pose proof (contents_size ks vs Hs Hl) as E. rewrite H, map_size_empty in E.
  now destruct ks.
Qed.

Lemma set_first m t k v nk nv :
  am_rep m t -> t = ∅ -> 0 < max_size m ->
  exists m', arraymap_set m k v nk nv = Ok m' /\ am_rep m' (<[k:=v]> t) /\ max_size m' = max_size m.
Proof.
  intros (ks & vs & sk & sv & H & Et) E0 Hm. pose proof H as []. rewrite Et in E0.
  assert (ks = []) as -> by now apply (contents_empty ks vs). destruct vs; [|done].
  destruct sk as [|x sk]; [cbn in h_max0; lia|]. destruct sv as [|x' sv]; [done|].
  unfold arraymap_set. rewrite h_keys0, h_vals0, h_cur0. cbn [length Z.of_nat Z.eqb app].
  change (x :: sk) with ([] ++ x :: sk). change (x' :: sv) with ([] ++ x' :: sv).
  rewrite !set_word_app by done. cbn [mbind res_bind app].
  eexists. split; [reflexivity|]. split; [|done]. exists [k], [v], sk, sv. split; [|now subst t].
  constructor; cbn [keys vals cur_size max_size length] in *; try done; try lia.
  - repeat constructor.
  - now inversion h_fresh0.
Qed.

Lemma arraymap_set_spec m t k v nk nv :
  am_rep m t -> settable (max_size m) t k ->
  exists m', arraymap_set m k v nk nv = Ok m' /\ am_rep m' (<[k:=v]> t) /\ max_size m' = max_size m.
Proof.
  intros R [[E0 Hm]|[(k0 & Hk0 & Hlt) Hk]]; [now apply set_first|].
  destruct R as (ks & vs & sk & sv & H & ->). pose proof (holds_small _ _ _ _ _ H) as Hsm. pose proof H as [].
  apply holds_elem in Hk0; [|done].
  destruct (lower_bound_spec ks sk k k0) as (a & b & -> & E & Ha & Hb); [done|lia|done|done|].
  assert (Hne : a <> []).
  { intros ->. rewrite Forall_forall in Hb. specialize (Hb k0 Hk0). lia. }
  assert (Hb' : (exists b', b = k :: b') \/ Forall (fun x => k < x) b).
  { apply sorted_app in h_sorted0 as (_ & Hs & _). destruct b as [|y b]; [right; constructor|].
    apply StronglySorted_inv in Hs as [_ Hs]. inversion Hb as [|? ? Hy Hb0]; subst.
    destruct (decide (y = k)) as [->|]; [left; eauto|right; constructor; [lia|]].
    eapply Forall_impl; [exact Hs|]. cbn. intros z Hz. lia. }
  destruct Hb' as [[b' ->]|Hgt].
  - destruct (set_update m a k b' vs sk sv v nk nv H Hne E) as (m' & vs' & E' & H' & Hm & Ec).
    exists m'. split; [done|]. split; [|done]. exists (a ++ k :: b'), vs', sk, sv. now split.
  - destruct Hk as [Hk|[Hsz Hg]].
    { exfalso. apply holds_elem, elem_of_app in Hk as [Hk|Hk]; [..|done];
      rewrite Forall_forall in Ha, Hgt; [specialize (Ha k Hk)|specialize (Hgt k Hk)]; lia. }
    rewrite contents_size in Hsz by done.
    assert (sk <> []) by (intros ->; cbn in h_max0; lia).
    destruct (set_insert m a b vs sk sv k v nk nv) as (m' & vs' & sk' & sv' & E' & H' & Hm & Ec); try done.
    exists m'. split; [done|]. split; [|done]. exists (a ++ k :: b), vs', sk', sv'. now split.
Qed.

Lemma arraymap_del_spec m t k :
  G 0 -> am_rep m t -> (is_Some (t !! k) -> Z.of_nat (size t) < max_size m) ->
  exists m', arraymap_del m k = Ok m' /\ am_rep m' (delete k t) /\ max_size m' = max_size m.
Proof.
  intros G0 (ks & vs & sk & sv & H & ->) Hroom. pose proof (holds_small _ _ _ _ _ H) as Hsm.
  pose proof H as []. unfold arraymap_del. rewrite h_keys0, h_vals0, h_cur0.
  destruct (binary_search_spec ks sk k) as [[Hk ->]|(a & b & -> & ->)]; [done|lia|..]; cbn [mbind res_bind].
  { exists m. split; [done|]. split; [|done]. exists ks, vs, sk, sv. split; [done|].
    apply delete_id. now apply contents_None. }
  destruct (split_vals h_len0) as (a' & [|v b'] & -> & La & Lb); [done|]. injection Lb as Lb.
  pose proof h_sorted0 as (Hs & Hlt & Hgt)%sorted_middle.
  assert (Hka : k ∉ a) by (intros Hin; rewrite Forall_forall in Hlt; specialize (Hlt k Hin); lia).
  assert (Hkb : k ∉ b) by (intros Hin; rewrite Forall_forall in Hgt; specialize (Hgt k Hin); lia).
  rewrite contents_size in Hroom by done. rewrite contents_middle in * by done.
  specialize (Hroom (ex_intro _ v (lookup_insert_eq _ _ _))). rewrite length_app in *. cbn in h_max0, Hroom, Hsm.
  destruct sk as [|s sk]; [cbn in h_max0; lia|]. destruct sv as [|s' sv]; [done|].
  rewrite (proj2 (Z.eqb_neq _ _)) by lia. cbn [length].
  replace (Z.to_nat _) with (S (length b)) by lia.
  assert (E : forall (p q : list Z) x y r, (p ++ x :: q) ++ y :: r = p ++ x :: (q ++ [y]) ++ r)
    by (intros; now rewrite <- !(assoc_L (++))).
  rewrite !E, shift_down_spec by (rewrite ?length_app; cbn; lia). cbn [mbind res_bind].
  rewrite !last_snoc. cbn [default]. rewrite u16_small by (pow_cst; lia).
  assert (E' : forall (p q : list Z) y r, p ++ (q ++ [y]) ++ r = (p ++ q) ++ y :: r)
    by (intros; now rewrite <- !(assoc_L (++))).
  rewrite !E', !set_word_app by (rewrite length_app; lia). cbn [mbind res_bind].
  eexists. split; [reflexivity|]. split; [|done]. exists (a ++ b), (a' ++ b'), (0 :: s :: sk), (0 :: s' :: sv).
  split; [|apply delete_insert_id, contents_None; rewrite ?length_app; [lia|set_solver]].
  constructor; cbn [keys vals cur_size max_size length] in *; rewrite ?length_app; try done; try lia.
  constructor; done.
Qed.
End Refinement.
