(* ===== verification/MapsProps.v ===== *)
(** * Properties of the array map

    Sequences of calls of [libebpf/src/map.c] against a finite map, the limits of the
    map, termination of its searches, and the growing array. *)
From stdpp Require Import base tactics numbers list gmap sorting.
From Stdlib Require Import ZArith Lia.
From S2P Require Import Prelude Maps.
Local Open Scope Z_scope.

(** ** Sequences of calls *)
Inductive map_call :=
| CSet (key val : Z) (nk nv : block)
| CGet (key : Z)
| CDel (key : Z).

(** A call and the value it returns, 0 for the ones that return nothing. *)
Definition do_call (m : arraymap) (c : map_call) : res (arraymap * Z) :=
  match c with
  | CSet k v nk nv => m ← arraymap_set m k v nk nv; Ok (m, 0)
  | CGet k => v ← arraymap_get m k; Ok (m, v)
  | CDel k => m ← arraymap_del m k; Ok (m, 0)
  end.

Fixpoint do_calls (cs : list map_call) (m : arraymap) : res (arraymap * list Z) :=
  match cs with
  | [] => Ok (m, [])
  | c :: cs =>
      '(m, v) ← do_call m c;
      '(m, vs) ← do_calls cs m;
      Ok (m, v :: vs)
  end.

(** The same calls on a finite map. *)
Definition spec_call (t : gmap Z Z) (c : map_call) : gmap Z Z * Z :=
  match c with
  | CSet k v _ _ => (<[k:=v]> t, 0)
  | CGet k => (t, default 0 (t !! k))
  | CDel k => (delete k t, 0)
  end.

Fixpoint spec_calls (cs : list map_call) (t : gmap Z Z) : gmap Z Z * list Z :=
  match cs with
  | [] => (t, [])
  | c :: cs =>
      let '(t, v) := spec_call t c in
      let '(t, vs) := spec_calls cs t in
      (t, v :: vs)
  end.

(** The calls that the map supports. *)
Definition supported (G : Z -> Prop) (max : Z) (t : gmap Z Z) (c : map_call) : Prop :=
  match c with
  | CSet k _ _ _ => settable G max t k
  | CGet _ => True
  | CDel k => is_Some (t !! k) -> Z.of_nat (size t) < max
  end.

Fixpoint all_supported (G : Z -> Prop) (max : Z) (t : gmap Z Z) (cs : list map_call) : Prop :=
  match cs with
  | [] => True
  | c :: cs => supported G max t c /\ all_supported G max (spec_call t c).1 cs
  end.

Lemma do_call_spec G m t c :
  G 0 -> am_rep G m t -> supported G (max_size m) t c ->
  exists m', do_call m c = Ok (m', (spec_call t c).2) /\ am_rep G m' (spec_call t c).1 /\
    max_size m' = max_size m.
Proof.
  intros G0 R. destruct c as [k v nk nv|k|k]; cbn [do_call spec_call supported fst snd]; intros Hc.
  - destruct (arraymap_set_spec G m t k v nk nv R Hc) as (m' & -> & R' & Hm). now exists m'.
  - rewrite (arraymap_get_spec G m t k R). now exists m.
  - destruct (arraymap_del_spec G m t k G0 R Hc) as (m' & -> & R' & Hm). now exists m'.
Qed.

Lemma do_calls_spec G cs m t :
  G 0 -> am_rep G m t -> all_supported G (max_size m) t cs ->
  exists m', do_calls cs m = Ok (m', (spec_calls cs t).2) /\ am_rep G m' (spec_calls cs t).1.
Proof.
  intros G0. revert m t. induction cs as [|c cs IH]; intros m t R Hc.
  { exists m. now split. }
  destruct Hc as [Hc Hcs]. destruct (do_call_spec G m t c G0 R Hc) as (m1 & E1 & R1 & Hm).
  rewrite <- Hm in Hcs. destruct (IH m1 _ R1 Hcs) as (m2 & E2 & R2). exists m2.
  cbn [do_calls spec_calls]. rewrite E1. cbn [mbind res_bind]. rewrite E2. cbn [mbind res_bind].
  destruct (spec_call t c) as [t1 v]. cbn [fst snd] in *. destruct (spec_calls cs t1) as [t2 vs]. done.
Qed.

Lemma new_rep G n kb vb :
  0 <= n < 2 ^ 16 -> Z.of_nat (length kb) = n -> length vb = length kb -> Forall G kb ->
  exists m, arraymap_new n true (Some kb) (Some vb) = Ok m /\ max_size m = n /\ am_rep G m ∅.
Proof.
  intros Hn Hk Hv HG. eexists. split; [reflexivity|]. cbn [max_size]. rewrite u16_small by done.
  split; [done|]. exists [], [], kb, vb. split; [|done].
  constructor; cbn [keys vals cur_size max_size length app]; try done; try lia. constructor.
Qed.

(** ** Properties *)

(** C32 — The sorted map implements a finite map: when the three allocations of
    [arraymap_new] succeed, every sequence of calls after it returns what the same
    sequence on a finite map returns, as long as a key is set only when the map is empty
    or has a smaller key, a new key fits in and a key is deleted only when the map is not
    full. A new key must also be none of the values [G] that the words of the fresh block
    [kb] of keys hold, nor 0, what [arraymap_del] leaves behind: [arraymap_set] compares
    it with the word behind the last key, which was never initialised. *)
Theorem arraymap_refines G n kb vb cs :
  G 0 -> 0 <= n < 2 ^ 16 -> Z.of_nat (length kb) = n -> length vb = length kb -> Forall G kb ->
  all_supported G n ∅ cs ->
  exists m0 m, arraymap_new n true (Some kb) (Some vb) = Ok m0 /\
    do_calls cs m0 = Ok (m, (spec_calls cs ∅).2) /\ am_rep G m (spec_calls cs ∅).1.
Proof.
  intros G0 Hn Hk Hv HG Hc. destruct (new_rep G n kb vb Hn Hk Hv HG) as (m0 & E0 & Hm & R0).
  rewrite <- Hm in Hc. destruct (do_calls_spec G cs m0 ∅ G0 R0 Hc) as (m & E & R).
  exists m0, m. now split_and!.
Qed.

Definition sample_calls : list map_call :=
  [CSet 10 1 None None; CSet 30 3 None None; CSet 20 2 None None; CGet 20; CSet 30 4 None None;
   CGet 30; CDel 10; CGet 10; CGet 20; CSet 25 5 None None; CGet 25].

Lemma arraymap_refines_witness :
  exists m0 m, arraymap_new 4 true (Some (replicate 4 0)) (Some (replicate 4 0)) = Ok m0 /\
    do_calls sample_calls m0 = Ok (m, [0; 0; 0; 2; 0; 4; 0; 0; 2; 0; 5]) /\
    am_rep (fun z => z = 0) m (spec_calls sample_calls ∅).1.
Proof.
  destruct (arraymap_refines (fun z => z = 0) 4 (replicate 4 0) (replicate 4 0) sample_calls)
    as (m0 & m & E0 & E & R); [reflexivity|lia|reflexivity|reflexivity|repeat constructor| |].
  - cbn [all_supported sample_calls supported spec_call fst]. split_and!; try exact I.
    + left. split; [reflexivity|lia].
    + right. split; [exists 10; split; [vm_compute; eauto|lia]|right; vm_compute; split; congruence].
    + right. split; [exists 10; split; [vm_compute; eauto|lia]|right; vm_compute; split; congruence].
    + right. split; [exists 10; split; [vm_compute; eauto|lia]|left; vm_compute; eauto].
    + intros _. reflexivity.
    + right. split; [exists 20; split; [vm_compute; eauto|lia]|right; vm_compute; split; congruence].
  - exists m0, m. split; [exact E0|]. split; [exact E|exact R].
Defined.

Lemma word_at_0 x l : word_at (Some (x :: l)) 0 = Ok x.
Proof. exact (word_at_app [] x l 0 eq_refl). Qed.
Lemma word_at_1 x y l : word_at (Some (x :: y :: l)) 1 = Ok y.
Proof. exact (word_at_app [x] y l 1 eq_refl). Qed.
Lemma set_word_0 x l v : set_word (Some (x :: l)) 0 v = Ok (Some (v :: l)).
Proof. exact (set_word_app [] x l 0 v eq_refl). Qed.
Lemma set_word_1 x y l v : set_word (Some (x :: y :: l)) 1 v = Ok (Some (x :: v :: l)).
Proof. exact (set_word_app [x] y l 1 v eq_refl). Qed.

(** [binary_search] on two entries, the second of which is not greater. *)
Lemma binary_search_two x y l :
  y <= x -> binary_search (Some (x :: y :: l)) 2 y = Ok (if x =? y then 0 else -1).
Proof.
  intros H. unfold binary_search. generalize 30%nat as f. intros f.
  change (search_loop (S (S f)) (Some (x :: y :: l)) 0 1 y = Ok (if x =? y then 0 else -1)).
  assert (E : search_loop (S (S f)) (Some (x :: y :: l)) 0 1 y =
    (m ← word_at (Some (x :: y :: l)) 0;
     if m =? y then Ok 0 else if y <? m then Ok (-1) else search_loop (S f) (Some (x :: y :: l)) 1 1 y))
    by reflexivity.
  rewrite E, word_at_0. cbn [mbind res_bind].
  destruct (Z.eqb_spec x y); [done|]. now rewrite (proj2 (Z.ltb_lt _ _)) by lia.
Qed.

(** The first key is never found by [lower_bound], which starts behind it: when a second
    key is set that is not greater, it is lost, or shadowed by the first when they are
    equal, so that the value of the first key can never be changed. *)
Theorem arraymap_first_key k1 k2 v1 v2 n g1 g2 h1 h2 kb vb nk nv :
  k2 <= k1 -> g2 <> k2 -> 2 <= n < 2 ^ 16 ->
  exists m0 m1 m2, arraymap_new n true (Some (g1 :: g2 :: kb)) (Some (h1 :: h2 :: vb)) = Ok m0 /\
    arraymap_set m0 k1 v1 nk nv = Ok m1 /\ arraymap_set m1 k2 v2 nk nv = Ok m2 /\
    arraymap_get m2 k2 = Ok (if k1 =? k2 then v1 else 0).
Proof.
  intros Hk Hg Hn.
  exists (Arraymap n 0 (Some (g1 :: g2 :: kb)) (Some (h1 :: h2 :: vb))),
    (Arraymap n 1 (Some (k1 :: g2 :: kb)) (Some (v1 :: h2 :: vb))),
    (Arraymap n 2 (Some (k1 :: k2 :: kb)) (Some (v1 :: v2 :: vb))).
  split; [unfold arraymap_new; now rewrite u16_small by lia|]. unfold arraymap_set, arraymap_get.
  cbn [cur_size max_size keys vals Z.eqb]. rewrite !set_word_0. cbn [mbind res_bind].
  change (lower_bound _ 1 k2) with (Ok 1). cbn [mbind res_bind]. rewrite word_at_1. cbn [mbind res_bind].
  rewrite (proj2 (Z.eqb_neq _ _) Hg), (proj2 (Z.leb_gt _ _)) by lia. cbn [mbind res_bind cur_size max_size keys vals].
  change (Z.to_nat (1 - 1)) with 0%nat. cbn [shift_up mbind res_bind]. rewrite !set_word_1.
  split; [done|]. split; [done|]. rewrite binary_search_two by done. cbn [mbind res_bind].
  destruct (k1 =? k2); [now rewrite word_at_0|done].
Qed.

Lemma arraymap_first_key_witness :
  exists m0 m1 m2, arraymap_new 4 true (Some [0; 0; 0; 0]) (Some [0; 0; 0; 0]) = Ok m0 /\
    arraymap_set m0 5 50 None None = Ok m1 /\ arraymap_set m1 3 30 None None = Ok m2 /\
    arraymap_get m2 3 = Ok 0.
Proof. apply (arraymap_first_key 5 3 50 30 4 0 0 0 0 [0; 0] [0; 0] None None); lia. Defined.

(** The sizes that [arraymap_set] gives for blocks of [l] words. *)
Lemma realloc_overread (old new : list Z) l :
  Z.of_nat (length old) = l ->
  ebpf_realloc (Some old) (darray_size + l * ptr_size) ((l + MAP_GROW) * ptr_size) (Some new) = Crash ArrayOOB.
Proof.
  intros Ho. unfold ebpf_realloc, darray_size, ptr_size, MAP_GROW.
  rewrite (proj2 (Z.eqb_neq _ _)), (proj2 (Z.leb_gt _ _)) by lia.
  replace (Z.to_nat ((8 + l * 4) / 4)) with (S (S (length old))) by (Z.div_mod_to_equations; lia).
  now rewrite (proj2 (Nat.leb_gt _ _)) by lia.
Qed.

Lemma realloc_null (old : list Z) l :
  Z.of_nat (length old) = l ->
  ebpf_realloc (Some old) (darray_size + l * ptr_size) ((l + MAP_GROW) * ptr_size) None = Ok None.
Proof.
  intros Ho. unfold ebpf_realloc, darray_size, ptr_size, MAP_GROW.
  now rewrite (proj2 (Z.eqb_neq _ _)), (proj2 (Z.leb_gt _ _)) by lia.
Qed.

(** The map cannot grow: setting a new key in a full map runs outside of a block, or
    through a null pointer, whatever the allocations return, since [ebpf_realloc] is
    told that the old block is two words longer than it is. *)
Theorem arraymap_cannot_grow G m t k k0 v nk nv :
  am_rep G m t -> Z.of_nat (size t) = max_size m -> t !! k = None -> is_Some (t !! k0) -> k0 < k ->
  exists f, arraymap_set m k v nk nv = Crash f.
Proof.
  intros (ks & vs & sk & sv & H & ->) Hfull Hk Hk0 Hlt. pose proof (holds_small _ _ _ _ _ _ H) as Hsm.
  pose proof H as [Ek Ev Ec El Es Em Eu Eo Ef]. rewrite contents_size in Hfull by done. rewrite Em in Hfull.
  assert (sk = []) as -> by (destruct sk; [done|cbn in Hfull; lia]). destruct sv; [|done].
  apply holds_elem in Hk0; [|done]. apply contents_None in Hk; [|done].
  destruct (lower_bound_spec ks [] k k0) as (a & b & -> & E & Ha & Hb); [done|lia|done|done|].
  unfold arraymap_set. rewrite Ek, Ev, Ec, Em, E.
  rewrite (proj2 (Z.eqb_neq _ _)) by (destruct a, b; cbn; try lia; set_solver). cbn [mbind res_bind].
  rewrite !app_nil_r. destruct b as [|y b].
  { rewrite app_nil_r, word_at_outside by done. now eexists. }
  rewrite word_at_app by done. cbn [mbind res_bind].
  rewrite (proj2 (Z.eqb_neq _ _)) by set_solver. rewrite (proj2 (Z.leb_le _ _)) by lia.
  set (l := Z.of_nat (length (a ++ y :: b) + length [])).
  assert (Hl : Z.of_nat (length (a ++ y :: b)) = l) by (unfold l; cbn; lia).
  assert (Hv : Z.of_nat (length vs) = l) by lia.
  destruct nk as [nk|]; [rewrite realloc_overread by done; now eexists|].
  rewrite realloc_null by done. cbn [mbind res_bind].
  destruct nv as [nv|]; [rewrite realloc_overread by done; now eexists|].
  rewrite realloc_null by done. cbn [mbind res_bind keys vals cur_size].
  replace (Z.to_nat _) with (S (length b)) by (rewrite length_app; cbn; lia). now eexists.
Qed.

Lemma arraymap_cannot_grow_witness :
  exists f, arraymap_set (Arraymap 2 2 (Some [1; 5]) (Some [10; 50])) 3 30 (Some (replicate 6 0)) (Some (replicate 6 0)) = Crash f.
Proof.
  apply (arraymap_cannot_grow (fun _ => True) _ (contents [1; 5] [10; 50]) 3 1 30);
    [|reflexivity|reflexivity|vm_compute; eauto|lia].
  exists [1; 5], [10; 50], [], []. split; [|reflexivity]. constructor; try reflexivity; [|constructor].
  repeat constructor; lia.
Defined.

(** ** Termination *)
Section Any.
  Context (l : list Z) (val : Z).
  Hypothesis Hfit : Z.of_nat (length l) <= 2 ^ 30.

Lemma word_in (i : Z) : 0 <= i < Z.of_nat (length l) -> exists x, l !! Z.to_nat i = Some x /\ word_at (Some l) i = Ok x.
Proof.
  intros Hi. destruct (lookup_lt_is_Some_2 l (Z.to_nat i)) as [x Hx]; [lia|]. exists x. split; [done|].
  apply word_at_Ok. split; [lia|done].
Qed.

Lemma search_loop_any fuel start end_ :
  0 <= start -> end_ < Z.of_nat (length l) -> end_ - start + 1 < 2 ^ Z.of_nat fuel ->
  exists r, search_loop (S fuel) (Some l) start end_ val = Ok r /\
    (r = -1 \/ start <= r <= end_ /\ l !! Z.to_nat r = Some val).
Proof.
  revert start end_. induction fuel as [|fuel IH]; intros start end_ Hs He Hf; cbn [search_loop];
    destruct (Z.leb_spec start end_) as [Hle|]; [cbn in Hf; lia|eauto| |eauto].
  rewrite Nat2Z.inj_succ, Z.pow_succ_r in Hf by lia. rewrite int_val_Ok by lia. cbn [mbind res_bind].
  set (mid := (start + end_) / 2).
  assert (Hm : start <= mid <= end_ /\ 2 * mid <= start + end_ < 2 * mid + 2)
    by (unfold mid; Z.div_mod_to_equations; lia).
  destruct (word_in mid) as (m & Hl & ->); [lia|]. cbn [mbind res_bind].
  destruct (Z.eqb_spec m val) as [-> |]; [exists mid; split; [done|right; split; [lia|done]]|].
  destruct (val <? m); [destruct (IH start (mid - 1)) as (r & E & Hr)|destruct (IH (mid + 1) end_) as (r & E & Hr)];
    try lia; exists r; (split; [done|]); (destruct Hr as [? |[? ?]]; [auto|right; split; [lia|done]]).
Qed.

Lemma bound_loop_any fuel start end_ :
  0 <= start < end_ -> end_ <= Z.of_nat (length l) -> end_ - start <= 2 ^ Z.of_nat fuel ->
  exists r, bound_loop (S fuel) (Some l) start end_ val = Ok r /\ start < r <= end_ /\
    (r < end_ -> exists x, l !! Z.to_nat r = Some x /\ val <= x) /\
    (start + 1 < r -> exists x, l !! Z.to_nat (r - 1) = Some x /\ x < val).
Proof.
  revert start end_. induction fuel as [|fuel IH]; intros start end_ Hs He Hf; cbn [bound_loop];
    destruct (Z.ltb_spec (start + 1) end_) as [Hlt|Hge]; [cbn in Hf; lia|..|]; cycle 1;
    try (exists end_; split; [done|]; split; [lia|]; split; lia).
  rewrite Nat2Z.inj_succ, Z.pow_succ_r in Hf by lia. rewrite int_val_Ok by lia. cbn [mbind res_bind].
  set (mid := (start + end_) / 2).
  assert (Hm : start < mid < end_ /\ 2 * mid <= start + end_ < 2 * mid + 2)
    by (unfold mid; Z.div_mod_to_equations; lia).
  destruct (word_in mid) as (m & Hl & ->); [lia|]. cbn [mbind res_bind]. destruct (Z.ltb_spec m val) as [Hmv|Hmv].
  - destruct (IH mid end_) as (r & E & Hr & H1 & H2); [lia..|]. exists r. split; [done|]. split; [lia|]. split; [done|].
    intros _. destruct (decide (mid + 1 < r)); [now apply H2|]. exists m. replace (r - 1) with mid by lia. done.
  - destruct (IH start mid) as (r & E & Hr & H1 & H2); [lia..|]. exists r. split; [done|]. split; [lia|]. split; [|done].
    intros _. destruct (decide (r < mid)); [now apply H1|]. exists m. replace r with mid by lia. done.
Qed.
End Any.

(** C34 — The searches return on any array, sorted or not, of up to 2^30 pointers, which
    are as many as the 32-bit address space has room for: after fewer than 32 rounds, without
    a read outside of the array and without an overflow of the sum of the two bounds.
    [binary_search] returns -1 or an index at which the value is. [lower_bound] returns
    the size, or an index behind the first at which the entry is not less than the value,
    and the entry before it is less, unless that is the first one. *)
Theorem searches_terminate l size val :
  0 <= size <= Z.of_nat (length l) -> Z.of_nat (length l) * ptr_size <= 2 ^ 32 ->
  (exists r, binary_search (Some l) size val = Ok r /\ (r = -1 \/ 0 <= r < size /\ l !! Z.to_nat r = Some val)) /\
  (exists r, lower_bound (Some l) size val = Ok r /\ 0 <= r <= size /\ (0 < size -> 0 < r) /\
     (r < size -> exists x, l !! Z.to_nat r = Some x /\ val <= x) /\
     (1 < r -> exists x, l !! Z.to_nat (r - 1) = Some x /\ x < val)).
Proof.
  intros Hs Hl. unfold ptr_size in Hl. assert (Hf : Z.of_nat (length l) <= 2 ^ 30) by lia. split.
  - unfold binary_search. rewrite int_val_Ok by lia. cbn [mbind res_bind].
    destruct (search_loop_any l val Hf 31 0 (size - 1)) as (r & E & Hr); [lia..|]. exists r. split; [done|].
    destruct Hr as [? |[? ?]]; [auto|right; split; [lia|done]].
  - unfold lower_bound. destruct (decide (size = 0)) as [-> |Hz]; [exists 0; split; [done|lia]|].
    destruct (bound_loop_any l val Hf 31 0 size) as (r & E & Hr & H1 & H2); [lia..|]. exists r. split; [done|].
    split; [lia|]. split; [lia|]. split; [done|]. exact H2.
Qed.

Lemma searches_terminate_witness :
  binary_search (Some [3; 1; 2]) 3 2 = Ok 2 /\
  (exists r, lower_bound (Some [3; 1; 2]) 3 2 = Ok r /\ 0 <= r <= 3).
Proof.
  split; [reflexivity|]. destruct (searches_terminate [3; 1; 2] 3 2) as [_ (r & E & Hr & _)]; [cbn; lia|unfold ptr_size; cbn [length]; lia|].
  exists r. split; [exact E|exact Hr].
Defined.

(** ** The growing array *)
Definition darray_wf (arr : darray) : Prop :=
  0 <= d_cur arr <= d_max arr /\ d_max arr = Z.of_nat (length (d_vals arr)).

Lemma find_free_spec n i l :
  0 <= i -> i + Z.of_nat n <= Z.of_nat (length l) ->
  (exists j, find_free n i l = Ok (Some j) /\ i <= j < i + Z.of_nat n /\ arr_get l j = Some 0) \/
  (find_free n i l = Ok None /\ forall j, i <= j < i + Z.of_nat n -> arr_get l j <> Some 0).
Proof.
  revert i. induction n as [|n IH]; intros i Hi Hn; cbn [find_free].
  { right. split; [done|]. lia. }
  destruct (arr_get l i) as [v|] eqn:E; [|apply arr_get_None in E; lia]. cbn [of_option mbind res_bind].
  destruct (Z.eqb_spec v 0) as [->|Hv]; [left; exists i; split; [done|]; split; [lia|done]|].
  destruct (IH (i + 1)) as [(j & Ej & Hj & H0)|[Ej Hj]]; [lia..| |].
  - left. exists j. split; [done|]. split; [lia|done].
  - right. split; [done|]. intros j Hr. destruct (decide (j = i)) as [->|]; [congruence|apply Hj; lia].
Qed.

(** Storing at [i] into [l], which starts with the entries of [arr]. *)
Lemma darray_stored arr i v l cur max :
  darray_wf arr -> 0 <= i <= d_cur arr -> cur = Z.max (d_cur arr) (i + 1) -> cur <= max ->
  max = Z.of_nat (length l) ->
  (forall j, 0 <= j < d_cur arr -> arr_get l j = arr_get (d_vals arr) j) ->
  exists l', arr_set l i v = Some l' /\ darray_wf (Darray cur max l') /\
    darray_get (Darray cur max l') i = Ok v /\
    forall j, 0 <= j -> j <> i -> darray_get (Darray cur max l') j = darray_get arr j.
Proof.
  intros [Hc Hm] Hi Ecur Hcm Hmax Hl. rewrite arr_set_in by lia. eexists. split; [reflexivity|].
  assert (Es : arr_set l i v = Some (<[Z.to_nat i:=v]> l)) by (apply arr_set_in; lia).
  split; [split; cbn [d_cur d_max d_vals]; [lia|now rewrite length_insert]|].
  unfold darray_get. cbn [d_cur d_max d_vals]. split.
  - rewrite (proj2 (Z.ltb_lt _ _)) by lia. now rewrite (arr_get_set_eq _ _ _ _ Es).
  - intros j Hj Hne. rewrite (arr_get_set_ne _ _ _ _ _ Es) by done.
    destruct (Z.ltb_spec j (d_cur arr)) as [Hlt|Hge].
    + rewrite (proj2 (Z.ltb_lt _ _)) by lia. now rewrite Hl by lia.
    + now rewrite (proj2 (Z.ltb_ge _ _)) by lia.
Qed.

Lemma darray_grown arr (new : list Z) c :
  darray_wf arr -> Z.of_nat (length new) = d_max arr + MAP_GROW + 2 ->
  ebpf_realloc (Some (c :: d_max arr :: d_vals arr)) (darray_size + d_max arr * ptr_size)
    (darray_size + (d_max arr + MAP_GROW) * ptr_size) (Some new) =
  Ok (Some (c :: d_max arr :: d_vals arr ++ drop (S (S (length (d_vals arr)))) new)).
Proof.
  intros [Hc Hm] Hn. unfold darray_size, ptr_size, MAP_GROW in *.
  rewrite realloc_grows; [done|lia|lia|unfold ptr_size; cbn [length]; lia|cbn [length]; lia].
Qed.

(** [darray_add] stores the value in a slot that read as NULL, so that [darray_get] finds
    it there, and changes no other slot. When there is no free slot and the array is full
    it is moved: the block the caller has the address of is freed. *)
Theorem darray_add_spec arr v new :
  darray_wf arr -> Z.of_nat (length new) = d_max arr + MAP_GROW + 2 ->
  exists i arr' moved, darray_add arr v (Some new) = Ok (i, arr', moved) /\ darray_wf arr' /\
    darray_get arr i = Ok 0 /\ darray_get arr' i = Ok v /\
    (forall j, 0 <= j -> j <> i -> darray_get arr' j = darray_get arr j) /\
    (moved = true <-> d_max arr <= d_cur arr + 1 /\ forall j, 0 <= j < d_cur arr -> darray_get arr j <> Ok 0).
Proof.
  intros Hwf Hnew. pose proof Hwf as [Hc Hm]. unfold darray_add.
  assert (Hget : forall j, 0 <= j < d_cur arr -> darray_get arr j = of_option ArrayOOB (arr_get (d_vals arr) j)).
  { intros j Hj. unfold darray_get. now rewrite (proj2 (Z.ltb_lt _ _)) by lia. }
  destruct (find_free_spec (Z.to_nat (d_cur arr)) 0 (d_vals arr)) as [(i & -> & Hi & H0)|[-> Hfull]];
    [lia..| |]; cbn [mbind res_bind].
  { destruct (darray_stored arr i v (d_vals arr) (d_cur arr) (d_max arr)) as (l & -> & W & G1 & G2);
      [done|lia..|done|]. cbn [of_option mbind res_bind]. eexists i, _, false. split; [reflexivity|].
    split; [done|]. rewrite Hget, H0 by lia. split_and!; try done. split; [done|]. intros [_ H]. exfalso.
    apply (H i); [lia|]. now rewrite Hget, H0 by lia. }
  assert (Hf : forall j, 0 <= j < d_cur arr -> darray_get arr j <> Ok 0).
  { intros j Hj. rewrite Hget by done. specialize (Hfull j). destruct (arr_get (d_vals arr) j) eqn:E; [|done].
    cbn. intros [= ->]. apply Hfull; [lia|done]. }
  assert (Hend : darray_get arr (d_cur arr) = Ok 0) by (unfold darray_get; now rewrite Z.ltb_irrefl).
  destruct (Z.leb_spec (d_max arr) (d_cur arr + 1)) as [Hg|Hg].
  - rewrite darray_grown by done. set (tail := drop (S (S (length (d_vals arr)))) new).
    assert (Ht : length tail = 4%nat) by (unfold tail, MAP_GROW in *; rewrite length_drop; lia).
    cbn [of_option mbind res_bind drop]. rewrite drop_0.
    destruct (darray_stored arr (d_cur arr) v (d_vals arr ++ tail)
      (d_cur arr + 1) (d_max arr + MAP_GROW)) as (l & -> & W & G1 & G2); try done; unfold MAP_GROW in *; try lia.
    + rewrite length_app. lia.
    + intros j Hj. unfold arr_get. rewrite length_app. rewrite !(proj2 (Z.leb_le _ _)) by lia.
      rewrite !(proj2 (Z.ltb_lt _ _)) by lia. cbn. now rewrite lookup_app_l by lia.
    + cbn [of_option mbind res_bind]. eexists _, _, true. split; [reflexivity|]. now split_and!.
  - destruct (darray_stored arr (d_cur arr) v (d_vals arr) (d_cur arr + 1) (d_max arr)) as (l & -> & W & G1 & G2);
      [done|lia..|done|]. cbn [of_option mbind res_bind]. eexists _, _, false. split; [reflexivity|].
    split_and!; try done. split; [done|lia].
Qed.

Lemma darray_add_spec_witness :
  exists i arr' moved,
    darray_add (Darray 2 3 [7; 0; 0]) 9 (Some (replicate 9 0)) = Ok (i, arr', moved) /\ darray_get arr' i = Ok 9.
Proof.
  destruct (darray_add_spec (Darray 2 3 [7; 0; 0]) 9 (replicate 9 0)) as (i & arr' & moved & E & _ & _ & G & _);
    [split; cbn; lia|reflexivity|]. exists i, arr', moved. split; [exact E|exact G].
Defined.
