(* ===== verification/HashMap.v ===== *)
(** * The hash map of libebpf

    [libebpf/src/ebpf_map.c]: the dynamic array [DArray] and the map [Hashmap] from C
    strings to pointers, eight buckets of at most ten nodes. Keys and values are
    pointers; [str] gives the bytes of the string at an address, which the map reads
    again at every call. Addresses and outcomes of allocations are arguments. *)
From stdpp Require Import base tactics numbers list gmap.
From Stdlib Require Import ZArith Lia.
From S2P Require Import Prelude Maps.
Local Open Scope Z_scope.
Local Open Scope bits_scope.

(** ** Dynamic arrays

    [contents] is the block of pointers, [None] if it is NULL; a pointer in it is
    [None] if it is NULL, or the object it refers to. *)
Record DArray (A : Type) := MkDArray {
  end_ : Z;
  max : Z;
  el_sz : Z;
  contents : option (list (option A));
}.
Arguments MkDArray {A} _ _ _ _.
Arguments end_ {A} _.
Arguments max {A} _.
Arguments el_sz {A} _.
Arguments contents {A} _.

Definition slot_get {A} (c : option (list (option A))) (i : Z) : res (option A) :=
  l ← of_option NullDeref c; of_option ArrayOOB (arr_get l i).

Definition slot_set {A} (c : option (list (option A))) (i : Z) (v : option A)
    : res (option (list (option A))) :=
  l ← of_option NullDeref c;
  l' ← of_option ArrayOOB (arr_set l i v);
  Ok (Some l').

(** What the two allocations of [DArray_create] return: whether they succeed. *)
Record alloc := Alloc { ok_struct : bool; ok_contents : bool }.

Definition DArray_create {A} (al : alloc) (el_sz initial_max : Z) : res (DArray A) :=
  if ok_struct al then
    Ok (MkDArray 0 initial_max el_sz
          (if ok_contents al then Some (replicate (Z.to_nat initial_max) None) else None))
  else Crash NullDeref.

Definition DArray_set {A} (arr : DArray A) (index : Z) (val : option A) : res (DArray A) :=
  if max arr <=? index then Ok arr
  else
    let e := if end_ arr <? index then index else end_ arr in
    c ← slot_set (contents arr) index val;
    Ok (MkDArray e (max arr) (el_sz arr) c).

Definition DArray_get {A} (arr : DArray A) (index : Z) : res (option A) :=
  if index <? max arr then slot_get (contents arr) index else Ok None.

(** The result is 0; a full array is not expanded. *)
Definition DArray_push {A} (arr : DArray A) (el : A) : res (DArray A) :=
  c ← slot_set (contents arr) (end_ arr) (Some el);
  Ok (MkDArray (end_ arr + 1) (max arr) (el_sz arr) c).

Definition DArray_pop {A} (arr : DArray A) : res (option A * DArray A) :=
  if 0 <? end_ arr then
    el ← slot_get (contents arr) (end_ arr - 1);
    c ← slot_set (contents arr) (end_ arr - 1) None;
    Ok (el, MkDArray (end_ arr - 1) (max arr) (el_sz arr) c)
  else Ok (None, arr).

(** [pnew] is the block of the allocation in [ebpf_realloc]. *)
Definition DArray_resize {A} (arr : DArray A) (new_sz : Z) (pnew : option (list (option A)))
    : res (Z * DArray A) :=
  c ← ebpf_realloc (contents arr) (max arr * ptr_size) (new_sz * ptr_size) pnew;
  match c with
  | None => Ok (-1, MkDArray (end_ arr) new_sz (el_sz arr) (contents arr))
  | Some _ => Ok (0, MkDArray (end_ arr) new_sz (el_sz arr) c)
  end.

Definition DArray_expand {A} (arr : DArray A) (pnew : option (list (option A))) : res (Z * DArray A) :=
  let old_max := max arr in
  let step := if 100 <? old_max then 5 * 2 else 5 in
  let step := if 1000 <? step then 1000 else step in
  DArray_resize arr (old_max + step) pnew.

(** ** Hashing

    The loop over the characters, which are unsigned on the target, and the end. *)
Definition hash_step (hash c : Z) : Z :=
  let hash := u32 (hash + c) in
  let hash := u32 (hash + u32 (hash << 10)) in
  Z.lxor hash (hash >> 6).

Definition str_hash_fn (key : list Z) : Z :=
  let hash := fold_left hash_step key 0 in
  let hash := u32 (hash + u32 (hash << 3)) in
  let hash := Z.lxor hash (hash >> 11) in
  u32 (hash + u32 (hash << 15)).

Definition str_equal_fn (a b : list Z) : bool := bool_decide (a = b).

(** ** The map *)

(** [n_ptr] is the address of the node. *)
Record HashmapNode := MkNode { n_ptr : Z; n_key : Z; n_value : Z; n_hash : Z }.

Record Hashmap := MkHashmap { buckets : DArray (DArray HashmapNode); bucket_num : Z }.

Definition Hashmap_create (ok : bool) (al : alloc) : res Hashmap :=
  if ok then
    b ← DArray_create al ptr_size 8;
    Ok (MkHashmap (MkDArray 8 (max b) (el_sz b) (contents b)) 8)
  else Crash NullDeref.

(** [p] is what [calloc] returns. *)
Definition Hashmap_node_create (p hash key val : Z) : res HashmapNode :=
  if p =? 0 then Crash NullDeref else Ok (MkNode p key val (u32 hash)).

Section Strings.
  Context (str : Z -> list Z).

(** The object behind the pointer [buckets[i]] after it was changed. *)
Definition put_bucket (map : Hashmap) (i : Z) (b : DArray HashmapNode) : res Hashmap :=
  c ← slot_set (contents (buckets map)) i (Some b);
  Ok (MkHashmap (MkDArray (end_ (buckets map)) (max (buckets map)) (el_sz (buckets map)) c)
        (bucket_num map)).

(** The map, the index of the bucket, the bucket, and the hash of the key. *)
Definition Hashmap_find_bucket (map : Hashmap) (key : Z) (create : bool) (al : alloc)
    : res (Hashmap * Z * option (DArray HashmapNode) * Z) :=
  let hash := str_hash_fn (str key) in
  if bucket_num map =? 0 then Crash DivByZero
  else
    let bucket_index := hash mod bucket_num map in
    bucket ← DArray_get (buckets map) bucket_index;
    match bucket, create with
    | None, true =>
        b ← DArray_create al ptr_size 10;
        bs ← DArray_set (buckets map) bucket_index (Some b);
        Ok (MkHashmap bs (bucket_num map), bucket_index, Some b, hash)
    | _, _ => Ok (map, bucket_index, bucket, hash)
    end.

(** The result is 0. *)
Definition Hashmap_set (map : Hashmap) (key data p : Z) (al : alloc) : res Hashmap :=
  '(map, i, bucket, hash) ← Hashmap_find_bucket map key true al;
  node ← Hashmap_node_create p hash key data;
  bucket ← of_option NullDeref bucket;
  bucket ← DArray_push bucket node;
  put_bucket map i bucket.

(** [n] rounds of the loop from [i] on. *)
Fixpoint get_node_loop (n : nat) (i hash : Z) (bucket : DArray HashmapNode) (key : Z) : res Z :=
  match n with
  | O => Ok (-1)
  | S n =>
      node ← DArray_get bucket i;
      node ← of_option NullDeref node;
      if (n_hash node =? hash) && str_equal_fn (str (n_key node)) (str key) then Ok i
      else get_node_loop n (i + 1) hash bucket key
  end.

Definition Hashmap_get_node (hash : Z) (bucket : DArray HashmapNode) (key : Z) : res Z :=
  get_node_loop (Z.to_nat (end_ bucket)) 0 hash bucket key.

Definition Hashmap_get (map : Hashmap) (key : Z) : res Z :=
  '(_, _, bucket, hash) ← Hashmap_find_bucket map key false (Alloc false false);
  match bucket with
  | None => Ok 0
  | Some bucket =>
      i ← Hashmap_get_node hash bucket key;
      if i =? -1 then Ok 0
      else
        node ← DArray_get bucket i;
        node ← of_option NullDeref node;
        Ok (n_value node)
  end.

(** The value and the map; [bucket->end] is read before anything is tested. Nodes are
    compared by their addresses. *)
Definition Hashmap_delete (map : Hashmap) (key : Z) : res (Z * Hashmap) :=
  '(_, bi, bucket, hash) ← Hashmap_find_bucket map key false (Alloc false false);
  bucket ← of_option NullDeref bucket;
  i ← Hashmap_get_node hash bucket key;
  if i =? -1 then Ok (0, map)
  else
    cur ← DArray_get bucket i;
    cur ← of_option NullDeref cur;
    '(tail, bucket) ← DArray_pop bucket;
    bucket ← (if default 0 (n_ptr <$> tail) =? n_ptr cur then Ok bucket else DArray_set bucket i tail);
    map ← put_bucket map bi bucket;
    Ok (n_value cur, map).
End Strings.
