(* ===== verification/HashMapProps.v ===== *)
(** * Properties of the hash map

    [libebpf/src/ebpf_map.c] against a finite map from strings, and where it fails. *)
From stdpp Require Import base tactics numbers list gmap.
From Stdlib Require Import ZArith Lia.
From S2P Require Import Prelude Maps HashMap.
Local Open Scope Z_scope.

(** ** Slots *)
Section Slots.
  Context {A : Type}.
  Implicit Types (l a b : list (option A)).

Lemma slot_get_app a x b i : i = Z.of_nat (length a) -> slot_get (Some (a ++ x :: b)) i = Ok x.
Proof.
  intros ->. unfold slot_get. cbn. rewrite (proj2 (arr_get_Some _ _ x)); [done|].
  split; [lia|]. rewrite Nat2Z.id. now apply list_lookup_middle.
Qed.

Lemma slot_set_app a x b i v :
  i = Z.of_nat (length a) -> slot_set (Some (a ++ x :: b)) i v = Ok (Some (a ++ v :: b)).
Proof.
  intros ->. unfold slot_set. cbn. rewrite arr_set_in by (rewrite length_app; cbn; lia). cbn.
  now rewrite Nat2Z.id, insert_app_r_alt, Nat.sub_diag by lia.
Qed.

Lemma slot_set_in l i v :
  0 <= i < Z.of_nat (length l) -> slot_set (Some l) i v = Ok (Some (<[Z.to_nat i:=v]> l)).
Proof. intros H. unfold slot_set. cbn. now rewrite arr_set_in. Qed.
End Slots.

Section Strings.
  Context (str : Z -> list Z).

Abbreviation node := HashmapNode (only parsing).
Definition name (n : HashmapNode) : list Z := str (n_key n).

(** The bucket of a string. *)
Definition slot (s : list Z) : Z := str_hash_fn s mod 8.

Lemma slot_range s : 0 <= slot s < 8.
Proof. apply Z.mod_pos_bound. lia. Qed.

(** ** Buckets as lists *)
Definition bucket_rep (o : option (DArray HashmapNode)) (x : option (list HashmapNode)) : Prop :=
  match o, x with
  | None, None => True
  | Some b, Some ns =>
      max b = 10 /\ end_ b = Z.of_nat (length ns) /\
      exists rest, contents b = Some (map Some ns ++ rest) /\ (length ns + length rest)%nat = 10%nat
  | _, _ => False
  end.

Record hm_rep (m : Hashmap) (bs : list (option (list HashmapNode))) : Prop := HmRep {
  hr_num : bucket_num m = 8;
  hr_max : max (buckets m) = 8;
  hr_end : end_ (buckets m) = 8;
  hr_list : exists l, contents (buckets m) = Some l /\ Forall2 bucket_rep l bs;
  hr_len : length bs = 8%nat;
}.

Lemma push_rep b ns n :
  bucket_rep (Some b) (Some ns) -> (length ns < 10)%nat ->
  exists b', DArray_push b n = Ok b' /\ bucket_rep (Some b') (Some (ns ++ [n])).
Proof.
  intros (Hm & He & [|x rest] & Hc & Hl) Hn; [cbn in Hl; lia|]. unfold DArray_push.
  rewrite Hc, He, slot_set_app by now rewrite length_map. cbn [mbind res_bind].
  eexists. split; [reflexivity|]. split; [done|]. cbn. split; [rewrite length_app; cbn; lia|].
  exists rest. rewrite map_app, <- (assoc_L (++)), length_app. cbn in *. split; [done|lia].
Qed.

Lemma push_full b ns n :
  bucket_rep (Some b) (Some ns) -> length ns = 10%nat -> DArray_push b n = Crash ArrayOOB.
Proof.
  intros (Hm & He & rest & Hc & Hl) Hn. unfold DArray_push, slot_set. rewrite Hc, He. cbn.
  unfold arr_set. rewrite length_app, length_map. rewrite (proj2 (Z.ltb_ge _ _)) by lia.
  now rewrite andb_false_r.
Qed.

Lemma get_rep b a x c i :
  bucket_rep (Some b) (Some (a ++ x :: c)) -> i = Z.of_nat (length a) -> DArray_get b i = Ok (Some x).
Proof.
  intros (Hm & He & rest & Hc & Hl) ->. unfold DArray_get. rewrite length_app in Hl. cbn in Hl.
  rewrite Hm, (proj2 (Z.ltb_lt _ _)) by lia. rewrite Hc, map_app. cbn [map].
  rewrite <- (assoc_L (++)). cbn [app]. apply slot_get_app. now rewrite length_map.
Qed.

Lemma get_node_rep n a c b key :
  let ns := a ++ c in
  bucket_rep (Some b) (Some ns) -> length c = n ->
  Forall (fun x => n_hash x = str_hash_fn (name x)) ns -> Forall (fun x => name x <> str key) a ->
  (get_node_loop str n (Z.of_nat (length a)) (str_hash_fn (str key)) b key = Ok (-1) /\
   Forall (fun x => name x <> str key) ns) \/
  (exists a' x c', ns = a' ++ x :: c' /\ name x = str key /\ Forall (fun x => name x <> str key) a' /\
     get_node_loop str n (Z.of_nat (length a)) (str_hash_fn (str key)) b key = Ok (Z.of_nat (length a'))).
Proof.
  intros ns. unfold ns. clear ns. revert a c. induction n as [|n IH]; intros a c R Hl Hh Ha.
  { destruct c; [|done]. left. rewrite app_nil_r. done. }
  destruct c as [|x c]; [done|]. injection Hl as Hl. cbn [get_node_loop].
  rewrite (get_rep b a x c) by done. cbn [mbind res_bind of_option].
  assert (Hx : n_hash x = str_hash_fn (name x)) by (apply Forall_app in Hh as [_ Hh]; now inversion Hh).
  unfold str_equal_fn. destruct (decide (name x = str key)) as [E|E].
  - right. exists a, x, c. unfold name in E. rewrite Hx. unfold name. rewrite E, Z.eqb_refl, bool_decide_true by done.
    done.
  - rewrite (bool_decide_false (str (n_key x) = str key)), andb_false_r by done.
    replace (Z.of_nat (length a) + 1) with (Z.of_nat (length (a ++ [x]))) by (rewrite length_app; cbn; lia).
    replace (a ++ x :: c) with ((a ++ [x]) ++ c) in * by now rewrite <- (assoc_L (++)).
    apply IH; [done|done|done|]. apply Forall_app. split; [done|now constructor].
Qed.

Lemma find_node b ns key :
  bucket_rep (Some b) (Some ns) -> Forall (fun x => n_hash x = str_hash_fn (name x)) ns ->
  (Hashmap_get_node str (str_hash_fn (str key)) b key = Ok (-1) /\ Forall (fun x => name x <> str key) ns) \/
  (exists a x c, ns = a ++ x :: c /\ name x = str key /\ Forall (fun x => name x <> str key) a /\
     Hashmap_get_node str (str_hash_fn (str key)) b key = Ok (Z.of_nat (length a))).
Proof.
  intros R Hh. unfold Hashmap_get_node. pose proof R as (_ & -> & _). rewrite Nat2Z.id.
  now apply (get_node_rep (length ns) [] ns).
Qed.

Lemma pop_rep b ns n :
  bucket_rep (Some b) (Some (ns ++ [n])) ->
  exists b', DArray_pop b = Ok (Some n, b') /\ bucket_rep (Some b') (Some ns).
Proof.
  intros (Hm & He & rest & Hc & Hl). rewrite length_app in *. cbn in *. unfold DArray_pop.
  rewrite (proj2 (Z.ltb_lt _ _)) by lia. rewrite Hc, He, map_app, <- (assoc_L (++)). cbn [map app].
  rewrite slot_get_app by (rewrite length_map; lia). cbn [mbind res_bind].
  rewrite slot_set_app by (rewrite length_map; lia). cbn [mbind res_bind].
  eexists. split; [reflexivity|]. split; [done|]. cbn. split; [lia|]. exists (None :: rest).
  split; [done|cbn; lia].
Qed.

Lemma set_rep b a x y c i :
  bucket_rep (Some b) (Some (a ++ x :: c)) -> i = Z.of_nat (length a) ->
  exists b', DArray_set b i (Some y) = Ok b' /\ bucket_rep (Some b') (Some (a ++ y :: c)).
Proof.
  intros (Hm & He & rest & Hc & Hl) ->. rewrite length_app in *. cbn in *. unfold DArray_set.
  rewrite Hm, He, (proj2 (Z.leb_gt _ _)) by lia. rewrite (proj2 (Z.ltb_ge _ _)) by lia.
  rewrite Hc, map_app, <- (assoc_L (++)). cbn [map app].
  rewrite slot_set_app by now rewrite length_map. cbn [mbind res_bind].
  eexists. split; [reflexivity|]. split; [done|]. cbn. rewrite length_app. split; [cbn; lia|].
  exists rest. rewrite map_app, <- (assoc_L (++)). split; [done|cbn; lia].
Qed.

(** [Hashmap_delete] takes the last node out and puts it in the place of the deleted. *)
Definition remove_at (b : DArray HashmapNode) (i : Z) (cur : HashmapNode) : res (DArray HashmapNode) :=
  '(tail, b) ← DArray_pop b;
  if default 0 (n_ptr <$> tail) =? n_ptr cur then Ok b else DArray_set b i tail.

Lemma remove_rep b a x c :
  bucket_rep (Some b) (Some (a ++ x :: c)) -> NoDup (map n_ptr (a ++ x :: c)) ->
  exists b' ns', remove_at b (Z.of_nat (length a)) x = Ok b' /\ bucket_rep (Some b') (Some ns') /\ ns' ≡ₚ a ++ c.
Proof.
  intros R Hd. unfold remove_at. destruct c as [|y c _] using rev_ind.
  - apply pop_rep in R as (b' & -> & R). cbn [mbind res_bind]. cbn [fmap option_fmap option_map default].
    rewrite Z.eqb_refl. exists b', a. rewrite app_nil_r. done.
  - rewrite app_comm_cons, (assoc_L (++)) in R. apply pop_rep in R as (b' & -> & R). cbn [mbind res_bind].
    cbn [fmap option_fmap option_map default]. rewrite (proj2 (Z.eqb_neq _ _)).
    + destruct (set_rep b' a x y c _ R eq_refl) as (b'' & -> & R'). exists b'', (a ++ y :: c).
      split; [done|]. split; [done|]. f_equiv. now rewrite Permutation_cons_append.
    + rewrite map_app in Hd. cbn in Hd. rewrite map_app in Hd. apply NoDup_app in Hd as (_ & _ & Hd).
      apply NoDup_cons in Hd as [Hd _]. intros E. apply Hd. rewrite <- E. set_solver.
Qed.

(** ** Operations on the list of buckets *)
Definition get_bucket (bs : list (option (list HashmapNode))) (s : list Z) : option (list HashmapNode) :=
  default None (bs !! Z.to_nat (slot s)).

Lemma find_bucket_rep m bs key create al :
  hm_rep m bs -> (create = false \/ get_bucket bs (str key) <> None) ->
  exists o, Hashmap_find_bucket str m key create al = Ok (m, slot (str key), o, str_hash_fn (str key)) /\
    bucket_rep o (get_bucket bs (str key)).
Proof.
  intros [Hn Hm He (l & Hc & Hl) Hb] Hcr. pose proof (slot_range (str key)) as Hs.
  destruct (lookup_lt_is_Some_2 bs (Z.to_nat (slot (str key)))) as [x Ex]; [lia|].
  destruct (Forall2_lookup_r _ _ _ _ _ Hl Ex) as (o & Eo & R). unfold get_bucket in *. rewrite Ex in *. cbn in *.
  unfold Hashmap_find_bucket. rewrite Hn. cbn [Z.eqb]. fold (slot (str key)).
  unfold DArray_get, slot_get. rewrite Hm, (proj2 (Z.ltb_lt _ _)) by lia. rewrite Hc. cbn [of_option mbind res_bind].
  rewrite (proj2 (arr_get_Some l _ o)) by (split; [lia|done]). cbn [of_option mbind res_bind].
  exists o. split; [|done]. destruct o; [done|]. destruct x; [done|]. destruct Hcr as [-> |]; done.
Qed.

Lemma put_bucket_rep m bs i b ns :
  hm_rep m bs -> 0 <= i < 8 -> bucket_rep (Some b) (Some ns) ->
  exists m', put_bucket m i b = Ok m' /\ hm_rep m' (<[Z.to_nat i := Some ns]> bs).
Proof.
  intros [Hn Hm He (l & Hc & Hl) Hb] Hi R. unfold put_bucket. rewrite Hc.
  pose proof (Forall2_length _ _ _ Hl). rewrite slot_set_in by lia. cbn [mbind res_bind].
  eexists. split; [reflexivity|]. constructor; cbn; try done; [|now rewrite length_insert].
  eexists. split; [reflexivity|]. now apply Forall2_insert.
Qed.

(** A bucket is created when a key is set. *)
Lemma create_bucket_rep m bs key :
  hm_rep m bs -> get_bucket bs (str key) = None ->
  exists m' b, Hashmap_find_bucket str m key true (Alloc true true) =
      Ok (m', slot (str key), Some b, str_hash_fn (str key)) /\
    bucket_rep (Some b) (Some []) /\ hm_rep m' (<[Z.to_nat (slot (str key)) := Some []]> bs).
Proof.
  intros H E. pose proof (slot_range (str key)) as Hs.
  assert (R : bucket_rep (Some (MkDArray 0 10 ptr_size (Some (replicate 10 None)))) (Some [])).
  { split; [done|]. split; [done|]. eexists. split; [reflexivity|done]. }
  destruct (put_bucket_rep m bs (slot (str key)) _ _ H Hs R) as (m' & Ep & H').
  pose proof H as [Hn Hm He (l & Hc & Hl) Hb].
  destruct (lookup_lt_is_Some_2 bs (Z.to_nat (slot (str key)))) as [x Ex]; [lia|].
  unfold get_bucket in E. rewrite Ex in E. cbn in E. subst x.
  destruct (Forall2_lookup_r _ _ _ _ _ Hl Ex) as ([o|] & Eo & Ro); [done|].
  exists m'. eexists. split; [|split; [exact R|exact H']].
  unfold Hashmap_find_bucket. rewrite Hn. cbn [Z.eqb]. fold (slot (str key)).
  unfold DArray_get, slot_get. rewrite Hm, (proj2 (Z.ltb_lt _ _)) by lia. rewrite Hc. cbn [of_option mbind res_bind].
  rewrite (proj2 (arr_get_Some l _ None)) by (split; [lia|done]). cbn [of_option mbind res_bind].
  unfold DArray_create. cbn [ok_struct ok_contents mbind res_bind].
  unfold DArray_set. rewrite Hm, He, (proj2 (Z.leb_gt _ _)) by lia. rewrite (proj2 (Z.ltb_ge _ _)) by lia.
  unfold put_bucket in Ep. rewrite Hc in *. change (Z.to_nat 10) with 10%nat.
  apply bind_Ok in Ep as (c & Ec & [= <-]). rewrite Ec. cbn [mbind res_bind].
  rewrite Hn, Hm, He. done.
Qed.

(** ** Refinement to a finite map

    The abstract state maps strings to a value, the address of its node and the address
    of the key, and records which buckets exist. *)
Record hstate := HState { h_map : gmap (list Z) (Z * Z * Z); h_made : gset Z }.

(** The value, 0 if there is none. *)
Definition h_value (o : option (Z * Z * Z)) : Z := default 0 ((fun x => x.1.1) <$> o).

Definition entry (n : HashmapNode) : Z * Z * Z := (n_value n, n_ptr n, n_key n).

Definition as_map (ns : list HashmapNode) : gmap (list Z) (Z * Z * Z) :=
  list_to_map (map (fun n => (name n, entry n)) ns).

Record wf_bucket (i : Z) (ns : list HashmapNode) : Prop := WfBucket {
  wb_hash : Forall (fun n => n_hash n = str_hash_fn (name n)) ns;
  wb_slot : Forall (fun n => slot (name n) = i) ns;
  wb_names : NoDup (map name ns);
  wb_ptrs : NoDup (map n_ptr ns);
}.

Record h_inv (bs : list (option (list HashmapNode))) (t : hstate) : Prop := HInv {
  hi_wf : forall i ns, bs !! i = Some (Some ns) -> wf_bucket (Z.of_nat i) ns;
  hi_map : forall s, h_map t !! s = as_map (default [] (get_bucket bs s)) !! s;
  hi_made : forall s, slot s ∈ h_made t <-> get_bucket bs s <> None;
}.

Definition h_rep (m : Hashmap) (t : hstate) : Prop := exists bs, hm_rep m bs /\ h_inv bs t.

Lemma names_fst ns : (map (fun n => (name n, entry n)) ns).*1 = map name ns.
Proof. induction ns; [done|]. cbn. now f_equal. Qed.

Lemma as_map_None ns s : as_map ns !! s = None <-> Forall (fun n => name n <> s) ns.
Proof.
  unfold as_map. split.
  - intros H%not_elem_of_list_to_map_2. rewrite names_fst in H. apply Forall_forall. intros n Hn E.
    apply H. rewrite <- E. now apply list_elem_of_fmap_2.
  - intros H. apply not_elem_of_list_to_map_1. rewrite names_fst. intros (n & -> & Hn)%list_elem_of_fmap.
    rewrite Forall_forall in H. now apply (H n).
Qed.

Lemma as_map_cons n ns : as_map (n :: ns) = <[name n := entry n]> (as_map ns).
Proof. done. Qed.

Lemma as_map_perm ns ns' : NoDup (map name ns) -> ns ≡ₚ ns' -> as_map ns = as_map ns'.
Proof.
  intros Hd Hp. unfold as_map. apply list_to_map_proper; [now rewrite names_fst|]. now f_equiv.
Qed.

Lemma as_map_middle a x c :
  NoDup (map name (a ++ x :: c)) -> as_map (a ++ x :: c) = <[name x := entry x]> (as_map (a ++ c)).
Proof. intros Hd. rewrite (as_map_perm _ (x :: a ++ c)); [done|done|]. now rewrite Permutation_middle. Qed.

Lemma get_bucket_insert bs s s' ns :
  length bs = 8%nat ->
  get_bucket (<[Z.to_nat (slot s) := Some ns]> bs) s' = if decide (slot s' = slot s) then Some ns else get_bucket bs s'.
Proof.
  intros Hl. pose proof (slot_range s). pose proof (slot_range s'). unfold get_bucket. case_decide as E.
  - rewrite E, list_lookup_insert_eq by lia. done.
  - rewrite list_lookup_insert_ne by lia. done.
Qed.

Lemma get_bucket_wf bs t s ns : h_inv bs t -> get_bucket bs s = Some ns -> wf_bucket (slot s) ns.
Proof.
  intros H E. unfold get_bucket in E. destruct (bs !! Z.to_nat (slot s)) as [[ns'|]|] eqn:Eb; [|done..].
  cbn in E. injection E as ->. apply (hi_wf _ _ H) in Eb. pose proof (slot_range s). now rewrite Z2Nat.id in Eb by lia.
Qed.

(** The bucket of a string is the part of the map with its hash. *)
Lemma bucket_filter bs t s ns :
  h_inv bs t -> get_bucket bs s = Some ns -> filter (fun kv => slot kv.1 = slot s) (h_map t) = as_map ns.
Proof.
  intros H E. pose proof (get_bucket_wf _ _ _ _ H E) as [_ Hs _ _].
  assert (Hg : forall s', slot s' = slot s -> get_bucket bs s' = Some ns).
  { intros s' Es. unfold get_bucket in *. now rewrite Es. }
  apply map_eq. intros s'. rewrite map_lookup_filter. destruct (decide (slot s' = slot s)) as [Es|Es].
  - rewrite (hi_map _ _ H s'), (Hg s' Es). change (default [] (Some ns)) with ns.
    destruct (as_map ns !! s') as [vp|]; cbn; [now rewrite option_guard_True|done].
  - destruct (h_map t !! s') as [vp|]; cbn; [rewrite option_guard_False by done|]; symmetry;
      apply as_map_None; eapply Forall_impl; try exact Hs; cbn; congruence.
Qed.

Lemma as_map_size ns : NoDup (map name ns) -> size (as_map ns) = length ns.
Proof. intros H. unfold as_map. rewrite map_size_list_to_map; [apply length_map|now rewrite names_fst]. Qed.

(** A changed bucket of the string [s]. *)
Lemma inv_change bs t s ns T :
  length bs = 8%nat -> h_inv bs t -> wf_bucket (slot s) ns ->
  (forall s', T !! s' = if decide (slot s' = slot s) then as_map ns !! s' else h_map t !! s') ->
  h_inv (<[Z.to_nat (slot s) := Some ns]> bs) (HState T ({[slot s]} ∪ h_made t)).
Proof.
  intros Hl [Hwf Hmap Hmade] Hns HT. pose proof (slot_range s). constructor; cbn [h_map h_made].
  - intros i ns' E. apply list_lookup_insert_Some in E as [(<- & [= <-] & _)|[_ E]]; [|now apply Hwf].
    now rewrite Z2Nat.id by lia.
  - intros s'. rewrite HT, get_bucket_insert by done. case_decide; [done|apply Hmap].
  - intros s'. rewrite get_bucket_insert by done. case_decide as E; [set_solver|]. rewrite <- Hmade. set_solver.
Qed.

(** ** The operations *)
Lemma hashmap_get_spec m t key : h_rep m t -> Hashmap_get str m key = Ok (h_value (h_map t !! str key)).
Proof.
  intros (bs & H & Hi). unfold Hashmap_get.
  destruct (find_bucket_rep m bs key false (Alloc false false) H (or_introl eq_refl)) as (o & -> & R).
  cbn [mbind res_bind]. rewrite (hi_map _ _ Hi).
  destruct (get_bucket bs (str key)) as [ns|] eqn:E; destruct o as [b|]; try done.
  change (default [] (Some ns)) with ns. pose proof (get_bucket_wf _ _ _ _ Hi E) as [Hh _ Hn _].
  destruct (find_node b ns key R Hh) as [[-> Ha]|(a & x & c & -> & Ex & _ & ->)]; cbn [mbind res_bind].
  - cbn [Z.eqb]. now rewrite (proj2 (as_map_None _ _) Ha).
  - rewrite (proj2 (Z.eqb_neq _ _)) by lia. rewrite (get_rep b a x c) by done. cbn [mbind res_bind of_option].
    rewrite as_map_middle, <- Ex, lookup_insert_eq by done. done.
Qed.

(** A key can be set when it is absent, its bucket has room, and the node gets an address
    that no live node has. *)
Definition h_room (t : hstate) (s : list Z) (p : Z) : Prop :=
  h_map t !! s = None /\ p <> 0 /\ map_Forall (fun _ x => x.1.2 <> p) (h_map t) /\
  (size (filter (fun kv => slot kv.1 = slot s) (h_map t)) < 10)%nat.

#[export] Instance h_room_dec t s p : Decision (h_room t s p).
Proof. unfold h_room. apply _. Defined.

Definition h_set (t : hstate) (s : list Z) (v p k : Z) : hstate :=
  HState (<[s := (v, p, k)]> (h_map t)) ({[slot s]} ∪ h_made t).

Lemma wf_extend bs t key ns v p :
  h_inv bs t -> get_bucket bs (str key) = Some ns -> h_room t (str key) p ->
  wf_bucket (slot (str key)) (ns ++ [MkNode p key v (str_hash_fn (str key))]).
Proof.
  intros Hi E (Habs & _ & Hp & _). pose proof (get_bucket_wf _ _ _ _ Hi E) as [Hh Hs Hn Hq].
  rewrite (hi_map _ _ Hi), E in Habs. apply as_map_None in Habs. rewrite Forall_forall in Habs.
  constructor.
  - apply Forall_app. split; [done|]. repeat constructor.
  - apply Forall_app. split; [done|]. repeat constructor.
  - rewrite map_app. apply NoDup_app. split; [done|]. split; [|apply NoDup_singleton].
    intros x (n & -> & Hx)%list_elem_of_fmap Hx'%list_elem_of_singleton. now apply (Habs n).
  - rewrite map_app. apply NoDup_app. split; [done|]. split; [|apply NoDup_singleton].
    intros x (n & -> & Hx)%list_elem_of_fmap Hx'%list_elem_of_singleton. cbn in Hx'.
    apply list_elem_of_split in Hx as (a & c & ->). apply (Hp (name n) (entry n)); [|done].
    pose proof (bucket_filter _ _ _ _ Hi E) as Ef. rewrite as_map_middle in Ef by done.
    assert (Hl : filter (fun kv => slot kv.1 = slot (str key)) (h_map t) !! name n = Some (entry n))
      by (rewrite Ef; apply lookup_insert_eq).
    now apply map_lookup_filter_Some in Hl as [Hl _].
Qed.

Lemma set_push_spec m bs t b ns key v p :
  hm_rep m bs -> h_inv bs t -> get_bucket bs (str key) = Some ns -> bucket_rep (Some b) (Some ns) ->
  h_room t (str key) p ->
  exists m', (b ← DArray_push b (MkNode p key v (u32 (str_hash_fn (str key)))); put_bucket m (slot (str key)) b) = Ok m' /\
    h_rep m' (h_set t (str key) v p key).
Proof.
  intros H Hi E R Hr. pose proof Hr as (Habs & _ & _ & Hsz). pose proof (get_bucket_wf _ _ _ _ Hi E) as Hw.
  rewrite (bucket_filter _ _ _ _ Hi E), as_map_size in Hsz by apply Hw.
  replace (u32 (str_hash_fn (str key))) with (str_hash_fn (str key)) by (symmetry; apply u32_u32).
  destruct (push_rep b ns (MkNode p key v (str_hash_fn (str key))) R Hsz) as (b' & -> & R').
  cbn [mbind res_bind]. destruct (put_bucket_rep m bs _ b' _ H (slot_range (str key)) R') as (m' & -> & H').
  exists m'. split; [done|]. eexists. split; [exact H'|]. pose proof (wf_extend _ _ _ _ v _ Hi E Hr) as Hw'.
  apply inv_change; [apply H|done|done|]. intros s'.
  rewrite as_map_middle by apply Hw'. rewrite app_nil_r. cbn [name entry n_key n_value n_ptr].
  unfold name at 1. cbn [n_key]. destruct (decide (str key = s')) as [<-|Hne].
  - rewrite decide_True by done. now rewrite !lookup_insert_eq.
  - rewrite !lookup_insert_ne by done. case_decide as Es; [|done]. rewrite (hi_map _ _ Hi).
    unfold get_bucket in *. now rewrite Es, E.
Qed.

Lemma hashmap_set_spec m t key v p :
  h_rep m t -> h_room t (str key) p ->
  exists m', Hashmap_set str m key v p (Alloc true true) = Ok m' /\ h_rep m' (h_set t (str key) v p key).
Proof.
  intros (bs & H & Hi) Hr. pose proof Hr as (_ & Hp & _). unfold Hashmap_set, Hashmap_node_create.
  rewrite (proj2 (Z.eqb_neq p 0)) by done. destruct (get_bucket bs (str key)) as [ns|] eqn:E.
  - destruct (find_bucket_rep m bs key true (Alloc true true) H) as (o & -> & R); [right; congruence|].
    rewrite E in R. destruct o as [b|]; [|done]. cbn [mbind res_bind of_option].
    now apply (set_push_spec m bs t b ns).
  - destruct (create_bucket_rep m bs key H E) as (m' & b & -> & R & H'). cbn [mbind res_bind of_option].
    set (bs' := <[Z.to_nat (slot (str key)) := Some []]> bs) in *.
    set (t' := HState (h_map t) ({[slot (str key)]} ∪ h_made t)).
    assert (Hi' : h_inv bs' t').
    { apply inv_change; [apply H|done|repeat constructor|]. intros s'. case_decide as Es; [|done].
      rewrite (hi_map _ _ Hi). unfold get_bucket in *. now rewrite Es, E. }
    assert (E' : get_bucket bs' (str key) = Some []).
    { unfold bs'. rewrite get_bucket_insert by apply H. now rewrite decide_True. }
    destruct (set_push_spec m' bs' t' b [] key v p H' Hi' E' R Hr) as (m'' & -> & H'').
    exists m''. split; [done|]. unfold h_set, t' in H''. cbn [h_map h_made] in H''.
    now rewrite (assoc_L (∪)), (idemp_L (∪)) in H''.
Qed.

Lemma delete_eq m key b bi o hash :
  Hashmap_find_bucket str m key false (Alloc false false) = Ok (o, bi, Some b, hash) ->
  Hashmap_delete str m key =
  (i ← Hashmap_get_node str hash b key;
   if i =? -1 then Ok (0, m)
   else
     cur ← DArray_get b i;
     cur ← of_option NullDeref cur;
     b ← remove_at b i cur;
     m ← put_bucket m bi b;
     Ok (n_value cur, m)).
Proof.
  intros E. unfold Hashmap_delete, remove_at. rewrite E. cbn [mbind res_bind of_option].
  destruct (Hashmap_get_node str hash b key) as [i| |]; cbn [mbind res_bind]; try done.
  destruct (i =? -1); [done|]. destruct (DArray_get b i) as [[cur|]| |]; cbn [mbind res_bind of_option]; try done.
  now destruct (DArray_pop b) as [[tail b']| |].
Qed.

Lemma wf_remove i a x c ns : wf_bucket i (a ++ x :: c) -> ns ≡ₚ a ++ c -> wf_bucket i ns.
Proof.
  intros [Hh Hs Hn Hq] Hp. rewrite <- Permutation_middle in Hh, Hs, Hn, Hq. cbn in Hn, Hq.
  apply Forall_cons in Hh as [_ Hh]. apply Forall_cons in Hs as [_ Hs].
  apply NoDup_cons in Hn as [_ Hn]. apply NoDup_cons in Hq as [_ Hq]. constructor; now rewrite Hp.
Qed.

Lemma hashmap_delete_spec m t key :
  h_rep m t -> slot (str key) ∈ h_made t ->
  exists m', Hashmap_delete str m key = Ok (h_value (h_map t !! str key), m') /\
    h_rep m' (HState (delete (str key) (h_map t)) (h_made t)).
Proof.
  intros (bs & H & Hi) Hmade. pose proof (proj1 (hi_made _ _ Hi _) Hmade) as Hb.
  destruct (get_bucket bs (str key)) as [ns|] eqn:E; [|done]. clear Hb.
  destruct (find_bucket_rep m bs key false (Alloc false false) H (or_introl eq_refl)) as (o & Ef & R).
  rewrite E in R. destruct o as [b|]; [|done]. rewrite (delete_eq _ _ _ _ _ _ Ef).
  pose proof (get_bucket_wf _ _ _ _ Hi E) as Hw. pose proof Hw as [Hh Hs Hn Hq].
  assert (Em : h_map t !! str key = as_map ns !! str key) by (rewrite (hi_map _ _ Hi), E; done).
  rewrite Em. destruct (find_node b ns key R Hh) as [[-> Ha]|(a & x & c & -> & Ex & _ & ->)]; cbn [mbind res_bind].
  { cbn [Z.eqb]. apply as_map_None in Ha. rewrite Ha in *. exists m. split; [done|]. exists bs.
    rewrite delete_id by done. now destruct t. }
  rewrite (proj2 (Z.eqb_neq _ _)) by lia. rewrite (get_rep b a x c) by done. cbn [mbind res_bind of_option].
  destruct (remove_rep b a x c R Hq) as (b' & ns' & -> & R' & Hp). cbn [mbind res_bind].
  destruct (put_bucket_rep m bs _ b' _ H (slot_range (str key)) R') as (m' & -> & H'). cbn [mbind res_bind].
  rewrite as_map_middle, <- Ex, lookup_insert_eq in * by done. rewrite Ex in *.
  exists m'. split; [done|]. eexists. split; [exact H'|].
  pose proof (wf_remove _ _ _ _ _ Hw Hp) as Hw'.
  replace (h_made t) with ({[slot (str key)]} ∪ h_made t) by set_solver.
  apply inv_change; [apply H|done|done|]. intros s'. rewrite lookup_delete.
  rewrite (as_map_perm ns' (a ++ c)) by (apply Hw' || done). destruct (decide (str key = s')) as [<-|Hne].
  - rewrite decide_True by done. symmetry. apply as_map_None.
    rewrite <- Permutation_middle in Hn. cbn in Hn. apply NoDup_cons in Hn as [Hn _].
    apply Forall_forall. intros y Hy Ey. apply Hn. rewrite Ex, <- Ey. now apply list_elem_of_fmap_2.
  - case_decide as Es; [|done]. rewrite (hi_map _ _ Hi). unfold get_bucket in *. rewrite Es, E.
    change (default [] (Some (a ++ x :: c))) with (a ++ x :: c).
    rewrite as_map_middle by done. rewrite Ex. now rewrite lookup_insert_ne.
Qed.

Definition empty_hash : Hashmap := MkHashmap (MkDArray 8 8 ptr_size (Some (replicate 8 None))) 8.

Lemma create_rep : Hashmap_create true (Alloc true true) = Ok empty_hash /\ h_rep empty_hash (HState ∅ ∅).
Proof.
  split; [reflexivity|]. exists (replicate 8 None). split.
  - constructor; try done. exists (replicate 8 None). split; [done|]. repeat constructor.
  - assert (E : forall s, get_bucket (replicate 8 None) s = None).
    { intros s. unfold get_bucket. destruct (replicate 8 _ !! _) as [x|] eqn:Ex; [|done].
      now apply lookup_replicate in Ex as [-> _]. }
    constructor; cbn [h_map h_made].
    + intros i ns [Hx _]%lookup_replicate. done.
    + intros s. now rewrite E.
    + intros s. rewrite E. set_solver.
Qed.

Lemma first_unique (P : HashmapNode -> Prop) a a' x x' c c' :
  a ++ x :: c = a' ++ x' :: c' -> Forall P a -> Forall P a' -> ~ P x -> ~ P x' -> a = a' /\ x = x'.
Proof.
  revert a'. induction a as [|y a IH]; intros [|y' a'] E Ha Ha' Hx Hx'; cbn in E; simplify_eq; try done.
  - now inversion Ha'.
  - now inversion Ha.
  - inversion Ha; inversion Ha'. destruct (IH a') as [-> ->]; done.
Qed.

(** Setting a key that is present. *)
Lemma set_present m t key v p vp :
  h_rep m t -> p <> 0 -> h_map t !! str key = Some vp ->
  (size (filter (fun kv => slot kv.1 = slot (str key)) (h_map t)) < 10)%nat ->
  exists m', Hashmap_set str m key v p (Alloc true true) = Ok m' /\ Hashmap_get str m' key = Ok vp.1.1.
Proof.
  intros (bs & H & Hi) Hp Hk Hsz. pose proof Hk as Hk'. rewrite (hi_map _ _ Hi) in Hk'.
  destruct (get_bucket bs (str key)) as [ns|] eqn:E; [|done]. change (default [] (Some ns)) with ns in Hk'.
  pose proof (get_bucket_wf _ _ _ _ Hi E) as [Hh _ Hn _].
  rewrite (bucket_filter _ _ _ _ Hi E), as_map_size in Hsz by done.
  unfold Hashmap_set, Hashmap_node_create. rewrite (proj2 (Z.eqb_neq p 0)) by done.
  destruct (find_bucket_rep m bs key true (Alloc true true) H) as (o & -> & R); [right; congruence|].
  rewrite E in R. destruct o as [b|]; [|done]. cbn [mbind res_bind of_option].
  replace (u32 (str_hash_fn (str key))) with (str_hash_fn (str key)) by (symmetry; apply u32_u32).
  set (new := MkNode p key v (str_hash_fn (str key))).
  destruct (push_rep b ns new R Hsz) as (b' & -> & R'). cbn [mbind res_bind].
  destruct (put_bucket_rep m bs _ b' _ H (slot_range (str key)) R') as (m' & -> & H').
  exists m'. split; [done|]. unfold Hashmap_get.
  destruct (find_bucket_rep m' _ key false (Alloc false false) H' (or_introl eq_refl)) as (o & -> & R'').
  rewrite get_bucket_insert, decide_True in R'' by (apply H || done).
  destruct o as [b''|]; [|done]. cbn [mbind res_bind].
  assert (Hh' : Forall (fun x => n_hash x = str_hash_fn (name x)) (ns ++ [new]))
    by (apply Forall_app; split; [done|repeat constructor]).
  destruct (find_node b ns key R Hh) as [[_ Ha]|(a & x & c & -> & Ex & Ha & _)].
  { apply as_map_None in Ha. congruence. }
  rewrite as_map_middle, <- Ex, lookup_insert_eq in Hk' by done. injection Hk' as <-.
  destruct (find_node b'' _ key R'' Hh') as [[_ Hb]|(a' & x' & c' & Ec & Ex' & Ha' & ->)].
  { rewrite <- (assoc_L (++)) in Hb. apply Forall_app in Hb as [_ Hb]. inversion Hb. done. }
  cbn [mbind res_bind]. rewrite (proj2 (Z.eqb_neq _ _)) by lia.
  rewrite Ec in R''. rewrite (get_rep b'' a' x' c') by done. cbn [mbind res_bind of_option].
  rewrite <- (assoc_L (++)) in Ec. cbn [app] in Ec.
  destruct (first_unique (fun n => name n <> str key) a a' x x' (c ++ [new]) c') as [_ <-]; auto.
Qed.

(** What the map does not do: setting a key that is present stores a second node that
    [Hashmap_get] never reaches; an eleventh key in a bucket is written behind its array;
    deleting from a bucket that does not exist reads through a null pointer. *)
Theorem hashmap_limits m t key v p :
  h_rep m t -> p <> 0 ->
  let n := size (filter (fun kv => slot kv.1 = slot (str key)) (h_map t)) in
  (forall vp, h_map t !! str key = Some vp -> (n < 10)%nat ->
     exists m', Hashmap_set str m key v p (Alloc true true) = Ok m' /\ Hashmap_get str m' key = Ok vp.1.1) /\
  (n = 10%nat -> Hashmap_set str m key v p (Alloc true true) = Crash ArrayOOB) /\
  (slot (str key) ∉ h_made t -> Hashmap_delete str m key = Crash NullDeref).
Proof.
  intros R Hp n. split; [intros vp; now apply (set_present m t key v p vp)|].
  destruct R as (bs & H & Hi). split.
  - intros Hn. unfold n in Hn. destruct (get_bucket bs (str key)) as [ns|] eqn:E; cycle 1.
    { exfalso. assert (filter (fun kv => slot kv.1 = slot (str key)) (h_map t) = ∅) as Ee; [|now rewrite Ee in Hn].
      apply map_empty. intros s. apply map_lookup_filter_None. right. intros vp Hs Es.
      rewrite (hi_map _ _ Hi) in Hs. unfold get_bucket in *. cbn in Es. now rewrite Es, E in Hs. }
    rewrite (bucket_filter _ _ _ _ Hi E), as_map_size in Hn by apply (get_bucket_wf _ _ _ _ Hi E).
    unfold Hashmap_set, Hashmap_node_create. rewrite (proj2 (Z.eqb_neq p 0)) by done.
    destruct (find_bucket_rep m bs key true (Alloc true true) H) as (o & -> & R); [right; congruence|].
    rewrite E in R. destruct o as [b|]; [|done]. cbn [mbind res_bind of_option].
    now rewrite (push_full b ns).
  - intros Hm. unfold Hashmap_delete.
    destruct (find_bucket_rep m bs key false (Alloc false false) H (or_introl eq_refl)) as (o & -> & R).
    destruct (get_bucket bs (str key)) eqn:E; [|now destruct o].
    exfalso. apply Hm, (hi_made _ _ Hi). congruence.
Qed.
End Strings.

(** ** Sequences of calls

    Each call comes with the strings that are in the memory when it is made: the map
    keeps the pointer to a key, not the key. *)
Inductive hash_call :=
| HSet (key data p : Z)
| HGet (key : Z)
| HDelete (key : Z).

Definition hash_do (str : Z -> list Z) (m : Hashmap) (c : hash_call) : res (Hashmap * Z) :=
  match c with
  | HSet k v p => m ← Hashmap_set str m k v p (Alloc true true); Ok (m, 0)
  | HGet k => v ← Hashmap_get str m k; Ok (m, v)
  | HDelete k => '(v, m) ← Hashmap_delete str m k; Ok (m, v)
  end.

Fixpoint hash_run (cs : list ((Z -> list Z) * hash_call)) (m : Hashmap) : res (Hashmap * list Z) :=
  match cs with
  | [] => Ok (m, [])
  | (str, c) :: cs =>
      '(m, v) ← hash_do str m c;
      '(m, vs) ← hash_run cs m;
      Ok (m, v :: vs)
  end.

Definition hash_spec (str : Z -> list Z) (t : hstate) (c : hash_call) : hstate * Z :=
  match c with
  | HSet k v p => (h_set t (str k) v p k, 0)
  | HGet k => (t, h_value (h_map t !! str k))
  | HDelete k => (HState (delete (str k) (h_map t)) (h_made t), h_value (h_map t !! str k))
  end.

Fixpoint hash_spec_run (cs : list ((Z -> list Z) * hash_call)) (t : hstate) : hstate * list Z :=
  match cs with
  | [] => (t, [])
  | (str, c) :: cs =>
      let '(t, v) := hash_spec str t c in
      let '(t, vs) := hash_spec_run cs t in
      (t, v :: vs)
  end.

(** The keys that are in the map are where they were when they were set. *)
Definition kept (str : Z -> list Z) (t : hstate) : Prop := map_Forall (fun s x => str x.2 = s) (h_map t).

#[export] Instance kept_dec str t : Decision (kept str t).
Proof. unfold kept. apply _. Defined.

Fixpoint hash_ok (t : hstate) (cs : list ((Z -> list Z) * hash_call)) : Prop :=
  match cs with
  | [] => True
  | (str, c) :: cs =>
      kept str t /\
      match c with
      | HSet k _ p => h_room t (str k) p
      | HGet _ => True
      | HDelete k => slot (str k) ∈ h_made t
      end /\ hash_ok (hash_spec str t c).1 cs
  end.

#[export] Instance hash_ok_dec t cs : Decision (hash_ok t cs).
Proof. revert t. induction cs as [|[str []] cs IH]; intros t; cbn [hash_ok]; apply _. Defined.

(** Other strings, when the keys in the map are kept. *)
Lemma name_kept str str' bs t i ns n :
  h_inv str bs t -> length bs = 8%nat -> kept str' t -> bs !! i = Some (Some ns) -> n ∈ ns -> name str' n = name str n.
Proof.
  intros Hi Hl Hk Hb Hn. pose proof (hi_wf _ _ _ Hi _ _ Hb) as [_ Hs Hd _]. rewrite Forall_forall in Hs. specialize (Hs n Hn).
  apply list_elem_of_split in Hn as (a & c & ->). change (str' (entry n).2 = name str n). apply Hk. rewrite (hi_map _ _ _ Hi).
  assert (E : get_bucket bs (name str n) = Some (a ++ n :: c)) by (unfold get_bucket; now rewrite Hs, Nat2Z.id, Hb).
  rewrite E. change (default [] (Some (a ++ n :: c))) with (a ++ n :: c). rewrite as_map_middle by done. apply lookup_insert_eq.
Qed.

Lemma h_rep_kept str str' m t : h_rep str m t -> kept str' t -> h_rep str' m t.
Proof.
  intros (bs & H & Hi) Hk. exists bs. split; [done|]. pose proof (hr_len _ _ H) as Hl.
  assert (Hn : forall i ns, bs !! i = Some (Some ns) -> Forall (fun n => name str' n = name str n) ns).
  { intros i ns Hb. apply Forall_forall. intros n Hin. now apply (name_kept str str' bs t i ns). }
  assert (Em : forall i ns, bs !! i = Some (Some ns) -> as_map str' ns = as_map str ns /\ map (name str') ns = map (name str) ns).
  { intros i ns Hb. specialize (Hn i ns Hb). clear Hb. unfold as_map.
    induction Hn as [|n ns E _ [IH1 IH2]]; [done|]. cbn [map list_to_map]. cbn. now rewrite E, IH1, IH2. }
  destruct Hi as [Hwf Hmap Hmade]. constructor; [| |done].
  - intros i ns Hb. destruct (Hwf i ns Hb) as [Hh Hs Hd Hp]. specialize (Hn i ns Hb). destruct (Em i ns Hb) as [_ E].
    constructor; [| |now rewrite E|done]; apply Forall_forall; intros n Hin; rewrite Forall_forall in *; rewrite (Hn n Hin); auto.
  - intros s. rewrite Hmap. unfold get_bucket. destruct (bs !! Z.to_nat (slot s)) as [[ns|]|] eqn:Eb; [|done..].
    change (default [] (default None (Some (Some ns)))) with ns. now rewrite (proj1 (Em _ _ Eb)).
Qed.

Lemma hash_run_spec str0 cs m t :
  h_rep str0 m t -> hash_ok t cs ->
  exists m' str', hash_run cs m = Ok (m', (hash_spec_run cs t).2) /\ h_rep str' m' (hash_spec_run cs t).1.
Proof.
  revert str0 m t. induction cs as [|[str c] cs IH]; intros str0 m t R0 Hc; [now exists m, str0|]. destruct Hc as (Hk & Hc & Hcs).
  pose proof (h_rep_kept str0 str m t R0 Hk) as R.
  assert (H : exists m', hash_do str m c = Ok (m', (hash_spec str t c).2) /\ h_rep str m' (hash_spec str t c).1).
  { destruct c as [k v p|k|k]; cbn [hash_do hash_spec fst snd].
    - destruct (hashmap_set_spec str m t k v p R Hc) as (m' & -> & R'). now exists m'.
    - rewrite (hashmap_get_spec str m t k R). now exists m.
    - destruct (hashmap_delete_spec str m t k R Hc) as (m' & -> & R'). now exists m'. }
  destruct H as (m1 & E1 & R1). destruct (IH str m1 _ R1 Hcs) as (m2 & str' & E2 & R2). exists m2, str'.
  cbn [hash_run hash_spec_run]. rewrite E1. cbn [mbind res_bind]. rewrite E2. cbn [mbind res_bind].
  destruct (hash_spec str t c) as [t1 v]. cbn [fst snd] in *. destruct (hash_spec_run cs t1) as [t2 vs]. done.
Qed.

(** C33 — The hash map implements a finite map from strings: when the allocations succeed,
    every sequence of calls from [Hashmap_create] on returns what the same sequence on a
    finite map returns, under these conditions: a key is set only while it is absent and
    its bucket has fewer than ten keys; the address of a new node is not that of a live
    one; a key is deleted only from a bucket that exists; and the memory of a key does not
    change as long as it is in the map, which keeps the caller's pointer and reads the
    string again. All other memory may change between the calls, a key buffer that is
    refilled after its key was deleted included. *)
Theorem hashmap_refines cs :
  hash_ok (HState ∅ ∅) cs ->
  exists m str, hash_run cs empty_hash = Ok (m, (hash_spec_run cs (HState ∅ ∅)).2) /\
    Hashmap_create true (Alloc true true) = Ok empty_hash /\ h_rep str m (hash_spec_run cs (HState ∅ ∅)).1.
Proof.
  intros Hc. destruct (create_rep (fun _ => [])) as [E R]. destruct (hash_run_spec _ cs _ _ R Hc) as (m & str & Em & Rm).
  exists m, str. now split_and!.
Qed.

(** Two keys of one bucket; then, as in [test_hashmap_pass1], a buffer that is filled
    with one key after the other. *)
Definition sample_str (buffer : list Z) (p : Z) : list Z :=
  if p =? 100 then [107; 49] else if p =? 200 then [107; 50] else if p =? 300 then buffer else [p].

Definition sample_hash_calls : list ((Z -> list Z) * hash_call) :=
  map (pair (sample_str []))
    [HSet 100 11 1; HSet 200 12 2; HGet 100; HGet 200; HDelete 100; HGet 100; HSet 100 13 1; HGet 100] ++
  map (pair (sample_str [107; 101; 121; 48])) [HSet 300 20 3; HGet 300; HDelete 300] ++
  map (pair (sample_str [107; 101; 121; 49])) [HGet 300; HSet 300 21 3; HGet 300; HDelete 300].

Lemma hashmap_refines_witness :
  exists m str, hash_run sample_hash_calls empty_hash = Ok (m, [0; 0; 11; 12; 11; 0; 0; 13; 0; 20; 20; 0; 0; 21; 21]) /\
    Hashmap_create true (Alloc true true) = Ok empty_hash /\
    h_rep str m (hash_spec_run sample_hash_calls (HState ∅ ∅)).1.
Proof.
  destruct (hashmap_refines sample_hash_calls) as (m & str & E & C & R).
  - apply (bool_decide_unpack _). vm_compute. exact I.
  - exists m, str. split; [exact E|]. split; [exact C|exact R].
Defined.

Lemma hashmap_limits_witness :
  Hashmap_delete (sample_str []) empty_hash 100 = Crash NullDeref.
Proof.
  apply (hashmap_limits (sample_str []) empty_hash (HState ∅ ∅) 100 1 1).
  - apply create_rep.
  - discriminate.
  - apply not_elem_of_empty.
Defined.
