(* ===== verification/ProgList.v ===== *)
(** * The program list of libebpf

    [libebpf/src/ebpf_env.c]: a linked list of programs, each with a machine of its own,
    in the global [current_env]. Pointers are addresses, 0 is NULL; [heap] has the
    programs that are allocated. The addresses that [ebpf_malloc] returns and the
    outcomes of the allocations of the machine are arguments. *)
From stdpp Require Import base tactics numbers list gmap.
From Stdlib Require Import ZArith Lia.
From S2P Require Import Prelude Inst VM.
Local Open Scope Z_scope.

Record ebpf_prog := EbpfProg { prog_id : Z; next : Z; prog_vm : ebpf_vm }.

Record ebpf_env := EbpfEnv { prog_list : Z; tail : Z; cur_size : Z }.

Record world := World { current_env : ebpf_env; heap : gmap Z ebpf_prog; helpers : helper_heap }.

Definition RET_OK : Z := 0.

Definition prog_at (w : world) (p : Z) : res ebpf_prog :=
  if p =? 0 then Crash NullDeref else of_option UseAfterFree (heap w !! p).

Definition init_ubpf_env (w : world) : world := World (EbpfEnv 0 0 0) (heap w) (helpers w).

(** [current_env.tail->next = prog], when there is a tail. *)
Definition link_tail (h : gmap Z ebpf_prog) (t p : Z) : res (gmap Z ebpf_prog) :=
  if t =? 0 then Ok h
  else
    last ← of_option UseAfterFree (h !! t);
    Ok (<[t := EbpfProg (prog_id last) p (prog_vm last)]> h).

(** [p] is the block for the program; the result of [ebpf_vm_load] is not used. *)
Definition ebpf_add_prog (w : world) (code : list Z) (code_len p : Z) (ok_vm ok_code : bool)
    : res (Z * world) :=
  if p =? 0 then Crash NullDeref
  else
    vm ← of_option NullDeref (ebpf_create ok_vm);
    let '(vm, _) := ebpf_vm_load ok_code vm code code_len in
    let e := current_env w in
    let id := s32 (cur_size e + 1) in
    h ← link_tail (<[p := EbpfProg id 0 vm]> (heap w)) (tail e) p;
    let first := if prog_list e =? 0 then p else prog_list e in
    Ok (p, World (EbpfEnv first p id) h (helpers w)).

(** The list is not changed. *)
Definition ebpf_remove_prog (w : world) (p : Z) : res (Z * world) :=
  prog ← prog_at w p;
  hs ← ebpf_vm_destroy (helpers w);
  Ok (RET_OK, World (current_env w) (delete p (heap w)) hs).

(** ** The list *)

(** The programs reached from [p], with their addresses. *)
Fixpoint chain (h : gmap Z ebpf_prog) (p : Z) (l : list (Z * ebpf_prog)) : Prop :=
  match l with
  | [] => p = 0
  | (a, prog) :: l => p = a /\ a <> 0 /\ h !! a = Some prog /\ chain h (next prog) l
  end.

Definition last_addr (l : list (Z * ebpf_prog)) : Z := default 0 (fst <$> last l).

Definition ids (n : nat) : list Z := map (fun i => Z.of_nat (S i)) (seq 0 n).

(** A list of programs with these codes, in order. *)
Record listed (w : world) (l : list (Z * ebpf_prog)) (codes : list (list Z)) : Prop := Listed {
  li_chain : chain (heap w) (prog_list (current_env w)) l;
  li_tail : tail (current_env w) = last_addr l;
  li_size : cur_size (current_env w) = Z.of_nat (length l);
  li_addrs : NoDup (map fst l);
  li_ids : map (fun x => prog_id x.2) l = ids (length l);
  li_codes : map (fun x => insts (prog_vm x.2)) l = map Some codes;
}.

Lemma chain_frame h p l a prog : a ∉ map fst l -> chain h p l -> chain (<[a := prog]> h) p l.
Proof.
  revert p. induction l as [|[b q] l IH]; intros p Hn Hc; [done|]. cbn in *. apply not_elem_of_cons in Hn as [Hn1 Hn2].
  destruct Hc as (-> & H0 & Hb & Hc). split_and!; try done; [now rewrite lookup_insert_ne by done|now apply IH].
Qed.

Lemma chain_last h p l a prog :
  chain h p (l ++ [(a, prog)]) -> h !! a = Some prog /\ next prog = 0 /\ a <> 0.
Proof.
  revert p. induction l as [|[b q] l IH]; intros p; cbn [app chain]; [naive_solver|].
  intros (_ & _ & _ & Hc). eapply IH. exact Hc.
Qed.

Lemma chain_extend h p l a prog b new :
  a <> b -> b <> 0 -> next new = 0 -> NoDup (map fst (l ++ [(a, prog)])) -> b ∉ map fst (l ++ [(a, prog)]) ->
  chain h p (l ++ [(a, prog)]) ->
  chain (<[a := EbpfProg (prog_id prog) b (prog_vm prog)]> (<[b := new]> h)) p
    (l ++ [(a, EbpfProg (prog_id prog) b (prog_vm prog)); (b, new)]).
Proof.
  intros Hab Hb0 Hnew. revert p. induction l as [|[c q] l IH]; intros p Hd Hb.
  - cbn. intros (-> & Ha & _ & _). split_and!; try done.
    + apply lookup_insert_eq.
    + rewrite lookup_insert_ne by done. apply lookup_insert_eq.
  - cbn in Hd, Hb. apply NoDup_cons in Hd as [Hc Hd]. apply not_elem_of_cons in Hb as [Hbc Hb].
    cbn [app chain]. intros (-> & Hc0 & Hq & Hch). split_and!; try done; [|now apply IH].
    rewrite !lookup_insert_ne; [done|done|]. intros ->. apply Hc. rewrite map_app. set_solver.
Qed.

Lemma ids_snoc n : ids (S n) = ids n ++ [Z.of_nat (S n)].
Proof. unfold ids. now rewrite seq_S, map_app. Qed.

Lemma add_listed w l codes code p :
  listed w l codes -> p <> 0 -> p ∉ map fst l -> Z.of_nat (length l) + 1 < 2 ^ 31 ->
  exists w' l', ebpf_add_prog w code (Z.of_nat (length code)) p true true = Ok (p, w') /\
    listed w' l' (codes ++ [code]) /\ map fst l' = map fst l ++ [p].
Proof.
  intros [Hc Ht Hs Hd Hi Hk] Hp Hn Hl. unfold ebpf_add_prog.
  rewrite (proj2 (Z.eqb_neq p 0)) by done. cbn [ebpf_create of_option mbind res_bind].
  unfold ebpf_vm_load. cbn [insts negb]. rewrite Nat2Z.id, firstn_all, Hs, s32_small by (pow_cst; lia).
  set (new := EbpfProg _ 0 _). unfold link_tail. rewrite Ht.
  destruct l as [|[a prog] l _] using rev_ind.
  - cbn in Hc. rewrite Hc. cbn [last_addr last fmap option_fmap option_map default Z.eqb mbind res_bind].
    eexists _, [(p, new)]. split; [reflexivity|]. split; [|done].
    destruct codes; [|done]. constructor; cbn; try done; [|apply NoDup_singleton].
    split_and!; try done. apply lookup_insert_eq.
  - pose proof (chain_last _ _ _ _ _ Hc) as (Ha & Hnx & Ha0).
    unfold last_addr. rewrite last_snoc. change (default 0 (fst <$> Some (a, prog))) with a.
    rewrite (proj2 (Z.eqb_neq a 0)) by done.
    assert (Hpa : p <> a) by (intros ->; apply Hn; rewrite map_app; set_solver).
    rewrite lookup_insert_ne, Ha by done. cbn [of_option mbind res_bind].
    assert (Hfirst : prog_list (current_env w) <> 0).
    { destruct l as [|[b q] l]; cbn in Hc; destruct Hc as (-> & Hb & _); done. }
    rewrite (proj2 (Z.eqb_neq _ 0) Hfirst).
    eexists _, (l ++ [(a, EbpfProg (prog_id prog) p (prog_vm prog)); (p, new)]). split; [reflexivity|].
    split; [|rewrite !map_app; cbn; now rewrite <- (assoc_L (++))].
    constructor; cbn [current_env heap prog_list tail cur_size].
    + now apply chain_extend.
    + unfold last_addr. change [?x; ?y] with ([x] ++ [y]). now rewrite (assoc_L (++)), last_snoc.
    + rewrite !length_app. cbn. lia.
    + rewrite map_app. cbn. rewrite map_app in Hd, Hn. cbn in Hd, Hn. change [a; p] with ([a] ++ [p]).
      rewrite (assoc_L (++)). apply NoDup_app. split; [done|]. split; [set_solver|apply NoDup_singleton].
    + rewrite map_app, length_app in Hi |- *. cbn in Hi |- *.
      replace (length l + 1)%nat with (S (length l)) in Hi by lia.
      replace (length l + 2)%nat with (S (S (length l))) by lia.
      rewrite ids_snoc in Hi. apply app_inj_2 in Hi as [-> [= ->]]; [|done].
      rewrite !ids_snoc, <- (assoc_L (++)). cbn. do 3 f_equal. rewrite length_app. cbn. lia.
    + rewrite map_app in *. cbn in *. rewrite map_app, <- Hk, <- (assoc_L (++)). done.
Qed.

(** ** Properties *)
Fixpoint add_all (adds : list (list Z * Z)) (w : world) : res world :=
  match adds with
  | [] => Ok w
  | (code, p) :: adds =>
      '(_, w) ← ebpf_add_prog w code (Z.of_nat (length code)) p true true;
      add_all adds w
  end.

Lemma add_all_listed adds w l codes :
  listed w l codes -> NoDup (map fst l ++ map snd adds) -> 0 ∉ map snd adds ->
  Z.of_nat (length l + length adds) < 2 ^ 31 ->
  exists w' l', add_all adds w = Ok w' /\ listed w' l' (codes ++ map fst adds) /\
    map fst l' = map fst l ++ map snd adds.
Proof.
  revert w l codes. induction adds as [|[code p] adds IH]; intros w l codes H Hd H0 Hl.
  { exists w, l. cbn. rewrite !app_nil_r. done. }
  cbn [map snd] in *. apply not_elem_of_cons in H0 as [Hp H0]. cbn [length] in Hl.
  assert (Hn : p ∉ map fst l) by (apply NoDup_app in Hd as (_ & Hd & _); intros Hin; apply (Hd p Hin); set_solver).
  destruct (add_listed w l codes code p H) as (w1 & l1 & E1 & H1 & Ea); [done|done|lia|].
  destruct (IH w1 l1 (codes ++ [code]) H1) as (w2 & l2 & E2 & H2 & Eb).
  - now rewrite Ea, <- (assoc_L (++)).
  - done.
  - assert (length l1 = S (length l)); [|lia].
    apply (f_equal length) in Ea. rewrite length_app, !length_map in Ea. cbn in Ea. lia.
  - exists w2, l2. cbn [add_all]. rewrite E1. cbn [mbind res_bind]. split; [done|].
    cbn [fst]. rewrite Eb, Ea, <- !(assoc_L (++)) in *. done.
Qed.

(** The programs that are added form the list in their order: from [prog_list] on, the
    pointers lead through all of them to NULL, they have the numbers 1 to n, and each
    has a machine with its code. *)
Theorem prog_list_adds w adds :
  NoDup (map snd adds) -> 0 ∉ map snd adds -> Z.of_nat (length adds) < 2 ^ 31 ->
  exists w' l, add_all adds (init_ubpf_env w) = Ok w' /\ listed w' l (map fst adds) /\
    map fst l = map snd adds.
Proof.
  intros Hd H0 Hl. apply (add_all_listed adds (init_ubpf_env w) [] []); try done.
  constructor; cbn; try done. constructor.
Qed.

Lemma prog_list_adds_witness :
  exists w' l, add_all [([1; 2], 16); ([3], 32); ([], 64)]
      (init_ubpf_env (World (EbpfEnv 0 0 0) ∅ (HelperHeap [] None))) = Ok w' /\
    listed w' l [[1; 2]; [3]; []] /\ map fst l = [16; 32; 64].
Proof.
  apply (prog_list_adds _ [([1; 2], 16); ([3], 32); ([], 64)]);
    [apply (bool_decide_unpack _); vm_compute; exact I..|cbn; pow_cst; lia].
Defined.

(** Removing the last program leaves [tail] pointing to it: the next addition writes
    through the freed pointer; if the allocator returns the same block again, the program
    becomes its own successor and the list never ends. *)
Theorem prog_list_dangling w l codes a prog hs code :
  listed w (l ++ [(a, prog)]) codes -> ebpf_vm_destroy (helpers w) = Ok hs ->
  exists w', ebpf_remove_prog w a = Ok (RET_OK, w') /\
    (forall p, p <> 0 -> p <> a -> ebpf_add_prog w' code (Z.of_nat (length code)) p true true = Crash UseAfterFree) /\
    exists w'' new, ebpf_add_prog w' code (Z.of_nat (length code)) a true true = Ok (a, w'') /\
      heap w'' !! a = Some new /\ next new = a.
Proof.
  intros [Hc Ht _ _ _ _] Hh. pose proof (chain_last _ _ _ _ _ Hc) as (Ha & _ & Ha0).
  unfold last_addr in Ht. rewrite last_snoc in Ht. change (default 0 (fst <$> Some (a, prog))) with a in Ht.
  unfold ebpf_remove_prog, prog_at. rewrite (proj2 (Z.eqb_neq a 0)) by done. rewrite Ha, Hh.
  cbn [of_option mbind res_bind]. eexists. split; [reflexivity|].
  unfold ebpf_add_prog, link_tail. cbn [current_env heap helpers ebpf_create of_option mbind res_bind].
  cbn [ebpf_vm_load insts negb]. rewrite Ht, (proj2 (Z.eqb_neq a 0)) by done. split.
  - intros p Hp Hpa. rewrite (proj2 (Z.eqb_neq p 0)) by done.
    now rewrite lookup_insert_ne, lookup_delete_eq by done.
  - rewrite lookup_insert_eq. cbn [of_option mbind res_bind]. do 2 eexists. split; [reflexivity|].
    cbn [heap]. rewrite lookup_insert_eq. done.
Qed.

Lemma prog_list_dangling_witness :
  exists w1 w2, add_all [([7], 16)] (init_ubpf_env (World (EbpfEnv 0 0 0) ∅ (HelperHeap [] None))) = Ok w1 /\
    ebpf_remove_prog w1 16 = Ok (RET_OK, w2) /\
    ebpf_add_prog w2 [8] 1 32 true true = Crash UseAfterFree.
Proof.
  set (vm := EbpfVm (Some [7]) 0 false None None false).
  set (w1 := World (EbpfEnv 16 16 1) {[16 := EbpfProg 1 0 vm]} (HelperHeap [] None)).
  destruct (prog_list_dangling w1 [] [[7]] 16 (EbpfProg 1 0 vm) (HelperHeap [] None) [8]) as (w2 & E & H & _).
  - constructor; try reflexivity; [|apply NoDup_singleton]. cbn. split; [reflexivity|]. split; [discriminate|].
    split; reflexivity.
  - reflexivity.
  - exists w1, w2. split; [reflexivity|]. split; [exact E|]. apply (H 32); discriminate.
Defined.
